(* ===== verification/_CoqProject ===== *)
-Q . S2P
Prelude.v
Params.v
CString.v
State.v
Spinlock.v
Kalloc.v
Process.v
Sched.v
Vm.v
VmRep.v
VmMap.v
Uvm.v
Copy.v
Space.v
Pipe.v
Bytes.v
Sleeplock.v
Bio.v
BioRep.v
Cache.v
Log.v
LogRep.v
Crash.v
Txn.v
Fs.v
FsRep.v
FsAlloc.v
FsInode.v
FsFile.v
Dir.v
FsDir.v
FsPath.v
Console.v
File.v
Lifecycle.v
Freewalk.v
Fork.v
Exit.v
Wait.v
Machine.v
Kvm.v
Asm.v
Start.v
Exec.v
Sysarg.v
Sysproc.v
Sysfile.v
Syscall.v
Trap.v
Ecall.v
Fault.v
Limits.v
Wf.v
Virtio.v
Boot.v
Printf.v
Uprintf.v
Ulib.v
Proccost.v
Grep.v
Sh.v
Uprog.v
Shrun.v
Utils.v
Tools.v
Mkfs.v
MkfsRep.v
MkfsImage.v
MkfsBoot.v
Umalloc.v
Sbrk.v
