(* ===== verification/Prelude.v ===== *)
(** * A verification library for the xv6-riscv kernel of this repository

    The program is an xv6 kernel for RISC-V extended with power modes and CPU
    budgets per process, a cost report, a system-health report and usage
    limits, and the user programs that come with it.  The C functions are
    translated into Gallina functions of the same names over an explicit
    kernel state, and the theorems are about those functions.

    ** How the parts fit together

    A trap from user space ([kernel/trap.c]) dispatches to a system call
    ([kernel/syscall.c], [sysproc.c], [sysfile.c]) or an interrupt handler.
    System calls use processes ([proc.c]), user memory ([vm.c], [kalloc.c]),
    open files and pipes ([file.c], [pipe.c]), and through them the file system
    ([fs.c]), which runs in transactions of the log ([log.c]) over the buffer
    cache ([bio.c]) over the disk driver ([virtio_disk.c]).  A process waits by
    switching to the scheduler, which runs another one.

    ** The model

    [Prelude.v] (this file): machine integers as [Z] with their wrap-around;
    record updates; the monad [K] of code that may return, panic, fault, switch
    to the scheduler (and be resumed in any state) or exhaust the fuel of a
    model; byte-addressed memory; lists.
    [Params.v]: constants and macros of [param.h], [memlayout.h], [riscv.h],
    [fs.h].  [State.v]: the structs as records and the global state [kst] as
    one hart sees it; locks are the set of locks the hart holds.
    - [Spinlock.v]: [spinlock.c] with lock words, owners and interrupt nesting,
      and all interleavings of several harts.
    - [CString.v]: [string.c].  [Bytes.v]: fields of byte arrays.
    - [Kalloc.v]: [kalloc.c], the list of free pages threaded through memory.
    - [Process.v], [Sched.v], [Lifecycle.v]: [proc.c] (sleeping, waking and the
      controls by pid; the scheduler; creation and end of processes);
      [Fork.v], [Exit.v], [Wait.v]: the theorems on [fork], [exit] and [wait].
    - [Vm.v]: [vm.c]; [VmRep.v], [VmMap.v], [Uvm.v], [Copy.v], [Space.v],
      [Freewalk.v]: page tables in RAM represented as a map, the view a process
      has of its memory, and the theorems on mapping, page faults, [copyout]
      and [copyin], on growing, shrinking and copying a process, and on
      freeing it.  [Kvm.v]: the kernel's own page table.
    - [Machine.v]: the hart (registers, CSRs, Sv39 translation, instructions);
      [Asm.v]: [swtch.S], [trampoline.S], [kernelvec.S], [entry.S];
      [Start.v]: [start.c]; [Boot.v]: [main.c], [plic.c] and the set-up of UART
      and console.
    - [Pipe.v]: [pipe.c].  [Sleeplock.v]: [sleeplock.c].
    - [Bio.v], [BioRep.v], [Cache.v]: [bio.c], the list of buffers in order of
      last use, and the cache as a view of the disk.
    - [Log.v], [LogRep.v], [Crash.v], [Txn.v]: [log.c], its blocks on the disk,
      crashes during a commit, transactions.
    - [Fs.v], [Dir.v]: [fs.c]; [FsRep.v], [FsAlloc.v], [FsInode.v],
      [FsFile.v], [FsDir.v], [FsPath.v]: blocks inside a transaction, the block
      allocator, inodes, file contents, the inode table and directories, and
      path names.
    - [Console.v]: [console.c] and [uart.c].  [File.v]: [file.c] and
      [pipealloc].  [Exec.v]: [exec.c].
    - [Sysarg.v], [Sysproc.v], [Sysfile.v], [Syscall.v]: the system calls.
    - [Trap.v]: [trap.c] and [forkret].  [Ecall.v], [Fault.v]: a system call
      and a page fault from the user's instruction and back.  [Limits.v]: the
      usage limit, bad system calls.  [Wf.v]: the invariant of the process
      table.
    - [Virtio.v]: [virtio_disk.c] over its rings, with the device a parameter.
    - [Printf.v]: [kernel/printf.c].  [Uprintf.v], [Ulib.v]: [user/printf.c],
      [user/ulib.c].  [Umalloc.v]: [user/umalloc.c]; [Sbrk.v]: the kernel's
      [sbrk] has the effect the allocator relies on.
    - [Uprog.v]: user programs as trees of system calls, and processes that take
      turns; [Sh.v], [Shrun.v]: [sh.c], its parser and the running of commands;
      [Utils.v]: [cat], [wc], [echo], [rm], [mkdir], [ln], [kill], [init];
      [Tools.v], [Proccost.v]: [proccost], [powerctl], [powerdemo], [usagectl],
      [usagestat], [syshealth], [writer]; [Grep.v]: [grep.c].
    - [Mkfs.v], [MkfsRep.v], [MkfsImage.v], [MkfsBoot.v]: [mkfs.c], the image it
      builds, and the image as the kernel reads it.

    ** What the theorems show

    - Locks: in every interleaving no two harts hold a lock, lock holders have
      interrupts off, and the concrete [acquire]/[release] refine the lock set
      the other files use ([Spinlock.v]).
    - Boot: a hart comes out of machine mode in [main] with everything delegated
      to supervisor mode ([Start.v]); every initialiser succeeds and [main]
      reaches the scheduler with the first process ready ([Boot.v]); on the
      kernel's page table code is not writable, data not executable and each
      kernel stack has a guard page ([Kvm.v]).
    - Traps: [uservec] and [userret] save and restore every register, [swtch]
      resumes where it was called, an interrupt is invisible to kernel code
      ([Asm.v]); a process continues after [ecall] with the handler's value in
      [a0] and nothing else changed ([Ecall.v]); an access to a page not yet
      allocated runs again as if it had been there ([Fault.v]).
    - Memory: the allocator keeps its list and gives out each page once
      ([Kalloc.v]); [mappages], page faults, [copyout] and [copyin] are exact
      with respect to the memory a process sees ([VmMap.v], [Copy.v]); growing,
      shrinking, copying and freeing an address space lose and share no page
      ([Space.v], [Freewalk.v]).
    - Processes: [fork] makes a process with the memory, registers, files and
      directory of the parent, or gives back all it took ([Fork.v]); [exit]
      leaves a zombie, and its status reaches the parent ([Wait.v]).
    - Scheduling: one round is a map over the table; budgets and eco mode bound
      how often a process runs; the scheduler never panics ([Sched.v]).  A
      process over its usage limit is stopped ([Limits.v]).  All fields of all
      processes stay in range through every trap, system call and scheduler
      round ([Wf.v]).
    - Pipes deliver bytes in order ([Pipe.v]).
    - Crash safety: a commit is atomic under a crash at any disk write followed
      by recovery; [begin_op] reserves room, [log_write] absorbs, [end_op]
      makes the transaction durable ([Crash.v], [Txn.v]).
    - File system: block allocation, inode load and store, [readi] and [writei]
      against the contents of a file, [iget] and [dirlookup]; [namei] and
      [nameiparent] against the directory tree on the disk, with the reference
      counts ([FsPath.v]).
    - The image [mkfs] writes holds, read with the kernel's functions, exactly
      the files it was given ([MkfsBoot.v]).
    - Driver: descriptors are taken three or none, and a request goes through
      driver, device, interrupt and driver with the effect the buffer cache
      relies on ([Virtio.v]); the file-system theorems assume that effect as
      the class [BlockDevOk].
    - Programs: [malloc] gives out disjoint blocks and [free] loses none
      ([Umalloc.v]); the shell parses every line of its grammar back, stops on
      every other, and runs exactly the programs of the command with the files
      its pipes and redirections say, in any order of its processes ([Sh.v],
      [Shrun.v]); [grep]'s matcher against the language of its patterns and its
      output against the lines of the input; [cat] and [wc] however reads are
      cut; [printf] of kernel and user library agree; numbers print and read
      back; [proccost] sorts; the tools make the one system call they mean.

    ** Bounds and fuel

    Loops that are not structural take fuel.  Where a theorem says a routine
    returns, the fuel is shown to be enough: loops over pages and blocks get one
    unit per page or block plus two, the free list one per page of RAM,
    directory scans one per entry, paths one per byte, [mkfs]'s [iappend] one
    per byte it appends, the shell's parser four calls per character.
    Loops that wait for another process ([sleep] in a loop) take the number of
    wake-ups they see as the class [Wakeups]; theorems about them hold for
    every value or say which is needed.  A loop of a user program that need not
    end ([sh], [init]) is a [Goto] between points of the program, with no fuel.

    What is outside the program is a class with the laws its documentation
    gives: the layout the linker chooses ([Layout], [LayoutOk]), the disk
    ([BlockDev], [Device], [Mmio]), the bits a hart implements ([Hart]), the
    files of the build host ([Host]), whether memory is granted ([Grant]).

    ** Not modelled

    [panic]'s output; prototypes and type names ([defs.h], [types.h]); other
    harts' steps inside a routine, which are covered by the lock theorems and by
    resuming in an arbitrary state; uninitialised memory that is copied to user
    space, which is the class [Uninit]; accessed and dirty bits of page tables.
    Of the user programs, the tests of the kernel from user space ([usertests],
    [grind], [forktest], [logstress], [stressfs]), which say nothing of the
    kernel beyond the calls they make; [ls] and the one-page programs
    [busyspin], [dorphan], [forphan], [zombie]; the arguments of [grep]; and the
    copies [ulib.c] has of functions of [string.c].
    [itrunc], [dirlink], [exec] and the creation and removal of files are
    modelled and executable, but there is no functional theorem on them beyond
    the invariant of the process table. *)

From Stdlib Require Import ZArith Lia.
From stdpp Require Import base gmap list strings numbers.

Open Scope Z_scope.

(* ------------------------------------------------------------------ *)
(** ** Machine integers

    C integers are kept as [Z] in the range of their type; every operation
    that may leave the range is followed by one of these wraps.  Signed
    overflow is modelled as the two's complement wrap of the RISC-V
    instructions the compiler emits ([addw] and friends). *)

Definition u8 (x : Z) : Z := x mod 2 ^ 8.
Definition u16 (x : Z) : Z := x mod 2 ^ 16.
Definition u32 (x : Z) : Z := x mod 2 ^ 32.
Definition u64 (x : Z) : Z := x mod 2 ^ 64.
Definition s16 (x : Z) : Z := (x + 2 ^ 15) mod 2 ^ 16 - 2 ^ 15.
Definition s32 (x : Z) : Z := (x + 2 ^ 31) mod 2 ^ 32 - 2 ^ 31.

(** Range predicates of the C types, used by the invariants. *)
Definition is_u32 (x : Z) : Prop := 0 ≤ x < 2 ^ 32.
Definition is_u64 (x : Z) : Prop := 0 ≤ x < 2 ^ 64.
Definition is_s32 (x : Z) : Prop := - 2 ^ 31 ≤ x < 2 ^ 31.

(** C truth values. *)
Definition b2z (b : bool) : Z := if b then 1 else 0.

(* ------------------------------------------------------------------ *)
(** ** Record update

    [s <| f := v |>] is [s] with field [f] replaced.  A record takes part
    by declaring its eta expansion once, as an instance of [Eta]; the setter
    of each field is then computed by unification. *)

Class Eta (R : Type) := eta : R → R.
Class SetField {R T : Type} (proj : R → T) := setf : (T → T) → R → R.
Arguments setf {R T} proj {_} _ _ : simpl never.

Ltac build_setf :=
  match goal with
  | |- SetField ?p =>
      let R := match type of p with ?R → _ => R end in
      let h := fresh "h" in
      let r := fresh "r" in
      intros h r;
      let t := eval cbv [eta] in (@eta R _ r) in
      let t := match t with
               | ?g r => let t' := eval unfold g in t in eval cbv beta in t'
               | _ => t
               end in
      let g := eval pattern (p r) in t in
      match g with
      | ?G _ => let u := eval cbv beta in (G (h (p r))) in exact u
      end
  end.

#[export] Hint Extern 1 (SetField _) => build_setf : typeclass_instances.
#[global] Opaque setf.

Declare Scope kernel_scope.
Delimit Scope kernel_scope with kernel.
Open Scope kernel_scope.

Notation "s <| f := v |>" := (setf f (λ _, v) s)
  (at level 1, left associativity, f at level 8, v at level 200,
   format "s  <| f  :=  v |>") : kernel_scope.
Notation "s <| f ::= h |>" := (setf f h s)
  (at level 1, left associativity, f at level 8, h at level 200,
   format "s  <| f  ::=  h |>") : kernel_scope.

(** [rsimpl] computes a projection of an updated record: the updated field
    gives the new value, any other field skips the update. *)
Ltac is_field f :=
  is_const f;
  let t := eval cbv delta [f] in f in
  match t with (fun r => match r with _ => _ end) => idtac end.

(** The equation for field [f] of an update of field [g]; it is checked on a
    variable record, whatever the size of the record it is used on. *)
Ltac field_eqn R T f g i h s :=
  match goal with
  | _ =>
      let _ := match goal with _ => constr_eq f g end in
      constr:(ltac:(with_strategy transparent [setf] (intros; reflexivity)) :
                ∀ (h' : T → T) (x : R), f (@setf R T g i h' x) = h' (f x))
  | _ =>
      constr:(ltac:(with_strategy transparent [setf] (intros; reflexivity)) :
                ∀ (h' : T → T) (x : R), f (@setf R T g i h' x) = f x)
  end.

Ltac rsimpl_once :=
  match goal with
  | |- context [?f (@setf ?R ?T ?g ?i ?h ?s)] =>
      is_field f;
      let E := field_eqn R T f g i h s in
      pattern (f (@setf R T g i h s));
      refine (eq_ind_r _ _ (E h s)); cbv beta
  | H : context [?f (@setf ?R ?T ?g ?i ?h ?s)] |- _ =>
      is_field f;
      let E := field_eqn R T f g i h s in
      pattern (f (@setf R T g i h s)) in H;
      match type of H with
      | ?P _ =>
          let H' := fresh in
          pose proof (eq_ind _ P H _ (E h s)) as H'; cbv beta in H'; clear H; rename H' into H
      end
  end.
Ltac rsimpl := repeat rsimpl_once.

(* ------------------------------------------------------------------ *)
(** ** The kernel monad

    A kernel routine takes the machine state and has one of five outcomes:
    - [Ok a s]: it returned [a] in state [s];
    - [Panic m]: it called [panic(m)];
    - [Fault]: it used an index or pointer the C code may not use (reading
      past an array, following a dangling pointer);
    - [Swtch s k]: it gave up the CPU in [sched()]; the scheduler resumes it
      later by applying [k] to the state found then;
    - [OutOfFuel]: a bounded unfolding of a loop was too short.  Theorems
      that say a routine returns exclude this outcome. *)

Inductive res (S A : Type) : Type :=
| Ok (a : A) (s : S)
| Panic (msg : string)
| Fault
| Swtch (s : S) (k : S → res S A)
| OutOfFuel.
Arguments Ok {S A} a s.
Arguments Panic {S A} msg.
Arguments Fault {S A}.
Arguments Swtch {S A} s k.
Arguments OutOfFuel {S A}.

Definition K (S A : Type) : Type := S → res S A.

Fixpoint bind_res {S A B} (r : res S A) (f : A → K S B) : res S B :=
  match r with
  | Ok a s => f a s
  | Panic m => Panic m
  | Fault => Fault
  | Swtch s k => Swtch s (λ s', bind_res (k s') f)
  | OutOfFuel => OutOfFuel
  end.

Definition ret {S A} (a : A) : K S A := λ s, Ok a s.
Definition bind {S A B} (m : K S A) (f : A → K S B) : K S B := λ s, bind_res (m s) f.
Definition panic {S A} (msg : string) : K S A := λ _, Panic msg.
Definition fault {S A} : K S A := λ _, Fault.
Definition nofuel {S A} : K S A := λ _, OutOfFuel.
Definition gets {S A} (f : S → A) : K S A := λ s, Ok (f s) s.
Definition modify {S} (f : S → S) : K S unit := λ s, Ok tt (f s).
Definition swtch {S} : K S unit := λ s, Swtch s (λ s', Ok tt s').

Notation "x <- m ;; f" := (bind m (λ x, f))
  (at level 60, m at next level, right associativity) : kernel_scope.
Notation "m ;;; f" := (bind m (λ _, f))
  (at level 60, right associativity) : kernel_scope.
Notation "'when' c 'do' m" := (if c then m else ret tt)
  (at level 59, c at level 200, m at level 59) : kernel_scope.

(** An array access that must be in range. *)
Definition in_range {S A} (o : option A) : K S A :=
  match o with Some a => ret a | None => fault end.

(** [for (i in l) { body }]: [body] returns [Some a] to leave the enclosing
    function with [a] and [None] to go on. *)
Fixpoint for_each {S A} (l : list nat) (body : nat → K S (option A)) : K S (option A) :=
  match l with
  | [] => ret None
  | i :: l' =>
      r <- body i ;;
      match r with
      | Some a => ret (Some a)
      | None => for_each l' body
      end
  end.

(** A loop whose state is [x]: [body x] is [inl x'] to iterate and [inr a] to
    leave with [a].  [fuel] bounds the number of iterations. *)
Fixpoint loop {S X A} (fuel : nat) (body : X → K S (X + A)) (x : X) : K S A :=
  match fuel with
  | O => nofuel
  | S fuel' =>
      r <- body x ;;
      match r with
      | inl x' => loop fuel' body x'
      | inr a => ret a
      end
  end.

Section MonadLemmas.
Context {S A B : Type}.
Implicit Types (s : S) (m : K S A) (f : A → K S B).

Lemma bind_ok m f s a s' : m s = Ok a s' → bind m f s = f a s'.
Proof. intros H. unfold bind. by rewrite H. Qed.

Lemma bind_panic m f s msg : m s = Panic msg → bind m f s = Panic msg.
Proof. intros H. unfold bind. by rewrite H. Qed.

Lemma bind_fault m f s : m s = Fault → bind m f s = Fault.
Proof. intros H. unfold bind. by rewrite H. Qed.

Lemma bind_swtch m f s s1 k :
  m s = Swtch s1 k → bind m f s = Swtch s1 (λ s', bind_res (k s') f).
Proof. intros H. unfold bind. by rewrite H. Qed.

Lemma bind_ret a f s : bind (ret a) f s = f a s.
Proof. reflexivity. Qed.

Lemma bind_gets (g : S → A) f s : bind (gets g) f s = f (g s) s.
Proof. reflexivity. Qed.

Lemma bind_modify (g : S → S) (h : unit → K S B) s : bind (modify g) h s = h tt (g s).
Proof. reflexivity. Qed.

Lemma bind_in_range (o : option A) f s a : o = Some a → bind (in_range o) f s = f a s.
Proof. by intros ->. Qed.

(** A sequence that returned went through its first part. *)
Lemma bind_inv_ok m f s b s' :
  bind m f s = Ok b s' → ∃ a s1, m s = Ok a s1 ∧ f a s1 = Ok b s'.
Proof. unfold bind. destruct (m s); simpl; try discriminate. eauto. Qed.

End MonadLemmas.

(** The outcome [r] finishes with [a] in [s'], after any number of context
    switches that come back in arbitrary states. *)
Inductive finishes {S A} : res S A → A → S → Prop :=
| fin_ok a s : finishes (Ok a s) a s
| fin_swtch s k s1 a s' : finishes (k s1) a s' → finishes (Swtch s k) a s'.

Lemma finishes_ok {S A} (a b : A) (s s' : S) : finishes (Ok a s) b s' → b = a ∧ s' = s.
Proof. by inversion 1. Qed.

Lemma finishes_bind {S A B} (m : K S A) (f : A → K S B) s b s' :
  finishes (bind m f s) b s' → ∃ a s1, finishes (m s) a s1 ∧ finishes (f a s1) b s'.
Proof.
  unfold bind. generalize (m s). clear m s. intros r Hf. remember (bind_res r f) as r' eqn:E.
  revert r E. induction Hf as [b s'|s k s1 b s' Hf IH]; intros r E.
  - destruct r; simpl in E; try discriminate. exists a, s. split; [constructor|]. rewrite <- E. constructor.
  - destruct r as [a s0| | |s0 k0|]; simpl in E; try discriminate.
    + exists a, s0. split; [constructor|]. rewrite <- E. by econstructor.
    + injection E as -> ->. destruct (IH (k0 s1) eq_refl) as (a & s2 & H1 & H2).
      exists a, s2. split; [by econstructor|done].
Qed.

Lemma bind_assoc_ok {S A B C} (m : K S A) (f : A → K S B) (g : B → K S C) s a s' :
  m s = Ok a s' → bind (bind m f) g s = bind (f a) g s'.
Proof. intros H. unfold bind. by rewrite H. Qed.

(** [kstep] runs the next primitive of a routine; [kstep_with H] runs a call
    whose outcome [H] is known. *)
Ltac kstep :=
  cbv beta;
  first
    [ rewrite bind_ret | rewrite bind_gets | rewrite bind_modify
    | erewrite bind_in_range by eassumption ]; cbv beta; rsimpl.
Ltac kstep_with H := erewrite bind_ok by (eapply H; eauto); cbv beta; rsimpl.
Ltac ksteps := repeat kstep.

(* ------------------------------------------------------------------ *)
(** ** Byte-addressed memory *)

Abbreviation memory := (gmap Z Z).

Definition ldb (m : memory) (a : Z) : Z := u8 (default 0 (m !! a)).
Definition stb (m : memory) (a v : Z) : memory := <[a := u8 v]> m.

(** Little-endian loads and stores of [n] bytes. *)
Fixpoint ldn (n : nat) (m : memory) (a : Z) : Z :=
  match n with
  | O => 0
  | S n' => ldb m a + 2 ^ 8 * ldn n' m (a + 1)
  end.
Fixpoint stn (n : nat) (m : memory) (a v : Z) : memory :=
  match n with
  | O => m
  | S n' => stn n' (stb m a v) (a + 1) (v / 2 ^ 8)
  end.

Abbreviation load64 := (ldn 8).
Abbreviation store64 := (stn 8).
Abbreviation load32 := (ldn 4).
Abbreviation store32 := (stn 4).

Lemma u8_range x : 0 ≤ u8 x < 256.
Proof. apply Z.mod_pos_bound. lia. Qed.

Lemma u8_small x : 0 ≤ x < 256 → u8 x = x.
Proof. intros. by apply Z.mod_small. Qed.

Lemma ldb_range m a : 0 ≤ ldb m a < 256.
Proof. apply u8_range. Qed.

Lemma ldb_stb_eq m a v : ldb (stb m a v) a = u8 v.
Proof.
  unfold ldb, stb. rewrite lookup_insert_eq. simpl. apply u8_small, u8_range.
Qed.

Lemma ldb_stb_ne m a b v : a ≠ b → ldb (stb m a v) b = ldb m b.
Proof. intros. unfold ldb, stb. by rewrite lookup_insert_ne. Qed.

Lemma ldb_stn_ne n m a v b : (b < a ∨ a + Z.of_nat n ≤ b) → ldb (stn n m a v) b = ldb m b.
Proof.
  revert m a v; induction n as [|n IH]; intros m a v Hb; simpl; [done|].
  rewrite IH by lia. apply ldb_stb_ne. lia.
Qed.

Lemma ldn_ext n m m' a :
  (∀ b, a ≤ b < a + Z.of_nat n → ldb m b = ldb m' b) → ldn n m a = ldn n m' a.
Proof.
  revert a; induction n as [|n IH]; intros a H; simpl; [done|].
  rewrite H by lia. f_equal. f_equal. apply IH. intros b Hb. apply H. lia.
Qed.

Lemma ldn_range n m a : 0 ≤ ldn n m a < 2 ^ (8 * Z.of_nat n).
Proof.
  revert a; induction n as [|n IH]; intros a; simpl ldn; [lia|].
  specialize (IH (a + 1)). pose proof (ldb_range m a).
  replace (8 * Z.of_nat (S n)) with (8 + 8 * Z.of_nat n) by lia.
  rewrite Z.pow_add_r by lia. change (2 ^ 8) with 256 in *. nia.
Qed.

Lemma ldn_stn_eq n m a v : ldn n (stn n m a v) a = v mod 2 ^ (8 * Z.of_nat n).
Proof.
  revert m a v; induction n as [|n IH]; intros m a v; simpl ldn; simpl stn.
  - simpl. by rewrite Z.mod_1_r.
  - rewrite IH, ldb_stn_ne by lia. rewrite ldb_stb_eq.
    replace (8 * Z.of_nat (S n)) with (8 + 8 * Z.of_nat n) by lia.
    rewrite Z.pow_add_r by lia. unfold u8.
    rewrite Z.rem_mul_r by (try apply Z.pow_nonzero; lia). lia.
Qed.

Lemma ldn_stn_ne n n' m a b v :
  (b + Z.of_nat n' ≤ a ∨ a + Z.of_nat n ≤ b) → ldn n' (stn n m a v) b = ldn n' m b.
Proof. intros H. apply ldn_ext. intros c Hc. apply ldb_stn_ne. lia. Qed.

Lemma ldn_zero n m a :
  (∀ b, a ≤ b < a + Z.of_nat n → ldb m b = 0) → ldn n m a = 0.
Proof.
  revert a; induction n as [|n IH]; intros a H; simpl; [done|].
  rewrite H, IH; [done| |lia]. intros b Hb. apply H. lia.
Qed.

(** Byte strings in memory. *)
Fixpoint ldbytes (m : memory) (a : Z) (n : nat) : list Z :=
  match n with
  | O => []
  | S n' => ldb m a :: ldbytes m (a + 1) n'
  end.
Fixpoint stbytes (m : memory) (a : Z) (l : list Z) : memory :=
  match l with
  | [] => m
  | b :: l' => stbytes (stb m a b) (a + 1) l'
  end.

Lemma length_ldbytes m a n : length (ldbytes m a n) = n.
Proof. revert a; induction n as [|n IH]; intros a; simpl; [done|]. by rewrite IH. Qed.

Lemma ldb_stbytes m a l b :
  ldb (stbytes m a l) b =
    if decide (a ≤ b < a + Z.of_nat (length l))
    then u8 (default 0 (l !! Z.to_nat (b - a))) else ldb m b.
Proof.
  revert m a; induction l as [|x l IH]; intros m a; cbn [stbytes length].
  - by rewrite decide_False by lia.
  - rewrite IH. destruct (decide (b = a)) as [->|Hne].
    + rewrite decide_False, decide_True by lia. rewrite ldb_stb_eq.
      by replace (Z.to_nat (a - a)) with O by lia.
    + rewrite ldb_stb_ne by done.
      destruct (decide (a + 1 ≤ b < a + 1 + Z.of_nat (length l))).
      * rewrite decide_True by lia.
        by replace (Z.to_nat (b - a)) with (S (Z.to_nat (b - (a + 1)))) by lia.
      * by rewrite decide_False by lia.
Qed.

Lemma lookup_ldbytes m a n i :
  (i < n)%nat → ldbytes m a n !! i = Some (ldb m (a + Z.of_nat i)).
Proof.
  revert a i; induction n as [|n IH]; intros a [|i] Hi; simpl; try lia.
  - by rewrite Z.add_0_r.
  - rewrite IH by lia. do 2 f_equal. lia.
Qed.

Lemma ldbytes_ext m m' a n :
  (∀ b, a ≤ b < a + Z.of_nat n → ldb m b = ldb m' b) → ldbytes m a n = ldbytes m' a n.
Proof.
  revert a; induction n as [|n IH]; intros a H; simpl; [done|]. rewrite H by lia. f_equal.
  apply IH. intros b Hb. apply H. lia.
Qed.

#[global] Arguments ldn : simpl never.
#[global] Arguments stn : simpl never.

(* ------------------------------------------------------------------ *)
(** ** Wraps *)

Lemma u32_range x : 0 ≤ u32 x < 2 ^ 32.
Proof. apply Z.mod_pos_bound. lia. Qed.
Lemma u64_range x : 0 ≤ u64 x < 2 ^ 64.
Proof. apply Z.mod_pos_bound. lia. Qed.
Lemma u32_small x : 0 ≤ x < 2 ^ 32 → u32 x = x.
Proof. intros. by apply Z.mod_small. Qed.
Lemma u64_small x : 0 ≤ x < 2 ^ 64 → u64 x = x.
Proof. intros. by apply Z.mod_small. Qed.
Lemma s32_range x : - 2 ^ 31 ≤ s32 x < 2 ^ 31.
Proof. unfold s32. pose proof (Z.mod_pos_bound (x + 2 ^ 31) (2 ^ 32)). lia. Qed.
Lemma s32_small x : - 2 ^ 31 ≤ x < 2 ^ 31 → s32 x = x.
Proof. intros. unfold s32. rewrite Z.mod_small; lia. Qed.

Create HintDb word discriminated.
Create Rewrite HintDb word.
#[export] Hint Resolve u8_range u32_range u64_range s32_range ldb_range ldn_range : word.
#[export] Hint Rewrite u8_small u32_small u64_small s32_small using lia : word.
Ltac wsimpl := autorewrite with word.

(* ------------------------------------------------------------------ *)
(** ** Lists *)

(** The first index from [i] on whose element satisfies [f]. *)
Fixpoint find_from {A} (f : A → bool) (l : list A) (i : nat) : option nat :=
  match l with
  | [] => None
  | x :: l' => if f x then Some i else find_from f l' (S i)
  end.
Definition find_first {A} (f : A → bool) (l : list A) : option nat := find_from f l 0.

Lemma find_from_Some {A} (f : A → bool) l i j :
  find_from f l i = Some j ↔
  ∃ n x, j = (i + n)%nat ∧ l !! n = Some x ∧ f x = true ∧
         ∀ n' y, (n' < n)%nat → l !! n' = Some y → f y = false.
Proof.
  revert i; induction l as [|x l IH]; intros i; simpl.
  - split; [done|]. intros (n & y & _ & H & _). done.
  - destruct (f x) eqn:E.
    + split.
      * intros [= <-]. exists O, x. split_and!; try done; intros; lia.
      * intros (n & y & -> & Hn & Hy & Hmin). destruct n as [|n]; [f_equal; lia|].
        specialize (Hmin O x ltac:(lia) eq_refl). congruence.
    + rewrite IH. split.
      * intros (n & y & -> & Hn & Hy & Hmin). exists (S n), y.
        split_and!; try done; [lia|]. intros [|n'] z Hz Hl; simpl in Hl.
        -- congruence.
        -- eapply Hmin; [|done]. lia.
      * intros (n & y & -> & Hn & Hy & Hmin). destruct n as [|n]; simpl in Hn; [congruence|].
        exists n, y. split_and!; try done; [lia|]. intros n' z Hz Hl.
        apply (Hmin (S n') z); [lia|done].
Qed.

Lemma find_first_Some {A} (f : A → bool) l j :
  find_first f l = Some j ↔
  ∃ x, l !! j = Some x ∧ f x = true ∧ ∀ n y, (n < j)%nat → l !! n = Some y → f y = false.
Proof.
  unfold find_first. rewrite find_from_Some. split.
  - intros (n & x & -> & H). eauto.
  - intros (x & H). exists j, x. naive_solver.
Qed.

Lemma find_from_None {A} (f : A → bool) l i :
  find_from f l i = None ↔ ∀ n x, l !! n = Some x → f x = false.
Proof.
  revert i; induction l as [|x l IH]; intros i; simpl; [done|].
  destruct (f x) eqn:E.
  - split; [done|]. intros H. by rewrite (H O x) in E.
  - rewrite IH. split.
    + intros H [|n] y Hy; simpl in Hy; [congruence|eauto].
    + intros H n y Hy. apply (H (S n)). done.
Qed.

Lemma find_first_None {A} (f : A → bool) l :
  find_first f l = None ↔ ∀ n x, l !! n = Some x → f x = false.
Proof. apply find_from_None. Qed.

Lemma alter_lookup_insert {A} (f : A → A) i p (l : list A) :
  l !! i = Some p → alter f i l = <[i := f p]> l.
Proof.
  revert i; induction l as [|q l IH]; intros [|i] Hl; simplify_eq/=; [done|].
  f_equal. by apply IH.
Qed.

Lemma take_imap {A B} (f : nat → A → B) n (l : list A) : take n (imap f l) = imap f (take n l).
Proof.
  apply list_eq. intros i. rewrite list_lookup_imap. destruct (decide (i < n)%nat).
  - by rewrite !lookup_take_lt, list_lookup_imap by lia.
  - by rewrite !lookup_take_ge by lia.
Qed.

Lemma list_alter_of_insert {A} (f : A → A) i x (l : list A) :
  alter f i (<[i := x]> l) = <[i := f x]> l.
Proof. revert i; induction l as [|y l IH]; intros [|i]; simpl; [done..|]. f_equal. apply IH. Qed.
