(* ===== verification/Params.v ===== *)
(** * Constants and address arithmetic

    [kernel/param.h], [kernel/memlayout.h], the page-table macros of
    [kernel/riscv.h], and the constants of [kernel/fs.h], [kernel/proc.h],
    [kernel/stat.h], [kernel/fcntl.h] and [kernel/syscall.h].  The lemmas turn
    the bit operations of the macros into division and remainder. *)

From Stdlib Require Import ZArith Lia.
From S2P Require Import Prelude.
From stdpp Require Import base list numbers.

Open Scope Z_scope.

(** ** param.h *)
Definition NPROC : nat := 64.
Definition NCPU : nat := 8.
Definition NOFILE : nat := 16.
Definition NFILE : nat := 100.
Definition NINODE : nat := 50.
Definition NDEV : Z := 10.
Definition ROOTDEV : Z := 1.
Definition MAXARG : nat := 32.
Definition MAXOPBLOCKS : Z := 10.
Definition LOGBLOCKS : Z := MAXOPBLOCKS * 3.
Definition NBUF : nat := 30.
Definition FSSIZE : Z := 2000.
Definition MAXPATH : Z := 128.
Definition USERSTACK : Z := 1.

(** ** proc.h *)
Definition ECO_SKIP_INTERVAL : Z := 3.
Definition CPU_BUDGET_WINDOW_TICKS : Z := 50.
Definition POWER_NORMAL : Z := 0.
Definition POWER_ECO : Z := 1.

(** ** riscv.h *)
Definition PGSIZE : Z := 4096.
Definition PGSHIFT : Z := 12.
Definition PGROUNDUP (sz : Z) : Z := Z.land (u64 (sz + PGSIZE - 1)) (Z.lnot (PGSIZE - 1)).
Definition PGROUNDDOWN (a : Z) : Z := Z.land a (Z.lnot (PGSIZE - 1)).
Definition PTE_V : Z := Z.shiftl 1 0.
Definition PTE_R : Z := Z.shiftl 1 1.
Definition PTE_W : Z := Z.shiftl 1 2.
Definition PTE_X : Z := Z.shiftl 1 3.
Definition PTE_U : Z := Z.shiftl 1 4.
Definition PA2PTE (pa : Z) : Z := u64 (Z.shiftl (Z.shiftr pa 12) 10).
Definition PTE2PA (pte : Z) : Z := u64 (Z.shiftl (Z.shiftr pte 10) 12).
Definition PTE_FLAGS (pte : Z) : Z := Z.land pte 0x3FF.
Definition PXMASK : Z := 0x1FF.
Definition PXSHIFT (level : Z) : Z := PGSHIFT + 9 * level.
Definition PX (level va : Z) : Z := Z.land (Z.shiftr va (PXSHIFT level)) PXMASK.
Definition MAXVA : Z := Z.shiftl 1 (9 + 9 + 9 + 12 - 1).
Definition SATP_SV39 : Z := Z.shiftl 8 60.
Definition MAKE_SATP (pagetable : Z) : Z := Z.lor SATP_SV39 (Z.shiftr pagetable 12).
Definition SSTATUS_SPP : Z := Z.shiftl 1 8.
Definition SSTATUS_SPIE : Z := Z.shiftl 1 5.
Definition SSTATUS_SIE : Z := Z.shiftl 1 1.

(** ** memlayout.h *)
Definition UART0 : Z := 0x10000000.
Definition UART0_IRQ : Z := 10.
Definition VIRTIO0 : Z := 0x10001000.
Definition VIRTIO0_IRQ : Z := 1.
Definition PLIC : Z := 0x0c000000.
Definition KERNBASE : Z := 0x80000000.
Definition PHYSTOP : Z := KERNBASE + 128 * 1024 * 1024.
Definition TRAMPOLINE : Z := MAXVA - PGSIZE.
Definition KSTACK (p : Z) : Z := TRAMPOLINE - (p + 1) * 2 * PGSIZE.
Definition TRAPFRAME : Z := TRAMPOLINE - PGSIZE.

(** ** fs.h, stat.h, fcntl.h *)
Definition ROOTINO : Z := 1.
Definition BSIZE : Z := 1024.
Definition FSMAGIC : Z := 0x10203040.
Definition NDIRECT : Z := 12.
Definition NINDIRECT : Z := BSIZE / 4.
Definition MAXFILE : Z := NDIRECT + NINDIRECT.
Definition DINODE_SIZE : Z := 64.
Definition IPB : Z := BSIZE / DINODE_SIZE.
Definition BPB : Z := BSIZE * 8.
Definition DIRSIZ : Z := 14.
Definition DIRENT_SIZE : Z := 16.
Definition T_DIR : Z := 1.
Definition T_FILE : Z := 2.
Definition T_DEVICE : Z := 3.
Definition O_RDONLY : Z := 0x000.
Definition O_WRONLY : Z := 0x001.
Definition O_RDWR : Z := 0x002.
Definition O_CREATE : Z := 0x200.
Definition O_TRUNC : Z := 0x400.

(** ** Address arithmetic *)

Lemma land_page_mask x : Z.land x (Z.lnot (PGSIZE - 1)) = x / 4096 * 4096.
Proof.
  change (Z.lnot (PGSIZE - 1)) with (Z.lnot (Z.ones 12)).
  rewrite <- Z.ldiff_land, Z.ldiff_ones_r by lia.
  rewrite Z.shiftl_mul_pow2, Z.shiftr_div_pow2 by lia. done.
Qed.

Lemma PGROUNDDOWN_eq a : PGROUNDDOWN a = a / 4096 * 4096.
Proof. apply land_page_mask. Qed.

Lemma PGROUNDUP_eq sz :
  0 ≤ sz → sz + 4095 < 2 ^ 64 → PGROUNDUP sz = (sz + 4095) / 4096 * 4096.
Proof.
  intros. unfold PGROUNDUP. rewrite land_page_mask. unfold PGSIZE.
  rewrite u64_small by lia. f_equal. f_equal. lia.
Qed.

Lemma PX_eq level va :
  0 ≤ level → PX level va = (va / 2 ^ (12 + 9 * level)) mod 512.
Proof.
  intros. unfold PX, PXSHIFT, PGSHIFT, PXMASK.
  change 0x1FF with (Z.ones 9). rewrite Z.land_ones, Z.shiftr_div_pow2 by lia. done.
Qed.

Lemma PX_range level va : 0 ≤ level → 0 ≤ PX level va < 512.
Proof. intros. rewrite PX_eq by done. apply Z.mod_pos_bound. lia. Qed.

Lemma PA2PTE_eq pa : 0 ≤ pa < 2 ^ 64 → PA2PTE pa = pa / 4096 * 1024.
Proof.
  intros. unfold PA2PTE. rewrite Z.shiftl_mul_pow2, Z.shiftr_div_pow2 by lia.
  change (2 ^ 12) with 4096. change (2 ^ 10) with 1024.
  apply u64_small. split; [apply Z.mul_nonneg_nonneg; [apply Z.div_pos|]; lia|].
  pose proof (Z.mul_div_le pa 4096). lia.
Qed.

(** A virtual address below [MAXVA] is determined by its three indices and
    its page offset. *)
Lemma va_split va :
  0 ≤ va < MAXVA →
  va = PX 2 va * 2 ^ 30 + PX 1 va * 2 ^ 21 + PX 0 va * 2 ^ 12 + va mod 4096.
Proof.
  intros [H0 H1]. rewrite !PX_eq by lia.
  change (2 ^ (12 + 9 * 2)) with (2 ^ 30). change (2 ^ (12 + 9 * 1)) with (2 ^ 21).
  change (2 ^ (12 + 9 * 0)) with 4096. change MAXVA with (2 ^ 38) in H1.
  change (2 ^ 30) with (262144 * 4096). change (2 ^ 21) with (512 * 4096).
  rewrite !(Z.mul_comm _ 4096), <- !Z.div_div by lia.
  pose proof (Z.div_mod va 4096 ltac:(lia)) as E.
  assert (0 ≤ va / 4096 < 2 ^ 26) as Hb
    by (split; [apply Z.div_pos | apply Z.div_lt_upper_bound]; lia).
  set (p := va / 4096) in *. clearbody p.
  replace (p / 262144) with (p / 512 / 512) by (rewrite Z.div_div by lia; done).
  pose proof (Z.div_mod p 512 ltac:(lia)). pose proof (Z.div_mod (p / 512) 512 ltac:(lia)).
  rewrite (Z.mod_small (p / 512 / 512)); [lia|].
  split; [repeat apply Z.div_pos; lia|].
  rewrite Z.div_div by lia. apply Z.div_lt_upper_bound; lia.
Qed.

(** [PTE2PA] recovers the page a PTE was built for, whatever flag bits were
    or-ed in. *)
Lemma PTE2PA_PA2PTE pa flags :
  0 ≤ pa < 2 ^ 56 → pa mod 4096 = 0 → 0 ≤ flags < 1024 →
  PTE2PA (Z.lor (PA2PTE pa) flags) = pa.
Proof.
  intros Hpa Hal Hfl. unfold PTE2PA.
  rewrite Z.shiftr_lor, PA2PTE_eq by lia.
  rewrite !Z.shiftr_div_pow2, Z.shiftl_mul_pow2 by lia.
  change (2 ^ 10) with 1024. change (2 ^ 12) with 4096.
  rewrite Z.div_mul, (Z.div_small flags), Z.lor_0_r by lia.
  pose proof (Z.div_mod pa 4096 ltac:(lia)). rewrite u64_small; lia.
Qed.

Lemma PTE_FLAGS_PA2PTE pa flags :
  0 ≤ pa < 2 ^ 64 → 0 ≤ flags < 1024 → PTE_FLAGS (Z.lor (PA2PTE pa) flags) = flags.
Proof.
  intros Hpa Hfl. unfold PTE_FLAGS. change 0x3FF with (Z.ones 10).
  rewrite Z.land_lor_distr_l, !Z.land_ones, PA2PTE_eq by lia.
  change (2 ^ 10) with 1024. by rewrite Z.mod_mul, Z.lor_0_l, Z.mod_small by lia.
Qed.

(** A flag of a PTE is a flag of its flag bits. *)
Lemma land_PTE_FLAGS pte f :
  0 ≤ f < 1024 → Z.land pte f = Z.land (PTE_FLAGS pte) f.
Proof.
  intros. unfold PTE_FLAGS. rewrite <- Z.land_assoc. f_equal.
  change 0x3FF with (Z.ones 10). rewrite Z.land_comm, Z.land_ones by lia.
  by rewrite Z.mod_small.
Qed.
