(* ===== verification/CString.v ===== *)
(** * kernel/string.c

    [memset] and [memmove] work on byte-addressed memory; the routines on
    character arrays take each array as the list of its bytes and return
    [None] when the C code would read or write past the end of an array. *)

From Stdlib Require Import ZArith Lia.
From S2P Require Import Prelude Params.
From stdpp Require Import base gmap list strings numbers.

Open Scope Z_scope.

(** ** memset, memmove, memcpy *)

(** [for(i = 0; i < n; i++) cdst[i] = c] *)
Fixpoint memset_loop (k : nat) (m : memory) (dst c i : Z) : memory :=
  match k with
  | O => m
  | S k' => memset_loop k' (stb m (dst + i) c) dst c (i + 1)
  end.
Definition memset (m : memory) (dst c n : Z) : memory := memset_loop (Z.to_nat n) m dst c 0.

(** [while(n-- > 0) *d++ = *s++] *)
Fixpoint move_forward (k : nat) (m : memory) (d s : Z) : memory :=
  match k with
  | O => m
  | S k' => move_forward k' (stb m d (ldb m s)) (d + 1) (s + 1)
  end.
(** [while(n-- > 0) *--d = *--s] *)
Fixpoint move_backward (k : nat) (m : memory) (d s : Z) : memory :=
  match k with
  | O => m
  | S k' => move_backward k' (stb m (d - 1) (ldb m (s - 1))) (d - 1) (s - 1)
  end.
Definition memmove (m : memory) (dst src n : Z) : memory :=
  if n =? 0 then m
  else if (src <? dst) && (src + n >? dst)
  then move_backward (Z.to_nat n) m (dst + n) (src + n)
  else move_forward (Z.to_nat n) m dst src.
Definition memcpy (m : memory) (dst src n : Z) : memory := memmove m dst src n.

(** ** Character arrays *)

(** [memcmp]: the difference of the first two bytes that differ, or 0. *)
Fixpoint memcmp_loop (k : nat) (s1 s2 : list Z) (i : nat) : option Z :=
  match k with
  | O => Some 0
  | S k' =>
      a ← s1 !! i; b ← s2 !! i;
      if a =? b then memcmp_loop k' s1 s2 (S i) else Some (a - b)
  end.
Definition memcmp (v1 v2 : list Z) (n : Z) : option Z := memcmp_loop (Z.to_nat n) v1 v2 0.

Fixpoint strncmp_loop (k : nat) (p q : list Z) (i : nat) : option Z :=
  match k with
  | O => Some 0
  | S k' =>
      a ← p !! i; b ← q !! i;
      if negb (a =? 0) && (a =? b) then strncmp_loop k' p q (S i) else Some (u8 a - u8 b)
  end.
Definition strncmp (p q : list Z) (n : Z) : option Z := strncmp_loop (Z.to_nat n) p q 0.

(** Writing one element, in range. *)
Definition put (s : list Z) (i : nat) (c : Z) : option (list Z) :=
  if decide (i < length s)%nat then Some (<[i := c]> s) else None.

Fixpoint zero_rest (k : nat) (s : list Z) (i : nat) : option (list Z) :=
  match k with
  | O => Some s
  | S k' => s' ← put s i 0; zero_rest k' s' (S i)
  end.
(** [while(n-- > 0 && ( *s++ = *t++ ) != 0); while(n-- > 0) *s++ = 0] *)
Fixpoint strncpy_loop (k : nat) (s t : list Z) (i : nat) : option (list Z) :=
  match k with
  | O => Some s
  | S k' =>
      c ← t !! i; s' ← put s i c;
      if c =? 0 then zero_rest k' s' (S i) else strncpy_loop k' s' t (S i)
  end.
Definition strncpy (s t : list Z) (n : Z) : option (list Z) := strncpy_loop (Z.to_nat n) s t 0.

(** [while(--n > 0 && ( *s++ = *t++ ) != 0); *s = 0], entered with [n - 1 = k] *)
Fixpoint safestrcpy_loop (k : nat) (s t : list Z) (i : nat) : option (list Z) :=
  match k with
  | O => put s i 0
  | S k' =>
      c ← t !! i; s' ← put s i c;
      if c =? 0 then put s' (S i) 0 else safestrcpy_loop k' s' t (S i)
  end.
Definition safestrcpy (s t : list Z) (n : Z) : option (list Z) :=
  if n <=? 0 then Some s else safestrcpy_loop (Z.to_nat (n - 1)) s t 0.

(** [for(n = 0; s[n]; n++)] *)
Fixpoint strlen_loop (s : list Z) (n : Z) : option Z :=
  match s with
  | [] => None
  | c :: s' => if c =? 0 then Some n else strlen_loop s' (n + 1)
  end.
Definition strlen (s : list Z) : option Z := strlen_loop s 0.

(** The C string an array holds: its bytes up to the first NUL. *)
Fixpoint cstr (s : list Z) : list Z :=
  match s with
  | [] => []
  | c :: s' => if c =? 0 then [] else c :: cstr s'
  end.

(** ** Memory blocks *)

Lemma ldb_memset_loop k m dst c i a :
  ldb (memset_loop k m dst c i) a =
  if decide (dst + i ≤ a < dst + i + Z.of_nat k) then u8 c else ldb m a.
Proof.
  revert m i; induction k as [|k IH]; intros m i; simpl.
  - rewrite decide_False by lia. done.
  - rewrite IH. destruct (decide (a = dst + i)) as [->|Hne].
    + rewrite decide_False by lia. rewrite decide_True by lia. apply ldb_stb_eq.
    + rewrite ldb_stb_ne by congruence.
      destruct (decide (dst + (i + 1) ≤ a < _)); destruct (decide (dst + i ≤ a < _)); try done; lia.
Qed.

(** [memset] sets exactly the bytes of its block. *)
Lemma ldb_memset m dst c n a :
  0 ≤ n → ldb (memset m dst c n) a = if decide (dst ≤ a < dst + n) then u8 c else ldb m a.
Proof.
  intros. unfold memset. rewrite ldb_memset_loop, Z2Nat.id by done.
  by replace (dst + 0) with dst by lia.
Qed.

Lemma ldb_move_forward k m d s a :
  (d ≤ s ∨ s + Z.of_nat k ≤ d) →
  ldb (move_forward k m d s) a =
  if decide (d ≤ a < d + Z.of_nat k) then ldb m (s + (a - d)) else ldb m a.
Proof.
  revert m d s; induction k as [|k IH]; intros m d s H; simpl.
  - rewrite decide_False by lia. done.
  - rewrite IH by lia.
    destruct (decide (d + 1 ≤ a < _)) as [Hin|Hout].
    + rewrite decide_True by lia. rewrite ldb_stb_ne by lia. f_equal. lia.
    + destruct (decide (a = d)) as [->|Hne].
      * rewrite decide_True by lia. rewrite ldb_stb_eq, u8_small by apply ldb_range.
        f_equal. lia.
      * rewrite decide_False by lia. by apply ldb_stb_ne.
Qed.

Lemma ldb_move_backward k m d s a :
  s ≤ d →
  ldb (move_backward k m d s) a =
  if decide (d - Z.of_nat k ≤ a < d) then ldb m (s + (a - d)) else ldb m a.
Proof.
  revert m d s; induction k as [|k IH]; intros m d s H; simpl.
  - rewrite decide_False by lia. done.
  - rewrite IH by lia.
    destruct (decide (d - 1 - Z.of_nat k ≤ a < d - 1)) as [Hin|Hout].
    + rewrite decide_True by lia. rewrite ldb_stb_ne by lia. f_equal. lia.
    + destruct (decide (a = d - 1)) as [->|Hne].
      * rewrite decide_True by lia. rewrite ldb_stb_eq, u8_small by apply ldb_range.
        f_equal. lia.
      * rewrite decide_False by lia. by apply ldb_stb_ne.
Qed.

(** After [memmove] the destination block holds the source block's old
    contents, overlapping or not, and nothing else changed. *)
Lemma ldb_memmove m dst src n a :
  0 ≤ n →
  ldb (memmove m dst src n) a =
  if decide (dst ≤ a < dst + n) then ldb m (src + (a - dst)) else ldb m a.
Proof.
  intros Hn. unfold memmove. destruct (n =? 0) eqn:E0.
  - rewrite decide_False by lia. done.
  - destruct ((src <? dst) && (src + n >? dst)) eqn:Eo.
    + rewrite ldb_move_backward by lia. rewrite Z2Nat.id by lia.
      replace (dst + n - n) with dst by lia.
      destruct (decide (dst ≤ a < dst + n)); [f_equal; lia|done].
    + rewrite ldb_move_forward by lia. by rewrite Z2Nat.id by lia.
Qed.

Lemma ldn_memset_zero k m dst n a :
  0 ≤ n → dst ≤ a → a + Z.of_nat k ≤ dst + n → ldn k (memset m dst 0 n) a = 0.
Proof.
  intros. apply ldn_zero. intros b Hb. rewrite ldb_memset by done.
  by rewrite decide_True by lia.
Qed.

Lemma ldn_memset_other k m dst c n a :
  0 ≤ n → (a + Z.of_nat k ≤ dst ∨ dst + n ≤ a) → ldn k (memset m dst c n) a = ldn k m a.
Proof.
  intros. apply ldn_ext. intros b Hb. rewrite ldb_memset by done.
  by rewrite decide_False by lia.
Qed.

(** ** C strings *)

Lemma put_ok s i c : (i < length s)%nat → put s i c = Some (<[i := c]> s).
Proof. intros. unfold put. by rewrite decide_True. Qed.

Lemma cstr_app_nul a b : Forall (λ c, c ≠ 0) a → cstr (a ++ 0 :: b) = a.
Proof.
  induction 1 as [|c a Hc Ha IH]; simpl; [done|].
  destruct (c =? 0) eqn:E; [lia|]. by rewrite IH.
Qed.

Lemma cstr_nonzero s : Forall (λ c, c ≠ 0) (cstr s).
Proof.
  induction s as [|c s IH]; simpl; [constructor|].
  destruct (c =? 0) eqn:E; constructor; [lia|done].
Qed.

Lemma cstr_step s c s' : s = c :: s' → c ≠ 0 → cstr s = c :: cstr s'.
Proof. intros -> Hc. simpl. destruct (c =? 0) eqn:E; [lia|done]. Qed.

Lemma cstr_idemp_app a b : Forall (λ c, c ≠ 0) a → cstr (a ++ b) = a ++ cstr b.
Proof.
  induction 1 as [|c a Hc Ha IH]; simpl; [done|].
  destruct (c =? 0) eqn:E; [lia|]. by rewrite IH.
Qed.

Lemma take_insert_S (s : list Z) i c :
  (i < length s)%nat → take (S i) (<[i := c]> s) = take i s ++ [c].
Proof.
  intros Hi. rewrite (take_S_r _ _ c) by by apply list_lookup_insert_eq.
  by rewrite take_insert_ge by lia.
Qed.

(** The loop of [safestrcpy] appends the copied characters to the prefix
    already written and terminates the string. *)
Lemma safestrcpy_loop_spec k s t i :
  (i + k < length s)%nat → (i + k ≤ length t)%nat →
  Forall (λ c, c ≠ 0) (take i s) →
  ∃ s', safestrcpy_loop k s t i = Some s' ∧ length s' = length s ∧
        cstr s' = take i s ++ take k (cstr (drop i t)) ∧
        drop (i + k + 1) s' = drop (i + k + 1) s.
Proof.
  revert s i; induction k as [|k IH]; intros s i Hs Ht Hnz; simpl.
  - rewrite put_ok by lia. eexists; split_and!; [done|by rewrite length_insert| |].
    + rewrite <- (take_drop i (<[i:=0]> s)), take_insert_ge by lia.
      rewrite drop_insert_ge by lia. rewrite Nat.sub_diag.
      destruct (drop i s) as [|x r] eqn:E.
      { apply (f_equal length) in E. rewrite length_drop in E. simpl in E. lia. }
      simpl. rewrite cstr_app_nul by done. by rewrite take_0, app_nil_r.
    + apply drop_insert_lt. lia.
  - destruct (lookup_lt_is_Some_2 t i) as [c Hc]; [lia|]. rewrite Hc. simpl.
    rewrite put_ok by lia. simpl.
    rewrite (drop_S _ _ _ Hc). simpl. destruct (c =? 0) eqn:E.
    + assert (c = 0) as -> by lia.
      rewrite put_ok by (rewrite length_insert; lia).
      eexists; split_and!; [done|by rewrite !length_insert| |].
      * rewrite <- (take_drop i (<[S i:=0]> _)), take_insert_ge, take_insert_ge by lia.
        rewrite drop_insert_ge, drop_insert_ge by lia. rewrite Nat.sub_diag.
        destruct (drop i s) as [|x r] eqn:E'.
        { apply (f_equal length) in E'. rewrite length_drop in E'. simpl in E'. lia. }
        replace (S i - i)%nat with 1%nat by lia. simpl.
        rewrite cstr_app_nul by done. by rewrite app_nil_r.
      * rewrite !drop_insert_lt by lia. done.
    + destruct (IH (<[i:=c]> s) (S i)) as (s' & Hr & Hl & Hcs & Hd).
      { rewrite length_insert. lia. } { lia. }
      { rewrite take_insert_S by lia. apply Forall_app. split; [done|].
        constructor; [lia|constructor]. }
      exists s'. split_and!; [done| | |].
      * by rewrite Hl, length_insert.
      * rewrite Hcs, take_insert_S by lia. by rewrite <- app_assoc.
      * replace (i + S k + 1)%nat with (S i + k + 1)%nat by lia.
        rewrite Hd. apply drop_insert_lt. lia.
Qed.

(** [safestrcpy] stays inside both arrays and leaves the NUL-terminated
    prefix of [t] that fits [n] bytes. *)
Lemma safestrcpy_spec s t n :
  0 < n → n ≤ Z.of_nat (length s) → n - 1 ≤ Z.of_nat (length t) →
  ∃ s', safestrcpy s t n = Some s' ∧ length s' = length s ∧
        cstr s' = take (Z.to_nat (n - 1)) (cstr t) ∧
        drop (Z.to_nat n) s' = drop (Z.to_nat n) s.
Proof.
  intros Hn Hs Ht. unfold safestrcpy. destruct (n <=? 0) eqn:E; [lia|].
  destruct (safestrcpy_loop_spec (Z.to_nat (n - 1)) s t 0) as (s' & H1 & H2 & H3 & H4);
    [lia|lia|by rewrite take_0|].
  exists s'. split_and!; try done.
  by replace (Z.to_nat n) with (0 + Z.to_nat (n - 1) + 1)%nat by lia.
Qed.

Lemma zero_rest_spec k s i :
  (i + k ≤ length s)%nat →
  zero_rest k s i = Some (take i s ++ replicate k 0 ++ drop (i + k) s).
Proof.
  revert s i; induction k as [|k IH]; intros s i H; simpl.
  - by rewrite Nat.add_0_r, take_drop.
  - rewrite put_ok by lia. simpl. rewrite IH by (rewrite length_insert; lia).
    rewrite take_insert_S, drop_insert_lt by lia. rewrite <- app_assoc. simpl.
    by replace (S (i + k)) with (i + S k)%nat by lia.
Qed.

Lemma strncpy_loop_spec k s t i :
  (i + k ≤ length s)%nat → ((i + k ≤ length t)%nat ∨ 0 ∈ drop i t) →
  strncpy_loop k s t i =
  Some (take i s ++ take k (cstr (drop i t) ++ replicate k 0) ++ drop (i + k) s).
Proof.
  revert s i; induction k as [|k IH]; intros s i Hs Ht; simpl.
  - by rewrite Nat.add_0_r, take_drop.
  - assert (i < length t)%nat as Hi.
    { destruct Ht as [?|Ht]; [lia|]. apply list_elem_of_lookup in Ht as [j Hj].
      apply lookup_lt_Some in Hj. rewrite length_drop in Hj. lia. }
    destruct (lookup_lt_is_Some_2 t i Hi) as [c Hc]. rewrite Hc. simpl.
    rewrite put_ok by lia. simpl. rewrite (drop_S _ _ _ Hc) in *. simpl.
    destruct (c =? 0) eqn:E.
    + assert (c = 0) as -> by lia. rewrite zero_rest_spec by (rewrite length_insert; lia).
      rewrite take_insert_S, drop_insert_lt by lia. rewrite <- app_assoc. simpl.
      rewrite take_replicate, Nat.min_id. by replace (S (i + k)) with (i + S k)%nat by lia.
    + rewrite IH.
      * rewrite take_insert_S, drop_insert_lt by lia. rewrite <- app_assoc. simpl.
        f_equal. f_equal. f_equal. replace (S (i + k)) with (i + S k)%nat by lia. f_equal.
        change (0 :: replicate k 0) with (replicate (S k) 0).
        rewrite !take_app. f_equal. rewrite !take_replicate. f_equal. lia.
      * rewrite length_insert. lia.
      * destruct Ht as [?|Ht]; [left; lia|]. apply elem_of_cons in Ht as [?|?]; [lia|by right].
Qed.

(** [strncpy] copies the C string and pads with NULs up to [n]. *)
Lemma strncpy_spec s t n :
  0 ≤ n ≤ Z.of_nat (length s) → (n ≤ Z.of_nat (length t) ∨ 0 ∈ t) →
  strncpy s t n =
  Some (take (Z.to_nat n) (cstr t ++ replicate (Z.to_nat n) 0) ++ drop (Z.to_nat n) s).
Proof.
  intros Hn Ht. unfold strncpy. rewrite strncpy_loop_spec; [by simpl|lia|].
  rewrite drop_0. destruct Ht; [left; lia|by right].
Qed.

(** [strncmp] is 0 exactly when the two arrays hold the same string up to
    [n] characters. *)
Lemma strncmp_loop_zero k p q i :
  Forall (λ c, 0 ≤ c < 256) p → Forall (λ c, 0 ≤ c < 256) q →
  ((i + k ≤ length p)%nat ∨ 0 ∈ drop i p) → ((i + k ≤ length q)%nat ∨ 0 ∈ drop i q) →
  ∃ r, strncmp_loop k p q i = Some r ∧
       (r = 0 ↔ take k (cstr (drop i p)) = take k (cstr (drop i q))).
Proof.
  intros Hp Hq. revert i; induction k as [|k IH]; intros i Lp Lq; simpl.
  - by exists 0.
  - assert (∀ l : list Z, ((i + S k ≤ length l)%nat ∨ 0 ∈ drop i l) → (i < length l)%nat) as Hlt.
    { intros l [?|Hl]; [lia|]. apply list_elem_of_lookup in Hl as [j Hj].
      apply lookup_lt_Some in Hj. rewrite length_drop in Hj. lia. }
    destruct (lookup_lt_is_Some_2 p i) as [a Ha]; [by apply Hlt|].
    destruct (lookup_lt_is_Some_2 q i) as [b Hb]; [by apply Hlt|].
    rewrite Ha, Hb. simpl. rewrite (drop_S _ _ _ Ha), (drop_S _ _ _ Hb) in *. simpl.
    pose proof (Forall_lookup_1 _ _ _ _ Hp Ha). pose proof (Forall_lookup_1 _ _ _ _ Hq Hb).
    simpl in *. destruct (a =? 0) eqn:Ea; simpl.
    + exists (u8 a - u8 b). split; [done|]. rewrite !u8_small by done.
      assert (a = 0) as -> by lia. destruct (b =? 0) eqn:Eb; simpl; [split; [done|lia]|].
      split; [lia|done].
    + destruct (a =? b) eqn:Eab.
      * assert (b = a) as -> by lia. rewrite Ea.
        destruct (IH (S i)) as (r & Hr & Hiff).
        { destruct Lp as [?|Lp]; [left; lia|]. apply elem_of_cons in Lp as [?|?]; [lia|by right]. }
        { destruct Lq as [?|Lq]; [left; lia|]. apply elem_of_cons in Lq as [?|?]; [lia|by right]. }
        exists r. split; [done|]. rewrite Hiff. simpl. split; [by intros ->|by intros [=]].
      * exists (u8 a - u8 b). split; [done|]. rewrite !u8_small by done.
        split; [lia|]. destruct (b =? 0); simpl; [done|]. intros [=]. lia.
Qed.

Lemma strncmp_zero p q n :
  0 ≤ n → Forall (λ c, 0 ≤ c < 256) p → Forall (λ c, 0 ≤ c < 256) q →
  (n ≤ Z.of_nat (length p) ∨ 0 ∈ p) → (n ≤ Z.of_nat (length q) ∨ 0 ∈ q) →
  ∃ r, strncmp p q n = Some r ∧
       (r = 0 ↔ take (Z.to_nat n) (cstr p) = take (Z.to_nat n) (cstr q)).
Proof.
  intros Hn Hp Hq Lp Lq. unfold strncmp.
  destruct (strncmp_loop_zero (Z.to_nat n) p q 0 Hp Hq) as (r & Hr & Hiff).
  - rewrite drop_0. destruct Lp; [left; lia|by right].
  - rewrite drop_0. destruct Lq; [left; lia|by right].
  - rewrite !drop_0 in Hiff. eauto.
Qed.

Lemma strlen_loop_spec s n :
  0 ∈ s → strlen_loop s n = Some (n + Z.of_nat (length (cstr s))).
Proof.
  revert n; induction s as [|c s IH]; intros n H; simpl; [by apply not_elem_of_nil in H|].
  destruct (c =? 0) eqn:E; simpl; [f_equal; lia|].
  apply elem_of_cons in H as [?|H]; [lia|]. rewrite IH by done. f_equal. lia.
Qed.

Lemma strlen_spec s : 0 ∈ s → strlen s = Some (Z.of_nat (length (cstr s))).
Proof. intros H. unfold strlen. by rewrite strlen_loop_spec. Qed.

#[export] Hint Rewrite ldb_memset ldb_memmove using lia : word.

#[global] Arguments memset : simpl never.
#[global] Arguments memmove : simpl never.

(** ** Properties *)

(** [memmove] copies the source as it was before the call, also when the
    two ranges overlap, and changes nothing outside the destination. *)
Theorem memmove_overlap_correct m dst src n a :
  0 ≤ n →
  ldb (memmove m dst src n) a =
    if decide (dst ≤ a < dst + n) then ldb m (src + (a - dst)) else ldb m a.
Proof. apply ldb_memmove. Qed.

Lemma memmove_overlap_correct_witness :
  ldb (memmove (stbytes ∅ 0 [1; 2; 3; 4]) 1 0 3) 3 = 3.
Proof. rewrite memmove_overlap_correct by lia. reflexivity. Defined.

(** [safestrcpy] into a large enough array returns, never touches bytes
    past [n], and leaves the source string cut to [n - 1] bytes, NUL
    terminated. *)
Theorem safestrcpy_correct s t n :
  0 < n → n ≤ Z.of_nat (length s) → n - 1 ≤ Z.of_nat (length t) →
  ∃ s', safestrcpy s t n = Some s' ∧ length s' = length s ∧
        cstr s' = take (Z.to_nat (n - 1)) (cstr t) ∧
        drop (Z.to_nat n) s' = drop (Z.to_nat n) s.
Proof. apply safestrcpy_spec. Qed.

Lemma safestrcpy_correct_witness :
  ∃ s', safestrcpy [9; 9; 9; 9] [104; 105; 0] 4 = Some s' ∧ cstr s' = [104; 105].
Proof.
  destruct (safestrcpy_correct [9; 9; 9; 9] [104; 105; 0] 4) as (s' & Hr & _ & Hc & _); [lia|simpl; lia|simpl; lia|].
  exists s'. split; [exact Hr|]. rewrite Hc. reflexivity.
Defined.
