(* ===== verification/State.v ===== *)
(** * Kernel data and machine state

    The structs of [kernel/proc.h], [kernel/file.h], [kernel/fs.h],
    [kernel/buf.h], [kernel/pipe.c], [kernel/log.c] and [kernel/console.c] as
    records, and the global state [kst] made of the kernel's static variables,
    as seen by one hart.  A C array is a list; a pointer into such an array is
    an index and a null pointer is [None].  Structs that live in pages of
    [kalloc] and are only used through typed pointers (pipes) are kept in a
    map from the page's address.

    Spin locks are represented by the set of locks this hart holds ([held]);
    [Spinlock.v] shows that [acquire]/[release] of [kernel/spinlock.c]
    implement exactly that view. *)

From Stdlib Require Import ZArith Lia.
From S2P Require Import Prelude Params CString.
From stdpp Require Import base gmap list strings numbers.

Open Scope Z_scope.

(** ** Locks and wait channels *)

(** The static spin locks of the kernel. *)
Inductive lock : Type :=
| Lkmem | Lpid | Lwait | Lticks | Lftable | Litable | Lbcache | Llog | Lcons | Ltx | Lpr | Lvdisk
| Lproc (i : nat)
| Lpipe (pi : Z)
| Lsleep_inode (i : nat)
| Lsleep_buf (i : nat).

#[export] Instance lock_eq_dec : EqDecision lock.
Proof. solve_decision. Defined.

(** The addresses passed to [sleep] and [wakeup]. *)
Inductive channel : Type :=
| ChNull
| ChTicks                   (** [&ticks] *)
| ChProc (i : nat)          (** a [struct proc], in [kwait] *)
| ChNread (pi : Z)          (** [&pi->nread] *)
| ChNwrite (pi : Z)         (** [&pi->nwrite] *)
| ChLog                     (** [&log] *)
| ChInodeLock (i : nat)     (** the sleep lock of an inode *)
| ChBufLock (i : nat)       (** the sleep lock of a buffer *)
| ChBuf (i : nat)           (** a [struct buf], in the disk driver *)
| ChCons                    (** [&cons.r] *)
| ChTx                      (** [&tx_chan] *)
| ChDisk.                   (** [&disk.free[0]] *)

#[export] Instance channel_eq_dec : EqDecision channel.
Proof. solve_decision. Defined.

(** ** proc.h *)

Inductive procstate : Type := UNUSED | USED | SLEEPING | RUNNABLE | RUNNING | ZOMBIE.

#[export] Instance procstate_eq_dec : EqDecision procstate.
Proof. solve_decision. Defined.

(** [struct context]: the callee-saved registers, [s0] to [s11] as a list. *)
Record context : Type := mkContext { ctx_ra : Z; ctx_sp : Z; ctx_s : list Z }.

(** [struct proc], without its lock. *)
Record proc : Type := mkProc {
  p_state : procstate;
  p_chan : channel;
  p_killed : Z;
  p_xstate : Z;
  p_pid : Z;
  p_parent : option nat;
  p_kstack : Z;
  p_sz : Z;
  p_pagetable : Z;
  p_trapframe : Z;
  p_context : context;
  p_ofile : list (option nat);
  p_cwd : option nat;
  p_name : list Z;
  p_power_mode : Z;
  p_cpu_budget : Z;
  p_ticks_used : Z;
  p_ticks_total : Z;
  p_budget_window_start : Z;
  p_eco_skip_counter : Z;
  p_cpu_ticks : Z;
  p_cpu_ticks_limit : Z;
  p_sched_count : Z;
  p_disk_writes : Z
}.

#[export] Instance proc_eta : Eta proc := λ p,
  mkProc (p_state p) (p_chan p) (p_killed p) (p_xstate p) (p_pid p) (p_parent p)
    (p_kstack p) (p_sz p) (p_pagetable p) (p_trapframe p) (p_context p) (p_ofile p)
    (p_cwd p) (p_name p) (p_power_mode p) (p_cpu_budget p) (p_ticks_used p)
    (p_ticks_total p) (p_budget_window_start p) (p_eco_skip_counter p) (p_cpu_ticks p)
    (p_cpu_ticks_limit p) (p_sched_count p) (p_disk_writes p).

(** The process table's static contents at boot (all zero). *)
Definition proc0 : proc :=
  mkProc UNUSED ChNull 0 0 0 None 0 0 0 0 (mkContext 0 0 (replicate 12 0))
    (replicate NOFILE None) None (replicate 16 0) 0 0 0 0 0 0 0 0 0 0.

#[export] Instance proc_inhabited : Inhabited proc := populate proc0.

(** ** sleeplock.h *)
Record sleeplock : Type := mkSleeplock { sl_locked : Z; sl_pid : Z }.
#[export] Instance sleeplock_eta : Eta sleeplock := λ l, mkSleeplock (sl_locked l) (sl_pid l).

(** ** file.h *)
Inductive filetype : Type := FD_NONE | FD_PIPE | FD_INODE | FD_DEVICE.
#[export] Instance filetype_eq_dec : EqDecision filetype.
Proof. solve_decision. Defined.

Record file : Type := mkFile {
  f_type : filetype;
  f_ref : Z;
  f_readable : Z;
  f_writable : Z;
  f_pipe : Z;
  f_ip : option nat;
  f_off : Z;
  f_major : Z
}.
#[export] Instance file_eta : Eta file := λ f,
  mkFile (f_type f) (f_ref f) (f_readable f) (f_writable f) (f_pipe f) (f_ip f) (f_off f) (f_major f).
Definition file0 : file := mkFile FD_NONE 0 0 0 0 None 0 0.

Record inode : Type := mkInode {
  i_dev : Z;
  i_inum : Z;
  i_ref : Z;
  i_lock : sleeplock;
  i_valid : Z;
  i_type : Z;
  i_major : Z;
  i_minor : Z;
  i_nlink : Z;
  i_size : Z;
  i_addrs : list Z
}.
#[export] Instance inode_eta : Eta inode := λ i,
  mkInode (i_dev i) (i_inum i) (i_ref i) (i_lock i) (i_valid i) (i_type i) (i_major i)
    (i_minor i) (i_nlink i) (i_size i) (i_addrs i).
Definition inode0 : inode := mkInode 0 0 0 (mkSleeplock 0 0) 0 0 0 0 0 0 (replicate 13 0).

(** ** pipe.c *)
Record pipe : Type := mkPipe {
  pi_data : list Z;
  pi_nread : Z;
  pi_nwrite : Z;
  pi_readopen : Z;
  pi_writeopen : Z
}.
#[export] Instance pipe_eta : Eta pipe := λ p,
  mkPipe (pi_data p) (pi_nread p) (pi_nwrite p) (pi_readopen p) (pi_writeopen p).

(** ** console.c *)
Record console : Type := mkCons { c_buf : list Z; c_r : Z; c_w : Z; c_e : Z }.
#[export] Instance console_eta : Eta console := λ c,
  mkCons (c_buf c) (c_r c) (c_w c) (c_e c).

(** ** buf.h, fs.h and log.c *)
Record buf : Type := mkBuf {
  b_valid : Z;
  b_disk : Z;
  b_dev : Z;
  b_blockno : Z;
  b_lock : sleeplock;
  b_refcnt : Z;
  b_prev : nat;
  b_next : nat;
  b_data : list Z
}.
#[export] Instance buf_eta : Eta buf := λ b,
  mkBuf (b_valid b) (b_disk b) (b_dev b) (b_blockno b) (b_lock b) (b_refcnt b)
    (b_prev b) (b_next b) (b_data b).
Definition buf0 : buf := mkBuf 0 0 0 0 (mkSleeplock 0 0) 0 0 0 (replicate 1024 0).

Record superblock : Type := mkSb {
  sb_magic : Z; sb_size : Z; sb_nblocks : Z; sb_ninodes : Z;
  sb_nlog : Z; sb_logstart : Z; sb_inodestart : Z; sb_bmapstart : Z
}.

Record logheader : Type := mkLh { lh_n : Z; lh_block : list Z }.
#[export] Instance logheader_eta : Eta logheader := λ h, mkLh (lh_n h) (lh_block h).

Record log : Type := mkLog {
  l_start : Z;
  l_outstanding : Z;
  l_committing : Z;
  l_dev : Z;
  l_lh : logheader
}.
#[export] Instance log_eta : Eta log := λ l,
  mkLog (l_start l) (l_outstanding l) (l_committing l) (l_dev l) (l_lh l).

(** ** The supervisor CSRs of the hart the C code reads or writes *)
Record csrs : Type := mkCsrs {
  r_sstatus : Z;
  r_sepc : Z;
  r_scause : Z;
  r_stval : Z;
  r_stvec : Z;
  r_satp : Z;
  r_stimecmp : Z;
  r_time : Z
}.
#[export] Instance csrs_eta : Eta csrs := λ c,
  mkCsrs (r_sstatus c) (r_sepc c) (r_scause c) (r_stval c) (r_stvec c) (r_satp c)
    (r_stimecmp c) (r_time c).

(** ** The machine state of one hart *)
Record kst : Type := mkKst {
  held : list lock;          (** spin locks held by this hart *)
  cur : option nat;          (** [mycpu()->proc] *)
  hartid : Z;                (** [r_tp()] *)
  ram : memory;              (** physical memory *)
  freelist : Z;              (** [kmem.freelist] *)
  procs : list proc;         (** [proc[NPROC]] *)
  nextpid : Z;
  initproc : option nat;
  context_switches : Z;
  ticks : Z;
  active_ticks : Z;
  idle_ticks : Z;
  ftable : list file;        (** [ftable.file[NFILE]] *)
  pipes : gmap Z pipe;       (** pipes by the address of their page *)
  itable : list inode;       (** [itable.inode[NINODE]] *)
  kcons : console;           (** [cons] *)
  uart_out : list Z;         (** bytes written to the UART's THR, last first *)
  tx_busy : Z;
  bufs : list buf;           (** [bcache.buf[NBUF]] followed by [bcache.head] *)
  disk : gmap Z (list Z);    (** blocks on the disk *)
  disk_trace : list (Z * list Z); (** disk writes so far, last first *)
  sb : superblock;
  klog : log;
  printed : list (string * list Z); (** [printf] calls of the kernel, last first *)
  kernel_pagetable : Z;
  first : Z;                 (** the static [first] of [forkret] *)
  csr : csrs
}.

#[export] Instance kst_eta : Eta kst := λ s,
  mkKst (held s) (cur s) (hartid s) (ram s) (freelist s) (procs s) (nextpid s) (initproc s)
    (context_switches s) (ticks s) (active_ticks s) (idle_ticks s) (ftable s) (pipes s)
    (itable s) (kcons s) (uart_out s) (tx_busy s) (bufs s) (disk s) (disk_trace s) (sb s)
    (klog s) (printed s) (kernel_pagetable s) (first s) (csr s).

(** The state at boot, before any initialisation routine has run. *)
Definition kst0 : kst :=
  mkKst [] None 0 ∅ 0 (replicate NPROC proc0) 1 None 0 0 0 0 (replicate NFILE file0) ∅
    (replicate NINODE inode0) (mkCons (replicate 128 0) 0 0 0) [] 0
    (replicate (S NBUF) buf0) ∅ [] (mkSb 0 0 0 0 0 0 0 0)
    (mkLog 0 0 0 0 (mkLh 0 (replicate 30 0))) [] 0 1 (mkCsrs 0 0 0 0 0 0 0 0).

Abbreviation KM := (K kst).

(** ** Lock primitives as seen by one hart

    [kernel/spinlock.c:acquire] panics when this CPU already holds the lock
    and otherwise returns holding it; [release] panics unless this CPU holds
    the lock.  Waiting for a lock another CPU holds is not visible here. *)

Definition holding (l : lock) (s : kst) : bool := bool_decide (l ∈ held s).

Definition acquire (l : lock) : KM unit := λ s,
  if holding l s then Panic "acquire" else Ok tt (s <| held ::= List.cons l |>).

Definition remove_lock (l : lock) (ls : list lock) : list lock :=
  filter (λ l', l' ≠ l) ls.

Definition release (l : lock) : KM unit := λ s,
  if holding l s then Ok tt (s <| held ::= remove_lock l |>) else Panic "release".

Definition printk (fmt : string) (args : list Z) : KM unit :=
  modify (λ s, s <| printed ::= List.cons (fmt, args) |>).

(** [struct proc] accesses through an index. *)
Definition getp (i : nat) : KM proc := λ s,
  match procs s !! i with Some p => Ok p s | None => Fault end.
Definition putp (i : nat) (p : proc) : KM unit := modify (λ s, s <| procs ::= <[i := p]> |>).
Definition updp (i : nat) (f : proc → proc) : KM unit :=
  p <- getp i ;; putp i (f p).

(** ** Physical memory accesses

    The kernel runs on a direct map of [KERNBASE, PHYSTOP); an access outside
    it is a [Fault]. *)
Definition phys_ok (a n : Z) : bool := (KERNBASE <=? a) && (a + n <=? PHYSTOP).

Definition ld64 (a : Z) : KM Z := λ s,
  if phys_ok a 8 then Ok (load64 (ram s) a) s else Fault.
Definition st64 (a v : Z) : KM unit := λ s,
  if phys_ok a 8 then Ok tt (s <| ram ::= λ m, store64 m a v |>) else Fault.
Definition kmemset (dst c n : Z) : KM unit := λ s,
  if phys_ok dst n then Ok tt (s <| ram ::= λ m, memset m dst c n |>) else Fault.
Definition kmemmove (dst src n : Z) : KM unit := λ s,
  if phys_ok dst n && phys_ok src n then Ok tt (s <| ram ::= λ m, memmove m dst src n |>)
  else Fault.

(** [memmove] between a kernel object, held as its bytes, and RAM. *)
Definition kwrite (dst : Z) (l : list Z) : KM unit := λ s,
  if phys_ok dst (Z.of_nat (length l)) then Ok tt (s <| ram ::= λ m, stbytes m dst l |>) else Fault.
Definition kread (src n : Z) : KM (list Z) := λ s,
  if phys_ok src n then Ok (ldbytes (ram s) src (Z.to_nat n)) s else Fault.

(** ** Addresses chosen by the linker

    [kernel.ld] and the assembly files give these symbols their addresses;
    the development is parametric in them. *)
Class Layout := {
  kend : Z;              (** [end]: first address after the kernel *)
  etext : Z;             (** end of kernel code *)
  trampoline : Z;        (** physical address of the trampoline page *)
  uservec : Z;
  userret : Z;
  kernelvec : Z;
  usertrap_addr : Z;
  forkret_addr : Z
}.

(** What [kernel.ld] guarantees of them. *)
Class LayoutOk `{Layout} : Prop := {
  etext_range : KERNBASE < etext ≤ kend;
  etext_aligned : etext mod PGSIZE = 0;
  kend_range : KERNBASE < kend ∧ kend + PGSIZE ≤ PHYSTOP;
  trampoline_range : KERNBASE ≤ trampoline < etext;
  trampoline_aligned : trampoline mod PGSIZE = 0
}.

(** ** Lemmas on the primitives *)

Lemma acquire_ok l s :
  l ∉ held s → acquire l s = Ok tt (s <| held := l :: held s |>).
Proof. intros H. unfold acquire, holding. by rewrite bool_decide_false. Qed.

Lemma acquire_held l s : l ∈ held s → acquire l s = Panic "acquire".
Proof. intros H. unfold acquire, holding. by rewrite bool_decide_true. Qed.

Lemma release_ok l s :
  l ∈ held s → release l s = Ok tt (s <| held := remove_lock l (held s) |>).
Proof. intros H. unfold release, holding. by rewrite bool_decide_true. Qed.

Lemma release_not_held l s : l ∉ held s → release l s = Panic "release".
Proof. intros H. unfold release, holding. by rewrite bool_decide_false. Qed.

Lemma remove_lock_notin l ls : l ∉ ls → remove_lock l ls = ls.
Proof.
  unfold remove_lock. induction ls as [|x ls IH]; [done|]. intros H.
  apply not_elem_of_cons in H as [Hx Hl].
  rewrite filter_cons_True by congruence. by rewrite IH.
Qed.

Lemma remove_lock_cons l ls : l ∉ ls → remove_lock l (l :: ls) = ls.
Proof.
  intros H. unfold remove_lock. rewrite filter_cons_False by naive_solver.
  by apply remove_lock_notin.
Qed.

Lemma remove_lock_cons_ne l l' ls :
  l ≠ l' → remove_lock l (l' :: ls) = l' :: remove_lock l ls.
Proof. intros H. unfold remove_lock. by rewrite filter_cons_True by congruence. Qed.

Lemma elem_of_remove_lock l l' ls : l' ∈ remove_lock l ls ↔ l' ≠ l ∧ l' ∈ ls.
Proof. unfold remove_lock. by rewrite list_elem_of_filter. Qed.

(** Resetting the lock set to what it was gives the state back. *)
Lemma release_top l ls s :
  held s = l :: ls → l ∉ ls → release l s = Ok tt (s <| held := ls |>).
Proof.
  intros Hh Hl. rewrite release_ok by (rewrite Hh; left). by rewrite Hh, remove_lock_cons.
Qed.

Lemma held_eta s : s <| held := held s |> = s.
Proof. by destruct s. Qed.
Lemma held_held s h h' : s <| held := h |> <| held := h' |> = s <| held := h' |>.
Proof. by destruct s. Qed.

Lemma getp_ok i p s : procs s !! i = Some p → getp i s = Ok p s.
Proof. intros H. unfold getp. by rewrite H. Qed.

Lemma updp_ok i f p s :
  procs s !! i = Some p → updp i f s = Ok tt (s <| procs := <[i := f p]> (procs s) |>).
Proof. intros H. unfold updp. by rewrite (bind_ok _ _ _ _ _ (getp_ok _ _ _ H)). Qed.

Lemma ld64_ok a s : phys_ok a 8 = true → ld64 a s = Ok (load64 (ram s) a) s.
Proof. intros H. unfold ld64. by rewrite H. Qed.
Lemma st64_ok a v s :
  phys_ok a 8 = true → st64 a v s = Ok tt (s <| ram := store64 (ram s) a v |>).
Proof. intros H. unfold st64. by rewrite H. Qed.
Lemma kmemset_ok dst c n s :
  phys_ok dst n = true → kmemset dst c n s = Ok tt (s <| ram := memset (ram s) dst c n |>).
Proof. intros H. unfold kmemset. by rewrite H. Qed.
Lemma kmemmove_ok dst src n s :
  phys_ok dst n = true → phys_ok src n = true →
  kmemmove dst src n s = Ok tt (s <| ram := memmove (ram s) dst src n |>).
Proof. intros H1 H2. unfold kmemmove. by rewrite H1, H2. Qed.

Lemma kwrite_ok dst l s :
  phys_ok dst (Z.of_nat (length l)) = true →
  kwrite dst l s = Ok tt (s <| ram := stbytes (ram s) dst l |>).
Proof. intros H. unfold kwrite. by rewrite H. Qed.
Lemma kread_ok src n s :
  phys_ok src n = true → kread src n s = Ok (ldbytes (ram s) src (Z.to_nat n)) s.
Proof. intros H. unfold kread. by rewrite H. Qed.

Lemma phys_ok_page pa off n :
  KERNBASE ≤ pa → pa + PGSIZE ≤ PHYSTOP → 0 ≤ off → off + n ≤ PGSIZE →
  phys_ok (pa + off) n = true.
Proof. unfold phys_ok. lia. Qed.

Create HintDb kern.
#[export] Hint Resolve acquire_ok release_ok getp_ok updp_ok : kern.
#[export] Hint Resolve ld64_ok st64_ok kmemset_ok kmemmove_ok kwrite_ok kread_ok : kern.

(** [kcall] runs a primitive of the [kern] database. *)
Ltac kcall := cbv beta; erewrite bind_ok by (eauto with kern; fail); cbv beta; rsimpl.

(** [krel] runs the [release] of the lock acquired last. *)
Ltac krel :=
  cbv beta;
  first
    [ erewrite bind_ok by (apply release_top; [rsimpl; reflexivity | solve [eauto]])
    | erewrite release_top; [|rsimpl; reflexivity|solve [eauto]] ]; cbv beta; rsimpl.

(** [kst_eq s] proves that two sequences of updates of [s] give the same state. *)
Ltac kst_eq s :=
  destruct s;
  with_strategy transparent [setf]
    (cbv beta iota delta [setf held cur hartid ram freelist procs nextpid initproc
       context_switches ticks active_ticks idle_ticks ftable pipes itable kcons uart_out
       tx_busy bufs disk disk_trace sb klog printed kernel_pagetable first csr]);
  reflexivity.
