(* ===== verification/Spinlock.v ===== *)
(** * kernel/spinlock.c

    The lock words, the per-CPU nesting counters and the interrupt-enable bit
    of every hart, with the routines of [spinlock.c] over them.  Two results:
    - run on one hart, [acquire] and [release] refine the view the rest of the
      development uses, where a hart's locks are a set ([State.acquire],
      [State.release]);
    - with every hart running the atomic instructions of the routines in any
      interleaving, a lock has at most one holder, [holding] is exact, and a
      hart that holds a lock has interrupts off. *)

From Stdlib Require Import ZArith Lia.
From S2P Require Import Prelude Params State.
From stdpp Require Import base gmap list strings numbers.

Open Scope Z_scope.

Module Spin.

(** [struct spinlock] without its name, and the fields of [struct cpu] and
    [sstatus] that locking uses. *)
Record spinlock : Type := mkSpin { sp_locked : Z; sp_cpu : option nat }.
Record hart : Type := mkHart { noff : Z; intena : bool; sie : bool }.

Record machine : Type := mkMachine { locks : lock → spinlock; harts : nat → hart }.

#[export] Instance spinlock_eta : Eta spinlock := λ l, mkSpin (sp_locked l) (sp_cpu l).
#[export] Instance hart_eta : Eta hart := λ h, mkHart (noff h) (intena h) (sie h).
#[export] Instance machine_eta : Eta machine := λ m, mkMachine (locks m) (harts m).

Definition upd_lock (l : lock) (v : spinlock) (m : machine) : machine :=
  m <| locks := λ l', if decide (l' = l) then v else locks m l' |>.
Definition upd_hart (c : nat) (v : hart) (m : machine) : machine :=
  m <| harts := λ c', if decide (c' = c) then v else harts m c' |>.

Definition initlock (l : lock) (m : machine) : machine := upd_lock l (mkSpin 0 None) m.

(** [riscv.h]: the SIE bit of [sstatus]. *)
Definition intr_get (c : nat) (m : machine) : bool := sie (harts m c).
Definition intr_on (c : nat) (m : machine) : machine :=
  upd_hart c ((harts m c) <| sie := true |>) m.
Definition intr_off (c : nat) (m : machine) : machine :=
  upd_hart c ((harts m c) <| sie := false |>) m.

Definition push_off (c : nat) (m : machine) : machine :=
  let old := intr_get c m in
  let m := intr_off c m in
  let h := harts m c in
  let h := if noff h =? 0 then h <| intena := old |> else h in
  upd_hart c (h <| noff := s32 (noff h + 1) |>) m.

Definition pop_off (c : nat) : K machine unit := λ m,
  if intr_get c m then Panic "pop_off - interruptible"
  else if noff (harts m c) <? 1 then Panic "pop_off"
  else
    let m := upd_hart c ((harts m c) <| noff := s32 (noff (harts m c) - 1) |>) m in
    if (noff (harts m c) =? 0) && intena (harts m c)
    then Ok tt (intr_on c m) else Ok tt m.

Definition holding (c : nat) (l : lock) (m : machine) : bool :=
  negb (sp_locked (locks m l) =? 0) && bool_decide (sp_cpu (locks m l) = Some c).

(** [__sync_lock_test_and_set(&lk->locked, 1)]: the old value and the write. *)
Definition test_and_set (l : lock) (m : machine) : Z * machine :=
  (sp_locked (locks m l), upd_lock l ((locks m l) <| sp_locked := 1 |>) m).

Definition acquire (fuel : nat) (c : nat) (l : lock) : K machine unit :=
  modify (push_off c) ;;;
  h <- gets (holding c l) ;;
  if h : bool then panic "acquire"
  else
    loop fuel (λ _, λ m, let '(old, m') := test_and_set l m in
                         Ok (if old =? 0 then inr tt else inl tt) m') tt ;;;
    modify (λ m, upd_lock l ((locks m l) <| sp_cpu := Some c |>) m).

Definition release (c : nat) (l : lock) : K machine unit :=
  h <- gets (holding c l) ;;
  if h : bool then
    modify (λ m, upd_lock l ((locks m l) <| sp_cpu := None |>) m) ;;;
    modify (λ m, upd_lock l ((locks m l) <| sp_locked := 0 |>) m) ;;;
    pop_off c
  else panic "release".

(** ** Reading updates *)

Lemma locks_upd_lock l v m l' :
  locks (upd_lock l v m) l' = if decide (l' = l) then v else locks m l'.
Proof. reflexivity. Qed.
Lemma harts_upd_lock l v m : harts (upd_lock l v m) = harts m.
Proof. reflexivity. Qed.
Lemma harts_upd_hart c v m c' :
  harts (upd_hart c v m) c' = if decide (c' = c) then v else harts m c'.
Proof. reflexivity. Qed.
Lemma locks_upd_hart c v m : locks (upd_hart c v m) = locks m.
Proof. reflexivity. Qed.

Lemma locks_push_off c m : locks (push_off c m) = locks m.
Proof. reflexivity. Qed.

Lemma harts_push_off c m c' :
  harts (push_off c m) c' =
  if decide (c' = c)
  then mkHart (s32 (noff (harts m c) + 1))
         (if noff (harts m c) =? 0 then sie (harts m c) else intena (harts m c)) false
  else harts m c'.
Proof.
  unfold push_off, intr_off, intr_get. rewrite !harts_upd_hart.
  rewrite (decide_True (P := c = c)) by done. rsimpl.
  destruct (decide (c' = c)) as [->|Hne]; [|done].
  destruct (noff (harts m c) =? 0); reflexivity.
Qed.

#[global] Arguments push_off : simpl never.
#[global] Arguments pop_off : simpl never.
#[global] Arguments upd_lock : simpl never.
#[global] Arguments upd_hart : simpl never.

(** [pop_off] in a state its caller may reach it in: it undoes one [push_off]. *)
Lemma pop_off_ok c m :
  sie (harts m c) = false → 1 ≤ noff (harts m c) < 2 ^ 31 →
  ∃ m', pop_off c m = Ok tt m' ∧ locks m' = locks m ∧
        ∀ c', harts m' c' =
              if decide (c' = c)
              then mkHart (noff (harts m c) - 1) (intena (harts m c))
                     ((noff (harts m c) =? 1) && intena (harts m c))
              else harts m c'.
Proof.
  intros Hs Hn. unfold pop_off, intr_get. rewrite Hs.
  destruct (noff (harts m c) <? 1) eqn:E; [lia|].
  rewrite harts_upd_hart, decide_True by done. rsimpl.
  rewrite s32_small by lia.
  replace (noff (harts m c) - 1 =? 0) with (noff (harts m c) =? 1) by lia.
  destruct ((noff (harts m c) =? 1) && intena (harts m c)) eqn:Eb.
  - eexists; split_and!; [reflexivity|reflexivity|]. intros c'.
    unfold intr_on. rewrite harts_upd_hart, !harts_upd_hart.
    destruct (decide (c' = c)) as [->|]; [|done]. rewrite decide_True by done. reflexivity.
  - eexists; split_and!; [reflexivity|reflexivity|]. intros c'.
    rewrite harts_upd_hart. destruct (decide (c' = c)) as [->|]; [|done].
    by destruct (harts m c); simplify_eq/=.
Qed.

(** ** Refinement of the set view *)

(** Hart [c] of machine [m] holds exactly the locks of [hs]. *)
Record view (c : nat) (m : machine) (hs : list lock) : Prop := {
  view_nodup : NoDup hs;
  view_bound : Z.of_nat (length hs) < 2 ^ 31 - 1;
  view_held : ∀ l, l ∈ hs ↔ sp_locked (locks m l) = 1 ∧ sp_cpu (locks m l) = Some c;
  view_locked : ∀ l, sp_locked (locks m l) = 0 ∨ sp_locked (locks m l) = 1;
  view_noff : noff (harts m c) = Z.of_nat (length hs);
  view_sie : hs ≠ [] → sie (harts m c) = false
}.

Lemma view_holding c m hs l : view c m hs → holding c l m = bool_decide (l ∈ hs).
Proof.
  intros V. unfold holding. destruct (decide (l ∈ hs)) as [Hin|Hout].
  - rewrite (bool_decide_true (l ∈ hs)) by done.
    apply (view_held _ _ _ V) in Hin as [H1 H2]. rewrite H1, H2.
    by rewrite bool_decide_true.
  - rewrite (bool_decide_false (l ∈ hs)) by done.
    destruct (sp_locked (locks m l) =? 0) eqn:E; [done|]. simpl.
    apply bool_decide_false. intros Hc. apply Hout, (view_held _ _ _ V).
    split; [|done]. destruct (view_locked _ _ _ V l); lia.
Qed.

Lemma remove_lock_length l hs :
  NoDup hs → l ∈ hs → length hs = S (length (remove_lock l hs)).
Proof.
  induction 1 as [|x hs Hx Hnd IH]; intros Hl; [by apply not_elem_of_nil in Hl|].
  destruct (decide (x = l)) as [->|Hne].
  - by rewrite remove_lock_cons.
  - apply elem_of_cons in Hl as [?|Hl]; [done|].
    rewrite remove_lock_cons_ne by congruence. simpl. by rewrite IH.
Qed.

Lemma test_and_set_loop_free fuel l m :
  sp_locked (locks m l) = 0 →
  loop (S fuel) (λ _ : unit, λ m, let '(old, m') := test_and_set l m in
                 Ok (if old =? 0 then inr tt else inl tt) m') tt m
  = Ok tt (upd_lock l ((locks m l) <| sp_locked := 1 |>) m).
Proof. intros H. simpl. unfold bind, test_and_set. simpl. by rewrite H. Qed.

Lemma test_and_set_loop_busy fuel l m :
  sp_locked (locks m l) = 1 →
  loop fuel (λ _ : unit, λ m, let '(old, m') := test_and_set l m in
             Ok (if old =? 0 then inr tt else inl tt) m') tt m = OutOfFuel.
Proof.
  revert m. induction fuel as [|fuel IH]; intros m H; [done|].
  simpl. unfold bind, test_and_set. simpl. rewrite H. simpl. apply IH.
  rewrite locks_upd_lock, decide_True by done. reflexivity.
Qed.

(** Run on one hart, [acquire] does to the lock words what the set view says:
    it panics when the hart has the lock, spins while another hart has it,
    and otherwise returns with the lock added to the hart's set. *)
Lemma acquire_sim fuel c l m s :
  view c m (held s) → Z.of_nat (length (held s)) < 2 ^ 31 - 2 →
  match acquire (S fuel) c l m with
  | Ok _ m' => ∃ s', State.acquire l s = Ok tt s' ∧ view c m' (held s')
  | Panic msg => State.acquire l s = Panic msg
  | OutOfFuel => sp_locked (locks m l) = 1 ∧ sp_cpu (locks m l) ≠ Some c
  | _ => False
  end.
Proof.
  intros V Hlen. unfold acquire. rewrite bind_modify, bind_gets.
  replace (holding c l (push_off c m)) with (holding c l m) by reflexivity.
  rewrite (view_holding _ _ _ _ V). unfold State.acquire, State.holding.
  case_bool_decide as Hin; [done|].
  unfold bind at 1. destruct (view_locked _ _ _ V l) as [H0|H1].
  - rewrite test_and_set_loop_free by done. simpl.
    eexists; split; [reflexivity|]. rsimpl. constructor.
    + constructor; [done|apply V].
    + simpl. lia.
    + intros l'. rewrite !locks_upd_lock. destruct (decide (l' = l)) as [->|Hne].
      * rewrite decide_True by done. cbn. set_solver.
      * rewrite elem_of_cons, (view_held _ _ _ V). split; [naive_solver|].
        intros ?. right. done.
    + intros l'. rewrite !locks_upd_lock.
      destruct (decide (l' = l)) as [->|Hne]; [|apply V]. rewrite decide_True by done. by right.
    + rewrite !harts_upd_lock, harts_push_off, decide_True by done. cbn.
      rewrite (view_noff _ _ _ V), s32_small by lia. lia.
    + intros _. by rewrite !harts_upd_lock, harts_push_off, decide_True.
  - rewrite test_and_set_loop_busy by done. simpl.
    split; [done|]. intros Hc. apply Hin. by apply (view_held _ _ _ V).
Qed.

Lemma release_sim c l m s :
  view c m (held s) →
  match release c l m with
  | Ok _ m' => ∃ s', State.release l s = Ok tt s' ∧ view c m' (held s')
  | Panic msg => State.release l s = Panic msg
  | _ => False
  end.
Proof.
  intros V. unfold release. rewrite bind_gets, (view_holding _ _ _ _ V).
  unfold State.release, State.holding. case_bool_decide as Hin; [|done].
  rewrite !bind_modify.
  set (m2 := upd_lock l _ (upd_lock l _ m)).
  assert (harts m2 = harts m) as Hh by reflexivity.
  pose proof (remove_lock_length _ _ (view_nodup _ _ _ V) Hin) as Hrl.
  pose proof (view_bound _ _ _ V) as Hb.
  destruct (pop_off_ok c m2) as (m3 & Hp & Hl3 & Hh3).
  { rewrite Hh. apply (view_sie _ _ _ V). intros E. rewrite E in Hin. by apply not_elem_of_nil in Hin. }
  { rewrite Hh, (view_noff _ _ _ V). lia. }
  rewrite Hp. eexists; split; [reflexivity|]. rsimpl. constructor.
  - apply list.NoDup_filter, V.
  - lia.
  - intros l'. rewrite elem_of_remove_lock, Hl3. subst m2. rewrite !locks_upd_lock.
    destruct (decide (l' = l)) as [->|Hne].
    + rewrite decide_True by done. cbn. naive_solver.
    + rewrite (view_held _ _ _ V). naive_solver.
  - intros l'. rewrite Hl3. subst m2. rewrite !locks_upd_lock.
    destruct (decide (l' = l)) as [->|Hne]; [|apply V]. rewrite decide_True by done. by left.
  - rewrite Hh3, decide_True by done. cbn. rewrite Hh, (view_noff _ _ _ V). lia.
  - intros Hne. rewrite Hh3, decide_True by done. cbn. rewrite Hh, (view_noff _ _ _ V).
    destruct (remove_lock l (held s)); [done|]. simpl in Hrl. apply andb_false_intro1. lia.
Qed.

(** Taking and releasing a lock from a state with no lock held leaves the
    interrupt-enable bit as it was. *)
Lemma acquire_release_sie fuel c l m m1 m2 :
  view c m [] → acquire (S fuel) c l m = Ok tt m1 → release c l m1 = Ok tt m2 →
  sie (harts m2 c) = sie (harts m c).
Proof.
  intros V Ha Hr. unfold acquire in Ha. rewrite bind_modify, bind_gets in Ha.
  replace (holding c l (push_off c m)) with (holding c l m) in Ha by reflexivity.
  rewrite (view_holding _ _ _ _ V), bool_decide_false in Ha by apply not_elem_of_nil.
  unfold bind at 1 in Ha. destruct (view_locked _ _ _ V l) as [H0|H1].
  2:{ by rewrite test_and_set_loop_busy in Ha. }
  rewrite test_and_set_loop_free in Ha by done. simpl in Ha.
  injection Ha as <-. unfold release in Hr. rewrite bind_gets in Hr.
  case_match; [|done]. rewrite !bind_modify in Hr.
  match type of Hr with pop_off c ?x = _ => set (mm := x) in Hr end.
  assert (harts mm c = mkHart 1 (sie (harts m c)) false) as Hh.
  { change (harts mm c) with (harts (push_off c m) c).
    rewrite harts_push_off, decide_True by done. by rewrite (view_noff _ _ _ V). }
  destruct (pop_off_ok c mm) as (m3 & Hp & _ & Hh3); [by rewrite Hh..|].
  rewrite Hp in Hr. injection Hr as <-. rewrite Hh3, decide_True by done. by rewrite Hh.
Qed.

End Spin.

(** ** All harts, interleaved

    Each hart is between two calls ([PIdle]) or inside [acquire]/[release],
    just before one of their shared-memory accesses.  A step is one such
    access by one hart.  [owned] records, per hart, the locks its calls have
    returned with. *)
Module Interleave.
Import Spin.

Inductive phase : Type :=
| PIdle
| PSpin (l : lock)    (** in [acquire]'s test-and-set loop *)
| PGot (l : lock)     (** before [lk->cpu = mycpu()] *)
| PRel (l : lock)     (** before [__sync_lock_release(&lk->locked)] *)
| PPop.               (** before [pop_off()] in [release] *)

#[global] Instance phase_eq_dec : EqDecision phase.
Proof. solve_decision. Defined.

Record conc : Type := mkConc {
  mach : machine;
  phases : nat → phase;
  owned : nat → list lock
}.

Definition set_phase (c : nat) (p : phase) (f : nat → phase) : nat → phase :=
  λ c', if decide (c' = c) then p else f c'.
Definition set_owned (c : nat) (hs : list lock) (f : nat → list lock) : nat → list lock :=
  λ c', if decide (c' = c) then hs else f c'.

Inductive step : conc → conc → Prop :=
| step_acquire c l m ph ow :
    ph c = PIdle → holding c l (push_off c m) = false →
    step (mkConc m ph ow) (mkConc (push_off c m) (set_phase c (PSpin l) ph) ow)
| step_spin c l m ph ow :
    ph c = PSpin l → (test_and_set l m).1 ≠ 0 →
    step (mkConc m ph ow) (mkConc (test_and_set l m).2 ph ow)
| step_win c l m ph ow :
    ph c = PSpin l → (test_and_set l m).1 = 0 →
    step (mkConc m ph ow) (mkConc (test_and_set l m).2 (set_phase c (PGot l) ph) ow)
| step_got c l m ph ow :
    ph c = PGot l →
    step (mkConc m ph ow)
         (mkConc (upd_lock l ((locks m l) <| sp_cpu := Some c |>) m)
                 (set_phase c PIdle ph) (set_owned c (l :: ow c) ow))
| step_release c l m ph ow :
    ph c = PIdle → holding c l m = true →
    step (mkConc m ph ow)
         (mkConc (upd_lock l ((locks m l) <| sp_cpu := None |>) m)
                 (set_phase c (PRel l) ph) (set_owned c (remove_lock l (ow c)) ow))
| step_unlock c l m ph ow :
    ph c = PRel l →
    step (mkConc m ph ow)
         (mkConc (upd_lock l ((locks m l) <| sp_locked := 0 |>) m) (set_phase c PPop ph) ow)
| step_pop c m m' ph ow :
    ph c = PPop → pop_off c m = Ok tt m' →
    step (mkConc m ph ow) (mkConc m' (set_phase c PIdle ph) ow).

(** Boot: every lock free, every hart with no nesting. *)
Definition boot (b : bool) : conc :=
  mkConc (mkMachine (λ _, mkSpin 0 None) (λ _, mkHart 0 false b)) (λ _, PIdle) (λ _, []).

Inductive reachable : conc → Prop :=
| reach_boot b : reachable (boot b)
| reach_step x y :
    reachable x → step x y →
    (∀ c, Z.of_nat (length (owned y c)) < 2 ^ 31 - 3) → reachable y.

(** Hart [c] has won lock [l]'s test-and-set and not yet given it back. *)
Definition owns (x : conc) (c : nat) (l : lock) : Prop :=
  phases x c = PGot l ∨ phases x c = PRel l ∨ l ∈ owned x c.

Record inv (x : conc) : Prop := {
  inv_nodup : ∀ c, NoDup (owned x c);
  inv_bound : ∀ c, Z.of_nat (length (owned x c)) < 2 ^ 31 - 3;
  inv_bit : ∀ l, sp_locked (locks (mach x) l) = 0 ∨ sp_locked (locks (mach x) l) = 1;
  inv_owner : ∀ l c, owns x c l → sp_locked (locks (mach x) l) = 1;
  inv_unique : ∀ l c c', owns x c l → owns x c' l → c = c';
  inv_cpu : ∀ l c, l ∈ owned x c ↔ sp_cpu (locks (mach x) l) = Some c;
  inv_fresh : ∀ l c, phases x c = PGot l ∨ phases x c = PRel l → l ∉ owned x c;
  inv_noff : ∀ c, noff (harts (mach x) c) =
                  Z.of_nat (length (owned x c)) + b2z (bool_decide (phases x c ≠ PIdle));
  inv_sie : ∀ c, 0 < noff (harts (mach x) c) → sie (harts (mach x) c) = false
}.

Ltac csimp := cbn [mach phases owned] in *.

Lemma inv_boot b : inv (boot b).
Proof.
  constructor; simpl.
  - intros; constructor.
  - intros; lia.
  - by left.
  - intros l c [?|[?|H]]; [done..|by apply not_elem_of_nil in H].
  - intros l c c' [?|[?|H]]; [done..|by apply not_elem_of_nil in H].
  - intros l c. split; [intros H; by apply not_elem_of_nil in H|done].
  - intros l c [?|?]; done.
  - done.
  - intros c H. lia.
Qed.

Lemma holding_owned x c l : inv x → holding c l (mach x) = bool_decide (l ∈ owned x c).
Proof.
  intros I. unfold holding. destruct (decide (l ∈ owned x c)) as [Hin|Hout].
  - rewrite (bool_decide_true (l ∈ _)) by done.
    rewrite (inv_owner _ I l c) by (by right; right). apply (inv_cpu _ I) in Hin.
    by rewrite Hin, bool_decide_true.
  - rewrite (bool_decide_false (l ∈ _)) by done.
    apply andb_false_intro2, bool_decide_false. intros H. by apply Hout, (inv_cpu _ I).
Qed.

Lemma test_and_set_locks l m l' :
  locks (test_and_set l m).2 l' =
  if decide (l' = l) then mkSpin 1 (sp_cpu (locks m l)) else locks m l'.
Proof. unfold test_and_set. cbn [snd]. rewrite locks_upd_lock. reflexivity. Qed.

Lemma test_and_set_harts l m : harts (test_and_set l m).2 = harts m.
Proof. reflexivity. Qed.

(** Case analysis on whether [l'] is the lock a step changes. *)
Ltac lock_case l' l :=
  rewrite ?locks_upd_lock, ?test_and_set_locks in *; destruct (decide (l' = l)) as [->|].
Ltac phase_case c :=
  unfold set_phase, set_owned in *;
  repeat match goal with
    | |- context [decide (?a = c)] => destruct (decide (a = c)); subst
    | H : context [decide (?a = c)] |- _ => destruct (decide (a = c)); subst
    end.
Ltac inv_facts I :=
  pose proof (inv_nodup _ I) as Ind; pose proof (inv_bit _ I) as Ibit;
  pose proof (inv_owner _ I) as Iown; pose proof (inv_unique _ I) as Iuniq;
  pose proof (inv_cpu _ I) as Icpu; pose proof (inv_fresh _ I) as Ifr;
  pose proof (inv_noff _ I) as Inoff; pose proof (inv_sie _ I) as Isie;
  unfold owns in *; csimp.

Lemma inv_step_acquire c l m ph ow :
  inv (mkConc m ph ow) → ph c = PIdle → holding c l (push_off c m) = false →
  inv (mkConc (push_off c m) (set_phase c (PSpin l) ph) ow).
Proof.
  intros I Hph Hh. pose proof (inv_bound _ I) as Ib. inv_facts I.
  constructor; unfold owns; csimp; rewrite ?locks_push_off, ?test_and_set_harts, ?harts_upd_lock; try done.
  - intros l' c' H. apply (Iown l' c'). phase_case c; naive_solver.
  - intros l' c1 c2 H1 H2. apply (Iuniq l' c1 c2); phase_case c; naive_solver.
  - intros l' c' H. apply Ifr. phase_case c; naive_solver.
  - intros c'. rewrite harts_push_off. phase_case c; [|apply Inoff]. cbn [noff].
    rewrite Inoff, Hph, bool_decide_false by naive_solver.
    rewrite bool_decide_true by done. specialize (Ib c). cbn [b2z]. rewrite s32_small by lia. lia.
  - intros c' H. rewrite harts_push_off in *. phase_case c; [done|]. by apply Isie.
Qed.

Lemma inv_step_spin c l m ph ow :
  inv (mkConc m ph ow) → ph c = PSpin l → sp_locked (locks m l) ≠ 0 →
  inv (mkConc (test_and_set l m).2 ph ow).
Proof.
  intros I Hph Hl. pose proof (inv_bound _ I) as Ib. inv_facts I.
  constructor; unfold owns; csimp; rewrite ?locks_push_off, ?test_and_set_harts, ?harts_upd_lock; try done.
  - intros l'. lock_case l' l; [by right|apply Ibit].
  - intros l' c' H. lock_case l' l; [done|eauto].
  - intros l' c'. rewrite Icpu. by lock_case l' l.
Qed.

Lemma inv_step_win c l m ph ow :
  inv (mkConc m ph ow) → ph c = PSpin l → sp_locked (locks m l) = 0 →
  inv (mkConc (test_and_set l m).2 (set_phase c (PGot l) ph) ow).
Proof.
  intros I Hph Hl. pose proof (inv_bound _ I) as Ib. inv_facts I.
  assert (∀ c', ¬ (ph c' = PGot l ∨ ph c' = PRel l ∨ l ∈ ow c')) as Hfree.
  { intros c' Hc'. apply Iown in Hc'. lia. }
  assert (∀ l' c', (set_phase c (PGot l) ph c' = PGot l' ∨
                    set_phase c (PGot l) ph c' = PRel l' ∨ l' ∈ ow c') →
                   (c' = c ∧ l' = l) ∨ (ph c' = PGot l' ∨ ph c' = PRel l' ∨ l' ∈ ow c')) as Hcase.
  { intros l' c'. phase_case c; naive_solver. }
  constructor; unfold owns; csimp; rewrite ?locks_push_off, ?test_and_set_harts, ?harts_upd_lock; try done.
  - intros l'. lock_case l' l; [by right|apply Ibit].
  - intros l' c' H. lock_case l' l; [done|].
    apply Hcase in H as [[? ?]|?]; [done|eauto].
  - intros l' c1 c2 H1 H2.
    apply Hcase in H1 as [[-> ->]|H1]; apply Hcase in H2 as [[-> ?]|H2]; subst; try done.
    + by apply Hfree in H2.
    + by apply Hfree in H1.
    + eauto.
  - intros l' c'. rewrite Icpu. by lock_case l' l.
  - intros l' c' H. phase_case c; [|by apply Ifr].
    destruct H as [[= <-]|?]; [|done]. intros ?. apply (Hfree c). by right; right.
  - intros c'. rewrite Inoff. phase_case c; [|done].
    by rewrite Hph, !bool_decide_true by done.
Qed.

Lemma inv_step_got c l m ph ow :
  inv (mkConc m ph ow) → ph c = PGot l →
  Z.of_nat (length (l :: ow c)) < 2 ^ 31 - 3 →
  inv (mkConc (upd_lock l ((locks m l) <| sp_cpu := Some c |>) m)
              (set_phase c PIdle ph) (set_owned c (l :: ow c) ow)).
Proof.
  intros I Hph Hlen. pose proof (inv_bound _ I) as Ib. inv_facts I.
  assert (l ∉ ow c) as Hfr by (apply Ifr; by left).
  assert (∀ l' c', (set_phase c PIdle ph c' = PGot l' ∨ set_phase c PIdle ph c' = PRel l' ∨
                    l' ∈ set_owned c (l :: ow c) ow c') →
                   ph c' = PGot l' ∨ ph c' = PRel l' ∨ l' ∈ ow c') as Hcase.
  { intros l' c'. phase_case c; [|done]. rewrite elem_of_cons. naive_solver. }
  constructor; unfold owns; csimp; rewrite ?harts_upd_lock.
  - intros c'. phase_case c; [|apply Ind]. constructor; [done|apply Ind].
  - intros c'. phase_case c; [done|apply Ib].
  - intros l'. lock_case l' l; apply Ibit.
  - intros l' c' H%Hcase. lock_case l' l; rsimpl; eauto.
  - intros l' c1 c2 H1%Hcase H2%Hcase. eauto.
  - intros l' c'. lock_case l' l.
    + rsimpl. phase_case c; [rewrite elem_of_cons; naive_solver|].
      split; [|naive_solver]. intros Hl. exfalso. apply n.
      apply (Iuniq l c' c); [by right; right|by left].
    + phase_case c; [|apply Icpu]. rewrite elem_of_cons, <- Icpu. naive_solver.
  - intros l' c' H. phase_case c; [naive_solver|]. by apply Ifr.
  - intros c'. phase_case c; [|apply Inoff]. rewrite Inoff, Hph. cbn [length].
    rewrite bool_decide_true, bool_decide_false by naive_solver. cbn [b2z]. lia.
  - apply Isie.
Qed.

Lemma inv_step_release c l m ph ow :
  inv (mkConc m ph ow) → ph c = PIdle → holding c l m = true →
  inv (mkConc (upd_lock l ((locks m l) <| sp_cpu := None |>) m)
              (set_phase c (PRel l) ph) (set_owned c (remove_lock l (ow c)) ow)).
Proof.
  intros I Hph Hh. rewrite (holding_owned _ c l I : holding c l m = _) in Hh.
  apply bool_decide_eq_true in Hh. simpl in Hh.
  pose proof (inv_bound _ I) as Ib. inv_facts I.
  pose proof (remove_lock_length _ _ (Ind c) Hh) as Hlen.
  assert (∀ l' c', (set_phase c (PRel l) ph c' = PGot l' ∨ set_phase c (PRel l) ph c' = PRel l' ∨
                    l' ∈ set_owned c (remove_lock l (ow c)) ow c') →
                   ph c' = PGot l' ∨ ph c' = PRel l' ∨ l' ∈ ow c') as Hcase.
  { intros l' c'. phase_case c; [|done]. rewrite elem_of_remove_lock. naive_solver. }
  constructor; unfold owns; csimp; rewrite ?harts_upd_lock.
  - intros c'. phase_case c; [|apply Ind]. apply list.NoDup_filter, Ind.
  - intros c'. specialize (Ib c'). simpl in Ib. phase_case c; lia.
  - intros l'. lock_case l' l; apply Ibit.
  - intros l' c' H%Hcase. lock_case l' l; rsimpl; eauto.
  - intros l' c1 c2 H1%Hcase H2%Hcase. eauto.
  - intros l' c'. lock_case l' l.
    + rsimpl. split; [|done]. phase_case c; [rewrite elem_of_remove_lock; naive_solver|].
      intros Hl. exfalso. apply n. apply (Iuniq l c' c); by right; right.
    + phase_case c; [|apply Icpu]. rewrite elem_of_remove_lock, <- Icpu. naive_solver.
  - intros l' c' H. phase_case c; [|by apply Ifr].
    destruct H as [?|[= ->]]; [done|]. rewrite elem_of_remove_lock. naive_solver.
  - intros c'. phase_case c; [|apply Inoff]. rewrite Inoff, Hph. cbn [length].
    rewrite bool_decide_false, bool_decide_true by naive_solver. cbn [b2z]. lia.
  - apply Isie.
Qed.

Lemma inv_step_unlock c l m ph ow :
  inv (mkConc m ph ow) → ph c = PRel l →
  inv (mkConc (upd_lock l ((locks m l) <| sp_locked := 0 |>) m) (set_phase c PPop ph) ow).
Proof.
  intros I Hph. pose proof (inv_bound _ I) as Ib. inv_facts I.
  assert (∀ l' c', (set_phase c PPop ph c' = PGot l' ∨ set_phase c PPop ph c' = PRel l' ∨
                    l' ∈ ow c') →
                   l' ≠ l ∧ (ph c' = PGot l' ∨ ph c' = PRel l' ∨ l' ∈ ow c')) as Hcase.
  { intros l' c' H.
    assert (ph c' = PGot l' ∨ ph c' = PRel l' ∨ l' ∈ ow c') as Ho by (phase_case c; naive_solver).
    split; [|done]. intros ->.
    assert (c' = c) as -> by (apply (Iuniq l c' c); [done|by right; left]).
    pose proof (Ifr l c ltac:(by right)). phase_case c; naive_solver. }
  constructor; unfold owns; csimp; rewrite ?locks_push_off, ?test_and_set_harts, ?harts_upd_lock; try done.
  - intros l'. lock_case l' l; [by left|apply Ibit].
  - intros l' c' H%Hcase. lock_case l' l; naive_solver.
  - intros l' c1 c2 H1%Hcase H2%Hcase. naive_solver.
  - intros l' c'. rewrite Icpu. by lock_case l' l.
  - intros l' c' H. apply Ifr. phase_case c; naive_solver.
  - intros c'. rewrite Inoff. phase_case c; [|done].
    by rewrite Hph, !bool_decide_true by done.
Qed.

Lemma inv_step_pop c m m' ph ow :
  inv (mkConc m ph ow) → ph c = PPop → pop_off c m = Ok tt m' →
  inv (mkConc m' (set_phase c PIdle ph) ow).
Proof.
  intros I Hph Hp. pose proof (inv_bound _ I) as Ib. inv_facts I.
  assert (noff (harts m c) = Z.of_nat (length (ow c)) + 1) as Hn.
  { rewrite Inoff, Hph, bool_decide_true by done. done. }
  destruct (pop_off_ok c m) as (m2 & Hp2 & Hl & Hh).
  { apply Isie. lia. } { specialize (Ib c). simpl in Ib. lia. }
  rewrite Hp in Hp2. injection Hp2 as <-.
  constructor; unfold owns; csimp; rewrite ?locks_push_off, ?test_and_set_harts, ?harts_upd_lock; rewrite ?Hl; try done.
  - intros l' c' H. apply (Iown l' c'). phase_case c; naive_solver.
  - intros l' c1 c2 H1 H2. apply (Iuniq l' c1 c2); phase_case c; naive_solver.
  - intros l' c' H. apply Ifr. phase_case c; naive_solver.
  - intros c'. rewrite Hh. phase_case c; [|apply Inoff]. cbn [noff].
    rewrite Hn, bool_decide_false by naive_solver. simpl. lia.
  - intros c'. rewrite Hh. phase_case c; [|apply Isie]. simpl. intros H.
    apply andb_false_intro1. lia.
Qed.

Lemma reachable_inv x : reachable x → inv x.
Proof.
  induction 1 as [b|x y Hx I Hstep Hlen]; [apply inv_boot|].
  destruct Hstep; csimp.
  - by apply inv_step_acquire.
  - by eapply inv_step_spin.
  - by eapply inv_step_win.
  - apply inv_step_got; [done..|]. specialize (Hlen c). unfold set_owned in Hlen.
    by rewrite decide_True in Hlen.
  - by apply inv_step_release.
  - by eapply inv_step_unlock.
  - by eapply inv_step_pop.
Qed.

Lemma pop_enabled x c :
  reachable x → phases x c = PPop → ∃ m', pop_off c (mach x) = Ok tt m'.
Proof.
  intros Hx Hp. pose proof (reachable_inv _ Hx) as I.
  assert (noff (harts (mach x) c) = Z.of_nat (length (owned x c)) + 1) as Hn.
  { rewrite (inv_noff _ I), Hp, bool_decide_true by done. done. }
  pose proof (inv_bound _ I c). destruct (pop_off_ok c (mach x)) as (m' & Hr & _); [|lia|by exists m'].
  apply (inv_sie _ I). lia.
Qed.

(** C18: in every interleaving of the harts' [acquire] and [release] steps, no
    two harts hold the same spin lock, [holding] answers exactly whether this
    hart holds the lock, a hart that holds a lock has its interrupts off, and
    the [pop_off] at the end of [release] never panics. *)
Theorem spinlock_mutual_exclusion x :
  reachable x →
  (∀ l c c', l ∈ owned x c → l ∈ owned x c' → c = c') ∧
  (∀ c l, holding c l (mach x) = bool_decide (l ∈ owned x c)) ∧
  (∀ c, owned x c ≠ [] → sie (harts (mach x) c) = false) ∧
  (∀ c, phases x c = PPop → ∃ m', pop_off c (mach x) = Ok tt m').
Proof.
  intros Hx. pose proof (reachable_inv _ Hx) as I. split_and!.
  - intros l c c' H1 H2. apply (inv_unique _ I l); by right; right.
  - intros c l. by apply holding_owned.
  - intros c Hne. apply (inv_sie _ I). rewrite (inv_noff _ I).
    destruct (owned x c); [done|]. destruct (bool_decide _); simpl; lia.
  - intros c. by apply pop_enabled.
Qed.

(** Hart 0 has taken the tick lock and hart 1 spins on it. *)
Lemma contended : ∃ x, reachable x ∧ Lticks ∈ owned x 0%nat ∧ phases x 1%nat = PSpin Lticks.
Proof.
  assert (∀ x y, reachable x → step x y → (∀ c, (length (owned y c) ≤ 1)%nat) → reachable y) as Hstep.
  { intros x y Hx Hxy Hl. eapply reach_step; [done..|]. intros c. specialize (Hl c). lia. }
  eexists. split.
  - eapply Hstep; [eapply Hstep; [eapply Hstep; [eapply Hstep; [apply (reach_boot true)|..]|..]|..]|..].
    + apply (step_acquire 0 Lticks); reflexivity.
    + intros c. simpl. lia.
    + apply (step_win 0 Lticks); reflexivity.
    + intros c. simpl. lia.
    + apply (step_got 0 Lticks); reflexivity.
    + intros c. unfold owned, set_owned. case_decide; simpl; lia.
    + apply (step_acquire 1 Lticks); reflexivity.
    + intros c. unfold owned, set_owned. case_decide; simpl; lia.
  - split; [left|reflexivity].
Qed.

Lemma spinlock_mutual_exclusion_witness :
  ∃ x, Lticks ∈ owned x 0%nat ∧ holding 1 Lticks (mach x) = false.
Proof.
  destruct contended as (x & Hx & Hin & _). exists x. split; [exact Hin|].
  destruct (spinlock_mutual_exclusion x Hx) as (Hu & Hh & _). rewrite Hh.
  apply bool_decide_false. intros Hin'. pose proof (Hu _ _ _ Hin Hin'). discriminate.
Defined.

End Interleave.

(** ** Properties of the refinement *)

(** with the locks a hart holds as its view of the machine, [acquire] and
    [release] of kernel/spinlock.c do what the kernel model's [acquire] and
    [release] do: they panic in the same cases with the same message,
    otherwise they return with the matching new view; [acquire] keeps
    spinning only on a lock another hart holds. *)
Theorem spinlock_refines_lock_view fuel c l m s :
  Spin.view c m (held s) → Z.of_nat (length (held s)) < 2 ^ 31 - 2 →
  match Spin.acquire (S fuel) c l m with
  | Ok _ m' => ∃ s', acquire l s = Ok tt s' ∧ Spin.view c m' (held s')
  | Panic msg => acquire l s = Panic msg
  | OutOfFuel => Spin.sp_locked (Spin.locks m l) = 1 ∧ Spin.sp_cpu (Spin.locks m l) ≠ Some c
  | _ => False
  end ∧
  match Spin.release c l m with
  | Ok _ m' => ∃ s', release l s = Ok tt s' ∧ Spin.view c m' (held s')
  | Panic msg => release l s = Panic msg
  | _ => False
  end.
Proof. intros V Hl. split; [by apply Spin.acquire_sim|by apply Spin.release_sim]. Qed.

Lemma boot_view : Spin.view 0 (Interleave.mach (Interleave.boot true)) [].
Proof.
  split; try done; [apply NoDup_nil_2| |by left].
  intros l. split; [by intros ?%not_elem_of_nil|]. by intros [_ ?].
Qed.

Lemma spinlock_refines_lock_view_witness :
  ∃ s', acquire Lticks kst0 = Ok tt s' ∧ release Lticks kst0 = Panic "release".
Proof.
  destruct (spinlock_refines_lock_view 0 0 Lticks (Interleave.mach (Interleave.boot true)) kst0)
    as [Ha Hr]; [exact boot_view|reflexivity|].
  vm_compute in Ha. vm_compute in Hr. destruct Ha as (s' & Ha & _). exists s'. split; [exact Ha|exact Hr].
Defined.
