(* ===== verification/Kalloc.v ===== *)
(** * kernel/kalloc.c: the physical page allocator

    The free list is threaded through the free pages themselves: the first
    eight bytes of a free page hold the address of the next one. *)

From Stdlib Require Import ZArith Lia.
From S2P Require Import Prelude Params CString State.
From stdpp Require Import base gmap strings numbers list.

Open Scope Z_scope.

Section Kalloc.
Context `{Layout}.

Definition kfree (pa : Z) : KM unit :=
  if negb (pa mod PGSIZE =? 0) || (pa <? kend) || (pa >=? PHYSTOP) then panic "kfree"
  else
    kmemset pa 1 PGSIZE ;;;
    acquire Lkmem ;;;
    fl <- gets freelist ;;
    st64 pa fl ;;;
    modify (λ s, s <| freelist := pa |>) ;;;
    release Lkmem.

Definition kalloc : KM Z :=
  acquire Lkmem ;;;
  r <- gets freelist ;;
  (when negb (r =? 0) do
     (next <- ld64 r ;; modify (λ s, s <| freelist := next |>))) ;;;
  release Lkmem ;;;
  (when negb (r =? 0) do kmemset r 5 PGSIZE) ;;;
  ret r.

(** [for(; p + PGSIZE <= pa_end; p += PGSIZE) kfree(p)] *)
Fixpoint freerange_loop (fuel : nat) (p pa_end : Z) : KM unit :=
  if p + PGSIZE <=? pa_end then
    match fuel with
    | O => nofuel
    | S fuel' => kfree p ;;; freerange_loop fuel' (p + PGSIZE) pa_end
    end
  else ret tt.

(** One iteration per page is enough. *)
Definition freerange (pa_start pa_end : Z) : KM unit :=
  freerange_loop (Z.to_nat ((pa_end - pa_start) / PGSIZE)) (PGROUNDUP pa_start) pa_end.

Definition kinit : KM unit := freerange kend PHYSTOP.

(** [for(r = kmem.freelist; r; r = r->next) n++] *)
Fixpoint count_free (fuel : nat) (r n : Z) : KM Z :=
  if r =? 0 then ret n
  else match fuel with
       | O => nofuel
       | S fuel' => next <- ld64 r ;; count_free fuel' next (u32 (n + 1))
       end.

(** RAM has this many pages, so a free list without repetition is no longer. *)
Definition NPAGES : nat := Z.to_nat ((PHYSTOP - KERNBASE) / PGSIZE).

Definition kfreepages : KM Z :=
  acquire Lkmem ;;;
  r <- gets freelist ;;
  n <- count_free NPAGES r 0 ;;
  release Lkmem ;;;
  ret n.

(** ** The free-list invariant *)

Definition page_ok (p : Z) : Prop := p mod PGSIZE = 0 ∧ kend ≤ p ∧ p < PHYSTOP.

(** Following [next] pointers from [r] visits the pages [l] and ends in NULL. *)
Fixpoint chain (m : memory) (r : Z) (l : list Z) : Prop :=
  match l with
  | [] => r = 0
  | p :: l' => r = p ∧ chain m (load64 m p) l'
  end.

Record kmem_wf (s : kst) (l : list Z) : Prop := {
  kw_chain : chain (ram s) (freelist s) l;
  kw_nodup : NoDup l;
  kw_pages : Forall page_ok l
}.

(** Two memories agree on a page. *)
Definition same_page (m m' : memory) (p : Z) : Prop :=
  ∀ a, p ≤ a < p + PGSIZE → ldb m a = ldb m' a.

Context `{!LayoutOk}.

Lemma page_ok_range p : page_ok p → KERNBASE < p ∧ p + PGSIZE ≤ PHYSTOP.
Proof.
  intros (Hm & Hl & Hu). pose proof kend_range. split; [lia|].
  unfold PGSIZE, PHYSTOP, KERNBASE in *. pose proof (Z.div_mod p 4096 ltac:(lia)). lia.
Qed.

Lemma page_ok_phys p off n :
  page_ok p → 0 ≤ off → off + n ≤ PGSIZE → phys_ok (p + off) n = true.
Proof. intros Hp ??. apply page_ok_range in Hp. apply phys_ok_page; lia. Qed.

Lemma page_ok_phys0 p n : page_ok p → n ≤ PGSIZE → phys_ok p n = true.
Proof. intros. rewrite <- (Z.add_0_r p). apply page_ok_phys; [done|lia|lia]. Qed.

Lemma page_ok_nonzero p : page_ok p → p ≠ 0.
Proof. intros Hp. apply page_ok_range in Hp. unfold KERNBASE in Hp. lia. Qed.

(** Distinct pages do not overlap. *)
Lemma pages_disjoint p q :
  p mod PGSIZE = 0 → q mod PGSIZE = 0 → p ≠ q → p + PGSIZE ≤ q ∨ q + PGSIZE ≤ p.
Proof.
  unfold PGSIZE. intros Hp Hq Hne.
  pose proof (Z.div_mod p 4096 ltac:(lia)). pose proof (Z.div_mod q 4096 ltac:(lia)). lia.
Qed.

Lemma chain_frame m m' r l :
  (∀ p, p ∈ l → load64 m p = load64 m' p) → chain m r l → chain m' r l.
Proof.
  revert r; induction l as [|p l IH]; intros r Hm; cbn [chain]; [done|].
  intros [-> Hc]. split; [done|]. rewrite <- Hm by set_solver.
  apply IH; [|done]. intros q Hq. apply Hm. set_solver.
Qed.

Lemma same_page_load m m' p off :
  same_page m m' p → 0 ≤ off → off + 8 ≤ PGSIZE → load64 m (p + off) = load64 m' (p + off).
Proof. intros Hs ??. apply ldn_ext. intros b Hb. apply Hs. lia. Qed.

(** The list survives any write that leaves its pages alone. *)
Lemma kmem_wf_frame s s' l :
  kmem_wf s l → freelist s' = freelist s →
  (∀ p, p ∈ l → same_page (ram s) (ram s') p) → kmem_wf s' l.
Proof.
  intros [Hc Hn Hp] Hf Hs. split; [|done|done]. rewrite Hf.
  eapply chain_frame; [|done]. intros p Hin. rewrite <- (Z.add_0_r p).
  apply same_page_load; [by apply Hs|lia|unfold PGSIZE; lia].
Qed.

(** ** Functional behaviour *)

Lemma kalloc_empty s :
  kmem_wf s [] → Lkmem ∉ held s → kalloc s = Ok 0 s.
Proof.
  intros [Hc _ _] Hl. simpl in Hc. unfold kalloc. kcall. kstep. rewrite Hc. simpl.
  kstep. krel. kstep. kst_eq s.
Qed.

Lemma kalloc_cons s p l :
  kmem_wf s (p :: l) → Lkmem ∉ held s →
  kalloc s = Ok p (s <| freelist := load64 (ram s) p |> <| ram := memset (ram s) p 5 PGSIZE |>).
Proof.
  intros [Hc _ Hp] Hl. destruct Hc as [Hf _]. apply list.Forall_cons in Hp as [Hp _].
  pose proof (page_ok_nonzero _ Hp) as Hnz. unfold kalloc. kcall. kstep. rewrite Hf.
  replace (p =? 0) with false by lia. simpl negb.
  erewrite bind_ok; [|erewrite bind_ok by (apply ld64_ok, page_ok_phys0; [done|unfold PGSIZE; lia]);
                      reflexivity].
  rsimpl. krel. simpl.
  erewrite bind_ok by (apply kmemset_ok, page_ok_phys0; [done|lia]). rsimpl.
  unfold ret. kst_eq s.
Qed.

Lemma kalloc_wf s p l :
  kmem_wf s (p :: l) →
  kmem_wf (s <| freelist := load64 (ram s) p |> <| ram := memset (ram s) p 5 PGSIZE |>) l.
Proof.
  intros [[Hf Hc] Hn Hp]. apply list.NoDup_cons in Hn as [Hnin Hn].
  apply list.Forall_cons in Hp as [Hpp Hp]. split; rsimpl; [|done|done].
  eapply chain_frame; [|done]. intros q Hq. symmetry. apply ldn_memset_other; [unfold PGSIZE; lia|].
  pose proof (proj1 (list.Forall_forall _ _) Hp q Hq) as (Hqm & _). destruct Hpp as (Hpm & _).
  destruct (pages_disjoint p q Hpm Hqm) as [?|?]; [set_solver|lia|unfold PGSIZE in *; lia].
Qed.

Lemma kfree_ok s p l :
  kmem_wf s l → Lkmem ∉ held s → page_ok p →
  kfree p s = Ok tt (s <| ram := store64 (memset (ram s) p 1 PGSIZE) p (freelist s) |>
                       <| freelist := p |>).
Proof.
  intros Hw Hl Hp. pose proof Hp as (Hm & Hlo & Hhi). unfold kfree.
  replace (negb (p mod PGSIZE =? 0) || (p <? kend) || (p >=? PHYSTOP)) with false by lia.
  erewrite bind_ok by (apply kmemset_ok, page_ok_phys0; [done|lia]). rsimpl.
  kcall. kstep. erewrite bind_ok by (apply st64_ok, page_ok_phys0; [done|unfold PGSIZE; lia]).
  rsimpl. kstep. krel. kst_eq s.
Qed.

Lemma chain_range s l : kmem_wf s l → 0 ≤ freelist s < 2 ^ 64.
Proof.
  intros [Hc _ Hp]. destruct l as [|p l]; simpl in Hc; [lia|]. destruct Hc as [-> _].
  apply list.Forall_cons in Hp as [Hp _]. apply page_ok_range in Hp. unfold KERNBASE, PHYSTOP in *.
  unfold KERNBASE, PGSIZE in *. lia.
Qed.

Lemma kfree_wf s p l :
  kmem_wf s l → page_ok p → p ∉ l →
  kmem_wf (s <| ram := store64 (memset (ram s) p 1 PGSIZE) p (freelist s) |>
             <| freelist := p |>) (p :: l).
Proof.
  intros Hw Hp Hnin. pose proof (chain_range _ _ Hw) as Hr.
  destruct Hw as [Hc Hn Hps]. split; rsimpl.
  - simpl. split; [done|]. rewrite ldn_stn_eq. change (2 ^ (8 * Z.of_nat 8)) with (2 ^ 64).
    rewrite Z.mod_small by done. eapply chain_frame; [|done]. intros q Hq.
    pose proof (proj1 (list.Forall_forall _ _) Hps q Hq) as (Hqm & _). destruct Hp as (Hpm & _).
    destruct (pages_disjoint p q Hpm Hqm) as [?|?]; [set_solver| |];
      unfold PGSIZE in *; rewrite ldn_stn_ne by lia; rewrite ldn_memset_other by lia; done.
  - by apply list.NoDup_cons.
  - by apply list.Forall_cons.
Qed.

(** A byte outside the freed page keeps its value. *)
Lemma kfree_frame m p v a :
  (a < p ∨ p + PGSIZE ≤ a) → ldb (store64 (memset m p 1 PGSIZE) p v) a = ldb m a.
Proof.
  unfold PGSIZE. intros Ha. rewrite ldb_stn_ne by lia. rewrite ldb_memset by lia.
  by rewrite decide_False by lia.
Qed.

Lemma kfree_invalid pa s : ¬ page_ok pa → kfree pa s = Panic "kfree".
Proof.
  intros Hn. unfold kfree.
  destruct (negb (pa mod PGSIZE =? 0) || (pa <? kend) || (pa >=? PHYSTOP)) eqn:E; [done|].
  exfalso. apply Hn. unfold page_ok. lia.
Qed.

(** ** The length of the free list *)

Lemma NPAGES_Z : Z.of_nat NPAGES = 32768.
Proof. reflexivity. Qed.

Lemma pages_length l : NoDup l → Forall page_ok l → (length l ≤ NPAGES)%nat.
Proof.
  intros Hn Hp. pose proof kend_range as Hk.
  rewrite <- (length_fmap (λ p, p / PGSIZE)).
  replace NPAGES with (length (seqZ (KERNBASE / PGSIZE) ((PHYSTOP - KERNBASE) / PGSIZE)))
    by (rewrite length_seqZ; done).
  apply submseteq_length, NoDup_submseteq.
  - apply NoDup_fmap_2_strong; [|done]. intros p q Hp1 Hq1.
    pose proof (proj1 (list.Forall_forall _ _) Hp p Hp1) as (Hpm & _).
    pose proof (proj1 (list.Forall_forall _ _) Hp q Hq1) as (Hqm & _). unfold PGSIZE in *.
    pose proof (Z.div_mod p 4096 ltac:(lia)). pose proof (Z.div_mod q 4096 ltac:(lia)). lia.
  - intros x Hx. apply list_elem_of_fmap in Hx as (p & -> & Hin).
    pose proof (proj1 (list.Forall_forall _ _) Hp p Hin) as Hpp. apply page_ok_range in Hpp as [? ?].
    apply elem_of_seqZ. change (KERNBASE / PGSIZE) with 524288.
    change ((PHYSTOP - KERNBASE) / PGSIZE) with 32768. unfold PHYSTOP, KERNBASE, PGSIZE in *.
    split; [apply Z.div_le_lower_bound|apply Z.div_lt_upper_bound]; lia.
Qed.

#[local] Opaque NPAGES.

Lemma count_free_ok fuel r n l s :
  chain (ram s) r l → Forall page_ok l → (length l ≤ fuel)%nat →
  0 ≤ n → n + Z.of_nat (length l) < 2 ^ 32 →
  count_free fuel r n s = Ok (n + Z.of_nat (length l)) s.
Proof.
  revert r n l; induction fuel as [|fuel IH]; intros r n l Hc Hp Hlen Hn Hb.
  - destruct l; simpl in *; [|lia]. subst. simpl. by rewrite Z.add_0_r.
  - destruct l as [|p l]; simpl in Hc.
    + subst. simpl. by rewrite Z.add_0_r.
    + destruct Hc as [-> Hc]. apply list.Forall_cons in Hp as [Hpp Hp]. simpl in *.
      pose proof (page_ok_nonzero _ Hpp). destruct (p =? 0) eqn:E; [lia|].
      erewrite bind_ok by (apply ld64_ok, page_ok_phys0; [done|unfold PGSIZE; lia]).
      rewrite u32_small by lia. rewrite (IH _ _ l) by (done || lia). f_equal. lia.
Qed.

Lemma kfreepages_length s l :
  kmem_wf s l → Lkmem ∉ held s → kfreepages s = Ok (Z.of_nat (length l)) s.
Proof.
  intros [Hc Hn Hp] Hl. pose proof (pages_length _ Hn Hp) as Hlen.
  pose proof NPAGES_Z as HN.
  unfold kfreepages. kcall. kstep.
  erewrite bind_ok by (apply count_free_ok with (l := l); [exact Hc|exact Hp|exact Hlen|lia|lia]).
  krel. kst_eq s.
Qed.

(** ** Initialisation *)

Lemma freerange_loop_wf fuel p pa_end l s :
  kmem_wf s l → Lkmem ∉ held s → p mod PGSIZE = 0 → kend ≤ p → pa_end ≤ PHYSTOP →
  Forall (λ q, q < p) l → (pa_end - p) / PGSIZE ≤ Z.of_nat fuel →
  ∃ s' l', freerange_loop fuel p pa_end s = Ok tt s' ∧ kmem_wf s' l' ∧ s' = s <| ram := ram s' |> <| freelist := freelist s' |> ∧
           ∀ q, q ∈ l' ↔ q ∈ l ∨ (q mod PGSIZE = 0 ∧ p ≤ q ∧ q + PGSIZE ≤ pa_end).
Proof.
  revert p l s; induction fuel as [|fuel IH]; intros p l s Hw Hl Hm Hlo Hhi Hlt Hf; simpl;
    destruct (p + PGSIZE <=? pa_end) eqn:E.
  - exfalso. apply Z.leb_le in E. unfold PGSIZE in *.
    assert (1 ≤ (pa_end - p) / 4096) by (apply Z.div_le_lower_bound; lia). lia.
  - exists s, l. split_and!; try done; [kst_eq s|]. intros q. split; [by left|]. intros [?|(?&?&?)]; [done|lia].
  - apply Z.leb_le in E.
    assert (page_ok p) as Hp by (unfold page_ok, PGSIZE in *; split_and!; lia).
    assert (p ∉ l) as Hnin.
    { intros Hin. pose proof (proj1 (list.Forall_forall _ _) Hlt p Hin). simpl in *. lia. }
    erewrite bind_ok by (eapply kfree_ok; eauto).
    match goal with |- context [freerange_loop fuel _ _ ?x] => set (s1 := x) end.
    assert (held s1 = held s) as Hh1 by (subst s1; by rsimpl).
    destruct (IH (p + PGSIZE) (p :: l) s1) as (s' & l' & Hr & Hw' & Hh & Hq).
    + by apply kfree_wf.
    + by rewrite Hh1.
    + unfold PGSIZE in *. replace (p + 4096) with (p + 1 * 4096) by lia. by rewrite Z.mod_add.
    + unfold PGSIZE. lia.
    + done.
    + apply list.Forall_cons. unfold PGSIZE. split; [lia|].
      eapply Forall_impl; [done|]. simpl. lia.
    + unfold PGSIZE in *. replace (pa_end - (p + 4096)) with (pa_end - p + (-1) * 4096) by lia.
      rewrite Z.div_add by lia. lia.
    + exists s', l'. split_and!; [done..| |]; [rewrite Hh; subst s1; rsimpl; kst_eq s|]. intros q. rewrite Hq, elem_of_cons. split.
      * intros [[->|?]|(?&?&?)]; [right|by left|right]; unfold PGSIZE in *; split_and!; (done || lia).
      * intros [?|(Hqm&?&?)]; [by left; right|].
        destruct (decide (q = p)) as [->|Hne]; [by left; left|]. right.
        destruct (pages_disjoint p q Hm Hqm ltac:(congruence)); split_and!; (done || unfold PGSIZE in *; lia).
  - exists s, l. split_and!; try done; [kst_eq s|]. intros q. split; [by left|]. intros [?|(?&?&?)]; [done|lia].
Qed.

Lemma freerange_wf pa_start pa_end s :
  kmem_wf s [] → Lkmem ∉ held s → kend ≤ pa_start → pa_start ≤ PHYSTOP → pa_end ≤ PHYSTOP →
  ∃ s' l', freerange pa_start pa_end s = Ok tt s' ∧ kmem_wf s' l' ∧ s' = s <| ram := ram s' |> <| freelist := freelist s' |> ∧
           ∀ q, q ∈ l' ↔ q mod PGSIZE = 0 ∧ pa_start ≤ q ∧ q + PGSIZE ≤ pa_end.
Proof.
  intros Hw Hl Hlo Hps Hpe. pose proof kend_range as [Hk _].
  assert (PGROUNDUP pa_start = (pa_start + 4095) / 4096 * 4096) as Hup
    by (apply PGROUNDUP_eq; unfold PHYSTOP, KERNBASE in *; lia).
  pose proof (Z.div_mod (pa_start + 4095) 4096 ltac:(lia)).
  pose proof (Z.mod_pos_bound (pa_start + 4095) 4096 ltac:(lia)).
  destruct (freerange_loop_wf (Z.to_nat ((pa_end - pa_start) / PGSIZE)) (PGROUNDUP pa_start)
              pa_end [] s) as (s' & l' & Hr & Hw' & Hh & Hq); try done.
  - rewrite Hup. unfold PGSIZE. apply Z.mod_mul. lia.
  - lia.
  - unfold PGSIZE. destruct (decide (0 ≤ pa_end - pa_start)) as [Hpos|Hneg].
    + rewrite Z2Nat.id by (apply Z.div_pos; lia). apply Z.div_le_mono; lia.
    + transitivity 0; [|lia]. apply Z.lt_succ_r, Z.div_lt_upper_bound; lia.
  - exists s', l'. split_and!; [done..|]. intros q. rewrite Hq. split.
    + intros [Hn|(?&?&?)]; [by apply not_elem_of_nil in Hn|]. split_and!; (done || lia).
    + intros (Hqm & ? & ?). right. split_and!; [done| |done]. unfold PGSIZE in *.
      pose proof (Z.div_mod q 4096 ltac:(lia)). lia.
Qed.

End Kalloc.

(** ** Properties *)

(** Addresses of one build of the kernel, for the concrete instances. *)
Definition qemu_layout : Layout := {|
  kend := 0x80023000; etext := 0x80008000; trampoline := 0x80007000; uservec := 0x80007000;
  userret := 0x8000709c; kernelvec := 0x80005a00; usertrap_addr := 0x80001e00;
  forkret_addr := 0x80001900 |}.

Lemma qemu_layout_ok : @LayoutOk qemu_layout.
Proof. by split. Qed.

(** [kalloc] on a well-formed free list takes its first page: the page is
    a page of RAM above the kernel that is not free any more, it is filled
    with fives, every other byte keeps its value, and the remaining list is
    well formed.  On an empty list it returns 0 and changes nothing. *)
Theorem kalloc_correct `{Layout, !LayoutOk} s l :
  kmem_wf s l → Lkmem ∉ held s →
  match l with
  | [] => kalloc s = Ok 0 s
  | p :: l' =>
      ∃ s', kalloc s = Ok p s' ∧ kmem_wf s' l' ∧ held s' = held s ∧ page_ok p ∧ p ∉ l' ∧
        (∀ a, p ≤ a < p + PGSIZE → ldb (ram s') a = 5) ∧
        (∀ a, ¬ (p ≤ a < p + PGSIZE) → ldb (ram s') a = ldb (ram s) a)
  end.
Proof.
  intros Hw Hl. destruct l as [|p l]; [by apply kalloc_empty|].
  eexists. split; [by eapply kalloc_cons|]. split; [by apply kalloc_wf|]. rsimpl.
  destruct Hw as [_ Hn Hp]. apply Forall_cons in Hp as [Hp _]. apply NoDup_cons in Hn as [Hn _].
  split_and!; [done|done|done| |]; intros a Ha; rewrite ldb_memset by done.
  - by rewrite decide_True.
  - by rewrite decide_False.
Qed.

(** [kfree] of a page of RAM that is not free puts it first on the free
    list, which stays well formed, and changes no byte outside the page; a
    following [kalloc] returns that page.  Any address that is not such a
    page makes it panic. *)
Theorem kfree_correct `{Layout, !LayoutOk} s l p :
  kmem_wf s l → Lkmem ∉ held s → p ∉ l →
  (¬ page_ok p → kfree p s = Panic "kfree") ∧
  (page_ok p → ∃ s', kfree p s = Ok tt s' ∧ kmem_wf s' (p :: l) ∧ held s' = held s ∧
     (∀ a, ¬ (p ≤ a < p + PGSIZE) → ldb (ram s') a = ldb (ram s) a) ∧
     ∃ s'', kalloc s' = Ok p s'' ∧ kmem_wf s'' l).
Proof.
  intros Hw Hl Hn. split; [apply kfree_invalid|]. intros Hp. pose proof (kfree_wf _ _ _ Hw Hp Hn) as Hw'.
  eexists. split; [by eapply kfree_ok|]. split; [done|]. rsimpl. split; [done|]. split.
  - intros a Ha. apply kfree_frame. lia.
  - eexists. split; [eapply kalloc_cons; [exact Hw'|by rsimpl]|]. by apply kalloc_wf.
Qed.

(** [freerange] on an empty list frees exactly the whole pages of its
    range, each once, and never runs out of iterations; [kfreepages] then
    counts them. *)
Theorem freerange_kfreepages_correct `{Layout, !LayoutOk} s pa_start pa_end :
  kmem_wf s [] → Lkmem ∉ held s → kend ≤ pa_start ≤ PHYSTOP → pa_end ≤ PHYSTOP →
  ∃ s' l, freerange pa_start pa_end s = Ok tt s' ∧ kmem_wf s' l ∧
    (∀ q, q ∈ l ↔ q mod PGSIZE = 0 ∧ pa_start ≤ q ∧ q + PGSIZE ≤ pa_end) ∧
    kfreepages s' = Ok (Z.of_nat (length l)) s'.
Proof.
  intros Hw Hl [Hlo Hps] Hpe.
  destruct (freerange_wf _ _ _ Hw Hl Hlo Hps Hpe) as (s' & l & Hr & Hw' & Hh & Hq).
  exists s', l. split_and!; try done. apply kfreepages_length; [done|]. rewrite Hh. by rsimpl.
Qed.

Section Witnesses.
Local Existing Instance qemu_layout.
Local Existing Instance qemu_layout_ok.

Lemma kmem_wf_boot : kmem_wf kst0 [].
Proof. split; [done|apply NoDup_nil_2|apply Forall_nil_2]. Qed.

Lemma kfree_correct_witness :
  ∃ s', kfree 0x80023000 kst0 = Ok tt s' ∧ kmem_wf s' [0x80023000].
Proof.
  destruct (kfree_correct kst0 [] 0x80023000 kmem_wf_boot (not_elem_of_nil _) (not_elem_of_nil _))
    as [_ Hok].
  destruct Hok as (s' & Hr & Hw & _); [by vm_compute|]. by exists s'.
Defined.

Definition one_free : kst :=
  kst0 <| ram := store64 (memset ∅ 0x80023000 1 PGSIZE) 0x80023000 0 |> <| freelist := 0x80023000 |>.

Lemma one_free_wf : kmem_wf one_free [0x80023000].
Proof. apply (kfree_wf kst0); [apply kmem_wf_boot|by vm_compute|apply not_elem_of_nil]. Qed.

Lemma kalloc_correct_witness :
  ∃ s', kalloc one_free = Ok 0x80023000 s' ∧ ldb (ram s') 0x80023fff = 5.
Proof.
  destruct (kalloc_correct one_free [0x80023000] one_free_wf (not_elem_of_nil _))
    as (s' & Hr & _ & _ & _ & _ & Hf & _).
  exists s'. split; [exact Hr|]. apply Hf. by vm_compute.
Defined.

Lemma freerange_kfreepages_witness :
  ∃ s' l, freerange 0x80023001 0x80027000 kst0 = Ok tt s' ∧ 0x80024000 ∈ l ∧ kmem_wf s' l.
Proof.
  destruct (freerange_kfreepages_correct kst0 0x80023001 0x80027000 kmem_wf_boot (not_elem_of_nil _))
    as (s' & l & Hr & Hw & Hq & _); [by vm_compute|by vm_compute|].
  exists s', l. split; [exact Hr|]. split; [|exact Hw]. apply Hq. by vm_compute.
Defined.

End Witnesses.
