(* ===== verification/Process.v ===== *)
(** * kernel/proc.c: the process table, sleeping and waking, controls by pid

    The operations on [proc[NPROC]] that need no page table: [sched], [yield],
    [sleep], [wakeup], [kkill], [setpowermode_pid], [setcpulimit_pid],
    [getcputicks_pid], [killed], [setkilled] and the table scans they share. *)

From Stdlib Require Import ZArith Lia.
From S2P Require Import Prelude Params State.
From stdpp Require Import base gmap strings numbers list.

Open Scope Z_scope.

(** [for(p = proc; p < &proc[NPROC]; p++)] ranges over these slots. *)
Definition table : list nat := seq 0 NPROC.

Definition is_state (st : procstate) (p : proc) : bool := bool_decide (p_state p = st).

(** [myproc()]; its [push_off] and [pop_off] cancel. *)
Definition myproc : KM (option nat) := gets cur.
(** [myproc()] where the result is dereferenced. *)
Definition curproc : KM nat := o <- myproc ;; in_range o.

Definition allocpid : KM Z :=
  acquire Lpid ;;;
  pid <- gets nextpid ;;
  modify (λ s, s <| nextpid := s32 (pid + 1) |>) ;;;
  release Lpid ;;;
  ret pid.

(** [mycpu()->noff] is the number of spin locks this hart holds, and
    interrupts are on exactly when it is zero (file [Spinlock]).  The saved
    [intena] is not part of this view. *)
Definition sched : KM unit :=
  i <- curproc ;;
  h <- gets (holding (Lproc i)) ;;
  if negb h then panic "sched p->lock" else
  ls <- gets held ;;
  if negb (length ls =? 1)%nat then panic "sched locks" else
  p <- getp i ;;
  if is_state RUNNING p then panic "sched RUNNING" else
  if (length ls =? 0)%nat then panic "sched interruptible" else
  swtch.

Definition yield : KM unit :=
  i <- curproc ;;
  acquire (Lproc i) ;;;
  updp i (λ p, p <| p_state := RUNNABLE |>) ;;;
  sched ;;;
  release (Lproc i).

Definition sleep (chan : channel) (lk : lock) : KM unit :=
  i <- curproc ;;
  acquire (Lproc i) ;;;
  release lk ;;;
  updp i (λ p, p <| p_chan := chan |> <| p_state := SLEEPING |>) ;;;
  sched ;;;
  updp i (λ p, p <| p_chan := ChNull |>) ;;;
  release (Lproc i) ;;;
  acquire lk.

Definition wakeup_slot (chan : channel) (i : nat) : KM (option unit) :=
  me <- myproc ;;
  (when negb (bool_decide (me = Some i)) do
     (acquire (Lproc i) ;;;
      p <- getp i ;;
      (when is_state SLEEPING p && bool_decide (p_chan p = chan) do
         updp i (λ p, p <| p_state := RUNNABLE |>)) ;;;
      release (Lproc i))) ;;;
  ret None.

Definition wakeup (chan : channel) : KM unit :=
  for_each table (wakeup_slot chan) ;;; ret tt.

(** What the loops [for p in proc: if(found) return x; return -1] return. *)
Definition or_minus1 (r : option Z) : Z := default (-1) r.

Definition kkill_slot (pid : Z) (i : nat) : KM (option Z) :=
  acquire (Lproc i) ;;;
  p <- getp i ;;
  if p_pid p =? pid then
    updp i (λ p, p <| p_killed := 1 |>) ;;;
    (when is_state SLEEPING p do updp i (λ p, p <| p_state := RUNNABLE |>)) ;;;
    release (Lproc i) ;;;
    ret (Some 0)
  else
    release (Lproc i) ;;; ret None.

Definition kkill (pid : Z) : KM Z :=
  r <- for_each table (kkill_slot pid) ;; ret (or_minus1 r).

Definition setpowermode_slot (pid mode : Z) (i : nat) : KM (option Z) :=
  acquire (Lproc i) ;;;
  p <- getp i ;;
  if negb (is_state UNUSED p) && (p_pid p =? pid) then
    updp i (λ p, p <| p_power_mode := mode |> <| p_eco_skip_counter := 0 |>) ;;;
    release (Lproc i) ;;;
    ret (Some 0)
  else
    release (Lproc i) ;;; ret None.

Definition setpowermode_pid (pid mode : Z) : KM Z :=
  if negb (mode =? POWER_NORMAL) && negb (mode =? POWER_ECO) then ret (-1)
  else r <- for_each table (setpowermode_slot pid mode) ;; ret (or_minus1 r).

Definition setcpulimit_slot (pid limit now : Z) (i : nat) : KM (option Z) :=
  acquire (Lproc i) ;;;
  p <- getp i ;;
  if negb (is_state UNUSED p) && (p_pid p =? pid) then
    updp i (λ p, p <| p_cpu_budget := limit |> <| p_ticks_used := 0 |>
                   <| p_budget_window_start := now |>) ;;;
    release (Lproc i) ;;;
    ret (Some 0)
  else
    release (Lproc i) ;;; ret None.

Definition setcpulimit_pid (pid limit : Z) : KM Z :=
  if limit <? 0 then ret (-1)
  else
    acquire Lticks ;;;
    now <- gets ticks ;;
    release Lticks ;;;
    r <- for_each table (setcpulimit_slot pid limit now) ;; ret (or_minus1 r).

Definition getcputicks_slot (pid : Z) (i : nat) : KM (option Z) :=
  acquire (Lproc i) ;;;
  p <- getp i ;;
  if negb (is_state UNUSED p) && (p_pid p =? pid) then
    release (Lproc i) ;;; ret (Some (p_ticks_total p))
  else
    release (Lproc i) ;;; ret None.

Definition getcputicks_pid (pid : Z) : KM Z :=
  r <- for_each table (getcputicks_slot pid) ;; ret (or_minus1 r).

Definition setkilled (i : nat) : KM unit :=
  acquire (Lproc i) ;;;
  updp i (λ p, p <| p_killed := 1 |>) ;;;
  release (Lproc i).

Definition killed (i : nat) : KM Z :=
  acquire (Lproc i) ;;;
  p <- getp i ;;
  release (Lproc i) ;;;
  ret (p_killed p).

(** ** Shared facts about the table scans *)

(** The table has its size and this hart holds no process lock. *)
Record table_free (s : kst) : Prop := {
  tf_len : length (procs s) = NPROC;
  tf_free : ∀ i, Lproc i ∉ held s
}.

Lemma curproc_ok s i : cur s = Some i → curproc s = Ok i s.
Proof. intros Hc. unfold curproc, myproc. kstep. by rewrite Hc. Qed.

Lemma updp_alter i f p s :
  procs s !! i = Some p → updp i f s = Ok tt (s <| procs := alter f i (procs s) |>).
Proof.
  intros Hp. rewrite (updp_ok i f p) by done. by erewrite alter_lookup_insert.
Qed.

Lemma for_each_find_aux {A} (test : proc → bool) (body : nat → KM (option A))
    (r : nat → A) (s' : nat → kst) (s : kst) l k :
  (∀ j p, l !! j = Some p → procs s !! (k + j)%nat = Some p) →
  (∀ i p, procs s !! i = Some p → test p = false → body i s = Ok None s) →
  (∀ i p, procs s !! i = Some p → test p = true → body i s = Ok (Some (r i)) (s' i)) →
  for_each (seq k (length l)) body s =
    match find_from test l k with
    | Some i => Ok (Some (r i)) (s' i)
    | None => Ok None s
    end.
Proof.
  intros Hl Hno Hyes. revert k Hl; induction l as [|p l IH]; intros k Hl; simpl; [done|].
  assert (procs s !! k = Some p) as Hk.
  { specialize (Hl O p eq_refl). by rewrite Nat.add_0_r in Hl. }
  destruct (test p) eqn:E.
  - by erewrite bind_ok by (by eapply Hyes).
  - erewrite bind_ok by (by eapply Hno). apply IH. intros j q Hj.
    replace (S k + j)%nat with (k + S j)%nat by lia. by apply Hl.
Qed.

(** A scan that leaves at the first slot satisfying [test] leaves where
    [find_first] says. *)
Lemma for_each_find {A} (test : proc → bool) (body : nat → KM (option A))
    (r : nat → A) (s' : nat → kst) (s : kst) :
  length (procs s) = NPROC →
  (∀ i p, procs s !! i = Some p → test p = false → body i s = Ok None s) →
  (∀ i p, procs s !! i = Some p → test p = true → body i s = Ok (Some (r i)) (s' i)) →
  for_each table body s =
    match find_first test (procs s) with
    | Some i => Ok (Some (r i)) (s' i)
    | None => Ok None s
    end.
Proof.
  intros Hlen Hno Hyes. unfold table. rewrite <- Hlen. by apply for_each_find_aux.
Qed.

Lemma split_at_insert (h : nat → proc → proc) k p (l : list proc) :
  l !! k = Some p →
  take (S k) (<[k := h k p]> l) ++ imap (λ j, h (S k + j)%nat) (drop (S k) (<[k := h k p]> l)) =
  take k l ++ imap (λ j, h (k + j)%nat) (drop k l).
Proof.
  intros Hp. pose proof (lookup_lt_Some _ _ _ Hp).
  rewrite (take_S_r _ _ (h k p)) by (by rewrite list_lookup_insert_eq).
  rewrite take_insert_ge, drop_insert_lt, <- app_assoc by lia.
  rewrite (drop_S l p k) by done. simpl. rewrite Nat.add_0_r. do 2 f_equal.
  apply imap_ext. intros j x _. simpl. f_equal. lia.
Qed.

(** A scan that updates each slot in turn maps over the table. *)
Lemma for_each_map_aux {A} (h : nat → proc → proc) (body : nat → KM (option A)) s k n :
  (k + n = length (procs s))%nat →
  (∀ i s', held s' = held s → cur s' = cur s → length (procs s') = length (procs s) →
     (i < length (procs s))%nat →
     body i s' = Ok None (s' <| procs := alter (h i) i (procs s') |>)) →
  for_each (seq k n) body s =
    Ok None (s <| procs := take k (procs s) ++ imap (λ j, h (k + j)%nat) (drop k (procs s)) |>).
Proof.
  revert k s; induction n as [|n IH]; intros k s Hkn Hb; simpl.
  - rewrite drop_ge, take_ge by lia. simpl. rewrite app_nil_r. kst_eq s.
  - destruct (lookup_lt_is_Some_2 (procs s) k ltac:(lia)) as [p Hp].
    erewrite bind_ok by (apply Hb; done || lia). cbv iota.
    rewrite IH.
    + rsimpl. f_equal. erewrite alter_lookup_insert by done.
      rewrite <- (split_at_insert h k p) by done. kst_eq s.
    + rsimpl. rewrite length_alter. lia.
    + rsimpl. intros i s' Hh Hc Hl Hi. rewrite length_alter in *. apply Hb; congruence || lia.
Qed.

Lemma for_each_map {A} (h : nat → proc → proc) (body : nat → KM (option A)) s :
  length (procs s) = NPROC →
  (∀ i s', held s' = held s → cur s' = cur s → length (procs s') = length (procs s) →
     (i < length (procs s))%nat →
     body i s' = Ok None (s' <| procs := alter (h i) i (procs s') |>)) →
  for_each table body s = Ok None (s <| procs := imap h (procs s) |>).
Proof.
  intros Hlen Hb. unfold table. rewrite (for_each_map_aux h) by (done || lia).
  by rewrite drop_0.
Qed.

(** ** What each operation does to the table *)

Definition wake (chan : channel) (me : option nat) (i : nat) (p : proc) : proc :=
  if negb (bool_decide (me = Some i)) && (is_state SLEEPING p && bool_decide (p_chan p = chan))
  then p <| p_state := RUNNABLE |> else p.

Definition kill_mark (p : proc) : proc :=
  let p := p <| p_killed := 1 |> in
  if is_state SLEEPING p then p <| p_state := RUNNABLE |> else p.

Definition set_mode (mode : Z) (p : proc) : proc :=
  p <| p_power_mode := mode |> <| p_eco_skip_counter := 0 |>.

Definition set_budget (limit now : Z) (p : proc) : proc :=
  p <| p_cpu_budget := limit |> <| p_ticks_used := 0 |> <| p_budget_window_start := now |>.

Definition live_pid (pid : Z) (p : proc) : bool := negb (is_state UNUSED p) && (p_pid p =? pid).

Lemma alter_id_at (f : proc → proc) i p (l : list proc) :
  l !! i = Some p → f p = p → alter f i l = l.
Proof. intros Hl Hf. erewrite alter_lookup_insert by done. rewrite Hf. by apply list_insert_id. Qed.

Lemma alter_ext_at (f g : proc → proc) i p (l : list proc) :
  l !! i = Some p → f p = g p → alter f i l = alter g i l.
Proof. intros Hl Hf. rewrite !(alter_lookup_insert _ _ p) by done. by rewrite Hf. Qed.

Lemma wakeup_slot_ok chan i s :
  Lproc i ∉ held s → (i < length (procs s))%nat →
  wakeup_slot chan i s = Ok None (s <| procs := alter (wake chan (cur s) i) i (procs s) |>).
Proof.
  intros Hl Hi. destruct (lookup_lt_is_Some_2 _ _ Hi) as [p Hp].
  unfold wakeup_slot, myproc. kstep.
  destruct (negb (bool_decide (cur s = Some i))) eqn:E1.
  - erewrite bind_ok; [reflexivity|]. kcall. erewrite bind_ok by (apply getp_ok; by rsimpl).
    destruct (is_state SLEEPING p && bool_decide (p_chan p = chan)) eqn:E2.
    + erewrite bind_ok by (apply (updp_alter _ _ p); by rsimpl). rsimpl. krel.
      rewrite (alter_ext_at (wake chan (cur s) i) (λ p, p <| p_state := RUNNABLE |>) i p); [|done|].
      * kst_eq s.
      * unfold wake. by rewrite E1, E2.
    + kstep. krel. rewrite (alter_id_at _ i p); [kst_eq s|done|]. unfold wake. by rewrite E2, andb_false_r.
  - kstep. rewrite (alter_id_at _ i p); [kst_eq s|done|]. unfold wake. by rewrite E1.
Qed.

Lemma wakeup_ok chan s :
  table_free s →
  wakeup chan s = Ok tt (s <| procs := imap (wake chan (cur s)) (procs s) |>).
Proof.
  intros [Hlen Hf]. unfold wakeup.
  erewrite bind_ok; [reflexivity|]. apply for_each_map; [done|].
  intros i s' Hh Hc Hl Hi. rewrite <- Hc. apply wakeup_slot_ok; [by rewrite Hh|lia].
Qed.

(** The three shapes of slot a scan by pid meets. *)
Lemma slot_skip {A} i (s : kst) :
  Lproc i ∉ held s →
  (release (Lproc i) ;;; ret (@None A)) (s <| held := Lproc i :: held s |>) = Ok None s.
Proof. intros Hl. krel. kst_eq s. Qed.

Lemma slot_update {A} i f p (a : A) (s : kst) :
  Lproc i ∉ held s → procs s !! i = Some p →
  (updp i f ;;; release (Lproc i) ;;; ret (Some a)) (s <| held := Lproc i :: held s |>) =
    Ok (Some a) (s <| procs := alter f i (procs s) |>).
Proof.
  intros Hl Hp. erewrite bind_ok by (apply (updp_alter _ _ p); by rsimpl). rsimpl. krel.
  kst_eq s.
Qed.

Ltac slot_enter Hp := kcall; erewrite bind_ok by (apply getp_ok; rsimpl; exact Hp).

Lemma kkill_ok pid s :
  table_free s →
  kkill pid s =
    match find_first (λ p, p_pid p =? pid) (procs s) with
    | Some i => Ok 0 (s <| procs := alter kill_mark i (procs s) |>)
    | None => Ok (-1) s
    end.
Proof.
  intros [Hlen Hf]. unfold kkill. unfold bind at 1.
  rewrite (for_each_find (λ p, p_pid p =? pid) _ (λ _, 0)
             (λ i, s <| procs := alter kill_mark i (procs s) |>)); [|done| |].
  - by destruct (find_first _ _).
  - intros i p Hp Ht. unfold kkill_slot. slot_enter Hp. rewrite Ht. by apply slot_skip.
  - intros i p Hp Ht. unfold kkill_slot. slot_enter Hp. rewrite Ht.
    erewrite bind_ok by (apply (updp_alter _ _ p); by rsimpl). rsimpl.
    destruct (is_state SLEEPING p) eqn:E.
    + erewrite bind_ok.
      2:{ apply (updp_alter _ _ (p <| p_killed := 1 |>)). rsimpl.
          erewrite alter_lookup_insert by done.
          apply list_lookup_insert_eq. by eapply lookup_lt_Some. }
      rsimpl. krel. rewrite list_alter_alter_eq.
      rewrite (alter_ext_at kill_mark ((λ p, p <| p_state := RUNNABLE |>) ∘ (λ p, p <| p_killed := 1 |>)) i p);
        [kst_eq s|done|]. unfold kill_mark, is_state. rsimpl.
      unfold is_state in E. by rewrite E.
    + kstep. krel. rewrite (alter_ext_at kill_mark (λ p, p <| p_killed := 1 |>) i p);
        [kst_eq s|done|]. unfold kill_mark, is_state. rsimpl.
      unfold is_state in E. by rewrite E.
Qed.

Lemma setpowermode_ok pid mode s :
  table_free s → mode = POWER_NORMAL ∨ mode = POWER_ECO →
  setpowermode_pid pid mode s =
    match find_first (live_pid pid) (procs s) with
    | Some i => Ok 0 (s <| procs := alter (set_mode mode) i (procs s) |>)
    | None => Ok (-1) s
    end.
Proof.
  intros [Hlen Hf] Hm. unfold setpowermode_pid.
  replace (negb (mode =? POWER_NORMAL) && negb (mode =? POWER_ECO)) with false by (unfold POWER_NORMAL, POWER_ECO in *; lia).
  unfold bind at 1.
  rewrite (for_each_find (live_pid pid) _ (λ _, 0)
             (λ i, s <| procs := alter (set_mode mode) i (procs s) |>)); [|done| |].
  - by destruct (find_first _ _).
  - intros i p Hp Ht. unfold setpowermode_slot. slot_enter Hp. unfold live_pid in Ht. rewrite Ht.
    by apply slot_skip.
  - intros i p Hp Ht. unfold setpowermode_slot. slot_enter Hp. unfold live_pid in Ht. rewrite Ht.
    by apply (slot_update _ (set_mode mode) p).
Qed.

Lemma setcpulimit_ok pid limit s :
  table_free s → Lticks ∉ held s → 0 ≤ limit →
  setcpulimit_pid pid limit s =
    match find_first (live_pid pid) (procs s) with
    | Some i => Ok 0 (s <| procs := alter (set_budget limit (ticks s)) i (procs s) |>)
    | None => Ok (-1) s
    end.
Proof.
  intros [Hlen Hf] Hl Hm. unfold setcpulimit_pid. replace (limit <? 0) with false by lia.
  kcall. kstep. krel. rewrite held_held, held_eta. unfold bind at 1.
  rewrite (for_each_find (live_pid pid) _ (λ _, 0)
             (λ i, s <| procs := alter (set_budget limit (ticks s)) i (procs s) |>)); [|done| |].
  - by destruct (find_first _ _).
  - intros i p Hp Ht. unfold setcpulimit_slot. slot_enter Hp. unfold live_pid in Ht. rewrite Ht.
    by apply slot_skip.
  - intros i p Hp Ht. unfold setcpulimit_slot. slot_enter Hp. unfold live_pid in Ht. rewrite Ht.
    by apply (slot_update _ (set_budget limit (ticks s)) p).
Qed.

Lemma getcputicks_ok pid s :
  table_free s →
  getcputicks_pid pid s =
    match find_first (live_pid pid) (procs s) with
    | Some i => Ok (p_ticks_total (procs s !!! i)) s
    | None => Ok (-1) s
    end.
Proof.
  intros [Hlen Hf]. unfold getcputicks_pid. unfold bind at 1.
  rewrite (for_each_find (live_pid pid) _ (λ i, p_ticks_total (procs s !!! i)) (λ _, s)); [|done| |].
  - by destruct (find_first _ _).
  - intros i p Hp Ht. unfold getcputicks_slot. slot_enter Hp. unfold live_pid in Ht. rewrite Ht.
    by apply slot_skip.
  - intros i p Hp Ht. unfold getcputicks_slot. slot_enter Hp. unfold live_pid in Ht. rewrite Ht.
    krel. unfold ret. erewrite list_lookup_total_correct by done. kst_eq s.
Qed.

Lemma killed_ok i p s :
  Lproc i ∉ held s → procs s !! i = Some p → killed i s = Ok (p_killed p) s.
Proof.
  intros Hl Hp. unfold killed. slot_enter Hp. krel. kst_eq s.
Qed.

(** ** Properties *)

(** [wakeup(chan)] makes RUNNABLE exactly the other processes that sleep on
    [chan]; every other slot, every lock and every other variable keeps its
    value. *)
Theorem wakeup_correct chan s :
  table_free s →
  ∃ s', wakeup chan s = Ok tt s' ∧ s' = s <| procs := procs s' |> ∧
    ∀ i p, procs s !! i = Some p →
      procs s' !! i = Some
        (if bool_decide (cur s ≠ Some i ∧ p_state p = SLEEPING ∧ p_chan p = chan)
         then p <| p_state := RUNNABLE |> else p).
Proof.
  intros Ht. eexists. split; [by apply wakeup_ok|]. split; [kst_eq s|]. intros i p Hp. rsimpl.
  rewrite list_lookup_imap, Hp. simpl. f_equal. unfold wake, is_state.
  repeat case_bool_decide; simpl; naive_solver.
Qed.

(** [setcpulimit_pid] rejects a negative limit and a pid no live process
    has; otherwise it gives the process that budget, empties its window and
    starts the window at the current tick, touching no other process. *)
Theorem setcpulimit_correct pid limit s :
  table_free s → Lticks ∉ held s →
  setcpulimit_pid pid limit s =
    if limit <? 0 then Ok (-1) s
    else match find_first (live_pid pid) (procs s) with
         | Some i => Ok 0 (s <| procs := alter (set_budget limit (ticks s)) i (procs s) |>)
         | None => Ok (-1) s
         end.
Proof.
  intros Ht Hl. destruct (limit <? 0) eqn:E; [unfold setcpulimit_pid; by rewrite E|].
  apply setcpulimit_ok; (done || lia).
Qed.

(** [setpowermode_pid] accepts only the two modes and a live pid; it then
    sets the mode and restarts the eco counter of that process alone. *)
Theorem setpowermode_correct pid mode s :
  table_free s →
  setpowermode_pid pid mode s =
    if decide (mode = POWER_NORMAL ∨ mode = POWER_ECO) then
      match find_first (live_pid pid) (procs s) with
      | Some i => Ok 0 (s <| procs := alter (set_mode mode) i (procs s) |>)
      | None => Ok (-1) s
      end
    else Ok (-1) s.
Proof.
  intros Ht. case_decide as Hm; [by apply setpowermode_ok|]. unfold setpowermode_pid.
  replace (negb (mode =? POWER_NORMAL) && negb (mode =? POWER_ECO)) with true; [done|].
  symmetry. unfold POWER_NORMAL, POWER_ECO in *. lia.
Qed.

(** [kkill(pid)] marks the first slot with that pid as killed and makes it
    RUNNABLE if it slept; -1 if no slot has the pid.  The scan does not skip
    UNUSED slots. *)
Theorem kkill_correct pid s :
  table_free s →
  kkill pid s =
    match find_first (λ p, p_pid p =? pid) (procs s) with
    | Some i => Ok 0 (s <| procs := alter kill_mark i (procs s) |>)
    | None => Ok (-1) s
    end.
Proof. apply kkill_ok. Qed.

Lemma table_free_boot : table_free kst0.
Proof. split; [done|]. intros i. apply not_elem_of_nil. Qed.

(** Slot 2 sleeps on the tick counter. *)
Definition sleeper : kst :=
  kst0 <| procs := <[2%nat := proc0 <| p_state := SLEEPING |> <| p_chan := ChTicks |> <| p_pid := 7 |>]>
                    (replicate NPROC proc0) |>.

Lemma table_free_sleeper : table_free sleeper.
Proof. split; [done|]. intros i. apply not_elem_of_nil. Qed.

Lemma wakeup_correct_witness :
  ∃ s' p, wakeup ChTicks sleeper = Ok tt s' ∧ procs s' !! 2%nat = Some p ∧ p_state p = RUNNABLE.
Proof.
  destruct (wakeup_correct ChTicks sleeper table_free_sleeper) as (s' & Hr & _ & Hp).
  eexists s', _. split; [exact Hr|]. split; [apply Hp; reflexivity|reflexivity].
Defined.

Lemma setcpulimit_correct_witness :
  ∃ s', setcpulimit_pid 7 20 sleeper = Ok 0 s' ∧
        p_cpu_budget <$> procs s' !! 2%nat = Some 20.
Proof.
  eexists. split; [rewrite (setcpulimit_correct 7 20 sleeper table_free_sleeper (not_elem_of_nil _)); reflexivity|].
  reflexivity.
Defined.

Lemma setpowermode_correct_witness : setpowermode_pid 7 2 sleeper = Ok (-1) sleeper.
Proof. rewrite (setpowermode_correct 7 2 sleeper table_free_sleeper). reflexivity. Defined.

Lemma kkill_correct_witness :
  ∃ s', kkill 7 sleeper = Ok 0 s' ∧ p_state <$> procs s' !! 2%nat = Some RUNNABLE.
Proof.
  eexists. split; [rewrite (kkill_correct 7 sleeper table_free_sleeper); reflexivity|]. reflexivity.
Defined.
