(* ===== verification/Sched.v ===== *)
(** * kernel/proc.c: the scheduler

    [scheduler()] with the per-window CPU budget and the eco cadence.  The
    process a slot switches to is a parameter: it stands for whatever the
    process does between two [swtch]es. *)

From Stdlib Require Import ZArith Lia.
From S2P Require Import Prelude Params State Process.
From stdpp Require Import base gmap strings numbers list.

Open Scope Z_scope.

(** The decision the scheduler takes on a RUNNABLE process: whether to run it
    now, and the process with its window and eco counter updated. *)
Definition consider (now : Z) (p : proc) : bool * proc :=
  let '(can_run, p) :=
    if 0 <? p_cpu_budget p then
      let p := if CPU_BUDGET_WINDOW_TICKS <=? u32 (now - p_budget_window_start p)
               then p <| p_budget_window_start := now |> <| p_ticks_used := 0 |>
               else p in
      (negb (p_cpu_budget p <=? p_ticks_used p), p)
    else (true, p) in
  if can_run && (p_power_mode p =? POWER_ECO) then
    let p := p <| p_eco_skip_counter := s32 (p_eco_skip_counter p + 1) |> in
    if p_eco_skip_counter p <? ECO_SKIP_INTERVAL then (false, p)
    else (true, p <| p_eco_skip_counter := 0 |>)
  else (can_run, p).

(** [p->sched_count++; p->state = RUNNING] *)
Definition dispatch (p : proc) : proc :=
  p <| p_sched_count := u64 (p_sched_count p + 1) |> <| p_state := RUNNING |>.

Section Scheduler.
(** [run i] is [swtch(&c->context, &p->context)] for slot [i]: it returns when
    that process switches back. *)
Context (run : nat → KM unit).

(** One iteration of the inner loop; [found] is threaded through. *)
Definition scheduler_slot (now : Z) (found : bool) (i : nat) : KM bool :=
  acquire (Lproc i) ;;;
  p <- getp i ;;
  if is_state RUNNABLE p then
    let '(can_run, p1) := consider now p in
    putp i p1 ;;;
    if negb can_run then release (Lproc i) ;;; ret found
    else
      updp i dispatch ;;;
      modify (λ s, s <| cur := Some i |>) ;;;
      modify (λ s, s <| context_switches := u32 (context_switches s + 1) |>) ;;;
      run i ;;;
      modify (λ s, s <| cur := None |>) ;;;
      release (Lproc i) ;;;
      ret true
  else
    release (Lproc i) ;;; ret found.

Fixpoint scheduler_scan (now : Z) (found : bool) (l : list nat) : KM bool :=
  match l with
  | [] => ret found
  | i :: l' => found' <- scheduler_slot now found i ;; scheduler_scan now found' l'
  end.

(** One round of [for(;;)].  With no lock held, turning interrupts on and off
    and waiting for one ([wfi]) do not change the state. *)
Definition scheduler_round : KM bool :=
  acquire Lticks ;;;
  now <- gets ticks ;;
  release Lticks ;;;
  scheduler_scan now false table.

(** The first [n] rounds of [scheduler()], which never returns. *)
Fixpoint scheduler_rounds (n : nat) : KM unit :=
  match n with
  | O => ret tt
  | S n' => scheduler_round ;;; scheduler_rounds n'
  end.

Definition scheduler (n : nat) : KM unit :=
  modify (λ s, s <| cur := None |>) ;;; scheduler_rounds n.

End Scheduler.

(** ** Facts about one decision *)

(** The decision changes nothing but the accounting fields of the window. *)
Lemma consider_frame now p :
  let p' := (consider now p).2 in
  p_state p' = p_state p ∧ p_pid p' = p_pid p ∧ p_cpu_budget p' = p_cpu_budget p ∧
  p_power_mode p' = p_power_mode p ∧ p_sched_count p' = p_sched_count p ∧
  p_ticks_total p' = p_ticks_total p ∧ p_cpu_ticks p' = p_cpu_ticks p.
Proof. unfold consider. repeat case_match; simplify_eq/=; rsimpl; done. Qed.

(** Unlimited processes in normal mode are always run. *)
Lemma consider_plain now p :
  p_cpu_budget p ≤ 0 → p_power_mode p ≠ POWER_ECO → consider now p = (true, p).
Proof.
  intros Hb Hm. unfold consider. replace (0 <? p_cpu_budget p) with false by lia.
  by replace (p_power_mode p =? POWER_ECO) with false by lia.
Qed.

(** A budgeted process is run only with budget left in its window. *)
Lemma consider_budget now p p' :
  consider now p = (true, p') → 0 < p_cpu_budget p → p_ticks_used p' < p_cpu_budget p'.
Proof.
  intros Hc Hb. unfold consider in Hc. replace (0 <? p_cpu_budget p) with true in Hc by lia.
  repeat case_match; simplify_eq/=; rsimpl; lia.
Qed.

Lemma consider_used now p :
  let p' := (consider now p).2 in
  p_ticks_used p' = p_ticks_used p ∨ p_ticks_used p' = 0 ∧ 0 < p_cpu_budget p.
Proof.
  unfold consider. destruct (0 <? p_cpu_budget p) eqn:E; repeat case_match; simplify_eq/=; rsimpl;
    (by left) || (right; lia).
Qed.

(** ** Cadence of the eco mode *)

(** The decisions of consecutive visits at times [nows], the process changing
    in between only through [f] when it ran. *)
Fixpoint visits (f : proc → proc) (nows : list Z) (p : proc) : list bool * proc :=
  match nows with
  | [] => ([], p)
  | now :: nows' =>
      let '(r, p1) := consider now p in
      let '(rs, p2) := visits f nows' (if r then f p1 else p1) in
      (r :: rs, p2)
  end.

Definition runs (rs : list bool) : Z := foldr (λ r n, b2z r + n) 0 rs.

Lemma runs_cons r rs : runs (r :: rs) = b2z r + runs rs.
Proof. reflexivity. Qed.

Lemma consider_eco now p :
  p_cpu_budget p ≤ 0 → p_power_mode p = POWER_ECO → 0 ≤ p_eco_skip_counter p < ECO_SKIP_INTERVAL →
  consider now p =
    (p_eco_skip_counter p =? ECO_SKIP_INTERVAL - 1,
     p <| p_eco_skip_counter := (p_eco_skip_counter p + 1) mod ECO_SKIP_INTERVAL |>).
Proof.
  intros Hb Hm Hc. unfold consider. replace (0 <? p_cpu_budget p) with false by lia.
  rewrite Hm. unfold ECO_SKIP_INTERVAL in *. cbn [andb]. change (POWER_ECO =? POWER_ECO) with true.
  cbv iota. rewrite s32_small by lia. rsimpl.
  destruct (p_eco_skip_counter p + 1 <? 3) eqn:E.
  - replace (p_eco_skip_counter p =? 3 - 1) with false by lia. by rewrite Z.mod_small by lia.
  - replace (p_eco_skip_counter p) with 2 in * by lia. by destruct p.
Qed.

Lemma visits_eco f nows p :
  (∀ q, p_cpu_budget (f q) = p_cpu_budget q ∧ p_power_mode (f q) = p_power_mode q ∧
        p_eco_skip_counter (f q) = p_eco_skip_counter q) →
  p_cpu_budget p ≤ 0 → p_power_mode p = POWER_ECO → 0 ≤ p_eco_skip_counter p < ECO_SKIP_INTERVAL →
  let '(rs, p') := visits f nows p in
  runs rs = (p_eco_skip_counter p + Z.of_nat (length nows)) / ECO_SKIP_INTERVAL ∧
  p_eco_skip_counter p' =
    (p_eco_skip_counter p + Z.of_nat (length nows)) mod ECO_SKIP_INTERVAL.
Proof.
  intros Hf. revert p; induction nows as [|now nows IH]; intros p Hb Hm Hc.
  - simpl. rewrite Z.add_0_r, Z.div_small, Z.mod_small by lia. done.
  - cbn [visits]. rewrite consider_eco by done.
    set (c := p_eco_skip_counter p) in *.
    set (q := if c =? ECO_SKIP_INTERVAL - 1 then _ else _).
    assert (p_cpu_budget q ≤ 0 ∧ p_power_mode q = POWER_ECO ∧
            p_eco_skip_counter q = (c + 1) mod ECO_SKIP_INTERVAL) as (Hb' & Hm' & Hc').
    { subst q. destruct (c =? _); [destruct (Hf (p <| p_eco_skip_counter := (c + 1) mod ECO_SKIP_INTERVAL |>)) as (-> & -> & ->)|];
        rsimpl; done. }
    specialize (IH q Hb' Hm'). rewrite Hc' in IH.
    specialize (IH (Z.mod_pos_bound (c + 1) ECO_SKIP_INTERVAL eq_refl)).
    destruct (visits f nows q) as [rs p']. destruct IH as [IH1 IH2].
    rewrite runs_cons, IH1, IH2. cbn [length]. unfold ECO_SKIP_INTERVAL in *.
    destruct (c =? 3 - 1) eqn:E.
    + replace c with 2 in * by lia. change ((2 + 1) mod 3) with 0. simpl b2z.
      replace (2 + Z.of_nat (S (length nows))) with (0 + Z.of_nat (length nows) + 1 * 3) by lia.
      rewrite Z.div_add, Z.mod_add by lia. split; [lia|done].
    + rewrite (Z.mod_small (c + 1)) by lia. simpl b2z.
      replace (c + Z.of_nat (S (length nows))) with (c + 1 + Z.of_nat (length nows)) by lia. done.
Qed.

(** ** Budgets within one window *)

(** What a timer tick in user mode charges (see file [Trap]). *)
Definition charge (p : proc) : proc :=
  p <| p_ticks_used := s32 (p_ticks_used p + 1) |> <| p_ticks_total := s32 (p_ticks_total p + 1) |>.

Definition in_window (p : proc) (now : Z) : Prop :=
  u32 (now - p_budget_window_start p) < CPU_BUDGET_WINDOW_TICKS.

Lemma consider_in_window now p :
  0 < p_cpu_budget p → p_power_mode p = POWER_NORMAL → in_window p now →
  consider now p = (p_ticks_used p <? p_cpu_budget p, p).
Proof.
  intros Hb Hm Hw. unfold consider, in_window in *. replace (0 <? p_cpu_budget p) with true by lia.
  replace (CPU_BUDGET_WINDOW_TICKS <=? u32 (now - p_budget_window_start p)) with false by lia.
  rewrite Hm. change (POWER_NORMAL =? POWER_ECO) with false. rewrite andb_false_r. f_equal. lia.
Qed.

Lemma visits_budget nows p :
  0 < p_cpu_budget p < 2 ^ 31 → p_power_mode p = POWER_NORMAL →
  0 ≤ p_ticks_used p ≤ p_cpu_budget p → Forall (in_window p) nows →
  let '(rs, p') := visits charge nows p in
  runs rs = Z.min (Z.of_nat (length nows)) (p_cpu_budget p - p_ticks_used p) ∧
  p_ticks_used p' = p_ticks_used p + runs rs ∧ p_cpu_budget p' = p_cpu_budget p.
Proof.
  revert p; induction nows as [|now nows IH]; intros p Hb Hm Hu Hw.
  - simpl. unfold runs. simpl. lia.
  - apply Forall_cons in Hw as [Hw1 Hw]. cbn [visits]. rewrite consider_in_window by (done || lia).
    destruct (p_ticks_used p <? p_cpu_budget p) eqn:E.
    + assert (p_ticks_used (charge p) = p_ticks_used p + 1) as Hu'
        by (unfold charge; rsimpl; apply s32_small; lia).
      assert (p_cpu_budget (charge p) = p_cpu_budget p ∧ p_power_mode (charge p) = p_power_mode p ∧
              p_budget_window_start (charge p) = p_budget_window_start p) as (Hb' & Hm' & Hs')
        by (unfold charge; rsimpl; done).
      specialize (IH (charge p)). rewrite Hb', Hm', Hu' in IH.
      specialize (IH ltac:(lia) Hm ltac:(lia)). destruct (visits charge nows (charge p)) as [rs p'].
      destruct IH as (IH1 & IH2 & IH3).
      { eapply Forall_impl; [exact Hw|]. unfold in_window. by rewrite Hs'. }
      rewrite runs_cons. simpl b2z. simpl length. lia.
    + specialize (IH p Hb Hm Hu Hw). destruct (visits charge nows p) as [rs p'].
      rewrite runs_cons. simpl b2z. simpl length. lia.
Qed.

(** ** Whole rounds *)

(** What makes [sched()] give up the CPU: the current process, its lock the
    only one held, not RUNNING. *)
Lemma sched_swtch s i p :
  cur s = Some i → held s = [Lproc i] → procs s !! i = Some p → p_state p ≠ RUNNING →
  sched s = Swtch s (λ s', Ok tt s').
Proof.
  intros Hc Hh Hp Hr. unfold sched, curproc, myproc.
  erewrite bind_ok; [|unfold bind, gets; simpl; rewrite Hc; reflexivity].
  kstep. unfold holding. rewrite Hh. rewrite bool_decide_true by set_solver. cbn [negb].
  kstep. rewrite Hh. simpl. erewrite bind_ok by (by apply getp_ok).
  unfold is_state. by rewrite bool_decide_false.
Qed.

(** [sleep] gives up the CPU with the process lock taken before [lk] is
    released; the resumed process holds [lk] again. *)
Lemma sleep_ok s i p chan lk :
  cur s = Some i → held s = [lk] → lk ≠ Lproc i → procs s !! i = Some p →
  ∃ k, sleep chan lk s =
      Swtch (s <| procs := <[i := p <| p_chan := chan |> <| p_state := SLEEPING |>]> (procs s) |> <| held := [Lproc i] |>) k ∧
    ∀ s' p', cur s' = Some i → held s' = [Lproc i] → procs s' !! i = Some p' →
      k s' = Ok tt (s' <| procs := <[i := p' <| p_chan := ChNull |>]> (procs s') |> <| held := [lk] |>).
Proof.
  intros Hc Hh Hne Hp. unfold sleep. erewrite bind_ok by (by apply curproc_ok).
  erewrite bind_ok by (apply acquire_ok; rewrite Hh, list_elem_of_singleton; done).
  erewrite bind_ok by (apply release_ok; rsimpl; rewrite Hh; right; by left). rsimpl.
  rewrite Hh, remove_lock_cons_ne, remove_lock_cons by (done || apply not_elem_of_nil).
  erewrite bind_ok by (apply (updp_ok i _ p); by rsimpl). rsimpl.
  set (s1 := _ <| procs := _ |>). assert (procs s1 !! i = Some (p <| p_chan := chan |> <| p_state := SLEEPING |>)) as Hp1
    by (unfold s1; rsimpl; apply list_lookup_insert_eq; by eapply lookup_lt_Some).
  assert (cur s1 = Some i ∧ held s1 = [Lproc i]) as [Hc1 Hh1] by (unfold s1; by rsimpl).
  pose proof (sched_swtch s1 i _ Hc1 Hh1 Hp1) as E. specialize (E ltac:(rsimpl; done)).
  unfold bind. rewrite E. cbn [bind_res]. eexists. split; [f_equal; unfold s1; kst_eq s|].
  intros s' p' Hc' Hh' Hp'. cbv beta. rewrite (updp_ok i _ p') by done. cbn [bind_res].
  rewrite (release_top (Lproc i) []) by (rsimpl; done || apply not_elem_of_nil). cbn [bind_res].
  rewrite acquire_ok by (rsimpl; apply not_elem_of_nil). rsimpl. kst_eq s'.
Qed.

Lemma sched_swtch_inv s s' k :
  sched s = Swtch s' k →
  s' = s ∧ ∃ i p, cur s = Some i ∧ held s = [Lproc i] ∧ procs s !! i = Some p ∧ p_state p ≠ RUNNING.
Proof.
  unfold sched, curproc, myproc, bind, gets, in_range, getp, swtch. simpl.
  destruct (cur s) as [i|] eqn:Ec; simpl; [|done].
  unfold holding. destruct (bool_decide (Lproc i ∈ held s)) eqn:Eh; simpl; [|done].
  destruct (length (held s) =? 1)%nat eqn:El; simpl; [|done].
  destruct (procs s !! i) as [p|] eqn:Ep; simpl; [|done].
  unfold is_state. destruct (bool_decide (p_state p = RUNNING)) eqn:Es; simpl; [done|].
  apply Nat.eqb_eq in El. rewrite El. simpl. intros [= <- _]. split; [done|].
  apply bool_decide_eq_true in Eh. apply bool_decide_eq_false in Es.
  exists i, p. split_and!; try done. destruct (held s) as [|l [|??]]; try done. set_solver.
Qed.

(** What the scheduler relies on of the code it switches to.  [sched_swtch_inv]
    shows that a process comes back only like this. *)
Class SwitchesBack (run : nat → KM unit) : Prop := run_back i s :
  held s = [Lproc i] → cur s = Some i → length (procs s) = NPROC →
  ∃ s', run i s = Ok tt s' ∧ held s' = [Lproc i] ∧ length (procs s') = NPROC.

Section Rounds.
Context (run : nat → KM unit) `{!SwitchesBack run}.

Lemma scheduler_slot_returns now found i s :
  held s = [] → cur s = None → length (procs s) = NPROC → (i < NPROC)%nat →
  ∃ found' s', scheduler_slot run now found i s = Ok found' s' ∧
    held s' = [] ∧ cur s' = None ∧ length (procs s') = NPROC.
Proof.
  intros Hh Hc Hl Hi. assert (Lproc i ∉ held s) as Hn by (rewrite Hh; set_solver).
  destruct (lookup_lt_is_Some_2 (procs s) i ltac:(lia)) as [p Hp].
  unfold scheduler_slot. kcall. erewrite bind_ok by (apply getp_ok; by rsimpl).
  destruct (is_state RUNNABLE p); [|krel; rewrite Hh; unfold ret; eauto 10].
  destruct (consider now p) as [[] p1]; cbv iota; cbn [negb];
    unfold putp; kstep.
  - erewrite bind_ok.
    2:{ apply (updp_alter _ _ p1). rsimpl. apply list_lookup_insert_eq. lia. }
    kstep. kstep.
    edestruct (run_back i) as (s1 & Hr & Hh1 & Hl1); [| | |erewrite bind_ok by exact Hr].
    + rsimpl. by rewrite Hh.
    + by rsimpl.
    + rsimpl. by rewrite length_alter, length_insert.
    + kstep. erewrite bind_ok by (apply release_top; [rsimpl; exact Hh1|set_solver]).
      unfold ret. do 2 eexists. split; [reflexivity|]. rsimpl. done.
  - krel. unfold ret. do 2 eexists. split; [reflexivity|]. rsimpl. by rewrite length_insert.
Qed.

Lemma scheduler_scan_returns now found l s :
  held s = [] → cur s = None → length (procs s) = NPROC → Forall (λ i, i < NPROC)%nat l →
  ∃ found' s', scheduler_scan run now found l s = Ok found' s' ∧
    held s' = [] ∧ cur s' = None ∧ length (procs s') = NPROC.
Proof.
  revert found s; induction l as [|i l IH]; intros found s Hh Hc Hl Hi; simpl; [unfold ret; eauto 10|].
  apply Forall_cons in Hi as [Hi Hl'].
  destruct (scheduler_slot_returns now found i s) as (f' & s' & Hs & ? & ? & ?); try done.
  erewrite bind_ok by exact Hs. by apply IH.
Qed.

Lemma table_lt : Forall (λ i, i < NPROC)%nat table.
Proof. apply Forall_seq. lia. Qed.

Lemma scheduler_rounds_return n s :
  held s = [] → cur s = None → length (procs s) = NPROC →
  ∃ s', scheduler_rounds run n s = Ok tt s' ∧
    held s' = [] ∧ cur s' = None ∧ length (procs s') = NPROC.
Proof.
  revert s; induction n as [|n IH]; intros s Hh Hc Hl; simpl; [unfold ret; eauto|].
  assert (Lticks ∉ held s) by (rewrite Hh; set_solver).
  destruct (scheduler_scan_returns (ticks s) false table s) as (f & s' & Hs & ? & ? & ?); try done.
  { apply table_lt. }
  erewrite bind_ok; [by apply IH|]. unfold scheduler_round. kcall. kstep. krel.
  rewrite held_held, held_eta. exact Hs.
Qed.

End Rounds.

(** ** A round as a map over the table

    When a process that runs changes only its own slot, by [g], a round is a
    map over the process table. *)
Section Local.
Context (run : nat → KM unit) (g : nat → proc → proc).
Context (run_local : ∀ i p s, procs s !! i = Some p →
  run i s = Ok tt (s <| procs := alter (g i) i (procs s) |>)).

Definition visit (now : Z) (i : nat) (p : proc) : bool * proc :=
  if is_state RUNNABLE p then
    let '(r, p1) := consider now p in (r, if r then g i (dispatch p1) else p1)
  else (false, p).

Lemma scheduler_slot_local now found i p s :
  Lproc i ∉ held s → cur s = None → procs s !! i = Some p →
  0 ≤ context_switches s < 2 ^ 32 →
  scheduler_slot run now found i s =
    Ok (found || (visit now i p).1)
       (s <| procs := <[i := (visit now i p).2]> (procs s) |>
          <| context_switches := u32 (context_switches s + b2z (visit now i p).1) |>).
Proof.
  intros Hn Hc Hp Hcs. pose proof (lookup_lt_Some _ _ _ Hp) as Hi.
  unfold scheduler_slot, visit. kcall. erewrite bind_ok by (apply getp_ok; by rsimpl).
  destruct (is_state RUNNABLE p).
  - destruct (consider now p) as [[] p1]; cbv iota; cbn [negb]; unfold putp; kstep.
    + erewrite bind_ok.
      2:{ apply (updp_alter _ _ p1). rsimpl. by apply list_lookup_insert_eq. }
      kstep. kstep. erewrite alter_lookup_insert by (by apply list_lookup_insert_eq).
      rewrite list_insert_insert_eq.
      erewrite bind_ok.
      2:{ apply (run_local i (dispatch p1)). rsimpl. by apply list_lookup_insert_eq. }
      kstep. krel. erewrite alter_lookup_insert by (by apply list_lookup_insert_eq).
      rewrite list_insert_insert_eq, orb_true_r. simpl b2z. rewrite <- Hc. kst_eq s.
    + krel. rewrite orb_false_r. simpl b2z. rewrite Z.add_0_r, u32_small by done. kst_eq s.
  - krel. simpl. rewrite orb_false_r, Z.add_0_r, u32_small, list_insert_id by done. kst_eq s.
Qed.

Definition chosen (now : Z) (k : nat) (l : list proc) : list bool :=
  imap (λ j p, (visit now (k + j) p).1) l.

Lemma chosen_cons now k p l :
  chosen now k (p :: l) = (visit now k p).1 :: chosen now (S k) l.
Proof.
  unfold chosen. simpl. rewrite Nat.add_0_r. f_equal. apply imap_ext.
  intros j q _. simpl. do 2 f_equal. lia.
Qed.

Lemma u32_add_u32 a b : u32 (u32 a + b) = u32 (a + b).
Proof. unfold u32. by rewrite Zplus_mod_idemp_l. Qed.

Lemma scheduler_scan_local now found k n s :
  (∀ i, Lproc i ∉ held s) → cur s = None → (k + n = length (procs s))%nat →
  0 ≤ context_switches s < 2 ^ 32 →
  scheduler_scan run now found (seq k n) s =
    Ok (found || existsb id (chosen now k (drop k (procs s))))
       (s <| procs := take k (procs s) ++ imap (λ j p, (visit now (k + j) p).2) (drop k (procs s)) |>
          <| context_switches :=
               u32 (context_switches s + runs (chosen now k (drop k (procs s)))) |>).
Proof.
  revert found k s; induction n as [|n IH]; intros found k s Hf Hc Hkn Hcs; simpl.
  - rewrite drop_ge, take_ge by lia. simpl. rewrite app_nil_r, orb_false_r, Z.add_0_r, u32_small by done.
    kst_eq s.
  - destruct (lookup_lt_is_Some_2 (procs s) k ltac:(lia)) as [p Hp].
    erewrite bind_ok by (apply (scheduler_slot_local _ _ _ p); done).
    rewrite IH; rsimpl; [|done|done|by rewrite length_insert; lia|apply u32_range].
    rewrite (split_at_insert (λ i p, (visit now i p).2) k p) by done.
    rewrite drop_insert_lt by lia. rewrite u32_add_u32.
    rewrite (drop_S (procs s) p k) by done. rewrite chosen_cons, runs_cons. simpl existsb.
    rewrite <- orb_assoc, Z.add_assoc. unfold id. kst_eq s.
Qed.

Lemma scheduler_round_local s :
  held s = [] → cur s = None → length (procs s) = NPROC → 0 ≤ context_switches s < 2 ^ 32 →
  scheduler_round run s =
    Ok (existsb id (chosen (ticks s) 0 (procs s)))
       (s <| procs := imap (λ i p, (visit (ticks s) i p).2) (procs s) |>
          <| context_switches := u32 (context_switches s + runs (chosen (ticks s) 0 (procs s))) |>).
Proof.
  intros Hh Hc Hl Hcs. assert (Lticks ∉ held s) by (rewrite Hh; set_solver).
  unfold scheduler_round, table. kcall. kstep. krel. rewrite held_held, held_eta.
  rewrite scheduler_scan_local; [|rewrite Hh; set_solver|done|lia|done].
  by rewrite drop_0, take_0.
Qed.

End Local.

(** ** Properties *)

(** the eco cadence.  A process in eco mode without budget that the
    scheduler visits [n] times, starting with counter [c], is run
    [(c + n) / 3] times: every third visit, whatever it does when it runs
    to the fields the cadence does not depend on. *)
Theorem eco_runs_every_third_visit f nows p :
  (∀ q, p_cpu_budget (f q) = p_cpu_budget q ∧ p_power_mode (f q) = p_power_mode q ∧
        p_eco_skip_counter (f q) = p_eco_skip_counter q) →
  p_cpu_budget p ≤ 0 → p_power_mode p = POWER_ECO → 0 ≤ p_eco_skip_counter p < ECO_SKIP_INTERVAL →
  runs (visits f nows p).1 = (p_eco_skip_counter p + Z.of_nat (length nows)) / ECO_SKIP_INTERVAL.
Proof.
  intros Hf Hb Hm Hc. pose proof (visits_eco f nows p Hf Hb Hm Hc) as Hv.
  destruct (visits f nows p) as [rs p']. apply Hv.
Qed.



(** the scheduler never panics and never gets stuck: if every process it
    switches to comes back the way [sched] hands over the CPU, any number of
    rounds returns with no lock held and no current process. *)
Theorem scheduler_never_panics run n s :
  SwitchesBack run → held s = [] → length (procs s) = NPROC →
  ∃ s', scheduler run n s = Ok tt s' ∧ held s' = [] ∧ cur s' = None ∧ length (procs s') = NPROC.
Proof.
  intros Hb Hh Hl. unfold scheduler. kstep. apply scheduler_rounds_return; by rsimpl.
Qed.

(** [sched] hands over the CPU exactly when the current process holds its
    own lock, holds no other, and is not RUNNING; the state is unchanged. *)
Theorem sched_switches_iff s s' :
  (∃ k, sched s = Swtch s' k) ↔
  s' = s ∧ ∃ i p, cur s = Some i ∧ held s = [Lproc i] ∧ procs s !! i = Some p ∧ p_state p ≠ RUNNING.
Proof.
  split.
  - intros [k Hk]. by eapply sched_swtch_inv.
  - intros [-> (i & p & Hc & Hh & Hp & Hr)]. eexists. by eapply sched_swtch.
Qed.

Definition eco_proc : proc :=
  proc0 <| p_state := RUNNABLE |> <| p_power_mode := POWER_ECO |> <| p_eco_skip_counter := 1 |>.

Lemma eco_runs_every_third_visit_witness : runs (visits id [10; 11; 12; 13; 14] eco_proc).1 = 2.
Proof. rewrite (eco_runs_every_third_visit id [10; 11; 12; 13; 14] eco_proc); [reflexivity|done|by vm_compute..]. Defined.

Definition capped_proc : proc :=
  proc0 <| p_state := RUNNABLE |> <| p_cpu_budget := 2 |> <| p_budget_window_start := 100 |>.


(** A process that runs until its first timer tick. *)
Definition run_one (i : nat) : KM unit :=
  λ s, Ok tt (s <| procs := alter (λ p, (charge p) <| p_state := RUNNABLE |>) i (procs s) |>).

Definition two_ready : kst :=
  kst0 <| procs := <[0%nat := capped_proc]> (<[1%nat := eco_proc]> (replicate NPROC proc0)) |>
       <| ticks := 120 |>.


Lemma run_one_back : SwitchesBack run_one.
Proof.
  intros i s Hh Hc Hl. eexists. split; [reflexivity|]. rsimpl. by rewrite length_alter.
Qed.

Lemma scheduler_never_panics_witness :
  ∃ s', scheduler run_one 3 two_ready = Ok tt s' ∧ cur s' = None.
Proof.
  destruct (scheduler_never_panics run_one 3 two_ready run_one_back) as (s' & Hr & _ & Hc & _);
    [reflexivity|reflexivity|]. exists s'. split; [exact Hr|exact Hc].
Defined.
