(* ===== verification/Vm.v ===== *)
(** * kernel/vm.c: page tables and copying between kernel and user memory

    Page tables live in RAM: a table is the physical address of a page of 512
    eight-byte entries.  A kernel buffer passed to [copyout] or filled by
    [copyin] is represented by its bytes. *)

From Stdlib Require Import ZArith Lia.
From S2P Require Import Prelude Params CString State Kalloc Process.
From stdpp Require Import base gmap strings numbers list.

Open Scope Z_scope.

Section Vm.
Context `{Layout}.

Definition has (pte flag : Z) : bool := negb (Z.land pte flag =? 0).

(** [for(int level = 2; level > 0; level--)], from [level] on. *)
Fixpoint walk_from (level : nat) (pagetable va : Z) (alloc : bool) : KM Z :=
  match level with
  | O => ret (pagetable + 8 * PX 0 va)
  | S level' =>
      let pte := pagetable + 8 * PX (Z.of_nat level) va in
      e <- ld64 pte ;;
      if has e PTE_V then walk_from level' (PTE2PA e) va alloc
      else if negb alloc then ret 0
      else
        pagetable' <- kalloc ;;
        if pagetable' =? 0 then ret 0
        else
          kmemset pagetable' 0 PGSIZE ;;;
          st64 pte (Z.lor (PA2PTE pagetable') PTE_V) ;;;
          walk_from level' pagetable' va alloc
  end.

Definition walk (pagetable va : Z) (alloc : bool) : KM Z :=
  if va >=? MAXVA then panic "walk" else walk_from 2 pagetable va alloc.

Definition walkaddr (pagetable va : Z) : KM Z :=
  if va >=? MAXVA then ret 0
  else
    pte <- walk pagetable va false ;;
    if pte =? 0 then ret 0
    else
      e <- ld64 pte ;;
      if negb (has e PTE_V) then ret 0
      else if negb (has e PTE_U) then ret 0
      else ret (PTE2PA e).

(** The loop of [mappages]; [fuel] is the number of pages. *)
Fixpoint mappages_loop (fuel : nat) (pagetable a last pa perm : Z) : KM Z :=
  match fuel with
  | O => nofuel
  | S fuel' =>
      pte <- walk pagetable a true ;;
      if pte =? 0 then ret (-1)
      else
        e <- ld64 pte ;;
        if has e PTE_V then panic "mappages: remap"
        else
          st64 pte (Z.lor (Z.lor (PA2PTE pa) perm) PTE_V) ;;;
          if a =? last then ret 0
          else mappages_loop fuel' pagetable (u64 (a + PGSIZE)) last (u64 (pa + PGSIZE)) perm
  end.

Definition mappages (pagetable va size pa perm : Z) : KM Z :=
  if negb (va mod PGSIZE =? 0) then panic "mappages: va not aligned"
  else if negb (size mod PGSIZE =? 0) then panic "mappages: size not aligned"
  else if size =? 0 then panic "mappages: size"
  else mappages_loop (Z.to_nat (size / PGSIZE)) pagetable va (u64 (va + size - PGSIZE)) pa perm.

Definition kvmmap (kpgtbl va pa sz perm : Z) : KM unit :=
  r <- mappages kpgtbl va sz pa perm ;;
  when negb (r =? 0) do panic "kvmmap".

Definition proc_mapstacks (kpgtbl : Z) : KM unit :=
  for_each table (λ i,
    pa <- kalloc ;;
    if pa =? 0 then panic "kalloc"
    else
      kvmmap kpgtbl (KSTACK (Z.of_nat i)) pa PGSIZE (Z.lor PTE_R PTE_W) ;;;
      ret (@None unit)) ;;;
  ret tt.

Definition kvmmake : KM Z :=
  kpgtbl <- kalloc ;;
  kmemset kpgtbl 0 PGSIZE ;;;
  kvmmap kpgtbl UART0 UART0 PGSIZE (Z.lor PTE_R PTE_W) ;;;
  kvmmap kpgtbl VIRTIO0 VIRTIO0 PGSIZE (Z.lor PTE_R PTE_W) ;;;
  kvmmap kpgtbl PLIC PLIC 0x4000000 (Z.lor PTE_R PTE_W) ;;;
  kvmmap kpgtbl KERNBASE KERNBASE (u64 (etext - KERNBASE)) (Z.lor PTE_R PTE_X) ;;;
  kvmmap kpgtbl etext etext (u64 (PHYSTOP - etext)) (Z.lor PTE_R PTE_W) ;;;
  kvmmap kpgtbl TRAMPOLINE trampoline PGSIZE (Z.lor PTE_R PTE_X) ;;;
  proc_mapstacks kpgtbl ;;;
  ret kpgtbl.

Definition kvminit : KM unit :=
  pt <- kvmmake ;; modify (λ s, s <| kernel_pagetable := pt |>).

Definition kvminithart : KM unit :=
  pt <- gets kernel_pagetable ;;
  modify (λ s, s <| csr ::= λ c, c <| r_satp := MAKE_SATP pt |> |>).

Definition uvmcreate : KM Z :=
  pagetable <- kalloc ;;
  if pagetable =? 0 then ret 0
  else kmemset pagetable 0 PGSIZE ;;; ret pagetable.

(** [for(a = va; a < va + npages*PGSIZE; a += PGSIZE)] *)
Fixpoint uvmunmap_loop (fuel : nat) (pagetable a stop : Z) (do_free : bool) : KM unit :=
  if a <? stop then
    match fuel with
    | O => nofuel
    | S fuel' =>
        pte <- walk pagetable a false ;;
        (when negb (pte =? 0) do
           (e <- ld64 pte ;;
            when has e PTE_V do
              ((when do_free do kfree (PTE2PA e)) ;;;
               st64 pte 0))) ;;;
        uvmunmap_loop fuel' pagetable (u64 (a + PGSIZE)) stop do_free
    end
  else ret tt.

Definition uvmunmap (pagetable va npages : Z) (do_free : bool) : KM unit :=
  if negb (va mod PGSIZE =? 0) then panic "uvmunmap: not aligned"
  else uvmunmap_loop (Z.to_nat npages) pagetable va (u64 (va + npages * PGSIZE)) do_free.

Definition uvmdealloc (pagetable oldsz newsz : Z) : KM Z :=
  if newsz >=? oldsz then ret oldsz
  else
    (when PGROUNDUP newsz <? PGROUNDUP oldsz do
       (let npages := s32 ((PGROUNDUP oldsz - PGROUNDUP newsz) / PGSIZE) in
        uvmunmap pagetable (PGROUNDUP newsz) (u64 npages) true)) ;;;
    ret newsz.

(** [for(a = oldsz; a < newsz; a += PGSIZE)]; [oldsz] is already rounded up. *)
Fixpoint uvmalloc_loop (fuel : nat) (pagetable a oldsz newsz xperm : Z) : KM Z :=
  if a <? newsz then
    match fuel with
    | O => nofuel
    | S fuel' =>
        mem <- kalloc ;;
        if mem =? 0 then uvmdealloc pagetable a oldsz ;;; ret 0
        else
          kmemset mem 0 PGSIZE ;;;
          r <- mappages pagetable a PGSIZE mem (Z.lor (Z.lor PTE_R PTE_U) xperm) ;;
          if negb (r =? 0) then kfree mem ;;; uvmdealloc pagetable a oldsz ;;; ret 0
          else uvmalloc_loop fuel' pagetable (u64 (a + PGSIZE)) oldsz newsz xperm
    end
  else ret newsz.

(** Enough iterations for [len] bytes that may start inside a page. *)
Definition pages_fuel (len : Z) : nat := Z.to_nat (len / PGSIZE + 2).

Definition uvmalloc (pagetable oldsz newsz xperm : Z) : KM Z :=
  if newsz <? oldsz then ret oldsz
  else
    let oldsz := PGROUNDUP oldsz in
    uvmalloc_loop (pages_fuel (newsz - oldsz)) pagetable oldsz oldsz newsz xperm.

(** The 512 entries of a table page, from index [i]; [rec] frees a child. *)
Fixpoint freewalk_entries (n : nat) (rec : Z → KM unit) (pagetable i : Z) : KM unit :=
  match n with
  | O => ret tt
  | S n' =>
      pte <- ld64 (pagetable + 8 * i) ;;
      (if has pte PTE_V && (Z.land pte (Z.lor PTE_R (Z.lor PTE_W PTE_X)) =? 0) then
         rec (PTE2PA pte) ;;; st64 (pagetable + 8 * i) 0
       else if has pte PTE_V then panic "freewalk: leaf" else ret tt) ;;;
      freewalk_entries n' rec pagetable (i + 1)
  end.

(** The recursion has the depth of a page table. *)
Fixpoint freewalk (depth : nat) (pagetable : Z) : KM unit :=
  match depth with
  | O => nofuel
  | S depth' =>
      freewalk_entries 512 (freewalk depth') pagetable 0 ;;;
      kfree pagetable
  end.

Definition uvmfree (pagetable sz : Z) : KM unit :=
  (when 0 <? sz do uvmunmap pagetable 0 (PGROUNDUP sz / PGSIZE) true) ;;;
  freewalk 3 pagetable.

Fixpoint uvmcopy_loop (fuel : nat) (old new i sz : Z) : KM Z :=
  if i <? sz then
    match fuel with
    | O => nofuel
    | S fuel' =>
        let continue := uvmcopy_loop fuel' old new (u64 (i + PGSIZE)) sz in
        let err := uvmunmap new 0 (i / PGSIZE) true ;;; ret (-1) in
        pte <- walk old i false ;;
        if pte =? 0 then continue
        else
          e <- ld64 pte ;;
          if negb (has e PTE_V) then continue
          else
            let pa := PTE2PA e in
            let flags := PTE_FLAGS e in
            mem <- kalloc ;;
            if mem =? 0 then err
            else
              kmemmove mem pa PGSIZE ;;;
              r <- mappages new i PGSIZE mem flags ;;
              if negb (r =? 0) then kfree mem ;;; err
              else continue
    end
  else ret 0.

Definition uvmcopy (old new sz : Z) : KM Z := uvmcopy_loop (pages_fuel sz) old new 0 sz.

Definition uvmclear (pagetable va : Z) : KM unit :=
  pte <- walk pagetable va false ;;
  if pte =? 0 then panic "uvmclear"
  else e <- ld64 pte ;; st64 pte (Z.land e (Z.lnot PTE_U)).

Definition ismapped (pagetable va : Z) : KM bool :=
  pte <- walk pagetable va false ;;
  if pte =? 0 then ret false
  else e <- ld64 pte ;; ret (has e PTE_V).

Definition vmfault (pagetable va : Z) (read : bool) : KM Z :=
  i <- curproc ;;
  p <- getp i ;;
  if va >=? p_sz p then ret 0
  else
    let va := PGROUNDDOWN va in
    mapped <- ismapped pagetable va ;;
    if (mapped : bool) then ret 0
    else
      mem <- kalloc ;;
      if mem =? 0 then ret 0
      else
        kmemset mem 0 PGSIZE ;;;
        r <- mappages (p_pagetable p) va PGSIZE mem (Z.lor (Z.lor PTE_W PTE_U) PTE_R) ;;
        if negb (r =? 0) then kfree mem ;;; ret 0
        else ret mem.

(** The page of a user address, faulting it in where needed; 0 on failure. *)
Definition user_page (pagetable va0 : Z) : KM Z :=
  pa0 <- walkaddr pagetable va0 ;;
  if pa0 =? 0 then vmfault pagetable va0 false else ret pa0.

Fixpoint copyout_loop (fuel : nat) (pagetable dstva : Z) (src : list Z) : KM Z :=
  let len := Z.of_nat (length src) in
  if 0 <? len then
    match fuel with
    | O => nofuel
    | S fuel' =>
        let va0 := PGROUNDDOWN dstva in
        if va0 >=? MAXVA then ret (-1)
        else
          pa0 <- user_page pagetable va0 ;;
          if pa0 =? 0 then ret (-1)
          else
            pte <- walk pagetable va0 false ;;
            e <- ld64 pte ;;
            if negb (has e PTE_W) then ret (-1)
            else
              let n := Z.min (PGSIZE - (dstva - va0)) len in
              kwrite (pa0 + (dstva - va0)) (take (Z.to_nat n) src) ;;;
              copyout_loop fuel' pagetable (u64 (va0 + PGSIZE)) (drop (Z.to_nat n) src)
    end
  else ret 0.

(** [src] is the [len] bytes to copy. *)
Definition copyout (pagetable dstva : Z) (src : list Z) : KM Z :=
  copyout_loop (pages_fuel (Z.of_nat (length src))) pagetable dstva src.

(** Returns the result with the bytes stored in [dst] so far. *)
Fixpoint copyin_loop (fuel : nat) (pagetable srcva len : Z) (dst : list Z) : KM (Z * list Z) :=
  if 0 <? len then
    match fuel with
    | O => nofuel
    | S fuel' =>
        let va0 := PGROUNDDOWN srcva in
        pa0 <- user_page pagetable va0 ;;
        if pa0 =? 0 then ret (-1, dst)
        else
          let n := Z.min (PGSIZE - (srcva - va0)) len in
          bytes <- kread (pa0 + (srcva - va0)) n ;;
          copyin_loop fuel' pagetable (u64 (va0 + PGSIZE)) (len - n) (dst ++ bytes)
    end
  else ret (0, dst).

Definition copyin (pagetable srcva len : Z) : KM (Z * list Z) :=
  copyin_loop (pages_fuel len) pagetable srcva len [].

(** The inner loop of [copyinstr]: up to [n] bytes from [p]; the flag says
    whether a NUL was found.  [dst] collects the bytes stored. *)
Fixpoint copyinstr_bytes (n : nat) (p : Z) (dst : list Z) : KM (bool * list Z) :=
  match n with
  | O => ret (false, dst)
  | S n' =>
      c <- kread p 1 ;;
      let b := default 0 (head c) in
      if b =? 0 then ret (true, dst ++ [0])
      else copyinstr_bytes n' (p + 1) (dst ++ [b])
  end.

Fixpoint copyinstr_loop (fuel : nat) (pagetable srcva max : Z) (dst : list Z) : KM (Z * list Z) :=
  if 0 <? max then
    match fuel with
    | O => nofuel
    | S fuel' =>
        let va0 := PGROUNDDOWN srcva in
        pa0 <- walkaddr pagetable va0 ;;
        if pa0 =? 0 then ret (-1, dst)
        else
          let n := Z.min (PGSIZE - (srcva - va0)) max in
          r <- copyinstr_bytes (Z.to_nat n) (pa0 + (srcva - va0)) dst ;;
          let '(got_null, dst') := r in
          if (got_null : bool) then ret (0, dst')
          else copyinstr_loop fuel' pagetable (u64 (va0 + PGSIZE)) (max - n) dst'
    end
  else ret (-1, dst).

Definition copyinstr (pagetable srcva max : Z) : KM (Z * list Z) :=
  copyinstr_loop (pages_fuel max) pagetable srcva max [].

End Vm.
