(* ===== verification/VmRep.v ===== *)
(** * Page tables in memory: representation invariant and walks

    An address space is described by the table pages it owns and by its valid
    leaf entries; [pt_rep] says that the memory holds that tree.  The lemmas
    say how [walk] and the two kinds of entry store act on it. *)

From Stdlib Require Import ZArith Lia.
From S2P Require Import Prelude Params CString State Kalloc Process Vm.
From stdpp Require Import base gmap strings numbers list.

Open Scope Z_scope.

(** ** Words and indices *)

Lemma lor_bound n a b : 0 ≤ n → 0 ≤ a < 2 ^ n → 0 ≤ b < 2 ^ n → 0 ≤ Z.lor a b < 2 ^ n.
Proof.
  intros Hn Ha Hb. replace (Z.lor a b) with (Z.lor a b mod 2 ^ n).
  - apply Z.mod_pos_bound. by apply Z.pow_pos_nonneg.
  - rewrite <- Z.land_ones, Z.land_lor_distr_l, !Z.land_ones, !Z.mod_small by done. done.
Qed.

Lemma has_lor_V x : has (Z.lor x PTE_V) PTE_V = true.
Proof.
  unfold has. rewrite Z.land_lor_distr_l, Z.land_diag. apply negb_true_iff, Z.eqb_neq.
  intros E. by apply Z.lor_eq_0_iff in E as [_ ?].
Qed.

Lemma has_0 f : has 0 f = false.
Proof. unfold has. by rewrite Z.land_0_l. Qed.

(** The virtual page number of [va] without its [l] lowest levels. *)
Definition idx (l va : Z) : Z := va / 2 ^ (12 + 9 * l).

Lemma idx_split l va : 0 ≤ l → idx l va = idx (l + 1) va * 512 + PX l va.
Proof.
  intros Hl. rewrite PX_eq by done. unfold idx.
  replace (12 + 9 * (l + 1)) with (12 + 9 * l + 9) by lia.
  pose proof (Z.pow_pos_nonneg 2 (12 + 9 * l) ltac:(lia) ltac:(lia)).
  rewrite (Z.pow_add_r 2 (12 + 9 * l) 9), <- Z.div_div by lia. change (2 ^ 9) with 512.
  pose proof (Z.div_mod (va / 2 ^ (12 + 9 * l)) 512 ltac:(lia)). lia.
Qed.

Lemma idx_top va : 0 ≤ va < MAXVA → idx 3 va = 0.
Proof.
  intros Hva. unfold idx. apply Z.div_small. change MAXVA with (2 ^ 38) in Hva.
  change (2 ^ (12 + 9 * 3)) with (2 ^ 39). lia.
Qed.

Lemma idx_0 va : idx 0 va = va / 4096.
Proof. reflexivity. Qed.

Lemma idx_nonneg l va : 0 ≤ l → 0 ≤ va → 0 ≤ idx l va.
Proof. intros. unfold idx. apply Z.div_pos; [done|]. apply Z.pow_pos_nonneg; lia. Qed.

Lemma div_512 k j : 0 ≤ j < 512 → (k * 512 + j) / 512 = k.
Proof. intros. rewrite Z.add_comm, Z.div_add, Z.div_small by lia. lia. Qed.

(** ** The representation *)

Record aspace : Type := mkAs {
  tabs : gmap (Z * Z) Z;  (** table pages by level and index *)
  leaf : gmap Z Z         (** valid leaf entries by virtual page number *)
}.
#[export] Instance aspace_eta : Eta aspace := λ T, mkAs (tabs T) (leaf T).

Definition is_table (T : aspace) (a : Z) : Prop := ∃ x, tabs T !! x = Some a.

Definition entry (m : memory) (a j : Z) : Z := load64 m (a + 8 * j).

Section Rep.
Context `{Layout}.

Record pt_rep (m : memory) (root : Z) (T : aspace) : Prop := {
  pr_root : tabs T !! (2, 0) = Some root;
  pr_level : ∀ l k a, tabs T !! (l, k) = Some a → 0 ≤ l ≤ 2 ∧ (l = 2 → k = 0);
  pr_page : ∀ a, is_table T a → page_ok a;
  pr_inj : ∀ x y a, tabs T !! x = Some a → tabs T !! y = Some a → x = y;
  pr_up : ∀ l k, l < 2 → is_Some (tabs T !! (l, k)) → is_Some (tabs T !! (l + 1, k / 512));
  pr_dir : ∀ l k a j, tabs T !! (l, k) = Some a → 0 < l → 0 ≤ j < 512 →
    match tabs T !! (l - 1, k * 512 + j) with
    | Some b => entry m a j = Z.lor (PA2PTE b) PTE_V
    | None => has (entry m a j) PTE_V = false
    end;
  pr_leaf : ∀ k a j, tabs T !! (0, k) = Some a → 0 ≤ j < 512 →
    leaf T !! (k * 512 + j) =
      if has (entry m a j) PTE_V then Some (entry m a j) else None;
  pr_dom : ∀ v, is_Some (leaf T !! v) → is_Some (tabs T !! (0, v / 512))
}.

Context `{!LayoutOk}.

Lemma table_page m root T x a : pt_rep m root T → tabs T !! x = Some a → page_ok a.
Proof. intros HT Hx. eapply pr_page; [done|]. by exists x. Qed.

Lemma entry_same m m' a j :
  same_page m m' a → 0 ≤ j < 512 → entry m a j = entry m' a j.
Proof. intros Hs Hj. apply same_page_load; unfold PGSIZE; (done || lia). Qed.

(** The tree survives writes outside its pages. *)
Lemma pt_rep_frame m m' root T :
  pt_rep m root T → (∀ a, is_table T a → same_page m m' a) → pt_rep m' root T.
Proof.
  intros [] Hs. split; try done.
  - intros l k a j Ha Hl Hj. rewrite <- (entry_same m) by (done || apply Hs; by eexists).
    by apply pr_dir0.
  - intros k a j Ha Hj. rewrite <- (entry_same m) by (done || apply Hs; by eexists).
    by apply pr_leaf0.
Qed.

Lemma entry_store_eq m a j e : 0 ≤ e < 2 ^ 64 → entry (store64 m (a + 8 * j) e) a j = e.
Proof. intros He. unfold entry. rewrite ldn_stn_eq. by apply Z.mod_small. Qed.

Lemma entry_store_ne m a j b j' e :
  a mod PGSIZE = 0 → b mod PGSIZE = 0 → 0 ≤ j < 512 → 0 ≤ j' < 512 → (a, j) ≠ (b, j') →
  entry (store64 m (a + 8 * j) e) b j' = entry m b j'.
Proof.
  intros Ha Hb Hj Hj' Hne. unfold entry. apply ldn_stn_ne.
  destruct (decide (a = b)) as [->|Hab]; [assert (j ≠ j') by congruence; lia|].
  destruct (pages_disjoint a b Ha Hb Hab); unfold PGSIZE in *; lia.
Qed.

Lemma same_page_store m a j p e :
  a mod PGSIZE = 0 → p mod PGSIZE = 0 → 0 ≤ j < 512 → p ≠ a →
  same_page m (store64 m (a + 8 * j) e) p.
Proof.
  intros Ha Hp Hj Hne b Hb. symmetry. apply ldb_stn_ne.
  destruct (pages_disjoint a p Ha Hp ltac:(congruence)); unfold PGSIZE in *; lia.
Qed.

(** Storing a leaf entry inserts or removes one mapping. *)
Lemma pt_rep_store_leaf m root T k a j e :
  pt_rep m root T → tabs T !! (0, k) = Some a → 0 ≤ j < 512 → 0 ≤ e < 2 ^ 64 →
  pt_rep (store64 m (a + 8 * j) e) root
    (T <| leaf := if has e PTE_V then <[k * 512 + j := e]> (leaf T)
                  else delete (k * 512 + j) (leaf T) |>).
Proof.
  intros HT Ha Hj He. pose proof (table_page _ _ _ _ _ HT Ha) as (Hal & _).
  split; rsimpl; try (by destruct HT).
  - intros l k' b j' Hb Hl Hj'. rewrite entry_store_ne; [by eapply pr_dir|done| |done|done|].
    + by destruct (table_page _ _ _ _ _ HT Hb).
    + intros [= -> ->]. assert ((0, k) = (l, k')) by (by eapply pr_inj). simplify_eq. lia.
  - intros k' b j' Hb Hj'. destruct (decide ((k, j) = (k', j'))) as [[= <- <-]|Hne].
    + simplify_eq. rewrite entry_store_eq by done. destruct (has e PTE_V).
      * by rewrite lookup_insert_eq.
      * by rewrite lookup_delete_eq.
    + assert (k * 512 + j ≠ k' * 512 + j') as Hk.
      { intros E. apply Hne. assert (k = k') by (rewrite <- (div_512 k j), <- (div_512 k' j') by done; by rewrite E).
        f_equal; lia. }
      rewrite entry_store_ne; [|done|by destruct (table_page _ _ _ _ _ HT Hb)|done|done|].
      * rewrite <- (pr_leaf _ _ _ HT k' b j') by done. destruct (has e PTE_V).
        -- by rewrite lookup_insert_ne.
        -- by rewrite lookup_delete_ne.
      * intros [= -> ->]. apply Hne. assert ((0, k) = (0, k')) by (by eapply pr_inj). congruence.
  - intros v Hv. destruct (decide (v = k * 512 + j)) as [->|Hne].
    + rewrite div_512 by done. by eexists.
    + apply (pr_dom _ _ _ HT). destruct (has e PTE_V).
      * by rewrite lookup_insert_ne in Hv.
      * by rewrite lookup_delete_ne in Hv.
Qed.

(** A page of zeros has no valid entry. *)
Definition zero_page (m : memory) (p : Z) : Prop := ∀ b, p ≤ b < p + PGSIZE → ldb m b = 0.

Lemma zero_page_entry m p j : zero_page m p → 0 ≤ j < 512 → has (entry m p j) PTE_V = false.
Proof.
  intros Hz Hj. unfold entry. rewrite ldn_zero; [apply has_0|].
  intros b Hb. apply Hz. unfold PGSIZE. lia.
Qed.

Lemma dir_pte_bound p : page_ok p → 0 ≤ Z.lor (PA2PTE p) PTE_V < 2 ^ 64.
Proof. intros. apply lor_bound; [done|apply u64_range|done]. Qed.

(** Linking a zeroed page under an empty directory entry adds a table. *)
Lemma pt_rep_new_table m root T l k a j p :
  pt_rep m root T → tabs T !! (l, k) = Some a → 0 < l → 0 ≤ j < 512 →
  tabs T !! (l - 1, k * 512 + j) = None → page_ok p → ¬ is_table T p → zero_page m p →
  pt_rep (store64 m (a + 8 * j) (Z.lor (PA2PTE p) PTE_V)) root
    (T <| tabs := <[(l - 1, k * 512 + j) := p]> (tabs T) |>).
Proof.
  intros HT Ha Hl Hj Hnone Hp Hnt Hz. pose proof (table_page _ _ _ _ _ HT Ha) as (Hal & _).
  pose proof (pr_level _ _ _ HT _ _ _ Ha) as Hlv. destruct (Hp) as (Hpal & _).
  assert (a ≠ p) as Hap by (intros ->; apply Hnt; by eexists).
  assert (∀ j', 0 ≤ j' < 512 → has (entry (store64 m (a + 8 * j) (Z.lor (PA2PTE p) PTE_V)) p j') PTE_V = false) as Hpz.
  { intros j' Hj'. rewrite entry_store_ne by (done || congruence). by apply zero_page_entry. }
  split; rsimpl.
  - rewrite lookup_insert_ne; [by eapply pr_root|]. intros [=]. lia.
  - intros l' k' b Hb. apply lookup_insert_Some in Hb as [[[= <- <-] <-]|[_ Hb]]; [lia|by eapply pr_level].
  - intros b [x Hx]. rsimpl. apply lookup_insert_Some in Hx as [[_ <-]|[_ Hx]]; [done|]. by eapply table_page.
  - intros x y b Hx Hy. apply lookup_insert_Some in Hx as [[<- <-]|[_ Hx]];
      apply lookup_insert_Some in Hy as [[<- Hy]|[_ Hy]]; try done.
    + exfalso. apply Hnt. by eexists.
    + subst. exfalso. apply Hnt. by eexists.
    + by eapply pr_inj.
  - intros l' k' Hl' [b Hb]. apply lookup_insert_is_Some'.
    apply lookup_insert_Some in Hb as [[[= <- <-] <-]|[_ Hb]].
    + right. rewrite div_512 by done. replace (l - 1 + 1) with l by lia. by eexists.
    + right. eapply pr_up; [done|done|by eexists].
  - intros l' k' b j' Hb Hl' Hj'. apply lookup_insert_Some in Hb as [[[= <- <-] <-]|[Hne Hb]].
    + rewrite lookup_insert_ne by (intros [=]; lia).
      destruct (tabs T !! (l - 1 - 1, (k * 512 + j) * 512 + j')) as [c|] eqn:Ec; [|by apply Hpz].
      exfalso. destruct (pr_up _ _ _ HT (l - 1 - 1) ((k * 512 + j) * 512 + j')) as [d Hd]; [lia|by eexists|].
      rewrite div_512 in Hd by done. replace (l - 1 - 1 + 1) with (l - 1) in Hd by lia. congruence.
    + destruct (decide ((l', k', j') = (l, k, j))) as [[= -> -> ->]|Hne'].
      * simplify_eq. rewrite lookup_insert_eq. apply entry_store_eq. by apply dir_pte_bound.
      * rewrite lookup_insert_ne.
        2:{ intros [= El Ek]. apply Hne'.
            assert (k = k') by (rewrite <- (div_512 k j), <- (div_512 k' j') by done; by rewrite Ek).
            f_equal; [f_equal|]; lia. }
        rewrite entry_store_ne; [by eapply pr_dir|done|by destruct (table_page _ _ _ _ _ HT Hb)|done|done|].
        intros [= -> ->]. apply Hne'. assert ((l, k) = (l', k')) by (by eapply pr_inj). congruence.
  - intros k' b j' Hb Hj'. apply lookup_insert_Some in Hb as [[[= El <-] <-]|[Hne Hb]].
    + rewrite Hpz by done. apply eq_None_not_Some. intros Hs.
      apply (pr_dom _ _ _ HT) in Hs as [c Hc]. rewrite div_512 in Hc by done. rewrite El in Hnone. congruence.
    + rewrite entry_store_ne; [by eapply pr_leaf|done|by destruct (table_page _ _ _ _ _ HT Hb)|done|done|].
      intros [= -> ->]. assert ((l, k) = (0, k')) by (by eapply pr_inj). simplify_eq.
  - intros v Hv. apply lookup_insert_is_Some'. right. by eapply pr_dom.
Qed.

(** ** Walking without allocation *)

Lemma table_entry_phys a j : page_ok a → 0 ≤ j < 512 → phys_ok (a + 8 * j) 8 = true.
Proof. intros. apply page_ok_phys; unfold PGSIZE; (done || lia). Qed.

Lemma dir_pte_V b : has (Z.lor (PA2PTE b) PTE_V) PTE_V = true.
Proof. apply has_lor_V. Qed.

Lemma page_ok_bound b : page_ok b → 0 ≤ b < 2 ^ 56 ∧ b mod 4096 = 0.
Proof.
  intros Hb. pose proof (page_ok_range _ Hb). destruct Hb as (Hm & _).
  unfold KERNBASE, PHYSTOP, PGSIZE in *. unfold KERNBASE in *. split; [lia|done].
Qed.

Lemma dir_pte_pa b : page_ok b → PTE2PA (Z.lor (PA2PTE b) PTE_V) = b.
Proof. intros Hb. apply page_ok_bound in Hb as [? ?]. apply PTE2PA_PA2PTE; done. Qed.

(** The entry a walk reads at a directory level. *)
Lemma walk_entry m root T (l : Z) va a :
  pt_rep m root T → 0 < l → tabs T !! (l, idx (l + 1) va) = Some a →
  match tabs T !! (l - 1, idx l va) with
  | Some b => entry m a (PX l va) = Z.lor (PA2PTE b) PTE_V ∧ page_ok b
  | None => has (entry m a (PX l va)) PTE_V = false
  end.
Proof.
  intros HT Hl Ha. pose proof (pr_dir _ _ _ HT l _ a (PX l va) Ha Hl (PX_range l va ltac:(lia))) as Hd.
  rewrite <- idx_split in Hd by lia. destruct (tabs T !! (l - 1, idx l va)) as [b|] eqn:E; [|done].
  split; [done|]. by eapply table_page.
Qed.

(** The table of a lower level exists only if the one above does. *)
Lemma tabs_above m root T l va :
  pt_rep m root T → 0 ≤ l < 2 → tabs T !! (l, idx (l + 1) va) ≠ None →
  tabs T !! (l + 1, idx (l + 2) va) ≠ None.
Proof.
  intros HT Hl Hs. destruct (pr_up _ _ _ HT l (idx (l + 1) va)) as [b Hb]; [lia|by apply not_eq_None_Some|].
  rewrite (idx_split (l + 1)) in Hb by lia. rewrite div_512 in Hb by (apply PX_range; lia).
  replace (l + 1 + 1) with (l + 2) in Hb by lia. by rewrite Hb.
Qed.

Definition leaf_addr (T : aspace) (va : Z) : Z :=
  match tabs T !! (0, idx 1 va) with Some b => b + 8 * PX 0 va | None => 0 end.

Lemma walk_from_noalloc (level : nat) root T va a s :
  pt_rep (ram s) root T → (level ≤ 2)%nat →
  tabs T !! (Z.of_nat level, idx (Z.of_nat level + 1) va) = Some a →
  walk_from level a va false s = Ok (leaf_addr T va) s.
Proof.
  intros HT. revert a; induction level as [|l IH]; intros a Hl Ha.
  - change (Z.of_nat 0) with 0 in Ha. change (0 + 1) with 1 in Ha. cbn [walk_from].
    unfold leaf_addr. by rewrite Ha.
  - cbn [walk_from]. pose proof (table_page _ _ _ _ _ HT Ha) as Hp.
    erewrite bind_ok by (apply ld64_ok, table_entry_phys; [done|apply PX_range; lia]).
    pose proof (walk_entry _ _ _ (Z.of_nat (S l)) va a HT ltac:(lia) Ha) as He.
    replace (Z.of_nat (S l) - 1) with (Z.of_nat l) in He by lia.
    destruct (tabs T !! (Z.of_nat l, idx (Z.of_nat (S l)) va)) as [b|] eqn:E.
    + destruct He as [He Hb]. unfold entry in He. rewrite He, dir_pte_V, dir_pte_pa by done.
      apply IH; [lia|]. by replace (Z.of_nat l + 1) with (Z.of_nat (S l)) by lia.
    + unfold entry in He. rewrite He. cbn [negb]. unfold ret. f_equal. unfold leaf_addr.
      destruct (tabs T !! (0, idx 1 va)) eqn:E0; [|done]. exfalso.
      destruct l as [|[|l]]; [|..|lia].
      * change (Z.of_nat 1) with 1 in E. change (Z.of_nat 0) with 0 in E. congruence.
      * apply (tabs_above _ _ _ 0 va HT) in E; [done|lia|]. change (0 + 1) with 1. congruence.
Qed.

Lemma walk_noalloc root T va s :
  pt_rep (ram s) root T → 0 ≤ va < MAXVA → walk root va false s = Ok (leaf_addr T va) s.
Proof.
  intros HT Hva. unfold walk. replace (va >=? MAXVA) with false by lia.
  eapply walk_from_noalloc; [done|lia|]. change (Z.of_nat 2 + 1) with 3. rewrite idx_top by done.
  by eapply pr_root.
Qed.

(** A leaf entry's address is never NULL, and reading it gives the mapping. *)
Lemma leaf_addr_Some T m root va b :
  pt_rep m root T → tabs T !! (0, idx 1 va) = Some b →
  leaf_addr T va = b + 8 * PX 0 va ∧ leaf_addr T va ≠ 0 ∧ phys_ok (leaf_addr T va) 8 = true ∧
  leaf T !! (va / 4096) =
    (let e := load64 m (leaf_addr T va) in if has e PTE_V then Some e else None).
Proof.
  intros HT Hb. unfold leaf_addr. rewrite Hb. pose proof (table_page _ _ _ _ _ HT Hb) as Hp.
  pose proof (PX_range 0 va ltac:(lia)) as Hx. split_and!; [done| |by apply table_entry_phys|].
  - pose proof (page_ok_range _ Hp). unfold KERNBASE in *. lia.
  - rewrite <- idx_0, (idx_split 0) by lia. by eapply pr_leaf.
Qed.

Lemma leaf_addr_None T m root va :
  pt_rep m root T → tabs T !! (0, idx 1 va) = None →
  leaf_addr T va = 0 ∧ leaf T !! (va / 4096) = None.
Proof.
  intros HT Hb. unfold leaf_addr. rewrite Hb. split; [done|]. apply eq_None_not_Some. intros Hs.
  apply (pr_dom _ _ _ HT) in Hs. rewrite <- idx_0, (idx_split 0), div_512 in Hs by (try apply PX_range; lia).
  change (0 + 1) with 1 in Hs. rewrite Hb in Hs. by destruct Hs.
Qed.

(** The physical address [walkaddr] finds. *)
Definition user_pa (T : aspace) (va : Z) : Z :=
  match leaf T !! (va / 4096) with
  | Some e => if has e PTE_U then PTE2PA e else 0
  | None => 0
  end.

Lemma walkaddr_ok root T va s :
  pt_rep (ram s) root T → 0 ≤ va < MAXVA → walkaddr root va s = Ok (user_pa T va) s.
Proof.
  intros HT Hva. unfold walkaddr. replace (va >=? MAXVA) with false by lia.
  erewrite bind_ok by (by apply walk_noalloc). unfold user_pa.
  destruct (tabs T !! (0, idx 1 va)) as [b|] eqn:E.
  - destruct (leaf_addr_Some _ _ _ _ _ HT E) as (_ & Hnz & Hph & ->).
    replace (leaf_addr T va =? 0) with false by lia.
    erewrite bind_ok by (by apply ld64_ok). cbv zeta.
    destruct (has (load64 (ram s) (leaf_addr T va)) PTE_V); [|done].
    by destruct (has (load64 (ram s) (leaf_addr T va)) PTE_U).
  - destruct (leaf_addr_None _ _ _ _ HT E) as [-> ->]. done.
Qed.

Lemma walkaddr_high root va s : MAXVA ≤ va → walkaddr root va s = Ok 0 s.
Proof. intros. unfold walkaddr. by replace (va >=? MAXVA) with true by lia. Qed.

Lemma ismapped_ok root T va s :
  pt_rep (ram s) root T → 0 ≤ va < MAXVA →
  ismapped root va s = Ok (bool_decide (is_Some (leaf T !! (va / 4096)))) s.
Proof.
  intros HT Hva. unfold ismapped. erewrite bind_ok by (by apply walk_noalloc).
  destruct (tabs T !! (0, idx 1 va)) as [b|] eqn:E.
  - destruct (leaf_addr_Some _ _ _ _ _ HT E) as (_ & Hnz & Hph & ->).
    replace (leaf_addr T va =? 0) with false by lia.
    erewrite bind_ok by (by apply ld64_ok). cbv zeta. unfold ret.
    by destruct (has (load64 (ram s) (leaf_addr T va)) PTE_V).
  - destruct (leaf_addr_None _ _ _ _ HT E) as [-> ->]. done.
Qed.

End Rep.
