(* ===== verification/VmMap.v ===== *)
(** * Mapping pages

    [walk] with allocation, [mappages] and [uvmcreate]: how they change the
    represented address space and the free list; [walkaddr] on it. *)

From Stdlib Require Import ZArith Lia.
From S2P Require Import Prelude Params CString State Kalloc Process Vm VmRep.
From stdpp Require Import base gmap strings numbers list.

Open Scope Z_scope.

Section Map.
Context `{Layout, !LayoutOk}.

(** An address space in memory beside the free list [fl]. *)
Record vm_state (s : kst) (root : Z) (T : aspace) (fl : list Z) : Prop := {
  vm_kmem : kmem_wf s fl;
  vm_rep : pt_rep (ram s) root T;
  vm_disj : ∀ a, is_table T a → a ∉ fl;
  vm_lock : Lkmem ∉ held s
}.

(** Going from [s] to [s'] only took pages off the free list to make them
    table pages, and wrote only to table pages. *)
Record vm_step (s : kst) (T : aspace) (fl : list Z) (s' : kst) (T' : aspace) (fl' : list Z)
    : Prop := {
  vs_frame : s' = s <| ram := ram s' |> <| freelist := freelist s' |>;
  vs_tabs : ∀ a, is_table T a → is_table T' a;
  vs_used : ∃ used, fl = used ++ fl' ∧ (∀ a, is_table T' a ↔ is_table T a ∨ a ∈ used);
  vs_mem : ∀ p, p mod PGSIZE = 0 → ¬ is_table T' p → same_page (ram s) (ram s') p
}.

Lemma same_page_refl m p : same_page m m p.
Proof. done. Qed.
Lemma same_page_trans m1 m2 m3 p : same_page m1 m2 p → same_page m2 m3 p → same_page m1 m3 p.
Proof. intros H1 H2 a Ha. rewrite H1 by done. by apply H2. Qed.
Lemma same_page_sym m m' p : same_page m m' p → same_page m' m p.
Proof. intros Hs a Ha. symmetry. by apply Hs. Qed.

Lemma vm_step_refl s T fl : vm_step s T fl s T fl.
Proof. split; [kst_eq s|done| |done]. exists []. set_solver. Qed.

Lemma vm_step_trans s T fl s1 T1 fl1 s2 T2 fl2 :
  vm_step s T fl s1 T1 fl1 → vm_step s1 T1 fl1 s2 T2 fl2 → vm_step s T fl s2 T2 fl2.
Proof.
  intros [Hf1 Ht1 (u1 & Hu1 & Hi1) Hm1] [Hf2 Ht2 (u2 & Hu2 & Hi2) Hm2]. split.
  - rewrite Hf2, Hf1. rsimpl. kst_eq s.
  - auto.
  - exists (u1 ++ u2). rewrite Hu1, Hu2, app_assoc. split; [done|].
    intros a. rewrite Hi2, Hi1, elem_of_app. naive_solver.
  - intros p Hp Hn. eapply same_page_trans; [apply Hm1|apply Hm2]; auto.
Qed.

Lemma zero_page_memset m p : zero_page (memset m p 0 PGSIZE) p.
Proof.
  intros b Hb. rewrite ldb_memset by done. by rewrite decide_True by lia.
Qed.

Lemma same_page_memset m p c q :
  p mod PGSIZE = 0 → q mod PGSIZE = 0 → p ≠ q → same_page m (memset m p c PGSIZE) q.
Proof.
  intros Hp Hq Hne b Hb. rewrite ldb_memset by done.
  destruct (pages_disjoint p q Hp Hq Hne); by rewrite decide_False by lia.
Qed.

(** [kalloc] followed by clearing the page. *)
Lemma kalloc_zeroed s p fl :
  kmem_wf s (p :: fl) → Lkmem ∉ held s →
  ∃ s', kalloc s = Ok p s' ∧
    kmem_wf (s' <| ram := memset (ram s') p 0 PGSIZE |>) fl ∧ page_ok p ∧ p ∉ fl ∧
    s' = s <| ram := ram s' |> <| freelist := freelist s' |> ∧
    ∀ q, q mod PGSIZE = 0 → q ≠ p → same_page (ram s) (memset (ram s') p 0 PGSIZE) q.
Proof.
  intros Hw Hl. eexists. split; [by eapply kalloc_cons|].
  pose proof (kalloc_wf _ _ _ Hw) as Hw'. destruct Hw as [_ Hn Hp].
  apply Forall_cons in Hp as [Hpp Hp]. apply NoDup_cons in Hn as [Hnin Hn].
  pose proof Hpp as (Hpm & _). split_and!; [|done|done| |].
  - eapply kmem_wf_frame; [exact Hw'|by rsimpl|]. intros q Hq. rsimpl.
    pose proof (proj1 (Forall_forall _ _) Hp q Hq) as (Hqm & _).
    apply same_page_memset; [done|done|]. set_solver.
  - rsimpl. kst_eq s.
  - intros q Hq Hne. rsimpl. eapply same_page_trans; apply same_page_memset; congruence.
Qed.

(** One level of [walk] with allocation: the missing table is added. *)
Lemma walk_alloc_table s root T p fl l k a j :
  vm_state s root T (p :: fl) → tabs T !! (l, k) = Some a → 0 < l → 0 ≤ j < 512 →
  tabs T !! (l - 1, k * 512 + j) = None →
  ∃ s' T', (x <- kalloc ;;
            if x =? 0 then ret 0
            else kmemset x 0 PGSIZE ;;; st64 (a + 8 * j) (Z.lor (PA2PTE x) PTE_V) ;;; ret x) s
           = Ok p s' ∧
    vm_state s' root T' fl ∧ vm_step s T (p :: fl) s' T' fl ∧ leaf T' = leaf T ∧
    tabs T' = <[(l - 1, k * 512 + j) := p]> (tabs T).
Proof.
  intros [Hk HT Hd Hlk] Ha Hl Hj Hnone.
  destruct (kalloc_zeroed _ _ _ Hk Hlk) as (s1 & Hr & Hk1 & Hpp & Hnin & Hs1 & Hsame).
  pose proof (table_page _ _ _ _ _ HT Ha) as Hap.
  assert (¬ is_table T p) as Hnt by (intros Ht; apply (Hd _ Ht); set_solver).
  assert (a ≠ p) as Hne by (intros ->; apply Hnt; by eexists).
  assert (∀ b, is_table T b → b mod PGSIZE = 0 ∧ b ≠ p) as Htab.
  { intros b Hb. split; [by destruct (pr_page _ _ _ HT _ Hb)|]. intros ->. done. }
  set (m1 := memset (ram s1) p 0 PGSIZE) in *.
  set (m2 := store64 m1 (a + 8 * j) (Z.lor (PA2PTE p) PTE_V)).
  exists (s1 <| ram := m2 |>), (T <| tabs := <[(l - 1, k * 512 + j) := p]> (tabs T) |>).
  assert (∀ q, q mod PGSIZE = 0 → q ≠ a → same_page m1 m2 q) as Hm2.
  { intros q Hq Hqa. apply same_page_store; [by destruct Hap|done..]. }
  split_and!; [|split|split|by rsimpl|by rsimpl].
  - erewrite bind_ok by exact Hr. pose proof (page_ok_nonzero _ Hpp).
    replace (p =? 0) with false by lia.
    erewrite bind_ok by (apply kmemset_ok, page_ok_phys0; [done|lia]).
    erewrite bind_ok by (apply st64_ok, table_entry_phys; done). unfold ret. rsimpl.
    done.
  - eapply kmem_wf_frame; [exact Hk1|by rsimpl|]. intros q Hq. rsimpl. apply Hm2.
    + by destruct (proj1 (Forall_forall _ _) (kw_pages _ _ Hk1) q Hq).
    + intros ->. apply (Hd a); [by eexists|]. set_solver.
  - rsimpl. apply pt_rep_new_table; [|done..|apply zero_page_memset].
    eapply pt_rep_frame; [exact HT|]. intros b Hb. apply Hsame; by apply Htab.
  - intros b [x Hx]. rsimpl. apply lookup_insert_Some in Hx as [[_ <-]|[_ Hx]]; [done|].
    intros Hin. apply (Hd b); [by eexists|]. set_solver.
  - rsimpl. rewrite Hs1. by rsimpl.
  - rsimpl. rewrite Hs1. kst_eq s.
  - intros b [x Hx]. destruct (decide (x = (l - 1, k * 512 + j))) as [->|]; [congruence|].
    exists x. rsimpl. by rewrite lookup_insert_ne.
  - exists [p]. split; [done|]. intros b. rewrite list_elem_of_singleton. split.
    + intros [x Hx]. rsimpl. apply lookup_insert_Some in Hx as [[_ <-]|[_ Hx]]; [by right|left; by eexists].
    + intros [[x Hx]| ->].
      * destruct (decide (x = (l - 1, k * 512 + j))) as [->|]; [congruence|].
        exists x. rsimpl. by rewrite lookup_insert_ne.
      * exists (l - 1, k * 512 + j). rsimpl. by rewrite lookup_insert_eq.
  - intros q Hq Hnq. rsimpl. eapply same_page_trans; [apply Hsame|apply Hm2]; [done| |done|].
    + intros ->. apply Hnq. exists (l - 1, k * 512 + j). rsimpl. by rewrite lookup_insert_eq.
    + intros ->. apply Hnq. exists (l, k). rsimpl. rewrite lookup_insert_ne; [done|]. intros [=]. lia.
Qed.

(** The rest of a walk continues from the new table. *)
Lemma walk_tail (a j p : Z) (s s' : kst) (f : Z → KM Z) :
  (x <- kalloc ;;
   if x =? 0 then ret 0
   else kmemset x 0 PGSIZE ;;; st64 (a + 8 * j) (Z.lor (PA2PTE x) PTE_V) ;;; ret x) s = Ok p s' →
  p ≠ 0 →
  (x <- kalloc ;;
   if x =? 0 then ret 0
   else kmemset x 0 PGSIZE ;;; st64 (a + 8 * j) (Z.lor (PA2PTE x) PTE_V) ;;; f x) s = f p s'.
Proof.
  intros Hr Hp. apply bind_inv_ok in Hr as (x & s1 & Hk & Hr). erewrite bind_ok by exact Hk.
  destruct (x =? 0); [by inversion Hr; subst|].
  apply bind_inv_ok in Hr as (? & s2 & Hm & Hr). erewrite bind_ok by exact Hm.
  apply bind_inv_ok in Hr as (? & s3 & Hs & Hr). erewrite bind_ok by exact Hs.
  by inversion Hr.
Qed.

(** The only tables a walk of page [v] can add are those on its way. *)
Definition grown (T T' : aspace) (P : Z → Prop) : Prop :=
  tabs T ⊆ tabs T' ∧
  ∀ x, is_Some (tabs T' !! x) → is_Some (tabs T !! x) ∨ ∃ w, P w ∧ (x = (1, w / 2 ^ 18) ∨ x = (0, w / 2 ^ 9)).

Lemma grown_refl T P : grown T T P.
Proof. split; [done|]. intros x Hx. by left. Qed.

Lemma grown_trans T1 T2 T3 P Q R :
  grown T1 T2 P → grown T2 T3 Q → (∀ w, P w ∨ Q w → R w) → grown T1 T3 R.
Proof.
  intros [S1 H1] [S2 H2] Hr. split; [by transitivity (tabs T2)|]. intros x Hx.
  destruct (H2 x Hx) as [Hx'|(w & Hw & Hc)]; [destruct (H1 x Hx') as [?|(w & Hw & Hc)]|]; [by left|right..]; exists w; auto.
Qed.

Lemma grown_insert T T' l va p :
  0 ≤ l ≤ 1 → tabs T !! (l, idx (l + 1) va) = None → tabs T' = <[(l, idx (l + 1) va) := p]> (tabs T) → grown T T' (λ w, w = va / 4096).
Proof.
  intros Hl Hn He. split; [rewrite He; by apply insert_subseteq|]. intros x [a Hx]. rewrite He in Hx.
  apply lookup_insert_Some in Hx as [[<- _]|[_ Hx]]; [right|by left]. exists (va / 4096). split; [done|].
  unfold idx. rewrite !Z.div_div by lia. assert (l = 0 ∨ l = 1) as [-> | ->] by lia; [by right|by left].
Qed.

Lemma walk_from_alloc (level : nat) s root T fl va a :
  vm_state s root T fl → (level ≤ 2)%nat →
  tabs T !! (Z.of_nat level, idx (Z.of_nat level + 1) va) = Some a →
  ∃ r s' T' fl', walk_from level a va true s = Ok r s' ∧
    vm_state s' root T' fl' ∧ vm_step s T fl s' T' fl' ∧ leaf T' = leaf T ∧ grown T T' (λ w, w = va / 4096) ∧
    ((r = 0 ∧ fl' = []) ∨ ∃ b, tabs T' !! (0, idx 1 va) = Some b ∧ r = b + 8 * PX 0 va).
Proof.
  revert s T fl a; induction level as [|l IH]; intros s T fl a Hv Hl Ha.
  - exists (a + 8 * PX 0 va), s, T, fl. split_and!; try done; [apply vm_step_refl|apply grown_refl|]. right. by exists a.
  - pose proof Hv as [_ HT _ _]. pose proof (table_page _ _ _ _ _ HT Ha) as Hp. cbn [walk_from].
    pose proof (PX_range (Z.of_nat (S l)) va ltac:(lia)) as Hx.
    erewrite bind_ok by (by apply ld64_ok, table_entry_phys).
    pose proof (walk_entry _ _ _ (Z.of_nat (S l)) va a HT ltac:(lia) Ha) as He. unfold entry in He.
    destruct (tabs T !! (Z.of_nat (S l) - 1, idx (Z.of_nat (S l)) va)) as [b|] eqn:E.
    + destruct He as [He Hb]. rewrite He, dir_pte_V, dir_pte_pa by done.
      apply IH; [done|lia|]. rewrite <- E. f_equal. f_equal; [lia|f_equal; lia].
    + rewrite He. cbn [negb]. destruct fl as [|p fl].
      * erewrite bind_ok by (apply kalloc_empty; apply Hv). simpl.
        exists 0, s, T, []. split_and!; try done; [apply vm_step_refl|apply grown_refl|by left].
      * rewrite (idx_split (Z.of_nat (S l))) in E by lia.
        destruct (walk_alloc_table _ _ _ _ _ _ _ _ _ Hv Ha ltac:(lia) Hx E)
          as (s1 & T1 & Hr & Hv1 & Hst1 & Hleaf1 & Htabs1).
        rewrite <- (idx_split (Z.of_nat (S l))) in Htabs1 by lia.
        destruct (IH s1 T1 fl p Hv1 ltac:(lia)) as (r & s2 & T2 & fl2 & Hr2 & Hv2 & Hst2 & Hleaf2 & Hg2 & Hc).
        { rewrite Htabs1. replace (Z.of_nat (S l) - 1) with (Z.of_nat l) by lia.
          replace (Z.of_nat l + 1) with (Z.of_nat (S l)) by lia. by rewrite lookup_insert_eq. }
        exists r, s2, T2, fl2. split_and!; [|done|by eapply vm_step_trans|congruence| |done].
        2: { eapply grown_trans; [eapply (grown_insert T T1 (Z.of_nat (S l) - 1)); [lia| |]|exact Hg2|naive_solver].
             - rewrite Z.sub_add. by rewrite (idx_split (Z.of_nat (S l))) by lia.
             - by rewrite Htabs1, Z.sub_add. }
        rewrite <- Hr2. apply (walk_tail _ _ _ _ _ (λ x, walk_from l x va true)); [exact Hr|].
        destruct Hv as [Hk _ _ _]. apply page_ok_nonzero. by destruct (proj1 (Forall_cons _ _ _) (kw_pages _ _ Hk)).
Qed.

Lemma walk_alloc s root T fl va :
  vm_state s root T fl → 0 ≤ va < MAXVA →
  ∃ r s' T' fl', walk root va true s = Ok r s' ∧
    vm_state s' root T' fl' ∧ vm_step s T fl s' T' fl' ∧ leaf T' = leaf T ∧ grown T T' (λ w, w = va / 4096) ∧
    ((r = 0 ∧ fl' = []) ∨ ∃ b, tabs T' !! (0, idx 1 va) = Some b ∧ r = b + 8 * PX 0 va).
Proof.
  intros Hv Hva. unfold walk. replace (va >=? MAXVA) with false by lia.
  apply walk_from_alloc; [done|lia|]. change (Z.of_nat 2 + 1) with 3. rewrite idx_top by done.
  eapply pr_root, vm_rep; done.
Qed.

(** ** Stores of leaf entries *)

(** Storing [e] in the leaf entry of [va]. *)
Definition set_leaf (T : aspace) (va e : Z) : aspace :=
  T <| leaf := if has e PTE_V then <[va / 4096 := e]> (leaf T) else delete (va / 4096) (leaf T) |>.

Lemma store_leaf s root T fl va b e :
  vm_state s root T fl → tabs T !! (0, idx 1 va) = Some b → 0 ≤ e < 2 ^ 64 →
  ∃ s', st64 (b + 8 * PX 0 va) e s = Ok tt s' ∧ vm_state s' root (set_leaf T va e) fl ∧
        vm_step s T fl s' (set_leaf T va e) fl.
Proof.
  intros [Hk HT Hd Hlk] Hb He. pose proof (PX_range 0 va ltac:(lia)) as Hx.
  pose proof (table_page _ _ _ _ _ HT Hb) as Hbp. pose proof Hbp as (Hbm & _).
  eexists. split; [apply st64_ok, table_entry_phys; done|]. split; split; rsimpl; try done.
  - eapply kmem_wf_frame; [exact Hk|by rsimpl|]. intros q Hq. rsimpl.
    apply same_page_store; try done.
    + by destruct (proj1 (Forall_forall _ _) (kw_pages _ _ Hk) q Hq).
    + intros ->. apply (Hd b); [by eexists|done].
  - unfold set_leaf. rewrite <- idx_0, (idx_split 0) by lia. by apply pt_rep_store_leaf.
  - exists []. split; [done|]. intros a. unfold is_table, set_leaf. rsimpl. set_solver.
  - intros p Hp Hn. apply same_page_store; try done. intros ->. apply Hn. by eexists.
Qed.

(** ** [mappages] *)

Definition pte_of (pa perm : Z) : Z := Z.lor (Z.lor (PA2PTE pa) perm) PTE_V.

Lemma pte_of_bound pa perm : 0 ≤ perm < 2 ^ 64 → 0 ≤ pte_of pa perm < 2 ^ 64.
Proof. intros. repeat apply lor_bound; try done. apply u64_range. Qed.

(** [n] consecutive pages from page number [v] mapped to frames from [pa]. *)
Fixpoint map_pages (n : nat) (v pa perm : Z) (M : gmap Z Z) : gmap Z Z :=
  match n with
  | O => M
  | S n' => map_pages n' (v + 1) (pa + PGSIZE) perm (<[v := pte_of pa perm]> M)
  end.

Lemma lookup_map_pages n v pa perm M w :
  map_pages n v pa perm M !! w =
    if decide (v ≤ w < v + Z.of_nat n) then Some (pte_of (pa + (w - v) * PGSIZE) perm) else M !! w.
Proof.
  revert v pa M; induction n as [|n IH]; intros v pa M; cbn [map_pages].
  - by rewrite decide_False by lia.
  - rewrite IH. destruct (decide (v + 1 ≤ w < v + 1 + Z.of_nat n)).
    + rewrite decide_True by lia. f_equal. f_equal. lia.
    + destruct (decide (w = v)) as [->|Hne].
      * rewrite decide_True, lookup_insert_eq by lia. f_equal. f_equal. lia.
      * by rewrite decide_False, lookup_insert_ne by lia.
Qed.

Lemma vpn_next a : (a + PGSIZE) / 4096 = a / 4096 + 1.
Proof. unfold PGSIZE. replace (a + 4096) with (a + 1 * 4096) by lia. apply Z.div_add. lia. Qed.

Lemma mappages_loop_S n root a last pa perm :
  mappages_loop (S n) root a last pa perm =
    (pte <- walk root a true ;;
     if pte =? 0 then ret (-1)
     else
       e <- ld64 pte ;;
       if has e PTE_V then panic "mappages: remap"
       else
         st64 pte (pte_of pa perm) ;;;
         if a =? last then ret 0
         else mappages_loop n root (u64 (a + PGSIZE)) last (u64 (pa + PGSIZE)) perm).
Proof. reflexivity. Qed.

Lemma mappages_loop_ok n s root T fl a pa perm :
  vm_state s root T fl → 0 ≤ a → a + Z.of_nat (S n) * PGSIZE ≤ MAXVA →
  0 ≤ pa → pa + Z.of_nat (S n) * PGSIZE < 2 ^ 64 → 0 ≤ perm < 2 ^ 64 →
  (∀ w, a / 4096 ≤ w < a / 4096 + Z.of_nat (S n) → leaf T !! w = None) →
  ∃ r s' T' fl' k,
    mappages_loop (S n) root a (a + Z.of_nat n * PGSIZE) pa perm s = Ok r s' ∧
    vm_state s' root T' fl' ∧ vm_step s T fl s' T' fl' ∧
    leaf T' = map_pages k (a / 4096) pa perm (leaf T) ∧
    grown T T' (λ w, a / 4096 ≤ w < a / 4096 + Z.of_nat (S n)) ∧
    ((r = 0 ∧ k = S n) ∨ (r = -1 ∧ (k < S n)%nat ∧ fl' = [])).
Proof.
  revert s T fl a pa; induction n as [|n IH]; intros s T fl a pa Hv Ha Hb Hpa Hpb Hperm Hfree;
    pose proof (pte_of_bound pa perm Hperm) as Hpte; change MAXVA with (2 ^ 38) in *;
    destruct (walk_alloc s root T fl a Hv ltac:(change MAXVA with (2 ^ 38); unfold PGSIZE in *; lia))
      as (r & s1 & T1 & fl1 & Hr & Hv1 & Hst1 & Hl1 & Hg1 & [[-> ->]|(b & Hb1 & ->)]);
    rewrite mappages_loop_S; erewrite bind_ok by exact Hr.
  1,3: exists (-1), s1, T1, [], O; split_and!; try done; [eapply grown_trans; [exact Hg1|apply (grown_refl _ (λ _, False))|]; intros w [-> |[]]; lia|];
    right; split_and!; (done || lia).
  all: pose proof (leaf_addr_Some _ _ _ _ _ (vm_rep _ _ _ _ Hv1) Hb1) as (Hla & Hnz & Hph & Hlk);
    rewrite Hla in *; replace (b + 8 * PX 0 a =? 0) with false by lia;
    erewrite bind_ok by (by apply ld64_ok);
    rewrite Hl1, Hfree in Hlk by lia; cbv zeta in Hlk;
    destruct (has (load64 (ram s1) (b + 8 * PX 0 a)) PTE_V) eqn:Ev; [done|];
    destruct (store_leaf _ _ _ _ a _ (pte_of pa perm) Hv1 Hb1 Hpte) as (s2 & Hr2 & Hv2 & Hst2);
    erewrite bind_ok by exact Hr2;
    assert (leaf (set_leaf T1 a (pte_of pa perm)) = <[a / 4096 := pte_of pa perm]> (leaf T)) as Hlf
      by (unfold set_leaf; rsimpl; unfold pte_of at 1; by rewrite has_lor_V, Hl1);
    assert (grown T (set_leaf T1 a (pte_of pa perm)) (λ w, w = a / 4096)) as Hg2 by exact Hg1.
    change (Z.of_nat 0 * PGSIZE) with 0. rewrite Z.add_0_r, Z.eqb_refl.
    exists 0, s2, (set_leaf T1 a (pte_of pa perm)), fl1, 1%nat. split_and!; try done; [| |by left].
    by eapply vm_step_trans. eapply grown_trans; [exact Hg2|apply (grown_refl _ (λ _, False))|]. intros w [-> |[]]; lia.
  - replace (a =? a + Z.of_nat (S n) * PGSIZE) with false by (symmetry; apply Z.eqb_neq; unfold PGSIZE; lia).
    unfold PGSIZE in Hb, Hpb. rewrite !u64_small by (unfold PGSIZE; lia).
    replace (a + Z.of_nat (S n) * PGSIZE) with (a + PGSIZE + Z.of_nat n * PGSIZE) by (unfold PGSIZE; lia).
    destruct (IH s2 _ _ (a + PGSIZE) (pa + PGSIZE) Hv2) as (r & s3 & T3 & fl3 & k & Hr3 & Hv3 & Hst3 & Hl3 & Hg3 & Hc);
      try (unfold PGSIZE; lia).
    { intros w Hw. rewrite vpn_next in Hw. rewrite Hlf, lookup_insert_ne by lia. apply Hfree. lia. }
    exists r, s3, T3, fl3, (S k). split_and!; [exact Hr3|done| | | |].
    + eapply vm_step_trans; [exact Hst1|]. by eapply vm_step_trans.
    + rewrite Hl3, Hlf, vpn_next. done.
    + eapply grown_trans; [exact Hg2|exact Hg3|]. intros w. cbv beta. rewrite vpn_next. lia.
    + destruct Hc as [[-> ->]|(-> & ? & ->)]; [by left|right; split_and!; (done || lia)].
Qed.

Lemma mappages_ok s root T fl va size pa perm :
  vm_state s root T fl → va mod PGSIZE = 0 → size mod PGSIZE = 0 → 0 < size → 0 ≤ va →
  va + size ≤ MAXVA → 0 ≤ pa → pa + size < 2 ^ 64 → 0 ≤ perm < 2 ^ 64 →
  (∀ w, va / 4096 ≤ w < (va + size) / 4096 → leaf T !! w = None) →
  ∃ r s' T' fl' k, mappages root va size pa perm s = Ok r s' ∧
    vm_state s' root T' fl' ∧ vm_step s T fl s' T' fl' ∧
    leaf T' = map_pages k (va / 4096) pa perm (leaf T) ∧
    grown T T' (λ w, va / 4096 ≤ w < va / 4096 + size / PGSIZE) ∧
    ((r = 0 ∧ Z.of_nat k = size / PGSIZE) ∨ (r = -1 ∧ Z.of_nat k < size / PGSIZE ∧ fl' = [])).
Proof.
  intros Hv Hva Hsz Hpos Hva0 Hmax Hpa Hpb Hperm Hfree. unfold mappages.
  rewrite Hva, Hsz. replace (size =? 0) with false by lia. cbn [Z.eqb negb].
  unfold PGSIZE in *. pose proof (Z.div_mod size 4096 ltac:(lia)) as Hd.
  assert (Z.to_nat (size / 4096) = S (Z.to_nat (size / 4096 - 1))) as -> by lia.
  set (n := Z.to_nat (size / 4096 - 1)) in *. assert (Z.of_nat (S n) = size / 4096) as Hn by lia.
  change MAXVA with (2 ^ 38) in *. rewrite u64_small by lia.
  replace (va + size - 4096) with (va + Z.of_nat n * PGSIZE) by (unfold PGSIZE; lia).
  destruct (mappages_loop_ok n s root T fl va pa perm) as (r & s' & T' & fl' & k & Hr & Hv' & Hst & Hl & Hg & Hc);
    try (unfold PGSIZE; change MAXVA with (2 ^ 38); done || lia).
  { intros w Hw. apply Hfree. split; [lia|].
    replace (va + size) with (va + size / 4096 * 4096) by lia. rewrite Z.div_add by lia. lia. }
  exists r, s', T', fl', k. split_and!; try done; [by rewrite <- Hn|].
  destruct Hc as [[-> ->]|(-> & ? & ->)]; [left|right]; split_and!; (done || lia).
Qed.

(** Pages that are free, tables or others, the tables at known places. *)
Lemma tables_count K (ks : list (Z * Z)) (l fl ps : list Z) :
  NoDup l → (∀ a, a ∈ l → a ∈ fl ∨ is_table K a ∨ a ∈ ps) → (∀ x, is_Some (tabs K !! x) → x ∈ ks) →
  (length l ≤ length fl + length ks + length ps)%nat.
Proof.
  intros Hn Hl Hk. transitivity (length (fl ++ omap (λ x, tabs K !! x) ks ++ ps)).
  - apply submseteq_length, NoDup_submseteq; [done|]. intros a Ha%Hl.
    rewrite !elem_of_app, list_elem_of_omap. destruct Ha as [?|[[x Hx]|?]]; [by left|right; left|by right; right].
    exists x. split; [|done]. apply Hk. by eexists.
  - assert (∀ l : list (Z * Z), (length (omap (λ x, tabs K !! x) l) ≤ length l)%nat) as Hom.
    { intros l'. induction l' as [|x l' IH]; [done|]. cbn. destruct (tabs K !! x); cbn; lia. }
    rewrite !length_app. specialize (Hom ks). lia.
Qed.

(** ** The empty address space *)

Definition empty_as (root : Z) : aspace := mkAs {[(2, 0) := root]} ∅.

Lemma is_table_empty root a : is_table (empty_as root) a ↔ a = root.
Proof.
  split.
  - intros [x Hx]. cbn [tabs empty_as] in Hx. by apply lookup_singleton_Some in Hx as [_ ?].
  - intros ->. exists (2, 0). apply lookup_singleton_eq.
Qed.

Lemma pt_rep_empty m root : page_ok root → zero_page m root → pt_rep m root (empty_as root).
Proof.
  intros Hp Hz. split; cbn [tabs leaf empty_as].
  - apply lookup_singleton_eq.
  - intros l k a Ha. apply lookup_singleton_Some in Ha as [[= <- <-] _]. lia.
  - intros a Ha. by apply is_table_empty in Ha as ->.
  - intros x y a Hx Hy. apply lookup_singleton_Some in Hx as [<- _].
    by apply lookup_singleton_Some in Hy as [<- _].
  - intros l k Hl [a Ha]. apply lookup_singleton_Some in Ha as [[= <- <-] _]. lia.
  - intros l k a j Ha Hl Hj. apply lookup_singleton_Some in Ha as [[= <- <-] <-].
    rewrite lookup_singleton_ne by done. by apply zero_page_entry.
  - intros k a j Ha. apply lookup_singleton_Some in Ha as [[=] _].
  - intros v [x Hx]. by rewrite lookup_empty in Hx.
Qed.

Lemma uvmcreate_ok s p fl :
  kmem_wf s (p :: fl) → Lkmem ∉ held s →
  ∃ s', uvmcreate s = Ok p s' ∧ vm_state s' p (empty_as p) fl ∧
    s' = s <| ram := ram s' |> <| freelist := freelist s' |>.
Proof.
  intros Hk Hlk. destruct (kalloc_zeroed _ _ _ Hk Hlk) as (s1 & Hr & Hk1 & Hpp & Hnin & Hs1 & _).
  exists (s1 <| ram := memset (ram s1) p 0 PGSIZE |>). split_and!.
  - unfold uvmcreate. erewrite bind_ok by exact Hr. pose proof (page_ok_nonzero _ Hpp).
    replace (p =? 0) with false by lia.
    erewrite bind_ok by (apply kmemset_ok, page_ok_phys0; [done|lia]). reflexivity.
  - split; [done| | |].
    + rsimpl. apply pt_rep_empty; [done|apply zero_page_memset].
    + intros a Ha. by apply is_table_empty in Ha as ->.
    + rsimpl. rewrite Hs1. by rsimpl.
  - rsimpl. rewrite Hs1. kst_eq s.
Qed.

End Map.

(** ** Properties *)

(** [mappages] on a range of unmapped pages below [MAXVA] always returns.
    If it returns 0 the page table maps exactly the requested pages, to
    consecutive frames with the requested permissions, beside what it mapped
    before; if it returns -1 the free list is exhausted and a prefix of the
    range is mapped.  In both cases it wrote only to pages of this page
    table, new ones coming off the free list. *)
Theorem mappages_correct `{Layout, !LayoutOk} s root T fl va size pa perm :
  vm_state s root T fl → va mod PGSIZE = 0 → size mod PGSIZE = 0 → 0 < size → 0 ≤ va →
  va + size ≤ MAXVA → 0 ≤ pa → pa + size < 2 ^ 64 → 0 ≤ perm < 2 ^ 64 →
  (∀ w, va / 4096 ≤ w < (va + size) / 4096 → leaf T !! w = None) →
  ∃ r s' T' fl' n, mappages root va size pa perm s = Ok r s' ∧
    vm_state s' root T' fl' ∧ vm_step s T fl s' T' fl' ∧
    (∀ w, leaf T' !! w = if decide (va / 4096 ≤ w < va / 4096 + n)
                         then Some (pte_of (pa + (w - va / 4096) * PGSIZE) perm) else leaf T !! w) ∧
    ((r = 0 ∧ n = size / PGSIZE) ∨ (r = -1 ∧ 0 ≤ n < size / PGSIZE ∧ fl' = [])).
Proof.
  intros Hv Hva Hsz Hpos Hva0 Hmax Hpa Hpb Hperm Hfree.
  destruct (mappages_ok s root T fl va size pa perm) as (r & s' & T' & fl' & k & Hr & Hv' & Hst & Hl & Hg & Hc);
    try done.
  exists r, s', T', fl', (Z.of_nat k). split_and!; try done.
  - intros w. rewrite Hl. apply lookup_map_pages.
  - destruct Hc as [[-> ?]|(-> & ? & ->)]; [by left|right; split_and!; (done || lia)].
Qed.

(** [walkaddr] returns the frame of a user-accessible mapped page and 0
    for every other address, also above [MAXVA], without changing anything. *)
Theorem walkaddr_correct `{Layout, !LayoutOk} s root T va :
  pt_rep (ram s) root T → 0 ≤ va →
  walkaddr root va s = Ok (if va <? MAXVA then user_pa T va else 0) s.
Proof.
  intros HT Hva. destruct (va <? MAXVA) eqn:E; [apply walkaddr_ok; (done || lia)|].
  apply walkaddr_high. lia.
Qed.

Section Witnesses.
Local Existing Instance qemu_layout.
Local Existing Instance qemu_layout_ok.

Definition demo_root : Z := 0x80023000.

(** Give the pages [ps] to the allocator. *)
Definition give (ps : list Z) (s : kst) : kst :=
  foldr (λ p s, s <| ram := store64 (memset (ram s) p 1 PGSIZE) p (freelist s) |> <| freelist := p |>) s ps.

Definition demo_pages : list Z := [0x80024000; 0x80025000; 0x80026000; 0x80027000].

(** A fresh page table beside four free pages, and a process of two pages. *)
Definition demo : kst :=
  (give demo_pages kst0)
    <| procs := <[0%nat := proc0 <| p_state := RUNNING |> <| p_pagetable := demo_root |> <| p_sz := 8192 |>]>
                  (replicate NPROC proc0) |>
    <| cur := Some 0%nat |>.

Lemma give_wf ps s l :
  kmem_wf s l → Forall page_ok ps → NoDup (ps ++ l) → kmem_wf (give ps s) (ps ++ l).
Proof.
  intros Hk. induction ps as [|p ps IH]; simpl; intros Hp Hn; [done|].
  apply Forall_cons in Hp as [Hp Hps]. apply NoDup_cons in Hn as [Hnin Hn].
  apply (kfree_wf (give ps s)); [by apply IH|done|done].
Qed.

Lemma give_outside ps s q :
  q mod PGSIZE = 0 → Forall (λ p, p mod PGSIZE = 0) ps → q ∉ ps → same_page (ram s) (ram (give ps s)) q.
Proof.
  intros Hq Hps Hn. induction ps as [|p ps IH]; [done|]. apply Forall_cons in Hps as [Hp Hps].
  intros a Ha. cbn [give foldr]. rsimpl. rewrite kfree_frame.
  - apply IH; [done|set_solver|done].
  - destruct (pages_disjoint p q Hp Hq); [set_solver|lia|lia].
Qed.

Lemma demo_vm : vm_state demo demo_root (empty_as demo_root) demo_pages.
Proof.
  assert (kmem_wf (give demo_pages kst0) demo_pages) as Hk.
  { rewrite <- (app_nil_r demo_pages) at 2. apply give_wf; [apply kmem_wf_boot| |].
    - repeat constructor; by vm_compute.
    - apply (bool_decide_unpack _). by vm_compute. }
  split.
  - eapply kmem_wf_frame; [exact Hk|by unfold demo; rsimpl|]. intros p _. unfold demo. by rsimpl.
  - apply pt_rep_empty; [by vm_compute|]. intros b Hb. unfold demo. rsimpl.
    rewrite <- (give_outside demo_pages kst0 demo_root); [reflexivity|done| | |done].
    + repeat constructor.
    + apply (bool_decide_unpack _). by vm_compute.
  - intros a Ha. apply is_table_empty in Ha as ->. apply (bool_decide_unpack _). by vm_compute.
  - unfold demo. apply not_elem_of_nil.
Qed.

Lemma mappages_correct_witness :
  ∃ r s', mappages demo_root 0 PGSIZE 0x80030000 (Z.lor PTE_R PTE_U) demo = Ok r s'.
Proof.
  destruct (mappages_correct demo demo_root (empty_as demo_root) demo_pages 0 PGSIZE 0x80030000
              (Z.lor PTE_R PTE_U) demo_vm) as (r & s' & _ & _ & _ & Hr & _);
    [reflexivity|reflexivity|reflexivity|by vm_compute..| |by exists r, s'].
  intros w _. apply lookup_empty.
Defined.

Lemma walkaddr_correct_witness : walkaddr demo_root 4096 demo = Ok 0 demo.
Proof.
  rewrite (walkaddr_correct demo demo_root (empty_as demo_root) 4096);
    [reflexivity|apply demo_vm|by vm_compute].
Defined.

End Witnesses.
