(* ===== verification/Uvm.v ===== *)
(** * User memory: faults, [copyout] and [copyin]

    The contents of a process's memory as it sees it: a mapped user page
    shows its frame, a page below [p->sz] that is not yet allocated shows
    zeros.  Faulting a page in does not change that view, [copyout] updates
    it and [copyin] reads it. *)

From Stdlib Require Import ZArith Lia.
From S2P Require Import Prelude Params CString State Kalloc Process Vm VmRep VmMap.
From stdpp Require Import base gmap strings numbers list.

Open Scope Z_scope.

(** User pages are below the trapframe page. *)
Definition UVPN : Z := TRAPFRAME / 4096.

(** A frame of user memory. *)
Definition frame (T : aspace) (p : Z) : Prop :=
  ∃ v e, leaf T !! v = Some e ∧ v < UVPN ∧ PTE2PA e = p.

(** What the process reads at [va]; [None] where it has no memory. *)
Definition uview (m : memory) (T : aspace) (sz va : Z) : option Z :=
  match leaf T !! (va / 4096) with
  | Some e => if has e PTE_U then Some (ldb m (PTE2PA e + va mod 4096)) else None
  | None => if va / 4096 * 4096 <? sz then Some 0 else None
  end.

(** The memory is user memory that [copyout] may write. *)
Definition writable (T : aspace) (va : Z) : Prop :=
  ∀ e, leaf T !! (va / 4096) = Some e → has e PTE_W = true.

Section Uvm.
Context `{Layout, !LayoutOk}.

Record uvm_wf (s : kst) (root : Z) (T : aspace) (fl : list Z) : Prop := {
  uv_vm : vm_state s root T fl;
  uv_frame : ∀ p, frame T p → page_ok p ∧ ¬ is_table T p ∧ p ∉ fl;
  uv_inj : ∀ v v' e e', leaf T !! v = Some e → leaf T !! v' = Some e' →
    v < UVPN → v' < UVPN → PTE2PA e = PTE2PA e' → v = v';
  uv_user : ∀ v e, leaf T !! v = Some e → has e PTE_U = true → 0 ≤ v < UVPN
}.

(** The process running on this hart has page table [root] and size [sz]. *)
Definition cur_as (s : kst) (root sz : Z) : Prop :=
  ∃ i p, cur s = Some i ∧ procs s !! i = Some p ∧ p_pagetable p = root ∧ p_sz p = sz.

(** [s'] differs from [s] in memory and free list only, and pages that belong
    neither to this address space nor to the free list keep their contents. *)
Record uvm_step (s : kst) (T : aspace) (fl : list Z) (s' : kst) (T' : aspace) (fl' : list Z)
    : Prop := {
  us_frame : s' = s <| ram := ram s' |> <| freelist := freelist s' |>;
  us_fl : ∀ a, a ∈ fl' → a ∈ fl;
  us_tabs : ∀ a, is_table T' a → is_table T a ∨ a ∈ fl;
  us_frames : ∀ a, frame T' a → frame T a ∨ a ∈ fl;
  us_mem : ∀ p, p mod PGSIZE = 0 → ¬ is_table T p → ¬ frame T p → p ∉ fl →
    same_page (ram s) (ram s') p
}.

Lemma uvm_step_refl s T fl : uvm_step s T fl s T fl.
Proof. split; [kst_eq s|auto|auto|auto|done]. Qed.

Lemma uvm_step_trans s T fl s1 T1 fl1 s2 T2 fl2 :
  uvm_step s T fl s1 T1 fl1 → uvm_step s1 T1 fl1 s2 T2 fl2 → uvm_step s T fl s2 T2 fl2.
Proof.
  intros [Hf1 Hl1 Ht1 Hr1 Hm1] [Hf2 Hl2 Ht2 Hr2 Hm2]. split.
  - rewrite Hf2, Hf1. rsimpl. kst_eq s.
  - auto.
  - intros a Ha. destruct (Ht2 a Ha); auto.
  - intros a Ha. destruct (Hr2 a Ha); auto.
  - intros p Hp Hnt Hnf Hnl. eapply same_page_trans; [by apply Hm1|]. apply Hm2; [done|..].
    + intros Ht. by destruct (Ht1 p Ht).
    + intros Hf. by destruct (Hr1 p Hf).
    + auto.
Qed.

(** Only memory, free list and the allocator's lock matter. *)
Lemma uvm_wf_ext s s' root T fl :
  uvm_wf s root T fl → ram s' = ram s → freelist s' = freelist s → Lkmem ∉ held s' →
  uvm_wf s' root T fl.
Proof.
  intros [[Hk HT Hd Hlk] Hf Hi Hu] Hr Hfl Hh. split; [split|..]; try done.
  - eapply kmem_wf_frame; [exact Hk|done|]. intros p _. by rewrite Hr.
  - by rewrite Hr.
Qed.

Lemma uvm_step_fields s T fl s' T' fl' :
  uvm_step s T fl s' T' fl' →
  held s' = held s ∧ cur s' = cur s ∧ procs s' = procs s ∧ pipes s' = pipes s ∧ ticks s' = ticks s.
Proof. intros [Hf _ _ _ _]. rewrite Hf. by rsimpl. Qed.

Lemma uvm_step_pipes s T fl s' T' fl' P :
  uvm_step s T fl s' T' fl' → uvm_step (s <| pipes := P |>) T fl (s' <| pipes := P |>) T' fl'.
Proof.
  intros [Hf Hl Ht Hr Hm]. split; rsimpl; try done. rewrite Hf at 1. rsimpl. kst_eq s.
Qed.

Lemma cur_as_step s T fl s' T' fl' root sz :
  uvm_step s T fl s' T' fl' → cur_as s root sz → cur_as s' root sz.
Proof. intros [Hf _ _ _ _] (i & p & ? & ? & ? & ?). rewrite Hf. exists i, p. by rsimpl. Qed.

(** ** Leaf entries made by [mappages] *)

Lemma pte_of_alt pa perm : pte_of pa perm = Z.lor (PA2PTE pa) (Z.lor perm PTE_V).
Proof. unfold pte_of. by rewrite Z.lor_assoc. Qed.

Lemma pte_flags_bound perm : 0 ≤ perm < 1024 → 0 ≤ Z.lor perm PTE_V < 1024.
Proof. intros. by apply (lor_bound 10). Qed.

Lemma pte_of_pa pa perm : page_ok pa → 0 ≤ perm < 1024 → PTE2PA (pte_of pa perm) = pa.
Proof.
  intros Hp Hf. rewrite pte_of_alt. apply page_ok_bound in Hp as [? ?].
  apply PTE2PA_PA2PTE; [done|done|]. by apply pte_flags_bound.
Qed.

Lemma has_pte_at pa perm f :
  0 ≤ pa < 2 ^ 56 → 0 ≤ perm < 1024 → 0 ≤ f < 1024 → has (pte_of pa perm) f = has (Z.lor perm PTE_V) f.
Proof.
  intros Hp Hperm Hf. unfold has. rewrite land_PTE_FLAGS, pte_of_alt by done.
  rewrite PTE_FLAGS_PA2PTE; [done|lia|]. by apply pte_flags_bound.
Qed.

Lemma has_pte_of pa perm f :
  page_ok pa → 0 ≤ perm < 1024 → 0 ≤ f < 1024 → has (pte_of pa perm) f = has (Z.lor perm PTE_V) f.
Proof. intros Hp. apply has_pte_at. by apply page_ok_bound in Hp as [? ?]. Qed.

Lemma page_split va : 0 ≤ va mod 4096 < PGSIZE.
Proof. apply Z.mod_pos_bound. done. Qed.

(** Same frames, same view. *)
Lemma uview_ext m m' T sz va :
  (∀ p, frame T p → same_page m m' p) →
  (∀ v e, leaf T !! v = Some e → has e PTE_U = true → 0 ≤ v < UVPN) →
  uview m' T sz va = uview m T sz va.
Proof.
  intros Hs Hu. unfold uview. destruct (leaf T !! (va / 4096)) as [e|] eqn:E; [|done].
  destruct (has e PTE_U) eqn:Eu; [|done]. f_equal. symmetry. apply (Hs (PTE2PA e)).
  - exists (va / 4096), e. split_and!; [done|by eapply Hu|done].
  - pose proof (page_split va). lia.
Qed.

(** Adding a zeroed frame at an unmapped user page. *)
Lemma uvm_wf_add s root T fl s' T' fl' v p perm used :
  uvm_wf s root T fl → ¬ is_table T p → ¬ frame T p → 0 ≤ v < UVPN → leaf T !! v = None → page_ok p →
  0 ≤ perm < 1024 → vm_state s' root T' fl' → leaf T' = <[v := pte_of p perm]> (leaf T) → p ∉ fl →
  fl = used ++ fl' → (∀ a, is_table T' a ↔ is_table T a ∨ a ∈ used) →
  uvm_wf s' root T' fl'.
Proof.
  intros [Hv Hf Hi Hu] Hntp Hnfp Hvr Hnone Hp Hperm Hv' Hl' Hnin Hfl Ht.
  pose proof (pte_of_pa p perm Hp Hperm) as Hpa.
  assert (∀ q, frame T q → q ≠ p) as Hqp by (by intros q Hq ->).
  split; [done|..].
  - intros q (w & e & He & Hw & <-). rewrite Hl' in He. apply lookup_insert_Some in He as [[<- <-]|[Hne He]].
    + rewrite Hpa, Ht. split_and!; [done| |set_solver]. intros [?|?]; [done|]. set_solver.
    + destruct (Hf (PTE2PA e)) as (? & ? & ?); [by exists w, e|]. rewrite Ht. set_solver.
  - intros w w' e e' He He' Hw Hw' Heq. rewrite Hl' in He, He'.
    apply lookup_insert_Some in He as [[<- <-]|[Hne He]];
      apply lookup_insert_Some in He' as [[<- <-]|[Hne' He']]; [done| | |by eapply Hi].
    + exfalso. apply (Hqp (PTE2PA e')); [by exists w', e'|]. congruence.
    + exfalso. apply (Hqp (PTE2PA e)); [by exists w, e|]. congruence.
  - intros w e He HUe. rewrite Hl' in He. apply lookup_insert_Some in He as [[<- <-]|[Hne He]]; [done|].
    by eapply Hu.
Qed.

(** ** Page faults *)

Definition FAULT_PERM : Z := Z.lor (Z.lor PTE_W PTE_U) PTE_R.

(** [leaf T'] is [leaf T] with at most the page [v] added, readable and
    writable by the user. *)
Definition grown (T T' : aspace) (v : Z) : Prop :=
  leaf T' = leaf T ∨
  leaf T !! v = None ∧ ∃ p, page_ok p ∧ leaf T' = <[v := pte_of p FAULT_PERM]> (leaf T).

(** The zeroed page [kalloc] hands out, before it is mapped. *)
Lemma fault_page s root T p fl :
  uvm_wf s root T (p :: fl) →
  ∃ s1, (x <- kalloc ;; if x =? 0 then ret 0 else kmemset x 0 PGSIZE ;;; ret x) s = Ok p s1 ∧
    uvm_wf s1 root T fl ∧ page_ok p ∧ p ∉ fl ∧ ¬ is_table T p ∧ ¬ frame T p ∧
    zero_page (ram s1) p ∧ s1 = s <| ram := ram s1 |> <| freelist := freelist s1 |> ∧
    (∀ q, q mod PGSIZE = 0 → q ≠ p → same_page (ram s) (ram s1) q).
Proof.
  intros [[Hk HT Hd Hlk] Hf Hi Hu].
  destruct (kalloc_zeroed _ _ _ Hk Hlk) as (s1 & Hr & Hk1 & Hpp & Hnin & Hs1 & Hsame).
  assert (¬ is_table T p) as Hnt by (intros Ht; apply (Hd _ Ht); set_solver).
  assert (¬ frame T p) as Hnf by (intros Hfp; destruct (Hf p Hfp) as (_&_&?); set_solver).
  exists (s1 <| ram := memset (ram s1) p 0 PGSIZE |>). pose proof (page_ok_nonzero _ Hpp).
  split_and!; [| |exact Hpp|exact Hnin|exact Hnt|exact Hnf| | |rsimpl; exact Hsame].
  - erewrite bind_ok by exact Hr. replace (p =? 0) with false by lia.
    erewrite bind_ok by (apply kmemset_ok, page_ok_phys0; [done|lia]). reflexivity.
  - split; [split; [exact Hk1| | |]|..].
    + rsimpl. eapply pt_rep_frame; [exact HT|]. intros a Ha. apply Hsame; [|congruence].
      by destruct (pr_page _ _ _ HT _ Ha).
    + intros a Ha Hin. apply (Hd a Ha). set_solver.
    + rsimpl. rewrite Hs1. by rsimpl.
    + intros q Hq. destruct (Hf q Hq) as (?&?&?). set_solver.
    + exact Hi.
    + exact Hu.
  - rsimpl. apply zero_page_memset.
  - rsimpl. rewrite Hs1. kst_eq s.
Qed.

Lemma frame_aligned s root T fl p : uvm_wf s root T fl → frame T p → p mod PGSIZE = 0.
Proof. intros Hw Hf. by destruct (uv_frame _ _ _ _ Hw p Hf) as ((? & _) & _). Qed.

(** Giving a page back that belongs to nobody. *)
Lemma uvm_kfree s root T fl p :
  uvm_wf s root T fl → page_ok p → p ∉ fl → ¬ is_table T p → ¬ frame T p →
  ∃ s', kfree p s = Ok tt s' ∧ uvm_wf s' root T (p :: fl) ∧
    s' = s <| ram := ram s' |> <| freelist := freelist s' |> ∧
    (∀ q, q mod PGSIZE = 0 → q ≠ p → same_page (ram s) (ram s') q).
Proof.
  intros [[Hk HT Hd Hlk] Hf Hi Hu] Hp Hnin Hnt Hnf. eexists. split; [by eapply kfree_ok|].
  assert (∀ q, q mod PGSIZE = 0 → q ≠ p →
    same_page (ram s) (store64 (memset (ram s) p 1 PGSIZE) p (freelist s)) q) as Hsame.
  { intros q Hq Hne b Hb. symmetry. destruct Hp as (Hpm & _).
    destruct (pages_disjoint p q Hpm Hq ltac:(congruence)); apply kfree_frame; lia. }
  split_and!; [split; [split|..]| |by rsimpl]; rsimpl.
  - by apply kfree_wf.
  - eapply pt_rep_frame; [exact HT|]. intros a Ha. apply Hsame; [|congruence].
    by destruct (pr_page _ _ _ HT _ Ha).
  - intros a Ha Hin. apply elem_of_cons in Hin as [->|Hin]; [done|]. by apply (Hd a).
  - done.
  - intros q Hq. destruct (Hf q Hq) as (?&?&?). split_and!; [done..|].
    intros Hin. apply elem_of_cons in Hin as [->|Hin]; done.
  - done.
  - done.
  - kst_eq s.
Qed.

Lemma FAULT_PERM_ok : 0 ≤ FAULT_PERM < 1024 ∧ has (Z.lor FAULT_PERM PTE_V) PTE_U = true ∧
  has (Z.lor FAULT_PERM PTE_V) PTE_W = true.
Proof. done. Qed.

(** Mapping the zeroed page keeps the view. *)
Lemma uview_add m m' T T' sz v p w :
  leaf T !! v = None → leaf T' = <[v := pte_of p FAULT_PERM]> (leaf T) → page_ok p →
  v * 4096 < sz → zero_page m' p → (∀ q, frame T q → same_page m m' q) →
  (∀ v e, leaf T !! v = Some e → has e PTE_U = true → 0 ≤ v < UVPN) →
  uview m' T' sz w = uview m T sz w.
Proof.
  intros Hn Hl Hp Hsz Hz Hs Hu. rewrite <- (uview_ext m m' T) by done. unfold uview. rewrite Hl.
  destruct (decide (w / 4096 = v)) as [<-|Hne]; [|by rewrite lookup_insert_ne].
  rewrite lookup_insert_eq, Hn, has_pte_of, pte_of_pa by (done || apply FAULT_PERM_ok).
  replace (w / 4096 * 4096 <? sz) with true by lia. cbn. f_equal.
  apply Hz. pose proof (page_split w). lia.
Qed.

(** What follows the allocation of a zeroed page. *)
Lemma alloc_tail {A} (g : KM A) (f : Z → KM A) p s s1 :
  (x <- kalloc ;; if x =? 0 then ret 0 else kmemset x 0 PGSIZE ;;; ret x) s = Ok p s1 → p ≠ 0 →
  (x <- kalloc ;; if x =? 0 then g else kmemset x 0 PGSIZE ;;; f x) s = f p s1.
Proof.
  intros Hr Hp. apply bind_inv_ok in Hr as (x & s2 & Hk & Hr). erewrite bind_ok by exact Hk.
  destruct (x =? 0); [by inversion Hr; subst|].
  apply bind_inv_ok in Hr as (? & s3 & Hm & Hr). erewrite bind_ok by exact Hm. by inversion Hr.
Qed.

(** The frames of [T] are left alone by what only writes tables. *)
Lemma frames_kept s root T fl s' T' fl' p :
  uvm_wf s root T fl → vm_step s T fl s' T' fl' → frame T p → same_page (ram s) (ram s') p.
Proof.
  intros Hw [_ _ (used & -> & Ht) Hm] Hp. destruct (uv_frame _ _ _ _ Hw p Hp) as ((Hal & _) & Hnt & Hnl).
  apply Hm; [done|]. rewrite Ht. set_solver.
Qed.

Lemma uvm_wf_tables s root T fl s' T' fl' :
  uvm_wf s root T fl → vm_step s T fl s' T' fl' → vm_state s' root T' fl' → leaf T' = leaf T →
  uvm_wf s' root T' fl'.
Proof.
  intros [Hv Hf Hi Hu] [_ _ (used & -> & Ht) _] Hv' Hl. split; [done|..]; rewrite ?Hl; [|done|done].
  intros p (v & e & He & Hp). rewrite Hl in He. destruct (Hf p) as (? & ? & ?); [by exists v, e|].
  rewrite Ht. set_solver.
Qed.

Lemma frame_leaf T T' p : leaf T' = leaf T → frame T' p ↔ frame T p.
Proof. intros Hl. unfold frame. by rewrite Hl. Qed.

Lemma vmfault_step s s1 s2 T T2 p fl fl2 v :
  s1 = s <| ram := ram s1 |> <| freelist := freelist s1 |> → page_ok p →
  (∀ q, q mod PGSIZE = 0 → q ≠ p → same_page (ram s) (ram s1) q) →
  vm_step s1 T fl s2 T2 fl2 → leaf T2 = <[v := pte_of p FAULT_PERM]> (leaf T) →
  uvm_step s T (p :: fl) s2 T2 fl2.
Proof.
  intros Hs1 Hpp Hsame [Hf _ (used & -> & Ht) Hm] Hl. split.
  - rewrite Hf, Hs1. rsimpl. kst_eq s.
  - set_solver.
  - intros a Ha. apply Ht in Ha. set_solver.
  - intros a (w & e & He & Hw & <-). rewrite Hl in He. apply lookup_insert_Some in He as [[<- <-]|[_ He]].
    + rewrite pte_of_pa by (done || apply FAULT_PERM_ok). set_solver.
    + left. by exists w, e.
  - intros q Hq Hnt Hnf Hnl. eapply same_page_trans; [apply Hsame; set_solver|]. apply Hm; [done|].
    rewrite Ht. set_solver.
Qed.

Lemma vmfault_undo s s1 s2 s3 T T2 p fl :
  s1 = s <| ram := ram s1 |> <| freelist := freelist s1 |> →
  (∀ q, q mod PGSIZE = 0 → q ≠ p → same_page (ram s) (ram s1) q) →
  vm_step s1 T fl s2 T2 [] → leaf T2 = leaf T →
  s3 = s2 <| ram := ram s3 |> <| freelist := freelist s3 |> →
  (∀ q, q mod PGSIZE = 0 → q ≠ p → same_page (ram s2) (ram s3) q) →
  uvm_step s T (p :: fl) s3 T2 [p].
Proof.
  intros Hs1 Hsame [Hf _ (used & -> & Ht) Hm] Hl Hs3 Hsame3. split.
  - rewrite Hs3, Hf, Hs1. rsimpl. kst_eq s.
  - set_solver.
  - intros a Ha. apply Ht in Ha. set_solver.
  - intros a Ha. left. by rewrite <- (frame_leaf T T2).
  - intros q Hq Hnt Hnf Hnl. eapply same_page_trans; [apply Hsame; set_solver|].
    eapply same_page_trans; [apply Hm; [done|rewrite Ht; set_solver]|]. apply Hsame3; set_solver.
Qed.

(** [vmfault] from the point where it has its page. *)
Lemma vmfault_map s s1 root T p fl sz va :
  uvm_wf s root T (p :: fl) → uvm_wf s1 root T fl → page_ok p → p ∉ fl → ¬ is_table T p →
  ¬ frame T p → zero_page (ram s1) p → s1 = s <| ram := ram s1 |> <| freelist := freelist s1 |> →
  (∀ q, q mod PGSIZE = 0 → q ≠ p → same_page (ram s) (ram s1) q) →
  sz ≤ TRAPFRAME → 0 ≤ va < sz → va mod 4096 = 0 → leaf T !! (va / 4096) = None →
  ∃ r s' T' fl',
    (r <- mappages root va PGSIZE p FAULT_PERM ;;
     if negb (r =? 0) then kfree p ;;; ret 0 else ret p) s1 = Ok r s' ∧
    uvm_wf s' root T' fl' ∧ uvm_step s T (p :: fl) s' T' fl' ∧
    (∀ w, uview (ram s') T' sz w = uview (ram s) T sz w) ∧
    ((r = 0 ∧ leaf T' = leaf T) ∨
     (va < sz ∧ page_ok r ∧ leaf T' = <[va / 4096 := pte_of r FAULT_PERM]> (leaf T))).
Proof.
  intros Hw Hw1 Hpp Hnin Hnt Hnf Hz Hs1 Hsame1 Hsz Hva Hal Hnone.
  assert (0 ≤ va / 4096 < UVPN) as Hv.
  { unfold UVPN, TRAPFRAME, TRAMPOLINE, PGSIZE in *. change MAXVA with (2 ^ 38) in *.
    change ((2 ^ 38 - 4096 - 4096) / 4096) with 67108862.
    split; [apply Z.div_pos; lia|apply Z.div_lt_upper_bound; lia]. }
  pose proof (page_ok_bound _ Hpp) as [Hpb _].
  destruct (mappages_ok s1 root T fl va PGSIZE p FAULT_PERM)
    as (r & s2 & T2 & fl2 & k & Hr2 & Hv2 & Hst2 & Hl2 & _ & Hc); try done; try lia.
  { apply Hw1. }
  { unfold TRAPFRAME, TRAMPOLINE, PGSIZE in *. lia. }
  { unfold PGSIZE. lia. }
  { intros w Hrange. rewrite vpn_next in Hrange. by replace w with (va / 4096) by lia. }
  erewrite bind_ok by exact Hr2.
  assert (¬ is_table T2 p) as Hnt2.
  { destruct (vs_used _ _ _ _ _ _ Hst2) as (used & -> & Ht). rewrite Ht. set_solver. }
  assert (∀ q, frame T q → same_page (ram s) (ram s2) q) as Hfr.
  { intros q Hq. eapply same_page_trans; [apply Hsame1|by eapply frames_kept].
    - by eapply frame_aligned. - intros ->. done. }
  destruct Hc as [[-> Hk]|(-> & Hk & ->)].
  - change (PGSIZE / PGSIZE) with 1 in Hk. assert (k = 1%nat) as -> by lia.
    cbn [map_pages] in Hl2. exists p, s2, T2, fl2. change (negb (0 =? 0)) with false.
    destruct (vs_used _ _ _ _ _ _ Hst2) as (used & Hfl & Ht).
    split_and!; [done| | | |right; split_and!; (done || lia)].
    + eapply uvm_wf_add; [exact Hw1|done..|apply FAULT_PERM_ok|done|done|done|exact Hfl|done].
    + apply (vmfault_step s s1 s2 T T2 p fl fl2 (va / 4096)); try done.
    + intros w. eapply uview_add; [exact Hnone|exact Hl2|done|pose proof (Z.div_mod va 4096); lia| |done|apply Hw].
      intros b Hb. rewrite <- (vs_mem _ _ _ _ _ _ Hst2 p); [by apply Hz|apply Hpp|done|done].
  - change (PGSIZE / PGSIZE) with 1 in Hk. assert (k = 0%nat) as -> by lia. cbn [map_pages] in Hl2.
    change (negb (-1 =? 0)) with true. cbv iota.
    assert (uvm_wf s2 root T2 []) as Hw2 by (by eapply uvm_wf_tables).
    destruct (uvm_kfree s2 root T2 [] p Hw2 Hpp) as (s3 & Hr3 & Hw3 & Hs3 & Hsame3);
      [set_solver|done|by rewrite (frame_leaf T T2)|].
    erewrite bind_ok by exact Hr3. exists 0, s3, T2, [p]. split_and!; [done|done| | |by left].
    + apply (vmfault_undo s s1 s2 s3 T T2 p fl); done.
    + intros w. assert (∀ q, frame T q → same_page (ram s) (ram s3) q) as Hfr3.
      { intros q Hq. eapply same_page_trans; [by apply Hfr|]. apply Hsame3; [by apply (frame_aligned _ _ _ _ _ Hw)|].
        intros ->. done. }
      rewrite <- (uview_ext (ram s) (ram s3) T) by (done || apply Hw). unfold uview. by rewrite Hl2.
Qed.

Lemma vmfault_ok s root T fl sz va rd :
  uvm_wf s root T fl → cur_as s root sz → sz ≤ TRAPFRAME → 0 ≤ va < MAXVA → va mod 4096 = 0 →
  leaf T !! (va / 4096) = None →
  ∃ r s' T' fl', vmfault root va rd s = Ok r s' ∧ uvm_wf s' root T' fl' ∧
    uvm_step s T fl s' T' fl' ∧ (∀ w, uview (ram s') T' sz w = uview (ram s) T sz w) ∧
    ((r = 0 ∧ leaf T' = leaf T) ∨
     (va < sz ∧ page_ok r ∧ leaf T' = <[va / 4096 := pte_of r FAULT_PERM]> (leaf T))).
Proof.
  intros Hw (i & pr & Hc & Hp & Hpt & Hpsz) Hsz Hva Hal Hnone. unfold vmfault.
  erewrite bind_ok by (by apply curproc_ok). erewrite bind_ok by (by apply getp_ok). rewrite Hpsz, Hpt.
  assert (∀ s', s' = s → ∃ r s'' T' fl', (ret 0 : KM Z) s' = Ok r s'' ∧ uvm_wf s'' root T' fl' ∧
    uvm_step s T fl s'' T' fl' ∧ (∀ w, uview (ram s'') T' sz w = uview (ram s) T sz w) ∧
    ((r = 0 ∧ leaf T' = leaf T) ∨
     (va < sz ∧ page_ok r ∧ leaf T' = <[va / 4096 := pte_of r FAULT_PERM]> (leaf T)))) as Hnop.
  { intros s' ->. exists 0, s, T, fl. split_and!; try done; [apply uvm_step_refl|by left]. }
  destruct (va >=? sz) eqn:Esz; [by apply Hnop|].
  assert (PGROUNDDOWN va = va) as -> by (rewrite PGROUNDDOWN_eq; pose proof (Z.div_mod va 4096); lia).
  erewrite bind_ok by (apply (ismapped_ok _ T); [apply Hw|done]).
  rewrite bool_decide_false by (rewrite Hnone; by intros [? ?]).
  destruct fl as [|p fl].
  { erewrite bind_ok by (apply kalloc_empty; apply Hw). by apply Hnop. }
  destruct (fault_page _ _ _ _ _ Hw) as (s1 & Hr1 & Hw1 & Hpp & Hnin & Hnt & Hnf & Hz & Hs1 & Hsame1).
  rewrite (alloc_tail _ (λ mem, r <- mappages root va PGSIZE mem FAULT_PERM ;;
     if negb (r =? 0) then kfree mem ;;; ret 0 else ret mem) _ _ _ Hr1 (page_ok_nonzero _ Hpp)).
  apply (vmfault_map s s1 root T p fl sz va); try done. lia.
Qed.

Lemma vmfault_refused s root T fl sz va rd :
  uvm_wf s root T fl → cur_as s root sz → 0 ≤ va → va mod 4096 = 0 →
  sz ≤ va ∨ va < MAXVA ∧ is_Some (leaf T !! (va / 4096)) →
  vmfault root va rd s = Ok 0 s.
Proof.
  intros Hw (i & pr & Hc & Hp & Hpt & Hpsz) Hva0 Hal Hor. unfold vmfault.
  erewrite bind_ok by (by apply curproc_ok). erewrite bind_ok by (by apply getp_ok). rewrite Hpsz, Hpt.
  destruct (va >=? sz) eqn:Esz; [done|]. destruct Hor as [?|[Hmax Hs]]; [lia|].
  assert (PGROUNDDOWN va = va) as -> by (rewrite PGROUNDDOWN_eq; pose proof (Z.div_mod va 4096); lia).
  erewrite bind_ok by (apply (ismapped_ok _ T); [apply Hw|done]). by rewrite bool_decide_true.
Qed.

(** The user may read ([PTE_U]) or also write the page of [va]. *)
Definition user_ok (T : aspace) (va : Z) : Prop :=
  ∃ e, leaf T !! (va / 4096) = Some e ∧ has e PTE_U = true.
Definition rw_ok (T : aspace) (va : Z) : Prop :=
  ∃ e, leaf T !! (va / 4096) = Some e ∧ has e PTE_U = true ∧ has e PTE_W = true.

Lemma user_page_ok s root T fl sz va :
  uvm_wf s root T fl → cur_as s root sz → sz ≤ TRAPFRAME → 0 ≤ va → va mod 4096 = 0 →
  ∃ r s' T' fl', user_page root va s = Ok r s' ∧ uvm_wf s' root T' fl' ∧
    uvm_step s T fl s' T' fl' ∧ (∀ w, uview (ram s') T' sz w = uview (ram s) T sz w) ∧
    leaf T ⊆ leaf T' ∧
    ((r = 0 ∧ ¬ user_ok T va) ∨
     (r ≠ 0 ∧ va < MAXVA ∧ ∃ e, leaf T' !! (va / 4096) = Some e ∧ has e PTE_U = true ∧ PTE2PA e = r)).
Proof.
  intros Hw Hc Hsz Hva0 Hal. unfold user_page.
  assert (∀ r, r = 0 → ¬ user_ok T va → ∃ r' s' T' fl', Ok r s = Ok r' s' ∧ uvm_wf s' root T' fl' ∧
    uvm_step s T fl s' T' fl' ∧ (∀ w, uview (ram s') T' sz w = uview (ram s) T sz w) ∧
    leaf T ⊆ leaf T' ∧
    ((r' = 0 ∧ ¬ user_ok T va) ∨
     (r' ≠ 0 ∧ va < MAXVA ∧ ∃ e, leaf T' !! (va / 4096) = Some e ∧ has e PTE_U = true ∧ PTE2PA e = r')))
    as Hnop.
  { intros r -> Hn. exists 0, s, T, fl. split_and!; try done; [apply uvm_step_refl|by left]. }
  destruct (decide (va < MAXVA)) as [Hmax|Hmax].
  - erewrite bind_ok by (apply (walkaddr_ok _ T); [apply Hw|lia]). unfold user_pa.
    destruct (leaf T !! (va / 4096)) as [e|] eqn:E; [destruct (has e PTE_U) eqn:Eu|].
    + assert (page_ok (PTE2PA e)) as Hpp.
      { apply (uv_frame _ _ _ _ Hw). exists (va / 4096), e. split_and!; [done| |done]. by eapply uv_user. }
      pose proof (page_ok_nonzero _ Hpp). replace (PTE2PA e =? 0) with false by lia.
      exists (PTE2PA e), s, T, fl. split_and!; try done; [apply uvm_step_refl|]. right. eauto 10.
    + cbn [Z.eqb]. erewrite vmfault_refused; [| done..|right; by rewrite E].
      apply Hnop; [done|]. intros (e' & He' & HU). congruence.
    + cbn [Z.eqb]. destruct (vmfault_ok s root T fl sz va false) as (r & s' & T' & fl' & Hr & Hw' & Hst & Hview & Hc');
        try done.
      exists r, s', T', fl'. destruct Hc' as [[-> Hl]|(? & Hpp & Hl)]; split_and!; try done.
      * by rewrite Hl.
      * left. split; [done|]. intros (e' & He' & HU). congruence.
      * rewrite Hl. by apply insert_subseteq.
      * right. pose proof (page_ok_nonzero _ Hpp). split_and!; [lia|done|].
        exists (pte_of r FAULT_PERM). rewrite Hl, lookup_insert_eq, pte_of_pa by (done || apply FAULT_PERM_ok).
        rewrite has_pte_of by (done || apply FAULT_PERM_ok). done.
  - erewrite bind_ok by (apply walkaddr_high; lia). cbn [Z.eqb].
    assert (TRAPFRAME < MAXVA) by done.
    erewrite vmfault_refused; [|done..|left; lia]. apply Hnop; [done|].
    intros (e & He & HU). pose proof (uv_user _ _ _ _ Hw _ _ He HU) as Hv.
    unfold UVPN, TRAPFRAME, TRAMPOLINE, PGSIZE in Hv. change MAXVA with (2 ^ 38) in *.
    change ((2 ^ 38 - 4096 - 4096) / 4096) with 67108862 in Hv.
    pose proof (Z.div_mod va 4096). lia.
Qed.

(** ** Writing to a user page *)

Lemma same_page_stbytes m p off l q :
  p mod PGSIZE = 0 → q mod PGSIZE = 0 → p ≠ q → 0 ≤ off → off + Z.of_nat (length l) ≤ PGSIZE →
  same_page m (stbytes m (p + off) l) q.
Proof.
  intros Hp Hq Hne Ho Hl b Hb. rewrite ldb_stbytes.
  destruct (pages_disjoint p q Hp Hq Hne); by rewrite decide_False by lia.
Qed.

Lemma uvm_write s root T fl v e off l :
  uvm_wf s root T fl → leaf T !! v = Some e → has e PTE_U = true →
  0 ≤ off → off + Z.of_nat (length l) ≤ PGSIZE →
  let s' := s <| ram := stbytes (ram s) (PTE2PA e + off) l |> in
  kwrite (PTE2PA e + off) l s = Ok tt s' ∧ uvm_wf s' root T fl ∧ uvm_step s T fl s' T fl ∧
  ∀ sz w, uview (ram s') T sz w =
    if decide (v * 4096 + off ≤ w < v * 4096 + off + Z.of_nat (length l))
    then Some (u8 (default 0 (l !! Z.to_nat (w - (v * 4096 + off))))) else uview (ram s) T sz w.
Proof.
  intros Hw He HU Ho Hl s'. pose proof (uv_user _ _ _ _ Hw _ _ He HU) as Hv.
  assert (frame T (PTE2PA e)) as Hf by (exists v, e; split_and!; (done || lia)).
  destruct (uv_frame _ _ _ _ Hw _ Hf) as (Hpp & Hnt & Hnl). pose proof Hpp as (Hal & _).
  assert (∀ q, q mod PGSIZE = 0 → q ≠ PTE2PA e → same_page (ram s) (ram s') q) as Hsame.
  { intros q Hq Hne. subst s'. rsimpl. apply same_page_stbytes; (done || congruence). }
  split_and!.
  - by apply kwrite_ok, page_ok_phys.
  - destruct Hw as [[Hk HT Hd Hlk] Hfr Hi Hu]. split; [split|..]; try done.
    + eapply kmem_wf_frame; [exact Hk|by subst s'; rsimpl|]. intros q Hq. apply Hsame; [|by intros ->].
      by destruct (proj1 (Forall_forall _ _) (kw_pages _ _ Hk) q Hq).
    + eapply pt_rep_frame; [exact HT|]. intros a Ha. apply Hsame; [by destruct (pr_page _ _ _ HT _ Ha)|by intros ->].
  - split; [subst s'; rsimpl; kst_eq s|auto|auto|auto|].
    intros q Hq Hnt' Hnf Hnl'. apply Hsame; [done|by intros ->].
  - intros sz w. unfold uview. destruct (decide (w / 4096 = v)) as [<-|Hne].
    + rewrite He, HU. subst s'. rsimpl. rewrite ldb_stbytes.
      pose proof (Z.div_mod w 4096 ltac:(lia)) as Hdm.
      destruct (decide (w / 4096 * 4096 + off ≤ w < w / 4096 * 4096 + off + Z.of_nat (length l))).
      * rewrite decide_True by lia. do 5 f_equal. lia.
      * by rewrite decide_False by lia.
    + pose proof (Z.div_mod w 4096 ltac:(lia)). pose proof (Z.mod_pos_bound w 4096 ltac:(lia)).
      rewrite decide_False by (unfold PGSIZE in *; lia).
      destruct (leaf T !! (w / 4096)) as [e'|] eqn:E'; [|done].
      destruct (has e' PTE_U) eqn:EU; [|done]. f_equal. symmetry.
      pose proof (uv_user _ _ _ _ Hw _ _ E' EU) as Hv'.
      apply (Hsame (PTE2PA e')); [|intros Heq; apply Hne; by eapply uv_inj; [..|lia|lia|]|unfold PGSIZE; lia].
      eapply frame_aligned; [exact Hw|]. exists (w / 4096), e'. split_and!; (done || lia).
Qed.

End Uvm.
