(* ===== verification/Copy.v ===== *)
(** * [copyout] and [copyin] against the user's view of memory *)

From Stdlib Require Import ZArith Lia.
From S2P Require Import Prelude Params CString State Kalloc Process Vm VmRep VmMap Uvm.
From stdpp Require Import base gmap strings numbers list.

Open Scope Z_scope.

Section Copy.
Context `{Layout, !LayoutOk}.

(** The view [V] with [l] written at [va]. *)
Definition overwrite (V : Z → option Z) (va : Z) (l : list Z) (w : Z) : option Z :=
  if decide (va ≤ w < va + Z.of_nat (length l))
  then Some (u8 (default 0 (l !! Z.to_nat (w - va)))) else V w.

Lemma overwrite_nil V va w : overwrite V va [] w = V w.
Proof. unfold overwrite. by rewrite decide_False by (simpl; lia). Qed.

Lemma overwrite_app V va l1 l2 w :
  overwrite (overwrite V va l1) (va + Z.of_nat (length l1)) l2 w = overwrite V va (l1 ++ l2) w.
Proof.
  unfold overwrite. rewrite length_app.
  destruct (decide (va + Z.of_nat (length l1) ≤ w < va + Z.of_nat (length l1) + Z.of_nat (length l2))).
  - rewrite decide_True by lia. rewrite lookup_app_r by lia. do 4 f_equal. lia.
  - destruct (decide (va ≤ w < va + Z.of_nat (length l1))).
    + rewrite decide_True by lia. by rewrite lookup_app_l by lia.
    + by rewrite decide_False by lia.
Qed.

Lemma overwrite_ext V V' va l w : (∀ x, V x = V' x) → overwrite V va l w = overwrite V' va l w.
Proof. intros Hx. unfold overwrite. by rewrite Hx. Qed.

(** What a copy loop leaves behind: it wrote a prefix of the source, all of it
    exactly when it returns 0; it fails only where the range is not plain
    writable user memory of the initial address space. *)
Definition copied (s : kst) (root : Z) (T : aspace) (fl : list Z) (sz va : Z) (src : list Z)
    (res : res kst Z) : Prop :=
  ∃ r s' T' fl' k, res = Ok r s' ∧ uvm_wf s' root T' fl' ∧ uvm_step s T fl s' T' fl' ∧
    leaf T ⊆ leaf T' ∧ (k ≤ length src)%nat ∧
    (∀ w, uview (ram s') T' sz w = overwrite (uview (ram s) T sz) va (take k src) w) ∧
    ((r = 0 ∧ k = length src) ∨
     (r = -1 ∧ (k < length src)%nat ∧
      ∃ w, va ≤ w < va + Z.of_nat (length src) ∧ ¬ rw_ok T w)).

Lemma rw_ok_mono T T' w : leaf T ⊆ leaf T' → rw_ok T w → rw_ok T' w.
Proof. intros Hs (e & He & ?). exists e. split; [|done]. by eapply lookup_weaken. Qed.

Lemma copied_nil s root T fl sz va : uvm_wf s root T fl → copied s root T fl sz va [] (Ok 0 s).
Proof.
  intros Hw. exists 0, s, T, fl, O. split_and!; try done; [apply uvm_step_refl| |by left].
  intros w. by rewrite overwrite_nil.
Qed.

(** Nothing written, and the first byte is not plain user memory. *)
Lemma copied_stop s root T fl sz va src s' T' fl' w :
  uvm_wf s' root T' fl' → uvm_step s T fl s' T' fl' → leaf T ⊆ leaf T' →
  (∀ w, uview (ram s') T' sz w = uview (ram s) T sz w) →
  va ≤ w < va + Z.of_nat (length src) → ¬ rw_ok T w →
  copied s root T fl sz va src (Ok (-1) s').
Proof.
  intros Hw Hst Hl Hv Hr Hn. exists (-1), s', T', fl', O. split_and!; try done; [lia| |].
  - intros x. by rewrite overwrite_nil.
  - right. split_and!; [done|lia|eauto].
Qed.

(** One chunk written, the rest copied from there. *)
Lemma copied_cons s root T fl sz va src n s1 T1 fl1 s2 r :
  uvm_step s T fl s1 T1 fl1 → (∀ w, uview (ram s1) T1 sz w = uview (ram s) T sz w) →
  leaf T ⊆ leaf T1 → uvm_step s1 T1 fl1 s2 T1 fl1 → (n ≤ length src)%nat →
  (∀ w, uview (ram s2) T1 sz w = overwrite (uview (ram s1) T1 sz) va (take n src) w) →
  copied s2 root T1 fl1 sz (va + Z.of_nat n) (drop n src) r →
  copied s root T fl sz va src r.
Proof.
  intros Hst1 Hv1 Hl1 Hst2 Hn Hv2 (x & s3 & T3 & fl3 & k & -> & Hw3 & Hst3 & Hl3 & Hk & Hv3 & Hc).
  rewrite length_drop in Hk. exists x, s3, T3, fl3, (n + k)%nat. split_and!; try done.
  - eapply uvm_step_trans; [exact Hst1|]. by eapply uvm_step_trans.
  - by trans (leaf T1).
  - lia.
  - intros w. rewrite Hv3. erewrite overwrite_ext by exact Hv2.
    replace (va + Z.of_nat n) with (va + Z.of_nat (length (take n src)))
      by (rewrite length_take_le by lia; done).
    rewrite overwrite_app, take_take_drop. by apply overwrite_ext.
  - rewrite length_drop in Hc. destruct Hc as [[-> ->]|(-> & Hlt & w & Hw & Hn')]; [left|right].
    + split; [done|lia].
    + split_and!; [done|lia|]. exists w. split; [lia|]. intros Hrw. apply Hn'. by eapply rw_ok_mono.
Qed.

Lemma copyout_loop_S n root dstva src :
  copyout_loop (S n) root dstva src =
    if 0 <? Z.of_nat (length src) then
      let va0 := PGROUNDDOWN dstva in
      if va0 >=? MAXVA then ret (-1)
      else
        pa0 <- user_page root va0 ;;
        if pa0 =? 0 then ret (-1)
        else
          pte <- walk root va0 false ;;
          e <- ld64 pte ;;
          if negb (has e PTE_W) then ret (-1)
          else
            let n' := Z.min (PGSIZE - (dstva - va0)) (Z.of_nat (length src)) in
            kwrite (pa0 + (dstva - va0)) (take (Z.to_nat n') src) ;;;
            copyout_loop n root (u64 (va0 + PGSIZE)) (drop (Z.to_nat n') src)
    else ret 0.
Proof. reflexivity. Qed.

(** The entry [copyout] rereads is the one it found. *)
Lemma reread_pte s root T va e :
  pt_rep (ram s) root T → 0 ≤ va < MAXVA → leaf T !! (va / 4096) = Some e →
  ∃ pte, walk root va false s = Ok pte s ∧ ld64 pte s = Ok e s.
Proof.
  intros HT Hva He. exists (leaf_addr T va). split; [by apply walk_noalloc|].
  destruct (tabs T !! (0, idx 1 va)) as [b|] eqn:E.
  - destruct (leaf_addr_Some _ _ _ _ _ HT E) as (_ & _ & Hph & Hl).
    rewrite ld64_ok by done. rewrite He in Hl. cbv zeta in Hl. by case_match; simplify_eq.
  - destruct (leaf_addr_None _ _ _ _ HT E) as [_ ?]. congruence.
Qed.

Lemma copyout_loop_ok n s root T fl sz dstva src :
  uvm_wf s root T fl → cur_as s root sz → sz ≤ TRAPFRAME → 0 ≤ dstva →
  dstva mod 4096 + Z.of_nat (length src) ≤ Z.of_nat n * 4096 →
  copied s root T fl sz dstva src (copyout_loop n root dstva src s).
Proof.
  revert s T fl dstva src; induction n as [|n IH]; intros s T fl dstva src Hw Hcur Hsz Hd Hfuel.
  - pose proof (Z.mod_pos_bound dstva 4096 ltac:(lia)).
    destruct src; [by apply copied_nil|cbn [length] in Hfuel; lia].
  - rewrite copyout_loop_S. destruct (0 <? Z.of_nat (length src)) eqn:El; cycle 1.
    { apply Z.ltb_ge in El. destruct src; [by apply copied_nil|cbn [length] in El; lia]. }
    apply Z.ltb_lt in El. cbv zeta. pose proof (Z.div_mod dstva 4096 ltac:(lia)) as Hdm.
    pose proof (Z.mod_pos_bound dstva 4096 ltac:(lia)) as Hoff.
    rewrite PGROUNDDOWN_eq. set (v := dstva / 4096) in *. set (off := dstva mod 4096) in *.
    assert (0 ≤ v) as Hv0 by (apply Z.div_pos; lia).
    assert (v * 4096 / 4096 = v) as Hvv by (apply Z.div_mul; lia).
    assert (v * 4096 mod 4096 = 0) as Hvm by (apply Z.mod_mul; lia).
    destruct (v * 4096 >=? MAXVA) eqn:Emax.
    { eapply copied_stop; [done|apply uvm_step_refl|done|done|split; [reflexivity|lia]|].
      intros (e & He & HU & _). pose proof (uv_user _ _ _ _ Hw _ _ He HU) as Huv. fold v in Huv.
      assert (UVPN * 4096 < MAXVA) by done. lia. }
    destruct (user_page_ok s root T fl sz (v * 4096) Hw Hcur Hsz ltac:(lia) Hvm)
      as (pa & s1 & T1 & fl1 & Hr1 & Hw1 & Hst1 & Hview1 & Hl1 & Hc1).
    erewrite bind_ok by exact Hr1.
    destruct Hc1 as [[-> Hnu]|(Hnz & Hmax & e & He & HU & Hpa)].
    { eapply copied_stop; [done|exact Hst1|done|done|split; [reflexivity|lia]|].
      intros (e & He & HU & _). apply Hnu. exists e. rewrite Hvv. done. }
    replace (pa =? 0) with false by lia.
    destruct (reread_pte s1 root T1 (v * 4096) e) as (pte & Hwk & Hld); [apply Hw1|lia|done|].
    erewrite bind_ok by exact Hwk. erewrite bind_ok by exact Hld. rewrite Hvv in He.
    destruct (has e PTE_W) eqn:EW; cbn [negb]; cycle 1.
    { eapply copied_stop; [done|exact Hst1|done|done|split; [reflexivity|lia]|].
      intros (e' & He' & _ & HW'). eapply lookup_weaken in He'; [|done]. fold v in He'. congruence. }
    replace (dstva - v * 4096) with off by lia. unfold PGSIZE.
    set (k := Z.to_nat (Z.min (4096 - off) (Z.of_nat (length src)))).
    assert (length (take k src) = k) as Hk by (rewrite length_take_le; lia).
    destruct (uvm_write s1 root T1 fl1 v e off (take k src) Hw1 He HU) as (Hr2 & Hw2 & Hst2 & Hview2);
      [lia|rewrite Hk; unfold PGSIZE; lia|].
    rewrite <- Hpa. erewrite bind_ok by exact Hr2.
    replace (v * 4096 + off) with dstva in Hview2 by lia.
    eapply copied_cons with (n := k); [exact Hst1|exact Hview1|exact Hl1|exact Hst2|lia|apply Hview2|].
    destruct (decide (k = length src)) as [Hall|Hsome].
    + rewrite drop_ge by lia.
      replace (copyout_loop n root (u64 (v * 4096 + 4096)) []) with (ret 0 : KM Z) by (by destruct n).
      by apply copied_nil.
    + assert (Z.of_nat k = 4096 - off) as Hk' by lia.
      assert (MAXVA < 2 ^ 63) by done. rewrite u64_small by lia.
      replace (v * 4096 + 4096) with (dstva + Z.of_nat k) by lia.
      apply IH; [done| |done|lia|].
      * eapply cur_as_step; [exact Hst2|]. by eapply cur_as_step.
      * rewrite length_drop. replace (dstva + Z.of_nat k) with ((v + 1) * 4096) by lia.
        rewrite Z.mod_mul by lia. lia.
Qed.

Lemma copyout_ok s root T fl sz dstva src :
  uvm_wf s root T fl → cur_as s root sz → sz ≤ TRAPFRAME → 0 ≤ dstva →
  copied s root T fl sz dstva src (copyout root dstva src s).
Proof.
  intros. apply copyout_loop_ok; try done. unfold pages_fuel, PGSIZE.
  pose proof (Z.mod_pos_bound dstva 4096 ltac:(lia)).
  pose proof (Z.div_mod (Z.of_nat (length src)) 4096 ltac:(lia)).
  pose proof (Z.mod_pos_bound (Z.of_nat (length src)) 4096 ltac:(lia)).
  assert (0 ≤ Z.of_nat (length src) / 4096) by (apply Z.div_pos; lia). lia.
Qed.

(** ** [copyin] *)

Lemma copyin_loop_S n root srcva len dst :
  copyin_loop (S n) root srcva len dst =
    if 0 <? len then
      let va0 := PGROUNDDOWN srcva in
      pa0 <- user_page root va0 ;;
      if pa0 =? 0 then ret (-1, dst)
      else
        let n' := Z.min (PGSIZE - (srcva - va0)) len in
        bytes <- kread (pa0 + (srcva - va0)) n' ;;
        copyin_loop n root (u64 (va0 + PGSIZE)) (len - n') (dst ++ bytes)
    else ret (0, dst).
Proof. reflexivity. Qed.

(** [bytes] is what the user sees at [va]. *)
Definition seen (V : Z → option Z) (va : Z) (bytes : list Z) : Prop :=
  ∀ i b, bytes !! i = Some b → V (va + Z.of_nat i) = Some b.

Lemma seen_app V va l1 l2 :
  seen V va l1 → seen V (va + Z.of_nat (length l1)) l2 → seen V va (l1 ++ l2).
Proof.
  intros H1 H2 i b Hi. apply lookup_app_Some in Hi as [Hi|[Hle Hi]]; [by apply H1|].
  rewrite <- (H2 _ _ Hi). f_equal. lia.
Qed.

Definition fetched (s : kst) (root : Z) (T : aspace) (fl : list Z) (sz va len : Z) (dst : list Z)
    (res : res kst (Z * list Z)) : Prop :=
  ∃ r bytes s' T' fl', res = Ok (r, dst ++ bytes) s' ∧ uvm_wf s' root T' fl' ∧
    uvm_step s T fl s' T' fl' ∧ leaf T ⊆ leaf T' ∧
    (∀ w, uview (ram s') T' sz w = uview (ram s) T sz w) ∧ seen (uview (ram s) T sz) va bytes ∧
    ((r = 0 ∧ Z.of_nat (length bytes) = len) ∨
     (r = -1 ∧ Z.of_nat (length bytes) < len ∧ ∃ w, va ≤ w < va + len ∧ ¬ user_ok T w)).

Lemma fetched_nil s root T fl sz va dst :
  uvm_wf s root T fl → fetched s root T fl sz va 0 dst (Ok (0, dst) s).
Proof.
  intros Hw. exists 0, [], s, T, fl. rewrite app_nil_r. split_and!; try done; [apply uvm_step_refl|by left].
Qed.

Lemma fetched_cons s root T fl sz va len dst chunk s1 T1 fl1 r :
  uvm_step s T fl s1 T1 fl1 → (∀ w, uview (ram s1) T1 sz w = uview (ram s) T sz w) →
  leaf T ⊆ leaf T1 → seen (uview (ram s) T sz) va chunk → Z.of_nat (length chunk) ≤ len →
  fetched s1 root T1 fl1 sz (va + Z.of_nat (length chunk)) (len - Z.of_nat (length chunk)) (dst ++ chunk) r →
  fetched s root T fl sz va len dst r.
Proof.
  intros Hst1 Hv1 Hl1 Hseen Hlen (x & bytes & s2 & T2 & fl2 & -> & Hw2 & Hst2 & Hl2 & Hv2 & Hs2 & Hc).
  exists x, (chunk ++ bytes), s2, T2, fl2. rewrite app_assoc, length_app. split_and!; try done.
  - by eapply uvm_step_trans.
  - by trans (leaf T1).
  - intros w. by rewrite Hv2.
  - apply seen_app; [done|]. intros i b Hi. rewrite <- Hv1. by apply Hs2.
  - destruct Hc as [[-> ?]|(-> & ? & w & Hw & Hn)]; [left; split; (done || lia)|right].
    split_and!; [done|lia|]. exists w. split; [lia|]. intros (e & He & HU). apply Hn.
    exists e. split; [|done]. by eapply lookup_weaken.
Qed.

(** Bytes read from a user page are bytes of the view. *)
Lemma seen_page s T sz v e off n :
  leaf T !! v = Some e → has e PTE_U = true → 0 ≤ off → off + Z.of_nat n ≤ 4096 →
  seen (uview (ram s) T sz) (v * 4096 + off) (ldbytes (ram s) (PTE2PA e + off) n).
Proof.
  intros He HU Ho Hn i b Hi. pose proof (lookup_lt_Some _ _ _ Hi) as Hlt. rewrite length_ldbytes in Hlt.
  rewrite lookup_ldbytes in Hi by done. simplify_eq. unfold uview.
  replace (v * 4096 + off + Z.of_nat i) with (off + Z.of_nat i + v * 4096) by lia.
  rewrite Z.div_add, Z.mod_add, Z.div_small, Z.mod_small by lia. rewrite Z.add_0_l, He, HU.
  do 2 f_equal. lia.
Qed.

Lemma copyin_loop_ok n s root T fl sz srcva len dst :
  uvm_wf s root T fl → cur_as s root sz → sz ≤ TRAPFRAME → 0 ≤ srcva → 0 ≤ len →
  srcva mod 4096 + len ≤ Z.of_nat n * 4096 →
  fetched s root T fl sz srcva len dst (copyin_loop n root srcva len dst s).
Proof.
  revert s T fl srcva len dst; induction n as [|n IH]; intros s T fl srcva len dst Hw Hcur Hsz Hd Hlen Hfuel.
  - pose proof (Z.mod_pos_bound srcva 4096 ltac:(lia)). replace len with 0 by lia. by apply fetched_nil.
  - rewrite copyin_loop_S. destruct (0 <? len) eqn:El; cycle 1.
    { replace len with 0 by lia. by apply fetched_nil. }
    cbv zeta. pose proof (Z.div_mod srcva 4096 ltac:(lia)) as Hdm.
    pose proof (Z.mod_pos_bound srcva 4096 ltac:(lia)) as Hoff.
    rewrite PGROUNDDOWN_eq. set (v := srcva / 4096) in *. set (off := srcva mod 4096) in *.
    assert (0 ≤ v) as Hv0 by (apply Z.div_pos; lia).
    assert (v * 4096 / 4096 = v) as Hvv by (apply Z.div_mul; lia).
    assert (v * 4096 mod 4096 = 0) as Hvm by (apply Z.mod_mul; lia).
    destruct (user_page_ok s root T fl sz (v * 4096) Hw Hcur Hsz ltac:(lia) Hvm)
      as (pa & s1 & T1 & fl1 & Hr1 & Hw1 & Hst1 & Hview1 & Hl1 & Hc1).
    erewrite bind_ok by exact Hr1.
    destruct Hc1 as [[-> Hnu]|(Hnz & Hmax & e & He & HU & Hpa)].
    { exists (-1), [], s1, T1, fl1. rewrite app_nil_r. split_and!; try done. right.
      split_and!; [done|simpl; lia|]. exists srcva. split; [lia|]. intros (e & He & HU). apply Hnu.
      exists e. by rewrite Hvv. }
    replace (pa =? 0) with false by lia. rewrite Hvv in He.
    replace (srcva - v * 4096) with off by lia. unfold PGSIZE.
    set (k := Z.min (4096 - off) len). rewrite <- Hpa.
    assert (frame T1 (PTE2PA e)) as Hfr.
    { exists v, e. split_and!; [done| |done]. by eapply uv_user. }
    destruct (uv_frame _ _ _ _ Hw1 _ Hfr) as (Hpp & _).
    erewrite bind_ok by (apply kread_ok, page_ok_phys; [done|lia|unfold PGSIZE; lia]).
    assert (Z.of_nat (length (ldbytes (ram s1) (PTE2PA e + off) (Z.to_nat k))) = k) as Hlb
      by (rewrite length_ldbytes; lia).
    eapply fetched_cons with (chunk := ldbytes (ram s1) (PTE2PA e + off) (Z.to_nat k));
      [exact Hst1|exact Hview1|exact Hl1| |lia|].
    { replace srcva with (v * 4096 + off) by lia. intros i b Hi. rewrite <- Hview1.
      revert i b Hi. apply seen_page; (done || lia). }
    rewrite Hlb. assert (MAXVA < 2 ^ 63) by done. rewrite u64_small by lia.
    destruct (decide (k = len)) as [->|Hsome].
    + rewrite Z.sub_diag. replace (copyin_loop n root (v * 4096 + 4096) 0 _) with
        (ret (0, dst ++ ldbytes (ram s1) (PTE2PA e + off) (Z.to_nat len)) : KM (Z * list Z)) by (by destruct n).
      by apply fetched_nil.
    + replace (v * 4096 + 4096) with (srcva + k) by lia. apply IH; [done| |done|lia|lia|].
      * by eapply cur_as_step.
      * replace (srcva + k) with ((v + 1) * 4096) by lia. rewrite Z.mod_mul by lia. lia.
Qed.

Lemma copyin_ok s root T fl sz srcva len :
  uvm_wf s root T fl → cur_as s root sz → sz ≤ TRAPFRAME → 0 ≤ srcva → 0 ≤ len →
  fetched s root T fl sz srcva len [] (copyin root srcva len s).
Proof.
  intros. apply copyin_loop_ok; try done. unfold pages_fuel, PGSIZE.
  pose proof (Z.mod_pos_bound srcva 4096 ltac:(lia)).
  pose proof (Z.div_mod len 4096 ltac:(lia)). pose proof (Z.mod_pos_bound len 4096 ltac:(lia)).
  assert (0 ≤ len / 4096) by (apply Z.div_pos; lia). lia.
Qed.

End Copy.

(** ** Properties *)

(** a page fault on an unmapped page of the running process never panics
    or touches memory outside the process and the free list, and does not
    change what the process sees: it returns 0 with the same mappings, or the
    frame of a new page, mapped read-write for the user, which shows the
    zeros that were visible before.  Addresses at or above [p->sz] are
    refused. *)
Theorem vmfault_transparent `{Layout, !LayoutOk} s root T fl sz va rd :
  uvm_wf s root T fl → cur_as s root sz → sz ≤ TRAPFRAME → 0 ≤ va < MAXVA → va mod 4096 = 0 →
  leaf T !! (va / 4096) = None →
  ∃ r s' T' fl', vmfault root va rd s = Ok r s' ∧ uvm_wf s' root T' fl' ∧
    uvm_step s T fl s' T' fl' ∧ (∀ w, uview (ram s') T' sz w = uview (ram s) T sz w) ∧
    ((r = 0 ∧ leaf T' = leaf T) ∨
     (va < sz ∧ page_ok r ∧ leaf T' = <[va / 4096 := pte_of r FAULT_PERM]> (leaf T))).
Proof. apply vmfault_ok. Qed.

(** C8: [copyout] to the running process always returns and never reaches
    memory outside the process and the free list.  It returns 0 exactly when
    the whole source was written, and then the process sees its old memory
    with the source written at [dstva]; on -1 it sees a prefix written, and
    some address of the range was not writable user memory. *)
Theorem copyout_correct `{Layout, !LayoutOk} s root T fl sz dstva src :
  uvm_wf s root T fl → cur_as s root sz → sz ≤ TRAPFRAME → 0 ≤ dstva →
  ∃ r s' T' fl' k, copyout root dstva src s = Ok r s' ∧ uvm_wf s' root T' fl' ∧
    uvm_step s T fl s' T' fl' ∧
    (∀ w, uview (ram s') T' sz w = overwrite (uview (ram s) T sz) dstva (take k src) w) ∧
    ((r = 0 ∧ k = length src) ∨
     (r = -1 ∧ (k < length src)%nat ∧
      ∃ w, dstva ≤ w < dstva + Z.of_nat (length src) ∧ ¬ rw_ok T w)).
Proof.
  intros Hw Hc Hsz Hd. destruct (copyout_ok s root T fl sz dstva src Hw Hc Hsz Hd)
    as (r & s' & T' & fl' & k & Hr & Hw' & Hst & _ & _ & Hv & Hcase).
  exists r, s', T', fl', k. split_and!; done.
Qed.

(** [copyin] from the running process always returns and leaves what the
    process sees unchanged.  The bytes it delivers are the process's bytes at
    [srcva], all [len] of them when it returns 0; on -1 some address of the
    range was not user memory. *)
Theorem copyin_correct `{Layout, !LayoutOk} s root T fl sz srcva len :
  uvm_wf s root T fl → cur_as s root sz → sz ≤ TRAPFRAME → 0 ≤ srcva → 0 ≤ len →
  ∃ r bytes s' T' fl', copyin root srcva len s = Ok (r, bytes) s' ∧ uvm_wf s' root T' fl' ∧
    uvm_step s T fl s' T' fl' ∧ (∀ w, uview (ram s') T' sz w = uview (ram s) T sz w) ∧
    seen (uview (ram s) T sz) srcva bytes ∧
    ((r = 0 ∧ Z.of_nat (length bytes) = len) ∨
     (r = -1 ∧ Z.of_nat (length bytes) < len ∧ ∃ w, srcva ≤ w < srcva + len ∧ ¬ user_ok T w)).
Proof.
  intros Hw Hc Hsz Hd Hlen. destruct (copyin_ok s root T fl sz srcva len Hw Hc Hsz Hd Hlen)
    as (r & bytes & s' & T' & fl' & Hr & Hw' & Hst & _ & Hv & Hseen & Hcase).
  exists r, bytes, s', T', fl'. split_and!; done.
Qed.

Section Witnesses.
Local Existing Instance qemu_layout.
Local Existing Instance qemu_layout_ok.

Lemma demo_uvm : uvm_wf demo demo_root (empty_as demo_root) demo_pages.
Proof.
  split; [apply demo_vm|..].
  - intros p (v & e & He & _). cbn [leaf empty_as] in He. by rewrite lookup_empty in He.
  - intros v v' e e' He. cbn [leaf empty_as] in He. by rewrite lookup_empty in He.
  - intros v e He. cbn [leaf empty_as] in He. by rewrite lookup_empty in He.
Qed.

Lemma demo_cur : cur_as demo demo_root 8192.
Proof. eexists 0%nat, _. split; [reflexivity|]. split; [reflexivity|]. split; reflexivity. Qed.

Lemma vmfault_transparent_witness : ∃ r s', vmfault demo_root 4096 false demo = Ok r s'.
Proof.
  destruct (vmfault_transparent demo demo_root (empty_as demo_root) demo_pages 8192 4096 false
              demo_uvm demo_cur) as (r & s' & _ & _ & Hr & _); [by vm_compute..|].
  by exists r, s'.
Defined.

Lemma copyout_correct_witness :
  ∃ r s' k, copyout demo_root 4094 [1; 2; 3; 4] demo = Ok r s' ∧ (k ≤ 4)%nat.
Proof.
  destruct (copyout_correct demo demo_root (empty_as demo_root) demo_pages 8192 4094 [1; 2; 3; 4]
              demo_uvm demo_cur) as (r & s' & _ & _ & k & Hr & _ & _ & _ & Hk); [by vm_compute..|].
  exists r, s', k. split; [exact Hr|]. destruct Hk as [[_ ->]|(_ & Hk & _)]; simpl in *; lia.
Defined.

Lemma copyin_correct_witness : ∃ r b s', copyin demo_root 4094 4 demo = Ok (r, b) s'.
Proof.
  destruct (copyin_correct demo demo_root (empty_as demo_root) demo_pages 8192 4094 4
              demo_uvm demo_cur) as (r & b & s' & _ & _ & Hr & _); [by vm_compute..|].
  by exists r, b, s'.
Defined.

End Witnesses.
