(* ===== verification/Space.v ===== *)
(** * Growing, shrinking, copying and freeing user memory

    [uvmunmap], [uvmdealloc], [uvmalloc], [uvmcopy] and [uvmfree] on the
    represented address spaces of [Uvm.v]: what the process sees afterwards,
    also when memory runs out, and that no page is lost or shared: every page
    that belonged to the address space or to the free list still belongs to
    exactly one of them. *)

From Stdlib Require Import ZArith Lia.
From S2P Require Import Prelude Params CString State Kalloc Process Vm VmRep VmMap Uvm.
From stdpp Require Import base gmap strings numbers list.

Open Scope Z_scope.

(** The pages of an address space: tables and frames of user memory. *)
Definition as_page (T : aspace) (p : Z) : Prop := is_table T p ∨ frame T p.
(** ... and those of the allocator. *)
Definition own (T : aspace) (fl : list Z) (p : Z) : Prop := as_page T p ∨ p ∈ fl.

Definition without (T : aspace) (v : Z) : aspace := T <| leaf ::= delete v |>.

Fixpoint without_range (n : nat) (v : Z) (T : aspace) : aspace :=
  match n with
  | O => T
  | S n' => without_range n' (v + 1) (without T v)
  end.

Lemma lookup_without_range n v T w :
  leaf (without_range n v T) !! w = if decide (v ≤ w < v + Z.of_nat n) then None else leaf T !! w.
Proof.
  revert v T. induction n as [|n IH]; intros v T; cbn [without_range]; [by rewrite decide_False by lia|].
  rewrite IH. unfold without. rsimpl. destruct (decide (w = v)) as [->|Hne].
  - rewrite decide_False, decide_True by lia. apply lookup_delete_eq.
  - rewrite lookup_delete_ne by done. destruct (decide (v + 1 ≤ w < v + 1 + Z.of_nat n)); [by rewrite decide_True by lia|].
    by rewrite decide_False by lia.
Qed.

Lemma tabs_without_range n v T : tabs (without_range n v T) = tabs T.
Proof. revert v T. induction n as [|n IH]; intros v T; cbn [without_range]; [done|]. rewrite IH. unfold without. by rsimpl. Qed.

Lemma frame_without_range n v T p : frame (without_range n v T) p → frame T p.
Proof.
  intros (w & e & He & Hw). rewrite lookup_without_range in He. destruct (decide _); [done|]. by exists w, e.
Qed.

Lemma uvpn_lt va : va / 4096 < UVPN ↔ va < TRAPFRAME.
Proof.
  change UVPN with 67108862. change TRAPFRAME with (67108862 * 4096).
  pose proof (Z.div_mod va 4096). pose proof (Z.mod_pos_bound va 4096). lia.
Qed.

Section Space.
Context `{Layout, !LayoutOk}.

(** From [s] to [s'] pages only moved between the address space and the free
    list, and no other page changed. *)
Record uvm_move (s : kst) (T : aspace) (fl : list Z) (s' : kst) (T' : aspace) (fl' : list Z) : Prop := {
  um_frame : s' = s <| ram := ram s' |> <| freelist := freelist s' |>;
  um_own : ∀ p, own T' fl' p ↔ own T fl p;
  um_mem : ∀ p, p mod PGSIZE = 0 → ¬ own T fl p → same_page (ram s) (ram s') p
}.

Lemma uvm_move_refl s T fl : uvm_move s T fl s T fl.
Proof. split; [kst_eq s|done|done]. Qed.

Lemma uvm_move_trans s T fl s1 T1 fl1 s2 T2 fl2 :
  uvm_move s T fl s1 T1 fl1 → uvm_move s1 T1 fl1 s2 T2 fl2 → uvm_move s T fl s2 T2 fl2.
Proof.
  intros [Hf1 Ho1 Hm1] [Hf2 Ho2 Hm2]. split.
  - rewrite Hf2, Hf1. rsimpl. kst_eq s.
  - intros p. by rewrite Ho2.
  - intros p Hp Hn. eapply same_page_trans; [by apply Hm1|]. apply Hm2; [done|]. by rewrite Ho1.
Qed.

(** The tables of [T] grew by pages of the free list. *)
Lemma vm_step_move s root T fl s' T' fl' :
  uvm_wf s root T fl → vm_step s T fl s' T' fl' → leaf T' = leaf T → uvm_move s T fl s' T' fl'.
Proof.
  intros Hw [Hf Ht (used & -> & Hu) Hm] Hl. split; [done| |].
  - intros p. unfold own, as_page. rewrite (frame_leaf T T'), Hu, elem_of_app by done. tauto.
  - intros p Hp Hn. apply Hm; [done|]. rewrite Hu. unfold own, as_page in Hn. set_solver.
Qed.

Lemma own_page s root T fl p : uvm_wf s root T fl → own T fl p → page_ok p.
Proof.
  intros [[Hk HT _ _] Hf _ _] [[Ht|Hfr]|Hin].
  - by apply (pr_page _ _ _ HT).
  - by apply Hf.
  - by apply (proj1 (Forall_forall _ _) (kw_pages _ _ Hk)).
Qed.

Lemma uvm_wf_eq s s' root T fl :
  ram s' = ram s → freelist s' = freelist s → held s' = held s → uvm_wf s root T fl → uvm_wf s' root T fl.
Proof. intros Er Ef Eh Hw. eapply uvm_wf_ext; [exact Hw|done|done|]. rewrite Eh. apply Hw. Qed.

Lemma frame_without T v e p :
  leaf T !! v = Some e → v < UVPN → frame T p ↔ frame (without T v) p ∨ p = PTE2PA e.
Proof.
  intros Hl Hv. unfold frame, without. split.
  - intros (w & f & Hw & Hlt & <-). destruct (decide (w = v)) as [->|Hne]; [right; congruence|left].
    exists w, f. rsimpl. by rewrite lookup_delete_ne.
  - intros [(w & f & Hw & Hlt & <-)| ->]; [|by exists v, e]. revert Hw. rsimpl. intros [_ Hw]%lookup_delete_Some. by exists w, f.
Qed.

Lemma frame_without_ne s root T fl v e p :
  uvm_wf s root T fl → leaf T !! v = Some e → v < UVPN → frame (without T v) p → p ≠ PTE2PA e.
Proof.
  intros Hw Hl Hv (w & f & Hf & Hlt & <-) Heq. revert Hf. unfold without. rsimpl. intros [Hne Hf]%lookup_delete_Some.
  apply Hne. symmetry. by eapply (uv_inj _ _ _ _ Hw).
Qed.

Lemma without_id T v : leaf T !! v = None → without T v = T.
Proof.
  intros Hn. destruct T as [tb lf]. cbn in Hn. unfold without.
  with_strategy transparent [setf] change (mkAs tb (delete v lf) = mkAs tb lf). by rewrite delete_id.
Qed.

(** ** Unmapping *)

(** Freeing a frame that is still mapped: the tables are intact. *)
Lemma kfree_vm s root T fl p :
  vm_state s root T fl → page_ok p → p ∉ fl → ¬ is_table T p →
  ∃ s', kfree p s = Ok tt s' ∧ vm_state s' root T (p :: fl) ∧
    s' = s <| ram := ram s' |> <| freelist := freelist s' |> ∧
    (∀ q, q mod PGSIZE = 0 → q ≠ p → same_page (ram s) (ram s') q).
Proof.
  intros [Hk HT Hd Hlk] Hp Hnin Hnt. eexists. split; [by eapply kfree_ok|].
  assert (∀ q, q mod PGSIZE = 0 → q ≠ p →
    same_page (ram s) (store64 (memset (ram s) p 1 PGSIZE) p (freelist s)) q) as Hsame.
  { intros q Hq Hne b Hb. symmetry. destruct Hp as (Hpm & _).
    destruct (pages_disjoint p q Hpm Hq ltac:(congruence)); apply kfree_frame; lia. }
  split_and!; [split| |by rsimpl]; rsimpl.
  - by apply kfree_wf.
  - eapply pt_rep_frame; [exact HT|]. intros a Ha. apply Hsame; [|congruence]. by destruct (pr_page _ _ _ HT _ Ha).
  - intros a Ha Hin. apply elem_of_cons in Hin as [->|Hin]; [done|]. by apply (Hd a).
  - done.
  - kst_eq s.
Qed.

Lemma set_leaf_0 T va : set_leaf T va 0 = without T (va / 4096).
Proof.
  unfold set_leaf, without. rewrite has_0. destruct T. with_strategy transparent [setf] reflexivity.
Qed.

Lemma uvm_wf_without s root T fl s' v e :
  uvm_wf s root T fl → leaf T !! v = Some e → v < UVPN → vm_state s' root (without T v) (PTE2PA e :: fl) →
  uvm_wf s' root (without T v) (PTE2PA e :: fl).
Proof.
  intros Hw He Hv Hvm. split; [done|..].
  - intros p Hp. pose proof (frame_without_ne _ _ _ _ _ _ _ Hw He Hv Hp).
    destruct (uv_frame _ _ _ _ Hw p) as (? & ? & ?); [apply (frame_without _ _ _ _ He Hv); by left|].
    split_and!; [done|done|]. rewrite elem_of_cons. tauto.
  - unfold without. rsimpl. intros w w' f f' [_ Hf]%lookup_delete_Some [_ Hf']%lookup_delete_Some. by apply (uv_inj _ _ _ _ Hw).
  - unfold without. rsimpl. intros w f [_ Hf]%lookup_delete_Some. by apply (uv_user _ _ _ _ Hw).
Qed.

Definition unmap_page (pagetable a : Z) : KM unit :=
  pte <- walk pagetable a false ;;
  when negb (pte =? 0) do
    (e <- ld64 pte ;;
     when has e PTE_V do (kfree (PTE2PA e) ;;; st64 pte 0)).

(** One page is unmapped and its frame freed. *)
Lemma unmap_page_ok s root T fl va :
  uvm_wf s root T fl → 0 ≤ va → va / 4096 < UVPN →
  ∃ s' fl', unmap_page root va s = Ok tt s' ∧ uvm_wf s' root (without T (va / 4096)) fl' ∧
    uvm_move s T fl s' (without T (va / 4096)) fl' ∧
    (∀ q, frame (without T (va / 4096)) q → same_page (ram s) (ram s') q).
Proof.
  intros Hw Hva Hv. assert (va < MAXVA) as Hmax by (apply uvpn_lt in Hv; assert (TRAPFRAME < MAXVA) by done; lia).
  pose proof (vm_rep _ _ _ _ (uv_vm _ _ _ _ Hw)) as HT. unfold unmap_page. erewrite bind_ok by (by apply walk_noalloc).
  assert (leaf T !! (va / 4096) = None → ∀ s', s' = s → ∃ s'' fl', Ok tt s' = Ok tt s'' ∧ uvm_wf s'' root (without T (va / 4096)) fl' ∧
    uvm_move s T fl s'' (without T (va / 4096)) fl' ∧ (∀ q, frame (without T (va / 4096)) q → same_page (ram s) (ram s'') q)) as Hnop.
  { intros Hn s' ->. exists s, fl. rewrite (without_id _ _ Hn).
    split_and!; try done. apply uvm_move_refl. }
  destruct (tabs T !! (0, idx 1 va)) as [b|] eqn:Eb.
  - destruct (leaf_addr_Some _ _ _ _ _ HT Eb) as (Hla & Hnz & Hph & Hlk). rewrite (proj2 (Z.eqb_neq _ _)) by done. cbn [negb].
    erewrite bind_ok by (by apply ld64_ok). cbv zeta in Hlk. destruct (has _ PTE_V) eqn:Ev; [|by apply Hnop].
    set (e := load64 (ram s) (leaf_addr T va)) in *. assert (frame T (PTE2PA e)) as Hfr by (by exists (va / 4096), e).
    destruct (uv_frame _ _ _ _ Hw _ Hfr) as (Hpp & Hnt & Hnl).
    destruct (kfree_vm s root T fl (PTE2PA e) (uv_vm _ _ _ _ Hw) Hpp Hnl Hnt) as (s1 & E1 & Hv1 & Hs1 & Hsame1).
    erewrite bind_ok by exact E1. rewrite Hla.
    destruct (store_leaf s1 root T (PTE2PA e :: fl) va b 0 Hv1 Eb ltac:(done)) as (s2 & E2 & Hv2 & Hst2). rewrite set_leaf_0 in Hv2, Hst2.
    exists s2, (PTE2PA e :: fl). split; [done|]. split; [by apply (uvm_wf_without s root T fl)|].
    assert (∀ q, q mod PGSIZE = 0 → q ≠ PTE2PA e → ¬ is_table T q → same_page (ram s) (ram s2) q) as Hsame.
    { intros q Hq Hne Hntq. eapply same_page_trans; [by apply Hsame1|]. by apply (vs_mem _ _ _ _ _ _ Hst2). }
    split; [split|].
    + rewrite (vs_frame _ _ _ _ _ _ Hst2), Hs1. rsimpl. kst_eq s.
    + intros p. unfold own, as_page. rewrite (frame_without T _ e p) by done. rewrite elem_of_cons. unfold is_table, without. rsimpl. tauto.
    + intros p Hp Hn. apply Hsame; [done|intros ->; apply Hn; left; by right|]. intros Ht. apply Hn. left. by left.
    + intros q Hq. pose proof (frame_without_ne _ _ _ _ _ _ _ Hw Hlk Hv Hq) as Hne.
      assert (frame T q) as Hq' by (apply (frame_without _ _ _ _ Hlk Hv); by left).
      destruct (uv_frame _ _ _ _ Hw q Hq') as ((? & _) & ? & _). by apply Hsame.
  - destruct (leaf_addr_None _ _ _ _ HT Eb) as [-> Hn]. by apply Hnop.
Qed.

Lemma uvmunmap_loop_S n root a stop s s1 :
  a < stop → unmap_page root a s = Ok tt s1 →
  uvmunmap_loop (S n) root a stop true s = uvmunmap_loop n root (u64 (a + PGSIZE)) stop true s1.
Proof.
  intros Ha (pte & s2 & E & E2)%bind_inv_ok. cbn [uvmunmap_loop]. rewrite (proj2 (Z.ltb_lt _ _) Ha). erewrite bind_ok by exact E.
  by erewrite bind_ok by exact E2.
Qed.

Lemma uvmunmap_loop_ok n s root T fl a :
  uvm_wf s root T fl → 0 ≤ a → a mod 4096 = 0 → a + Z.of_nat n * PGSIZE ≤ TRAPFRAME →
  ∃ s' fl', uvmunmap_loop n root a (a + Z.of_nat n * PGSIZE) true s = Ok tt s' ∧
    uvm_wf s' root (without_range n (a / 4096) T) fl' ∧ uvm_move s T fl s' (without_range n (a / 4096) T) fl' ∧
    (∀ q, frame (without_range n (a / 4096) T) q → same_page (ram s) (ram s') q).
Proof.
  revert s T fl a. induction n as [|n IH]; intros s T fl a Hw Ha Hal Hmax.
  - exists s, fl. cbn [uvmunmap_loop without_range]. rewrite (proj2 (Z.ltb_ge _ _)) by lia. split_and!; try done. apply uvm_move_refl.
  - assert (a / 4096 < UVPN) as Hv by (apply uvpn_lt; unfold PGSIZE in *; lia).
    destruct (unmap_page_ok s root T fl a Hw Ha Hv) as (s1 & fl1 & E1 & Hw1 & Hm1 & Hf1).
    rewrite (uvmunmap_loop_S _ _ _ _ _ s1) by (done || unfold PGSIZE; lia). assert (TRAPFRAME < 2 ^ 64) by done. rewrite u64_small by (unfold PGSIZE in *; lia).
    destruct (IH s1 (without T (a / 4096)) fl1 (a + PGSIZE) Hw1) as (s2 & fl2 & E2 & Hw2 & Hm2 & Hf2);
      [unfold PGSIZE; lia|unfold PGSIZE; rewrite Z.add_mod, Hal by lia; done|unfold PGSIZE in *; lia|].
    rewrite vpn_next in *. exists s2, fl2. cbn [without_range]. split_and!; try done.
    + rewrite <- E2. f_equal. unfold PGSIZE. lia.
    + by eapply uvm_move_trans.
    + intros q Hq. eapply same_page_trans; [apply Hf1; by eapply frame_without_range|by apply Hf2].
Qed.

(** [uvmunmap] of a whole range of pages below the trapframe. *)
Lemma uvmunmap_ok s root T fl va npages :
  uvm_wf s root T fl → 0 ≤ va → va mod 4096 = 0 → 0 ≤ npages → va + npages * PGSIZE ≤ TRAPFRAME →
  ∃ s' fl', uvmunmap root va npages true s = Ok tt s' ∧
    uvm_wf s' root (without_range (Z.to_nat npages) (va / 4096) T) fl' ∧
    uvm_move s T fl s' (without_range (Z.to_nat npages) (va / 4096) T) fl' ∧
    (∀ q, frame (without_range (Z.to_nat npages) (va / 4096) T) q → same_page (ram s) (ram s') q).
Proof.
  intros Hw Hva Hal Hn Hmax. unfold uvmunmap. change PGSIZE with 4096 at 1. rewrite Hal. cbn [Z.eqb negb].
  assert (TRAPFRAME < 2 ^ 64) by done. rewrite u64_small by (unfold PGSIZE in *; lia).
  destruct (uvmunmap_loop_ok (Z.to_nat npages) s root T fl va Hw Hva Hal) as (s' & fl' & E & ?); [by rewrite Z2Nat.id|].
  rewrite Z2Nat.id in E by done. by exists s', fl'.
Qed.

(** ** Shrinking *)

(** The pages of a process of size [sz]. *)
Definition npages (sz : Z) : Z := PGROUNDUP sz / 4096.

Lemma PGROUNDUP_pages sz : 0 ≤ sz → sz ≤ TRAPFRAME → PGROUNDUP sz = npages sz * 4096 ∧ sz ≤ npages sz * 4096 < sz + 4096 ∧ npages sz ≤ UVPN.
Proof.
  intros Hs0 Hs1. unfold npages. change TRAPFRAME with (67108862 * 4096) in Hs1. rewrite PGROUNDUP_eq by lia. rewrite Z.div_mul by lia.
  change UVPN with 67108862. pose proof (Z.div_mod (sz + 4095) 4096). pose proof (Z.mod_pos_bound (sz + 4095) 4096). lia.
Qed.

Lemma uvmdealloc_ok s root T fl oldsz newsz :
  uvm_wf s root T fl → 0 ≤ newsz ≤ oldsz → oldsz ≤ TRAPFRAME →
  ∃ s' T' fl', uvmdealloc root oldsz newsz s = Ok newsz s' ∧ uvm_wf s' root T' fl' ∧ uvm_move s T fl s' T' fl' ∧
    tabs T' = tabs T ∧ (∀ w, leaf T' !! w = if decide (npages newsz ≤ w < npages oldsz) then None else leaf T !! w) ∧
    (∀ q, frame T' q → same_page (ram s) (ram s') q).
Proof.
  intros Hw Hnew Hold. unfold uvmdealloc.
  destruct (PGROUNDUP_pages newsz) as (En & Hn1 & Hn2); [lia..|]. destruct (PGROUNDUP_pages oldsz) as (Eo & Ho1 & Ho2); [lia..|].
  assert (npages newsz ≤ npages oldsz) as Hle by lia.
  assert (∀ s', s' = s → npages newsz = npages oldsz → ∃ s'' T' fl', Ok newsz s' = Ok newsz s'' ∧ uvm_wf s'' root T' fl' ∧ uvm_move s T fl s'' T' fl' ∧
    tabs T' = tabs T ∧ (∀ w, leaf T' !! w = if decide (npages newsz ≤ w < npages oldsz) then None else leaf T !! w) ∧
    (∀ q, frame T' q → same_page (ram s) (ram s'') q)) as Hnop.
  { intros s' -> E. exists s, T, fl. split_and!; try done; [apply uvm_move_refl|]. intros w. by rewrite decide_False by lia. }
  destruct (Z.geb_spec newsz oldsz); [assert (newsz = oldsz) as <- by lia; by apply Hnop|].
  rewrite En, Eo. destruct (Z.ltb_spec (npages newsz * 4096) (npages oldsz * 4096)); [|apply Hnop; [done|lia]].
  replace ((npages oldsz * 4096 - npages newsz * 4096) / PGSIZE) with (npages oldsz - npages newsz)
    by (unfold PGSIZE; rewrite <- Z.mul_sub_distr_r, Z.div_mul; lia).
  change UVPN with 67108862 in *. rewrite s32_small, u64_small by lia.
  destruct (uvmunmap_ok s root T fl (npages newsz * 4096) (npages oldsz - npages newsz) Hw) as (s' & fl' & E & Hw' & Hm & Hf);
    [lia|by rewrite Z.mod_mul|lia|change TRAPFRAME with (67108862 * 4096); unfold PGSIZE; lia|].
  rewrite Z.div_mul in * by lia. erewrite bind_ok by exact E. eexists _, _, fl'. split; [reflexivity|]. split; [exact Hw'|].
  split; [done|]. split; [apply tabs_without_range|]. split; [|done].
  intros w. rewrite lookup_without_range, Z2Nat.id by lia. by replace (npages newsz + (npages oldsz - npages newsz)) with (npages oldsz) by lia.
Qed.

(** ** Mapping a page that was just allocated *)

(** [p] belongs to nobody. *)
Record fresh (s : kst) (root : Z) (T : aspace) (fl : list Z) (p : Z) : Prop := {
  fr_wf : uvm_wf s root T fl;
  fr_page : page_ok p;
  fr_own : ¬ own T fl p
}.

(** [kalloc] takes the first free page. *)
Lemma kalloc_fresh s root T p fl :
  uvm_wf s root T (p :: fl) →
  ∃ s1, kalloc s = Ok p s1 ∧ fresh s1 root T fl p ∧ s1 = s <| ram := ram s1 |> <| freelist := freelist s1 |> ∧
    (∀ q, q mod PGSIZE = 0 → q ≠ p → same_page (ram s) (ram s1) q).
Proof.
  intros Hw. pose proof Hw as [[Hk HT Hd Hlk] Hf Hi Hu]. pose proof (kalloc_wf _ _ _ Hk) as Hk1.
  pose proof (kw_nodup _ _ Hk) as [Hnin _]%NoDup_cons. assert (page_ok p) as Hpp by (apply (own_page s root T (p :: fl)); [done|right; left]).
  pose proof Hpp as (Hpm & _). eexists. split; [by apply (kalloc_cons s p fl)|].
  assert (∀ q, q mod PGSIZE = 0 → q ≠ p → same_page (ram s) (memset (ram s) p 5 PGSIZE) q) as Hsame by (intros q Hq Hne; apply same_page_memset; congruence).
  split; [|split; [rsimpl; kst_eq s|by rsimpl]]. split; [split; [split|..]|exact Hpp|]; rsimpl.
  - exact Hk1.
  - eapply pt_rep_frame; [exact HT|]. intros a Ha. apply Hsame; [by destruct (pr_page _ _ _ HT _ Ha)|]. intros ->. apply (Hd p Ha). left.
  - intros a Ha Hin. apply (Hd a Ha). by right.
  - exact Hlk.
  - intros q Hq. destruct (Hf q Hq) as (? & ? & ?). set_solver.
  - exact Hi.
  - exact Hu.
  - intros [[Ht|Hfr]|?]; [apply (Hd p Ht); left|destruct (Hf p Hfr) as (_ & _ & Hn); apply Hn; left|done].
Qed.

(** Writing to a page that belongs to nobody. *)
Lemma fresh_write s root T fl p m :
  fresh s root T fl p → (∀ q, q mod PGSIZE = 0 → q ≠ p → same_page (ram s) m q) → fresh (s <| ram := m |>) root T fl p.
Proof.
  intros [[[Hk HT Hd Hlk] Hf Hi Hu] Hp Hn] Hsame. split; [split; [split|..]|done|done]; rsimpl; try done.
  - eapply kmem_wf_frame; [exact Hk|by rsimpl|]. intros q Hq. rsimpl. apply Hsame; [|intros ->; apply Hn; by right].
    by destruct (proj1 (Forall_forall _ _) (kw_pages _ _ Hk) q Hq).
  - eapply pt_rep_frame; [exact HT|]. intros a Ha. apply Hsame; [by destruct (pr_page _ _ _ HT _ Ha)|]. intros ->. apply Hn. left. by left.
Qed.

(** [mappages] of one such page, and giving the page back if there is no memory
    for the tables. *)
Lemma map_fresh s root T fl p v perm :
  fresh s root T fl p → leaf T !! v = None → 0 ≤ v < UVPN → 0 ≤ perm < 1024 →
  ∃ r s' T' fl', mappages root (v * 4096) PGSIZE p perm s = Ok r s' ∧ vm_step s T fl s' T' fl' ∧ ¬ is_table T' p ∧
    ((r = 0 ∧ leaf T' = <[v := pte_of p perm]> (leaf T) ∧ uvm_wf s' root T' fl') ∨
     (r = -1 ∧ leaf T' = leaf T ∧ fl' = [] ∧ uvm_wf s' root T' [])).
Proof.
  intros [Hw Hp Hn] Hnone Hv Hperm. pose proof (page_ok_bound _ Hp) as [Hpb _]. change UVPN with 67108862 in Hv.
  destruct (mappages_ok s root T fl (v * 4096) PGSIZE p perm (uv_vm _ _ _ _ Hw)) as (r & s' & T' & fl' & k & E & Hv' & Hst & Hl & _ & Hc);
    try (unfold PGSIZE; change MAXVA with (2 ^ 38); lia).
  { by rewrite Z.mod_mul. }
  { done. }
  { intros w. rewrite vpn_next, Z.div_mul by lia. intros Hw'. by replace w with v by lia. }
  rewrite Z.div_mul in Hl by lia. change (PGSIZE / PGSIZE) with 1 in Hc.
  destruct (vs_used _ _ _ _ _ _ Hst) as (used & Hfl & Ht).
  exists r, s', T', fl'. split; [done|]. split; [done|]. split.
  { rewrite Ht. intros [?|Hin]; apply Hn; [by left; left|right]. rewrite Hfl. apply elem_of_app. by left. }
  destruct Hc as [[-> Hk]|(-> & Hk & ->)].
  - left. assert (k = 1%nat) as -> by lia. cbn [map_pages] in Hl. split; [done|]. split; [done|].
    apply (uvm_wf_add s root T fl _ _ _ v p perm used); try done; [by intros ?; apply Hn; left; left|by intros ?; apply Hn; left; right|].
    intros Hin. apply Hn. by right.
  - right. assert (k = 0%nat) as -> by lia. cbn [map_pages] in Hl. split_and!; try done. by apply (uvm_wf_tables s root T fl).
Qed.

(** The frames of [T] keep their contents. *)
Definition kept (T : aspace) (s s' : kst) : Prop := ∀ q, frame T q → same_page (ram s) (ram s') q.

Lemma kept_trans T T1 s s1 s2 : (∀ q, frame T q → frame T1 q) → kept T s s1 → kept T1 s1 s2 → kept T s s2.
Proof. intros Hf H1 H2 q Hq. eapply same_page_trans; [by apply H1|by apply H2, Hf]. Qed.

(** A page taken off the free list, filled and mapped; or given back. *)
Lemma add_page_ok s s1 root T p fl v perm :
  uvm_wf s root T (p :: fl) → fresh s1 root T fl p → s1 = s <| ram := ram s1 |> <| freelist := freelist s1 |> →
  (∀ q, q mod PGSIZE = 0 → q ≠ p → same_page (ram s) (ram s1) q) →
  leaf T !! v = None → 0 ≤ v < UVPN → 0 ≤ perm < 1024 →
  ∃ r s2 T2 fl2, mappages root (v * 4096) PGSIZE p perm s1 = Ok r s2 ∧
    ((r = 0 ∧ uvm_wf s2 root T2 fl2 ∧ uvm_move s T (p :: fl) s2 T2 fl2 ∧ leaf T2 = <[v := pte_of p perm]> (leaf T) ∧
        kept T s s2 ∧ same_page (ram s1) (ram s2) p) ∨
     (r = -1 ∧ ∃ s3, kfree p s2 = Ok tt s3 ∧ uvm_wf s3 root T2 [p] ∧ uvm_move s T (p :: fl) s3 T2 [p] ∧ leaf T2 = leaf T ∧ kept T s s3)).
Proof.
  intros Hw Hfr Hs1 Hsame Hnone Hv Hperm. pose proof Hfr as [Hw1 Hp Hn].
  destruct (map_fresh s1 root T fl p v perm Hfr Hnone Hv Hperm) as (r & s2 & T2 & fl2 & E & Hst & Hnt & Hc).
  destruct (vs_used _ _ _ _ _ _ Hst) as (used & Hfl & Ht). exists r, s2, T2, fl2. split; [done|].
  assert (∀ q, q mod PGSIZE = 0 → ¬ own T (p :: fl) q → same_page (ram s) (ram s2) q) as Hother.
  { intros q Hq Hno. eapply same_page_trans; [apply Hsame; [done|]|apply (vs_mem _ _ _ _ _ _ Hst); [done|]].
    - intros ->. apply Hno. right. left.
    - rewrite Ht. unfold own, as_page in Hno. set_solver. }
  assert (kept T s s2) as Hk.
  { intros q Hq. eapply same_page_trans; [apply Hsame|by eapply frames_kept].
    - by eapply frame_aligned.
    - intros ->. apply Hn. left. by right. }
  assert (s2 = s <| ram := ram s2 |> <| freelist := freelist s2 |>) as Hs2.
  { rewrite (vs_frame _ _ _ _ _ _ Hst), Hs1. rsimpl. kst_eq s. }
  destruct Hc as [(-> & Hl & Hw2)|(-> & Hl & -> & Hw2)]; [left|right]; (split; [done|]).
  - split; [done|]. split; [split; [done| |done]|].
    + intros q. unfold own, as_page. rewrite Ht, Hfl. rewrite (frame_without T2 v (pte_of p perm) q) by (lia || by rewrite Hl, lookup_insert_eq).
      rewrite pte_of_pa by done. rewrite (frame_leaf T (without T2 v)), elem_of_cons, elem_of_app; [tauto|].
      unfold without. rsimpl. rewrite Hl. by apply delete_insert_id.
    + split; [done|]. split; [done|]. apply (vs_mem _ _ _ _ _ _ Hst); [apply Hp|done].
  - destruct (uvm_kfree s2 root T2 [] p Hw2 Hp) as (s3 & E3 & Hw3 & Hs3 & Hsame3); [set_solver|done| |].
    { rewrite (frame_leaf T T2) by done. intros Hf. apply Hn. left. by right. }
    exists s3. split; [done|]. split; [done|]. rewrite app_nil_r in Hfl. split; [split|split; [done|]].
    + rewrite Hs3, Hs2. rsimpl. kst_eq s.
    + intros q. unfold own, as_page. rewrite Ht, Hfl, (frame_leaf T T2), !elem_of_cons, elem_of_nil by done. tauto.
    + intros q Hq Hno. eapply same_page_trans; [by apply Hother|]. apply Hsame3; [done|]. intros ->. apply Hno. right. left.
    + intros q Hq. eapply same_page_trans; [by apply Hk|]. apply Hsame3; [exact (frame_aligned _ _ _ _ _ Hw Hq)|]. intros ->. apply Hn. left. by right.
Qed.

(** ** Growing *)

Lemma npages_mul k : 0 ≤ k ≤ UVPN → npages (k * 4096) = k.
Proof.
  intros Hk. change UVPN with 67108862 in Hk.
  destruct (PGROUNDUP_pages (k * 4096)) as (_ & ? & _); [lia|change TRAPFRAME with (67108862 * 4096); lia|lia].
Qed.

Lemma frame_sub T T' q : (∀ w e, leaf T' !! w = Some e → leaf T !! w = Some e) → frame T' q → frame T q.
Proof. intros Hl (w & e & He & Hw). exists w, e. auto. Qed.

Lemma frame_at T v p perm : leaf T !! v = Some (pte_of p perm) → v < UVPN → page_ok p → 0 ≤ perm < 1024 → frame T p.
Proof. intros He Hv Hp Hperm. exists v, (pte_of p perm). split_and!; [done|done|]. by apply pte_of_pa. Qed.

(** The pages from [lo] up to [hi] are mapped to frames of zeros. *)
Definition zero_mapped (m : memory) (T : aspace) (lo hi perm : Z) : Prop :=
  ∀ w, lo ≤ w < hi → ∃ p, page_ok p ∧ leaf T !! w = Some (pte_of p perm) ∧ zero_page m p.

(** What [uvmalloc] does from page [v] on, having started at page [o]. *)
Definition alloc_res (s : kst) (root : Z) (T : aspace) (fl : list Z) (o v newsz perm : Z) (x : res kst Z) : Prop :=
  ∃ r s' T' fl', x = Ok r s' ∧ uvm_wf s' root T' fl' ∧ uvm_move s T fl s' T' fl' ∧
    ((r = newsz ∧ (∀ w, ¬ (v ≤ w < npages newsz) → leaf T' !! w = leaf T !! w) ∧
        zero_mapped (ram s') T' v (npages newsz) perm ∧ kept T s s') ∨
     (r = 0 ∧ (∀ w, leaf T' !! w = if decide (o ≤ w < npages newsz) then None else leaf T !! w) ∧ kept T' s s')).

(** Running out of memory undoes what was done. *)
Lemma alloc_undo s root T fl s1 T1 fl1 o v newsz perm :
  uvm_wf s1 root T1 fl1 → uvm_move s T fl s1 T1 fl1 → leaf T1 = leaf T → kept T s s1 →
  0 ≤ o ≤ v → v < npages newsz → npages newsz ≤ UVPN → (∀ w, v ≤ w < npages newsz → leaf T !! w = None) →
  alloc_res s root T fl o v newsz perm ((uvmdealloc root (v * 4096) (o * 4096) ;;; ret 0) s1).
Proof.
  intros Hw1 Hm1 Hl1 Hk1 Ho Hv Hmax Hnone.
  destruct (uvmdealloc_ok s1 root T1 fl1 (v * 4096) (o * 4096) Hw1) as (s2 & T2 & fl2 & E & Hw2 & Hm2 & _ & Hl2 & Hk2);
    [lia|change TRAPFRAME with (67108862 * 4096); change UVPN with 67108862 in Hmax; lia|].
  erewrite bind_ok by exact E. rewrite !npages_mul in Hl2 by lia. exists 0, s2, T2, fl2. split; [done|]. split; [done|].
  split; [by eapply uvm_move_trans|]. right. split; [done|]. split.
  - intros w. rewrite Hl2, Hl1. destruct (decide (o ≤ w < v)); [by rewrite decide_True by lia|].
    destruct (decide (o ≤ w < npages newsz)); [|done]. apply Hnone. lia.
  - intros q Hq. eapply same_page_trans; [apply Hk1|by apply Hk2]. apply (frame_sub T T2); [|done].
    intros w e. rewrite Hl2, Hl1. by destruct (decide _).
Qed.

Lemma uvmalloc_loop_ok n s root T fl o v newsz xperm :
  let perm := Z.lor (Z.lor PTE_R PTE_U) xperm in
  uvm_wf s root T fl → 0 ≤ o ≤ v → 0 ≤ newsz ≤ TRAPFRAME → v ≤ npages newsz → npages newsz - v ≤ Z.of_nat n → 0 ≤ perm < 1024 →
  (∀ w, v ≤ w < npages newsz → leaf T !! w = None) →
  alloc_res s root T fl o v newsz perm (uvmalloc_loop n root (v * 4096) (o * 4096) newsz xperm s).
Proof.
  intros perm. revert s T fl v. induction n as [|n IH]; intros s T fl v Hw Ho Hsz Hv Hn Hperm Hnone;
    destruct (PGROUNDUP_pages newsz) as (_ & Hr & Hmax); try lia; cbn [uvmalloc_loop].
  { rewrite (proj2 (Z.ltb_ge _ _)) by lia. exists newsz, s, T, fl. split_and!; try done; [apply uvm_move_refl|].
    left. split_and!; try done. intros w Hw'. lia. }
  destruct (Z.ltb_spec (v * 4096) newsz) as [Hlt|Hge]; cycle 1.
  { exists newsz, s, T, fl. split_and!; try done; [apply uvm_move_refl|]. left. split_and!; try done. intros w Hw'. lia. }
  assert (v < npages newsz) as Hv' by lia. destruct fl as [|p fl].
  { erewrite bind_ok by (apply kalloc_empty; apply Hw). cbn [Z.eqb].
    apply (alloc_undo s root T [] s T []); try done. apply uvm_move_refl. }
  destruct (kalloc_fresh s root T p fl Hw) as (s1 & E1 & Hfr & Hs1 & Hsame). erewrite bind_ok by exact E1.
  pose proof (fr_page _ _ _ _ _ Hfr) as Hp. rewrite (proj2 (Z.eqb_neq _ _)) by (by apply page_ok_nonzero).
  erewrite bind_ok by (apply kmemset_ok, page_ok_phys0; [done|lia]).
  assert (∀ q, q mod PGSIZE = 0 → q ≠ p → same_page (ram s1) (memset (ram s1) p 0 PGSIZE) q) as Hms.
  { intros q Hq Hne. apply same_page_memset; [apply Hp|done|congruence]. }
  pose proof (fresh_write _ _ _ _ _ _ Hfr Hms) as Hfr2.
  destruct (add_page_ok s (s1 <| ram := memset (ram s1) p 0 PGSIZE |>) root T p fl v perm Hw Hfr2) as (r & s2 & T2 & fl2 & E2 & Hc);
    [rsimpl; rewrite Hs1; kst_eq s| |apply Hnone; lia|lia|done|].
  { intros q Hq Hne. rsimpl. eapply same_page_trans; [by apply Hsame|by apply Hms]. }
  fold perm. erewrite bind_ok by exact E2. destruct Hc as [(-> & Hw2 & Hm2 & Hl2 & Hk2 & Hp2)|(-> & s3 & E3 & Hw3 & Hm3 & Hl3 & Hk3)]; cbn [Z.eqb negb].
  - change UVPN with 67108862 in Hmax. rewrite u64_small by (unfold PGSIZE; lia).
    replace (v * 4096 + PGSIZE) with ((v + 1) * 4096) by (unfold PGSIZE; lia).
    assert (∀ w, w ≠ v → leaf T2 !! w = leaf T !! w) as Hlne by (intros w Hne; rewrite Hl2; by apply lookup_insert_ne).
    assert (∀ q, frame T q → frame T2 q) as Hf2.
    { intros q. apply frame_sub. intros w e He. rewrite Hlne; [done|]. intros ->. rewrite Hnone in He by lia. done. }
    destruct (IH s2 T2 fl2 (v + 1)) as (r & s' & T' & fl' & E & Hw' & Hm' & Hc); try done; try lia.
    { intros w Hw'. rewrite Hlne by lia. apply Hnone. lia. }
    exists r, s', T', fl'. split; [done|]. split; [done|]. split; [by eapply uvm_move_trans|].
    destruct Hc as [(-> & Hl' & Hz & Hk')|(-> & Hl' & Hk')]; [left|right]; (split; [done|]).
    + split_and!; [intros w Hw''; rewrite Hl' by lia; apply Hlne; lia| |by eapply (kept_trans T T2)].
      intros w Hw''. destruct (decide (w = v)) as [->|Hne]; [|apply Hz; lia]. exists p.
      rewrite Hl', Hl2, lookup_insert_eq by lia. split; [done|]. split; [done|]. intros b Hb. rewrite <- (Hk' p); [|apply (frame_at _ v _ perm); [by rewrite Hl2, lookup_insert_eq|change UVPN with 67108862; lia|done..]|done].
      rewrite <- (Hp2 b Hb). rsimpl. by apply zero_page_memset.
    + split.
      * intros w. rewrite Hl'. destruct (decide (o ≤ w < npages newsz)); [done|]. apply Hlne. lia.
      * intros q Hq. eapply same_page_trans; [apply Hk2|by apply Hk']. apply (frame_sub T T'); [|done].
        intros w e. rewrite Hl'. destruct (decide _); [done|]. rewrite Hlne by lia. done.
  - erewrite bind_ok by exact E3. by apply (alloc_undo s root T (p :: fl) s3 T2 [p]).
Qed.

(** The mappings of a process of size [sz]: its memory, the trapframe and the
    trampoline. *)
Definition process_as (T : aspace) (sz : Z) : Prop :=
  ∀ v, is_Some (leaf T !! v) → 0 ≤ v < npages sz ∨ v = UVPN ∨ v = UVPN + 1.

Lemma process_none T sz w : process_as T sz → npages sz ≤ w < UVPN → leaf T !! w = None.
Proof. intros Hp Hw. apply eq_None_not_Some. intros H1%Hp. lia. Qed.

Lemma process_0 T w : process_as T 0 → 0 ≤ w < UVPN → leaf T !! w = None.
Proof. intros Hp Hw. by apply (process_none T 0). Qed.

Lemma process_empty root sz : process_as (empty_as root) sz.
Proof. intros v [e He]. cbn [leaf empty_as] in He. by rewrite lookup_empty in He. Qed.

Lemma process_grow T T' sz sz' :
  process_as T sz → 0 ≤ npages sz ≤ npages sz' → (∀ w, ¬ (npages sz ≤ w < npages sz') → leaf T' !! w = leaf T !! w) → process_as T' sz'.
Proof.
  intros Hp Hle Hl v Hv. destruct (decide (npages sz ≤ v < npages sz')); [lia|]. rewrite Hl in Hv by done. apply Hp in Hv. lia.
Qed.

Lemma process_cut T T' sz lo hi :
  process_as T sz → (∀ w, leaf T' !! w = if decide (lo ≤ w < hi) then None else leaf T !! w) → process_as T' sz.
Proof. intros Hp Hl v Hv. rewrite Hl in Hv. destruct (decide _); [by destruct Hv|]. by apply Hp. Qed.

(** A view that keeps the contents of its frames does not change. *)
Lemma uview_kept s s' root T fl sz w :
  uvm_wf s root T fl → kept T s s' → uview (ram s') T sz w = uview (ram s) T sz w.
Proof. intros Hw Hk. apply uview_ext; [exact Hk|apply Hw]. Qed.

Lemma uview_leaf m T T' sz w : leaf T' !! (w / 4096) = leaf T !! (w / 4096) → uview m T' sz w = uview m T sz w.
Proof. intros E. unfold uview. by rewrite E. Qed.

(** [uvmalloc] is not visible to the process, except that its size grows: pages
    above the old size read as zeros, mapped or not. *)
Lemma uvmalloc_ok s root T fl oldsz newsz xperm :
  uvm_wf s root T fl → 0 ≤ oldsz ≤ newsz → newsz ≤ TRAPFRAME → process_as T oldsz → 0 ≤ Z.lor (Z.lor PTE_R PTE_U) xperm < 1024 →
  ∃ r s' T' fl', uvmalloc root oldsz newsz xperm s = Ok r s' ∧ uvm_wf s' root T' fl' ∧ uvm_move s T fl s' T' fl' ∧
    ((r = newsz ∧ process_as T' newsz ∧ ∀ w, uview (ram s') T' newsz w = uview (ram s) T newsz w) ∨
     (r = 0 ∧ process_as T' oldsz ∧ ∀ sz w, uview (ram s') T' sz w = uview (ram s) T sz w)).
Proof.
  intros Hw Hsz Hmax Hpa Hperm. pose proof (λ w, process_none T oldsz w Hpa) as Hb. unfold uvmalloc. rewrite (proj2 (Z.ltb_ge _ _)) by lia.
  destruct (PGROUNDUP_pages oldsz) as (Eo & Hro & Ho); [lia..|]. destruct (PGROUNDUP_pages newsz) as (En & Hrn & Hn); [lia..|]. rewrite Eo.
  destruct (uvmalloc_loop_ok (pages_fuel (newsz - npages oldsz * 4096)) s root T fl (npages oldsz) (npages oldsz) newsz xperm)
    as (r & s' & T' & fl' & E & Hw' & Hm & Hc); try done; try lia.
  { unfold pages_fuel, PGSIZE. pose proof (Z.div_mod (newsz - npages oldsz * 4096) 4096 ltac:(lia)).
    pose proof (Z.mod_pos_bound (newsz - npages oldsz * 4096) 4096 ltac:(lia)). lia. }
  { intros w Hw'. apply Hb. lia. }
  exists r, s', T', fl'. split; [done|]. split; [done|]. split; [done|].
  destruct Hc as [(-> & Hl & Hz & Hk)|(-> & Hl & Hk)]; [left|right]; (split; [done|]).
  - split; [by apply (process_grow T T' oldsz newsz); [|lia|]|]. intros w.
    destruct (decide (npages oldsz ≤ w / 4096 < npages newsz)) as [Hin|Hout].
    + unfold uview. destruct (Hz _ Hin) as (p & Hp & -> & Hzp). rewrite Hb by lia. rewrite has_pte_of, pte_of_pa by done.
      replace (has (Z.lor (Z.lor (Z.lor PTE_R PTE_U) xperm) PTE_V) PTE_U) with true; cycle 1.
      { symmetry. unfold has. apply negb_true_iff, Z.eqb_neq. intros E0. apply (f_equal (λ x, Z.testbit x 4)) in E0.
        rewrite Z.land_spec, !Z.lor_spec, Z.bits_0 in E0. change (Z.testbit PTE_U 4) with true in E0.
        by rewrite orb_true_r in E0. }
      rewrite (proj2 (Z.ltb_lt _ _)) by lia. f_equal. apply Hzp. pose proof (page_split w). lia.
    + rewrite (uview_leaf _ T T') by (apply Hl; lia). by apply (uview_kept s s' root T fl).
  - split; [by eapply process_cut|]. intros sz w.
    assert (leaf T' !! (w / 4096) = leaf T !! (w / 4096)) as El.
    { rewrite Hl. destruct (decide _) as [Hd|]; [|done]. symmetry. apply Hb. lia. }
    rewrite <- (uview_leaf (ram s) T T' sz w El). apply uview_ext; [exact Hk|apply Hw'].
Qed.

(** ** Two address spaces *)

Record two (s : kst) (r1 : Z) (T1 : aspace) (r2 : Z) (T2 : aspace) (fl : list Z) : Prop := {
  tw_1 : uvm_wf s r1 T1 fl;
  tw_2 : uvm_wf s r2 T2 fl;
  tw_disj : ∀ p, as_page T1 p → ¬ as_page T2 p
}.

Lemma two_not_own s r1 T1 r2 T2 fl p : two s r1 T1 r2 T2 fl → as_page T1 p → ¬ own T2 fl p.
Proof.
  intros [H1 H2 Hd] Hp [Hp2|Hin]; [by apply (Hd p)|]. destruct H1 as [[_ _ Hdt _] Hf _ _]. destruct Hp as [Ht|Hfr].
  - by apply (Hdt p).
  - by destruct (Hf p Hfr) as (_ & _ & ?).
Qed.

(** What happens in one address space does not touch the other. *)
(** An address space whose pages have not been written or freed. *)
Lemma space_kept s root T fl s' fl' :
  uvm_wf s root T fl → kmem_wf s' fl' → Lkmem ∉ held s' → (∀ p, as_page T p → p ∉ fl') →
  (∀ p, as_page T p → same_page (ram s) (ram s') p) → uvm_wf s' root T fl'.
Proof.
  intros [[Hk HT Hdt Hlk] Hf Hi Hu] Hk' Hlk' Hno Hsame. split; [split|..]; try done.
  - eapply pt_rep_frame; [exact HT|]. intros a Ha. apply Hsame. by left.
  - intros a Ha. apply Hno. by left.
  - intros p Hp. destruct (Hf p Hp) as (? & ? & _). split_and!; try done. apply Hno. by right.
Qed.

Lemma two_move s r1 T1 r2 T2 fl s' T2' fl' :
  two s r1 T1 r2 T2 fl → uvm_wf s' r2 T2' fl' → uvm_move s T2 fl s' T2' fl' →
  two s' r1 T1 r2 T2' fl' ∧ kept T1 s s'.
Proof.
  intros Htw Hw' [Hs Ho Hm]. pose proof Htw as [H1 H2 Hd].
  assert (∀ p, as_page T1 p → ¬ own T2' fl' p) as Hno by (intros p Hp; rewrite Ho; by eapply two_not_own).
  assert (∀ p, as_page T1 p → same_page (ram s) (ram s') p) as Hsame.
  { intros p Hp. apply Hm; [|by eapply two_not_own]. assert (page_ok p) as [? _]; [|done]. apply (own_page s r1 T1 fl); [done|by left]. }
  split; [split; [|done|]|].
  - destruct Hw' as [[Hk' _ _ Hlk'] _ _ _]. eapply space_kept; [exact H1|done|done| |exact Hsame].
    intros p Hp Hin. apply (Hno p Hp). by right.
  - intros p Hp Hp2. apply (Hno p Hp). by left.
  - intros p Hp. apply Hsame. by right.
Qed.

(** What a walk finds. *)
Lemma walk_pte s root T va :
  pt_rep (ram s) root T → 0 ≤ va < MAXVA →
  ∃ a, walk root va false s = Ok a s ∧
    ((a = 0 ∧ leaf T !! (va / 4096) = None) ∨
     (a ≠ 0 ∧ ∃ e, ld64 a s = Ok e s ∧ leaf T !! (va / 4096) = if has e PTE_V then Some e else None)).
Proof.
  intros HT Hva. exists (leaf_addr T va). split; [by apply walk_noalloc|]. destruct (tabs T !! (0, idx 1 va)) as [b|] eqn:Eb.
  - destruct (leaf_addr_Some _ _ _ _ _ HT Eb) as (_ & Hnz & Hph & Hlk). right. split; [done|]. eexists. split; [by apply ld64_ok|done].
  - left. by eapply leaf_addr_None.
Qed.

(** ** Copying *)

(** The pages from [lo] up to [hi] of [T2] are copies of those of [T1]. *)
Definition copied (m : memory) (T1 T2 : aspace) (lo hi : Z) : Prop :=
  ∀ w, lo ≤ w < hi →
  match leaf T1 !! w with
  | Some e => ∃ p, page_ok p ∧ leaf T2 !! w = Some (pte_of p (PTE_FLAGS e)) ∧
      ∀ b, 0 ≤ b < PGSIZE → ldb m (p + b) = ldb m (PTE2PA e + b)
  | None => leaf T2 !! w = None
  end.

Definition copy_res (s : kst) (r1 : Z) (T1 : aspace) (r2 : Z) (T2 : aspace) (fl : list Z) (v hi : Z) (x : res kst Z) : Prop :=
  ∃ r s' T2' fl', x = Ok r s' ∧ two s' r1 T1 r2 T2' fl' ∧ uvm_move s T2 fl s' T2' fl' ∧
    ((r = 0 ∧ (∀ w, ¬ (v ≤ w < hi) → leaf T2' !! w = leaf T2 !! w) ∧ copied (ram s') T1 T2' v hi ∧ kept T2 s s') ∨
     (r = -1 ∧ ∀ w, leaf T2' !! w = if decide (0 ≤ w < hi) then None else leaf T2 !! w)).

(** Running out of memory frees the copies made so far. *)
Lemma copy_undo s r1 T1 r2 T2 fl s1 T3 fl1 v hi :
  two s r1 T1 r2 T2 fl → uvm_wf s1 r2 T3 fl1 → uvm_move s T2 fl s1 T3 fl1 → leaf T3 = leaf T2 →
  0 ≤ v < hi → hi ≤ UVPN → (∀ w, v ≤ w < hi → leaf T2 !! w = None) →
  copy_res s r1 T1 r2 T2 fl v hi ((uvmunmap r2 0 (v * 4096 / PGSIZE) true ;;; ret (-1)) s1).
Proof.
  intros Htw Hw1 Hm1 Hl Hv Hhi Hnone. change PGSIZE with 4096. rewrite Z.div_mul by lia.
  destruct (uvmunmap_ok s1 r2 T3 fl1 0 v Hw1) as (s2 & fl2 & E & Hw2 & Hm2 & _);
    [done..|lia|change TRAPFRAME with (67108862 * PGSIZE); change UVPN with 67108862 in Hhi; unfold PGSIZE; lia|].
  erewrite bind_ok by exact E. pose proof (uvm_move_trans _ _ _ _ _ _ _ _ _ Hm1 Hm2) as Hm.
  exists (-1), s2, (without_range (Z.to_nat v) (0 / 4096) T3), fl2. split; [done|]. split; [by eapply two_move|]. split; [done|].
  right. split; [done|]. intros w. rewrite lookup_without_range, Hl. change (0 / 4096) with 0. rewrite Z2Nat.id by lia.
  destruct (decide (0 ≤ w < 0 + v)); [by rewrite decide_True by lia|]. destruct (decide (0 ≤ w < hi)); [|done]. apply Hnone. lia.
Qed.

Lemma PTE_FLAGS_bound e : 0 ≤ PTE_FLAGS e < 1024.
Proof.
  unfold PTE_FLAGS. change 0x3FF with (Z.ones 10). rewrite Z.land_ones by lia. apply Z.mod_pos_bound. lia.
Qed.

(** A free page filled with the contents of another. *)
Lemma copy_fresh s root T p fl src :
  uvm_wf s root T (p :: fl) → page_ok src → src ≠ p →
  ∃ s1 s2, kalloc s = Ok p s1 ∧ kmemmove p src PGSIZE s1 = Ok tt s2 ∧ fresh s2 root T fl p ∧
    s2 = s <| ram := ram s2 |> <| freelist := freelist s2 |> ∧
    (∀ q, q mod PGSIZE = 0 → q ≠ p → same_page (ram s) (ram s2) q) ∧
    (∀ b, 0 ≤ b < PGSIZE → ldb (ram s2) (p + b) = ldb (ram s) (src + b)).
Proof.
  intros Hw Hsrc Hne. destruct (kalloc_fresh s root T p fl Hw) as (s1 & E1 & Hfr & Hs1 & Hsame). pose proof (fr_page _ _ _ _ _ Hfr) as Hp.
  exists s1, (s1 <| ram := memmove (ram s1) p src PGSIZE |>). split; [done|].
  split; [apply kmemmove_ok; apply page_ok_phys0; done|].
  assert (∀ q, q mod PGSIZE = 0 → q ≠ p → same_page (ram s1) (memmove (ram s1) p src PGSIZE) q) as Hmv.
  { intros q Hq Hqp b Hb. rewrite ldb_memmove by done. destruct (pages_disjoint p q) as [?|?]; [apply Hp|done|congruence|..];
      by rewrite decide_False by lia. }
  split; [by apply fresh_write|]. rsimpl. split; [rewrite Hs1; kst_eq s|]. split.
  - intros q Hq Hqp. eapply same_page_trans; [by apply Hsame|by apply Hmv].
  - intros b Hb. rewrite ldb_memmove by done. rewrite decide_True by lia. replace (src + (p + b - p)) with (src + b) by lia.
    symmetry. apply (Hsame src); [apply Hsrc|done|lia].
Qed.

(** Adding the copy of page [v] to what comes after it. *)
Lemma copy_cons s r1 T1 r2 T2 fl s1 T3 fl1 v hi x :
  two s r1 T1 r2 T2 fl → uvm_wf s1 r2 T3 fl1 → uvm_move s T2 fl s1 T3 fl1 → kept T2 s s1 → 0 ≤ v < hi → hi ≤ UVPN →
  (∀ w, w ≠ v → leaf T3 !! w = leaf T2 !! w) → leaf T2 !! v = None →
  (leaf T1 !! v = None → leaf T3 !! v = None) →
  (∀ e, leaf T1 !! v = Some e → ∃ p, page_ok p ∧ leaf T3 !! v = Some (pte_of p (PTE_FLAGS e)) ∧
     ∀ b, 0 ≤ b < PGSIZE → ldb (ram s1) (p + b) = ldb (ram s1) (PTE2PA e + b)) →
  copy_res s1 r1 T1 r2 T3 fl1 (v + 1) hi x → copy_res s r1 T1 r2 T2 fl v hi x.
Proof.
  intros Htw Hw1 Hm1 Hk1 Hv Hhi Hl3 Hnone HN HS (r & s' & T2' & fl' & E & Htw' & Hm' & Hc).
  destruct (two_move _ _ _ _ _ _ _ _ _ Htw Hw1 Hm1) as [Htw1 _].
  destruct (two_move _ _ _ _ _ _ _ _ _ Htw1 (tw_2 _ _ _ _ _ _ Htw') Hm') as [_ HkT1]. exists r, s', T2', fl'. split; [done|]. split; [done|]. split; [by eapply uvm_move_trans|].
  destruct Hc as [(-> & Hl' & Hcp & Hk')|(-> & Hl')]; [left|right]; (split; [done|]).
  - split; [intros w Hw; rewrite Hl' by lia; apply Hl3; lia|]. split.
    + intros w Hw. destruct (decide (w = v)) as [->|Hne]; [|apply Hcp; lia]. rewrite Hl' by lia.
      destruct (leaf T1 !! v) as [e|] eqn:E1; [|by apply HN]. destruct (HS e eq_refl) as (p & Hp & Hlp & Hb). exists p. split; [done|]. split; [done|].
      pose proof (PTE_FLAGS_bound e) as Hfl. intros b Hbr. rewrite <- (Hk' p), <- (HkT1 (PTE2PA e)); [by apply Hb| |lia| |lia].
      * exists v, e. split_and!; [done|lia|done].
      * apply (frame_at T3 v p (PTE_FLAGS e)); try done. lia.
    + apply (kept_trans T2 T3 s s1); try done. intros q. apply frame_sub. intros w e He. rewrite Hl3; [done|]. congruence.
  - intros w. rewrite Hl'. destruct (decide _); [done|]. apply Hl3. lia.
Qed.
Lemma uvmcopy_loop_ok n s r1 T1 r2 T2 fl v sz :
  two s r1 T1 r2 T2 fl → 0 ≤ v ≤ npages sz → 0 ≤ sz ≤ TRAPFRAME → npages sz - v ≤ Z.of_nat n →
  (∀ w, v ≤ w < npages sz → leaf T2 !! w = None) →
  copy_res s r1 T1 r2 T2 fl v (npages sz) (uvmcopy_loop n r1 r2 (v * 4096) sz s).
Proof.
  revert s T2 fl v. induction n as [|n IH]; intros s T2 fl v Htw Hv Hsz Hn Hnone;
    destruct (PGROUNDUP_pages sz) as (_ & Hr & Hmax); try lia; cbn [uvmcopy_loop].
  { rewrite (proj2 (Z.ltb_ge _ _)) by lia. exists 0, s, T2, fl. split_and!; try done; [apply uvm_move_refl|].
    left. split_and!; try done. intros w Hw'. lia. }
  destruct (Z.ltb_spec (v * 4096) sz) as [Hlt|Hge]; cycle 1.
  { exists 0, s, T2, fl. split_and!; try done; [apply uvm_move_refl|]. left. split_and!; try done. intros w Hw'. lia. }
  assert (0 ≤ v < npages sz) as Hv' by lia. pose proof Htw as [Hw1 Hw2 _]. assert (v < 67108862) as Hvm by (change UVPN with 67108862 in Hmax; lia).
  rewrite u64_small by (unfold PGSIZE; lia). replace (v * 4096 + PGSIZE) with ((v + 1) * 4096) by (unfold PGSIZE; lia).
  assert (leaf T1 !! v = None → copy_res s r1 T1 r2 T2 fl v (npages sz) (uvmcopy_loop n r1 r2 ((v + 1) * 4096) sz s)) as Hskip.
  { intros HN. apply (copy_cons s r1 T1 r2 T2 fl s T2 fl); try done; [apply uvm_move_refl|apply Hnone; lia|intros _; apply Hnone; lia|by rewrite HN|].
    apply IH; try done; try lia. intros w Hw. apply Hnone. lia. }
  destruct (walk_pte s r1 T1 (v * 4096)) as (a & E & Ha); [apply Hw1|change MAXVA with (2 ^ 38); lia|]. rewrite Z.div_mul in Ha by lia.
  erewrite bind_ok by exact E. destruct Ha as [[-> Hn1]|(Ha & e & Ee & Hl1)]; [by apply Hskip|].
  rewrite (proj2 (Z.eqb_neq _ _)) by done. erewrite bind_ok by exact Ee. destruct (has e PTE_V); cbn [negb]; [|by apply Hskip].
  destruct fl as [|p fl].
  { erewrite bind_ok by (apply kalloc_empty; apply Hw1). cbn [Z.eqb]. apply (copy_undo s r1 T1 r2 T2 [] s T2 []); try done. apply uvm_move_refl. }
  assert (frame T1 (PTE2PA e)) as Hfe by (exists v, e; split_and!; [done|change UVPN with 67108862; lia|done]).
  destruct (uv_frame _ _ _ _ Hw1 _ Hfe) as (Hpe & _ & Hne).
  destruct (copy_fresh s r2 T2 p fl (PTE2PA e) Hw2 Hpe) as (s1 & s2 & E1 & E2 & Hfr & Hs2 & Hsame & Hcont); [intros Eq; apply Hne; rewrite Eq; left|].
  erewrite bind_ok by exact E1. rewrite (proj2 (Z.eqb_neq _ _)) by (apply page_ok_nonzero, (fr_page _ _ _ _ _ Hfr)). erewrite bind_ok by exact E2.
  pose proof (PTE_FLAGS_bound e) as Hflags.
  destruct (add_page_ok s s2 r2 T2 p fl v (PTE_FLAGS e) Hw2 Hfr Hs2 Hsame) as (r & s3 & T3 & fl3 & E3 & Hc); [apply Hnone; lia|lia|done|].
  erewrite bind_ok by exact E3. destruct Hc as [(-> & Hw3 & Hm3 & Hl3 & Hk3 & Hp3)|(-> & s4 & E4 & Hw4 & Hm4 & Hl4 & _)]; cbn [Z.eqb negb].
  - apply (copy_cons s r1 T1 r2 T2 (p :: fl) s3 T3 fl3); try done; [by intros w Hne'; rewrite Hl3, lookup_insert_ne|apply Hnone; lia|by rewrite Hl1| |].
    + rewrite Hl1. intros f [= <-]. exists p. rewrite Hl3, lookup_insert_eq. split; [exact (fr_page _ _ _ _ _ Hfr)|]. split; [done|]. intros b Hb.
      rewrite <- (Hp3 (p + b)), Hcont by lia. destruct (two_move _ _ _ _ _ _ _ _ _ Htw Hw3 Hm3) as [_ HkT1]. apply (HkT1 _ Hfe). lia.
    + apply IH; try lia; [by apply (two_move s r1 T1 r2 T2 (p :: fl))|]. intros w Hw. rewrite Hl3, lookup_insert_ne by lia. apply Hnone. lia.
  - erewrite bind_ok by exact E4. by apply (copy_undo s r1 T1 r2 T2 (p :: fl) s4 T3 [p]).
Qed.

Lemma has_lor_U x : has (Z.lor x PTE_V) PTE_U = has x PTE_U.
Proof.
  unfold has. rewrite Z.land_lor_distr_l. change (Z.land PTE_V PTE_U) with 0. by rewrite Z.lor_0_r.
Qed.

Lemma has_flags_U e : has (PTE_FLAGS e) PTE_U = has e PTE_U.
Proof. unfold has. by rewrite (land_PTE_FLAGS e) by done. Qed.

(** Above the user pages there is nothing to see. *)
Lemma uview_high s root T fl sz w :
  uvm_wf s root T fl → sz ≤ TRAPFRAME → UVPN ≤ w / 4096 → uview (ram s) T sz w = None.
Proof.
  intros Hw Hsz Hv. unfold uview. destruct (leaf T !! (w / 4096)) as [e|] eqn:E.
  - destruct (has e PTE_U) eqn:Eu; [|done]. pose proof (uv_user _ _ _ _ Hw _ _ E Eu). lia.
  - rewrite (proj2 (Z.ltb_ge _ _)); [done|]. change TRAPFRAME with (67108862 * 4096) in Hsz. change UVPN with 67108862 in Hv. lia.
Qed.

Lemma uvmcopy_ok s r1 T1 r2 T2 fl sz :
  two s r1 T1 r2 T2 fl → 0 ≤ sz ≤ TRAPFRAME → process_as T1 sz → process_as T2 0 →
  ∃ r s' T2' fl', uvmcopy r1 r2 sz s = Ok r s' ∧ two s' r1 T1 r2 T2' fl' ∧ uvm_move s T2 fl s' T2' fl' ∧ kept T1 s s' ∧
    (∀ w, UVPN ≤ w → leaf T2' !! w = leaf T2 !! w) ∧
    ((r = 0 ∧ process_as T2' sz ∧ ∀ w, 0 ≤ w → uview (ram s') T2' sz w = uview (ram s) T1 sz w) ∨
     (r = -1 ∧ process_as T2' 0)).
Proof.
  intros Htw Hsz Hp1 Hp2. pose proof (λ w, process_none T1 sz w Hp1) as Hb. pose proof (λ w, process_0 T2 w Hp2) as Hnone.
  destruct (PGROUNDUP_pages sz) as (_ & Hr & Hmax); [lia..|].
  destruct (uvmcopy_loop_ok (pages_fuel sz) s r1 T1 r2 T2 fl 0 sz) as (r & s' & T2' & fl' & E & Htw' & Hm & Hc); try done; try lia.
  { unfold pages_fuel, PGSIZE. pose proof (Z.div_mod sz 4096 ltac:(lia)). pose proof (Z.mod_pos_bound sz 4096 ltac:(lia)). lia. }
  { intros w Hw. apply Hnone. lia. }
  exists r, s', T2', fl'. split; [done|]. split; [done|]. split; [done|].
  split; [exact (proj2 (two_move _ _ _ _ _ _ _ _ _ Htw (tw_2 _ _ _ _ _ _ Htw') Hm))|].
  split; [destruct Hc as [(_ & Hl & _)|(_ & Hl)]; intros w Hw'; [apply Hl; lia|rewrite Hl; by rewrite decide_False by lia]|].
  destruct Hc as [(-> & Hl & Hcp & _)|(-> & Hl)]; [left|right]; (split; [done|]); cycle 1.
  { by eapply process_cut. }
  split; [by apply (process_grow T2 T2' 0 sz); [|change (npages 0) with 0; lia|]|].
  intros w Hw. destruct (decide (w / 4096 < UVPN)) as [Hv|Hv]; cycle 1.
  { rewrite (uview_high _ _ _ _ _ _ (tw_2 _ _ _ _ _ _ Htw')), (uview_high _ _ _ _ _ _ (tw_1 _ _ _ _ _ _ Htw)) by lia. done. }
  assert (0 ≤ w / 4096) by (apply Z.div_pos; lia). unfold uview. destruct (decide (w / 4096 < npages sz)) as [Hlt|Hge].
  - specialize (Hcp (w / 4096) ltac:(lia)). destruct (leaf T1 !! (w / 4096)) as [e|] eqn:E1; [|by rewrite Hcp].
    destruct Hcp as (p & Hp & -> & Hcont). pose proof (PTE_FLAGS_bound e). rewrite has_pte_of, pte_of_pa, has_lor_U, has_flags_U by done.
    destruct (has e PTE_U); [|done]. f_equal. rewrite Hcont by apply page_split.
    destruct (two_move _ _ _ _ _ _ _ _ _ Htw (tw_2 _ _ _ _ _ _ Htw') Hm) as [_ HkT1]. symmetry. apply (HkT1 (PTE2PA e)).
    + by exists (w / 4096), e.
    + pose proof (page_split w). lia.
  - rewrite Hl, Hnone, Hb by lia. done.
Qed.

End Space.

(** After [uvmcopy] (the memory part of [fork]) the child sees exactly what
    the parent sees, lazily allocated memory included, no page is shared with
    the parent or the allocator, and the parent's memory is unchanged.  If memory
    runs out it returns -1 with no user page left in the child; in both cases no
    page is lost. *)
Theorem uvmcopy_correct `{Layout, !LayoutOk} s r1 T1 r2 T2 fl sz :
  two s r1 T1 r2 T2 fl → 0 ≤ sz ≤ TRAPFRAME → process_as T1 sz → process_as T2 0 →
  ∃ r s' T2' fl', uvmcopy r1 r2 sz s = Ok r s' ∧ two s' r1 T1 r2 T2' fl' ∧
    (∀ p, own T2' fl' p ↔ own T2 fl p) ∧
    (∀ sz' w, uview (ram s') T1 sz' w = uview (ram s) T1 sz' w) ∧
    ((r = 0 ∧ process_as T2' sz ∧ ∀ w, 0 ≤ w → uview (ram s') T2' sz w = uview (ram s) T1 sz w) ∨
     (r = -1 ∧ process_as T2' 0)).
Proof.
  intros Htw Hsz Hb Hnone. destruct (uvmcopy_ok s r1 T1 r2 T2 fl sz Htw Hsz Hb Hnone) as (r & s' & T2' & fl' & E & Htw' & Hm & Hk & _ & Hc).
  exists r, s', T2', fl'. split; [done|]. split; [done|]. split; [apply Hm|]. split; [|destruct Hc as [(-> & ? & ?)|?]; auto].
  intros sz' w. exact (uview_kept s s' r1 T1 fl sz' w (tw_1 _ _ _ _ _ _ Htw) Hk).
Qed.

Section Witnesses.
Local Existing Instance qemu_layout.
Local Existing Instance qemu_layout_ok.

Definition child_root : Z := 0x80030000.
Definition fork_pages : list Z := (λ k, 0x80024000 + k * 4096) <$> seqZ 0 12.
Definition spare (m : memory) : kst := give fork_pages (kst0 <| ram := m |>).
(** Two empty page tables beside twelve free pages. *)
Definition fork_demo : kst := spare ∅.

Lemma spare_vm m root :
  page_ok root → root ∉ fork_pages → zero_page m root → uvm_wf (spare m) root (empty_as root) fork_pages.
Proof.
  intros Hp Hn Hz. assert (kmem_wf (spare m) fork_pages) as Hk.
  { rewrite <- (app_nil_r fork_pages). apply (give_wf fork_pages); [|repeat constructor; by vm_compute|].
    - split; [by rsimpl|apply NoDup_nil_2|apply Forall_nil_2].
    - apply (bool_decide_unpack _). by vm_compute. }
  assert (∀ v e, leaf (empty_as root) !! v = Some e → False) as Hno by (intros v e He; cbn [leaf empty_as] in He; by rewrite lookup_empty in He).
  split; [split; [done| | |apply not_elem_of_nil]|..].
  - apply pt_rep_empty; [done|]. intros b Hb. assert (Forall (λ p, p mod PGSIZE = 0) fork_pages) as Ha by repeat constructor.
    rewrite <- (Hz b Hb). symmetry. exact (give_outside fork_pages (kst0 <| ram := m |>) root (proj1 Hp) Ha Hn b Hb).
  - intros a Ha. by apply is_table_empty in Ha as ->.
  - intros p (v & e & He & _). by apply Hno in He.
  - intros v v' e e' He. by apply Hno in He.
  - intros v e He. by apply Hno in He.
Qed.

Lemma fork_demo_two : two fork_demo child_root (empty_as child_root) demo_root (empty_as demo_root) fork_pages.
Proof.
  split.
  - apply spare_vm; [by vm_compute| |by intros b Hb]. apply (bool_decide_unpack _). by vm_compute.
  - apply spare_vm; [by vm_compute| |by intros b Hb]. apply (bool_decide_unpack _). by vm_compute.
  - intros p [Hp|(v & e & He & _)]; [|cbn [leaf empty_as] in He; by rewrite lookup_empty in He].
    apply is_table_empty in Hp as ->. intros [Hp|(v & e & He & _)]; [|cbn [leaf empty_as] in He; by rewrite lookup_empty in He].
    by apply is_table_empty in Hp.
Qed.

Lemma fork_demo_runs :
  match uvmalloc demo_root 0 8192 PTE_W fork_demo with
  | Ok r s => r = 8192 ∧ match uvmcopy demo_root child_root 8192 s with Ok r _ => r = 0 | _ => False end
  | _ => False
  end.
Proof. vm_compute. done. Qed.

(** A parent of two pages is copied into an empty child. *)
Lemma uvmcopy_correct_witness :
  ∃ s T1 fl s' T2, uvmalloc demo_root 0 8192 PTE_W fork_demo = Ok 8192 s ∧ uvm_wf s demo_root T1 fl ∧
    uvmcopy demo_root child_root 8192 s = Ok 0 s' ∧ ∀ w, 0 ≤ w → uview (ram s') T2 8192 w = uview (ram s) T1 8192 w.
Proof.
  pose proof fork_demo_runs as Hrun. pose proof fork_demo_two as Htw. generalize dependent fork_demo. intros s0 Hrun Htw.
  destruct (uvmalloc_ok s0 demo_root (empty_as demo_root) fork_pages 0 8192 PTE_W) as (r & s & T1 & fl & E & Hw & Hm & Hc);
    [apply (tw_2 _ _ _ _ _ _ Htw)|done|done|apply process_empty|done|].
  rewrite E in Hrun. destruct Hrun as [-> Hrun]. destruct Hc as [(_ & Hb & _)|(? & _)]; [|discriminate].
  destruct (two_move _ _ _ _ _ _ _ _ _ Htw Hw Hm) as [[H1 H2 Hd] _].
  destruct (uvmcopy_correct s demo_root T1 child_root (empty_as child_root) fl 8192) as (r & s' & T2 & fl' & E2 & _ & _ & _ & Hc);
    [split; [exact Hw|exact H1|]|done|exact Hb|apply process_empty|].
  { intros p Hp Hp'. exact (Hd p Hp' Hp). }
  rewrite E2 in Hrun. subst r. destruct Hc as [(_ & _ & Hv)|[? _]]; [|discriminate].
  exists s, T1, fl, s', T2. exact (conj E (conj Hw (conj E2 Hv))).
Defined.

End Witnesses.
