(* ===== verification/Pipe.v ===== *)
(** * kernel/pipe.c: pipes

    A pipe is a ring of [PIPESIZE] bytes between two wrapping counters.  The
    proofs relate it to the queue of bytes written and not yet read. *)

From Stdlib Require Import ZArith Lia.
From S2P Require Import Prelude Params CString State Kalloc Process Vm VmRep VmMap Uvm Copy.
From stdpp Require Import base gmap strings numbers list.

Open Scope Z_scope.

Definition PIPESIZE : Z := 512.

Definition getpipe (pi : Z) : KM pipe := λ s,
  match pipes s !! pi with Some p => Ok p s | None => Fault end.
Definition updpipe (pi : Z) (f : pipe → pipe) : KM unit :=
  p <- getpipe pi ;; modify (λ s, s <| pipes ::= <[pi := f p]> |>).

(** [pi->data[pi->nwrite++ % PIPESIZE] = ch] *)
Definition push_byte (ch : Z) (p : pipe) : pipe :=
  p <| pi_data ::= <[Z.to_nat (pi_nwrite p mod PIPESIZE) := ch]> |>
    <| pi_nwrite := u32 (pi_nwrite p + 1) |>.

(** [pi->data[pi->nread % PIPESIZE]] and [pi->nread++] *)
Definition peek_byte (p : pipe) : option Z := pi_data p !! Z.to_nat (pi_nread p mod PIPESIZE).
Definition pop_byte (p : pipe) : pipe := p <| pi_nread := u32 (pi_nread p + 1) |>.

Definition pipe_full (p : pipe) : bool := pi_nwrite p =? u32 (pi_nread p + PIPESIZE).
Definition pipe_empty (p : pipe) : bool := pi_nread p =? pi_nwrite p.

Section Pipe.
Context `{Layout}.

Definition pipeclose (pi : Z) (writable : bool) : KM unit :=
  acquire (Lpipe pi) ;;;
  (if writable then
     updpipe pi (λ p, p <| pi_writeopen := 0 |>) ;;; wakeup (ChNread pi)
   else
     updpipe pi (λ p, p <| pi_readopen := 0 |>) ;;; wakeup (ChNwrite pi)) ;;;
  p <- getpipe pi ;;
  if (pi_readopen p =? 0) && (pi_writeopen p =? 0) then
    release (Lpipe pi) ;;;
    modify (λ s, s <| pipes ::= delete pi |>) ;;;
    kfree pi
  else release (Lpipe pi).

(** [while(i < n)] of [pipewrite].  [inl r]: returned [r] from inside the
    loop, the lock released; [inr i]: left the loop with [i]. *)
Fixpoint pipewrite_loop (fuel : nat) (pi : Z) (pr : nat) (addr n i : Z) : KM (Z + Z) :=
  if i <? n then
    match fuel with
    | O => nofuel
    | S fuel' =>
        p <- getpipe pi ;;
        stop <- (if pi_readopen p =? 0 then ret true
                 else k <- killed pr ;; ret (negb (k =? 0))) ;;
        if (stop : bool) then release (Lpipe pi) ;;; ret (inl (-1))
        else if pipe_full p then
          wakeup (ChNread pi) ;;;
          sleep (ChNwrite pi) (Lpipe pi) ;;;
          pipewrite_loop fuel' pi pr addr n i
        else
          q <- getp pr ;;
          r <- copyin (p_pagetable q) (u64 (addr + i)) 1 ;;
          if r.1 =? -1 then ret (inr i)
          else
            updpipe pi (push_byte (default 0 (head r.2))) ;;;
            pipewrite_loop fuel' pi pr addr n (i + 1)
    end
  else ret (inr i).

(** [wakeups] bounds how often the writer may be woken to find the pipe still
    full; [n] more iterations are enough for the bytes. *)
Definition pipewrite (wakeups : nat) (pi addr n : Z) : KM Z :=
  pr <- curproc ;;
  acquire (Lpipe pi) ;;;
  r <- pipewrite_loop (wakeups + Z.to_nat n) pi pr addr n 0 ;;
  match r with
  | inl r => ret r
  | inr i =>
      wakeup (ChNread pi) ;;;
      release (Lpipe pi) ;;;
      ret i
  end.

(** [while(pi->nread == pi->nwrite && pi->writeopen)]; false: killed. *)
Fixpoint piperead_wait (wakeups : nat) (pi : Z) (pr : nat) : KM bool :=
  p <- getpipe pi ;;
  if pipe_empty p && negb (pi_writeopen p =? 0) then
    match wakeups with
    | O => nofuel
    | S wakeups' =>
        k <- killed pr ;;
        if negb (k =? 0) then release (Lpipe pi) ;;; ret false
        else sleep (ChNread pi) (Lpipe pi) ;;; piperead_wait wakeups' pi pr
    end
  else ret true.

(** [for(i = 0; i < n; i++)], [n - i] iterations left. *)
Fixpoint piperead_copy (left : nat) (pi : Z) (pr : nat) (addr i : Z) : KM Z :=
  match left with
  | O => ret i
  | S left' =>
      p <- getpipe pi ;;
      if pipe_empty p then ret i
      else
        ch <- in_range (peek_byte p) ;;
        q <- getp pr ;;
        r <- copyout (p_pagetable q) (u64 (addr + i)) [ch] ;;
        if r =? -1 then ret (if i =? 0 then -1 else i)
        else
          updpipe pi pop_byte ;;;
          piperead_copy left' pi pr addr (i + 1)
  end.

Definition piperead (wakeups : nat) (pi addr n : Z) : KM Z :=
  pr <- curproc ;;
  acquire (Lpipe pi) ;;;
  alive <- piperead_wait wakeups pi pr ;;
  if negb alive then ret (-1)
  else
    i <- piperead_copy (Z.to_nat n) pi pr addr 0 ;;
    wakeup (ChNwrite pi) ;;;
    release (Lpipe pi) ;;;
    ret i.

End Pipe.

(** ** The queue a pipe holds *)

Record pipe_wf (p : pipe) : Prop := {
  pw_len : length (pi_data p) = Z.to_nat PIPESIZE;
  pw_nread : 0 ≤ pi_nread p < 2 ^ 32;
  pw_nwrite : 0 ≤ pi_nwrite p < 2 ^ 32;
  pw_used : u32 (pi_nwrite p - pi_nread p) ≤ PIPESIZE
}.

Definition pipe_len (p : pipe) : nat := Z.to_nat (u32 (pi_nwrite p - pi_nread p)).

(** The bytes written and not yet read, oldest first. *)
Definition pipe_queue (p : pipe) : list Z :=
  (λ k, default 0 (pi_data p !! Z.to_nat ((pi_nread p + Z.of_nat k) mod PIPESIZE))) <$> seq 0 (pipe_len p).

Lemma length_pipe_queue p : length (pipe_queue p) = pipe_len p.
Proof. unfold pipe_queue. by rewrite length_fmap, length_seq. Qed.

(** The counters wrap at a multiple of the ring size. *)
Lemma u32_mod_pipesize x : u32 x mod PIPESIZE = x mod PIPESIZE.
Proof.
  unfold u32, PIPESIZE. apply Z.mod_mod_divide. by exists 8388608.
Qed.

Lemma used_next nr nw :
  u32 (nw - nr) < PIPESIZE → u32 (u32 (nw + 1) - nr) = u32 (nw - nr) + 1.
Proof.
  intros Hu. pose proof (u32_range (nw - nr)). unfold u32 in *. rewrite Zminus_mod_idemp_l.
  replace (nw + 1 - nr) with (nw - nr + 1) by lia. rewrite <- Zplus_mod_idemp_l.
  apply Z.mod_small. unfold PIPESIZE in *. lia.
Qed.

Lemma used_pop nr nw :
  0 < u32 (nw - nr) → u32 (nw - u32 (nr + 1)) = u32 (nw - nr) - 1.
Proof.
  intros Hu. pose proof (u32_range (nw - nr)). unfold u32 in *. rewrite Zminus_mod_idemp_r.
  replace (nw - (nr + 1)) with (nw - nr - 1) by lia. rewrite <- Zminus_mod_idemp_l.
  apply Z.mod_small. lia.
Qed.

Lemma pipe_empty_iff p : pipe_wf p → pipe_empty p = true ↔ pipe_len p = O.
Proof.
  intros [_ Hr Hw Hu]. unfold pipe_empty, pipe_len. rewrite Z.eqb_eq. pose proof (u32_range (pi_nwrite p - pi_nread p)).
  split.
  - intros ->. by rewrite Z.sub_diag.
  - intros H0. assert (u32 (pi_nwrite p - pi_nread p) = 0) as Hz by lia. unfold u32 in Hz.
    apply Z.mod_divide in Hz as [k Hk]; [|lia]. assert (k = 0) by lia. lia.
Qed.

Lemma pipe_full_iff p : pipe_wf p → pipe_full p = true ↔ pipe_len p = Z.to_nat PIPESIZE.
Proof.
  intros [_ Hr Hw Hu]. unfold pipe_full, pipe_len. rewrite Z.eqb_eq.
  pose proof (u32_range (pi_nwrite p - pi_nread p)). split.
  - intros ->. unfold u32. rewrite Zminus_mod_idemp_l.
    replace (pi_nread p + PIPESIZE - pi_nread p) with PIPESIZE by lia. done.
  - intros H0. assert (u32 (pi_nwrite p - pi_nread p) = PIPESIZE) as Hz by (unfold PIPESIZE in *; lia).
    unfold u32 in *. rewrite <- Hz, Zplus_mod_idemp_r.
    replace (pi_nread p + (pi_nwrite p - pi_nread p)) with (pi_nwrite p) by lia. by rewrite Z.mod_small.
Qed.

Lemma ring_index_ne p k :
  pipe_wf p → (k < pipe_len p)%nat → pipe_full p = false →
  Z.to_nat ((pi_nread p + Z.of_nat k) mod PIPESIZE) ≠ Z.to_nat (pi_nwrite p mod PIPESIZE).
Proof.
  intros Hwf Hk Hf. assert (pipe_len p ≠ Z.to_nat PIPESIZE) as Hl.
  { intros E. apply pipe_full_iff in E; [congruence|done]. }
  destruct Hwf as [_ Hr Hw Hu]. unfold pipe_len in *. pose proof (u32_range (pi_nwrite p - pi_nread p)).
  pose proof (Z.mod_pos_bound (pi_nread p + Z.of_nat k) PIPESIZE ltac:(done)).
  pose proof (Z.mod_pos_bound (pi_nwrite p) PIPESIZE ltac:(done)).
  intros E. assert ((pi_nread p + Z.of_nat k) mod PIPESIZE = pi_nwrite p mod PIPESIZE) as E' by lia.
  assert ((u32 (pi_nwrite p - pi_nread p) - Z.of_nat k) mod PIPESIZE = 0) as Hz.
  { rewrite <- Zminus_mod_idemp_l, u32_mod_pipesize, Zminus_mod_idemp_l.
    replace (pi_nwrite p - pi_nread p - Z.of_nat k) with (pi_nwrite p - (pi_nread p + Z.of_nat k)) by lia.
    by rewrite Zminus_mod, E', Z.sub_diag. }
  rewrite Z.mod_small in Hz; unfold PIPESIZE in *; lia.
Qed.

Lemma push_byte_queue ch p :
  pipe_wf p → pipe_full p = false →
  pipe_wf (push_byte ch p) ∧ pipe_queue (push_byte ch p) = pipe_queue p ++ [ch].
Proof.
  intros Hwf Hf. assert (pipe_len p ≠ Z.to_nat PIPESIZE) as Hl.
  { intros E. apply pipe_full_iff in E; [congruence|done]. }
  pose proof Hwf as [Hlen Hr Hw Hu]. unfold pipe_len in Hl.
  pose proof (u32_range (pi_nwrite p - pi_nread p)).
  assert (u32 (pi_nwrite p - pi_nread p) < PIPESIZE) as Hlt by (unfold PIPESIZE in *; lia).
  assert (pipe_len (push_byte ch p) = S (pipe_len p)) as Hn.
  { unfold pipe_len, push_byte. rsimpl. rewrite used_next by done. lia. }
  split.
  - split; unfold push_byte; rsimpl; [by rewrite length_insert|done|apply u32_range|].
    rewrite used_next by done. lia.
  - unfold pipe_queue. rewrite Hn, seq_S, fmap_app. f_equal.
    + apply list_fmap_ext. intros i k Hk. apply lookup_seq in Hk as [-> Hk]. unfold push_byte. rsimpl.
      rewrite list_lookup_insert_ne; [done|]. apply not_eq_sym. by apply ring_index_ne.
    + simpl. unfold push_byte. rsimpl. f_equal.
      assert (Z.to_nat ((pi_nread p + Z.of_nat (pipe_len p)) mod PIPESIZE) =
              Z.to_nat (pi_nwrite p mod PIPESIZE)) as ->.
      { unfold pipe_len. rewrite Z2Nat.id by lia. rewrite <- Zplus_mod_idemp_r, u32_mod_pipesize, Zplus_mod_idemp_r.
        do 2 f_equal. lia. }
      rewrite list_lookup_insert_eq; [done|]. rewrite Hlen.
      pose proof (Z.mod_pos_bound (pi_nwrite p) PIPESIZE ltac:(done)). lia.
Qed.

Lemma pop_byte_queue p :
  pipe_wf p → pipe_empty p = false →
  ∃ ch, peek_byte p = Some ch ∧ pipe_wf (pop_byte p) ∧ pipe_queue p = ch :: pipe_queue (pop_byte p).
Proof.
  intros Hwf He. assert (pipe_len p ≠ O) as Hl by (intros E; apply pipe_empty_iff in E; [congruence|done]).
  pose proof Hwf as [Hlen Hr Hw Hu]. unfold pipe_len in Hl.
  pose proof (u32_range (pi_nwrite p - pi_nread p)).
  pose proof (Z.mod_pos_bound (pi_nread p) PIPESIZE ltac:(done)) as Hm.
  destruct (lookup_lt_is_Some_2 (pi_data p) (Z.to_nat (pi_nread p mod PIPESIZE)) ltac:(lia)) as [ch Hch].
  assert (pipe_len p = S (pipe_len (pop_byte p))) as Hn.
  { unfold pipe_len, pop_byte. rsimpl. rewrite used_pop by lia. lia. }
  exists ch. split_and!; [done| |].
  - split; unfold pop_byte; rsimpl; [done|apply u32_range|done|]. rewrite used_pop by lia. lia.
  - unfold pipe_queue. rewrite Hn. cbn [seq fmap list_fmap]. f_equal.
    + by rewrite Z.add_0_r, Hch.
    + rewrite <- fmap_S_seq, <- list_fmap_compose. apply list_fmap_ext. intros i k _. unfold compose, pop_byte. rsimpl.
      assert ((u32 (pi_nread p + 1) + Z.of_nat k) mod PIPESIZE = (pi_nread p + Z.of_nat (S k)) mod PIPESIZE) as ->.
      { rewrite <- Zplus_mod_idemp_l, u32_mod_pipesize, Zplus_mod_idemp_l. f_equal. lia. }
      done.
Qed.

(** ** Writing and reading without blocking *)

Section Transfer.
Context `{Layout, !LayoutOk}.

Lemma getpipe_ok pi p s : pipes s !! pi = Some p → getpipe pi s = Ok p s.
Proof. intros Hp. unfold getpipe. by rewrite Hp. Qed.

Lemma updpipe_ok pi p f s :
  pipes s !! pi = Some p → updpipe pi f s = Ok tt (s <| pipes := <[pi := f p]> (pipes s) |>).
Proof. intros Hp. unfold updpipe. erewrite bind_ok by (by apply getpipe_ok). reflexivity. Qed.

(** The running process [pr], alive, with its address space. *)
Record runs_as (s : kst) (pr : nat) (root sz : Z) (T : aspace) (fl : list Z) : Prop := {
  ra_wf : uvm_wf s root T fl;
  ra_cur : cur s = Some pr;
  ra_proc : ∃ q, procs s !! pr = Some q ∧ p_pagetable q = root ∧ p_sz q = sz ∧ p_killed q = 0;
  ra_sz : sz ≤ TRAPFRAME;
  ra_table : table_free s
}.

Lemma runs_as_cur s pr root sz T fl : runs_as s pr root sz T fl → cur_as s root sz.
Proof. intros [_ Hc (q & ? & ? & ? & _) _ _]. by exists pr, q. Qed.

Lemma runs_as_step s pr root sz T fl s' T' fl' :
  runs_as s pr root sz T fl → uvm_step s T fl s' T' fl' → uvm_wf s' root T' fl' →
  runs_as s' pr root sz T' fl'.
Proof.
  intros [_ Hc Hq Hsz [Hl Hf]] Hst Hw. destruct (uvm_step_fields _ _ _ _ _ _ Hst) as (Hh & Hc' & Hp & _ & _).
  split; [done|congruence|by rewrite Hp|done|]. split; [by rewrite Hp|by rewrite Hh].
Qed.

Lemma runs_as_pipes s pr root sz T fl P :
  runs_as s pr root sz T fl → runs_as (s <| pipes := P |>) pr root sz T fl.
Proof.
  intros [Hw Hc Hq Hsz [Hl Hf]]. split; rsimpl; try done.
  eapply uvm_wf_ext; [exact Hw|by rsimpl|by rsimpl|]. rsimpl. apply Hw.
Qed.

Lemma pipewrite_loop_S fuel pi pr addr n i :
  pipewrite_loop (S fuel) pi pr addr n i =
    if i <? n then
      p <- getpipe pi ;;
      stop <- (if pi_readopen p =? 0 then ret true
               else k <- killed pr ;; ret (negb (k =? 0))) ;;
      if (stop : bool) then release (Lpipe pi) ;;; ret (inl (-1))
      else if pipe_full p then
        wakeup (ChNread pi) ;;;
        sleep (ChNwrite pi) (Lpipe pi) ;;;
        pipewrite_loop fuel pi pr addr n i
      else
        q <- getp pr ;;
        r <- copyin (p_pagetable q) (u64 (addr + i)) 1 ;;
        if r.1 =? -1 then ret (inr i)
        else
          updpipe pi (push_byte (default 0 (head r.2))) ;;;
          pipewrite_loop fuel pi pr addr n (i + 1)
    else ret (inr i).
Proof. reflexivity. Qed.

(** The bytes the user has at [addr + i] and after go to the end of the queue,
    up to [n] or to the first byte that is not user memory. *)
Definition written (s : kst) (pr : nat) (root sz : Z) (T : aspace) (fl : list Z) (pi : Z) (p : pipe)
    (addr n i : Z) (res : res kst (Z + Z)) : Prop :=
  ∃ j s1 T' fl' p' bytes,
    res = Ok (inr j) (s1 <| pipes := <[pi := p']> (pipes s) |>) ∧
    runs_as s1 pr root sz T' fl' ∧ uvm_step s T fl s1 T' fl' ∧ leaf T ⊆ leaf T' ∧
    (∀ w, uview (ram s1) T' sz w = uview (ram s) T sz w) ∧
    pipe_wf p' ∧ pi_readopen p' = pi_readopen p ∧ pipe_queue p' = pipe_queue p ++ bytes ∧
    Z.of_nat (length bytes) = j - i ∧ i ≤ j ≤ n ∧ seen (uview (ram s) T sz) (addr + i) bytes ∧
    (j = n ∨ ∃ w, addr + i ≤ w < addr + n ∧ ¬ user_ok T w).

Lemma written_stop s pr root sz T fl pi p addr n i s1 T1 fl1 :
  pipes s !! pi = Some p → pipe_wf p → i ≤ n → runs_as s1 pr root sz T1 fl1 →
  uvm_step s T fl s1 T1 fl1 → leaf T ⊆ leaf T1 →
  (∀ w, uview (ram s1) T1 sz w = uview (ram s) T sz w) →
  (i = n ∨ ∃ w, addr + i ≤ w < addr + n ∧ ¬ user_ok T w) →
  written s pr root sz T fl pi p addr n i (Ok (inr i) s1).
Proof.
  intros Hp Hwf Hi Hra Hst Hl Hv Hwhy. destruct (uvm_step_fields _ _ _ _ _ _ Hst) as (_ & _ & _ & Hpp & _).
  exists i, s1, T1, fl1, p, []. rewrite insert_id, app_nil_r, <- Hpp by done.
  split_and!; try done; [|simpl; lia]. kst_eq s1.
Qed.

Lemma written_cons s pr root sz T fl pi p addr n i b s1 T1 fl1 r :
  pipes s !! pi = Some p → pipe_wf p → pipe_full p = false → i < n →
  uvm_step s T fl s1 T1 fl1 → leaf T ⊆ leaf T1 →
  (∀ w, uview (ram s1) T1 sz w = uview (ram s) T sz w) →
  seen (uview (ram s) T sz) (addr + i) [b] →
  written (s1 <| pipes := <[pi := push_byte b p]> (pipes s1) |>) pr root sz T1 fl1 pi
    (push_byte b p) addr n (i + 1) r →
  written s pr root sz T fl pi p addr n i r.
Proof.
  intros Hp Hwf Hfull Hi Hst1 Hl1 Hv1 Hseen
    (j & s2 & T2 & fl2 & p2 & bytes & -> & Hra2 & Hst2 & Hl2 & Hv2 & Hwf2 & Hro2 & Hq2 & Hlen & Hj & Hs2 & Hwhy).
  destruct (uvm_step_fields _ _ _ _ _ _ Hst1) as (_ & _ & _ & Hpp & _). rsimpl.
  apply (uvm_step_pipes _ _ _ _ _ _ (pipes s)) in Hst2.
  replace (s1 <| pipes := <[pi := push_byte b p]> (pipes s1) |> <| pipes := pipes s |>) with s1 in Hst2
    by (rewrite <- Hpp; kst_eq s1).
  exists j, (s2 <| pipes := pipes s |>), T2, fl2, p2, (b :: bytes). split_and!; try done; try lia.
  - rewrite Hpp, insert_insert_eq. kst_eq s2.
  - by apply runs_as_pipes.
  - by eapply uvm_step_trans.
  - by trans (leaf T1).
  - intros w. rsimpl. rewrite Hv2. rsimpl. apply Hv1.
  - rewrite Hq2, (proj2 (push_byte_queue b p Hwf Hfull)), <- app_assoc. done.
  - simpl. lia.
  - change (b :: bytes) with ([b] ++ bytes). apply seen_app; [done|].
    intros k c Hk. rewrite <- Hv1. rsimpl. replace (addr + i + Z.of_nat (length [b])) with (addr + (i + 1)) by (simpl; lia).
    by apply Hs2.
  - destruct Hwhy as [->|(w & Hw & Hn)]; [by left|right]. exists w. split; [lia|].
    intros (e & He & HU). apply Hn. exists e. split; [|done]. by eapply lookup_weaken.
Qed.

Lemma pipewrite_loop_ok fuel s pr root sz T fl pi p addr n i :
  runs_as s pr root sz T fl → pipes s !! pi = Some p → pipe_wf p → pi_readopen p ≠ 0 →
  0 ≤ addr → 0 ≤ i ≤ n → addr + n < 2 ^ 64 → n - i ≤ Z.of_nat fuel →
  Z.of_nat (pipe_len p) + (n - i) ≤ PIPESIZE →
  written s pr root sz T fl pi p addr n i (pipewrite_loop fuel pi pr addr n i s).
Proof.
  revert s T fl p i; induction fuel as [|fuel IH]; intros s T fl p i Hra Hp Hwf Hro Ha Hi Hmax Hfuel Hroom.
  - assert (i = n) as -> by lia. cbn [pipewrite_loop]. rewrite Z.ltb_irrefl.
    eapply written_stop; [done|done|lia|done|apply uvm_step_refl|done|done|by left].
  - rewrite pipewrite_loop_S. destruct (i <? n) eqn:Ei; cycle 1.
    { eapply written_stop; [done|done|lia|done|apply uvm_step_refl|done|done|left; lia]. }
    pose proof Hra as [Hw Hc (q & Hq & Hpt & Hsz & Hk) Hszb [Htl Htf]].
    erewrite bind_ok by (by apply getpipe_ok). replace (pi_readopen p =? 0) with false by lia.
    erewrite bind_ok; [|erewrite bind_ok by (by apply killed_ok); reflexivity]. rewrite Hk. cbn [Z.eqb negb].
    assert (pipe_full p = false) as Hfull.
    { destruct (pipe_full p) eqn:E; [|done]. apply pipe_full_iff in E; [|done]. unfold PIPESIZE in *. lia. }
    rewrite Hfull. erewrite bind_ok by (by apply getp_ok). rewrite Hpt, u64_small by lia.
    destruct (copyin_ok s root T fl sz (addr + i) 1) as (r & bytes & s1 & T1 & fl1 & Hr1 & Hw1 & Hst1 & Hl1 & Hv1 & Hseen & Hcase);
      [done|by eapply runs_as_cur|done|lia|lia|].
    assert (runs_as s1 pr root sz T1 fl1) as Hra1 by (by eapply runs_as_step).
    destruct (uvm_step_fields _ _ _ _ _ _ Hst1) as (_ & _ & _ & Hpp & _).
    erewrite bind_ok by exact Hr1. cbn [fst snd app].
    destruct Hcase as [[-> Hlen]|(-> & Hlen & w & Hw' & Hn)].
    + cbn [Z.eqb]. destruct bytes as [|b [|??]]; [simpl in *; lia| |simpl in *; lia]. cbn [head default].
      erewrite bind_ok by (apply (updpipe_ok _ p); by rewrite Hpp).
      eapply written_cons; [done|done|done|lia|exact Hst1|done|done|done|].
      destruct (push_byte_queue b p Hwf Hfull) as [Hwf' Hq'].
      apply IH; [by apply runs_as_pipes|rsimpl; apply lookup_insert_eq|done|by unfold push_byte; rsimpl|lia..|].
      rewrite <- length_pipe_queue, Hq', length_app, length_pipe_queue. simpl. lia.
    + cbn [Z.eqb]. eapply written_stop; [done|done|lia|done|exact Hst1|done|done|].
      right. exists w. split; [lia|done].
Qed.

(** Bytes leave the front of the queue for the user's memory at [addr + i].
    [failed] says that a byte could not be stored. *)
Definition delivered (s : kst) (pr : nat) (root sz : Z) (T : aspace) (fl : list Z) (pi : Z) (p : pipe)
    (addr : Z) (left : nat) (i : Z) (res : res kst Z) : Prop :=
  ∃ r s1 T' fl' p' bytes (failed : bool),
    res = Ok r (s1 <| pipes := <[pi := p']> (pipes s) |>) ∧
    runs_as s1 pr root sz T' fl' ∧ uvm_step s T fl s1 T' fl' ∧ leaf T ⊆ leaf T' ∧
    (∀ w, uview (ram s1) T' sz w = overwrite (uview (ram s) T sz) (addr + i) bytes w) ∧
    pipe_wf p' ∧ pi_writeopen p' = pi_writeopen p ∧ pipe_queue p = bytes ++ pipe_queue p' ∧
    r = (if failed && (i + Z.of_nat (length bytes) =? 0) then -1 else i + Z.of_nat (length bytes)) ∧
    (if failed then
       (length bytes < left `min` pipe_len p)%nat ∧
       ∃ w, addr + i ≤ w < addr + i + Z.of_nat left ∧ ¬ rw_ok T w
     else length bytes = (left `min` pipe_len p)%nat).

Lemma delivered_stop s pr root sz T fl pi p addr left i s1 T1 fl1 (failed : bool) :
  pipes s !! pi = Some p → pipe_wf p → runs_as s1 pr root sz T1 fl1 →
  uvm_step s T fl s1 T1 fl1 → leaf T ⊆ leaf T1 →
  (∀ w, uview (ram s1) T1 sz w = uview (ram s) T sz w) →
  (if failed then
     (0 < left `min` pipe_len p)%nat ∧ ∃ w, addr + i ≤ w < addr + i + Z.of_nat left ∧ ¬ rw_ok T w
   else left = O ∨ pipe_len p = O) →
  delivered s pr root sz T fl pi p addr left i (Ok (if failed && (i =? 0) then -1 else i) s1).
Proof.
  intros Hp Hwf Hra Hst Hl Hv Hwhy. destruct (uvm_step_fields _ _ _ _ _ _ Hst) as (_ & _ & _ & Hpp & _).
  exists (if failed && (i =? 0) then -1 else i), s1, T1, fl1, p, [], failed. rewrite insert_id by done. rewrite <- Hpp.
  split_and!; try done; [kst_eq s1| | |].
  - intros w. by rewrite overwrite_nil.
  - simpl. by rewrite Z.add_0_r.
  - destruct failed; [done|]. simpl. lia.
Qed.

Lemma delivered_cons s pr root sz T fl pi p addr left i b s1 T1 fl1 r :
  pipes s !! pi = Some p → 0 ≤ i → pipe_queue p = b :: pipe_queue (pop_byte p) →
  uvm_step s T fl s1 T1 fl1 → leaf T ⊆ leaf T1 →
  (∀ w, uview (ram s1) T1 sz w = overwrite (uview (ram s) T sz) (addr + i) [b] w) →
  delivered (s1 <| pipes := <[pi := pop_byte p]> (pipes s1) |>) pr root sz T1 fl1 pi
    (pop_byte p) addr left (i + 1) r →
  delivered s pr root sz T fl pi p addr (S left) i r.
Proof.
  intros Hp Hi Hq Hst1 Hl1 Hv1
    (x & s2 & T2 & fl2 & p2 & bytes & failed & -> & Hra2 & Hst2 & Hl2 & Hv2 & Hwf2 & Hwo2 & Hq2 & -> & Hwhy).
  destruct (uvm_step_fields _ _ _ _ _ _ Hst1) as (_ & _ & _ & Hpp & _). rsimpl.
  apply (uvm_step_pipes _ _ _ _ _ _ (pipes s)) in Hst2.
  replace (s1 <| pipes := <[pi := pop_byte p]> (pipes s1) |> <| pipes := pipes s |>) with s1 in Hst2
    by (rewrite <- Hpp; kst_eq s1).
  assert (pipe_len p = S (pipe_len (pop_byte p))) as Hn
    by (rewrite <- !length_pipe_queue, Hq; done).
  exists (if failed && (i + 1 + Z.of_nat (length bytes) =? 0) then -1 else i + 1 + Z.of_nat (length bytes)),
    (s2 <| pipes := pipes s |>), T2, fl2, p2, (b :: bytes), failed. split_and!; try done.
  - rewrite Hpp, insert_insert_eq. kst_eq s2.
  - by apply runs_as_pipes.
  - by eapply uvm_step_trans.
  - by trans (leaf T1).
  - intros w. rsimpl. rewrite Hv2. rsimpl. erewrite overwrite_ext by exact Hv1.
    replace (addr + (i + 1)) with (addr + i + Z.of_nat (length [b])) by (simpl; lia).
    by rewrite overwrite_app.
  - by rewrite Hq, Hq2.
  - replace (i + Z.of_nat (length (b :: bytes))) with (i + 1 + Z.of_nat (length bytes)) by (simpl; lia). done.
  - destruct failed; cbn [length]; [|lia]. destruct Hwhy as [? (w & Hw & Hnw)]. split; [lia|]. exists w.
    split; [lia|]. intros Hrw. apply Hnw. by eapply rw_ok_mono.
Qed.

Lemma piperead_copy_ok left s pr root sz T fl pi p addr i :
  runs_as s pr root sz T fl → pipes s !! pi = Some p → pipe_wf p →
  0 ≤ addr → 0 ≤ i → addr + i + Z.of_nat left < 2 ^ 64 →
  delivered s pr root sz T fl pi p addr left i (piperead_copy left pi pr addr i s).
Proof.
  revert s T fl p i; induction left as [|left IH]; intros s T fl p i Hra Hp Hwf Ha Hi Hmax.
  - apply (delivered_stop s pr root sz T fl pi p addr 0 i s T fl false); try done; [apply uvm_step_refl|by left].
  - cbn [piperead_copy]. pose proof Hra as [Hw Hc (q & Hq & Hpt & Hsz & Hk) Hszb [Htl Htf]].
    erewrite bind_ok by (by apply getpipe_ok). destruct (pipe_empty p) eqn:Ee.
    { apply (delivered_stop s pr root sz T fl pi p addr (S left) i s T fl false); try done; [apply uvm_step_refl|].
      right. by apply pipe_empty_iff. }
    destruct (pop_byte_queue p Hwf Ee) as (b & Hb & Hwf' & Hqq). erewrite bind_in_range by exact Hb.
    erewrite bind_ok by (by apply getp_ok). rewrite Hpt, u64_small by lia.
    destruct (copyout_ok s root T fl sz (addr + i) [b]) as (r & s1 & T1 & fl1 & k & Hr1 & Hw1 & Hst1 & Hl1 & Hkl & Hv1 & Hcase);
      [done|by eapply runs_as_cur|done|lia|].
    assert (runs_as s1 pr root sz T1 fl1) as Hra1 by (by eapply runs_as_step).
    destruct (uvm_step_fields _ _ _ _ _ _ Hst1) as (_ & _ & _ & Hpp & _).
    erewrite bind_ok by exact Hr1. destruct Hcase as [[-> ->]|(-> & Hk1 & w & Hw' & Hn)].
    + cbn [Z.eqb]. erewrite bind_ok by (apply (updpipe_ok _ p); by rewrite Hpp).
      eapply delivered_cons; [done|done|done|exact Hst1|done|exact Hv1|].
      apply IH; [by apply runs_as_pipes|rsimpl; apply lookup_insert_eq|done|lia..].
    + cbn [Z.eqb]. assert (pipe_len p = S (pipe_len (pop_byte p))) as Hn'
        by (rewrite <- !length_pipe_queue, Hqq; done).
      apply (delivered_stop s pr root sz T fl pi p addr (S left) i s1 T1 fl1 true); try done.
      * intros w'. rewrite Hv1. assert (k = O) as -> by (simpl in *; lia). by rewrite overwrite_nil.
      * split; [lia|]. exists w. split; [simpl in *; lia|done].
Qed.

Lemma runs_as_lock s pr root sz T fl pi :
  runs_as s pr root sz T fl → runs_as (s <| held := Lpipe pi :: held s |>) pr root sz T fl.
Proof.
  intros [Hw Hc Hq Hsz [Hl Hf]]. split; rsimpl; try done.
  - eapply uvm_wf_ext; [exact Hw|by rsimpl|by rsimpl|]. rsimpl.
    pose proof (vm_lock _ _ _ _ (uv_vm _ _ _ _ Hw)). set_solver.
  - split; rsimpl; [done|]. intros i. specialize (Hf i). set_solver.
Qed.

(** The end of both operations: wake the other side, drop the lock. *)
Lemma pipe_finish {A} s pr root sz T fl pi chan hs (x : A) :
  runs_as s pr root sz T fl → held s = Lpipe pi :: hs → Lpipe pi ∉ hs →
  (wakeup chan ;;; release (Lpipe pi) ;;; ret x) s =
    Ok x (s <| procs := imap (wake chan (cur s)) (procs s) |> <| held := hs |>).
Proof.
  intros Hra Hh Hn. erewrite bind_ok by (by apply wakeup_ok, (ra_table _ _ _ _ _ _ Hra)).
  erewrite bind_ok by (apply release_top; [rsimpl; exact Hh|done]). reflexivity.
Qed.

Lemma pipewrite_ok wakeups s pr root sz T fl pi p addr n :
  runs_as s pr root sz T fl → pipes s !! pi = Some p → pipe_wf p → pi_readopen p ≠ 0 →
  Lpipe pi ∉ held s → 0 ≤ addr → 0 ≤ n → addr + n < 2 ^ 64 →
  Z.of_nat (pipe_len p) + n ≤ PIPESIZE →
  ∃ j s' T' fl' p' bytes, pipewrite wakeups pi addr n s = Ok j s' ∧
    uvm_wf s' root T' fl' ∧ held s' = held s ∧ pipes s' = <[pi := p']> (pipes s) ∧
    procs s' = imap (wake (ChNread pi) (cur s)) (procs s) ∧
    (∀ w, uview (ram s') T' sz w = uview (ram s) T sz w) ∧
    pipe_wf p' ∧ pipe_queue p' = pipe_queue p ++ bytes ∧ Z.of_nat (length bytes) = j ∧ 0 ≤ j ≤ n ∧
    seen (uview (ram s) T sz) addr bytes ∧
    (j = n ∨ ∃ w, addr ≤ w < addr + n ∧ ¬ user_ok T w).
Proof.
  intros Hra Hp Hwf Hro Hl Ha Hn Hmax Hroom. unfold pipewrite.
  erewrite bind_ok by (apply curproc_ok, Hra). kcall.
  destruct (pipewrite_loop_ok (wakeups + Z.to_nat n) (s <| held := Lpipe pi :: held s |>) pr root sz T fl pi p addr n 0)
    as (j & s1 & T1 & fl1 & p1 & bytes & Hr & Hra1 & Hst1 & _ & Hv1 & Hwf1 & _ & Hq1 & Hlen & Hj & Hseen & Hwhy);
    try done; try lia; [by apply runs_as_lock|].
  rsimpl. erewrite bind_ok by exact Hr. rewrite Z.add_0_r in *.
  destruct (uvm_step_fields _ _ _ _ _ _ Hst1) as (Hh1 & Hc1 & Hp1 & _). rsimpl.
  erewrite pipe_finish; [|by apply runs_as_pipes|rsimpl; exact Hh1|done]. rsimpl.
  eexists j, _, T1, fl1, p1, bytes. split_and!; [reflexivity|..]; rsimpl; try done; try lia.
  - eapply uvm_wf_ext; [apply Hra1|by rsimpl|by rsimpl|]. rsimpl. apply Hra.
  - by rewrite Hc1, Hp1.
Qed.

Lemma piperead_ok wakeups s pr root sz T fl pi p addr n :
  runs_as s pr root sz T fl → pipes s !! pi = Some p → pipe_wf p →
  (pipe_queue p ≠ [] ∨ pi_writeopen p = 0) →
  Lpipe pi ∉ held s → 0 ≤ addr → 0 ≤ n → addr + n < 2 ^ 64 →
  ∃ r s' T' fl' p' bytes (failed : bool), piperead wakeups pi addr n s = Ok r s' ∧
    uvm_wf s' root T' fl' ∧ held s' = held s ∧ pipes s' = <[pi := p']> (pipes s) ∧
    procs s' = imap (wake (ChNwrite pi) (cur s)) (procs s) ∧
    (∀ w, uview (ram s') T' sz w = overwrite (uview (ram s) T sz) addr bytes w) ∧
    pipe_wf p' ∧ pipe_queue p = bytes ++ pipe_queue p' ∧
    r = (if failed && (Z.of_nat (length bytes) =? 0) then -1 else Z.of_nat (length bytes)) ∧
    (if failed then ∃ w, addr ≤ w < addr + n ∧ ¬ rw_ok T w
     else Z.of_nat (length bytes) = Z.min n (Z.of_nat (length (pipe_queue p)))).
Proof.
  intros Hra Hp Hwf Hne Hl Ha Hn Hmax. unfold piperead.
  erewrite bind_ok by (apply curproc_ok, Hra). kcall.
  assert (piperead_wait wakeups pi pr (s <| held := Lpipe pi :: held s |>) =
          Ok true (s <| held := Lpipe pi :: held s |>)) as Hwait.
  { assert (pipe_empty p && negb (pi_writeopen p =? 0) = false) as E.
    { destruct (pipe_empty p) eqn:Ee; [|done]. destruct Hne as [Hne| ->]; [|done].
      apply pipe_empty_iff in Ee; [|done]. rewrite <- length_pipe_queue in Ee.
      by destruct (pipe_queue p). }
    destruct wakeups; cbn [piperead_wait]; erewrite bind_ok by (apply getpipe_ok; by rsimpl); by rewrite E. }
  erewrite bind_ok by exact Hwait. cbn [negb].
  destruct (piperead_copy_ok (Z.to_nat n) (s <| held := Lpipe pi :: held s |>) pr root sz T fl pi p addr 0)
    as (r & s1 & T1 & fl1 & p1 & bytes & failed & Hr & Hra1 & Hst1 & _ & Hv1 & Hwf1 & _ & Hq1 & Hrr & Hwhy);
    try done; try lia; [by apply runs_as_lock|].
  rsimpl. erewrite bind_ok by exact Hr. rewrite Z.add_0_r in *. rewrite Z.add_0_l in *.
  destruct (uvm_step_fields _ _ _ _ _ _ Hst1) as (Hh1 & Hc1 & Hp1 & _). rsimpl.
  erewrite pipe_finish; [|by apply runs_as_pipes|rsimpl; exact Hh1|done]. rsimpl.
  eexists r, _, T1, fl1, p1, bytes, failed. split_and!; [reflexivity|..]; rsimpl; try done.
  - eapply uvm_wf_ext; [apply Hra1|by rsimpl|by rsimpl|]. rsimpl. apply Hra.
  - by rewrite Hc1, Hp1.
  - rewrite length_pipe_queue. destruct failed; [|lia]. destruct Hwhy as [_ (w & Hw & Hnw)].
    exists w. split; [lia|done].
Qed.

End Transfer.

(** ** Properties *)

(** C32: [pipewrite] with room for its bytes never blocks or panics: it appends
    to the pipe's queue, in order, the bytes the writer has at [addr], all [n]
    of them unless one is not user memory, returns their number, wakes the
    readers and no one else, and drops the pipe's lock. *)
Theorem pipewrite_appends `{Layout, !LayoutOk} wakeups s pr root sz T fl pi p addr n :
  runs_as s pr root sz T fl → pipes s !! pi = Some p → pipe_wf p → pi_readopen p ≠ 0 →
  Lpipe pi ∉ held s → 0 ≤ addr → 0 ≤ n → addr + n < 2 ^ 64 →
  Z.of_nat (pipe_len p) + n ≤ PIPESIZE →
  ∃ j s' T' fl' p' bytes, pipewrite wakeups pi addr n s = Ok j s' ∧
    uvm_wf s' root T' fl' ∧ held s' = held s ∧ pipes s' = <[pi := p']> (pipes s) ∧
    procs s' = imap (wake (ChNread pi) (cur s)) (procs s) ∧
    (∀ w, uview (ram s') T' sz w = uview (ram s) T sz w) ∧
    pipe_wf p' ∧ pipe_queue p' = pipe_queue p ++ bytes ∧ Z.of_nat (length bytes) = j ∧ 0 ≤ j ≤ n ∧
    seen (uview (ram s) T sz) addr bytes ∧
    (j = n ∨ ∃ w, addr ≤ w < addr + n ∧ ¬ user_ok T w).
Proof. apply pipewrite_ok. Qed.

(** C33: [piperead] of a pipe that holds bytes, or whose writers are gone,
    never blocks or panics: it moves [min n (length queue)] bytes from the
    front of the queue to the reader's memory at [addr], in order, and
    returns their number; if the reader's memory ends first it returns the
    bytes moved so far, or -1 if there were none. *)
Theorem piperead_takes_front `{Layout, !LayoutOk} wakeups s pr root sz T fl pi p addr n :
  runs_as s pr root sz T fl → pipes s !! pi = Some p → pipe_wf p →
  (pipe_queue p ≠ [] ∨ pi_writeopen p = 0) →
  Lpipe pi ∉ held s → 0 ≤ addr → 0 ≤ n → addr + n < 2 ^ 64 →
  ∃ r s' T' fl' p' bytes (failed : bool), piperead wakeups pi addr n s = Ok r s' ∧
    uvm_wf s' root T' fl' ∧ held s' = held s ∧ pipes s' = <[pi := p']> (pipes s) ∧
    procs s' = imap (wake (ChNwrite pi) (cur s)) (procs s) ∧
    (∀ w, uview (ram s') T' sz w = overwrite (uview (ram s) T sz) addr bytes w) ∧
    pipe_wf p' ∧ pipe_queue p = bytes ++ pipe_queue p' ∧
    r = (if failed && (Z.of_nat (length bytes) =? 0) then -1 else Z.of_nat (length bytes)) ∧
    (if failed then ∃ w, addr ≤ w < addr + n ∧ ¬ rw_ok T w
     else Z.of_nat (length bytes) = Z.min n (Z.of_nat (length (pipe_queue p)))).
Proof. apply piperead_ok. Qed.

Section Witnesses.
Local Existing Instance qemu_layout.
Local Existing Instance qemu_layout_ok.

(** A pipe whose counters are about to wrap, holding two bytes. *)
Definition demo_pipe : pipe := mkPipe (replicate 512 65) (2 ^ 32 - 1) 1 1 1.

Definition piped : kst := demo <| pipes := {[ 0x80030000 := demo_pipe ]} |>.

Lemma demo_pipe_wf : pipe_wf demo_pipe.
Proof. split; by vm_compute. Qed.

Lemma piped_runs : runs_as piped 0 demo_root 8192 (empty_as demo_root) demo_pages.
Proof.
  apply runs_as_pipes. split.
  - apply demo_uvm.
  - reflexivity.
  - eexists. split; [reflexivity|]. split; [reflexivity|]. split; reflexivity.
  - by vm_compute.
  - split; [reflexivity|]. intros i. apply not_elem_of_nil.
Qed.

Lemma pipewrite_appends_witness :
  ∃ j s' p', pipewrite 0 0x80030000 4094 3 piped = Ok j s' ∧ pipe_wf p' ∧ 0 ≤ j ≤ 3.
Proof.
  destruct (pipewrite_appends 0 piped 0 demo_root 8192 (empty_as demo_root) demo_pages 0x80030000 demo_pipe 4094 3)
    as (j & s' & _ & _ & p' & _ & Hr & _ & _ & _ & _ & _ & Hwf & _ & _ & Hj & _);
    [apply piped_runs|reflexivity|apply demo_pipe_wf|by vm_compute|apply not_elem_of_nil|by vm_compute..|].
  exists j, s', p'. split; [exact Hr|]. split; [exact Hwf|exact Hj].
Defined.

Lemma piperead_takes_front_witness :
  ∃ r s' bytes rest, piperead 0 0x80030000 0 8 piped = Ok r s' ∧ [65; 65] = bytes ++ rest.
Proof.
  destruct (piperead_takes_front 0 piped 0 demo_root 8192 (empty_as demo_root) demo_pages 0x80030000 demo_pipe 0 8)
    as (r & s' & _ & _ & p' & bytes & _ & Hr & _ & _ & _ & _ & _ & _ & Hq & _);
    [apply piped_runs|reflexivity|apply demo_pipe_wf|left; by vm_compute|apply not_elem_of_nil|by vm_compute..|].
  exists r, s', bytes, (pipe_queue p'). split; [exact Hr|]. exact Hq.
Defined.

End Witnesses.
