(* ===== verification/Bytes.v ===== *)
(** * Fields of byte arrays

    Little-endian integers inside the [data] of a disk block, as the file
    system reads and writes them through casts. *)

From Stdlib Require Import ZArith Lia.
From S2P Require Import Prelude.
From stdpp Require Import base gmap strings numbers list.

Open Scope Z_scope.

Fixpoint le_decode (l : list Z) : Z :=
  match l with
  | [] => 0
  | b :: l' => u8 b + 2 ^ 8 * le_decode l'
  end.
Fixpoint le_encode (n : nat) (v : Z) : list Z :=
  match n with
  | O => []
  | S n' => u8 v :: le_encode n' (v / 2 ^ 8)
  end.

(** The [n]-byte integer at offset [off], and the array with it replaced. *)
Definition bget_n (n : nat) (l : list Z) (off : nat) : Z := le_decode (take n (drop off l)).
Definition bput_n (n : nat) (l : list Z) (off : nat) (v : Z) : list Z :=
  take off l ++ le_encode n v ++ drop (off + n) l.

Abbreviation get32 := (bget_n 4).
Abbreviation put32 := (bput_n 4).
Abbreviation get16 := (bget_n 2).
Abbreviation put16 := (bput_n 2).

(** Replace the bytes from [off] by [l']. *)
Definition splice (l : list Z) (off : nat) (l' : list Z) : list Z :=
  take off l ++ l' ++ drop (off + length l') l.

Lemma length_le_encode n v : length (le_encode n v) = n.
Proof. revert v; induction n as [|n IH]; intros v; simpl; [done|]. by rewrite IH. Qed.

Lemma le_decode_encode n v : le_decode (le_encode n v) = v mod 2 ^ (8 * Z.of_nat n).
Proof.
  revert v; induction n as [|n IH]; intros v; cbn [le_encode le_decode]; [by rewrite Z.mod_1_r|].
  rewrite IH. replace (8 * Z.of_nat (S n)) with (8 + 8 * Z.of_nat n) by lia.
  rewrite Z.pow_add_r by lia. unfold u8. change 256 with (2 ^ 8). rewrite Zmod_mod.
  rewrite Z.rem_mul_r by (try apply Z.pow_nonzero; lia). lia.
Qed.

Lemma le_decode_range l : 0 ≤ le_decode l < 2 ^ (8 * Z.of_nat (length l)).
Proof.
  induction l as [|b l IH]; cbn [le_decode length]; [lia|].
  pose proof (u8_range b). replace (8 * Z.of_nat (S (length l))) with (8 + 8 * Z.of_nat (length l)) by lia.
  rewrite Z.pow_add_r by lia. change (2 ^ 8) with 256 in *. nia.
Qed.

Lemma length_bput n l off v : (off + n ≤ length l)%nat → length (bput_n n l off v) = length l.
Proof.
  intros Hl. unfold bput_n. rewrite !length_app, length_le_encode, length_take_le, length_drop by lia. lia.
Qed.

Lemma bget_bput_eq n l off v :
  (off + n ≤ length l)%nat → bget_n n (bput_n n l off v) off = v mod 2 ^ (8 * Z.of_nat n).
Proof.
  intros Hl. unfold bget_n, bput_n. rewrite drop_app_length' by (rewrite length_take_le; lia).
  rewrite take_app_length' by (by rewrite length_le_encode). apply le_decode_encode.
Qed.

Lemma bput_lookup n l off v i :
  (off + n ≤ length l)%nat → (i < off ∨ off + n ≤ i)%nat → bput_n n l off v !! i = l !! i.
Proof.
  intros Hl [Hi|Hi]; unfold bput_n.
  - rewrite lookup_app_l by (rewrite length_take_le; lia). by apply lookup_take_lt.
  - rewrite lookup_app_r by (rewrite length_take_le; lia). rewrite length_take_le by lia.
    rewrite lookup_app_r by (rewrite length_le_encode; lia). rewrite length_le_encode, lookup_drop.
    f_equal. lia.
Qed.

Lemma bget_ext n l l' off :
  (∀ i, (off ≤ i < off + n)%nat → l !! i = l' !! i) → bget_n n l off = bget_n n l' off.
Proof.
  intros Hx. unfold bget_n. f_equal. apply list_eq. intros i.
  destruct (decide (i < n)%nat) as [Hi|Hi].
  - rewrite !lookup_take_lt by done. rewrite !lookup_drop. apply Hx. lia.
  - by rewrite !lookup_take_ge by lia.
Qed.

Lemma bget_bput_ne n n' l off off' v :
  (off + n ≤ length l)%nat → (off' + n' ≤ off ∨ off + n ≤ off')%nat →
  bget_n n' (bput_n n l off v) off' = bget_n n' l off'.
Proof. intros Hl Ho. apply bget_ext. intros i Hi. apply bput_lookup; lia. Qed.

Lemma length_splice l off l' :
  (off + length l' ≤ length l)%nat → length (splice l off l') = length l.
Proof.
  intros Hl. unfold splice. rewrite !length_app, length_take_le, length_drop by lia. lia.
Qed.

Lemma splice_lookup l off d k :
  (off + length d ≤ length l)%nat →
  splice l off d !! k = if decide (off ≤ k < off + length d)%nat then d !! (k - off)%nat else l !! k.
Proof.
  intros Hl. unfold splice. destruct (decide (k < off)%nat) as [Hlt|Hge].
  - rewrite lookup_app_l, lookup_take_lt by (rewrite ?length_take; lia). by rewrite decide_False by lia.
  - rewrite lookup_app_r by (rewrite length_take; lia). rewrite length_take, Nat.min_l by lia.
    destruct (decide (off ≤ k < off + length d)%nat) as [Hin|Hout]; [by rewrite lookup_app_l by lia|].
    rewrite lookup_app_r, lookup_drop by lia. f_equal. lia.
Qed.

Lemma splice_all l l' : length l' = length l → splice l 0 l' = l'.
Proof. intros Hl. unfold splice. rewrite take_0, drop_ge, app_nil_r by (simpl; lia). done. Qed.
