(* ===== verification/Sleeplock.v ===== *)
(** * kernel/sleeplock.c: long-term locks *)

From Stdlib Require Import ZArith Lia.
From S2P Require Import Prelude Params State Process.
From stdpp Require Import base gmap strings numbers list.

Open Scope Z_scope.

(** How often a process may be woken inside one waiting loop; the loops are
    unfolded this many times. *)
Class Wakeups := wakeups : nat.

(** The sleep locks of the kernel: one in each inode and in each buffer. *)
Inductive slk : Type := SlInode (i : nat) | SlBuf (i : nat).

Definition slk_lock (lk : slk) : lock :=
  match lk with SlInode i => Lsleep_inode i | SlBuf i => Lsleep_buf i end.
Definition slk_chan (lk : slk) : channel :=
  match lk with SlInode i => ChInodeLock i | SlBuf i => ChBufLock i end.

Definition sl_lookup (lk : slk) (s : kst) : option sleeplock :=
  match lk with
  | SlInode i => i_lock <$> itable s !! i
  | SlBuf i => b_lock <$> bufs s !! i
  end.
Definition sl_store (lk : slk) (v : sleeplock) (s : kst) : kst :=
  match lk with
  | SlInode i => s <| itable ::= alter (λ ip, ip <| i_lock := v |>) i |>
  | SlBuf i => s <| bufs ::= alter (λ b, b <| b_lock := v |>) i |>
  end.

Definition sl_get (lk : slk) : KM sleeplock := λ s,
  match sl_lookup lk s with Some v => Ok v s | None => Fault end.
Definition sl_put (lk : slk) (v : sleeplock) : KM unit := modify (sl_store lk v).

Definition initsleeplock (lk : slk) : KM unit := sl_put lk (mkSleeplock 0 0).

(** [while (lk->locked) sleep(lk, &lk->lk)] *)
Fixpoint acquiresleep_wait (fuel : nat) (lk : slk) : KM unit :=
  v <- sl_get lk ;;
  if sl_locked v =? 0 then ret tt
  else match fuel with
       | O => nofuel
       | S fuel' => sleep (slk_chan lk) (slk_lock lk) ;;; acquiresleep_wait fuel' lk
       end.

Section Sleeplock.
Context `{Wakeups}.

Definition acquiresleep (lk : slk) : KM unit :=
  acquire (slk_lock lk) ;;;
  acquiresleep_wait wakeups lk ;;;
  i <- curproc ;;
  p <- getp i ;;
  sl_put lk (mkSleeplock 1 (p_pid p)) ;;;
  release (slk_lock lk).

Definition releasesleep (lk : slk) : KM unit :=
  acquire (slk_lock lk) ;;;
  sl_put lk (mkSleeplock 0 0) ;;;
  wakeup (slk_chan lk) ;;;
  release (slk_lock lk).

Definition holdingsleep (lk : slk) : KM bool :=
  acquire (slk_lock lk) ;;;
  v <- sl_get lk ;;
  i <- curproc ;;
  p <- getp i ;;
  release (slk_lock lk) ;;;
  ret (negb (sl_locked v =? 0) && (sl_pid v =? p_pid p)).

End Sleeplock.

(** ** Behaviour without contention *)

(** The running process, with no spin lock of its own or of a sleep lock
    held by this hart. *)
Record running (s : kst) (i : nat) (pid : Z) : Prop := {
  rn_cur : cur s = Some i;
  rn_proc : p_pid <$> procs s !! i = Some pid;
  rn_len : length (procs s) = NPROC;
  rn_held : held s = []
}.

Lemma running_table s i pid : running s i pid → table_free s.
Proof. intros [_ _ Hl Hh]. split; [done|]. intros j. rewrite Hh. apply not_elem_of_nil. Qed.

Lemma sl_lookup_store lk v v' s : sl_lookup lk s = Some v → sl_lookup lk (sl_store lk v' s) = Some v'.
Proof.
  destruct lk as [i|i]; unfold sl_lookup, sl_store; rsimpl; intros Hl;
    apply fmap_Some in Hl as (x & Hx & _); rewrite list_lookup_alter_eq, Hx; simpl; by rsimpl.
Qed.

Section Uncontended.
Context `{Wakeups}.

Lemma sl_store_fields lk v s :
  held (sl_store lk v s) = held s ∧ cur (sl_store lk v s) = cur s ∧ procs (sl_store lk v s) = procs s.
Proof. destruct lk; unfold sl_store; by rsimpl. Qed.

Lemma sl_lookup_held lk s h : sl_lookup lk (s <| held := h |>) = sl_lookup lk s.
Proof. destruct lk; unfold sl_lookup; by rsimpl. Qed.

Lemma sl_store_held lk v s h : sl_store lk v (s <| held := h |>) = (sl_store lk v s) <| held := h |>.
Proof. destruct lk; unfold sl_store; kst_eq s. Qed.

Lemma acquiresleep_ok lk s i pid v :
  running s i pid → sl_lookup lk s = Some v → sl_locked v = 0 →
  acquiresleep lk s = Ok tt (sl_store lk (mkSleeplock 1 pid) s).
Proof.
  intros [Hc Hp Hl Hh] Hv H0. unfold acquiresleep.
  assert (slk_lock lk ∉ held s) as Hn by (rewrite Hh; apply not_elem_of_nil).
  kcall. erewrite bind_ok.
  2:{ instantiate (2 := tt). destruct wakeups; cbn [acquiresleep_wait];
        (erewrite bind_ok; [|unfold sl_get; rewrite sl_lookup_held, Hv; reflexivity]); rewrite H0; reflexivity. }
  apply fmap_Some in Hp as (q & Hq & ->).
  erewrite bind_ok; [|unfold curproc, myproc, bind, gets; simpl; rsimpl; rewrite Hc; reflexivity].
  erewrite bind_ok by (apply getp_ok; by rsimpl). unfold sl_put. kstep.
  rewrite sl_store_held. destruct (sl_store_fields lk (mkSleeplock 1 (p_pid q)) s) as (Hh' & _).
  erewrite release_top; [|rsimpl; reflexivity|done]. by rewrite held_held, <- Hh', held_eta.
Qed.

Lemma holdingsleep_ok lk s i pid v :
  running s i pid → sl_lookup lk s = Some v →
  holdingsleep lk s = Ok (negb (sl_locked v =? 0) && (sl_pid v =? pid)) s.
Proof.
  intros [Hc Hp Hl Hh] Hv. unfold holdingsleep.
  assert (slk_lock lk ∉ held s) as Hn by (rewrite Hh; apply not_elem_of_nil).
  kcall. erewrite bind_ok; [|unfold sl_get; rewrite sl_lookup_held, Hv; reflexivity].
  apply fmap_Some in Hp as (q & Hq & ->).
  erewrite bind_ok; [|unfold curproc, myproc, bind, gets; simpl; rsimpl; rewrite Hc; reflexivity].
  erewrite bind_ok by (apply getp_ok; by rsimpl). krel. kst_eq s.
Qed.

Lemma releasesleep_ok lk s i pid v :
  running s i pid → sl_lookup lk s = Some v →
  releasesleep lk s =
    Ok tt ((sl_store lk (mkSleeplock 0 0) s)
             <| procs := imap (wake (slk_chan lk) (cur s)) (procs s) |>).
Proof.
  intros Hr Hv. pose proof Hr as [Hc Hp Hl Hh]. unfold releasesleep.
  assert (slk_lock lk ∉ held s) as Hn by (rewrite Hh; apply not_elem_of_nil).
  kcall. unfold sl_put. kstep. rewrite sl_store_held.
  destruct (sl_store_fields lk (mkSleeplock 0 0) s) as (Hh' & Hc' & Hp').
  erewrite bind_ok.
  2:{ apply wakeup_ok. split; rsimpl; [by rewrite Hp'|]. intros j. rewrite Hh. destruct lk; set_solver. }
  rsimpl. rewrite Hc', Hp'. erewrite release_top; [|rsimpl; reflexivity|done].
  f_equal. set (x := sl_store lk (mkSleeplock 0 0) s) in *. rewrite <- Hh'. kst_eq x.
Qed.

End Uncontended.
