(* ===== verification/Bio.v ===== *)
(** * kernel/bio.c: the buffer cache

    Buffers [0 .. NBUF-1] and the list head [NBUF] are linked through
    [b_prev] and [b_next] in order of last use.  The disk driver is an
    interface: [BlockDev] names the operation, [BlockDevOk] says what the
    cache relies on. *)

From Stdlib Require Import ZArith Lia.
From S2P Require Import Prelude Params State Process Bytes Sleeplock.
From stdpp Require Import base gmap strings numbers list.

Open Scope Z_scope.

(** [bcache.head] *)
Definition HEAD : nat := NBUF.

Definition getb (i : nat) : KM buf := λ s,
  match bufs s !! i with Some b => Ok b s | None => Fault end.
Definition updb (i : nat) (f : buf → buf) : KM unit :=
  b <- getb i ;; modify (λ s, s <| bufs ::= <[i := f b]> |>).

(** A block of the disk; blocks never written read as zeros. *)
Definition dblock (d : gmap Z (list Z)) (n : Z) : list Z :=
  default (replicate (Z.to_nat BSIZE) 0) (d !! n).

(** [virtio_disk_rw(b, write)] *)
Class BlockDev := virtio_disk_rw : nat → bool → KM unit.

(** A transfer started by a process that holds no spin lock completes: a read
    fills the buffer with the block, a write stores the block. *)
Class BlockDevOk `{BlockDev} : Prop := {
  disk_read i b s :
    bufs s !! i = Some b → held s = [] → cur s ≠ None →
    virtio_disk_rw i false s =
      Ok tt (s <| bufs := <[i := b <| b_data := dblock (disk s) (b_blockno b) |>]> (bufs s) |>);
  disk_write i b s :
    bufs s !! i = Some b → held s = [] → cur s ≠ None →
    virtio_disk_rw i true s =
      Ok tt (s <| disk := <[b_blockno b := b_data b]> (disk s) |>
               <| disk_trace := (b_blockno b, b_data b) :: disk_trace s |>)
}.

Section Bio.
Context `{Wakeups, BlockDev}.

Definition binit_slot (b : nat) : KM (option unit) :=
  h <- getb HEAD ;;
  updb b (λ x, x <| b_next := b_next h |> <| b_prev := HEAD |>) ;;;
  initsleeplock (SlBuf b) ;;;
  h <- getb HEAD ;;
  updb (b_next h) (λ x, x <| b_prev := b |>) ;;;
  updb HEAD (λ x, x <| b_next := b |>) ;;;
  ret None.

Definition binit : KM unit :=
  updb HEAD (λ h, h <| b_prev := HEAD |> <| b_next := HEAD |>) ;;;
  for_each (seq 0 NBUF) binit_slot ;;;
  ret tt.

(** [for(b = bcache.head.next; b != &bcache.head; b = b->next)] *)
Fixpoint bget_scan (fuel : nat) (dev blockno : Z) (b : nat) : KM (option nat) :=
  if (b =? HEAD)%nat then ret None
  else match fuel with
       | O => nofuel
       | S fuel' =>
           x <- getb b ;;
           if (b_dev x =? dev) && (b_blockno x =? blockno) then ret (Some b)
           else bget_scan fuel' dev blockno (b_next x)
       end.

(** [for(b = bcache.head.prev; b != &bcache.head; b = b->prev)] *)
Fixpoint bget_lru (fuel : nat) (b : nat) : KM (option nat) :=
  if (b =? HEAD)%nat then ret None
  else match fuel with
       | O => nofuel
       | S fuel' =>
           x <- getb b ;;
           if b_refcnt x =? 0 then ret (Some b) else bget_lru fuel' (b_prev x)
       end.

(** The list has [NBUF] buffers, so [NBUF] steps reach its head again. *)
Definition bget (dev blockno : Z) : KM nat :=
  acquire Lbcache ;;;
  h <- getb HEAD ;;
  hit <- bget_scan NBUF dev blockno (b_next h) ;;
  match hit with
  | Some b =>
      updb b (λ x, x <| b_refcnt := u32 (b_refcnt x + 1) |>) ;;;
      release Lbcache ;;;
      acquiresleep (SlBuf b) ;;;
      ret b
  | None =>
      h <- getb HEAD ;;
      victim <- bget_lru NBUF (b_prev h) ;;
      match victim with
      | Some b =>
          updb b (λ x, x <| b_dev := dev |> <| b_blockno := blockno |> <| b_valid := 0 |>
                         <| b_refcnt := 1 |>) ;;;
          release Lbcache ;;;
          acquiresleep (SlBuf b) ;;;
          ret b
      | None => panic "bget: no buffers"
      end
  end.

Definition bread (dev blockno : Z) : KM nat :=
  b <- bget dev blockno ;;
  x <- getb b ;;
  (when b_valid x =? 0 do
     (virtio_disk_rw b false ;;; updb b (λ x, x <| b_valid := 1 |>))) ;;;
  ret b.

Definition bwrite (b : nat) : KM unit :=
  h <- holdingsleep (SlBuf b) ;;
  if negb h then panic "bwrite" else virtio_disk_rw b true.

(** Unlink [b] and put it behind the head. *)
Definition lru_front (b : nat) : KM unit :=
  x <- getb b ;;
  updb (b_next x) (λ y, y <| b_prev := b_prev x |>) ;;;
  x <- getb b ;;
  updb (b_prev x) (λ y, y <| b_next := b_next x |>) ;;;
  h <- getb HEAD ;;
  updb b (λ y, y <| b_next := b_next h |>) ;;;
  updb b (λ y, y <| b_prev := HEAD |>) ;;;
  h <- getb HEAD ;;
  updb (b_next h) (λ y, y <| b_prev := b |>) ;;;
  updb HEAD (λ y, y <| b_next := b |>).

Definition brelse (b : nat) : KM unit :=
  h <- holdingsleep (SlBuf b) ;;
  if negb h then panic "brelse"
  else
    releasesleep (SlBuf b) ;;;
    acquire Lbcache ;;;
    updb b (λ x, x <| b_refcnt := u32 (b_refcnt x - 1) |>) ;;;
    x <- getb b ;;
    (when b_refcnt x =? 0 do lru_front b) ;;;
    release Lbcache.

Definition bpin (b : nat) : KM unit :=
  acquire Lbcache ;;;
  updb b (λ x, x <| b_refcnt := u32 (b_refcnt x + 1) |>) ;;;
  release Lbcache.

Definition bunpin (b : nat) : KM unit :=
  acquire Lbcache ;;;
  updb b (λ x, x <| b_refcnt := u32 (b_refcnt x - 1) |>) ;;;
  release Lbcache.

End Bio.

(** ** The list of buffers *)

(** From [a], following [N] visits [l] and then [z]; [P] leads back. *)
Fixpoint dlseg (N P : nat → nat) (a : nat) (l : list nat) (z : nat) : Prop :=
  match l with
  | [] => N a = z ∧ P z = a
  | c :: l' => N a = c ∧ P c = a ∧ dlseg N P c l' z
  end.

Definition upd (f : nat → nat) (x v : nat) : nat → nat := λ y, if decide (y = x) then v else f y.

Lemma upd_eq f x v : upd f x v x = v.
Proof. unfold upd. by rewrite decide_True. Qed.
Lemma upd_ne f x v y : y ≠ x → upd f x v y = f y.
Proof. intros. unfold upd. by rewrite decide_False. Qed.

Lemma dlseg_app N P a l1 b l2 z :
  dlseg N P a (l1 ++ b :: l2) z ↔ dlseg N P a l1 b ∧ dlseg N P b l2 z.
Proof.
  revert a; induction l1 as [|c l1 IH]; intros a; cbn [app dlseg]; [tauto|]. rewrite IH. tauto.
Qed.

(** Links of other nodes may change. *)
Lemma dlseg_frame N P N' P' a l z :
  (∀ x, x = a ∨ x ∈ l → N' x = N x) → (∀ x, x ∈ l ∨ x = z → P' x = P x) →
  dlseg N P a l z → dlseg N' P' a l z.
Proof.
  revert a; induction l as [|c l IH]; intros a HN HP; cbn [dlseg].
  - rewrite HN, HP by auto. done.
  - intros (H1 & H2 & H3). rewrite HN, HP by set_solver. split_and!; try done.
    apply IH; [|set_solver|done]. set_solver.
Qed.

Lemma dlseg_unlink N P h l1 b l2 :
  NoDup (h :: l1 ++ b :: l2) → dlseg N P h (l1 ++ b :: l2) h →
  dlseg (upd N (P b) (N b)) (upd P (N b) (P b)) h (l1 ++ l2) h.
Proof.
  intros Hnd Hs. apply dlseg_app in Hs as [H1 H2].
  destruct l1 as [|p l1' _] using rev_ind.
  - destruct H1 as [_ Hp]. rewrite Hp. destruct l2 as [|n l2].
    + destruct H2 as [-> _]. cbn [app dlseg]. by rewrite !upd_eq.
    + destruct H2 as (-> & _ & H2). cbn [app dlseg]. rewrite !upd_eq. split_and!; try done.
      cbn [app] in Hnd. rewrite !NoDup_cons in Hnd. eapply dlseg_frame; [| |exact H2]; intros x Hx; apply upd_ne; set_solver.
  - apply dlseg_app in H1 as [H0 [_ Hp]]. rewrite Hp.
    apply NoDup_cons in Hnd as [Hh Hnd]. apply NoDup_app in Hnd as (Hn1 & Hd & Hn2).
    apply NoDup_cons in Hn2 as [Hb Hn2]. apply NoDup_app in Hn1 as (_ & Hd1 & _).
    assert (p ∉ l1') as Hp1 by (intros Hin; apply (Hd1 p Hin); left).
    assert (p ∉ b :: l2) as Hp2 by (apply Hd, elem_of_app; right; left).
    assert (∀ x, x ∈ l1' → x ∉ b :: l2) as Hd2 by (intros x Hx; apply Hd, elem_of_app; by left).
    clear Hd Hd1. rewrite !elem_of_app, !elem_of_cons in Hh.
    rewrite <- app_assoc. cbn [app]. apply dlseg_app. destruct l2 as [|n l2].
    + destruct H2 as [-> _]. split.
      * eapply dlseg_frame; [| |exact H0]; intros x Hx; apply upd_ne; set_solver.
      * cbn [dlseg]. by rewrite !upd_eq.
    + destruct H2 as (-> & _ & H2). split.
      * eapply dlseg_frame; [| |exact H0]; intros x Hx; apply upd_ne; set_solver.
      * cbn [dlseg]. rewrite !upd_eq. split_and!; try done. rewrite NoDup_cons in *.
        eapply dlseg_frame; [| |exact H2]; intros x Hx; apply upd_ne; set_solver.
Qed.

Lemma dlseg_push N P h b l :
  NoDup (h :: b :: l) → dlseg N P h l h →
  dlseg (upd (upd N b (N h)) h b) (upd (upd P b h) (N h) b) h (b :: l) h.
Proof.
  rewrite !NoDup_cons. intros (Hh & Hb & Hnd) Hs. assert (b ≠ h) by set_solver.
  destruct l as [|c l]; cbn [dlseg] in *.
  - destruct Hs as [-> _]. rewrite upd_eq, (upd_ne _ h b b), (upd_ne _ h b b), !upd_eq by done. done.
  - destruct Hs as (-> & Hc & Hs). rewrite upd_eq. rewrite (upd_ne _ c b b) by set_solver.
    rewrite (upd_ne _ h b b), !upd_eq by done. split_and!; try done.
    rewrite NoDup_cons in Hnd.
    eapply dlseg_frame; [| |exact Hs]; intros x Hx; rewrite !upd_ne by set_solver; done.
Qed.
