(* ===== verification/BioRep.v ===== *)
(** * The buffer cache as a view of the disk

    The invariant of the cache (a list of all buffers in order of use, at most
    one buffer per block, unreferenced buffers equal to the disk) and what
    [bread], [bwrite], [brelse], [bpin] and [bunpin] do to the contents of the
    blocks as seen through it. *)

From Stdlib Require Import ZArith Lia.
From S2P Require Import Prelude Params State Process Bytes Sleeplock Bio.
From stdpp Require Import base gmap strings numbers list.

Open Scope Z_scope.

Definition N_of (B : list buf) (i : nat) : nat := default i (b_next <$> B !! i).
Definition P_of (B : list buf) (i : nat) : nat := default i (b_prev <$> B !! i).

(** Buffer [x] caches block [n] of the root device. *)
Definition caches (n : Z) (x : buf) : Prop := b_dev x = ROOTDEV ∧ b_blockno x = n.
#[export] Instance caches_dec n x : Decision (caches n x).
Proof. unfold caches. apply _. Defined.

(** The contents of block [n], through the cache. *)
Definition blk (s : kst) (n : Z) : list Z :=
  match list_find (λ x, caches n x ∧ b_valid x ≠ 0) (take NBUF (bufs s)) with
  | Some (_, x) => b_data x
  | None => dblock (disk s) n
  end.

Record bcache_wf (s : kst) (l : list nat) : Prop := {
  bw_len : length (bufs s) = S NBUF;
  bw_perm : l ≡ₚ seq 0 NBUF;
  bw_list : dlseg (N_of (bufs s)) (P_of (bufs s)) HEAD l HEAD;
  bw_uniq : ∀ i j x y n, (i < NBUF)%nat → (j < NBUF)%nat → bufs s !! i = Some x → bufs s !! j = Some y →
    caches n x → caches n y → i = j;
  bw_ref : ∀ i x, bufs s !! i = Some x → 0 ≤ b_refcnt x < 2 ^ 31;
  bw_clean : ∀ i x, (i < NBUF)%nat → bufs s !! i = Some x → b_valid x ≠ 0 → b_refcnt x = 0 →
    b_data x = dblock (disk s) (b_blockno x);
  bw_dev : ∀ i x, (i < NBUF)%nat → bufs s !! i = Some x → b_valid x ≠ 0 → b_dev x = ROOTDEV;
  bw_free : ∀ i x, (i < NBUF)%nat → bufs s !! i = Some x → b_refcnt x = 0 → sl_locked (b_lock x) = 0;
  bw_head : ∀ x, bufs s !! HEAD = Some x → b_dev x ≠ ROOTDEV
}.

(** ** Reading the view *)

Lemma blk_cached s l n i x :
  bcache_wf s l → (i < NBUF)%nat → bufs s !! i = Some x → caches n x → b_valid x ≠ 0 → blk s n = b_data x.
Proof.
  intros Hw Hi Hx Hc Hv. unfold blk. destruct (list_find _ _) as [[j y]|] eqn:E.
  - apply list_find_Some in E as (Hy & [Hcy _] & _). apply lookup_take_Some in Hy as [Hy Hj].
    assert (i = j) as -> by (by eapply bw_uniq). congruence.
  - exfalso. rewrite list_find_None, Forall_forall in E. apply (E x); [|done].
    apply list_elem_of_lookup. exists i. by rewrite lookup_take_lt.
Qed.

Lemma blk_uncached s n :
  (∀ i x, (i < NBUF)%nat → bufs s !! i = Some x → caches n x → b_valid x = 0) → blk s n = dblock (disk s) n.
Proof.
  intros Hn. unfold blk. destruct (list_find _ _) as [[j y]|] eqn:E; [|done].
  apply list_find_Some in E as (Hy & [Hcy Hv] & _). apply lookup_take_Some in Hy as [Hy Hj].
  exfalso. apply Hv. by eapply Hn.
Qed.

(** A block is cached in a valid buffer or not. *)
Lemma blk_cases s l n :
  bcache_wf s l →
  (∃ i x, (i < NBUF)%nat ∧ bufs s !! i = Some x ∧ caches n x ∧ b_valid x ≠ 0 ∧ blk s n = b_data x) ∨
  ((∀ i x, (i < NBUF)%nat → bufs s !! i = Some x → caches n x → b_valid x = 0) ∧
   blk s n = dblock (disk s) n).
Proof.
  intros Hw. destruct (list_find (λ x, caches n x ∧ b_valid x ≠ 0) (take NBUF (bufs s))) as [[j y]|] eqn:E.
  - left. apply list_find_Some in E as (Hy & [Hcy Hv] & _). apply lookup_take_Some in Hy as [Hy Hj].
    exists j, y. split_and!; try done. by eapply blk_cached.
  - right. assert (∀ i x, (i < NBUF)%nat → bufs s !! i = Some x → caches n x → b_valid x = 0) as Hn.
    { intros i x Hi Hx Hc. destruct (decide (b_valid x = 0)) as [|Hv]; [done|]. exfalso.
      rewrite list_find_None, Forall_forall in E. apply (E x); [|done].
      apply list_elem_of_lookup. exists i. by rewrite lookup_take_lt. }
    split; [done|by apply blk_uncached].
Qed.

(** ** Scanning the list *)

Lemma perm_bound l i : l ≡ₚ seq 0 NBUF → i ∈ l ↔ (i < NBUF)%nat.
Proof. intros Hp. rewrite Hp, elem_of_seq. lia. Qed.

Lemma perm_nodup l : l ≡ₚ seq 0 NBUF → NoDup (HEAD :: l).
Proof.
  intros Hp. rewrite NoDup_cons. split; [rewrite perm_bound by done; unfold HEAD; lia|].
  rewrite Hp. apply NoDup_seq.
Qed.

Lemma getb_ok i b s : bufs s !! i = Some b → getb i s = Ok b s.
Proof. intros Hb. unfold getb. by rewrite Hb. Qed.

Lemma updb_ok i f b s : bufs s !! i = Some b → updb i f s = Ok tt (s <| bufs := <[i := f b]> (bufs s) |>).
Proof. intros Hb. unfold updb. erewrite bind_ok by (by apply getb_ok). reflexivity. Qed.

Lemma bget_scan_ok fuel s dev n l a :
  (∀ i, i ∈ l → (i < NBUF)%nat) → length (bufs s) = S NBUF →
  dlseg (N_of (bufs s)) (P_of (bufs s)) a l HEAD → (length l ≤ fuel)%nat →
  ∃ r, bget_scan fuel dev n (N_of (bufs s) a) s = Ok r s ∧
    match r with
    | Some b => b ∈ l ∧ ∃ x, bufs s !! b = Some x ∧ b_dev x = dev ∧ b_blockno x = n
    | None => ∀ b x, b ∈ l → bufs s !! b = Some x → ¬ (b_dev x = dev ∧ b_blockno x = n)
    end.
Proof.
  intros Hb Hlen. revert fuel a; induction l as [|c l IH]; intros fuel a Hs Hf; cbn [dlseg] in Hs.
  - destruct Hs as [-> _]. exists None. split; [by destruct fuel|]. intros b x Hin.
    by apply not_elem_of_nil in Hin.
  - destruct Hs as (-> & _ & Hs). assert (c < NBUF)%nat as Hc by (apply Hb; left).
    destruct fuel as [|fuel]; [simpl in Hf; lia|]. cbn [bget_scan].
    replace (c =? HEAD)%nat with false by (symmetry; apply Nat.eqb_neq; unfold HEAD; lia).
    destruct (lookup_lt_is_Some_2 (bufs s) c ltac:(lia)) as [x Hx].
    erewrite bind_ok by (by apply getb_ok).
    destruct ((b_dev x =? dev) && (b_blockno x =? n)) eqn:E.
    + exists (Some c). split; [done|]. split; [left|]. exists x. split; [done|]. lia.
    + destruct (IH ltac:(set_solver) fuel c Hs ltac:(simpl in Hf; lia)) as (r & Hr & Hcase).
      exists r. split.
      * rewrite <- Hr. unfold N_of. by rewrite Hx.
      * destruct r as [b|].
        -- destruct Hcase as [Hin Hx']. split; [by right|done].
        -- intros b y Hin Hy. apply elem_of_cons in Hin as [->|Hin]; [|by eapply Hcase].
           simplify_eq. lia.
Qed.

Lemma bget_lru_ok fuel s l a :
  (∀ i, i ∈ l → (i < NBUF)%nat) → length (bufs s) = S NBUF →
  dlseg (N_of (bufs s)) (P_of (bufs s)) HEAD l a → (length l ≤ fuel)%nat →
  ∃ r, bget_lru fuel (P_of (bufs s) a) s = Ok r s ∧
    match r with
    | Some b => b ∈ l ∧ ∃ x, bufs s !! b = Some x ∧ b_refcnt x = 0
    | None => ∀ b x, b ∈ l → bufs s !! b = Some x → b_refcnt x ≠ 0
    end.
Proof.
  intros Hb Hlen. revert fuel a; induction l as [|c l IH] using rev_ind; intros fuel a Hs Hf.
  - destruct Hs as [_ ->]. exists None. split; [by destruct fuel|]. intros b x Hin.
    by apply not_elem_of_nil in Hin.
  - apply dlseg_app in Hs as [Hs [_ ->]]. assert (c < NBUF)%nat as Hc by (apply Hb; set_solver).
    rewrite length_app in Hf. simpl in Hf. destruct fuel as [|fuel]; [lia|]. cbn [bget_lru].
    replace (c =? HEAD)%nat with false by (symmetry; apply Nat.eqb_neq; unfold HEAD; lia).
    destruct (lookup_lt_is_Some_2 (bufs s) c ltac:(lia)) as [x Hx].
    erewrite bind_ok by (by apply getb_ok).
    destruct (b_refcnt x =? 0) eqn:E.
    + exists (Some c). split; [done|]. split; [set_solver|]. exists x. split; [done|lia].
    + destruct (IH ltac:(set_solver) fuel c Hs ltac:(lia)) as (r & Hr & Hcase).
      exists r. split.
      * rewrite <- Hr. unfold P_of. by rewrite Hx.
      * destruct r as [b|].
        -- destruct Hcase as [Hin Hx']. split; [set_solver|done].
        -- intros b y Hin Hy. apply elem_of_app in Hin as [Hin|Hin]; [by eapply Hcase|].
           apply list_elem_of_singleton in Hin as ->. simplify_eq. lia.
Qed.

(** ** [bget] and [bread] *)

(** Only the cache, the process states and the disk changed, and something may
    have been printed. *)
Definition bframe (s s' : kst) : Prop :=
  s' = s <| bufs := bufs s' |> <| procs := procs s' |> <| disk := disk s' |>
         <| disk_trace := disk_trace s' |> <| printed := printed s' |>.

Lemma bframe_refl s : bframe s s.
Proof. unfold bframe. kst_eq s. Qed.
Lemma bframe_trans s1 s2 s3 : bframe s1 s2 → bframe s2 s3 → bframe s1 s3.
Proof. unfold bframe. intros H1 H2. rewrite H2, H1. rsimpl. kst_eq s1. Qed.
Lemma bframe_bufs s B : bframe s (s <| bufs := B |>).
Proof. unfold bframe. rsimpl. kst_eq s. Qed.

Lemma running_bframe s s' i pid :
  running s i pid → bframe s s' → p_pid <$> procs s' !! i = Some pid → length (procs s') = NPROC →
  running s' i pid.
Proof. intros [Hc Hp Hl Hh] Hf Hp' Hl'. split; try done; rewrite Hf; by rsimpl. Qed.

Lemma running_bufs s B i pid : running s i pid → running (s <| bufs := B |>) i pid.
Proof. intros [Hc Hp Hl Hh]. split; by rsimpl. Qed.

Lemma links_set B i x y :
  B !! i = Some x → b_next y = b_next x → b_prev y = b_prev x →
  (∀ j, N_of (<[i := y]> B) j = N_of B j) ∧ (∀ j, P_of (<[i := y]> B) j = P_of B j).
Proof.
  intros Hx Hn Hp. pose proof (lookup_lt_Some _ _ _ Hx).
  split; intros j; unfold N_of, P_of; (destruct (decide (j = i)) as [->|Hne];
    [rewrite list_lookup_insert_eq, Hx by done; simpl; congruence|by rewrite list_lookup_insert_ne]).
Qed.

(** Replacing buffer [i], its links kept. *)
Lemma bcache_wf_set s l i x y d t :
  bcache_wf s l → (i < NBUF)%nat → bufs s !! i = Some x →
  b_next y = b_next x → b_prev y = b_prev x → 0 ≤ b_refcnt y < 2 ^ 31 →
  (∀ n j z, caches n y → j ≠ i → (j < NBUF)%nat → bufs s !! j = Some z → ¬ caches n z) →
  (b_valid y ≠ 0 → b_refcnt y = 0 → b_data y = dblock d (b_blockno y)) →
  (b_valid y ≠ 0 → b_dev y = ROOTDEV) → (b_refcnt y = 0 → sl_locked (b_lock y) = 0) →
  (∀ j z, j ≠ i → (j < NBUF)%nat → bufs s !! j = Some z → b_valid z ≠ 0 → b_refcnt z = 0 →
     dblock d (b_blockno z) = dblock (disk s) (b_blockno z)) →
  bcache_wf (s <| bufs := <[i := y]> (bufs s) |> <| disk := d |> <| disk_trace := t |>) l.
Proof.
  intros Hw Hi Hx Hn Hp Hr Hu Hc Hd Hf Hdisk. destruct (links_set _ _ _ _ Hx Hn Hp) as [HN HP].
  pose proof (lookup_lt_Some _ _ _ Hx).
  assert (∀ j z, <[i := y]> (bufs s) !! j = Some z → (j = i ∧ z = y) ∨ (j ≠ i ∧ bufs s !! j = Some z)) as Hl.
  { intros j z Hz. apply list_lookup_insert_Some in Hz as [(-> & -> & _)|[? ?]]; auto. }
  destruct Hw. split; rsimpl.
  - by rewrite length_insert.
  - done.
  - eapply dlseg_frame; [| |exact bw_list0]; intros; [apply HN|apply HP].
  - intros j k a b n Hj Hk Ha Hb Hca Hcb.
    destruct (Hl _ _ Ha) as [[-> ->]|[Hja Ha']]; destruct (Hl _ _ Hb) as [[-> ->]|[Hkb Hb']]; try done.
    + exfalso. by eapply (Hu n k b).
    + exfalso. by eapply (Hu n j a).
    + by eapply bw_uniq0.
  - intros j z Hz. destruct (Hl _ _ Hz) as [[-> ->]|[? Hz']]; [done|by eapply bw_ref0].
  - intros j z Hj Hz Hv H0. destruct (Hl _ _ Hz) as [[-> ->]|[? Hz']]; [by apply Hc|].
    erewrite Hdisk; [|done..]. by eapply bw_clean0.
  - intros j z Hj Hz Hv. destruct (Hl _ _ Hz) as [[-> ->]|[? Hz']]; [by apply Hd|by eapply bw_dev0].
  - intros j z Hj Hz H0. destruct (Hl _ _ Hz) as [[-> ->]|[? Hz']]; [by apply Hf|by eapply bw_free0].
  - intros z Hz. rewrite list_lookup_insert_ne in Hz by (unfold HEAD; lia). by eapply bw_head0.
Qed.

(** ** Moving a buffer to the front of the list *)

Definition links (B : list buf) (N P : nat → nat) : Prop :=
  (∀ j, N_of B j = N j) ∧ (∀ j, P_of B j = P j).

(** Same buffers up to their links. *)
Definition relink (B B' : list buf) : Prop :=
  length B' = length B ∧
  ∀ i x, B !! i = Some x → ∃ n p, B' !! i = Some (x <| b_next := n |> <| b_prev := p |>).

Lemma relink_refl B : relink B B.
Proof. split; [done|]. intros i x Hx. exists (b_next x), (b_prev x). rewrite Hx. f_equal. by destruct x. Qed.

Lemma relink_trans B1 B2 B3 : relink B1 B2 → relink B2 B3 → relink B1 B3.
Proof.
  intros [L1 H1] [L2 H2]. split; [congruence|]. intros i x Hx.
  destruct (H1 i x Hx) as (n & p & Hy). destruct (H2 i _ Hy) as (n' & p' & Hz).
  exists n', p'. rewrite Hz. by destruct x.
Qed.

Lemma relink_set B i x n p :
  B !! i = Some x → relink B (<[i := x <| b_next := n |> <| b_prev := p |>]> B).
Proof.
  intros Hx. pose proof (lookup_lt_Some _ _ _ Hx). split; [by rewrite length_insert|].
  intros j y Hy. destruct (decide (j = i)) as [->|Hne].
  - rewrite list_lookup_insert_eq by done. simplify_eq. eauto.
  - rewrite list_lookup_insert_ne by done. apply (proj2 (relink_refl B)); done.
Qed.

Lemma updb_next_ok s N P i v :
  links (bufs s) N P → (i < length (bufs s))%nat →
  ∃ B, updb i (λ y, y <| b_next := v |>) s = Ok tt (s <| bufs := B |>) ∧
       links B (upd N i v) P ∧ relink (bufs s) B.
Proof.
  intros [HN HP] Hi. destruct (lookup_lt_is_Some_2 _ _ Hi) as [x Hx].
  exists (<[i := x <| b_next := v |>]> (bufs s)). split; [by apply updb_ok|]. split.
  - split; intros j; unfold upd, N_of, P_of; (destruct (decide (j = i)) as [->|Hne];
      [rewrite list_lookup_insert_eq by done; simpl; rsimpl|rewrite list_lookup_insert_ne by done]).
    + done. + apply HN. + rewrite <- HP. unfold P_of. by rewrite Hx. + apply HP.
  - replace (x <| b_next := v |>) with (x <| b_next := v |> <| b_prev := b_prev x |>) by (by destruct x).
    by apply relink_set.
Qed.

Lemma updb_prev_ok s N P i v :
  links (bufs s) N P → (i < length (bufs s))%nat →
  ∃ B, updb i (λ y, y <| b_prev := v |>) s = Ok tt (s <| bufs := B |>) ∧
       links B N (upd P i v) ∧ relink (bufs s) B.
Proof.
  intros [HN HP] Hi. destruct (lookup_lt_is_Some_2 _ _ Hi) as [x Hx].
  exists (<[i := x <| b_prev := v |>]> (bufs s)). split; [by apply updb_ok|]. split.
  - split; intros j; unfold upd, N_of, P_of; (destruct (decide (j = i)) as [->|Hne];
      [rewrite list_lookup_insert_eq by done; simpl; rsimpl|rewrite list_lookup_insert_ne by done]).
    + rewrite <- HN. unfold N_of. by rewrite Hx. + apply HN. + done. + apply HP.
  - replace (x <| b_prev := v |>) with (x <| b_next := b_next x |> <| b_prev := v |>) by (by destruct x).
    by apply relink_set.
Qed.

Lemma getb_links s N P i :
  links (bufs s) N P → (i < length (bufs s))%nat →
  ∃ x, getb i s = Ok x s ∧ b_next x = N i ∧ b_prev x = P i.
Proof.
  intros [HN HP] Hi. destruct (lookup_lt_is_Some_2 _ _ Hi) as [x Hx]. exists x.
  rewrite <- HN, <- HP. unfold N_of, P_of. rewrite Hx. split; [by apply getb_ok|done].
Qed.

(** A node of the list and its neighbours are buffers. *)
Lemma dlseg_neighbours N P h l1 b l2 k :
  dlseg N P h (l1 ++ b :: l2) h → (∀ x, x ∈ h :: l1 ++ b :: l2 → (x < k)%nat) → (N b < k)%nat ∧ (P b < k)%nat.
Proof.
  intros Hs Hk. apply dlseg_app in Hs as [H1 H2]. split.
  - destruct l2 as [|n l2]; cbn [dlseg] in H2.
    + destruct H2 as [-> _]. apply Hk. left.
    + destruct H2 as [-> _]. apply Hk. set_solver.
  - destruct l1 as [|p l1 _] using rev_ind.
    + destruct H1 as [_ ->]. apply Hk. left.
    + apply dlseg_app in H1 as [_ [_ ->]]. apply Hk. set_solver.
Qed.

Lemma dlseg_next_ne N P h l1 b l2 :
  NoDup (h :: l1 ++ b :: l2) → dlseg N P h (l1 ++ b :: l2) h → b ≠ N b.
Proof.
  rewrite NoDup_cons, NoDup_app, NoDup_cons. intros (Hh & _ & _ & Hb & _) Hs. apply dlseg_app in Hs as [_ H2].
  destruct l2; cbn [dlseg] in H2; destruct H2 as [-> _]; set_solver.
Qed.

(** One access of [lru_front], on known links. *)
Ltac link_get Hl x Hn Hp :=
  let E := fresh in
  match goal with |- context[bind (getb ?i) _ ?t] =>
    destruct (getb_links t _ _ i Hl ltac:(rsimpl; lia)) as (x & E & Hn & Hp) end;
  erewrite bind_ok by exact E; clear E; cbv beta.
Ltac link_set L Hl Hk B R :=
  let E := fresh in let Hl' := fresh in
  match goal with |- context[bind (updb ?i (λ y, setf _ (λ _, ?v) y)) _ ?t] =>
    destruct (L t _ _ i v Hl ltac:(rsimpl; lia)) as (B & E & Hl' & R) end;
  erewrite bind_ok by exact E; clear E Hl; cbv beta; rename Hl' into Hl;
  let Hk' := fresh in
  match type of R with relink _ ?B' => assert (length B' = length (bufs _)) as Hk' by apply R end;
  rsimpl; rewrite Hk in Hk'; clear Hk; rename Hk' into Hk.

Lemma lru_front_ok s N P l1 b l2 :
  links (bufs s) N P → dlseg N P HEAD (l1 ++ b :: l2) HEAD → NoDup (HEAD :: l1 ++ b :: l2) →
  (∀ x, x ∈ HEAD :: l1 ++ b :: l2 → (x < length (bufs s))%nat) →
  ∃ B, lru_front b s = Ok tt (s <| bufs := B |>) ∧ relink (bufs s) B ∧
       dlseg (N_of B) (P_of B) HEAD (b :: l1 ++ l2) HEAD.
Proof.
  intros Hl Hs Hnd Hb. destruct (dlseg_neighbours _ _ _ _ _ _ _ Hs Hb) as [Hn Hp].
  assert (b < length (bufs s))%nat as Hbb by (apply Hb; set_solver).
  assert (HEAD < length (bufs s))%nat as Hhb by (apply Hb; left).
  assert (NoDup (HEAD :: b :: l1 ++ l2)) as Hnd' by (by rewrite Permutation_middle).
  assert (b ≠ HEAD) as Hbh by (rewrite NoDup_cons in Hnd'; set_solver).
  pose proof (dlseg_next_ne _ _ _ _ _ _ Hnd Hs) as Hnb.
  pose proof (dlseg_unlink _ _ _ _ _ _ Hnd Hs) as Hu. pose proof (dlseg_push _ _ _ _ _ Hnd' Hu) as Hq.
  assert (upd N (P b) (N b) HEAD < length (bufs s))%nat as Hh2.
  { destruct (l1 ++ l2) as [|c m] eqn:E; destruct Hu as [-> _]; [done|].
    apply Hb. right. assert (c ∈ l1 ++ l2) by (rewrite E; left). set_solver. }
  unfold lru_front. set (k := length (bufs s)) in *.
  assert (length (bufs s) = k) as Hk by done.
  link_get Hl x Hxn Hxp. rewrite Hxn, Hxp. link_set updb_prev_ok Hl Hk B1 R1.
  link_get Hl x2 Hxn2 Hxp2. rewrite Hxn2, Hxp2, (upd_ne P) by done. link_set updb_next_ok Hl Hk B2 R2.
  link_get Hl h Hhn Hhp. rewrite Hhn. link_set updb_next_ok Hl Hk B3 R3.
  link_set updb_prev_ok Hl Hk B4 R4.
  link_get Hl h2 Hhn2 Hhp2. rewrite Hhn2, (upd_ne _ b) by done. link_set updb_prev_ok Hl Hk B5 R5.
  match goal with |- context[updb _ _ ?t] =>
    destruct (updb_next_ok t _ _ HEAD b Hl ltac:(rsimpl; lia)) as (B6 & E6 & [HN6 HP6] & R6) end.
  rewrite E6. exists B6. split; [kst_eq s|]. split.
  - rsimpl. repeat (eapply relink_trans; [eassumption|]). apply relink_refl.
  - eapply dlseg_frame; [| |exact Hq]; intros y _; [apply HN6|apply HP6].
Qed.

(** What [bget] returns: the buffer of the block, its lock taken. *)
Definition hit_of (pid : Z) (x : buf) : buf :=
  x <| b_refcnt := u32 (b_refcnt x + 1) |> <| b_lock := mkSleeplock 1 pid |>.
Definition fresh_of (pid n : Z) (x : buf) : buf :=
  x <| b_dev := ROOTDEV |> <| b_blockno := n |> <| b_valid := 0 |> <| b_refcnt := 1 |>
    <| b_lock := mkSleeplock 1 pid |>.

Section Specs.
Context `{HW : Wakeups, HB : BlockDev, HBO : !BlockDevOk}.

(** Block [n] can be had without waiting: its buffer is not locked, or it has
    none and some buffer is unreferenced. *)
Definition available (s : kst) (n : Z) : Prop :=
  (∀ i x, (i < NBUF)%nat → bufs s !! i = Some x → caches n x →
     sl_locked (b_lock x) = 0 ∧ b_refcnt x + 1 < 2 ^ 31) ∧
  ((∃ i x, (i < NBUF)%nat ∧ bufs s !! i = Some x ∧ caches n x) ∨
   (∃ i x, (i < NBUF)%nat ∧ bufs s !! i = Some x ∧ b_refcnt x = 0)).

Lemma bget_tail s i pid b x y f :
  running s i pid → bufs s !! b = Some x → sl_locked (b_lock x) = 0 →
  b_lock (f x) = b_lock x → y = (f x) <| b_lock := mkSleeplock 1 pid |> →
  (updb b f ;;; release Lbcache ;;; acquiresleep (SlBuf b) ;;; ret b) (s <| held := Lbcache :: held s |>) =
    Ok b (s <| bufs := <[b := y]> (bufs s) |>).
Proof.
  intros Hrun Hx Hlk Hfl ->. pose proof (lookup_lt_Some _ _ _ Hx).
  assert (Lbcache ∉ held s) as Hn by (rewrite (rn_held _ _ _ Hrun); apply not_elem_of_nil).
  erewrite bind_ok by (apply (updb_ok _ _ x); by rsimpl). rsimpl. krel.
  replace (s <| held := Lbcache :: held s |> <| bufs := <[b := f x]> (bufs s) |> <| held := held s |>)
    with (s <| bufs := <[b := f x]> (bufs s) |>) by kst_eq s.
  erewrite bind_ok.
  2:{ apply (acquiresleep_ok _ _ i pid (b_lock (f x))); [by apply running_bufs| |congruence].
      unfold sl_lookup. rsimpl. by rewrite list_lookup_insert_eq. }
  rewrite <- (list_alter_of_insert (λ b0, b0 <| b_lock := mkSleeplock 1 pid |>)). unfold sl_store. kst_eq s.
Qed.

Lemma N_of_head s h : bufs s !! HEAD = Some h → b_next h = N_of (bufs s) HEAD ∧ b_prev h = P_of (bufs s) HEAD.
Proof. intros Hh. unfold N_of, P_of. by rewrite Hh. Qed.

Lemma bget_ok s l i pid n :
  running s i pid → bcache_wf s l → available s n →
  ∃ b x, (b < NBUF)%nat ∧ bufs s !! b = Some x ∧
    ((caches n x ∧ sl_locked (b_lock x) = 0 ∧ b_refcnt x + 1 < 2 ^ 31 ∧
      bget ROOTDEV n s = Ok b (s <| bufs := <[b := hit_of pid x]> (bufs s) |>)) ∨
     ((∀ j z, (j < NBUF)%nat → bufs s !! j = Some z → ¬ caches n z) ∧ b_refcnt x = 0 ∧
      bget ROOTDEV n s = Ok b (s <| bufs := <[b := fresh_of pid n x]> (bufs s) |>))).
Proof.
  intros Hrun Hw [Hlk Hav].
  assert (Lbcache ∉ held s) as Hn by (rewrite (rn_held _ _ _ Hrun); apply not_elem_of_nil).
  pose proof (bw_perm _ _ Hw) as Hp. pose proof (bw_len _ _ Hw) as Hlen.
  assert (length l = NBUF) as Hll by (rewrite Hp; apply length_seq).
  destruct (lookup_lt_is_Some_2 (bufs s) HEAD ltac:(rewrite Hlen; unfold HEAD; lia)) as [h Hh].
  destruct (N_of_head s h Hh) as [HN HP].
  set (s1 := s <| held := Lbcache :: held s |>).
  assert (bufs s1 = bufs s) as Hb1 by (subst s1; by rsimpl).
  destruct (bget_scan_ok NBUF s1 ROOTDEV n l HEAD) as (r & Hr & Hcase);
    [intros j; by rewrite perm_bound|by rewrite Hb1|rewrite Hb1; apply Hw|lia|].
  rewrite Hb1 in *. destruct r as [b|].
  - destruct Hcase as [Hin (x & Hx & Hd & Hbn)]. rewrite perm_bound in Hin by done.
    destruct (Hlk b x Hin Hx ltac:(done)) as [Hl0 Href].
    exists b, x. split_and!; try done. left. split_and!; try done. unfold bget. kcall. fold s1.
    erewrite bind_ok by (apply getb_ok; rewrite Hb1; exact Hh). rewrite HN.
    erewrite bind_ok by exact Hr. cbv iota. eapply bget_tail; [done|done|done|by rsimpl|done].
  - assert (∀ j z, (j < NBUF)%nat → bufs s !! j = Some z → ¬ caches n z) as Hno.
    { intros j z Hj Hz. apply (Hcase j z); [by rewrite perm_bound|done]. }
    destruct (bget_lru_ok NBUF s1 l HEAD) as (v & Hv & Hvc);
      [intros j; by rewrite perm_bound|by rewrite Hb1|rewrite Hb1; apply Hw|lia|].
    rewrite Hb1 in *. destruct v as [b|]; cycle 1.
    { exfalso. destruct Hav as [(j & z & Hj & Hz & Hc)|(j & z & Hj & Hz & H0)]; [by eapply Hno|].
      apply (Hvc j z); [by rewrite perm_bound|done|done]. }
    destruct Hvc as [Hin (x & Hx & H0)]. rewrite perm_bound in Hin by done.
    exists b, x. split_and!; try done. right. split_and!; try done. unfold bget. kcall. fold s1.
    erewrite bind_ok by (apply getb_ok; rewrite Hb1; exact Hh). rewrite HN.
    erewrite bind_ok by exact Hr. cbv iota.
    erewrite bind_ok by (apply getb_ok; rewrite Hb1; exact Hh). rewrite HP.
    erewrite bind_ok by exact Hv. cbv iota. eapply bget_tail; [done|done|by eapply bw_free|by rsimpl|done].
Qed.

(** The buffer [bread] returns for block [n]. *)
Record got (s s' : kst) (l : list nat) (pid n : Z) (b : nat) (x y : buf) : Prop := {
  gt_idx : (b < NBUF)%nat;
  gt_old : bufs s !! b = Some x;
  gt_new : bufs s' !! b = Some y;
  gt_rest : ∀ j, j ≠ b → bufs s' !! j = bufs s !! j;
  gt_caches : caches n y;
  gt_valid : b_valid y ≠ 0;
  gt_data : b_data y = blk s n;
  gt_lock : b_lock y = mkSleeplock 1 pid;
  gt_ref : (caches n x ∧ b_refcnt y = b_refcnt x + 1) ∨
           ((∀ j z, (j < NBUF)%nat → bufs s !! j = Some z → ¬ caches n z) ∧ b_refcnt x = 0 ∧ b_refcnt y = 1);
  gt_blk : ∀ m, blk s' m = blk s m;
  gt_wf : bcache_wf s' l;
  gt_frame : s' = s <| bufs := bufs s' |>
}.

Lemma got_intro s l pid n b x y :
  bcache_wf s l → (b < NBUF)%nat → bufs s !! b = Some x → caches n y → b_valid y ≠ 0 →
  b_data y = blk s n → b_lock y = mkSleeplock 1 pid → b_next y = b_next x → b_prev y = b_prev x →
  0 < b_refcnt y < 2 ^ 31 →
  ((caches n x ∧ b_refcnt y = b_refcnt x + 1) ∨
   ((∀ j z, (j < NBUF)%nat → bufs s !! j = Some z → ¬ caches n z) ∧ b_refcnt x = 0 ∧ b_refcnt y = 1)) →
  got s (s <| bufs := <[b := y]> (bufs s) |>) l pid n b x y.
Proof.
  intros Hw Hb Hx Hc Hv Hd Hl Hn Hp Hr Hor. pose proof (lookup_lt_Some _ _ _ Hx) as Hlt.
  set (s' := s <| bufs := <[b := y]> (bufs s) |>).
  assert (bufs s' !! b = Some y) as Hy by (subst s'; rsimpl; by rewrite list_lookup_insert_eq).
  assert (∀ j, j ≠ b → bufs s' !! j = bufs s !! j) as Hrest.
  { intros j Hj. subst s'. rsimpl. by rewrite list_lookup_insert_ne. }
  assert (∀ j z, j ≠ b → (j < NBUF)%nat → bufs s !! j = Some z → ¬ caches n z) as Hother.
  { intros j z Hj Hjn Hz Hcz. destruct Hor as [[Hcx _]|[Hno _]]; [|by eapply Hno].
    apply Hj. by eapply (bw_uniq _ _ Hw j b z x n). }
  assert (bcache_wf s' l) as Hw'.
  { replace s' with (s <| bufs := <[b := y]> (bufs s) |> <| disk := disk s |> <| disk_trace := disk_trace s |>)
      by (subst s'; kst_eq s).
    apply (bcache_wf_set s l b x); try done; try lia; [|by intros _; destruct Hc].
    intros m j z Hcm Hj Hjn Hz Hcz. destruct Hcm as [_ Hm]. destruct Hc as [_ Hn']. subst m.
    rewrite Hn' in Hcz. by eapply Hother. }
  split; [exact Hb|exact Hx|exact Hy|exact Hrest|exact Hc|exact Hv|exact Hd|exact Hl|exact Hor| |exact Hw'|subst s'; rsimpl; kst_eq s].
  intros m. destruct (decide (m = n)) as [->|Hmn].
  { rewrite <- Hd. by eapply blk_cached. }
  assert (∀ z, caches m z → z ≠ y) as Hmy by (intros z [_ Hz] ->; destruct Hc as [_ Hc]; congruence).
  destruct (blk_cases s l m Hw) as [(j & z & Hj & Hz & Hcz & Hvz & ->)|[Hunc ->]].
  - destruct (decide (j = b)) as [->|Hjb].
    + assert (z = x) as -> by congruence.
      destruct Hor as [[[_ Hcx] _]|(_ & Hx0 & _)]; [destruct Hcz; congruence|].
      rewrite (bw_clean _ _ Hw b x) by done. destruct Hcz as [Hdz <-].
      rewrite blk_uncached; [subst s'; by rsimpl|]. intros k w Hk Hw'' Hcw.
      destruct (decide (k = b)) as [->|Hkb]; [exfalso; apply (Hmy w); [done|congruence]|].
      rewrite Hrest in Hw'' by done. exfalso. apply Hkb. by eapply (bw_uniq _ _ Hw k b w x).
    + eapply blk_cached; [exact Hw'|exact Hj|by rewrite Hrest|done|done].
  - rewrite blk_uncached; [subst s'; by rsimpl|]. intros k w Hk Hw'' Hcw.
    destruct (decide (k = b)) as [->|Hkb]; [exfalso; apply (Hmy w); [done|congruence]|].
    rewrite Hrest in Hw'' by done. by eapply Hunc.
Qed.

Lemma bread_ok s l i pid n :
  running s i pid → bcache_wf s l → available s n →
  ∃ b s' x y, bread ROOTDEV n s = Ok b s' ∧ got s s' l pid n b x y ∧ running s' i pid.
Proof.
  intros Hrun Hw Hav. destruct (bget_ok s l i pid n Hrun Hw Hav) as (b & x & Hb & Hx & Hcase).
  pose proof (lookup_lt_Some _ _ _ Hx) as Hlt. pose proof (bw_ref _ _ Hw _ _ Hx) as Href.
  assert (cur s ≠ None) as Hcur by (by rewrite (rn_cur _ _ _ Hrun)).
  (* reading the block in *)
  assert (∀ y, b_blockno y = n → bufs s !! b = Some x → b_valid y = 0 →
    (x0 <- getb b ;; (when b_valid x0 =? 0 do (virtio_disk_rw b false ;;; updb b (λ x, x <| b_valid := 1 |>))) ;;; ret b)
      (s <| bufs := <[b := y]> (bufs s) |>) =
    Ok b (s <| bufs := <[b := y <| b_data := dblock (disk s) n |> <| b_valid := 1 |>]> (bufs s) |>)) as Hfill.
  { intros y Hyn _ Hyv. erewrite bind_ok by (apply getb_ok; rsimpl; by rewrite list_lookup_insert_eq).
    rewrite Hyv. cbn [Z.eqb]. erewrite bind_ok; [reflexivity|].
    erewrite bind_ok.
    2:{ apply disk_read; rsimpl; [by rewrite list_lookup_insert_eq|apply Hrun|done]. }
    rsimpl. rewrite list_insert_insert_eq, Hyn.
    erewrite updb_ok by (rsimpl; by rewrite list_lookup_insert_eq). rsimpl.
    rewrite list_insert_insert_eq. kst_eq s. }
  destruct Hcase as [(Hc & Hl & Hr1 & Hg)|(Hno & Hx0 & Hg)].
  - destruct (decide (b_valid x = 0)) as [Hv|Hv].
    + exists b. eexists _, x, _. split; [unfold bread; erewrite bind_ok by exact Hg; apply Hfill; [apply Hc|done|by unfold hit_of; rsimpl]|].
      split; [|by apply running_bufs]. apply got_intro; unfold hit_of; rsimpl; try done.
      * symmetry. apply blk_uncached. intros j z Hj Hz Hcz.
        assert (j = b) as -> by (by eapply (bw_uniq _ _ Hw j b z x n)). congruence.
      * rewrite u32_small by lia. lia.
      * left. rewrite u32_small by lia. done.
    + exists b. eexists _, x, _. split.
      { unfold bread. erewrite bind_ok by exact Hg.
        erewrite bind_ok by (apply getb_ok; rsimpl; by rewrite list_lookup_insert_eq).
        unfold hit_of at 1. rsimpl. replace (b_valid x =? 0) with false by lia. reflexivity. }
      split; [|by apply running_bufs]. apply got_intro; unfold hit_of; rsimpl; try done.
      * symmetry. by eapply blk_cached.
      * rewrite u32_small by lia. lia.
      * left. rewrite u32_small by lia. done.
  - exists b. eexists _, x, _. split; [unfold bread; erewrite bind_ok by exact Hg; apply Hfill; by unfold fresh_of; rsimpl|].
    split; [|by apply running_bufs]. apply got_intro; unfold fresh_of; rsimpl; try done.
    + symmetry. apply blk_uncached. intros j z Hj Hz Hcz. exfalso. by eapply Hno.
    + right. split_and!; done.
Qed.

End Specs.
