(* ===== verification/Cache.v ===== *)
(** * The buffer cache as its clients see it

    [cache_rep s i pid R O]: process [i] runs, the buffers of [bio.c] are well
    formed, [R] gives the reference counts of the blocks in use and [O] the
    buffers the process holds locked.  The operations of [bio.c] are specified
    on [R], [O], the disk and the contents [blk] of the blocks. *)

From Stdlib Require Import ZArith Lia.
From S2P Require Import Prelude Params State Process Bytes Sleeplock Bio BioRep.
From stdpp Require Import base gmap strings numbers list.

Open Scope Z_scope.

Record cache_rep (s : kst) (i : nat) (pid : Z) (R : gmap Z Z) (O : gmap Z nat) : Prop := {
  cr_run : running s i pid;
  cr_wf : ∃ l, bcache_wf s l;
  cr_refs : ∀ n r, R !! n = Some r ↔
    0 < r ∧ ∃ j x, (j < NBUF)%nat ∧ bufs s !! j = Some x ∧ caches n x ∧ b_refcnt x = r;
  cr_dev : ∀ j x, (j < NBUF)%nat → bufs s !! j = Some x → 0 < b_refcnt x → b_dev x = ROOTDEV;
  cr_own : ∀ n b, O !! n = Some b → ∃ x, (b < NBUF)%nat ∧ bufs s !! b = Some x ∧ caches n x ∧
    b_valid x ≠ 0 ∧ b_lock x = mkSleeplock 1 pid ∧ 0 < b_refcnt x;
  cr_lock : ∀ j x, (j < NBUF)%nat → bufs s !! j = Some x → sl_locked (b_lock x) ≠ 0 → O !! b_blockno x = Some j
}.

(** The buffer of an owned block. *)
Lemma cr_owned s i pid R O n b :
  cache_rep s i pid R O → O !! n = Some b →
  ∃ x, bufs s !! b = Some x ∧ b_data x = blk s n ∧ R !! n = Some (b_refcnt x) ∧ caches n x ∧
       b_lock x = mkSleeplock 1 pid ∧ (b < NBUF)%nat ∧ b_valid x ≠ 0.
Proof.
  intros Hc Ho. destruct (cr_own _ _ _ _ _ Hc n b Ho) as (x & Hb & Hx & Hcx & Hv & Hl & Hr).
  destruct (cr_wf _ _ _ _ _ Hc) as [l Hw]. exists x. split_and!; try done.
  - symmetry. by eapply blk_cached.
  - apply (cr_refs _ _ _ _ _ Hc). split; [done|]. eauto 10.
Qed.

Lemma cr_refs_none s i pid R O n j x :
  cache_rep s i pid R O → R !! n = None → (j < NBUF)%nat → bufs s !! j = Some x → caches n x → b_refcnt x = 0.
Proof.
  intros Hc Hn Hj Hx Hcx. destruct (cr_wf _ _ _ _ _ Hc) as [l Hw]. pose proof (bw_ref _ _ Hw _ _ Hx).
  destruct (decide (b_refcnt x = 0)) as [|Hne]; [done|]. exfalso.
  assert (R !! n = Some (b_refcnt x)); [|congruence]. apply (cr_refs _ _ _ _ _ Hc). split; [lia|]. eauto 10.
Qed.

(** While fewer than [NBUF] blocks are referenced some buffer is free. *)
Lemma free_buffer s i pid R O :
  cache_rep s i pid R O → (size R < NBUF)%nat →
  ∃ j x, (j < NBUF)%nat ∧ bufs s !! j = Some x ∧ b_refcnt x = 0.
Proof.
  intros Hc Hsz. destruct (cr_wf _ _ _ _ _ Hc) as [l Hw]. pose proof (bw_len _ _ Hw) as Hlen.
  destruct (list_find (λ x, b_refcnt x = 0) (take NBUF (bufs s))) as [[j x]|] eqn:E.
  { apply list_find_Some in E as (Hx & H0 & _). apply lookup_take_Some in Hx as [Hx Hj]. eauto. }
  exfalso. rewrite list_find_None, Forall_forall in E.
  assert (∀ j x, (j < NBUF)%nat → bufs s !! j = Some x → 0 < b_refcnt x) as Hpos.
  { intros j x Hj Hx. pose proof (bw_ref _ _ Hw _ _ Hx). enough (b_refcnt x ≠ 0) by lia.
    apply E, list_elem_of_lookup. exists j. by rewrite lookup_take_lt. }
  assert (NoDup (b_blockno <$> take NBUF (bufs s))) as Hnd.
  { apply NoDup_alt. intros a b n Ha Hb. apply list_lookup_fmap_Some in Ha as (x & -> & Hx).
    apply list_lookup_fmap_Some in Hb as (y & Hxy & Hy).
    apply lookup_take_Some in Hx as [Hx Ha]. apply lookup_take_Some in Hy as [Hy Hb].
    assert (b_dev x = ROOTDEV ∧ b_dev y = ROOTDEV) as [Hdx Hdy] .
    { split; [apply (cr_dev _ _ _ _ _ Hc a x)|apply (cr_dev _ _ _ _ _ Hc b y)]; eauto. }
    by eapply (bw_uniq _ _ Hw a b x y (b_blockno x)). }
  assert (length (b_blockno <$> take NBUF (bufs s)) ≤ size (dom R))%nat as Hle.
  { rewrite <- (size_list_to_set (C := gset Z) _ Hnd). apply subseteq_size. intros n.
    rewrite elem_of_list_to_set, list_elem_of_fmap. intros (x & -> & Hx).
    apply list_elem_of_lookup in Hx as [j Hx]. apply lookup_take_Some in Hx as [Hx Hj].
    pose proof (Hpos j x Hj Hx). apply elem_of_dom. exists (b_refcnt x). apply (cr_refs _ _ _ _ _ Hc).
    split; [done|]. exists j, x. split_and!; try done. split; [by apply (cr_dev _ _ _ _ _ Hc j)|done]. }
  rewrite length_fmap, length_take, Hlen, size_dom in Hle. lia.
Qed.

(** ** Changing an owned buffer *)

Lemma cache_put s i pid R O R' O' n b x y d t :
  cache_rep s i pid R O → O !! n = Some b → bufs s !! b = Some x → caches n y → b_valid y ≠ 0 →
  b_next y = b_next x → b_prev y = b_prev x → 0 ≤ b_refcnt y < 2 ^ 31 →
  (∀ m, m ≠ n → dblock d m = dblock (disk s) m) → (b_refcnt y = 0 → b_data y = dblock d n) →
  (∀ m, m ≠ n → R' !! m = R !! m ∧ O' !! m = O !! m) →
  R' !! n = (if b_refcnt y =? 0 then None else Some (b_refcnt y)) →
  (b_lock y = mkSleeplock 1 pid ∧ 0 < b_refcnt y ∧ O' !! n = Some b) ∨ (sl_locked (b_lock y) = 0 ∧ O' !! n = None) →
  let s' := s <| bufs := <[b := y]> (bufs s) |> <| disk := d |> <| disk_trace := t |> in
  cache_rep s' i pid R' O' ∧ (∀ m, blk s' m = if decide (m = n) then b_data y else blk s m).
Proof.
  intros Hc Ho Hx Hcy Hv Hn Hp Hr Hd Hclean HRO HRn Hlock s'. destruct (cr_wf _ _ _ _ _ Hc) as [l Hw].
  destruct (cr_own _ _ _ _ _ Hc n b Ho) as (x' & Hb & Hx' & Hcx & Hvx & Hlx & Hrx).
  assert (x' = x) as -> by congruence. pose proof (lookup_lt_Some _ _ _ Hx) as Hlt.
  assert (∀ j z, bufs s' !! j = Some z → (j = b ∧ z = y) ∨ (j ≠ b ∧ bufs s !! j = Some z)) as Hlk.
  { subst s'. rsimpl. intros j z Hz. apply list_lookup_insert_Some in Hz as [(-> & -> & _)|[? ?]]; auto. }
  assert (bufs s' !! b = Some y) as Hby by (subst s'; rsimpl; by rewrite list_lookup_insert_eq).
  assert (∀ j z m, bufs s !! j = Some z → caches m z → m ≠ n → bufs s' !! j = Some z) as Hbn.
  { intros j z m Hz Hcz Hm. subst s'. rsimpl. rewrite list_lookup_insert_ne; [done|]. intros <-.
    assert (z = x) as -> by congruence. destruct Hcz, Hcx. congruence. }
  assert (∀ j z, j ≠ b → (j < NBUF)%nat → bufs s !! j = Some z → ¬ caches n z) as Hoth.
  { intros j z Hj Hjn Hz Hcz. apply Hj. by eapply (bw_uniq _ _ Hw j b z x n). }
  assert (bcache_wf s' l) as Hw'.
  { apply (bcache_wf_set s l b x); try done.
    - intros m j z Hm Hj Hjn Hz Hcz. destruct Hm as [_ Hm], Hcy as [_ Hcy]. subst m.
      rewrite Hcy in Hcz. by eapply Hoth.
    - destruct Hcy as [_ ->]. auto.
    - by destruct Hcy.
    - intros H0. destruct Hlock as [(_ & ? & _)|[? _]]; [lia|done].
    - intros j z Hj Hjn Hz Hvz _. apply Hd. intros Hbz. eapply Hoth; [exact Hj|exact Hjn|exact Hz|].
      split; [|done]. by eapply (bw_dev _ _ Hw). }
  split; [split|].
  - destruct (cr_run _ _ _ _ _ Hc). subst s'. split; by rsimpl.
  - by exists l.
  - intros m r. destruct (decide (m = n)) as [->|Hmn].
    + rewrite HRn. split.
      * case_match eqn:E; [done|]. intros [= <-]. split; [lia|]. exists b, y. done.
      * intros (Hr0 & j & z & Hj & Hz & Hcz & <-). destruct (Hlk _ _ Hz) as [[-> ->]|[Hjb Hz']].
        -- replace (b_refcnt y =? 0) with false by lia. done.
        -- exfalso. by eapply Hoth.
    + rewrite (proj1 (HRO m Hmn)), (cr_refs _ _ _ _ _ Hc). split; intros (Hr0 & j & z & Hj & Hz & Hcz & Hrz).
      * split; [done|]. exists j, z. split_and!; try done. by eapply Hbn.
      * split; [done|]. destruct (Hlk _ _ Hz) as [[-> ->]|[Hjb Hz']]; [destruct Hcz, Hcy; congruence|eauto 10].
  - intros j z Hj Hz Hr0. destruct (Hlk _ _ Hz) as [[-> ->]|[Hjb Hz']]; [apply Hcy|by eapply (cr_dev _ _ _ _ _ Hc)].
  - intros m c Hm. destruct (decide (m = n)) as [->|Hmn].
    + destruct Hlock as [(Hly & Hry & Hoy)|[_ Hoy]]; [|congruence].
      assert (c = b) as -> by congruence. by exists y.
    + rewrite (proj2 (HRO m Hmn)) in Hm. destruct (cr_own _ _ _ _ _ Hc m c Hm) as (z & Hzb & Hz & Hcz & Hrest).
      exists z. split; [done|]. split; [by eapply Hbn|done].
  - intros j z Hj Hz Hlz. destruct (Hlk _ _ Hz) as [[-> ->]|[Hjb Hz']].
    + destruct Hcy as [_ ->]. destruct Hlock as [(_ & _ & ?)|[? _]]; done.
    + pose proof (cr_lock _ _ _ _ _ Hc j z Hj Hz' Hlz) as Hoz.
      assert (b_blockno z ≠ n) as Hne by (intros Heq; rewrite Heq in Hoz; congruence).
      by rewrite (proj2 (HRO _ Hne)).
  - intros m. case_decide as Hm; [subst m; by eapply blk_cached|].
    destruct (blk_cases s l m Hw) as [(j & z & Hj & Hz & Hcz & Hvz & ->)|[Hunc ->]].
    + eapply blk_cached; [exact Hw'|exact Hj|by eapply Hbn|done|done].
    + rewrite blk_uncached; [subst s'; rsimpl; by apply Hd|]. intros j z Hj Hz Hcz.
      destruct (Hlk _ _ Hz) as [[-> ->]|[Hjb Hz']]; [destruct Hcz, Hcy; congruence|by eapply Hunc].
Qed.

(** Still referenced and locked afterwards. *)
Lemma cache_set s i pid R O n b x y d t :
  cache_rep s i pid R O → O !! n = Some b → bufs s !! b = Some x → caches n y → b_valid y ≠ 0 →
  b_next y = b_next x → b_prev y = b_prev x → b_lock y = b_lock x → 0 < b_refcnt y < 2 ^ 31 →
  (∀ m, m ≠ n → dblock d m = dblock (disk s) m) →
  let s' := s <| bufs := <[b := y]> (bufs s) |> <| disk := d |> <| disk_trace := t |> in
  cache_rep s' i pid (<[n := b_refcnt y]> R) O ∧
  (∀ m, blk s' m = if decide (m = n) then b_data y else blk s m).
Proof.
  intros Hc Ho Hx Hcy Hv Hn Hp Hl Hr Hd. destruct (cr_owned _ _ _ _ _ _ _ Hc Ho) as (x' & Hx' & _ & _ & _ & Hlx & _).
  assert (x' = x) as -> by congruence.
  apply (cache_put s i pid R O _ O n b x y d t); try done; try lia.
  - intros m Hm. by rewrite lookup_insert_ne.
  - rewrite lookup_insert_eq. by replace (b_refcnt y =? 0) with false by lia.
  - left. split_and!; [congruence|lia|done].
Qed.

Lemma disk_eta s B :
  s <| bufs := B |> <| disk := disk s |> <| disk_trace := disk_trace s |> = s <| bufs := B |>.
Proof. kst_eq s. Qed.

(** The same, the disk unchanged. *)
Lemma cache_set_buf s i pid R O n b x y :
  cache_rep s i pid R O → O !! n = Some b → bufs s !! b = Some x → caches n y → b_valid y ≠ 0 →
  b_next y = b_next x → b_prev y = b_prev x → b_lock y = b_lock x → 0 < b_refcnt y < 2 ^ 31 →
  let s' := s <| bufs := <[b := y]> (bufs s) |> in
  cache_rep s' i pid (<[n := b_refcnt y]> R) O ∧
  (∀ m, blk s' m = if decide (m = n) then b_data y else blk s m).
Proof.
  intros. subst s'. rewrite <- disk_eta. by eapply cache_set.
Qed.

Lemma dblock_insert d n v : dblock (<[n := v]> d) n = v.
Proof. unfold dblock. by rewrite lookup_insert_eq. Qed.
Lemma dblock_insert_ne d n v m : m ≠ n → dblock (<[n := v]> d) m = dblock d m.
Proof. intros Hm. unfold dblock. by rewrite lookup_insert_ne. Qed.

(** Reordering the list of buffers. *)
Lemma cache_relink s i pid R O B l' :
  cache_rep s i pid R O → relink (bufs s) B → l' ≡ₚ seq 0 NBUF →
  dlseg (N_of B) (P_of B) HEAD l' HEAD →
  cache_rep (s <| bufs := B |>) i pid R O ∧ (∀ m, blk (s <| bufs := B |>) m = blk s m).
Proof.
  intros Hc [Hlen Hre] Hl' Hseg. destruct (cr_wf _ _ _ _ _ Hc) as [l Hw].
  assert (∀ j y, B !! j = Some y → ∃ x n p, bufs s !! j = Some x ∧ y = x <| b_next := n |> <| b_prev := p |>) as Hlk.
  { intros j y Hy. pose proof (lookup_lt_Some _ _ _ Hy) as Hj. rewrite Hlen in Hj.
    apply lookup_lt_is_Some_2 in Hj as [x Hx]. destruct (Hre j x Hx) as (n & p & Hy').
    exists x, n, p. split; [done|congruence]. }
  assert (bcache_wf (s <| bufs := B |>) l') as Hw'.
  { destruct Hw. split; rsimpl; [congruence|done|done|..].
    - intros j k x y n Hj Hk Hx Hy Hcx Hcy.
      destruct (Hlk _ _ Hx) as (x' & n1 & p1 & Hx' & ->). destruct (Hlk _ _ Hy) as (y' & n2 & p2 & Hy' & ->).
      unfold caches in Hcx, Hcy. rsimpl. by eapply (bw_uniq j k x' y' n).
    - intros j y Hy. destruct (Hlk _ _ Hy) as (x & n & p & Hx & ->). rsimpl. by eapply bw_ref.
    - intros j y Hj Hy. destruct (Hlk _ _ Hy) as (x & n & p & Hx & ->). rsimpl. by eapply bw_clean.
    - intros j y Hj Hy. destruct (Hlk _ _ Hy) as (x & n & p & Hx & ->). rsimpl. by eapply bw_dev.
    - intros j y Hj Hy. destruct (Hlk _ _ Hy) as (x & n & p & Hx & ->). rsimpl. by eapply bw_free.
    - intros y Hy. destruct (Hlk _ _ Hy) as (x & n & p & Hx & ->). rsimpl. by eapply bw_head. }
  split; [split|].
  - by apply running_bufs, Hc.
  - eauto.
  - intros m r. rewrite (cr_refs _ _ _ _ _ Hc). rsimpl. split; intros (Hr & j & x & Hj & Hx & Hcx & Hrx).
    + destruct (Hre j x Hx) as (n & p & Hy). split; [done|]. eexists j, _. split; [done|].
      split; [exact Hy|]. unfold caches. by rsimpl.
    + destruct (Hlk _ _ Hx) as (x' & n & p & Hx' & ->). unfold caches in Hcx. rsimpl. eauto 10.
  - rsimpl. intros j y Hj Hy. destruct (Hlk _ _ Hy) as (x & n & p & Hx & ->). rsimpl. by eapply (cr_dev _ _ _ _ _ Hc).
  - rsimpl. intros m b Hm. destruct (cr_own _ _ _ _ _ Hc m b Hm) as (x & Hb & Hx & Hrest).
    destruct (Hre b x Hx) as (n & p & Hy). eexists. split; [done|]. split; [exact Hy|]. unfold caches in *. by rsimpl.
  - rsimpl. intros j y Hj Hy. destruct (Hlk _ _ Hy) as (x & n & p & Hx & ->). rsimpl. by eapply (cr_lock _ _ _ _ _ Hc).
  - intros m. destruct (blk_cases s l m Hw) as [(j & x & Hj & Hx & Hcx & Hvx & ->)|[Hunc ->]].
    + destruct (Hre j x Hx) as (n & p & Hy).
      rewrite (blk_cached _ l' m j (x <| b_next := n |> <| b_prev := p |>)); rsimpl; done.
    + rewrite blk_uncached; [by rsimpl|]. rsimpl. intros j y Hj Hy Hcy.
      destruct (Hlk _ _ Hy) as (x & n & p & Hx & ->). unfold caches in Hcy. rsimpl. by eapply Hunc.
Qed.

Lemma cache_front s i pid R O b h :
  cache_rep s i pid R O → (b < NBUF)%nat →
  ∃ B, lru_front b (s <| held := h |>) = Ok tt (s <| held := h |> <| bufs := B |>) ∧
    cache_rep (s <| bufs := B |>) i pid R O ∧ (∀ m, blk (s <| bufs := B |>) m = blk s m).
Proof.
  intros Hc Hb. destruct (cr_wf _ _ _ _ _ Hc) as [l Hw]. pose proof (bw_perm _ _ Hw) as Hp.
  assert (b ∈ l) as Hin by (by rewrite perm_bound). apply list_elem_of_split in Hin as (l1 & l2 & ->).
  destruct (lru_front_ok (s <| held := h |>) (N_of (bufs s)) (P_of (bufs s)) l1 b l2) as (B & HB & Hre & Hseg); rsimpl.
  - split; done.
  - apply Hw.
  - by apply perm_nodup.
  - intros x Hx. rewrite (bw_len _ _ Hw). apply elem_of_cons in Hx as [->|Hx]; [unfold HEAD; lia|].
    rewrite perm_bound in Hx by done. lia.
  - exists B. split; [done|]. eapply cache_relink; [done|done| |exact Hseg].
    by rewrite Permutation_middle.
Qed.

Lemma cache_procs s i pid R O ps :
  cache_rep s i pid R O → p_pid <$> ps !! i = Some pid → length ps = NPROC →
  cache_rep (s <| procs := ps |>) i pid R O.
Proof.
  intros [[] [l Hw] ? ? ? ?] Hp Hl. split; [by split; rsimpl|exists l|rsimpl; done..]. destruct Hw. split; by rsimpl.
Qed.

Lemma procs_bufs_eta s ps : s <| procs := ps |> <| bufs := bufs s |> = s <| procs := ps |>.
Proof. kst_eq s. Qed.
Lemma bufs_eta s : s <| bufs := bufs s |> = s.
Proof. kst_eq s. Qed.
Lemma held_bufs_held s h B : s <| held := h |> <| bufs := B |> <| held := held s |> = s <| bufs := B |>.
Proof. kst_eq s. Qed.

Lemma sl_store_buf b v s x :
  bufs s !! b = Some x → sl_store (SlBuf b) v s = s <| bufs := <[b := x <| b_lock := v |>]> (bufs s) |>.
Proof. intros Hx. rewrite <- (alter_lookup_insert (λ y, y <| b_lock := v |>)) by done. unfold sl_store. kst_eq s. Qed.

Section Ops.
Context `{HW : Wakeups, HB : BlockDev, HBO : !BlockDevOk}.

Lemma cache_bread s i pid R O n :
  cache_rep s i pid R O → O !! n = None → (n ∈ dom R ∨ (size R < NBUF)%nat) → default 0 (R !! n) + 1 < 2 ^ 31 →
  ∃ b s', bread ROOTDEV n s = Ok b s' ∧
    cache_rep s' i pid (<[n := default 0 (R !! n) + 1]> R) (<[n := b]> O) ∧
    (∀ m, blk s' m = blk s m) ∧ s' = s <| bufs := bufs s' |>.
Proof.
  intros Hc Ho Hav Hr. destruct (cr_wf _ _ _ _ _ Hc) as [l Hw].
  assert (available s n) as Ha.
  { split.
    - intros j x Hj Hx Hcx. split.
      + destruct (decide (sl_locked (b_lock x) = 0)) as [|Hl]; [done|].
        pose proof (cr_lock _ _ _ _ _ Hc j x Hj Hx Hl). destruct Hcx as [_ <-]. congruence.
      + destruct (R !! n) as [r|] eqn:E; simpl in Hr.
        * apply (cr_refs _ _ _ _ _ Hc) in E as (_ & j' & x' & Hj' & Hx' & Hcx' & <-).
          assert (j' = j) as -> by (by eapply (bw_uniq _ _ Hw j' j x' x n)). assert (x' = x) as -> by congruence. done.
        * erewrite cr_refs_none; [|done..]. done.
    - destruct Hav as [[r Hn]%elem_of_dom|Hsz]; [|right; by eapply free_buffer].
      left. apply (cr_refs _ _ _ _ _ Hc) in Hn as (_ & j & x & Hj & Hx & Hcx & _). eauto. }
  destruct (bread_ok s l i pid n (cr_run _ _ _ _ _ Hc) Hw Ha) as (b & s' & x & y & Hb & [] & Hrun).
  exists b, s'. split; [done|]. split; [|done].
  assert (∀ j z, (j < NBUF)%nat → bufs s' !! j = Some z → (j = b ∧ z = y) ∨ (j ≠ b ∧ bufs s !! j = Some z ∧ ¬ caches n z)) as Hlk.
  { intros j z Hj Hz. destruct (decide (j = b)) as [->|Hjb]; [left; split; congruence|right].
    split_and!; [done|by rewrite <- gt_rest|]. intros Hcz.
    apply Hjb. by eapply (bw_uniq _ _ gt_wf j b z y n). }
  assert (b_refcnt y = default 0 (R !! n) + 1) as Hry.
  { destruct gt_ref as [[Hcx ->]|(Hno & _ & ->)].
    - destruct (R !! n) as [r|] eqn:E.
      + apply (cr_refs _ _ _ _ _ Hc) in E as (_ & j' & x' & Hj' & Hx' & Hcx' & <-).
        assert (j' = b) as -> by (by eapply (bw_uniq _ _ Hw j' b x' x n)). assert (x' = x) as -> by congruence. done.
      + erewrite cr_refs_none; [|done..]. done.
    - destruct (R !! n) as [r|] eqn:E; [|done]. exfalso.
      apply (cr_refs _ _ _ _ _ Hc) in E as (_ & j & z & Hj & Hz & Hcz & _). by apply (Hno j z). }
  assert (∀ j z m, (j < NBUF)%nat → bufs s !! j = Some z → caches m z → m ≠ n → 0 < b_refcnt z →
            bufs s' !! j = Some z) as Hkeep.
  { intros j z m Hj Hz Hcz Hm Hrz. destruct (decide (j = b)) as [->|Hjb]; [|by rewrite gt_rest].
    assert (z = x) as -> by congruence. exfalso.
    destruct gt_ref as [[Hcx _]|(_ & Hx0 & _)]; [destruct Hcz, Hcx; congruence|lia]. }
  assert (0 ≤ default 0 (R !! n)) as Hr0.
  { destruct (R !! n) as [r|] eqn:E; [|done]. apply (cr_refs _ _ _ _ _ Hc) in E as [E _]. simpl. lia. }
  split; [done|by exists l|..].
  - intros m r. destruct (decide (m = n)) as [->|Hmn].
    + rewrite lookup_insert_eq. split.
      * intros [= <-]. split; [lia|]. exists b, y. done.
      * intros (_ & j & z & Hj & Hz & Hcz & <-). destruct (Hlk j z Hj Hz) as [[-> ->]|(_ & _ & Hf)]; [congruence|done].
    + rewrite lookup_insert_ne, (cr_refs _ _ _ _ _ Hc) by done. split.
      * intros (Hr1 & j & z & Hj & Hz & Hcz & Hrz). split; [done|]. exists j, z. split_and!; try done.
        apply (Hkeep j z m); try done. lia.
      * intros (Hr1 & j & z & Hj & Hz & Hcz & Hrz). split; [done|].
        destruct (Hlk j z Hj Hz) as [[-> ->]|(_ & Hz' & _)]; [destruct Hcz, gt_caches; congruence|eauto 10].
  - intros j z Hj Hz Hrz. destruct (Hlk j z Hj Hz) as [[-> ->]|(_ & Hz' & _)]; [apply gt_caches|].
    by apply (cr_dev _ _ _ _ _ Hc j).
  - intros m c Hm. destruct (decide (m = n)) as [->|Hmn].
    + rewrite lookup_insert_eq in Hm. simplify_eq. exists y. split_and!; try done. lia.
    + rewrite lookup_insert_ne in Hm by done.
      destruct (cr_own _ _ _ _ _ Hc m c Hm) as (z & Hzb & Hz & Hcz & Hvz & Hlz & Hrz).
      exists z. split_and!; try done. by apply (Hkeep c z m).
  - intros j z Hj Hz Hlz. destruct (Hlk j z Hj Hz) as [[-> ->]|(Hjb & Hz' & Hnc)].
    + destruct gt_caches as [_ ->]. by rewrite lookup_insert_eq.
    + pose proof (cr_lock _ _ _ _ _ Hc j z Hj Hz' Hlz) as Hoz.
      rewrite lookup_insert_ne; [done|]. intros Hbz. rewrite <- Hbz in Hoz. congruence.
Qed.
(** Storing into an owned buffer. *)
Lemma cache_data s i pid R O n b f :
  cache_rep s i pid R O → O !! n = Some b →
  ∃ s', updb b (λ x, x <| b_data ::= f |>) s = Ok tt s' ∧ cache_rep s' i pid R O ∧
    (∀ m, blk s' m = if decide (m = n) then f (blk s n) else blk s m) ∧ s' = s <| bufs := bufs s' |>.
Proof.
  intros Hc Ho. destruct (cr_owned _ _ _ _ _ _ _ Hc Ho) as (x & Hx & Hd & Hr & Hcx & Hl & Hb & Hv).
  destruct (cr_wf _ _ _ _ _ Hc) as [l Hw]. pose proof (bw_ref _ _ Hw _ _ Hx).
  apply (cr_refs _ _ _ _ _ Hc) in Hr as Hr'. destruct Hr' as [Hr0 _].
  destruct (cache_set_buf s i pid R O n b x (x <| b_data ::= f |>)) as [Hc' Hblk]; rsimpl; try done; [lia|].
  rewrite (insert_id R) in Hc' by (rsimpl; done). rewrite <- Hd.
  eexists. split; [by apply updb_ok|]. split; [done|]. split; [exact Hblk|rsimpl; kst_eq s].
Qed.

Lemma cache_bwrite s i pid R O n b :
  cache_rep s i pid R O → O !! n = Some b →
  ∃ s', bwrite b s = Ok tt s' ∧ cache_rep s' i pid R O ∧ (∀ m, blk s' m = blk s m) ∧
    s' = s <| disk := <[n := blk s n]> (disk s) |> <| disk_trace := (n, blk s n) :: disk_trace s |>.
Proof.
  intros Hc Ho. destruct (cr_owned _ _ _ _ _ _ _ Hc Ho) as (x & Hx & Hd & Hr & Hcx & Hl & Hb & Hv).
  destruct (cr_wf _ _ _ _ _ Hc) as [l Hw]. pose proof (bw_ref _ _ Hw _ _ Hx).
  apply (cr_refs _ _ _ _ _ Hc) in Hr as Hr'. destruct Hr' as [Hr0 _]. pose proof (cr_run _ _ _ _ _ Hc) as Hrun.
  destruct (cache_set s i pid R O n b x x (<[n := blk s n]> (disk s)) ((n, blk s n) :: disk_trace s)) as [Hc' Hblk];
    try done; [lia|intros m Hm; by apply dblock_insert_ne|].
  rewrite (insert_id R) in Hc' by done. rewrite list_insert_id in Hc', Hblk by done. rewrite bufs_eta in Hc', Hblk.
  eexists. split.
  - unfold bwrite. erewrite bind_ok.
    2:{ eapply (holdingsleep_ok _ _ i pid); [done|]. unfold sl_lookup. rewrite Hx. reflexivity. }
    rewrite Hl. cbn [sl_locked sl_pid]. rewrite Z.eqb_refl. cbn [negb andb Z.eqb].
    apply (disk_write b x); [done|apply Hrun|by rewrite (rn_cur _ _ _ Hrun)].
  - destruct Hcx as [_ ->]. rewrite Hd. split; [done|]. split; [|done]. intros m. rewrite Hblk.
    case_decide; by subst.
Qed.

(** [bpin] and [bunpin], also with other spin locks held. *)
Lemma cache_pin_held s i pid R O n b k h :
  cache_rep s i pid R O → O !! n = Some b → 0 < default 0 (R !! n) + k < 2 ^ 31 → Lbcache ∉ h →
  ∃ s', (acquire Lbcache ;;; updb b (λ x, x <| b_refcnt := u32 (b_refcnt x + k) |>) ;;; release Lbcache)
          (s <| held := h |>) = Ok tt (s' <| held := h |>) ∧
    cache_rep s' i pid (<[n := default 0 (R !! n) + k]> R) O ∧ (∀ m, blk s' m = blk s m) ∧
    s' = s <| bufs := bufs s' |>.
Proof.
  intros Hc Ho Hk Hn. destruct (cr_owned _ _ _ _ _ _ _ Hc Ho) as (x & Hx & Hd & Hr & Hcx & Hl & Hb & Hv).
  rewrite Hr in *. cbn [default from_option id] in *.
  destruct (cache_set_buf s i pid R O n b x (x <| b_refcnt := u32 (b_refcnt x + k) |>)) as [Hc' Hblk];
    rsimpl; try done; [rewrite u32_small by lia; done|].
  exists (s <| bufs := <[b := x <| b_refcnt := u32 (b_refcnt x + k) |>]> (bufs s) |>). split.
  - kcall. erewrite bind_ok by (apply updb_ok; rsimpl; exact Hx). rsimpl. krel. kst_eq s.
  - rewrite u32_small in * by lia. rsimpl. split; [done|].
    split; [|kst_eq s]. intros m. rewrite Hblk. rsimpl. case_decide; by subst.
Qed.

Lemma cache_pin s i pid R O n b k :
  cache_rep s i pid R O → O !! n = Some b → 0 < default 0 (R !! n) + k < 2 ^ 31 →
  ∃ s', (acquire Lbcache ;;; updb b (λ x, x <| b_refcnt := u32 (b_refcnt x + k) |>) ;;; release Lbcache) s = Ok tt s' ∧
    cache_rep s' i pid (<[n := default 0 (R !! n) + k]> R) O ∧ (∀ m, blk s' m = blk s m) ∧
    s' = s <| bufs := bufs s' |>.
Proof.
  intros Hc Ho Hk. destruct (cache_pin_held s i pid R O n b k (held s) Hc Ho Hk) as (s' & E & Hc' & Hb & Hs).
  { rewrite (rn_held _ _ _ (cr_run _ _ _ _ _ Hc)). apply not_elem_of_nil. }
  exists s'. rewrite held_eta in E. replace (s' <| held := held s |>) with s' in E; [done|].
  rewrite Hs. rsimpl. kst_eq s.
Qed.

Lemma wake_running s i pid chan :
  running s i pid → p_pid <$> imap (wake chan (cur s)) (procs s) !! i = Some pid ∧
  length (imap (wake chan (cur s)) (procs s)) = NPROC.
Proof.
  intros [Hc Hp Hl _]. rewrite length_imap. split; [|done].
  apply fmap_Some in Hp as (q & Hq & ->). rewrite list_lookup_imap, Hq, Hc. simpl. f_equal.
  unfold wake. rewrite bool_decide_true by done. done.
Qed.

(** [brelse] gives up the lock and a reference; the last reference may go only
    when the disk has the contents. *)
Lemma cache_brelse s i pid R O n b r :
  cache_rep s i pid R O → O !! n = Some b → R !! n = Some r → (r = 1 → blk s n = dblock (disk s) n) →
  ∃ s', brelse b s = Ok tt s' ∧
    cache_rep s' i pid (if r =? 1 then delete n R else <[n := r - 1]> R) (delete n O) ∧
    (∀ m, blk s' m = blk s m) ∧ s' = s <| bufs := bufs s' |> <| procs := procs s' |>.
Proof.
  intros Hc Ho HR Hlast. destruct (cr_owned _ _ _ _ _ _ _ Hc Ho) as (x & Hx & Hd & Hr & Hcx & Hl & Hb & Hv).
  assert (b_refcnt x = r) as Hxr by congruence. clear Hr.
  destruct (cr_wf _ _ _ _ _ Hc) as [l Hw]. pose proof (bw_ref _ _ Hw _ _ Hx) as Hrb.
  pose proof (cr_run _ _ _ _ _ Hc) as Hrun. pose proof (lookup_lt_Some _ _ _ Hx) as Hlt.
  apply (cr_refs _ _ _ _ _ Hc) in HR as Hr0. destruct Hr0 as [Hr0 _].
  set (y := x <| b_lock := mkSleeplock 0 0 |> <| b_refcnt := r - 1 |>).
  destruct (cache_put s i pid R O (if r =? 1 then delete n R else <[n := r - 1]> R) (delete n O) n b x y
              (disk s) (disk_trace s)) as [Hc1 Hblk]; subst y; rsimpl; try done; try lia.
  { intros H0. rewrite Hd. apply Hlast. lia. }
  { intros m Hm. rewrite lookup_delete_ne by done. case_match; [by rewrite lookup_delete_ne|by rewrite lookup_insert_ne]. }
  { destruct (r =? 1) eqn:E; [rewrite lookup_delete_eq|rewrite lookup_insert_eq].
    - replace (r - 1 =? 0) with true by lia. done.
    - replace (r - 1 =? 0) with false by lia. done. }
  { right. by rewrite lookup_delete_eq. }
  rewrite disk_eta in Hc1, Hblk. set (y := x <| b_lock := mkSleeplock 0 0 |> <| b_refcnt := r - 1 |>) in *.
  set (ps := imap (wake (slk_chan (SlBuf b)) (cur s)) (procs s)).
  set (s1 := s <| bufs := <[b := y]> (bufs s) |>) in *.
  assert (∀ m, blk s1 m = blk s m) as Hblk1.
  { intros m. rewrite Hblk. case_decide; [|done]. subst m y. by rsimpl. }
  destruct (wake_running s i pid (slk_chan (SlBuf b)) Hrun) as [Hps1 Hps2]. fold ps in Hps1, Hps2.
  pose proof (cache_procs _ _ _ _ _ ps Hc1 Hps1 Hps2) as Hc2.
  assert (∃ B, (when b_refcnt y =? 0 do lru_front b) (s1 <| procs := ps |> <| held := [Lbcache] |>) =
      Ok tt (s1 <| procs := ps |> <| held := [Lbcache] |> <| bufs := B |>) ∧
    cache_rep (s1 <| procs := ps |> <| bufs := B |>) i pid
      (if r =? 1 then delete n R else <[n := r - 1]> R) (delete n O) ∧
    (∀ m, blk (s1 <| procs := ps |> <| bufs := B |>) m = blk s m)) as (B & HB1 & HB2 & HB3).
  { destruct (b_refcnt y =? 0).
    - destruct (cache_front _ _ _ _ _ b [Lbcache] Hc2 Hb) as (B & H1 & H2 & H3). exists B.
      split; [done|]. split; [done|]. intros m. rewrite H3. apply Hblk1.
    - exists (bufs s1). split; [unfold ret; f_equal; kst_eq s|]. rewrite procs_bufs_eta. split; [done|]. apply Hblk1. }
  exists (s1 <| procs := ps |> <| bufs := B |>). split; [|split; [done|split; [done|subst s1; rsimpl; kst_eq s]]].
  unfold brelse. erewrite bind_ok.
  2:{ eapply (holdingsleep_ok _ _ i pid); [done|]. unfold sl_lookup. rewrite Hx. reflexivity. }
  rewrite Hl. cbn [sl_locked sl_pid]. rewrite Z.eqb_refl. cbn [negb andb Z.eqb].
  erewrite bind_ok by (eapply (releasesleep_ok _ _ i pid); [done|unfold sl_lookup; by rewrite Hx]).
  fold ps. rewrite (sl_store_buf _ _ _ x) by done.
  assert (held s = []) as Hh by apply Hrun.
  assert (Lbcache ∉ held s) as Hn by (rewrite Hh; apply not_elem_of_nil). kcall. rsimpl.
  erewrite bind_ok by (apply updb_ok; rsimpl; by rewrite list_lookup_insert_eq).
  rsimpl. rewrite list_insert_insert_eq, Hxr, u32_small by lia. fold y. rewrite Hh.
  match goal with |- _ ?t = _ => replace t with (s1 <| procs := ps |> <| held := [Lbcache] |>) by (subst s1; kst_eq s) end.
  erewrite bind_ok by (apply getb_ok; subst s1; rsimpl; by rewrite list_lookup_insert_eq).
  erewrite bind_ok by exact HB1.
  erewrite release_top; [|rsimpl; reflexivity|set_solver]. f_equal. subst s1. rewrite <- Hh. kst_eq s.
Qed.

End Ops.

(** ** At boot *)

Definition boot_bufs : list buf :=
  Eval vm_compute in match binit kst0 with Ok _ s => bufs s | _ => [] end.

Lemma binit_run s : bufs s = replicate (S NBUF) buf0 → binit s = Ok tt (s <| bufs := boot_bufs |>).
Proof. intros Hb. destruct s. cbn in Hb. subst. vm_compute. reflexivity. Qed.

(** The order [binit] leaves: the buffer initialised last comes first. *)
Definition boot_order : list nat := reverse (seq 0 NBUF).

Lemma boot_fields i x :
  boot_bufs !! i = Some x → b_dev x = 0 ∧ b_refcnt x = 0 ∧ b_valid x = 0 ∧ b_lock x = mkSleeplock 0 0.
Proof.
  assert (Forall (λ x, b_dev x = 0 ∧ b_refcnt x = 0 ∧ b_valid x = 0 ∧ b_lock x = mkSleeplock 0 0) boot_bufs) as Hall.
  { unfold boot_bufs. repeat (constructor; [done|]). constructor. }
  rewrite Forall_forall in Hall. intros Hi. by eapply Hall, list_elem_of_lookup_2.
Qed.

Lemma boot_wf s : bufs s = boot_bufs → bcache_wf s boot_order.
Proof.
  intros Hb. pose proof boot_fields as Hx. split; rewrite ?Hb.
  - reflexivity.
  - unfold boot_order. apply reverse_Permutation.
  - vm_compute. repeat split.
  - intros i j x y n _ _ Hi _ [Hd _] _. destruct (Hx i x Hi) as (H0 & _). rewrite H0 in Hd. done.
  - intros i x Hi. destruct (Hx i x Hi) as (_ & -> & _). done.
  - intros i x _ Hi Hv. by destruct (Hx i x Hi) as (_ & _ & ? & _).
  - intros i x _ Hi Hv. by destruct (Hx i x Hi) as (_ & _ & ? & _).
  - intros i x _ Hi _. destruct (Hx i x Hi) as (_ & _ & _ & ->). done.
  - intros x Hi. by destruct (Hx _ x Hi) as (-> & _).
Qed.

(** [binit] establishes the view: nothing referenced, nothing locked. *)
Lemma binit_rep s i pid :
  bufs s = replicate (S NBUF) buf0 → running s i pid →
  binit s = Ok tt (s <| bufs := boot_bufs |>) ∧ cache_rep (s <| bufs := boot_bufs |>) i pid ∅ ∅.
Proof.
  intros Hb Hr. split; [by apply binit_run|].
  assert (bcache_wf (s <| bufs := boot_bufs |>) boot_order) as Hw by (apply boot_wf; by rsimpl).
  assert (∀ j x, boot_bufs !! j = Some x → b_refcnt x = 0 ∧ sl_locked (b_lock x) = 0) as H0.
  { intros j x Hj. by destruct (boot_fields j x Hj) as (_ & ? & _ & ->). }
  split; rsimpl.
  - by apply running_bufs.
  - by exists boot_order.
  - intros n r. rewrite lookup_empty. split; [done|]. intros (Hr0 & j & x & _ & Hx & _ & Hrx).
    destruct (H0 j x Hx) as [Hr' _]. lia.
  - intros j x _ Hx Hr0. destruct (H0 j x Hx) as [Hr' _]. lia.
  - done.
  - intros j x _ Hx Hl. by destruct (H0 j x Hx) as [_ ?].
Qed.

(** A disk that transfers at once. *)
Definition ram_disk (b : nat) (write : bool) : KM unit :=
  x <- getb b ;;
  if write then
    modify (λ s, s <| disk ::= <[b_blockno x := b_data x]> |> <| disk_trace ::= List.cons (b_blockno x, b_data x) |>)
  else
    d <- gets disk ;; updb b (λ y, y <| b_data := dblock d (b_blockno y) |>).

Lemma ram_disk_ok : @BlockDevOk ram_disk.
Proof.
  split; intros i b s Hb _ _; unfold virtio_disk_rw, ram_disk; erewrite bind_ok by (by apply getb_ok).
  - kstep. by rewrite (updb_ok _ _ b).
  - unfold modify. kst_eq s.
Qed.
