(* ===== verification/Log.v ===== *)
(** * The redo log ([kernel/log.c])

    Transactions over the buffer cache: [begin_op] and [end_op] bracket the
    file-system part of a system call, [log_write] records a modified block,
    [commit] writes the log, the header and the home blocks, and
    [recover_from_log] replays a committed log at boot. *)

From Stdlib Require Import ZArith Lia.
From S2P Require Import Prelude Params State Process Bytes Sleeplock Bio.
From stdpp Require Import base gmap strings numbers list.

Open Scope Z_scope.

Definition getlog : KM log := gets klog.
Definition updlog (f : log → log) : KM unit := modify (λ s, s <| klog ::= f |>).

(** [log.lh.block[i]], of an array of [LOGBLOCKS] elements. *)
Definition getblock (i : nat) : KM Z := λ s,
  match lh_block (l_lh (klog s)) !! i with Some b => Ok b s | None => Fault end.
Definition setblock (i : nat) (v : Z) : KM unit :=
  getblock i ;;;
  updlog (λ l, l <| l_lh ::= λ h, h <| lh_block ::= <[i := v]> |> |>).
Definition set_lh_n (n : Z) : KM unit :=
  updlog (λ l, l <| l_lh ::= λ h, h <| lh_n := n |> |>).

(** [for(tail = 0; tail < log.lh.n; tail++)]; no loop body changes
    [log.lh.n]. *)
Definition for_tail (body : nat → KM unit) : KM unit :=
  l <- getlog ;;
  for_each (seq 0 (Z.to_nat (lh_n (l_lh l)))) (λ t, body t ;;; ret (@None unit)) ;;;
  ret tt.

(** Offset of [block[i]] in a [struct logheader]. *)
Definition lh_off (i : nat) : nat := 4 + 4 * i.

Section Log.
Context `{Wakeups, BlockDev}.

Definition install_body (recovering : bool) (tail : nat) : KM unit :=
  (when recovering do
     (d <- getblock tail ;; printk "recovering tail %d dst %d" [Z.of_nat tail; d])) ;;;
  l <- getlog ;;
  lbuf <- bread (u32 (l_dev l)) (u32 (l_start l + Z.of_nat tail + 1)) ;;
  blockno <- getblock tail ;;
  dbuf <- bread (u32 (l_dev l)) (u32 blockno) ;;
  src <- getb lbuf ;;
  updb dbuf (λ b, b <| b_data := b_data src |>) ;;;
  bwrite dbuf ;;;
  (when negb recovering do bunpin dbuf) ;;;
  brelse lbuf ;;;
  brelse dbuf.
Definition install_trans (recovering : bool) : KM unit := for_tail (install_body recovering).

Definition read_head : KM unit :=
  l <- getlog ;;
  buf <- bread (u32 (l_dev l)) (u32 (l_start l)) ;;
  b <- getb buf ;;
  set_lh_n (s32 (get32 (b_data b) 0)) ;;;
  for_tail (λ i, setblock i (s32 (get32 (b_data b) (lh_off i)))) ;;;
  brelse buf.

Definition write_head : KM unit :=
  l <- getlog ;;
  buf <- bread (u32 (l_dev l)) (u32 (l_start l)) ;;
  updb buf (λ b, b <| b_data ::= λ d, put32 d 0 (lh_n (l_lh l)) |>) ;;;
  for_tail (λ i,
    v <- getblock i ;; updb buf (λ b, b <| b_data ::= λ d, put32 d (lh_off i) v |>)) ;;;
  bwrite buf ;;;
  brelse buf.

Definition recover_from_log : KM unit :=
  read_head ;;;
  install_trans true ;;;
  set_lh_n 0 ;;;
  write_head.

(** [sizeof(struct logheader)]. *)
Definition sizeof_logheader : Z := 4 + 4 * LOGBLOCKS.

Definition initlog (dev : Z) (sb : superblock) : KM unit :=
  if sizeof_logheader >=? BSIZE then panic "initlog: too big logheader"
  else
    updlog (λ l, l <| l_start := s32 (sb_logstart sb) |> <| l_dev := dev |>) ;;;
    recover_from_log.

(** The loop of [begin_op], entered with [log.lock] held. *)
Fixpoint begin_op_wait (fuel : nat) : KM unit :=
  l <- getlog ;;
  let full := (lh_n (l_lh l) + (l_outstanding l + 1) * MAXOPBLOCKS >? LOGBLOCKS) in
  if negb (l_committing l =? 0) || full then
    match fuel with
    | O => nofuel
    | S fuel' => sleep ChLog Llog ;;; begin_op_wait fuel'
    end
  else
    updlog (λ l, l <| l_outstanding := s32 (l_outstanding l + 1) |>) ;;;
    release Llog.

Definition begin_op : KM unit :=
  acquire Llog ;;;
  begin_op_wait wakeups.

Definition write_log_body (tail : nat) : KM unit :=
  l <- getlog ;;
  to <- bread (u32 (l_dev l)) (u32 (l_start l + Z.of_nat tail + 1)) ;;
  blockno <- getblock tail ;;
  from <- bread (u32 (l_dev l)) (u32 blockno) ;;
  src <- getb from ;;
  updb to (λ b, b <| b_data := b_data src |>) ;;;
  bwrite to ;;;
  brelse from ;;;
  brelse to.
Definition write_log : KM unit := for_tail write_log_body.

Definition commit : KM unit :=
  l <- getlog ;;
  when lh_n (l_lh l) >? 0 do
    (write_log ;;;
     write_head ;;;
     install_trans false ;;;
     set_lh_n 0 ;;;
     write_head).

Definition end_op : KM unit :=
  acquire Llog ;;;
  updlog (λ l, l <| l_outstanding := s32 (l_outstanding l - 1) |>) ;;;
  l <- getlog ;;
  if negb (l_committing l =? 0) then panic "log.committing"
  else
    (if l_outstanding l =? 0 then updlog (λ l, l <| l_committing := 1 |>) else wakeup ChLog) ;;;
    release Llog ;;;
    (when l_outstanding l =? 0 do
       (commit ;;;
        acquire Llog ;;;
        updlog (λ l, l <| l_committing := 0 |>) ;;;
        wakeup ChLog ;;;
        release Llog)).

(** The index log absorption finds: the first entry of the header that is the
    block, or [n]. *)
Definition absorb (blocks : list Z) (n : nat) (blockno : Z) : nat :=
  match list_find (λ x, u32 x = blockno) (take n blocks) with
  | Some (i, _) => i
  | None => n
  end.

Definition log_write (b : nat) : KM unit :=
  acquire Llog ;;;
  l <- getlog ;;
  if lh_n (l_lh l) >=? LOGBLOCKS then panic "too big a transaction"
  else if l_outstanding l <? 1 then panic "log_write outside of trans"
  else
    x <- getb b ;;
    let i := absorb (lh_block (l_lh l)) (Z.to_nat (lh_n (l_lh l))) (b_blockno x) in
    setblock i (s32 (b_blockno x)) ;;;
    (when Z.of_nat i =? lh_n (l_lh l) do
       (bpin b ;;; set_lh_n (lh_n (l_lh l) + 1))) ;;;
    release Llog.

End Log.
