(* ===== verification/LogRep.v ===== *)
(** * Crash safety of the log

    What [write_log], [write_head], [install_trans], [commit] and
    [recover_from_log] do to the blocks, as the sequence of the disk writes
    they make; a crash keeps a prefix of the sequence. *)

From Stdlib Require Import ZArith Lia.
From S2P Require Import Prelude Params State Process Bytes Sleeplock Bio BioRep Cache Log.
From stdpp Require Import base gmap strings numbers list.

Open Scope Z_scope.

(** ** Sequences of block writes *)

Fixpoint wr (ws : list (Z * list Z)) (f : Z → list Z) (m : Z) : list Z :=
  match ws with
  | [] => f m
  | (n, v) :: ws' => wr ws' (λ k, if decide (k = n) then v else f k) m
  end.

Lemma wr_ext ws f g m : (∀ k, f k = g k) → wr ws f m = wr ws g m.
Proof.
  revert f g; induction ws as [|[n v] ws IH]; intros f g Hfg; cbn [wr]; [done|].
  apply IH. intros k. by case_decide.
Qed.
Lemma wr_app ws ws' f m : wr (ws ++ ws') f m = wr ws' (wr ws f) m.
Proof. revert f; induction ws as [|[n v] ws IH]; intros f; cbn [wr app]; [done|apply IH]. Qed.
Lemma wr_other ws f m : m ∉ ws.*1 → wr ws f m = f m.
Proof.
  revert f; induction ws as [|[n v] ws IH]; intros f; cbn [wr fmap list_fmap fst]; [done|].
  rewrite not_elem_of_cons. intros [Hn Hm]. rewrite IH by done. by rewrite decide_False.
Qed.
Lemma wr_in ws f m v : NoDup ws.*1 → (m, v) ∈ ws → wr ws f m = v.
Proof.
  revert f; induction ws as [|[n w] ws IH]; intros f; cbn [wr fmap list_fmap fst]; [by intros _ ?%not_elem_of_nil|].
  rewrite NoDup_cons, elem_of_cons. intros [Hn Hnd] [[= -> ->]|Hin]; [|by apply IH].
  rewrite wr_other by done. by rewrite decide_True.
Qed.

(** From [s] to [s'] the blocks [ws] were written, through the cache. *)
Record wrote (s s' : kst) (ws : list (Z * list Z)) : Prop := {
  wt_frame : bframe s s';
  wt_blk : ∀ m, blk s' m = wr ws (blk s) m;
  wt_disk : ∀ m, dblock (disk s') m = wr ws (dblock (disk s)) m;
  wt_trace : disk_trace s' = rev ws ++ disk_trace s
}.

Lemma wrote_trans s1 s2 s3 ws ws' : wrote s1 s2 ws → wrote s2 s3 ws' → wrote s1 s3 (ws ++ ws').
Proof.
  intros [F1 B1 D1 T1] [F2 B2 D2 T2]. split.
  - by eapply bframe_trans.
  - intros m. rewrite wr_app, B2. by apply wr_ext.
  - intros m. rewrite wr_app, D2. by apply wr_ext.
  - by rewrite T2, T1, rev_app_distr, app_assoc.
Qed.

Lemma wrote_refl s : wrote s s [].
Proof. split; [apply bframe_refl|done..]. Qed.

(** Steps that write nothing. *)
Lemma wrote_nil s s' :
  (∀ m, blk s' m = blk s m) → s' = s <| bufs := bufs s' |> <| procs := procs s' |> → wrote s s' [].
Proof.
  intros Hb Hs. split; [unfold bframe|done|cbn [wr]|cbn [rev app]]; rewrite Hs; rsimpl; done.
Qed.
Lemma wrote_bufs s s' : (∀ m, blk s' m = blk s m) → s' = s <| bufs := bufs s' |> → wrote s s' [].
Proof. intros Hb Hs. apply wrote_nil; [done|]. rewrite Hs at 1. rewrite Hs. rsimpl. kst_eq s. Qed.

(** A store into a buffer and its [bwrite]. *)
Lemma wrote_put s s1 s2 n v :
  (∀ m, blk s1 m = if decide (m = n) then v else blk s m) → s1 = s <| bufs := bufs s1 |> →
  (∀ m, blk s2 m = blk s1 m) →
  s2 = s1 <| disk := <[n := blk s1 n]> (disk s1) |> <| disk_trace := (n, blk s1 n) :: disk_trace s1 |> →
  wrote s s2 [(n, v)].
Proof.
  intros Hb1 Hs1 Hb2 Hs2. assert (blk s1 n = v) as Hn by (by rewrite Hb1, decide_True).
  rewrite Hn in Hs2. assert (disk s1 = disk s ∧ disk_trace s1 = disk_trace s) as [Hd Ht] by (rewrite Hs1; by rsimpl).
  rewrite Hd, Ht in Hs2. split; cbn [wr rev app].
  - unfold bframe. rewrite Hs2, Hs1. rsimpl. kst_eq s.
  - intros m. by rewrite Hb2, Hb1.
  - intros m. rewrite Hs2. rsimpl. case_decide; [subst; by rewrite dblock_insert|by rewrite dblock_insert_ne].
  - rewrite Hs2. by rsimpl.
Qed.

(** A block no one references is as on the disk. *)
Lemma cr_clean s i pid R O m : cache_rep s i pid R O → R !! m = None → blk s m = dblock (disk s) m.
Proof.
  intros Hc Hm. destruct (cr_wf _ _ _ _ _ Hc) as [l Hw].
  destruct (blk_cases s l m Hw) as [(j & x & Hj & Hx & Hcx & Hv & ->)|[_ ->]]; [|done].
  rewrite (bw_clean _ _ Hw j x Hj Hx Hv) by (by eapply cr_refs_none). by destruct Hcx as [_ ->].
Qed.

(** ** The header block *)

Fixpoint hdr_blocks (i : nat) (bs : list Z) (d : list Z) : list Z :=
  match bs with
  | [] => d
  | b :: bs' => hdr_blocks (S i) bs' (put32 d (lh_off i) b)
  end.

(** The block [d] with a header for [bs] stored in it. *)
Definition hdr (bs : list Z) (d : list Z) : list Z :=
  hdr_blocks 0 bs (put32 d 0 (Z.of_nat (length bs))).

(** Block [d] reads as a header that lists [bs]. *)
Definition hdr_reads (d : list Z) (bs : list Z) : Prop :=
  s32 (get32 d 0) = Z.of_nat (length bs) ∧ ∀ j b, bs !! j = Some b → s32 (get32 d (lh_off j)) = b.

Lemma hdr_blocks_snoc i bs b d :
  hdr_blocks i (bs ++ [b]) d = put32 (hdr_blocks i bs d) (lh_off (i + length bs)) b.
Proof.
  revert i d; induction bs as [|c bs IH]; intros i d; cbn [hdr_blocks app length]; [by rewrite Nat.add_0_r|].
  rewrite IH. do 2 f_equal. lia.
Qed.

Lemma length_hdr_blocks i bs d :
  (lh_off (i + length bs) ≤ length d)%nat → length (hdr_blocks i bs d) = length d.
Proof.
  revert i d; induction bs as [|b bs IH]; intros i d; cbn [hdr_blocks length]; [done|].
  unfold lh_off in *. intros Hl. rewrite IH; rewrite length_bput; lia.
Qed.

Lemma hdr_blocks_below i bs d off :
  (lh_off (i + length bs) ≤ length d)%nat → (off + 4 ≤ lh_off i)%nat →
  get32 (hdr_blocks i bs d) off = get32 d off.
Proof.
  revert i d; induction bs as [|b bs IH]; intros i d; cbn [hdr_blocks length]; [done|].
  unfold lh_off in *. intros Hl Ho. rewrite IH by (rewrite ?length_bput; lia). apply bget_bput_ne; lia.
Qed.

Lemma hdr_blocks_get i bs d j b :
  (lh_off (i + length bs) ≤ length d)%nat → bs !! j = Some b →
  get32 (hdr_blocks i bs d) (lh_off (i + j)) = b mod 2 ^ 32.
Proof.
  revert i d j; induction bs as [|c bs IH]; intros i d j; cbn [hdr_blocks length]; [done|].
  intros Hl. assert (length (put32 d (lh_off i) c) = length d) as Hlen by (apply length_bput; unfold lh_off in *; lia).
  destruct j as [|j]; cbn [lookup list_lookup].
  - intros [= ->]. rewrite Nat.add_0_r, hdr_blocks_below by (rewrite ?Hlen; unfold lh_off in *; lia).
    apply bget_bput_eq. unfold lh_off in *. lia.
  - intros Hj. replace (i + S j)%nat with (S i + j)%nat by lia. apply IH; [|done].
    rewrite Hlen. unfold lh_off in *. lia.
Qed.

Lemma length_hdr bs d :
  Z.of_nat (length d) = BSIZE → Z.of_nat (length bs) ≤ LOGBLOCKS → length (hdr bs d) = length d.
Proof.
  intros Hd Hb. unfold BSIZE in Hd. unfold LOGBLOCKS, MAXOPBLOCKS in Hb. unfold hdr.
  rewrite length_hdr_blocks; rewrite length_bput; unfold lh_off; lia.
Qed.

Lemma hdr_reads_hdr bs d :
  Z.of_nat (length d) = BSIZE → Z.of_nat (length bs) ≤ LOGBLOCKS → (∀ b, b ∈ bs → 0 ≤ b < 2 ^ 31) →
  hdr_reads (hdr bs d) bs.
Proof.
  intros Hd Hb Hr. assert (length d = 1024)%nat as Hd' by (unfold BSIZE in Hd; lia).
  assert (length bs ≤ 30)%nat as Hb' by (unfold LOGBLOCKS, MAXOPBLOCKS in Hb; lia).
  assert (length (put32 d 0 (Z.of_nat (length bs))) = 1024)%nat as Hl by (rewrite length_bput; lia).
  unfold hdr. split.
  - rewrite hdr_blocks_below by (unfold lh_off; lia). rewrite bget_bput_eq by lia.
    change (2 ^ (8 * Z.of_nat 4)) with (2 ^ 32). rewrite Z.mod_small by lia. apply s32_small. lia.
  - intros j b Hj. rewrite (hdr_blocks_get 0 bs _ j b) by (unfold lh_off; try done; lia).
    pose proof (Hr b (list_elem_of_lookup_2 _ _ _ Hj)). rewrite Z.mod_small by lia. apply s32_small. lia.
Qed.

(** ** The log in memory *)

(** The header of the log at block [st] lists the blocks [bs]. *)
Record log_at (s : kst) (st : Z) (bs : list Z) : Prop := {
  la_dev : l_dev (klog s) = ROOTDEV;
  la_start : l_start (klog s) = st;
  la_n : lh_n (l_lh (klog s)) = Z.of_nat (length bs);
  la_blocks : take (length bs) (lh_block (l_lh (klog s))) = bs
}.

(** Where the log and the logged blocks lie. *)
Record log_geom (st : Z) (bs : list Z) : Prop := {
  lg_start : 0 ≤ st ∧ st + LOGBLOCKS < 2 ^ 31;
  lg_len : Z.of_nat (length bs) ≤ LOGBLOCKS;
  lg_nodup : NoDup bs;
  lg_home : ∀ b, b ∈ bs → 0 ≤ b < 2 ^ 31 ∧ (b < st ∨ st + LOGBLOCKS < b)
}.

(** No one uses the blocks of the log, and a buffer is free. *)
Record log_refs (R : gmap Z Z) (st : Z) : Prop := {
  lr_log : ∀ m, st ≤ m ≤ st + LOGBLOCKS → R !! m = None;
  lr_free : (size R < NBUF)%nat;
  lr_small : ∀ m r, R !! m = Some r → 0 < r ∧ r + 2 < 2 ^ 31
}.

Lemma la_lookup s st bs t b : log_at s st bs → bs !! t = Some b → getblock t s = Ok b s.
Proof.
  intros Hl Hb. unfold getblock. rewrite <- (la_blocks _ _ _ Hl) in Hb.
  apply lookup_take_Some in Hb as [-> _]. done.
Qed.

Lemma log_at_klog s s' st bs : log_at s st bs → klog s' = klog s → log_at s' st bs.
Proof. intros [] Hk. split; by rewrite Hk. Qed.

Lemma bframe_klog s s' : bframe s s' → klog s' = klog s.
Proof. intros ->. by rsimpl. Qed.
Lemma wrote_klog s s' ws : wrote s s' ws → klog s' = klog s.
Proof. intros []. by apply bframe_klog. Qed.

(** [for_tail] runs its body for each block of the header. *)
Lemma for_tail_ok (I : nat → kst → Prop) (body : nat → KM unit) s st bs :
  log_at s st bs → I O s →
  (∀ t b s', bs !! t = Some b → I t s' → ∃ s2, body t s' = Ok tt s2 ∧ I (S t) s2) →
  ∃ s', for_tail body s = Ok tt s' ∧ I (length bs) s'.
Proof.
  intros Hl HI Hstep. unfold for_tail, getlog. kstep. rewrite (la_n _ _ _ Hl), Nat2Z.id.
  assert (∀ k t s, (t + k = length bs)%nat → I t s →
    ∃ s', for_each (seq t k) (λ t, body t ;;; ret (@None unit)) s = Ok None s' ∧ I (length bs) s') as Hloop.
  { induction k as [|k IH]; intros t s1 Hk H1; cbn [seq for_each].
    - exists s1. split; [done|]. by replace (length bs) with t by lia.
    - destruct (lookup_lt_is_Some_2 bs t ltac:(lia)) as [b Hb].
      destruct (Hstep t b s1 Hb H1) as (s2 & E & H2).
      destruct (IH (S t) s2 ltac:(lia) H2) as (s3 & E3 & H3). exists s3. split; [|done].
      erewrite bind_ok; [|erewrite bind_ok by exact E; reflexivity]. exact E3. }
  destruct (Hloop (length bs) O s ltac:(lia) HI) as (s' & E & H'). exists s'. split; [|done].
  erewrite bind_ok by exact E. done.
Qed.

Section Steps.
Context `{HW : Wakeups, HB : BlockDev, HBO : !BlockDevOk}.
Variables (i : nat) (pid st : Z).

Definition log_slot (t : nat) : Z := st + Z.of_nat t + 1.

(** Reading a free block, for its contents or to be written. *)
Lemma lbread s R O n :
  cache_rep s i pid R O → O !! n = None → R !! n = None → (size R < NBUF)%nat →
  ∃ b s', bread ROOTDEV n s = Ok b s' ∧ cache_rep s' i pid (<[n := 1]> R) (<[n := b]> O) ∧ wrote s s' [].
Proof.
  intros Hc Ho HR Hsz. destruct (cache_bread s i pid R O n) as (b & s' & E & Hc' & Hb & Hs); try done.
  { by right. } { by rewrite HR. }
  rewrite HR in Hc'. exists b, s'. split; [done|]. split; [done|]. by apply wrote_bufs.
Qed.

(** Reading a referenced block. *)
Lemma lbread_pinned s R O n r :
  cache_rep s i pid R O → O !! n = None → R !! n = Some r → r + 1 < 2 ^ 31 →
  ∃ b s', bread ROOTDEV n s = Ok b s' ∧ cache_rep s' i pid (<[n := r + 1]> R) (<[n := b]> O) ∧ wrote s s' [].
Proof.
  intros Hc Ho HR Hr. destruct (cache_bread s i pid R O n) as (b & s' & E & Hc' & Hb & Hs); try done.
  { left. by apply elem_of_dom_2 in HR. } { by rewrite HR. }
  rewrite HR in Hc'. exists b, s'. split; [done|]. split; [done|]. by apply wrote_bufs.
Qed.

(** Filling a locked buffer and writing it. *)
Lemma lwrite s R O n b f :
  cache_rep s i pid R O → O !! n = Some b →
  ∃ s1 s2, updb b (λ x, x <| b_data ::= f |>) s = Ok tt s1 ∧ bwrite b s1 = Ok tt s2 ∧
    cache_rep s2 i pid R O ∧ wrote s s2 [(n, f (blk s n))].
Proof.
  intros Hc Ho. destruct (cache_data s i pid R O n b f Hc Ho) as (s1 & E1 & Hc1 & Hb1 & Hs1).
  destruct (cache_bwrite s1 i pid R O n b Hc1 Ho) as (s2 & E2 & Hc2 & Hb2 & Hs2).
  exists s1, s2. split_and!; try done. by eapply wrote_put.
Qed.

Lemma lrelse s R O n b :
  cache_rep s i pid (<[n := 1]> R) (<[n := b]> O) → R !! n = None → O !! n = None →
  blk s n = dblock (disk s) n →
  ∃ s', brelse b s = Ok tt s' ∧ cache_rep s' i pid R O ∧ wrote s s' [].
Proof.
  intros Hc HR HO Hcl.
  destruct (cache_brelse s i pid _ _ n b 1 Hc (lookup_insert_eq _ _ _) (lookup_insert_eq _ _ _))
    as (s' & E & Hc' & Hb & Hs); [done|].
  cbn [Z.eqb Pos.eqb] in Hc'. rewrite !delete_insert_id in Hc' by done.
  exists s'. split; [done|]. split; [done|]. by apply wrote_nil.
Qed.

Lemma lrelse_pinned s R O n b r :
  cache_rep s i pid (<[n := r + 1]> R) (<[n := b]> O) → R !! n = Some r → 0 < r → O !! n = None →
  ∃ s', brelse b s = Ok tt s' ∧ cache_rep s' i pid R O ∧ wrote s s' [].
Proof.
  intros Hc HR Hr HO.
  destruct (cache_brelse s i pid _ _ n b (r + 1) Hc (lookup_insert_eq _ _ _) (lookup_insert_eq _ _ _))
    as (s' & E & Hc' & Hb & Hs); [lia|].
  replace (r + 1 =? 1) with false in Hc' by lia. replace (r + 1 - 1) with r in Hc' by lia.
  rewrite insert_insert_eq, (insert_id R), delete_insert_id in Hc' by done.
  exists s'. split; [done|]. split; [done|]. by apply wrote_nil.
Qed.

(** [log_at], [log_geom] and [log_refs] with the arguments of the calls
    evaluated. *)
Lemma slot_facts R bs t b :
  log_geom st bs → log_refs R st → bs !! t = Some b →
  u32 (log_slot t) = log_slot t ∧ u32 b = b ∧ R !! log_slot t = None ∧ log_slot t ≠ b ∧ b ∈ bs.
Proof.
  intros [Hs Hl Hnd Hh] Hr Hb. pose proof (lookup_lt_Some _ _ _ Hb) as Ht.
  assert (b ∈ bs) as Hin by (by eapply list_elem_of_lookup_2). destruct (Hh b Hin) as [Hb0 Hb1].
  unfold log_slot. rewrite !u32_small by lia. split_and!; try done; [|lia].
  apply (lr_log _ _ Hr). lia.
Qed.

Lemma write_log_step s R bs t b r :
  cache_rep s i pid R ∅ → log_at s st bs → log_geom st bs → log_refs R st → bs !! t = Some b →
  R !! b = Some r →
  ∃ s', write_log_body t s = Ok tt s' ∧ cache_rep s' i pid R ∅ ∧ wrote s s' [(log_slot t, blk s b)].
Proof.
  intros Hc Hl Hg Hr Hb HR. destruct (slot_facts R bs t b Hg Hr Hb) as (Hu1 & Hu2 & Hn & Hne & Hin).
  destruct (lr_small _ _ Hr b r HR) as [Hr0 Hr1].
  unfold write_log_body, getlog. kstep. rewrite (la_dev _ _ _ Hl), (la_start _ _ _ Hl).
  fold (log_slot t). rewrite Hu1. change (u32 ROOTDEV) with ROOTDEV.
  destruct (lbread s R ∅ (log_slot t) Hc) as (to & s1 & E1 & Hc1 & W1); [done..|apply Hr|].
  erewrite bind_ok by exact E1. assert (log_at s1 st bs) as Hl1 by (eapply log_at_klog; [done|by eapply wrote_klog]).
  erewrite bind_ok by (by eapply la_lookup). rewrite Hu2.
  destruct (lbread_pinned s1 _ _ b r Hc1) as (from & s2 & E2 & Hc2 & W2);
    [by rewrite lookup_insert_ne|by rewrite lookup_insert_ne|lia|].
  erewrite bind_ok by exact E2.
  destruct (cr_owned _ _ _ _ _ b from Hc2) as (x & Hx & Hd & _); [apply lookup_insert_eq|].
  erewrite bind_ok by (by apply getb_ok).
  destruct (lwrite s2 _ _ (log_slot t) to (λ _, b_data x) Hc2) as (s3 & s4 & E3 & E4 & Hc4 & W4).
  { rewrite lookup_insert_ne by done. apply lookup_insert_eq. }
  erewrite bind_ok by exact E3. erewrite bind_ok by exact E4.
  destruct (lrelse_pinned s4 _ _ b from r Hc4) as (s5 & E5 & Hc5 & W5);
    [by rewrite lookup_insert_ne|done|by rewrite lookup_insert_ne|].
  erewrite bind_ok by exact E5.
  destruct (lrelse s5 R ∅ (log_slot t) to Hc5) as (s6 & E6 & Hc6 & W6); [done..| |].
  { rewrite (wt_blk _ _ _ W5), (wt_disk _ _ _ W5). cbn [wr]. rewrite (wt_blk _ _ _ W4), (wt_disk _ _ _ W4).
    cbn [wr]. by rewrite !decide_True. }
  exists s6. split; [done|]. split; [done|].
  assert (b_data x = blk s b) as Hv by (rewrite Hd, (wt_blk _ _ _ W2); cbn [wr]; by rewrite (wt_blk _ _ _ W1)).
  rewrite <- Hv. eapply (wrote_trans _ _ _ [] [_] W1), (wrote_trans _ _ _ [] [_] W2), (wrote_trans _ _ _ [_] [] W4).
  by eapply (wrote_trans _ _ _ [] []).
Qed.

(** What the last [brelse] of [install_trans(0)] leaves of a pinned block's references. *)
Definition unpin (b r : Z) (R : gmap Z Z) : gmap Z Z := if r =? 1 then delete b R else <[b := r - 1]> R.

Lemma install_step s R bs t b r :
  cache_rep s i pid R ∅ → log_at s st bs → log_geom st bs → log_refs R st → bs !! t = Some b →
  R !! b = Some r →
  ∃ s', install_body false t s = Ok tt s' ∧ cache_rep s' i pid (unpin b r R) ∅ ∧
    wrote s s' [(b, blk s (log_slot t))].
Proof.
  intros Hc Hl Hg Hr Hb HR. destruct (slot_facts R bs t b Hg Hr Hb) as (Hu1 & Hu2 & Hn & Hne & Hin).
  destruct (lr_small _ _ Hr b r HR) as [Hr0 Hr1].
  unfold install_body, getlog. cbv iota. do 2 kstep. rewrite (la_dev _ _ _ Hl), (la_start _ _ _ Hl).
  fold (log_slot t). rewrite Hu1. change (u32 ROOTDEV) with ROOTDEV.
  destruct (lbread s R ∅ (log_slot t) Hc) as (lbuf & s1 & E1 & Hc1 & W1); [done..|apply Hr|].
  erewrite bind_ok by exact E1. assert (log_at s1 st bs) as Hl1 by (eapply log_at_klog; [done|by eapply wrote_klog]).
  erewrite bind_ok by (by eapply la_lookup). rewrite Hu2.
  destruct (lbread_pinned s1 _ _ b r Hc1) as (dbuf & s2 & E2 & Hc2 & W2);
    [by rewrite lookup_insert_ne|by rewrite lookup_insert_ne|lia|].
  erewrite bind_ok by exact E2.
  destruct (cr_owned _ _ _ _ _ (log_slot t) lbuf Hc2) as (x & Hx & Hd & _);
    [rewrite lookup_insert_ne by done; apply lookup_insert_eq|].
  erewrite bind_ok by (by apply getb_ok).
  destruct (lwrite s2 _ _ b dbuf (λ _, b_data x) Hc2) as (s3 & s4 & E3 & E4 & Hc4 & W4); [apply lookup_insert_eq|].
  erewrite bind_ok by exact E3. erewrite bind_ok by exact E4. cbn [negb].
  destruct (cache_pin s4 i pid _ _ b dbuf (-1) Hc4) as (s5 & E5 & Hc5 & Hb5 & Hs5);
    [apply lookup_insert_eq|rewrite lookup_insert_eq; simpl; lia|].
  erewrite bind_ok by exact E5. pose proof (wrote_bufs _ _ Hb5 Hs5) as W5.
  rewrite lookup_insert_eq, insert_insert_eq in Hc5. cbn [default from_option id] in Hc5.
  replace (r + 1 + -1) with r in Hc5 by lia. rewrite !(insert_insert_ne _ b (log_slot t)) in Hc5 by done.
  rewrite (insert_id R) in Hc5 by done.
  destruct (lrelse s5 R (<[b := dbuf]> ∅) (log_slot t) lbuf Hc5) as (s6 & E6 & Hc6 & W6);
    [done|by rewrite lookup_insert_ne| |].
  { rewrite (wt_blk _ _ _ W5), (wt_disk _ _ _ W5). cbn [wr]. rewrite (wt_blk _ _ _ W4), (wt_disk _ _ _ W4).
    cbn [wr]. rewrite !decide_False by done. rewrite (wt_blk _ _ _ W2), (wt_disk _ _ _ W2). cbn [wr].
    rewrite (wt_blk _ _ _ W1), (wt_disk _ _ _ W1). by eapply cr_clean. }
  erewrite bind_ok by exact E6.
  destruct (cache_brelse s6 i pid _ _ b dbuf r Hc6) as (s7 & E7 & Hc7 & Hb7 & Hs7); [apply lookup_insert_eq|done| |].
  { intros _. rewrite (wt_blk _ _ _ W6), (wt_disk _ _ _ W6). cbn [wr].
    rewrite (wt_blk _ _ _ W5), (wt_disk _ _ _ W5). cbn [wr]. rewrite (wt_blk _ _ _ W4), (wt_disk _ _ _ W4).
    cbn [wr]. by rewrite !decide_True. }
  exists s7. split; [done|]. rewrite delete_insert_id in Hc7 by done. split; [done|].
  assert (b_data x = blk s (log_slot t)) as Hv by (rewrite Hd, (wt_blk _ _ _ W2); cbn [wr]; by rewrite (wt_blk _ _ _ W1)).
  rewrite <- Hv. eapply (wrote_trans _ _ _ [] [_] W1), (wrote_trans _ _ _ [] [_] W2), (wrote_trans _ _ _ [_] [] W4).
  eapply (wrote_trans _ _ _ [] [] W5), (wrote_trans _ _ _ [] [] W6). by apply wrote_nil.
Qed.

Lemma printed_rep s R O p : cache_rep s i pid R O → cache_rep (s <| printed := p |>) i pid R O.
Proof.
  intros [[] [l Hw] ? ? ? ?]. split; [by split; rsimpl|exists l|rsimpl; done..]. destruct Hw. split; by rsimpl.
Qed.

Lemma wrote_printed s p : wrote s (s <| printed := p |>) [].
Proof. split; [unfold bframe; rsimpl; kst_eq s|unfold blk|..]; by rsimpl. Qed.

Lemma recover_step s R bs t b :
  cache_rep s i pid R ∅ → log_at s st bs → log_geom st bs → log_refs R st → bs !! t = Some b →
  R !! b = None → (S (size R) < NBUF)%nat →
  ∃ s', install_body true t s = Ok tt s' ∧ cache_rep s' i pid R ∅ ∧ wrote s s' [(b, blk s (log_slot t))].
Proof.
  intros Hc Hl Hg Hr Hb HR Hsz. destruct (slot_facts R bs t b Hg Hr Hb) as (Hu1 & Hu2 & Hn & Hne & Hin).
  unfold install_body, getlog. cbv iota.
  erewrite bind_ok by (erewrite bind_ok by (by eapply la_lookup); reflexivity).
  match goal with |- context[s <| printed ::= ?f |>] => set (s0 := s <| printed := f (printed s) |>);
    replace (s <| printed ::= f |>) with s0 by (subst s0; kst_eq s) end.
  assert (wrote s s0 []) as W0 by apply wrote_printed. assert (cache_rep s0 i pid R ∅) as Hc0 by (by apply printed_rep).
  assert (log_at s0 st bs) as Hl0 by (eapply log_at_klog; [done|by eapply wrote_klog]).
  kstep. rewrite (la_dev _ _ _ Hl0), (la_start _ _ _ Hl0).
  fold (log_slot t). rewrite Hu1. change (u32 ROOTDEV) with ROOTDEV.
  destruct (lbread s0 R ∅ (log_slot t) Hc0) as (lbuf & s1 & E1 & Hc1 & W1); [done..|apply Hr|].
  erewrite bind_ok by exact E1. assert (log_at s1 st bs) as Hl1 by (eapply log_at_klog; [done|by eapply wrote_klog]).
  erewrite bind_ok by (by eapply la_lookup). rewrite Hu2.
  destruct (lbread s1 _ _ b Hc1) as (dbuf & s2 & E2 & Hc2 & W2);
    [by rewrite lookup_insert_ne|by rewrite lookup_insert_ne|by rewrite map_size_insert_None|].
  erewrite bind_ok by exact E2.
  destruct (cr_owned _ _ _ _ _ (log_slot t) lbuf Hc2) as (x & Hx & Hd & _);
    [rewrite lookup_insert_ne by done; apply lookup_insert_eq|].
  erewrite bind_ok by (by apply getb_ok).
  destruct (lwrite s2 _ _ b dbuf (λ _, b_data x) Hc2) as (s3 & s4 & E3 & E4 & Hc4 & W4); [apply lookup_insert_eq|].
  erewrite bind_ok by exact E3. erewrite bind_ok by exact E4. cbn [negb]. erewrite bind_ok by reflexivity.
  rewrite !(insert_insert_ne _ b (log_slot t)) in Hc4 by done.
  destruct (lrelse s4 (<[b := 1]> R) (<[b := dbuf]> ∅) (log_slot t) lbuf Hc4) as (s6 & E6 & Hc6 & W6);
    [by rewrite lookup_insert_ne|by rewrite lookup_insert_ne| |].
  { rewrite (wt_blk _ _ _ W4), (wt_disk _ _ _ W4).
    cbn [wr]. rewrite !decide_False by done. rewrite (wt_blk _ _ _ W2), (wt_disk _ _ _ W2). cbn [wr].
    rewrite (wt_blk _ _ _ W1), (wt_disk _ _ _ W1). by eapply cr_clean. }
  erewrite bind_ok by exact E6.
  destruct (lrelse s6 R ∅ b dbuf Hc6) as (s7 & E7 & Hc7 & W7); [done..| |].
  { rewrite (wt_blk _ _ _ W6), (wt_disk _ _ _ W6). cbn [wr]. rewrite (wt_blk _ _ _ W4), (wt_disk _ _ _ W4).
    cbn [wr]. by rewrite !decide_True. }
  exists s7. split; [done|]. split; [done|].
  assert (b_data x = blk s (log_slot t)) as Hv.
  { rewrite Hd, (wt_blk _ _ _ W2). cbn [wr]. rewrite (wt_blk _ _ _ W1). cbn [wr]. apply (wt_blk _ _ _ W0). }
  rewrite <- Hv. eapply (wrote_trans _ _ _ [] [_] W0), (wrote_trans _ _ _ [] [_] W1), (wrote_trans _ _ _ [] [_] W2).
  eapply (wrote_trans _ _ _ [_] [] W4), (wrote_trans _ _ _ [] [] W6). done.
Qed.

(** *** The loops *)

Definition log_writes (vs : list (list Z)) : list (Z * list Z) := imap (λ t v, (log_slot t, v)) vs.

Lemma log_writes_snoc vs v : log_writes (vs ++ [v]) = log_writes vs ++ [(log_slot (length vs), v)].
Proof. unfold log_writes. rewrite imap_app. cbn [imap]. unfold compose. by rewrite Nat.add_0_r. Qed.

Lemma log_writes_fst vs m : m ∈ (log_writes vs).*1 → st < m ≤ st + Z.of_nat (length vs).
Proof.
  unfold log_writes. rewrite fmap_imap. intros (k & v & -> & Hk)%elem_of_lookup_imap.
  apply lookup_lt_Some in Hk. cbn. unfold log_slot. lia.
Qed.

Lemma home_not_slot bs b vs : log_geom st bs → b ∈ bs → (length vs ≤ length bs)%nat → b ∉ (log_writes vs).*1.
Proof.
  intros Hg Hb Hle Hin. apply log_writes_fst in Hin. destruct (lg_home _ _ Hg b Hb) as [_ Hh].
  pose proof (lg_len _ _ Hg). lia.
Qed.

Lemma write_log_ok s R bs :
  cache_rep s i pid R ∅ → log_at s st bs → log_geom st bs → log_refs R st → (∀ b, b ∈ bs → is_Some (R !! b)) →
  ∃ s', write_log s = Ok tt s' ∧ cache_rep s' i pid R ∅ ∧ wrote s s' (log_writes (blk s <$> bs)).
Proof.
  intros Hc Hl Hg Hr Hpin.
  destruct (for_tail_ok (λ t s', cache_rep s' i pid R ∅ ∧ wrote s s' (log_writes (take t (blk s <$> bs))))
    write_log_body s st bs Hl) as (s' & E & Hc' & W').
  - split; [done|]. rewrite take_0. apply wrote_refl.
  - intros t b s1 Hb [Hc1 W1]. assert (b ∈ bs) as Hin by (by eapply list_elem_of_lookup_2).
    destruct (Hpin b Hin) as [r HR].
    destruct (write_log_step s1 R bs t b r) as (s2 & E2 & Hc2 & W2); try done.
    { eapply log_at_klog; [done|by eapply wrote_klog]. }
    exists s2. split; [done|]. split; [done|].
    assert (blk s1 b = blk s b) as Hb1.
    { rewrite (wt_blk _ _ _ W1). apply wr_other. eapply home_not_slot; [done..|].
      rewrite length_take, length_fmap. lia. }
    rewrite Hb1 in W2. erewrite take_S_r by (rewrite list_lookup_fmap, Hb; reflexivity).
    rewrite log_writes_snoc, length_take_le by (rewrite length_fmap; apply lookup_lt_Some in Hb; lia).
    by eapply wrote_trans.
  - exists s'. split; [done|]. split; [done|]. rewrite take_ge in W' by (by rewrite length_fmap). done.
Qed.

Lemma unpin_eq b r R : R !! b = Some r → unpin b r R !! b = if r =? 1 then None else Some (r - 1).
Proof. intros HR. unfold unpin. case_match; [apply lookup_delete_eq|apply lookup_insert_eq]. Qed.
Lemma unpin_ne b r R m : m ≠ b → unpin b r R !! m = R !! m.
Proof. intros Hm. unfold unpin. case_match; [by rewrite lookup_delete_ne|by rewrite lookup_insert_ne]. Qed.

Lemma unpin_refs b r R : R !! b = Some r → log_refs R st → log_refs (unpin b r R) st.
Proof.
  intros HR [Hlog Hfree Hsm]. destruct (Hsm b r HR) as [Hr0 Hr1].
  assert (∀ m, R !! m = None → unpin b r R !! m = None) as Hn.
  { intros m Hm. rewrite unpin_ne; [done|]. intros ->. congruence. }
  split; [auto|..].
  - unfold unpin. case_match.
    + rewrite map_size_delete_Some by (by eexists). lia.
    + rewrite map_size_insert_Some by (by eexists). done.
  - intros m r' Hm. destruct (decide (m = b)) as [->|Hmb]; [|rewrite unpin_ne in Hm by done; by eapply Hsm].
    rewrite unpin_eq in Hm by done. case_match; simplify_eq. lia.
Qed.

(** The references once the blocks [bs] are unpinned. *)
Definition unpinned (R R' : gmap Z Z) (bs : list Z) : Prop :=
  (∀ m, m ∉ bs → R' !! m = R !! m) ∧
  (∀ b r, b ∈ bs → R !! b = Some r → R' !! b = if r =? 1 then None else Some (r - 1)).

Lemma unpinned_snoc R R' bs b r :
  unpinned R R' bs → b ∉ bs → R !! b = Some r → unpinned R (unpin b r R') (bs ++ [b]).
Proof.
  intros [H1 H2] Hb HR. assert (R' !! b = Some r) as HR' by (by rewrite H1). split.
  - intros m Hm. rewrite not_elem_of_app, list_elem_of_singleton in Hm. destruct Hm as [Hm Hmb].
    rewrite unpin_ne by done. by apply H1.
  - intros c k Hc Hk. rewrite elem_of_app, list_elem_of_singleton in Hc.
    destruct (decide (c = b)) as [->|Hcb].
    + assert (k = r) as -> by congruence. by apply unpin_eq.
    + rewrite unpin_ne by done. apply H2; [|done]. by destruct Hc.
Qed.

Definition slots (s : kst) (n : nat) : list (list Z) := (λ t, blk s (log_slot t)) <$> seq 0 n.

Lemma slots_S s n : slots s (S n) = slots s n ++ [blk s (log_slot n)].
Proof. unfold slots. by rewrite seq_S, fmap_app. Qed.
Lemma length_slots s n : length (slots s n) = n.
Proof. unfold slots. by rewrite length_fmap, length_seq. Qed.

Lemma slot_not_home bs (vs : list (list Z)) t k :
  log_geom st bs → (t < length bs)%nat → log_slot t ∉ (zip (take k bs) vs).*1.
Proof.
  intros Hg Ht. rewrite list_elem_of_fmap. intros ([b v] & Hb & Hin). cbn in Hb. subst b.
  apply elem_of_zip_l in Hin. apply elem_of_take in Hin as (j & Hj & _).
  assert (log_slot t ∈ bs) as Hin by (by eapply list_elem_of_lookup_2).
  destruct (lg_home _ _ Hg _ Hin) as [_ Hh]. pose proof (lg_len _ _ Hg). unfold log_slot in *. lia.
Qed.

Lemma install_ok s R bs :
  cache_rep s i pid R ∅ → log_at s st bs → log_geom st bs → log_refs R st → (∀ b, b ∈ bs → is_Some (R !! b)) →
  ∃ s' R', install_trans false s = Ok tt s' ∧ cache_rep s' i pid R' ∅ ∧ log_refs R' st ∧ unpinned R R' bs ∧
    wrote s s' (zip bs (slots s (length bs))).
Proof.
  intros Hc Hl Hg Hr Hpin.
  destruct (for_tail_ok (λ t s', ∃ R', cache_rep s' i pid R' ∅ ∧ log_refs R' st ∧ unpinned R R' (take t bs) ∧
      wrote s s' (zip (take t bs) (slots s t)))
    (install_body false) s st bs Hl) as (s' & E & R' & Hc' & Hr' & Hun & W').
  - exists R. rewrite take_0. split_and!; try done; [|apply wrote_refl].
    split; [done|]. by intros b r ?%not_elem_of_nil.
  - intros t b s1 Hb (R1 & Hc1 & Hr1 & Hun1 & W1). assert (b ∈ bs) as Hin by (by eapply list_elem_of_lookup_2).
    pose proof (lookup_lt_Some _ _ _ Hb) as Ht. destruct (Hpin b Hin) as [r HR].
    assert (b ∉ take t bs) as Hnt.
    { intros (j & Hj & Hjt)%elem_of_take. pose proof (NoDup_lookup _ _ _ _ (lg_nodup _ _ Hg) Hb Hj). lia. }
    assert (R1 !! b = Some r) as HR1 by (by rewrite (proj1 Hun1)).
    destruct (install_step s1 R1 bs t b r) as (s2 & E2 & Hc2 & W2); try done.
    { eapply log_at_klog; [done|by eapply wrote_klog]. }
    exists s2. split; [done|]. exists (unpin b r R1). split; [done|]. split; [by apply unpin_refs|].
    rewrite (take_S_r _ _ _ Hb). split; [by apply unpinned_snoc|].
    rewrite (wt_blk _ _ _ W1), wr_other in W2 by (by eapply slot_not_home).
    rewrite slots_S, zip_with_app by (rewrite length_slots, length_take_le; lia). by eapply wrote_trans.
  - exists s', R'. rewrite take_ge in Hun, W' by done. done.
Qed.

Lemma recover_ok s R bs :
  cache_rep s i pid R ∅ → log_at s st bs → log_geom st bs → log_refs R st → (∀ b, b ∈ bs → R !! b = None) →
  (S (size R) < NBUF)%nat →
  ∃ s', install_trans true s = Ok tt s' ∧ cache_rep s' i pid R ∅ ∧ wrote s s' (zip bs (slots s (length bs))).
Proof.
  intros Hc Hl Hg Hr Hpin Hsz.
  destruct (for_tail_ok (λ t s', cache_rep s' i pid R ∅ ∧ wrote s s' (zip (take t bs) (slots s t)))
    (install_body true) s st bs Hl) as (s' & E & Hc' & W').
  - split; [done|]. rewrite take_0. apply wrote_refl.
  - intros t b s1 Hb [Hc1 W1]. assert (b ∈ bs) as Hin by (by eapply list_elem_of_lookup_2).
    pose proof (lookup_lt_Some _ _ _ Hb) as Ht.
    destruct (recover_step s1 R bs t b) as (s2 & E2 & Hc2 & W2); try done; [|auto|].
    { eapply log_at_klog; [done|by eapply wrote_klog]. }
    exists s2. split; [done|]. split; [done|].
    rewrite (wt_blk _ _ _ W1), wr_other in W2 by (by eapply slot_not_home).
    rewrite (take_S_r _ _ _ Hb), slots_S, zip_with_app by (rewrite length_slots, length_take_le; lia).
    by eapply wrote_trans.
  - exists s'. rewrite take_ge in W' by done. done.
Qed.

Lemma write_head_ok s R bs :
  cache_rep s i pid R ∅ → log_at s st bs → log_geom st bs → log_refs R st →
  ∃ s', write_head s = Ok tt s' ∧ cache_rep s' i pid R ∅ ∧ wrote s s' [(st, hdr bs (blk s st))].
Proof.
  intros Hc Hl Hg Hr. destruct (lg_start _ _ Hg) as [Hst0 Hst1].
  unfold write_head, getlog. kstep. rewrite (la_dev _ _ _ Hl), (la_start _ _ _ Hl), (la_n _ _ _ Hl).
  change (u32 ROOTDEV) with ROOTDEV. rewrite (u32_small st) by (unfold LOGBLOCKS, MAXOPBLOCKS in *; lia).
  assert (R !! st = None) as HR by (apply (lr_log _ _ Hr); unfold LOGBLOCKS, MAXOPBLOCKS; lia).
  destruct (lbread s R ∅ st Hc) as (buf & s1 & E1 & Hc1 & W1); [done..|apply Hr|].
  erewrite bind_ok by exact E1. assert (log_at s1 st bs) as Hl1 by (eapply log_at_klog; [done|by eapply wrote_klog]).
  destruct (cache_data s1 i pid _ _ st buf (λ d, put32 d 0 (Z.of_nat (length bs))) Hc1) as (s2 & E2 & Hc2 & Hb2 & Hs2);
    [apply lookup_insert_eq|].
  erewrite bind_ok by exact E2.
  assert (log_at s2 st bs) as Hl2 by (eapply log_at_klog; [exact Hl1|rewrite Hs2; by rsimpl]).
  set (d0 := put32 (blk s1 st) 0 (Z.of_nat (length bs))) in *.
  match goal with |- context[for_tail ?f] =>
    destruct (for_tail_ok (λ t s', cache_rep s' i pid (<[st := 1]> R) (<[st := buf]> ∅) ∧
      (∀ m, blk s' m = if decide (m = st) then hdr_blocks 0 (take t bs) d0 else blk s1 m) ∧
      s' = s1 <| bufs := bufs s' |>) f s2 st bs Hl2) as (s3 & E3 & Hc3 & Hb3 & Hs3) end.
  { rewrite take_0. done. }
  { intros t b s' Ht (Hc' & Hb' & Hs').
    erewrite bind_ok by (eapply la_lookup; [eapply log_at_klog; [exact Hl1|rewrite Hs'; by rsimpl]|exact Ht]).
    destruct (cache_data s' i pid _ _ st buf (λ d, put32 d (lh_off t) b) Hc') as (s'' & E'' & Hc'' & Hb'' & Hs'');
      [apply lookup_insert_eq|].
    exists s''. split; [exact E''|]. split; [done|]. split.
    - intros m. rewrite Hb''. case_decide; rewrite Hb'; [|by rewrite decide_False].
      rewrite decide_True by done. rewrite (take_S_r _ _ _ Ht), hdr_blocks_snoc, length_take_le by (apply lookup_lt_Some in Ht; lia). done.
    - rewrite Hs'', Hs'. rsimpl. kst_eq s1. }
  erewrite bind_ok by exact E3. rewrite take_ge in Hb3 by done.
  destruct (cache_bwrite s3 i pid _ _ st buf Hc3) as (s4 & E4 & Hc4 & Hb4 & Hs4); [apply lookup_insert_eq|].
  erewrite bind_ok by exact E4. pose proof (wrote_put s1 s3 s4 st _ Hb3 Hs3 Hb4 Hs4) as W4.
  destruct (lrelse s4 R ∅ st buf Hc4) as (s5 & E5 & Hc5 & W5); [done..| |].
  { rewrite (wt_blk _ _ _ W4), (wt_disk _ _ _ W4). cbn [wr]. by rewrite !decide_True. }
  exists s5. split; [done|]. split; [done|]. unfold hdr.
  replace (blk s st) with (blk s1 st) by apply (wt_blk _ _ _ W1). fold d0.
  eapply (wrote_trans _ _ _ [] [_] W1), (wrote_trans _ _ _ [_] [] W4). done.
Qed.

(** *** [commit] *)

(** The writes, whatever happens to the log in memory. *)
Record traced (s s' : kst) (ws : list (Z * list Z)) : Prop := {
  td_blk : ∀ m, blk s' m = wr ws (blk s) m;
  td_disk : ∀ m, dblock (disk s') m = wr ws (dblock (disk s)) m;
  td_trace : disk_trace s' = rev ws ++ disk_trace s
}.

Lemma wrote_traced s s' ws : wrote s s' ws → traced s s' ws.
Proof. by intros []. Qed.
Lemma traced_trans s1 s2 s3 ws ws' : traced s1 s2 ws → traced s2 s3 ws' → traced s1 s3 (ws ++ ws').
Proof.
  intros [B1 D1 T1] [B2 D2 T2]. split.
  - intros m. rewrite wr_app, B2. by apply wr_ext.
  - intros m. rewrite wr_app, D2. by apply wr_ext.
  - by rewrite T2, T1, rev_app_distr, app_assoc.
Qed.

Lemma klog_rep s R O k : cache_rep s i pid R O → cache_rep (s <| klog := k |>) i pid R O.
Proof.
  intros [[] [l Hw] ? ? ? ?]. split; [by split; rsimpl|exists l|rsimpl; done..]. destruct Hw. split; by rsimpl.
Qed.

Lemma set_lh_n_ok s R O bs :
  cache_rep s i pid R O → log_at s st bs →
  ∃ s', set_lh_n 0 s = Ok tt s' ∧ cache_rep s' i pid R O ∧ log_at s' st [] ∧ traced s s' [] ∧
    klog s' = (klog s) <| l_lh ::= λ h, h <| lh_n := 0 |> |>.
Proof.
  intros Hc [Hd Hs _ _]. unfold set_lh_n, updlog, modify.
  set (k := (klog s) <| l_lh ::= λ h, h <| lh_n := 0 |> |>).
  exists (s <| klog := k |>). split; [subst k; f_equal; kst_eq s|]. split; [by apply klog_rep|]. split; [|split; [|by rsimpl]].
  - subst k. by split; rsimpl.
  - split; [unfold blk|..]; by rsimpl.
Qed.

Definition commit_writes (f : Z → list Z) (bs : list Z) : list (Z * list Z) :=
  log_writes (f <$> bs) ++ [(st, hdr bs (f st))] ++ zip bs (f <$> bs) ++ [(st, hdr [] (hdr bs (f st)))].

Lemma log_slot_value vs f t v : vs !! t = Some v → wr (log_writes vs) f (log_slot t) = v.
Proof.
  intros Hv. apply wr_in.
  - unfold log_writes. rewrite fmap_imap. apply NoDup_alt. intros a b m Ha Hb.
    rewrite list_lookup_imap in Ha, Hb. apply fmap_Some in Ha as (x & _ & ->). apply fmap_Some in Hb as (y & _ & Hm).
    cbn in Hm. unfold log_slot in Hm. lia.
  - apply elem_of_lookup_imap. eauto.
Qed.

Lemma head_not_slot vs : st ∉ (log_writes vs).*1.
Proof. intros Hin%log_writes_fst. lia. Qed.
Lemma head_not_home bs (vs : list (list Z)) : log_geom st bs → st ∉ (zip bs vs).*1.
Proof.
  intros Hg. rewrite list_elem_of_fmap. intros ([b v] & Hb & Hin). cbn in Hb. subst b.
  apply elem_of_zip_l in Hin. destruct (lg_home _ _ Hg _ Hin) as [_ Hh]. unfold LOGBLOCKS, MAXOPBLOCKS in *. lia.
Qed.

Lemma log_geom_nil bs : log_geom st bs → log_geom st [].
Proof. intros [Hs _ _ _]. split; [done|simpl; unfold LOGBLOCKS, MAXOPBLOCKS; lia|apply NoDup_nil_2|by intros b ?%not_elem_of_nil]. Qed.

Lemma commit_ok s R bs :
  cache_rep s i pid R ∅ → log_at s st bs → log_geom st bs → log_refs R st → (∀ b, b ∈ bs → is_Some (R !! b)) →
  bs ≠ [] →
  ∃ s' R', commit s = Ok tt s' ∧ cache_rep s' i pid R' ∅ ∧ unpinned R R' bs ∧ log_at s' st [] ∧
    klog s' = (klog s) <| l_lh ::= λ h, h <| lh_n := 0 |> |> ∧
    traced s s' (commit_writes (blk s) bs).
Proof.
  intros Hc Hl Hg Hr Hpin Hne. unfold commit, getlog. kstep. rewrite (la_n _ _ _ Hl).
  replace (Z.of_nat (length bs) >? 0) with true
    by (symmetry; apply Z.gtb_lt; destruct bs; [done|cbn [length]; lia]).
  destruct (write_log_ok s R bs Hc Hl Hg Hr Hpin) as (s1 & E1 & Hc1 & W1). erewrite bind_ok by exact E1.
  assert (log_at s1 st bs) as Hl1 by (eapply log_at_klog; [done|by eapply wrote_klog]).
  destruct (write_head_ok s1 R bs Hc1 Hl1 Hg Hr) as (s2 & E2 & Hc2 & W2). erewrite bind_ok by exact E2.
  assert (log_at s2 st bs) as Hl2 by (eapply log_at_klog; [done|by eapply wrote_klog]).
  destruct (install_ok s2 R bs Hc2 Hl2 Hg Hr Hpin) as (s3 & R3 & E3 & Hc3 & Hr3 & Hun & W3). erewrite bind_ok by exact E3.
  assert (log_at s3 st bs) as Hl3 by (eapply log_at_klog; [done|by eapply wrote_klog]).
  destruct (set_lh_n_ok s3 R3 ∅ bs Hc3 Hl3) as (s4 & E4 & Hc4 & Hl4 & T4 & Hk4). erewrite bind_ok by exact E4.
  destruct (write_head_ok s4 R3 [] Hc4 Hl4 (log_geom_nil _ Hg) Hr3) as (s5 & E5 & Hc5 & W5).
  exists s5, R3. split; [done|]. split; [done|]. split; [done|].
  split; [eapply log_at_klog; [done|by eapply wrote_klog]|].
  split; [rewrite (wrote_klog _ _ _ W5), Hk4, (wrote_klog _ _ _ W3), (wrote_klog _ _ _ W2), (wrote_klog _ _ _ W1); done|].
  assert (blk s1 st = blk s st) as Hh1 by (rewrite (wt_blk _ _ _ W1); apply wr_other, head_not_slot).
  assert (blk s4 st = hdr bs (blk s st)) as Hh4.
  { rewrite (td_blk _ _ _ T4). cbn [wr]. rewrite (wt_blk _ _ _ W3), wr_other by (by apply head_not_home).
    rewrite (wt_blk _ _ _ W2). cbn [wr]. by rewrite decide_True, Hh1. }
  assert (slots s2 (length bs) = blk s <$> bs) as Hsl.
  { apply list_eq. intros t. unfold slots. rewrite !list_lookup_fmap.
    destruct (bs !! t) as [b|] eqn:Hb; cbn [fmap option_fmap option_map].
    - pose proof (lookup_lt_Some _ _ _ Hb) as Ht. rewrite lookup_seq_lt by done. simpl. f_equal.
      rewrite (wt_blk _ _ _ W2). cbn [wr]. rewrite decide_False by (unfold log_slot; lia).
      rewrite (wt_blk _ _ _ W1). apply log_slot_value. by rewrite list_lookup_fmap, Hb.
    - rewrite lookup_seq_ge; [done|]. by apply lookup_ge_None. }
  rewrite Hh1 in W2. rewrite Hsl in W3. rewrite Hh4 in W5. unfold commit_writes.
  eapply traced_trans; [by apply wrote_traced|]. eapply traced_trans; [by apply wrote_traced|].
  eapply traced_trans; [by apply wrote_traced|]. eapply (traced_trans _ _ _ [] _ T4). by apply wrote_traced.
Qed.

(** *** Recovery *)

Lemma read_head_ok s R bs :
  cache_rep s i pid R ∅ → l_dev (klog s) = ROOTDEV → l_start (klog s) = st →
  Z.of_nat (length (lh_block (l_lh (klog s)))) = LOGBLOCKS →
  log_geom st bs → log_refs R st → hdr_reads (blk s st) bs →
  ∃ s', read_head s = Ok tt s' ∧ cache_rep s' i pid R ∅ ∧ log_at s' st bs ∧ traced s s' [].
Proof.
  intros Hc Hdev Hstart Hlen Hg Hr [Hn Hbs]. destruct (lg_start _ _ Hg) as [Hst0 Hst1].
  pose proof (lg_len _ _ Hg) as Hlb. set (arr := lh_block (l_lh (klog s))) in *.
  assert (R !! st = None) as HR by (apply (lr_log _ _ Hr); unfold LOGBLOCKS, MAXOPBLOCKS; lia).
  unfold read_head, getlog. kstep. rewrite Hdev, Hstart.
  change (u32 ROOTDEV) with ROOTDEV. rewrite (u32_small st) by (unfold LOGBLOCKS, MAXOPBLOCKS in *; lia).
  destruct (lbread s R ∅ st Hc) as (buf & s1 & E1 & Hc1 & W1); [done..|apply Hr|].
  erewrite bind_ok by exact E1. pose proof (wrote_klog _ _ _ W1) as Hk1.
  destruct (cr_owned _ _ _ _ _ st buf Hc1) as (x & Hx & Hd & _); [apply lookup_insert_eq|].
  erewrite bind_ok by (by apply getb_ok). rewrite Hd, (wt_blk _ _ _ W1). cbn [wr]. rewrite Hn.
  set (k := λ a, (klog s) <| l_lh := mkLh (Z.of_nat (length bs)) a |>).
  unfold set_lh_n at 1, updlog at 1. kstep.
  match goal with |- context[bind _ _ ?t] => replace t with (s1 <| klog := k arr |>) end.
  2:{ subst k arr. cbv beta. rewrite <- Hk1. kst_eq s1. }
  match goal with |- context[for_tail ?f] =>
    destruct (for_tail_ok (λ t s', s' = s1 <| klog := k (take t bs ++ drop t arr) |>)
      f (s1 <| klog := k arr |>) st (take (length bs) arr)) as (s3 & E3 & Hs3) end.
  { subst k. split; rsimpl; cbn [lh_n lh_block]; try done; rewrite length_take_le by lia; done. }
  { rewrite take_0, drop_0. done. }
  { intros t b s' Ht ->. apply lookup_take_Some in Ht as [Ht Htb].
    destruct (lookup_lt_is_Some_2 bs t Htb) as [c Hc']. rewrite (Hbs t c Hc').
    eexists. split; [|reflexivity]. unfold setblock, updlog.
    assert ((take t bs ++ drop t arr) !! t = Some b) as Hlk.
    { rewrite lookup_app_r; rewrite length_take_le by lia; [|lia]. by rewrite Nat.sub_diag, lookup_drop, Nat.add_0_r. }
    erewrite bind_ok by (unfold getblock; subst k; rsimpl; cbn [lh_block]; rewrite Hlk; reflexivity).
    assert (take (S t) bs ++ drop (S t) arr = <[t := c]> (take t bs ++ drop t arr)) as ->.
    { rewrite (take_S_r _ _ _ Hc'), insert_app_r_alt; rewrite length_take_le by lia; [|done].
      rewrite Nat.sub_diag, (drop_S _ _ _ Ht), <- app_assoc. done. }
    unfold modify. by f_equal. }
  rewrite length_take_le in Hs3 by lia. rewrite take_ge in Hs3 by lia.
  erewrite bind_ok by exact E3.
  pose proof (klog_rep _ _ _ (k (bs ++ drop (length bs) arr)) Hc1) as Hc3. rewrite <- Hs3 in Hc3.
  assert (traced s s3 []) as T3.
  { eapply (traced_trans _ _ _ [] [] (wrote_traced _ _ _ W1)). rewrite Hs3. split; [unfold blk|..]; by rsimpl. }
  destruct (lrelse s3 R ∅ st buf Hc3) as (s4 & E4 & Hc4 & W4); [done..| |].
  { rewrite (td_blk _ _ _ T3), (td_disk _ _ _ T3). by eapply cr_clean. }
  exists s4. split; [done|]. split; [done|]. split.
  - eapply log_at_klog; [|by eapply wrote_klog]. rewrite Hs3. subst k. split; rsimpl; cbn [lh_n lh_block]; try done.
    by rewrite take_app_length.
  - eapply (traced_trans _ _ _ [] [] T3), wrote_traced, W4.
Qed.

Lemma recover_from_log_ok s R bs :
  cache_rep s i pid R ∅ → l_dev (klog s) = ROOTDEV → l_start (klog s) = st →
  Z.of_nat (length (lh_block (l_lh (klog s)))) = LOGBLOCKS →
  log_geom st bs → log_refs R st → hdr_reads (blk s st) bs →
  (∀ b, b ∈ bs → R !! b = None) → (S (size R) < NBUF)%nat →
  ∃ s', recover_from_log s = Ok tt s' ∧ cache_rep s' i pid R ∅ ∧ log_at s' st [] ∧
    traced s s' (zip bs (slots s (length bs)) ++ [(st, hdr [] (blk s st))]).
Proof.
  intros Hc Hdev Hstart Hlen Hg Hr Hh Hfree Hsz. unfold recover_from_log.
  destruct (read_head_ok s R bs) as (s1 & E1 & Hc1 & Hl1 & T1); [done..|]. erewrite bind_ok by exact E1.
  destruct (recover_ok s1 R bs) as (s2 & E2 & Hc2 & W2); [done..|]. erewrite bind_ok by exact E2.
  assert (log_at s2 st bs) as Hl2 by (eapply log_at_klog; [done|by eapply wrote_klog]).
  destruct (set_lh_n_ok s2 R ∅ bs Hc2 Hl2) as (s3 & E3 & Hc3 & Hl3 & T3 & _). erewrite bind_ok by exact E3.
  destruct (write_head_ok s3 R [] Hc3 Hl3 (log_geom_nil _ Hg) Hr) as (s4 & E4 & Hc4 & W4).
  exists s4. split; [done|]. split; [done|]. split; [eapply log_at_klog; [done|by eapply wrote_klog]|].
  replace (slots s (length bs)) with (slots s1 (length bs)).
  2:{ unfold slots. apply list_fmap_ext. intros _ t _. apply (td_blk _ _ _ T1). }
  replace (blk s st) with (blk s3 st).
  2:{ rewrite (td_blk _ _ _ T3). cbn [wr]. rewrite (wt_blk _ _ _ W2), wr_other by (by apply head_not_home).
      apply (td_blk _ _ _ T1). }
  eapply (traced_trans _ _ _ [] _ T1), traced_trans; [by apply wrote_traced|].
  eapply (traced_trans _ _ _ [] _ T3). by apply wrote_traced.
Qed.

End Steps.
