(* ===== verification/Crash.v ===== *)
(** * A crash during [commit]

    Whatever prefix of the disk writes of [commit] survives a crash, recovery
    at the next boot leaves either no block of the transaction in place or all
    of them. *)

From Stdlib Require Import ZArith Lia.
From S2P Require Import Prelude Params State Process Bytes Sleeplock Bio BioRep Cache Log LogRep.
From stdpp Require Import base gmap strings numbers list.

Open Scope Z_scope.

(** Block [m] is not part of the log. *)
Definition outside (st m : Z) : Prop := m < st ∨ st + LOGBLOCKS < m.

(** The home blocks with the transaction applied. *)
Definition applied (f D : Z → list Z) (bs : list Z) (m : Z) : list Z :=
  if decide (m ∈ bs) then f m else D m.

Section Writes.
Variables (st : Z) (f D : Z → list Z) (bs : list Z).
Hypothesis Hg : log_geom st bs.

Lemma zip_value (g : Z → list Z) (h : Z → list Z) m : wr (zip bs (h <$> bs)) g m = if decide (m ∈ bs) then h m else g m.
Proof.
  assert ((zip bs (h <$> bs)).*1 = bs) as Hf by (apply fst_zip; by rewrite length_fmap).
  case_decide as Hm.
  - apply wr_in; [rewrite Hf; apply Hg|]. apply list_elem_of_lookup in Hm as [t Ht].
    apply list_elem_of_lookup. exists t. rewrite lookup_zip_with, list_lookup_fmap, Ht. done.
  - apply wr_other. by rewrite Hf.
Qed.

Lemma outside_log vs m : outside st m → (length vs ≤ length bs)%nat → m ∉ (log_writes st vs).*1.
Proof. intros Ho Hl Hin%log_writes_fst. pose proof (lg_len _ _ Hg). unfold outside in Ho. lia. Qed.

(** The first [j] writes of [commit]: part of the log; the log, the header and
    some home blocks; or everything. *)
Lemma commit_prefix j :
  ((j ≤ length bs)%nat ∧ take j (commit_writes st f bs) = log_writes st (take j (f <$> bs))) ∨
  ((length bs < j)%nat ∧
   ((∃ k, take j (commit_writes st f bs) =
            log_writes st (f <$> bs) ++ [(st, hdr bs (f st))] ++ zip (take k bs) (f <$> take k bs)) ∨
    take j (commit_writes st f bs) = commit_writes st f bs)).
Proof.
  assert (length (log_writes st (f <$> bs)) = length bs) as Hlen.
  { unfold log_writes. by rewrite length_imap, length_fmap. }
  assert (length (zip bs (f <$> bs)) = length bs) as Hlz by (rewrite length_zip_with, length_fmap; lia).
  unfold commit_writes. destruct (decide (j ≤ length bs)%nat) as [Hj|Hj]; [left|right]; (split; [lia|]).
  - rewrite take_app_le by lia. unfold log_writes. by rewrite take_imap.
  - rewrite take_app_ge, Hlen by lia. destruct (j - length bs)%nat as [|k] eqn:Ek; [lia|]. cbn [app take].
    destruct (decide (k ≤ length bs)%nat) as [Hk|Hk].
    + left. exists k. rewrite take_app_le by lia. by rewrite zip_with_take, fmap_take.
    + right. rewrite (take_ge (zip _ _ ++ _)); [done|]. rewrite length_app, Hlz. simpl. lia.
Qed.

(** What a prefix leaves in the header, the slots of the log and outside. *)

Lemma prefix_log vs :
  (length vs ≤ length bs)%nat →
  wr (log_writes st vs) D st = D st ∧ (∀ m, outside st m → wr (log_writes st vs) D m = D m).
Proof.
  intros Hl. split; [apply wr_other, head_not_slot|]. intros m Hm. by apply wr_other, outside_log.
Qed.

Lemma take_geom k : log_geom st (take k bs).
Proof.
  destruct Hg as [Hs Hl Hn Hh]. split; [done|rewrite length_take; lia| |].
  - eapply sublist_NoDup; [done|apply sublist_take].
  - intros b Hb. apply Hh. apply elem_of_take in Hb as (j & Hj & _). by eapply list_elem_of_lookup_2.
Qed.

Lemma prefix_committed k :
  let D' := wr (log_writes st (f <$> bs) ++ [(st, hdr bs (f st))] ++ zip (take k bs) (f <$> take k bs)) D in
  D' st = hdr bs (f st) ∧ (∀ t b, bs !! t = Some b → D' (log_slot st t) = f b) ∧
  (∀ m, outside st m → m ∉ bs → D' m = D m).
Proof.
  intros D'. subst D'. split; [|split].
  - rewrite wr_app. cbn [app wr]. rewrite wr_other by (apply head_not_home, take_geom). by rewrite decide_True.
  - intros t b Hb. rewrite wr_app. cbn [app wr].
    rewrite wr_other by (eapply slot_not_home; [done|by eapply lookup_lt_Some]).
    rewrite decide_False by (unfold log_slot; lia). apply log_slot_value. by rewrite list_lookup_fmap, Hb.
  - intros m Ho Hm. rewrite wr_app. cbn [app wr]. rewrite wr_other.
    2:{ rewrite fst_zip by (by rewrite length_fmap). intros (j & Hj & _)%elem_of_take. apply Hm. by eapply list_elem_of_lookup_2. }
    rewrite decide_False by (unfold outside, LOGBLOCKS, MAXOPBLOCKS in Ho; lia).
    apply wr_other, outside_log; [done|by rewrite length_fmap].
Qed.

Lemma prefix_all :
  let D' := wr (commit_writes st f bs) D in
  D' st = hdr [] (hdr bs (f st)) ∧ (∀ m, outside st m → D' m = applied f D bs m).
Proof.
  intros D'. subst D'. unfold commit_writes. split.
  - rewrite !app_assoc, wr_app. cbn [wr]. by rewrite decide_True.
  - intros m Ho. assert (m ≠ st) by (unfold outside, LOGBLOCKS, MAXOPBLOCKS in Ho; lia).
    rewrite !app_assoc, wr_app. cbn [wr]. rewrite decide_False, wr_app, zip_value by done. unfold applied.
    case_decide; [done|]. rewrite wr_app. cbn [wr]. rewrite decide_False by done.
    apply wr_other, outside_log; [done|by rewrite length_fmap].
Qed.

End Writes.

(** The disk [d] after the writes [ws]. *)
Fixpoint disk_after (ws : list (Z * list Z)) (d : gmap Z (list Z)) : gmap Z (list Z) :=
  match ws with
  | [] => d
  | (n, v) :: ws' => disk_after ws' (<[n := v]> d)
  end.

Lemma dblock_after ws d m : dblock (disk_after ws d) m = wr ws (dblock d) m.
Proof.
  revert d; induction ws as [|[n v] ws IH]; intros d; cbn [disk_after wr]; [done|]. rewrite IH.
  apply wr_ext. intros k. case_decide; [subst; apply dblock_insert|by apply dblock_insert_ne].
Qed.

(** The machine after a reboot: an empty cache over the disk [d], and a log
    whose place is known. *)
Record rebooted (s : kst) (i : nat) (pid st : Z) (d : gmap Z (list Z)) : Prop := {
  rb_cache : cache_rep s i pid ∅ ∅;
  rb_dev : l_dev (klog s) = ROOTDEV;
  rb_start : l_start (klog s) = st;
  rb_array : Z.of_nat (length (lh_block (l_lh (klog s)))) = LOGBLOCKS;
  rb_disk : disk s = d
}.

Section Crash.
Context `{HW : Wakeups, HB : BlockDev, HBO : !BlockDevOk}.

Lemma log_refs_empty st : log_refs ∅ st.
Proof. split; [done| |done]. rewrite map_size_empty. unfold NBUF. lia. Qed.

(** Recovery replays the blocks the header on the disk lists. *)
Lemma recover_replays s i pid st d D bs g :
  rebooted s i pid st d → (∀ m, dblock d m = D m) → log_geom st bs → hdr_reads (D st) bs →
  (∀ t b, bs !! t = Some b → D (log_slot st t) = g b) →
  ∃ s', recover_from_log s = Ok tt s' ∧ log_at s' st [] ∧
    ∀ m, outside st m → dblock (disk s') m = applied g D bs m.
Proof.
  intros [Hc Hd Hs Ha <-] HD Hg Hh Hsl.
  assert (∀ m, blk s m = D m) as Hb by (intros m; rewrite <- HD; by eapply cr_clean).
  destruct (recover_from_log_ok i pid st s ∅ bs) as (s' & E & _ & Hl & T); try done.
  { apply log_refs_empty. } { by rewrite Hb. } { rewrite map_size_empty. unfold NBUF. lia. }
  exists s'. split; [done|]. split; [done|]. intros m Ho. rewrite (td_disk _ _ _ T), wr_app. cbn [wr].
  rewrite decide_False by (unfold outside, LOGBLOCKS, MAXOPBLOCKS in Ho; lia).
  assert (slots st s (length bs) = g <$> bs) as ->.
  { apply list_eq. intros t. unfold slots. rewrite !list_lookup_fmap.
    destruct (bs !! t) as [b|] eqn:Hbt; cbn [fmap option_fmap option_map].
    - rewrite lookup_seq_lt by (by eapply lookup_lt_Some). simpl. f_equal. rewrite Hb. by apply Hsl.
    - rewrite lookup_seq_ge; [done|]. by apply lookup_ge_None. }
  rewrite (zip_value st bs Hg). unfold applied. case_decide; [done|apply HD].
Qed.

End Crash.
