(* ===== verification/Txn.v ===== *)
(** * Transactions

    [begin_op], [log_write] and [end_op] on the invariant of the log: the
    header lists each modified block once, and each block it lists is pinned
    in the cache. *)

From Stdlib Require Import ZArith Lia.
From S2P Require Import Prelude Params State Process Bytes Sleeplock Bio BioRep Cache Log LogRep Crash.
From stdpp Require Import base gmap strings numbers list.

Open Scope Z_scope.

(** The log at [st] holds the blocks [bs] of the running transaction. *)
Record log_inv (s : kst) (i : nat) (pid st : Z) (R : gmap Z Z) (O : gmap Z nat) (bs : list Z) : Prop := {
  li_cache : cache_rep s i pid R O;
  li_at : log_at s st bs;
  li_geom : log_geom st bs;
  li_pin : ∀ b, b ∈ bs → is_Some (R !! b);
  li_array : Z.of_nat (length (lh_block (l_lh (klog s)))) = LOGBLOCKS
}.

(** The header after [log_write] of block [n]. *)
Definition logged (bs : list Z) (n : Z) : list Z := if decide (n ∈ bs) then bs else bs ++ [n].

Section Txn.
Context `{HW : Wakeups, HB : BlockDev, HBO : !BlockDevOk}.

Lemma absorb_in arr bs n :
  take (length bs) arr = bs → (∀ b, b ∈ bs → 0 ≤ b < 2 ^ 31) → n ∈ bs →
  bs !! absorb arr (length bs) n = Some n.
Proof.
  intros Ht Hb Hn. unfold absorb. rewrite Ht.
  destruct (list_find (λ x, u32 x = n) bs) as [[j y]|] eqn:E.
  - apply list_find_Some in E as (Hj & Hy & _). rewrite Hj. f_equal.
    pose proof (Hb y (list_elem_of_lookup_2 _ _ _ Hj)). rewrite u32_small in Hy by lia. done.
  - exfalso. rewrite list_find_None, Forall_forall in E. apply (E n Hn).
    pose proof (Hb n Hn). rewrite u32_small by lia. done.
Qed.

Lemma absorb_out arr bs n :
  take (length bs) arr = bs → (∀ b, b ∈ bs → 0 ≤ b < 2 ^ 31) → n ∉ bs → absorb arr (length bs) n = length bs.
Proof.
  intros Ht Hb Hn. unfold absorb. rewrite Ht.
  destruct (list_find (λ x, u32 x = n) bs) as [[j y]|] eqn:E; [|done].
  apply list_find_Some in E as (Hj & Hy & _). pose proof (list_elem_of_lookup_2 _ _ _ Hj) as Hin.
  pose proof (Hb y Hin). rewrite u32_small in Hy by lia. congruence.
Qed.

Lemma klog_blk s k m : blk (s <| klog := k |>) m = blk s m.
Proof. unfold blk. by rsimpl. Qed.

Lemma klog_eta s : s <| klog := klog s |> = s.
Proof. kst_eq s. Qed.

Definition with_lh (s : kst) (n : Z) (a : list Z) : kst := s <| klog := (klog s) <| l_lh := mkLh n a |> |>.

Lemma setblock_ok j v w s :
  lh_block (l_lh (klog s)) !! j = Some w →
  setblock j v s = Ok tt (with_lh s (lh_n (l_lh (klog s))) (<[j := v]> (lh_block (l_lh (klog s))))).
Proof.
  intros Hj. unfold setblock, updlog. erewrite bind_ok by (unfold getblock; rewrite Hj; reflexivity).
  unfold modify, with_lh. f_equal.
Qed.

Lemma set_lh_n_with n s : set_lh_n n s = Ok tt (with_lh s n (lh_block (l_lh (klog s)))).
Proof. unfold set_lh_n, updlog, modify, with_lh. f_equal. Qed.

Lemma with_lh_id s n a : n = lh_n (l_lh (klog s)) → a = lh_block (l_lh (klog s)) → with_lh s n a = s.
Proof.
  intros -> ->. unfold with_lh.
  replace (_ <| l_lh := _ |>) with (klog s) by (by destruct (klog s) as [? ? ? ? []]). apply klog_eta.
Qed.

Lemma log_write_ok s i pid st R O bs n b :
  log_inv s i pid st R O bs → O !! n = Some b →
  Z.of_nat (length bs) < LOGBLOCKS → 1 ≤ l_outstanding (klog s) →
  0 ≤ n < 2 ^ 31 → outside st n → default 0 (R !! n) + 1 < 2 ^ 31 →
  ∃ s', log_write b s = Ok tt s' ∧
    log_inv s' i pid st (if decide (n ∈ bs) then R else <[n := default 0 (R !! n) + 1]> R) O (logged bs n) ∧
    (∀ m, blk s' m = blk s m) ∧ disk s' = disk s ∧ disk_trace s' = disk_trace s ∧
    l_outstanding (klog s') = l_outstanding (klog s) ∧ l_committing (klog s') = l_committing (klog s) ∧
    s' = s <| bufs := bufs s' |> <| klog := klog s' |>.
Proof.
  intros [Hc Hl Hg Hp Ha] Ho Hlen Hout Hn Hos Hr.
  destruct (cr_owned _ _ _ _ _ _ _ Hc Ho) as (x & Hx & Hd & HR & Hcx & _).
  assert (held s = []) as Hh by apply (cr_run _ _ _ _ _ Hc).
  assert (Llog ∉ held s) as Hnl by (rewrite Hh; apply not_elem_of_nil).
  assert (∀ b, b ∈ bs → 0 ≤ b < 2 ^ 31) as Hb by (intros c Hcb; by apply (lg_home _ _ Hg)).
  unfold log_write, getlog. kcall. kstep. rsimpl. rewrite (la_n _ _ _ Hl).
  replace (Z.of_nat (length bs) >=? LOGBLOCKS) with false by lia.
  replace (l_outstanding (klog s) <? 1) with false by lia.
  erewrite bind_ok by (apply getb_ok; by rsimpl). rewrite (proj2 Hcx), Nat2Z.id, s32_small by lia.
  unfold logged. case_decide as Hin.
  - pose proof (absorb_in _ _ _ (la_blocks _ _ _ Hl) Hb Hin) as Hj.
    set (j := absorb _ _ _) in *. pose proof (lookup_lt_Some _ _ _ Hj) as Hjl.
    assert (lh_block (l_lh (klog s)) !! j = Some n) as Hj'.
    { rewrite <- (la_blocks _ _ _ Hl) in Hj. by apply lookup_take_Some in Hj as [Hj _]. }
    erewrite bind_ok by (eapply setblock_ok; rsimpl; exact Hj'). rsimpl.
    rewrite with_lh_id by (rsimpl; try done; by apply list_insert_id).
    replace (Z.of_nat j =? Z.of_nat (length bs)) with false by lia. erewrite bind_ok by reflexivity.
    exists s. split; [|split; [by split|split_and!; try done; kst_eq s]]. krel. by rewrite held_held, held_eta.
  - rewrite (absorb_out _ _ _ (la_blocks _ _ _ Hl) Hb Hin).
    set (arr := lh_block (l_lh (klog s))) in *.
    destruct (lookup_lt_is_Some_2 arr (length bs) ltac:(lia)) as [w Hw].
    erewrite bind_ok by (eapply setblock_ok; rsimpl; exact Hw). rsimpl. fold arr. rewrite Z.eqb_refl.
    set (arr' := <[length bs := n]> arr). set (k := (klog s) <| l_lh := mkLh (lh_n (l_lh (klog s))) arr' |>).
    destruct (cache_pin_held (s <| klog := k |>) i pid R O n b 1 [Llog]) as (s2 & E2 & Hc2 & Hb2 & Hs2);
      [by apply klog_rep|done| |set_solver|].
    { apply (cr_refs _ _ _ _ _ Hc) in HR as Hpos. destruct Hpos as [Hpos _]. rewrite HR in *. simpl in *. lia. }
    assert (klog s2 = k) as Hk2 by (rewrite Hs2; by rsimpl).
    exists (with_lh s2 (Z.of_nat (length bs) + 1) arr'). split; [|split; [|split_and!]].
    + match goal with |- bind _ _ ?t = _ => replace t with (s <| klog := k |> <| held := [Llog] |>) end.
      2:{ unfold with_lh. rsimpl. rewrite Hh. subst k. kst_eq s. }
      erewrite bind_ok by (erewrite bind_ok by exact E2; apply set_lh_n_with). rsimpl. rewrite Hk2.
      erewrite release_top; [|unfold with_lh; rsimpl; reflexivity|apply not_elem_of_nil].
      assert (held s2 = []) as Hh2 by apply (cr_run _ _ _ _ _ Hc2). rewrite <- Hh2.
      unfold with_lh. by f_equal.
    + assert (length arr' = length arr) as Hal by apply length_insert.
      split; [unfold with_lh; by apply klog_rep|..].
      * destruct Hl as [Hdev Hst _ Hbl]. unfold with_lh. split; rsimpl; rewrite ?Hk2; subst k; rsimpl; cbn [lh_n lh_block]; try done.
        -- rewrite length_app. cbn [length]. lia.
        -- rewrite length_app, Nat.add_1_r. subst arr'. erewrite take_S_r by (apply list_lookup_insert_eq; lia).
           rewrite take_insert_ge by lia. fold arr in Hbl; by rewrite Hbl.
      * destruct Hg as [Hg1 Hg2 Hg3 Hg4]. split; [done|rewrite length_app; cbn [length]; lia| |].
        -- apply NoDup_app. split; [done|]. split; [|apply NoDup_singleton]. intros c Hc'. rewrite list_elem_of_singleton. congruence.
        -- intros c. rewrite elem_of_app, list_elem_of_singleton. intros [Hc'| ->]; [by apply Hg4|done].
      * intros c. rewrite elem_of_app, list_elem_of_singleton. intros [Hc'| ->]; [|rewrite lookup_insert_eq; eauto].
        rewrite lookup_insert_ne by congruence. by apply Hp.
      * unfold with_lh. rsimpl. cbn [lh_block]. by rewrite Hal.
    + intros m. unfold with_lh. rewrite klog_blk, Hb2. apply klog_blk.
    + unfold with_lh. rsimpl. rewrite Hs2. by rsimpl.
    + unfold with_lh. rsimpl. rewrite Hs2. by rsimpl.
    + unfold with_lh. rsimpl. rewrite Hk2. subst k. by rsimpl.
    + unfold with_lh. rsimpl. rewrite Hk2. subst k. by rsimpl.
    + unfold with_lh. rsimpl. rewrite Hs2 at 1. kst_eq s.
Qed.

Lemma finishes_acquire l s a s' : finishes (acquire l s) a s' → s' = s <| held ::= List.cons l |>.
Proof. unfold acquire. case_match; inversion 1; subst; done. Qed.

Lemma begin_op_wait_reserves fuel s s' :
  finishes (begin_op_wait fuel s) tt s' →
  ∃ l, klog s' = l <| l_outstanding := s32 (l_outstanding l + 1) |> ∧ l_committing l = 0 ∧
       lh_n (l_lh l) + (l_outstanding l + 1) * MAXOPBLOCKS ≤ LOGBLOCKS.
Proof.
  assert (∀ s, l_committing (klog s) = 0 → lh_n (l_lh (klog s)) + (l_outstanding (klog s) + 1) * MAXOPBLOCKS ≤ LOGBLOCKS →
    finishes ((updlog (λ l, l <| l_outstanding := s32 (l_outstanding l + 1) |>) ;;; release Llog) s) tt s' →
    ∃ l, klog s' = l <| l_outstanding := s32 (l_outstanding l + 1) |> ∧ l_committing l = 0 ∧
       lh_n (l_lh l) + (l_outstanding l + 1) * MAXOPBLOCKS ≤ LOGBLOCKS) as Hend.
  { intros t Hc Hr Hf. exists (klog t). split; [|done]. unfold updlog in Hf. rewrite bind_modify in Hf.
    unfold release in Hf. case_match; inversion Hf; subst. by rsimpl. }
  revert s. induction fuel as [|fuel IH]; intros s Hf; cbn [begin_op_wait] in Hf; unfold getlog in Hf;
    rewrite bind_gets in Hf; destruct (l_committing (klog s) =? 0) eqn:E1; cbn [negb orb] in Hf;
    try (destruct (_ >? LOGBLOCKS) eqn:E2); try (unfold nofuel in Hf; by inversion Hf); try (apply (Hend s); [lia|lia|exact Hf]).
  - apply finishes_bind in Hf as ([] & s1 & _ & Hf). by eapply IH.
  - apply finishes_bind in Hf as ([] & s1 & _ & Hf). by eapply IH.
Qed.

Lemma commit_any s i pid st R bs :
  log_inv s i pid st R ∅ bs → log_refs R st →
  ∃ s' R', commit s = Ok tt s' ∧ cache_rep s' i pid R' ∅ ∧ unpinned R R' bs ∧ log_at s' st [] ∧
    klog s' = (klog s) <| l_lh ::= λ h, h <| lh_n := 0 |> |> ∧
    (∀ m, outside st m → blk s' m = blk s m) ∧ (∀ b, b ∈ bs → dblock (disk s') b = blk s b).
Proof.
  intros [Hc Hl Hg Hp Ha] Hr. destruct (decide (bs = [])) as [->|Hne].
  - exists s, R. split; [unfold commit, getlog; kstep; by rewrite (la_n _ _ _ Hl)|].
    split; [done|]. split; [split; [done|by intros b r ?%not_elem_of_nil]|]. split; [done|].
    split; [|split; [done|by intros b ?%not_elem_of_nil]].
    pose proof (la_n _ _ _ Hl) as Hn. destruct (klog s) as [? ? ? ? []]. cbn in Hn. subst. reflexivity.
  - destruct (commit_ok i pid st s R bs Hc Hl Hg Hr Hp Hne) as (s' & R' & E & Hc' & Hu & Hl' & Hk & T).
    exists s', R'. split_and!; try done.
    + intros m Ho. rewrite (td_blk _ _ _ T). rewrite (proj2 (prefix_all st (blk s) (blk s) bs Hg)) by done.
      unfold applied. by case_decide.
    + intros b Hb. rewrite (td_disk _ _ _ T). rewrite (proj2 (prefix_all st (blk s) _ bs Hg)).
      * unfold applied. by rewrite decide_True.
      * by apply (lg_home _ _ Hg).
Qed.

(** [end_op] of the last operation. *)
Lemma end_op_ok s i pid st R bs :
  log_inv s i pid st R ∅ bs → log_refs R st → l_outstanding (klog s) = 1 → l_committing (klog s) = 0 →
  ∃ s' R', end_op s = Ok tt s' ∧ log_inv s' i pid st R' ∅ [] ∧ unpinned R R' bs ∧
    l_outstanding (klog s') = 0 ∧ l_committing (klog s') = 0 ∧
    (∀ m, outside st m → blk s' m = blk s m) ∧ (∀ b, b ∈ bs → dblock (disk s') b = blk s b) ∧
    (∀ j p, procs s' !! j = Some p → j ≠ i → ¬ (p_state p = SLEEPING ∧ p_chan p = ChLog)).
Proof.
  intros [Hc Hl Hg Hp Ha] Hr Hout Hcom. assert (held s = []) as Hh by apply (cr_run _ _ _ _ _ Hc).
  assert (Llog ∉ held s) as Hnl by (rewrite Hh; apply not_elem_of_nil).
  unfold end_op, updlog, getlog. kcall. kstep. kstep. rewrite Hcom, Hout.
  change (negb (0 =? 0)) with false. change (s32 (1 - 1) =? 0) with true. cbv iota. kstep. krel.
  match goal with |- context[bind commit _ ?t] => set (s1 := t) end.
  set (k1 := (klog s) <| l_outstanding := s32 (l_outstanding (klog s) - 1) |> <| l_committing := 1 |>).
  assert (s1 = s <| klog := k1 |>) as E1 by (subst s1 k1; kst_eq s).
  assert (log_inv s1 i pid st R ∅ bs) as Hi1.
  { rewrite E1. split; [by apply klog_rep| |done|done|subst k1; by rsimpl].
    destruct Hl. subst k1. split; by rsimpl. }
  destruct (commit_any s1 i pid st R bs Hi1 Hr) as (s2 & R' & Ec & Hc2 & Hu & Hl2 & Hk2 & Hb2 & Hd2).
  erewrite bind_ok by exact Ec. pose proof (cr_run _ _ _ _ _ Hc2) as Hrun2.
  assert (held s2 = []) as Hh2 by apply Hrun2.
  assert (Llog ∉ held s2) as Hn2 by (rewrite Hh2; apply not_elem_of_nil).
  destruct (wake_running s2 i pid ChLog Hrun2) as [Hw1 Hw2]. rewrite (rn_cur _ _ _ Hrun2) in Hw1, Hw2.
  set (ps := imap (wake ChLog (Some i)) (procs s2)) in *.
  set (k2 := (klog s2) <| l_committing := 0 |>).
  assert (∀ m, blk s1 m = blk s m) as Hb1 by (intros m; rewrite E1; apply klog_blk).
  exists (s2 <| klog := k2 |> <| procs := ps |>), R'. split; [|split; [|split; [done|split_and!]]].
  - kcall. kstep. erewrite bind_ok.
    2:{ apply wakeup_ok. split; rsimpl; [apply Hrun2|]. intros j. rewrite Hh2. set_solver. }
    rsimpl. krel. rewrite (rn_cur _ _ _ Hrun2). fold ps. subst k2. kst_eq s2.
  - split; [by apply cache_procs; [apply klog_rep|..]| |by eapply log_geom_nil|by intros b ?%not_elem_of_nil|].
    + destruct Hl2. subst k2. split; by rsimpl.
    + subst k2. rsimpl. rewrite Hk2, E1. subst k1. by rsimpl.
  - subst k2. rsimpl. rewrite Hk2, E1. subst k1. rsimpl. by rewrite Hout.
  - subst k2. by rsimpl.
  - intros m Ho. unfold blk. rsimpl. fold (blk s2 m). by rewrite Hb2.
  - intros b Hb. rsimpl. by rewrite Hd2.
  - rsimpl. intros j p Hj Hji [Hs1 Hs2]. subst ps. rewrite list_lookup_imap in Hj.
    apply fmap_Some in Hj as (q & _ & ->). unfold wake in Hs1, Hs2. rewrite bool_decide_false in Hs1, Hs2 by congruence.
    cbn [negb andb] in Hs1, Hs2. destruct (is_state SLEEPING q && bool_decide (p_chan q = ChLog)) eqn:Eq; rsimpl; [done|].
    unfold is_state in Eq. rewrite Hs1, Hs2 in Eq. by rewrite bool_decide_true in Eq.
Qed.

(** ** Properties *)

(** C1: a transaction is atomic with respect to crashes.  [commit] returns, and
    its disk writes are such that whichever prefix of them a crash leaves on
    the disk, [recover_from_log] at the next boot succeeds and the blocks
    outside the log are those from before the transaction when the header had
    not been written, and those of the whole transaction when it had. *)
Theorem commit_crash_atomic s i pid R st bs :
  cache_rep s i pid R ∅ → log_at s st bs → log_geom st bs → log_refs R st →
  (∀ b, b ∈ bs → is_Some (R !! b)) → bs ≠ [] →
  Z.of_nat (length (dblock (disk s) st)) = BSIZE → hdr_reads (dblock (disk s) st) [] →
  ∃ s' ws, commit s = Ok tt s' ∧ disk_trace s' = rev ws ++ disk_trace s ∧
    (∀ m, dblock (disk s') m = dblock (disk_after ws (disk s)) m) ∧
    ∀ j s2 i2 pid2, rebooted s2 i2 pid2 st (disk_after (take j ws) (disk s)) →
      ∃ s3, recover_from_log s2 = Ok tt s3 ∧ log_at s3 st [] ∧
        ∀ m, outside st m → dblock (disk s3) m =
          if decide (j ≤ length bs)%nat then dblock (disk s) m
          else applied (blk s) (dblock (disk s)) bs m.
Proof.
  intros Hc Hl Hg Hr Hpin Hne Hlen Hclear.
  destruct (commit_ok i pid st s R bs Hc Hl Hg Hr Hpin Hne) as (s' & R' & E & _ & _ & _ & _ & T).
  exists s', (commit_writes st (blk s) bs). split; [done|]. split; [apply T|].
  split; [intros m; rewrite dblock_after; apply T|]. intros j s2 i2 pid2 Hrb. pose proof (log_geom_nil _ _ Hg) as Hg0.
  assert (R !! st = None) as HR by (apply (lr_log _ _ Hr); unfold LOGBLOCKS, MAXOPBLOCKS; lia).
  assert (blk s st = dblock (disk s) st) as Hst by (by eapply cr_clean).
  assert (∀ b, b ∈ bs → 0 ≤ b < 2 ^ 31) as Hhome by (intros b Hb; by apply (lg_home _ _ Hg)).
  set (D := dblock (disk s)) in *. set (f := blk s) in *.
  destruct (commit_prefix st f bs j) as [[Hj Etake]|[Hj [[k Etake]|Etake]]]; rewrite Etake in Hrb.
  - destruct (prefix_log st D bs Hg (take j (f <$> bs))) as [H1 H2]; [rewrite length_take, length_fmap; lia|].
    destruct (recover_replays s2 i2 pid2 st _ _ [] f Hrb (dblock_after _ _) Hg0) as (s3 & E3 & Hl3 & H3); [fold D; by rewrite H1|done|].
    exists s3. split; [done|]. split; [done|]. intros m Ho. rewrite H3 by done.
    rewrite (decide_True (P := (j ≤ _)%nat)) by done. unfold applied. rewrite decide_False by apply not_elem_of_nil. by apply H2.
  - destruct (prefix_committed st f D bs Hg k) as (H1 & H2 & H3).
    destruct (recover_replays s2 i2 pid2 st _ _ bs f Hrb (dblock_after _ _) Hg) as (s3 & E3 & Hl3 & H4).
    { fold D. rewrite H1. apply hdr_reads_hdr; [by rewrite Hst|apply Hg|done]. } { done. }
    exists s3. split; [done|]. split; [done|]. intros m Ho. rewrite H4 by done.
    rewrite (decide_False (P := (j ≤ _)%nat)) by lia. unfold applied.
    case_decide; [done|]. by apply H3.
  - destruct (prefix_all st f D bs Hg) as [H1 H2].
    destruct (recover_replays s2 i2 pid2 st _ _ [] f Hrb (dblock_after _ _) Hg0) as (s3 & E3 & Hl3 & H3).
    { fold D. rewrite H1. apply hdr_reads_hdr; [|simpl; unfold LOGBLOCKS, MAXOPBLOCKS; lia|by intros b ?%not_elem_of_nil].
      rewrite <- Hlen, <- Hst, length_hdr; [done|rewrite Hst; lia|apply Hg]. } { done. }
    exists s3. split; [done|]. split; [done|]. intros m Ho. rewrite H3 by done.
    rewrite (decide_False (P := (j ≤ _)%nat)) by lia. unfold applied at 1. rewrite decide_False by apply not_elem_of_nil. by apply H2.
Qed.

(** [log_write] of a locked buffer adds its block to the transaction: a block
    logged before is absorbed, the header and the references as they were; a
    new one is appended to the header and pinned.  No block changes, nothing
    is written to the disk, and the header keeps listing each block once. *)
Theorem log_write_absorbs s i pid st R O bs n b :
  log_inv s i pid st R O bs → O !! n = Some b →
  Z.of_nat (length bs) < LOGBLOCKS → 1 ≤ l_outstanding (klog s) →
  0 ≤ n < 2 ^ 31 → outside st n → default 0 (R !! n) + 1 < 2 ^ 31 →
  ∃ s', log_write b s = Ok tt s' ∧
    (n ∈ bs → log_inv s' i pid st R O bs) ∧
    (n ∉ bs → log_inv s' i pid st (<[n := default 0 (R !! n) + 1]> R) O (bs ++ [n])) ∧
    (∀ m, blk s' m = blk s m) ∧ disk s' = disk s.
Proof.
  intros Hi Ho Hl Hout Hn Hos Hr.
  destruct (log_write_ok s i pid st R O bs n b Hi Ho Hl Hout Hn Hos Hr) as (s' & E & Hi' & Hb & Hd & _).
  exists s'. split; [done|]. unfold logged in Hi'. split_and!; try done; intros Hin.
  - by rewrite !decide_True in Hi'.
  - by rewrite !decide_False in Hi'.
Qed.

(** however long it waits and whatever happens meanwhile, when [begin_op]
    returns no commit is under way and the log has room for [MAXOPBLOCKS]
    blocks of each operation, the new one included. *)
Theorem begin_op_reserves s s' :
  finishes (begin_op s) tt s' →
  ∃ l, klog s' = l <| l_outstanding := s32 (l_outstanding l + 1) |> ∧ l_committing l = 0 ∧
       lh_n (l_lh l) + (l_outstanding l + 1) * MAXOPBLOCKS ≤ LOGBLOCKS.
Proof. intros Hf. apply finishes_bind in Hf as ([] & s1 & _ & Hf). by eapply begin_op_wait_reserves. Qed.

(** C10: [end_op] of the last operation makes the transaction durable: every
    logged block is on the disk with its contents in the cache, the contents
    of all blocks outside the log are as before, the log is empty again, the
    pins are gone, and no process is left waiting for the log. *)
Theorem end_op_commits s i pid st R bs :
  log_inv s i pid st R ∅ bs → log_refs R st → l_outstanding (klog s) = 1 → l_committing (klog s) = 0 →
  ∃ s' R', end_op s = Ok tt s' ∧ log_inv s' i pid st R' ∅ [] ∧ unpinned R R' bs ∧
    l_outstanding (klog s') = 0 ∧ l_committing (klog s') = 0 ∧
    (∀ m, outside st m → blk s' m = blk s m) ∧ (∀ b, b ∈ bs → dblock (disk s') b = blk s b) ∧
    (∀ j p, procs s' !! j = Some p → j ≠ i → ¬ (p_state p = SLEEPING ∧ p_chan p = ChLog)).
Proof. apply end_op_ok. Qed.

End Txn.

(** ** A transaction *)

Definition txn_boot : kst :=
  kst0 <| cur := Some 0%nat |> <| procs := <[0%nat := proc0 <| p_pid := 1 |> <| p_state := RUNNING |>]> (replicate NPROC proc0) |>
       <| bufs := boot_bufs |> <| klog := mkLog 2 1 0 1 (mkLh 0 (replicate 30 0)) |>.

#[local] Instance txn_wakeups : Wakeups := 0%nat.
#[local] Instance txn_disk : BlockDev := ram_disk.
#[local] Instance txn_disk_ok : BlockDevOk := ram_disk_ok.

Lemma txn_boot_rep : cache_rep txn_boot 0 1 ∅ ∅.
Proof.
  set (s := kst0 <| cur := Some 0%nat |> <| procs := <[0%nat := proc0 <| p_pid := 1 |> <| p_state := RUNNING |>]> (replicate NPROC proc0) |>
                 <| klog := mkLog 2 1 0 1 (mkLh 0 (replicate 30 0)) |>).
  replace txn_boot with (s <| bufs := boot_bufs |>) by reflexivity.
  apply binit_rep; [reflexivity|]. by split.
Qed.

Lemma txn_geom bs : (∀ b, b ∈ bs → b = 50) → NoDup bs → Z.of_nat (length bs) ≤ LOGBLOCKS → log_geom 2 bs.
Proof. intros Hb Hn Hl. split; [done|done|done|]. intros b ->%Hb. unfold LOGBLOCKS, MAXOPBLOCKS. lia. Qed.

(** Block 50 locked and filled with ones; then logged; then released. *)
Definition txn_lock : KM nat :=
  b <- bread ROOTDEV 50 ;; updb b (λ x, x <| b_data ::= λ _, replicate 1024 1 |>) ;;; ret b.
Definition txn_log : KM nat := b <- txn_lock ;; log_write b ;;; ret b.
Definition txn_release : KM unit := b <- txn_log ;; brelse b.

Record txn_start (s : kst) : Prop := {
  ts_rep : cache_rep s 0 1 ∅ ∅;
  ts_klog : klog s = mkLog 2 1 0 1 (mkLh 0 (replicate 30 0));
  ts_disk : disk s = ∅
}.

Lemma txn_boot_start : txn_start txn_boot.
Proof. split; [apply txn_boot_rep|reflexivity|reflexivity]. Qed.

Lemma txn_lock_ok s0 :
  txn_start s0 →
  ∃ b s, txn_lock s0 = Ok b s ∧ log_inv s 0 1 2 {[50 := 1]} {[50 := b]} [] ∧ klog s = klog s0 ∧ disk s = ∅.
Proof.
  intros [Hc0 Hk0 Hd0].
  destruct (cache_bread s0 0 1 ∅ ∅ 50 Hc0) as (b & s1 & E1 & Hc1 & _ & Hs1);
    [done|right; rewrite map_size_empty; unfold NBUF; lia|done|].
  destruct (cache_data s1 0 1 _ _ 50 b (λ _, replicate 1024 1) Hc1) as (s2 & E2 & Hc2 & _ & Hs2);
    [apply lookup_insert_eq|].
  exists b, s2. split; [unfold txn_lock; erewrite bind_ok by exact E1; erewrite bind_ok by exact E2; done|].
  assert (klog s2 = klog s0 ∧ disk s2 = ∅) as [Hk Hd] by (rewrite Hs2, Hs1; by rsimpl).
  split; [|done]. split; [exact Hc2| |by apply txn_geom; [intros c ?%not_elem_of_nil|apply NoDup_nil_2|]| |].
  - split; by rewrite Hk, Hk0.
  - by intros c ?%not_elem_of_nil.
  - by rewrite Hk, Hk0.
Qed.

Lemma txn_log_ok s0 :
  txn_start s0 →
  ∃ b s, txn_log s0 = Ok b s ∧ log_inv s 0 1 2 {[50 := 2]} {[50 := b]} [50] ∧
    l_outstanding (klog s) = 1 ∧ l_committing (klog s) = 0 ∧ disk s = ∅.
Proof.
  intros Hs0. destruct (txn_lock_ok s0 Hs0) as (b & s1 & E1 & Hi & Hk & Hd). rewrite (ts_klog _ Hs0) in Hk.
  destruct (log_write_ok s1 0 1 2 _ _ _ 50 b Hi) as (s & E & Hi' & _ & Hd' & _ & Ho & Hcm & _);
    [apply lookup_singleton_eq|done|by rewrite Hk|done|right; done|by rewrite lookup_singleton_eq|].
  exists b, s. split; [unfold txn_log; erewrite bind_ok by exact E1; erewrite bind_ok by exact E; done|].
  unfold logged in Hi'. rewrite !decide_False in Hi' by apply not_elem_of_nil.
  rewrite lookup_singleton_eq, insert_singleton_eq in Hi'. rewrite Ho, Hcm, Hk, Hd', Hd. split; [exact Hi'|done].
Qed.

Lemma txn_release_ok s0 :
  txn_start s0 →
  ∃ s, txn_release s0 = Ok tt s ∧ log_inv s 0 1 2 {[50 := 1]} ∅ [50] ∧ log_refs {[50 := 1]} 2 ∧
    l_outstanding (klog s) = 1 ∧ l_committing (klog s) = 0 ∧ disk s = ∅.
Proof.
  intros Hs0. destruct (txn_log_ok s0 Hs0) as (b & s1 & E1 & [Hc Hl Hg Hp Ha] & Ho & Hcm & Hd).
  destruct (cache_brelse s1 0 1 _ _ 50 b 2 Hc) as (s & E & Hc' & _ & Hs);
    [apply lookup_singleton_eq|apply lookup_singleton_eq|lia|].
  exists s. split; [unfold txn_release; erewrite bind_ok by exact E1; exact E|].
  assert (klog s = klog s1 ∧ disk s = ∅) as [Hk Hds] by (rewrite Hs; by rsimpl).
  assert (cache_rep s 0 1 {[50 := 1]} ∅) as Hc2.
  { change (if 2 =? 1 then _ else <[50 := 2 - 1]> {[50 := 2]}) with (<[50 := 1]> ({[50 := 2]} : gmap Z Z)) in Hc'.
    by rewrite insert_singleton_eq, delete_singleton_eq in Hc'. }
  rewrite Hk. split; [|split; [|done]].
  - split; [done|by eapply log_at_klog|done| |by rewrite Hk].
    intros c ->%list_elem_of_singleton. rewrite lookup_singleton_eq. eauto.
  - split.
    + intros m Hm. apply lookup_singleton_ne. unfold LOGBLOCKS, MAXOPBLOCKS in Hm. lia.
    + rewrite map_size_singleton. unfold NBUF. lia.
    + intros m r [<- <-]%lookup_singleton_Some. done.
Qed.

Lemma zero_block_clear : Z.of_nat (length (dblock ∅ 2)) = BSIZE ∧ hdr_reads (dblock ∅ 2) [].
Proof. split; [reflexivity|]. split; [vm_compute; reflexivity|done]. Qed.

(** The machine rebooted over a disk. *)
Definition txn_rebooted (d : gmap Z (list Z)) : kst := txn_boot <| disk := d |>.

Lemma txn_rebooted_ok d : rebooted (txn_rebooted d) 0 1 2 d.
Proof.
  pose proof txn_boot_rep as [[] [l Hw] ? ? ? ?]. split; [split|..]; try done.
  exists l. destruct Hw. split; try done.
  intros j x Hj Hx Hv. exfalso. apply Hv. eapply boot_fields. exact Hx.
Qed.

Lemma commit_crash_atomic_witness :
  ∃ s s' ws, txn_release txn_boot = Ok tt s ∧ commit s = Ok tt s' ∧ disk_trace s' = rev ws ++ disk_trace s ∧
    ∃ s3, recover_from_log (txn_rebooted (disk_after (take 2 ws) ∅)) = Ok tt s3 ∧ dblock (disk s3) 50 = blk s 50.
Proof.
  destruct (txn_release_ok txn_boot txn_boot_start) as (s & E & [Hc Hl Hg Hp _] & Hr & _ & _ & Hd).
  destruct zero_block_clear as [Hz1 Hz2].
  destruct (commit_crash_atomic s 0 1 {[50 := 1]} 2 [50] Hc Hl Hg Hr Hp ltac:(discriminate)
              ltac:(by rewrite Hd) ltac:(by rewrite Hd)) as (s' & ws & Ec & Ht & _ & Hcrash).
  exists s, s', ws. split; [exact E|]. split; [exact Ec|]. split; [exact Ht|].
  destruct (Hcrash 2%nat (txn_rebooted (disk_after (take 2 ws) ∅)) 0%nat 1) as (s3 & E3 & _ & H3).
  { rewrite Hd. apply txn_rebooted_ok. }
  exists s3. split; [exact E3|]. rewrite H3 by (right; done). rewrite decide_False by (cbn [length]; lia).
  unfold applied. apply decide_True. by apply list_elem_of_singleton.
Defined.

Lemma log_write_absorbs_witness :
  ∃ b s s', txn_lock txn_boot = Ok b s ∧ log_write b s = Ok tt s' ∧ log_inv s' 0 1 2 {[50 := 2]} {[50 := b]} [50].
Proof.
  destruct (txn_lock_ok txn_boot txn_boot_start) as (b & s & E & Hi & Hk & _).
  destruct (log_write_absorbs s 0 1 2 {[50 := 1]} {[50 := b]} [] 50 b Hi) as (s' & E' & _ & Hn & _);
    [apply lookup_singleton_eq|done|by rewrite Hk, (ts_klog _ txn_boot_start)|done|right; done|by rewrite lookup_singleton_eq|].
  exists b, s, s'. split; [exact E|]. split; [exact E'|].
  specialize (Hn (not_elem_of_nil _)). rewrite lookup_singleton_eq, insert_singleton_eq in Hn. exact Hn.
Defined.

Lemma begin_op_reserves_witness :
  ∃ s' l, begin_op txn_boot = Ok tt s' ∧ klog s' = l <| l_outstanding := s32 (l_outstanding l + 1) |> ∧
    lh_n (l_lh l) + (l_outstanding l + 1) * MAXOPBLOCKS ≤ LOGBLOCKS.
Proof.
  assert (∃ s', begin_op txn_boot = Ok tt s') as [s' E] by (eexists; vm_compute; reflexivity).
  destruct (begin_op_reserves txn_boot s') as (l & Hl & _ & Hr); [rewrite E; apply fin_ok|].
  exists s', l. split; [exact E|]. split; [exact Hl|exact Hr].
Defined.

Lemma end_op_commits_witness :
  ∃ s s', txn_release txn_boot = Ok tt s ∧ end_op s = Ok tt s' ∧ dblock (disk s') 50 = blk s 50.
Proof.
  destruct (txn_release_ok txn_boot txn_boot_start) as (s & E & Hi & Hr & Ho & Hcm & _).
  destruct (end_op_commits s 0 1 2 {[50 := 1]} [50] Hi Hr Ho Hcm) as (s' & R' & E' & _ & _ & _ & _ & _ & Hd & _).
  exists s, s'. split; [exact E|]. split; [exact E'|]. apply Hd. by apply list_elem_of_singleton.
Defined.
