(* ===== verification/Fs.v ===== *)
(** * The file system: blocks, inodes and their contents ([kernel/fs.c])

    The block allocator on the free bitmap, the table of inodes in memory, the
    inodes on disk, and reading and writing the contents of an inode.  An
    inode pointer is an index in [itable]. *)

From Stdlib Require Import ZArith Lia.
From S2P Require Import Prelude Params CString State Process Vm Bytes Sleeplock Bio Log.
From stdpp Require Import base gmap strings numbers list.

Open Scope Z_scope.

Definition geti (ip : nat) : KM inode := λ s,
  match itable s !! ip with Some x => Ok x s | None => Fault end.
Definition updi (ip : nat) (f : inode → inode) : KM unit :=
  x <- geti ip ;; modify (λ s, s <| itable ::= <[ip := f x]> |>).
Definition getsb : KM superblock := gets sb.

Definition IBLOCK (i : Z) (sb : superblock) : Z := u32 (i / IPB + sb_inodestart sb).
Definition BBLOCK (b : Z) (sb : superblock) : Z := u32 (b / BPB + sb_bmapstart sb).

(** A [struct superblock] at the start of a block. *)
Definition sb_of (d : list Z) : superblock :=
  mkSb (get32 d 0) (get32 d 4) (get32 d 8) (get32 d 12) (get32 d 16) (get32 d 20) (get32 d 24) (get32 d 28).

(** Whether bit [bi] of a bitmap block is set; the block with it set or
    cleared. *)
Definition bitmask (bi : nat) : Z := Z.shiftl 1 (Z.of_nat (bi mod 8)).
Definition bit_used (d : list Z) (bi : nat) : bool :=
  negb (Z.land (default 0 (d !! (bi / 8)%nat)) (bitmask bi) =? 0).
Definition set_bit (d : list Z) (bi : nat) : list Z :=
  alter (λ x, u8 (Z.lor x (bitmask bi))) (bi / 8)%nat d.
Definition clear_bit (d : list Z) (bi : nat) : list Z :=
  alter (λ x, u8 (Z.land x (Z.lnot (bitmask bi)))) (bi / 8)%nat d.

(** The first free bit below [lim]. *)
Definition free_bit (d : list Z) (lim : nat) : option nat :=
  find_first (λ bi, negb (bit_used d bi)) (seq 0 lim).

(** ** A [struct dinode] at offset [off] of a block *)
Definition DI_OFF (inum : Z) : nat := Z.to_nat (inum mod IPB * DINODE_SIZE).
Definition di_type (d : list Z) (off : nat) : Z := s16 (get16 d off).
Definition di_nlink (d : list Z) (off : nat) : Z := s16 (get16 d (off + 6)).
Definition di_addrs (d : list Z) (off : nat) : list Z :=
  (λ k, get32 d (off + 12 + 4 * k)) <$> seq 0 13.

(** The fields [ilock] copies from the disk. *)
Definition load_dinode (d : list Z) (off : nat) (ip : inode) : inode :=
  ip <| i_type := di_type d off |> <| i_major := s16 (get16 d (off + 2)) |>
     <| i_minor := s16 (get16 d (off + 4)) |> <| i_nlink := di_nlink d off |>
     <| i_size := get32 d (off + 8) |> <| i_addrs := di_addrs d off |>.

Fixpoint put_addrs (d : list Z) (off : nat) (l : list Z) : list Z :=
  match l with
  | [] => d
  | a :: l' => put_addrs (put32 d off a) (off + 4) l'
  end.
(** The block with the inode stored in it, as [iupdate] does. *)
Definition store_dinode (d : list Z) (off : nat) (ip : inode) : list Z :=
  let d := put16 d off (i_type ip) in
  let d := put16 d (off + 2) (i_major ip) in
  let d := put16 d (off + 4) (i_minor ip) in
  let d := put16 d (off + 6) (i_nlink ip) in
  let d := put32 d (off + 8) (i_size ip) in
  put_addrs d (off + 12) (i_addrs ip).

(** ** Where data is copied to and from

    [readi] and [writei] take a user address or a kernel address.  The kernel
    addresses their callers pass are those of a local variable, whose bytes
    are part of the result or the argument, and those of physical pages. *)
Inductive target : Type := ToUser (va : Z) | ToPhys (pa : Z) | ToLocal.
Inductive source : Type := FromUser (va : Z) | FromLocal (bytes : list Z).

Definition advance_target (t : target) (m : Z) : target :=
  match t with ToUser va => ToUser (u64 (va + m)) | ToPhys pa => ToPhys (u64 (pa + m)) | ToLocal => ToLocal end.
Definition advance_source (t : source) (m : Z) : source :=
  match t with FromUser va => FromUser (u64 (va + m)) | FromLocal l => FromLocal (drop (Z.to_nat m) l) end.

(** [for(j = 0; j < n; j++)] over a fixed range, without a result. *)
Definition for_range (lo n : nat) (body : nat → KM unit) : KM unit :=
  for_each (seq lo n) (λ j, body j ;;; ret (@None unit)) ;;; ret tt.

Section Fs.
Context `{Layout, Wakeups, BlockDev}.

Definition either_copyout (dst : target) (src : list Z) : KM Z :=
  match dst with
  | ToUser va => i <- curproc ;; p <- getp i ;; copyout (p_pagetable p) va src
  | ToPhys pa => kwrite pa src ;;; ret 0
  | ToLocal => ret 0
  end.

(** Returns the result with the bytes stored at the destination. *)
Definition either_copyin (src : source) (len : Z) : KM (Z * list Z) :=
  match src with
  | FromUser va => i <- curproc ;; p <- getp i ;; copyin (p_pagetable p) va len
  | FromLocal l => ret (0, take (Z.to_nat len) l)
  end.

Definition readsb (dev : Z) : KM unit :=
  bp <- bread (u32 dev) 1 ;;
  b <- getb bp ;;
  modify (λ s, s <| sb := sb_of (b_data b) |>) ;;;
  brelse bp.

(** ** Blocks *)

Definition bzero (dev bno : Z) : KM unit :=
  bp <- bread (u32 dev) (u32 bno) ;;
  updb bp (λ b, b <| b_data := replicate (Z.to_nat BSIZE) 0 |>) ;;;
  log_write bp ;;;
  brelse bp.

(** [for(b = 0; b < sb.size; b += BPB)], from [b]. *)
Fixpoint balloc_loop (fuel : nat) (dev b : Z) : KM Z :=
  sb <- getsb ;;
  if b <? sb_size sb then
    match fuel with
    | O => nofuel
    | S fuel' =>
        bp <- bread dev (BBLOCK b sb) ;;
        x <- getb bp ;;
        match free_bit (b_data x) (Z.to_nat (Z.min BPB (sb_size sb - b))) with
        | Some bi =>
            updb bp (λ y, y <| b_data ::= λ d, set_bit d bi |>) ;;;
            log_write bp ;;;
            brelse bp ;;;
            bzero dev (b + Z.of_nat bi) ;;;
            ret (b + Z.of_nat bi)
        | None => brelse bp ;;; balloc_loop fuel' dev (b + BPB)
        end
    end
  else printk "balloc: out of blocks" [] ;;; ret 0.

Definition balloc (dev : Z) : KM Z :=
  sb <- getsb ;;
  balloc_loop (Z.to_nat (sb_size sb / BPB + 2)) dev 0.

Definition bfree (dev b : Z) : KM unit :=
  sb <- getsb ;;
  bp <- bread (u32 dev) (BBLOCK b sb) ;;
  let bi := Z.to_nat (b mod BPB) in
  x <- getb bp ;;
  if negb (bit_used (b_data x) bi) then panic "freeing free block"
  else
    updb bp (λ y, y <| b_data ::= λ d, clear_bit d bi |>) ;;;
    log_write bp ;;;
    brelse bp.

(** ** Inodes *)

Definition iinit : KM unit := for_range 0 NINODE (λ i, initsleeplock (SlInode i)).

(** The scan of [iget]: the entry of the inode, and the first empty entry
    before it. *)
Fixpoint iget_scan (dev inum : Z) (l : list inode) (i : nat) (empty : option nat) : option nat * option nat :=
  match l with
  | [] => (None, empty)
  | ip :: l' =>
      if (i_ref ip >? 0) && (i_dev ip =? dev) && (i_inum ip =? inum) then (Some i, empty)
      else
        let empty' := match empty with
                      | None => if i_ref ip =? 0 then Some i else None
                      | Some _ => empty
                      end in
        iget_scan dev inum l' (S i) empty'
  end.

Definition iget (dev inum : Z) : KM nat :=
  acquire Litable ;;;
  tbl <- gets itable ;;
  match iget_scan dev inum tbl 0 None with
  | (Some ip, _) =>
      updi ip (λ x, x <| i_ref := s32 (i_ref x + 1) |>) ;;;
      release Litable ;;;
      ret ip
  | (None, Some ip) =>
      updi ip (λ x, x <| i_dev := dev |> <| i_inum := inum |> <| i_ref := 1 |> <| i_valid := 0 |>) ;;;
      release Litable ;;;
      ret ip
  | (None, None) => panic "iget: no inodes"
  end.

Definition ialloc (dev type : Z) : KM (option nat) :=
  sb <- getsb ;;
  r <- for_each (seq 1 (Z.to_nat (sb_ninodes sb - 1))) (λ inum,
    let inum := Z.of_nat inum in
    bp <- bread dev (IBLOCK inum sb) ;;
    x <- getb bp ;;
    let off := DI_OFF inum in
    if di_type (b_data x) off =? 0 then
      updb bp (λ y, y <| b_data ::= λ d, put16 (splice d off (replicate (Z.to_nat DINODE_SIZE) 0)) off type |>) ;;;
      log_write bp ;;;
      brelse bp ;;;
      ip <- iget dev inum ;;
      ret (Some ip)
    else brelse bp ;;; ret None) ;;
  match r with
  | Some ip => ret (Some ip)
  | None => printk "ialloc: no inodes" [] ;;; ret None
  end.

Definition iupdate (ip : nat) : KM unit :=
  sb <- getsb ;;
  x <- geti ip ;;
  bp <- bread (i_dev x) (IBLOCK (i_inum x) sb) ;;
  updb bp (λ b, b <| b_data ::= λ d, store_dinode d (DI_OFF (i_inum x)) x |>) ;;;
  log_write bp ;;;
  brelse bp.

Definition idup (ip : nat) : KM nat :=
  acquire Litable ;;;
  updi ip (λ x, x <| i_ref := s32 (i_ref x + 1) |>) ;;;
  release Litable ;;;
  ret ip.

Definition ilock (ip : nat) : KM unit :=
  x <- geti ip ;;
  if i_ref x <? 1 then panic "ilock"
  else
    acquiresleep (SlInode ip) ;;;
    x <- geti ip ;;
    when i_valid x =? 0 do
      (sb <- getsb ;;
       bp <- bread (i_dev x) (IBLOCK (i_inum x) sb) ;;
       b <- getb bp ;;
       updi ip (load_dinode (b_data b) (DI_OFF (i_inum x))) ;;;
       brelse bp ;;;
       updi ip (λ x, x <| i_valid := 1 |>) ;;;
       x <- geti ip ;;
       when i_type x =? 0 do panic "ilock: no type").

Definition iunlock (ip : nat) : KM unit :=
  h <- holdingsleep (SlInode ip) ;;
  x <- geti ip ;;
  if negb h || (i_ref x <? 1) then panic "iunlock"
  else releasesleep (SlInode ip).

(** *** Contents *)

Definition bmap (ip : nat) (bn : Z) : KM Z :=
  x <- geti ip ;;
  if bn <? NDIRECT then
    addr <- in_range (i_addrs x !! Z.to_nat bn) ;;
    if addr =? 0 then
      addr <- balloc (i_dev x) ;;
      if addr =? 0 then ret 0
      else updi ip (λ x, x <| i_addrs ::= <[Z.to_nat bn := addr]> |>) ;;; ret addr
    else ret addr
  else
    let bn := bn - NDIRECT in
    if bn <? NINDIRECT then
      addr <- in_range (i_addrs x !! Z.to_nat NDIRECT) ;;
      ind <- (if addr =? 0 then
                addr <- balloc (i_dev x) ;;
                (when negb (addr =? 0) do updi ip (λ x, x <| i_addrs ::= <[Z.to_nat NDIRECT := addr]> |>)) ;;;
                ret addr
              else ret addr) ;;
      if ind =? 0 then ret 0
      else
        bp <- bread (i_dev x) ind ;;
        b <- getb bp ;;
        let off := (4 * Z.to_nat bn)%nat in
        addr <- (if get32 (b_data b) off =? 0 then
                   addr <- balloc (i_dev x) ;;
                   (when negb (addr =? 0) do
                      (updb bp (λ y, y <| b_data ::= λ d, put32 d off addr |>) ;;; log_write bp)) ;;;
                   ret addr
                 else ret (get32 (b_data b) off)) ;;
        brelse bp ;;;
        ret addr
    else panic "bmap: out of range".

Definition itrunc (ip : nat) : KM unit :=
  for_range 0 (Z.to_nat NDIRECT) (λ i,
    x <- geti ip ;;
    addr <- in_range (i_addrs x !! i) ;;
    when negb (addr =? 0) do
      (bfree (i_dev x) addr ;;; updi ip (λ x, x <| i_addrs ::= <[i := 0]> |>))) ;;;
  x <- geti ip ;;
  addr <- in_range (i_addrs x !! Z.to_nat NDIRECT) ;;
  (when negb (addr =? 0) do
     (bp <- bread (i_dev x) addr ;;
      for_range 0 (Z.to_nat NINDIRECT) (λ j,
        b <- getb bp ;;
        let a := get32 (b_data b) (4 * j) in
        when negb (a =? 0) do bfree (i_dev x) a) ;;;
      brelse bp ;;;
      bfree (i_dev x) addr ;;;
      updi ip (λ x, x <| i_addrs ::= <[Z.to_nat NDIRECT := 0]> |>))) ;;;
  updi ip (λ x, x <| i_size := 0 |>) ;;;
  iupdate ip.

Definition iput (ip : nat) : KM unit :=
  acquire Litable ;;;
  x <- geti ip ;;
  (when (i_ref x =? 1) && negb (i_valid x =? 0) && (i_nlink x =? 0) do
     (acquiresleep (SlInode ip) ;;;
      release Litable ;;;
      itrunc ip ;;;
      updi ip (λ x, x <| i_type := 0 |>) ;;;
      iupdate ip ;;;
      updi ip (λ x, x <| i_valid := 0 |>) ;;;
      releasesleep (SlInode ip) ;;;
      acquire Litable)) ;;;
  updi ip (λ x, x <| i_ref := s32 (i_ref x - 1) |>) ;;;
  release Litable.

Definition iunlockput (ip : nat) : KM unit := iunlock ip ;;; iput ip.

Definition ireclaim (dev : Z) : KM unit :=
  sb <- getsb ;;
  for_range 1 (Z.to_nat (sb_ninodes sb - 1)) (λ inum,
    let inum := Z.of_nat inum in
    bp <- bread (u32 dev) (IBLOCK inum sb) ;;
    b <- getb bp ;;
    let off := DI_OFF inum in
    ip <- (if negb (di_type (b_data b) off =? 0) && (di_nlink (b_data b) off =? 0) then
             printk "ireclaim: orphaned inode %d" [inum] ;;;
             ip <- iget (u32 dev) inum ;; ret (Some ip)
           else ret None) ;;
    brelse bp ;;;
    match ip with
    | Some ip => begin_op ;;; ilock ip ;;; iunlock ip ;;; iput ip ;;; end_op
    | None => ret tt
    end).

Definition fsinit (dev : Z) : KM unit :=
  readsb dev ;;;
  sb <- getsb ;;
  if negb (sb_magic sb =? FSMAGIC) then panic "invalid file system"
  else initlog dev sb ;;; ireclaim dev.

Definition stati (ip : nat) : KM (Z * Z * Z * Z * Z) :=
  x <- geti ip ;;
  ret (s32 (i_dev x), i_inum x, i_type x, i_nlink x, i_size x).

(** Enough iterations for [n] bytes: each but the first and the last covers a
    whole block. *)
Definition blocks_fuel (n : Z) : nat := Z.to_nat (n / BSIZE + 2).

(** Returns what the loop leaves in [tot], with the bytes copied. *)
Fixpoint readi_loop (fuel : nat) (ip : nat) (dst : target) (off n tot : Z) (acc : list Z) : KM (Z * list Z) :=
  if tot <? n then
    match fuel with
    | O => nofuel
    | S fuel' =>
        x <- geti ip ;;
        addr <- bmap ip (off / BSIZE) ;;
        if addr =? 0 then ret (tot, acc)
        else
          bp <- bread (i_dev x) addr ;;
          let m := Z.min (n - tot) (BSIZE - off mod BSIZE) in
          b <- getb bp ;;
          let bytes := take (Z.to_nat m) (drop (Z.to_nat (off mod BSIZE)) (b_data b)) in
          r <- either_copyout dst bytes ;;
          brelse bp ;;;
          if r =? -1 then ret (-1, acc)
          else readi_loop fuel' ip (advance_target dst m) (u32 (off + m)) n (tot + m) (acc ++ bytes)
    end
  else ret (tot, acc).

Definition readi (ip : nat) (dst : target) (off n : Z) : KM (Z * list Z) :=
  x <- geti ip ;;
  if (off >? i_size x) || (u32 (off + n) <? off) then ret (0, [])
  else
    let n := if u32 (off + n) >? i_size x then i_size x - off else n in
    r <- readi_loop (blocks_fuel n) ip dst off n 0 [] ;;
    ret (s32 (fst r), snd r).

(** Returns [tot] and [off] at the end of the loop. *)
Fixpoint writei_loop (fuel : nat) (ip : nat) (src : source) (off n tot : Z) : KM (Z * Z) :=
  if tot <? n then
    match fuel with
    | O => nofuel
    | S fuel' =>
        x <- geti ip ;;
        addr <- bmap ip (off / BSIZE) ;;
        if addr =? 0 then ret (tot, off)
        else
          bp <- bread (i_dev x) addr ;;
          let m := Z.min (n - tot) (BSIZE - off mod BSIZE) in
          r <- either_copyin src m ;;
          updb bp (λ b, b <| b_data ::= λ d, splice d (Z.to_nat (off mod BSIZE)) (snd r) |>) ;;;
          if fst r =? -1 then brelse bp ;;; ret (tot, off)
          else
            log_write bp ;;;
            brelse bp ;;;
            writei_loop fuel' ip (advance_source src m) (u32 (off + m)) n (tot + m)
    end
  else ret (tot, off).

Definition writei (ip : nat) (src : source) (off n : Z) : KM Z :=
  x <- geti ip ;;
  if (off >? i_size x) || (u32 (off + n) <? off) then ret (-1)
  else if u32 (off + n) >? MAXFILE * BSIZE then ret (-1)
  else
    r <- writei_loop (blocks_fuel n) ip src off n 0 ;;
    let '(tot, off') := r in
    x <- geti ip ;;
    (when off' >? i_size x do updi ip (λ x, x <| i_size := off' |>)) ;;;
    iupdate ip ;;;
    ret (s32 tot).

End Fs.
