(* ===== verification/FsRep.v ===== *)
(** * Blocks inside a transaction

    What the file system's routines see of the cache and the log: while an
    operation runs alone, each logged block has one reference (its pin) and
    each locked buffer one more.  [in_txn] packs the invariant; the lemmas give
    the effect of [bread], [log_write] and [brelse] on it, and of the two
    patterns the routines are made of: read a block, and change a block. *)

From Stdlib Require Import ZArith Lia.
From S2P Require Import Prelude Params CString State Process Vm Bytes Sleeplock Bio BioRep Cache Log LogRep Crash Txn Fs.
From stdpp Require Import base gmap strings numbers list.

Open Scope Z_scope.

(** The references to block [n]. *)
Definition refs (bs : list Z) (O : gmap Z nat) (n : Z) : option Z :=
  let k := b2z (bool_decide (n ∈ bs)) + b2z (bool_decide (is_Some (O !! n))) in
  if k =? 0 then None else Some k.

(** The running process [i] uses the file system alone; [ops] operations are
    outstanding, the blocks [bs] are logged and the buffers [O] locked. *)
Record in_txn (s : kst) (i : nat) (pid st ops : Z) (bs : list Z) (O : gmap Z nat) : Prop := {
  it_inv : ∃ R, log_inv s i pid st R O bs ∧ ∀ n, R !! n = refs bs O n;
  it_out : l_outstanding (klog s) = ops
}.

(** Only the cache, the log and the process table changed. *)
Definition tframe (s s' : kst) : Prop :=
  s' = s <| bufs := bufs s' |> <| klog := klog s' |> <| procs := procs s' |>.

Lemma tframe_refl s : tframe s s.
Proof. unfold tframe. kst_eq s. Qed.

Lemma tframe_trans s1 s2 s3 : tframe s1 s2 → tframe s2 s3 → tframe s1 s3.
Proof. unfold tframe. intros E12 E23. rewrite E23 at 1. rewrite E12. kst_eq s1. Qed.

Lemma tframe_intro s B k ps : tframe s (s <| bufs := B |> <| klog := k |> <| procs := ps |>).
Proof. unfold tframe. kst_eq s. Qed.

Lemma tframe_sb s s' : tframe s s' → sb s' = sb s.
Proof. intros ->. by rsimpl. Qed.
Lemma tframe_itable s s' : tframe s s' → itable s' = itable s.
Proof. intros ->. by rsimpl. Qed.
Lemma tframe_disk s s' : tframe s s' → disk s' = disk s.
Proof. intros ->. by rsimpl. Qed.

Lemma refs_in bs O n : n ∈ bs → ∃ k, refs bs O n = Some k ∧ 1 ≤ k ≤ 2.
Proof.
  intros Hn. unfold refs. rewrite (bool_decide_true (n ∈ bs)) by done.
  destruct (bool_decide (is_Some _)); simpl; eexists; split; done.
Qed.
Lemma refs_bound bs O n : 0 ≤ default 0 (refs bs O n) ≤ 2.
Proof. unfold refs. by destruct (bool_decide (n ∈ bs)), (bool_decide (is_Some (O !! n))). Qed.

Lemma refs_size (R : gmap Z Z) bs O :
  NoDup bs → (∀ n, R !! n = refs bs O n) → (size R ≤ length bs + size O)%nat.
Proof.
  intros Hnd HR. rewrite <- size_dom, <- (size_dom O).
  etrans; [apply (subseteq_size (C := gset Z) _ (list_to_set bs ∪ dom O))|].
  - intros n. rewrite elem_of_dom, elem_of_union, elem_of_list_to_set, elem_of_dom, HR. unfold refs.
    destruct (decide (n ∈ bs)); [by left|]. rewrite (bool_decide_false (n ∈ bs)) by done.
    destruct (decide (is_Some (O !! n))); [by right|]. rewrite bool_decide_false by done.
    simpl. by intros [].
  - rewrite size_union_alt. pose proof (size_list_to_set (C := gset Z) bs Hnd).
    assert (size (dom O ∖ list_to_set bs) ≤ size (dom O))%nat by (apply subseteq_size; set_solver). lia.
Qed.

Lemma refs_lock bs O n b m :
  O !! n = None →
  refs bs (<[n := b]> O) m = (if decide (m = n) then Some (default 0 (refs bs O n) + 1) else refs bs O m).
Proof.
  intros Ho. case_decide as E; [subst m|].
  - unfold refs. rewrite lookup_insert_eq, Ho. rewrite (bool_decide_true (is_Some (Some b))) by eauto.
    rewrite (bool_decide_false (is_Some (@None nat))) by (by intros []). by destruct (bool_decide (n ∈ bs)).
  - unfold refs. by rewrite lookup_insert_ne.
Qed.

Lemma refs_unlock bs O n b k m :
  O !! n = Some b → refs bs O n = Some k →
  refs bs (delete n O) m = (if decide (m = n) then (if k =? 1 then None else Some (k - 1)) else refs bs O m).
Proof.
  intros Ho Hk. case_decide as E; [subst m|].
  - unfold refs in *. rewrite Ho in Hk. rewrite lookup_delete_eq.
    rewrite (bool_decide_true (is_Some (Some b))) in Hk by eauto.
    rewrite (bool_decide_false (is_Some (@None nat))) by (by intros []).
    by destruct (bool_decide (n ∈ bs)); injection Hk as <-.
  - unfold refs. by rewrite lookup_delete_ne.
Qed.

Lemma refs_log bs O n m :
  refs (logged bs n) O m =
  (if decide (m = n) then if decide (n ∈ bs) then refs bs O n else Some (default 0 (refs bs O n) + 1)
   else refs bs O m).
Proof.
  unfold logged. destruct (decide (n ∈ bs)) as [Hin|Hin]; [by case_decide; subst|].
  case_decide as E; [subst m|]; unfold refs.
  - rewrite (bool_decide_true (n ∈ bs ++ [n])) by set_solver. rewrite (bool_decide_false (n ∈ bs)) by done.
    by destruct (bool_decide (is_Some (O !! n))).
  - rewrite (bool_decide_ext (m ∈ bs ++ [n]) (m ∈ bs)) by set_solver. done.
Qed.

Section Blocks.
Context `{HW : Wakeups, HB : BlockDev, HBO : !BlockDevOk}.
Context (i : nat) (pid st ops : Z).

Lemma in_txn_owned s bs O n b :
  in_txn s i pid st ops bs O → O !! n = Some b → ∃ x, getb b s = Ok x s ∧ bufs s !! b = Some x ∧ b_data x = blk s n.
Proof.
  intros [(R & Hi & _) _] Ho. destruct (cr_owned _ _ _ _ _ _ _ (li_cache _ _ _ _ _ _ _ Hi) Ho) as (x & Hx & Hd & _).
  exists x. split_and!; [by apply getb_ok|done|done].
Qed.

Lemma in_txn_clean s bs O n :
  in_txn s i pid st ops bs O → n ∉ bs → O !! n = None → blk s n = dblock (disk s) n.
Proof.
  intros [(R & Hi & HR) _] Hn Ho. eapply cr_clean; [apply Hi|]. rewrite HR. unfold refs.
  rewrite (bool_decide_false (n ∈ bs)), Ho by done. by rewrite (bool_decide_false (is_Some None)) by (by intros []).
Qed.

(** [bread] locks a buffer that holds the block. *)
Lemma txn_bread s bs O n :
  in_txn s i pid st ops bs O → O !! n = None → (length bs + size O < NBUF)%nat →
  ∃ b s', bread ROOTDEV n s = Ok b s' ∧ in_txn s' i pid st ops bs (<[n := b]> O) ∧
    (∀ m, blk s' m = blk s m) ∧ tframe s s'.
Proof.
  intros [(R & Hi & HR) Hout] Ho Hsz. destruct Hi as [Hc Hl Hg Hp Ha].
  pose proof (refs_size R bs O (lg_nodup _ _ Hg) HR). pose proof (refs_bound bs O n).
  destruct (cache_bread s i pid R O n Hc Ho) as (b & s' & E & Hc' & Hb & Hs'); [right; lia|rewrite HR; lia|].
  exists b, s'. split; [done|]. assert (klog s' = klog s) as Hk by (rewrite Hs'; by rsimpl).
  split_and!; [|done|unfold tframe; rewrite Hs' at 1; rewrite Hs'; kst_eq s].
  split; [|by rewrite Hk]. eexists. split.
  - split; [exact Hc'|by eapply log_at_klog|done| |by rewrite Hk].
    intros c Hcb. destruct (decide (c = n)) as [->|]; [rewrite lookup_insert_eq; eauto|].
    rewrite lookup_insert_ne by done. by apply Hp.
  - intros m. rewrite refs_lock by done. case_decide as E'; [subst; by rewrite lookup_insert_eq, HR|].
    by rewrite lookup_insert_ne.
Qed.

Lemma txn_update s bs O n b f :
  in_txn s i pid st ops bs O → O !! n = Some b →
  ∃ s', updb b (λ x, x <| b_data ::= f |>) s = Ok tt s' ∧ in_txn s' i pid st ops bs O ∧
    (∀ m, blk s' m = if decide (m = n) then f (blk s n) else blk s m) ∧ tframe s s'.
Proof.
  intros [(R & [Hc Hl Hg Hp Ha] & HR) Hout] Ho.
  destruct (cache_data s i pid R O n b f Hc Ho) as (s' & E & Hc' & Hb & Hs').
  exists s'. assert (klog s' = klog s) as Hk by (rewrite Hs'; by rsimpl).
  split_and!; [done| |done|unfold tframe; rewrite Hs' at 1; rewrite Hs'; kst_eq s].
  split; [|by rewrite Hk]. exists R. split; [|done]. split; [exact Hc'|by eapply log_at_klog|done|done|by rewrite Hk].
Qed.

Lemma txn_log_write s bs O n b :
  in_txn s i pid st ops bs O → 1 ≤ ops → O !! n = Some b → Z.of_nat (length bs) < LOGBLOCKS →
  0 ≤ n < 2 ^ 31 → outside st n →
  ∃ s', log_write b s = Ok tt s' ∧ in_txn s' i pid st ops (logged bs n) O ∧ (∀ m, blk s' m = blk s m) ∧ tframe s s'.
Proof.
  intros [(R & Hi & HR) Hout] Hops Ho Hl Hn Hos. pose proof (refs_bound bs O n).
  destruct (log_write_ok s i pid st R O bs n b Hi Ho Hl ltac:(lia) Hn Hos) as (s' & E & Hi' & Hb & _ & _ & Ho' & _ & Hs');
    [rewrite HR; lia|].
  exists s'. split_and!; [done| |done|unfold tframe; rewrite Hs' at 1; rewrite Hs'; kst_eq s].
  split; [|by rewrite Ho']. eexists. split; [exact Hi'|]. intros m. rewrite refs_log.
  destruct (decide (n ∈ bs)) as [Hin|Hin]; [case_decide; subst; apply HR|].
  case_decide as E'; [subst; by rewrite lookup_insert_eq, HR|]. by rewrite lookup_insert_ne.
Qed.

(** A buffer may be released once its block is logged or as on the disk. *)
Lemma txn_brelse s bs O n b :
  in_txn s i pid st ops bs O → O !! n = Some b → (n ∈ bs ∨ blk s n = dblock (disk s) n) →
  ∃ s', brelse b s = Ok tt s' ∧ in_txn s' i pid st ops bs (delete n O) ∧ (∀ m, blk s' m = blk s m) ∧ tframe s s'.
Proof.
  intros [(R & [Hc Hl Hg Hp Ha] & HR) Hout] Ho Hcl.
  assert (∃ k, refs bs O n = Some k ∧ (n ∈ bs → k ≠ 1)) as (k & Hk & Hk1).
  { unfold refs. rewrite Ho. rewrite (bool_decide_true (is_Some (Some b))) by eauto.
    destruct (bool_decide_reflect (n ∈ bs)); simpl; eexists; split; done. }
  destruct (cache_brelse s i pid R O n b k Hc Ho) as (s' & E & Hc' & Hb & Hs'); [by rewrite HR|naive_solver|].
  exists s'. assert (klog s' = klog s) as Hkl by (rewrite Hs'; by rsimpl).
  split_and!; [done| |done|unfold tframe; rewrite Hs' at 1; rewrite Hs'; kst_eq s].
  split; [|by rewrite Hkl]. eexists. split.
  - split; [exact Hc'|by eapply log_at_klog|done| |by rewrite Hkl].
    intros c Hcb. destruct (decide (c = n)) as [->|Hne].
    + specialize (Hk1 Hcb). rewrite (proj2 (Z.eqb_neq k 1)) by done. rewrite lookup_insert_eq. eauto.
    + destruct (k =? 1); [rewrite lookup_delete_ne by done|rewrite lookup_insert_ne by done]; by apply Hp.
  - intros m. rewrite (refs_unlock bs O n b k) by done. case_decide as E'.
    + subst. destruct (k =? 1); [apply lookup_delete_eq|apply lookup_insert_eq].
    + destruct (k =? 1); [rewrite lookup_delete_ne by done|rewrite lookup_insert_ne by done]; apply HR.
Qed.

(** Reading a block: [bread], a look at the data, [brelse]. *)
Lemma txn_read s bs O n :
  in_txn s i pid st ops bs O → O !! n = None → (length bs + size O < NBUF)%nat →
  ∃ b x s1 s2, bread ROOTDEV n s = Ok b s1 ∧ getb b s1 = Ok x s1 ∧ b_data x = blk s n ∧ brelse b s1 = Ok tt s2 ∧
    in_txn s2 i pid st ops bs O ∧ (∀ m, blk s2 m = blk s m) ∧ tframe s s1 ∧ tframe s s2.
Proof.
  intros Ht Ho Hsz. destruct (txn_bread s bs O n Ht Ho Hsz) as (b & s1 & E1 & Ht1 & Hb1 & Hf1).
  destruct (in_txn_owned s1 bs _ n b Ht1) as (x & Ex & _ & Hx); [apply lookup_insert_eq|].
  destruct (txn_brelse s1 bs _ n b Ht1) as (s2 & E2 & Ht2 & Hb2 & Hf2); [apply lookup_insert_eq| |].
  { destruct (decide (n ∈ bs)); [by left|right]. rewrite Hb1, (tframe_disk _ _ Hf1). by eapply in_txn_clean. }
  rewrite delete_insert_id in Ht2 by done. exists b, x, s1, s2. rewrite Hx, Hb1.
  split_and!; try done; [intros m; by rewrite Hb2|by eapply tframe_trans].
Qed.

(** Changing a block: [updb] on its data, [log_write], [brelse]. *)
Lemma txn_commit_block s bs O n b f :
  in_txn s i pid st ops bs O → 1 ≤ ops → O !! n = Some b → Z.of_nat (length bs) < LOGBLOCKS →
  0 ≤ n < 2 ^ 31 → outside st n →
  ∃ s', (updb b (λ x, x <| b_data ::= f |>) ;;; log_write b ;;; brelse b) s = Ok tt s' ∧
    in_txn s' i pid st ops (logged bs n) (delete n O) ∧
    (∀ m, blk s' m = if decide (m = n) then f (blk s n) else blk s m) ∧ tframe s s'.
Proof.
  intros Ht Hops Ho Hl Hn Hos.
  destruct (txn_update s bs O n b f Ht Ho) as (s1 & E1 & Ht1 & Hb1 & Hf1).
  destruct (txn_log_write s1 bs O n b Ht1 Hops Ho Hl Hn Hos) as (s2 & E2 & Ht2 & Hb2 & Hf2).
  destruct (txn_brelse s2 (logged bs n) O n b Ht2 Ho) as (s3 & E3 & Ht3 & Hb3 & Hf3).
  { left. unfold logged. case_decide; set_solver. }
  exists s3. split_and!; [|done| |].
  - erewrite bind_ok by exact E1. erewrite bind_ok by exact E2. exact E3.
  - intros m. by rewrite Hb3, Hb2, Hb1.
  - eapply tframe_trans; [exact Hf1|]. by eapply tframe_trans.
Qed.

Lemma txn_modify s bs O n f :
  in_txn s i pid st ops bs O → 1 ≤ ops → O !! n = None → (length bs + size O < NBUF)%nat →
  Z.of_nat (length bs) < LOGBLOCKS →
  0 ≤ n < 2 ^ 31 → outside st n →
  ∃ s', (b <- bread ROOTDEV n ;; updb b (λ x, x <| b_data ::= f |>) ;;; log_write b ;;; brelse b) s = Ok tt s' ∧
    in_txn s' i pid st ops (logged bs n) O ∧
    (∀ m, blk s' m = if decide (m = n) then f (blk s n) else blk s m) ∧ tframe s s'.
Proof.
  intros Ht Hops Ho Hsz Hl Hn Hos. destruct (txn_bread s bs O n Ht Ho Hsz) as (b & s1 & E1 & Ht1 & Hb1 & Hf1).
  destruct (txn_commit_block s1 bs _ n b f Ht1 Hops (lookup_insert_eq _ _ _) Hl Hn Hos) as (s2 & E2 & Ht2 & Hb2 & Hf2).
  rewrite delete_insert_id in Ht2 by done. exists s2. split_and!; [|done| |by eapply tframe_trans].
  - erewrite bind_ok by exact E1. exact E2.
  - intros m. rewrite Hb2, Hb1. by case_decide; [|apply Hb1].
Qed.

End Blocks.
