(* ===== verification/FsAlloc.v ===== *)
(** * The block allocator is correct

    [balloc] and [bfree] of [kernel/fs.c] on the bitmap of the disk, inside a
    transaction. *)

From Stdlib Require Import ZArith Lia.
From S2P Require Import Prelude Params CString State Process Vm Bytes Sleeplock Bio BioRep Cache Log LogRep Crash Txn Fs FsRep.
From stdpp Require Import base gmap strings numbers list.

Open Scope Z_scope.

(** ** Bits of a bitmap block *)

Lemma land_pow2_eqb x k : 0 ≤ k → negb (Z.land x (Z.shiftl 1 k) =? 0) = Z.testbit x k.
Proof.
  intros Hk. rewrite Z.shiftl_1_l. destruct (Z.testbit x k) eqn:E.
  - apply negb_true_iff, Z.eqb_neq. intros H0.
    assert (Z.testbit (Z.land x (2 ^ k)) k = true) as Ht by by rewrite Z.land_spec, E, Z.pow2_bits_true.
    by rewrite H0, Z.testbit_0_l in Ht.
  - apply negb_false_iff, Z.eqb_eq. apply Z.bits_inj'. intros j Hj. rewrite Z.land_spec, Z.testbit_0_l.
    destruct (decide (j = k)) as [->|]; [by rewrite E|]. by rewrite Z.pow2_bits_false, andb_false_r by lia.
Qed.

Lemma bit_used_testbit d bi :
  bit_used d bi = Z.testbit (default 0 (d !! (bi / 8)%nat)) (Z.of_nat (bi mod 8)).
Proof. apply land_pow2_eqb. lia. Qed.

Lemma testbit_u8 x (k : nat) : (k < 8)%nat → Z.testbit (u8 x) (Z.of_nat k) = Z.testbit x (Z.of_nat k).
Proof. intros Hk. unfold u8. apply Z.mod_pow2_bits_low. lia. Qed.

Lemma mod8_lt (n : nat) : (n mod 8 < 8)%nat.
Proof. apply Nat.mod_upper_bound. lia. Qed.

Lemma bits_differ (bi bj : nat) : bi ≠ bj → (bi / 8 = bj / 8)%nat → (bi mod 8 ≠ bj mod 8)%nat.
Proof. intros Hne Hd Hm. apply Hne. rewrite (Nat.div_mod_eq bi 8), (Nat.div_mod_eq bj 8). lia. Qed.

(** A change of the byte of bit [bi] changes that bit only, if the new byte
    says so. *)
Lemma bit_used_alter d (f : Z → Z) bi bj v :
  (bi / 8 < length d)%nat →
  (∀ x k, 0 ≤ k → Z.testbit (f x) k = if decide (k = Z.of_nat (bi mod 8)) then v else Z.testbit x k) →
  bit_used (alter (λ x, u8 (f x)) (bi / 8)%nat d) bj = if decide (bj = bi) then v else bit_used d bj.
Proof.
  intros Hlen Hf. rewrite !bit_used_testbit. destruct (decide (bi / 8 = bj / 8)%nat) as [E|E].
  - rewrite <- E, list_lookup_alter_eq. destruct (lookup_lt_is_Some_2 d _ Hlen) as [x ->]. simpl.
    rewrite testbit_u8, Hf by (apply mod8_lt || lia).
    destruct (decide (bj = bi)) as [->|Hne]; [by rewrite decide_True|].
    rewrite decide_False; [done|]. intros Em%Nat2Z.inj. symmetry in Em.
    by eapply bits_differ.
  - rewrite list_lookup_alter_ne by done. rewrite decide_False by congruence. done.
Qed.

Lemma bit_used_set d bi bj :
  (bi / 8 < length d)%nat → bit_used (set_bit d bi) bj = if decide (bj = bi) then true else bit_used d bj.
Proof.
  intros Hlen. apply (bit_used_alter d (λ x, Z.lor x (bitmask bi)) bi bj true Hlen).
  intros x k Hk. unfold bitmask. rewrite Z.lor_spec, Z.shiftl_1_l.
  case_decide as E; [subst; by rewrite Z.pow2_bits_true, orb_true_r by lia|].
  by rewrite Z.pow2_bits_false, orb_false_r by lia.
Qed.

Lemma bit_used_clear d bi bj :
  (bi / 8 < length d)%nat → bit_used (clear_bit d bi) bj = if decide (bj = bi) then false else bit_used d bj.
Proof.
  intros Hlen. apply (bit_used_alter d (λ x, Z.land x (Z.lnot (bitmask bi))) bi bj false Hlen).
  intros x k Hk. unfold bitmask. rewrite Z.land_spec, Z.lnot_spec, Z.shiftl_1_l by done.
  case_decide as E; [subst; by rewrite Z.pow2_bits_true, andb_false_r by lia|].
  by rewrite Z.pow2_bits_false, andb_true_r by lia.
Qed.

Lemma free_bit_Some d lim bi :
  free_bit d lim = Some bi ↔
  (bi < lim)%nat ∧ bit_used d bi = false ∧ ∀ bj, (bj < bi)%nat → bit_used d bj = true.
Proof.
  unfold free_bit. rewrite find_first_Some. split.
  - intros (x & Hx & Hu & Hmin). apply lookup_seq in Hx as [-> Hlt].
    split; [done|]. split; [by apply negb_true_iff|]. intros bj Hj.
    apply negb_false_iff. apply (Hmin bj bj); [done|]. apply lookup_seq. lia.
  - intros (Hlt & Hu & Hmin). exists bi. split; [apply lookup_seq; lia|]. split; [by rewrite Hu|].
    intros bj x Hj Hx. apply lookup_seq in Hx as [-> _]. by rewrite Hmin.
Qed.

Lemma free_bit_None d lim : free_bit d lim = None ↔ ∀ bj, (bj < lim)%nat → bit_used d bj = true.
Proof.
  unfold free_bit. rewrite find_first_None. split.
  - intros Hn bj Hj. apply negb_false_iff. apply (Hn bj). apply lookup_seq. lia.
  - intros Hn n x Hx. apply lookup_seq in Hx as [-> Hlt]. by rewrite Hn.
Qed.

(** ** The bitmap on the disk *)

(** Whether block [b] is marked as in use. *)
Definition used (s : kst) (b : Z) : bool := bit_used (blk s (BBLOCK b (sb s))) (Z.to_nat (b mod BPB)).

(** The layout of the disk as [mkfs] makes it: the bitmap blocks are full
    blocks outside the log, and a free block is neither a block of the log nor
    of the bitmap. *)
Record bitmap_geom (s : kst) (st : Z) : Prop := {
  bg_size : 0 < sb_size (sb s) < 2 ^ 31;
  bg_map : ∀ b, 0 ≤ b < sb_size (sb s) → 0 ≤ BBLOCK b (sb s) < 2 ^ 31 ∧ outside st (BBLOCK b (sb s));
  bg_inj : ∀ b b', 0 ≤ b < sb_size (sb s) → 0 ≤ b' < sb_size (sb s) →
    BBLOCK b (sb s) = BBLOCK b' (sb s) → b / BPB = b' / BPB;
  bg_len : ∀ b, 0 ≤ b < sb_size (sb s) → Z.of_nat (length (blk s (BBLOCK b (sb s)))) = BSIZE;
  bg_data : ∀ b b', 0 ≤ b < sb_size (sb s) → 0 ≤ b' < sb_size (sb s) → used s b = false →
    outside st b ∧ BBLOCK b' (sb s) ≠ b
}.

Lemma used_ext s s' b : (∀ m, blk s' m = blk s m) → sb s' = sb s → used s' b = used s b.
Proof. intros Hb Hs. unfold used. by rewrite Hs, Hb. Qed.

Lemma bitmap_geom_ext s s' st :
  (∀ m, blk s' m = blk s m) → sb s' = sb s → bitmap_geom s st → bitmap_geom s' st.
Proof.
  intros Hb Hs []. split; rewrite ?Hs; try done.
  - intros b Hx. rewrite Hb. eauto.
  - intros b b' Hx Hx'. rewrite (used_ext s s') by done. eauto.
Qed.

(** The blocks of one bitmap block, counted from its first. *)
Lemma BBLOCK_group sb b c :
  0 ≤ b → b mod BPB = 0 → b ≤ c < b + BPB → BBLOCK c sb = BBLOCK b sb ∧ c mod BPB = c - b.
Proof.
  intros Hb Hm Hc. pose proof (Z.div_mod b BPB ltac:(done)) as E. rewrite Hm in E. split.
  - unfold BBLOCK. do 2 f_equal. symmetry. apply (Z.div_unique_pos c BPB (b / BPB) (c - b)); lia.
  - symmetry. apply (Z.mod_unique_pos c BPB (b / BPB) (c - b)); lia.
Qed.

Lemma used_group s b c :
  0 ≤ b → b mod BPB = 0 → b ≤ c < b + BPB →
  used s c = bit_used (blk s (BBLOCK b (sb s))) (Z.to_nat (c - b)).
Proof. intros Hb Hm Hc. unfold used. by destruct (BBLOCK_group (sb s) b c Hb Hm Hc) as [-> ->]. Qed.

Lemma bit_in_block s st b :
  bitmap_geom s st → 0 ≤ b < sb_size (sb s) → (Z.to_nat (b mod BPB) / 8 < length (blk s (BBLOCK b (sb s))))%nat.
Proof.
  intros Hg Hb. pose proof (bg_len _ _ Hg b Hb) as Hl. pose proof (Z.mod_pos_bound b BPB ltac:(done)).
  unfold BPB, BSIZE in *. apply Nat.Div0.div_lt_upper_bound. lia.
Qed.

Definition zero_block : list Z := replicate (Z.to_nat BSIZE) 0.

Section Alloc.
Context `{HW : Wakeups, HB : BlockDev, HBO : !BlockDevOk}.
Context (i : nat) (pid st ops : Z).

(** [s'] is [s] with block [b] marked in use and zeroed. *)
Record allocated (s s' : kst) (b : Z) : Prop := {
  al_range : 0 ≤ b < sb_size (sb s);
  al_free : used s b = false;
  al_least : ∀ b', 0 ≤ b' < b → used s b' = true;
  al_used : used s' b = true;
  al_zero : blk s' b = zero_block;
  al_others : ∀ b', 0 ≤ b' < sb_size (sb s) → b' ≠ b → used s' b' = used s b';
  al_blocks : ∀ m, m ≠ b → m ≠ BBLOCK b (sb s) → blk s' m = blk s m;
  al_frame : tframe s s'
}.

Lemma bzero_ok s bs O n :
  in_txn s i pid st ops bs O → 1 ≤ ops → O !! n = None → (length bs + size O < NBUF)%nat →
  Z.of_nat (length bs) < LOGBLOCKS → 0 ≤ n < 2 ^ 31 → outside st n →
  ∃ s', bzero ROOTDEV n s = Ok tt s' ∧ in_txn s' i pid st ops (logged bs n) O ∧
    (∀ m, blk s' m = if decide (m = n) then zero_block else blk s m) ∧ tframe s s'.
Proof.
  intros Ht Hops Ho Hsz Hl Hn Hos. unfold bzero. rewrite (u32_small n) by lia. change (u32 ROOTDEV) with ROOTDEV.
  apply (txn_modify i pid st ops s bs O n (λ _, zero_block)); done.
Qed.

Lemma length_logged bs n : (length (logged bs n) ≤ S (length bs))%nat.
Proof. unfold logged. case_decide; [lia|]. rewrite length_app. simpl. lia. Qed.

(** The bitmap with one bit changed. *)
Lemma used_change s s' b v (f : list Z → nat → list Z) :
  bitmap_geom s st → 0 ≤ b < sb_size (sb s) → sb s' = sb s →
  (∀ d bi bj, (bi / 8 < length d)%nat → bit_used (f d bi) bj = if decide (bj = bi) then v else bit_used d bj) →
  (∀ m, blk s' m = if decide (m = BBLOCK b (sb s)) then f (blk s m) (Z.to_nat (b mod BPB)) else blk s m) →
  ∀ b', 0 ≤ b' < sb_size (sb s) → used s' b' = if decide (b' = b) then v else used s b'.
Proof.
  intros Hg Hb Hsb Hf Hblk b' Hb'. unfold used. rewrite Hsb, Hblk. case_decide as EB.
  - rewrite EB, Hf by (by eapply bit_in_block). pose proof (bg_inj _ _ Hg _ _ Hb' Hb EB) as Hd.
    pose proof (Z.div_mod b' BPB ltac:(done)). pose proof (Z.div_mod b BPB ltac:(done)).
    pose proof (Z.mod_pos_bound b' BPB ltac:(done)). pose proof (Z.mod_pos_bound b BPB ltac:(done)).
    destruct (decide (b' = b)) as [->|Hne]; [by rewrite decide_True|]. rewrite decide_False; [done|]. lia.
  - by rewrite (decide_False (P := b' = b)) by (by intros ->).
Qed.

(** The bit is set, the block logged and released, then zeroed. *)
Lemma balloc_take s bs O b bp :
  bitmap_geom s st → 0 ≤ b < sb_size (sb s) → used s b = false → (∀ b', 0 ≤ b' < b → used s b' = true) →
  in_txn s i pid st ops bs (<[BBLOCK b (sb s) := bp]> O) → 1 ≤ ops → O !! BBLOCK b (sb s) = None → O !! b = None →
  (length bs + size O + 1 < NBUF)%nat → Z.of_nat (length bs) + 1 < LOGBLOCKS →
  ∃ s', (updb bp (λ y, y <| b_data ::= λ d, set_bit d (Z.to_nat (b mod BPB)) |>) ;;;
         log_write bp ;;; brelse bp ;;; bzero ROOTDEV b ;;; ret b) s = Ok b s' ∧
    in_txn s' i pid st ops (logged (logged bs (BBLOCK b (sb s))) b) O ∧ allocated s s' b.
Proof.
  intros Hg Hb Hfree Hleast Ht Hops HoB Hob Hsz Hl. set (B := BBLOCK b (sb s)) in *.
  destruct (bg_map _ _ Hg b Hb) as [HBr HBo]. destruct (bg_data _ _ Hg b b Hb Hb Hfree) as [Hbo HbB].
  fold B in HBr, HBo, HbB. pose proof (bg_size _ _ Hg) as Hsize.
  destruct (txn_commit_block i pid st ops s bs (<[B := bp]> O) B bp (λ d, set_bit d (Z.to_nat (b mod BPB)))
              Ht Hops (lookup_insert_eq _ _ _) ltac:(lia) HBr HBo) as (s1 & E1 & Ht1 & Hb1 & Hf1).
  rewrite delete_insert_id in Ht1 by done. pose proof (length_logged bs B) as Hll.
  destruct (bzero_ok s1 (logged bs B) O b Ht1 Hops Hob ltac:(lia) ltac:(lia) ltac:(lia) Hbo) as (s2 & E2 & Ht2 & Hb2 & Hf2).
  exists s2. split; [|split; [done|]].
  - apply bind_inv_ok in E1 as ([] & sa & Ea & E1). apply bind_inv_ok in E1 as ([] & sb & Eb & Ec).
    erewrite bind_ok by exact Ea. erewrite bind_ok by exact Eb. erewrite bind_ok by exact Ec.
    by erewrite bind_ok by exact E2.
  - assert (tframe s s2) as Hf by (by eapply tframe_trans). pose proof (tframe_sb _ _ Hf) as Hsb.
    assert (∀ b', 0 ≤ b' < sb_size (sb s) → used s2 b' = if decide (b' = b) then true else used s b') as Hu.
    { intros b' Hb'. rewrite <- (used_change s s1 b true set_bit Hg Hb (tframe_sb _ _ Hf1) bit_used_set) by
        (done || (intros m; rewrite Hb1; fold B; case_decide as Em; [by rewrite Em|done])).
      unfold used. rewrite Hsb, (tframe_sb _ _ Hf1), Hb2, decide_False by (by eapply bg_data). done. }
    split; try done.
    + by rewrite Hu, decide_True.
    + by rewrite Hb2, decide_True.
    + intros b' Hb' Hne. by rewrite Hu, decide_False.
    + intros m Hm HmB. rewrite Hb2, decide_False by done. rewrite Hb1, decide_False by done. done.
Qed.

Lemma in_txn_printed s bs O p :
  in_txn s i pid st ops bs O → in_txn (s <| printed ::= p |>) i pid st ops bs O.
Proof.
  intros [(R & [Hc [] Hg Hp Ha] & HR) Ho]. split; [|by rsimpl]. exists R. split; [|done].
  split; [|by split; rsimpl|done|done|by rsimpl].
  destruct Hc as [[] [l []] ? ? ? ?]. split; [split; by rsimpl|exists l; split; rsimpl; done|rsimpl; done..].
Qed.

Lemma allocated_ext s s1 s' b :
  (∀ m, blk s1 m = blk s m) → tframe s s1 → allocated s1 s' b → allocated s s' b.
Proof.
  intros Hb Hf [Hr Hu Hl Hu' Hz Ho Hk Hf']. pose proof (tframe_sb _ _ Hf) as Hs. rewrite Hs in *.
  rewrite (used_ext s s1) in Hu by done. split; try done.
  - intros b' Hb'. rewrite <- (used_ext s s1) by done. by apply Hl.
  - intros b' Hb' Hne. rewrite <- (used_ext s s1) by done. by apply Ho.
  - intros m Hm HmB. rewrite <- Hb. by apply Hk.
  - by eapply tframe_trans.
Qed.

(** What [balloc] does: it takes the first free block, or finds none. *)
Definition balloc_spec (s : kst) (bs : list Z) (O : gmap Z nat) (r : res kst Z) : Prop :=
  (∃ b s', r = Ok b s' ∧ in_txn s' i pid st ops (logged (logged bs (BBLOCK b (sb s))) b) O ∧ allocated s s' b) ∨
  (∃ s', r = Ok 0 s' ∧ in_txn s' i pid st ops bs O ∧ (∀ b, 0 ≤ b < sb_size (sb s) → used s b = true) ∧
         ∀ m, blk s' m = blk s m).

(** The locked buffers are neither bitmap blocks nor free blocks. *)
Definition locks_ok (s : kst) (O : gmap Z nat) : Prop :=
  ∀ n b, O !! n = Some b →
    (∀ b', 0 ≤ b' < sb_size (sb s) → BBLOCK b' (sb s) ≠ n) ∧ (0 ≤ n < sb_size (sb s) → used s n = true).

Lemma balloc_loop_ok fuel s bs O b :
  bitmap_geom s st → in_txn s i pid st ops bs O → 1 ≤ ops → locks_ok s O → 0 ≤ b → b mod BPB = 0 →
  (∀ b', 0 ≤ b' < b → b' < sb_size (sb s) → used s b' = true) → sb_size (sb s) - b ≤ Z.of_nat fuel * BPB →
  (length bs + size O + 1 < NBUF)%nat → Z.of_nat (length bs) + 1 < LOGBLOCKS →
  balloc_spec s bs O (balloc_loop fuel ROOTDEV b s).
Proof.
  revert s b. induction fuel as [|fuel IH]; intros s b Hg Ht Hops HO Hb Hbm Hpre Hf Hsz Hl;
    cbn [balloc_loop]; unfold getsb; kstep; destruct (Z.ltb_spec b (sb_size (sb s))) as [Hlt|Hge]; try lia.
  1,3: right; eexists; split; [reflexivity|]; split; [by apply in_txn_printed|]; split;
       [intros b' Hb'; apply Hpre; lia|intros m; unfold blk; by rsimpl].
  assert (O !! BBLOCK b (sb s) = None) as HoB.
  { destruct (O !! _) as [x|] eqn:E; [|done]. destruct (HO _ _ E) as [Hx _]. by destruct (Hx b ltac:(lia)). }
  destruct (txn_bread i pid st ops s bs O _ Ht HoB ltac:(lia)) as (bp & s1 & E1 & Ht1 & Hb1 & Hf1).
  pose proof (tframe_sb _ _ Hf1) as Hsb.
  destruct (in_txn_owned i pid st ops s1 bs _ _ bp Ht1 (lookup_insert_eq _ _ _)) as (x & Ex & _ & Hx).
  erewrite bind_ok by exact E1. erewrite bind_ok by exact Ex. rewrite Hx, Hb1.
  destruct (free_bit _ _) as [bi|] eqn:Ebit.
  - apply free_bit_Some in Ebit as (Hlim & Hfree & Hmin). left.
    set (b' := b + Z.of_nat bi) in *. destruct (BBLOCK_group (sb s) b b' Hb Hbm ltac:(lia)) as [EB Em].
    replace (b' - b) with (Z.of_nat bi) in Em by lia.
    assert (used s b' = false) as Hu by (unfold used; by rewrite EB, Em, Nat2Z.id).
    assert (∀ c, 0 ≤ c < b' → used s c = true) as Hleast.
    { intros c Hc. destruct (decide (c < b)) as [Hcb|Hcb]; [apply Hpre; lia|].
      rewrite (used_group s b) by (done || lia). apply Hmin. lia. }
    assert (O !! b' = None) as Hob.
    { destruct (O !! b') as [y|] eqn:E; [|done]. destruct (HO _ _ E) as [_ Hy]. rewrite Hy in Hu; [done|lia]. }
    destruct (balloc_take s1 bs O b' bp) as (s2 & E2 & Ht2 & Ha2); rewrite ?Hsb, ?EB; try done; try lia.
    { by eapply bitmap_geom_ext. } { by rewrite (used_ext s s1). }
    { intros c Hc. rewrite (used_ext s s1) by done. by apply Hleast. }
    rewrite Em, Nat2Z.id in E2. exists b', s2. split; [exact E2|]. split; [by rewrite Hsb in Ht2|].
    by eapply allocated_ext.
  - destruct (txn_brelse i pid st ops s1 bs _ _ bp Ht1 (lookup_insert_eq _ _ _)) as (s2 & E2 & Ht2 & Hb2 & Hf2).
    { destruct (decide (BBLOCK b (sb s) ∈ bs)); [by left|right].
      rewrite Hb1, (tframe_disk _ _ Hf1). by eapply in_txn_clean. }
    rewrite delete_insert_id in Ht2 by done. erewrite bind_ok by exact E2.
    assert (∀ m, blk s2 m = blk s m) as Hbs by (intros m; by rewrite Hb2).
    assert (tframe s s2) as Hfs by (by eapply tframe_trans). pose proof (tframe_sb _ _ Hfs) as Hsb2.
    rewrite free_bit_None in Ebit. assert (0 < BPB) by done.
    destruct (IH s2 (b + BPB)) as [(b' & s' & E & Ht' & Ha)|(s' & E & Ht' & Hall & Hm)]; rewrite ?Hsb2; try done; try lia.
    + by eapply bitmap_geom_ext.
    + intros n y Hy. rewrite Hsb2, (used_ext s s2) by done. by eapply HO.
    + by rewrite <- Zplus_mod_idemp_r, Z_mod_same_full, Z.add_0_r.
    + intros c Hc Hcs. rewrite (used_ext s s2) by done. destruct (decide (c < b)); [apply Hpre; lia|].
      rewrite (used_group s b) by (done || lia). apply Ebit. lia.
    + left. exists b', s'. split; [exact E|]. rewrite Hsb2 in Ht'. split; [done|]. by eapply allocated_ext.
    + right. exists s'. split; [exact E|]. split; [done|]. split; [|intros m; by rewrite Hm].
      rewrite Hsb2 in Hall. intros c Hc. rewrite <- (used_ext s s2) by done. by apply Hall.
Qed.

Lemma balloc_ok s bs O :
  bitmap_geom s st → in_txn s i pid st ops bs O → 1 ≤ ops → locks_ok s O →
  (length bs + size O + 1 < NBUF)%nat → Z.of_nat (length bs) + 1 < LOGBLOCKS →
  balloc_spec s bs O (balloc ROOTDEV s).
Proof.
  intros Hg Ht Hops HO Hsz Hl. unfold balloc, getsb. kstep. apply balloc_loop_ok; try done; [intros; lia|].
  pose proof (bg_size _ _ Hg). pose proof (Z.div_mod (sb_size (sb s)) BPB ltac:(done)).
  pose proof (Z.mod_pos_bound (sb_size (sb s)) BPB ltac:(done)).
  pose proof (Z.div_pos (sb_size (sb s)) BPB ltac:(lia) ltac:(done)). lia.
Qed.

Lemma bfree_read s bs O b :
  bitmap_geom s st → in_txn s i pid st ops bs O → O !! BBLOCK b (sb s) = None → (length bs + size O < NBUF)%nat →
  ∃ bp s1 x, bread ROOTDEV (BBLOCK b (sb s)) s = Ok bp s1 ∧ getb bp s1 = Ok x s1 ∧
    b_data x = blk s (BBLOCK b (sb s)) ∧ in_txn s1 i pid st ops bs (<[BBLOCK b (sb s) := bp]> O) ∧
    (∀ m, blk s1 m = blk s m) ∧ tframe s s1.
Proof.
  intros Hg Ht Ho Hsz. destruct (txn_bread i pid st ops s bs O _ Ht Ho Hsz) as (bp & s1 & E1 & Ht1 & Hb1 & Hf1).
  destruct (in_txn_owned i pid st ops s1 bs _ _ bp Ht1 (lookup_insert_eq _ _ _)) as (x & Ex & _ & Hx).
  exists bp, s1, x. rewrite Hx, Hb1. done.
Qed.

End Alloc.

Section Properties.
Context `{HW : Wakeups, HB : BlockDev, HBO : !BlockDevOk}.
Context (i : nat) (pid st ops : Z).

(** C30: inside a transaction with room for two more blocks, [balloc] returns.
    It returns the lowest-numbered free block, now marked in use, filled with
    zeros and both blocks logged, with every other bit of the bitmap and every
    other block unchanged; or 0, changing no block, when none is free. *)
Theorem balloc_correct s bs :
  bitmap_geom s st → in_txn s i pid st ops bs ∅ → 1 ≤ ops → Z.of_nat (length bs) + 1 < LOGBLOCKS →
  balloc_spec i pid st ops s bs ∅ (balloc ROOTDEV s).
Proof.
  intros Hg Ht Hops Hl. apply balloc_ok; try done. rewrite map_size_empty.
  unfold LOGBLOCKS, MAXOPBLOCKS, NBUF in *. lia.
Qed.

(** [bfree] of a block in use clears its bit and no other, changes no other
    block and logs the bitmap block; freeing a free block panics. *)
Theorem bfree_correct s bs b :
  bitmap_geom s st → in_txn s i pid st ops bs ∅ → 1 ≤ ops → Z.of_nat (length bs) < LOGBLOCKS → 0 ≤ b < sb_size (sb s) →
  if used s b then
    ∃ s', bfree ROOTDEV b s = Ok tt s' ∧ in_txn s' i pid st ops (logged bs (BBLOCK b (sb s))) ∅ ∧
      (∀ b', 0 ≤ b' < sb_size (sb s) → used s' b' = if decide (b' = b) then false else used s b') ∧
      (∀ m, m ≠ BBLOCK b (sb s) → blk s' m = blk s m) ∧ tframe s s'
  else bfree ROOTDEV b s = Panic "freeing free block".
Proof.
  intros Hg Ht Hops Hl Hb. destruct (bg_map _ _ Hg b Hb) as [HBr HBo].
  destruct (bfree_read i pid st ops s bs ∅ b Hg Ht (lookup_empty _)) as (bp & s1 & x & E1 & Ex & Hx & Ht1 & Hb1 & Hf1).
  { rewrite map_size_empty. unfold LOGBLOCKS, MAXOPBLOCKS, NBUF in *. lia. }
  unfold bfree, getsb. kstep. change (u32 ROOTDEV) with ROOTDEV. erewrite bind_ok by exact E1.
  erewrite bind_ok by exact Ex. rewrite Hx. fold (used s b). destruct (used s b); [|done]. cbn [negb].
  destruct (txn_commit_block i pid st ops s1 bs _ _ bp (λ d, clear_bit d (Z.to_nat (b mod BPB)))
              Ht1 Hops (lookup_insert_eq _ _ _) Hl HBr HBo) as (s2 & E2 & Ht2 & Hb2 & Hf2).
  rewrite delete_insert_id in Ht2 by done. assert (tframe s s2) as Hf by (by eapply tframe_trans).
  exists s2. split_and!; [exact E2|done| | |done].
  - eapply (used_change st s s2 b false clear_bit); [done|done|by apply tframe_sb|apply bit_used_clear|].
    intros m. rewrite Hb2, !Hb1. by case_decide; [subst|].
  - intros m Hm. rewrite Hb2, decide_False by done. apply Hb1.
Qed.

End Properties.

(** ** A disk with its bitmap *)

Definition demo_sb : superblock := mkSb FSMAGIC 2000 1954 200 31 2 33 45.
(** The first 46 blocks are in use. *)
Definition demo_bitmap : list Z := replicate 5 255 ++ [63] ++ replicate 1018 0.
Definition fs_disk (d : gmap Z (list Z)) : kst := txn_boot <| sb := demo_sb |> <| disk := d |>.
Definition fs_boot : kst := fs_disk {[ 45 := demo_bitmap ]}.

#[local] Instance alloc_wakeups : Wakeups := 0%nat.
#[local] Instance alloc_disk : BlockDev := ram_disk.
#[local] Instance alloc_disk_ok : BlockDevOk := ram_disk_ok.

Lemma fs_disk_blk d n : blk (fs_disk d) n = dblock d n.
Proof.
  unfold blk. replace (bufs (fs_disk d)) with boot_bufs by reflexivity. replace (disk (fs_disk d)) with d by reflexivity.
  destruct (list_find _ _) as [[j x]|] eqn:E; [|done]. apply list_find_Some in E as (Hx & [_ Hv] & _).
  apply lookup_take_Some in Hx as [Hx _]. by destruct (boot_fields j x Hx) as (_ & _ & ? & _).
Qed.

Lemma fs_boot_blk n : blk fs_boot n = dblock {[ 45 := demo_bitmap ]} n.
Proof. apply fs_disk_blk. Qed.

Lemma fs_disk_txn d : in_txn (fs_disk d) 0 1 2 1 [] ∅.
Proof.
  split; [|done]. exists ∅. split; [|done].
  split; [|by split|by apply txn_geom; [intros c ?%not_elem_of_nil|apply NoDup_nil_2|]|by intros c ?%not_elem_of_nil|done].
  pose proof txn_boot_rep as [[] [l Hw] ? ? ? ?]. split; try done. exists l. destruct Hw. split; try done.
  intros j x Hj Hx Hv. exfalso. apply Hv. by eapply boot_fields.
Qed.
Definition fs_boot_txn : in_txn fs_boot 0 1 2 1 [] ∅ := fs_disk_txn _.

Lemma demo_bits n : (n < 46)%nat → bit_used demo_bitmap n = true.
Proof.
  intros Hn. assert (forallb (bit_used demo_bitmap) (seq 0 46) = true) as Hall by (vm_compute; reflexivity).
  rewrite forallb_forall in Hall. apply Hall. apply in_seq. lia.
Qed.

Lemma fs_boot_used b : 0 ≤ b < 2000 → used fs_boot b = bit_used demo_bitmap (Z.to_nat b).
Proof.
  intros Hb. unfold used. change (sb fs_boot) with demo_sb. rewrite fs_boot_blk.
  unfold BBLOCK, BPB, BSIZE. rewrite Z.div_small, Z.mod_small by lia. reflexivity.
Qed.

Lemma fs_boot_geom : bitmap_geom fs_boot 2.
Proof.
  assert (∀ b, 0 ≤ b < 2000 → BBLOCK b demo_sb = 45) as HB
    by (intros b Hb; unfold BBLOCK, BPB, BSIZE; by rewrite Z.div_small by lia).
  split; change (sb fs_boot) with demo_sb; cbn [sb_size demo_sb].
  - lia.
  - intros b Hb. rewrite HB by done. split; [lia|]. right. done.
  - intros b b' Hb Hb' _. unfold BPB, BSIZE. by rewrite !Z.div_small by lia.
  - intros b Hb. by rewrite HB, fs_boot_blk by done.
  - intros b b' Hb Hb'. rewrite fs_boot_used, HB by done. intros Hu.
    assert (46 ≤ b). { destruct (decide (46 ≤ b)); [done|]. rewrite demo_bits in Hu by lia. done. }
    split; [right; unfold LOGBLOCKS, MAXOPBLOCKS; lia|lia].
Qed.

Lemma balloc_correct_witness : balloc_spec 0 1 2 1 fs_boot [] ∅ (balloc ROOTDEV fs_boot).
Proof. apply balloc_correct; [exact fs_boot_geom|exact fs_boot_txn|done|done]. Defined.

Lemma bfree_correct_witness :
  (∃ s', bfree ROOTDEV 45 fs_boot = Ok tt s' ∧ used s' 45 = false ∧ used s' 44 = true) ∧
  bfree ROOTDEV 50 fs_boot = Panic "freeing free block".
Proof.
  split.
  - pose proof (bfree_correct 0 1 2 1 fs_boot [] 45 fs_boot_geom fs_boot_txn ltac:(done) ltac:(done) ltac:(done)) as H.
    rewrite fs_boot_used in H by done. change (bit_used demo_bitmap (Z.to_nat 45)) with true in H.
    destruct H as (s' & E & _ & Hu & _). exists s'. split; [exact E|]. clear E.
    change (sb_size (sb fs_boot)) with 2000 in Hu. rewrite !Hu by lia. split; [reflexivity|].
    rewrite decide_False, fs_boot_used by lia. reflexivity.
  - pose proof (bfree_correct 0 1 2 1 fs_boot [] 50 fs_boot_geom fs_boot_txn ltac:(done) ltac:(done) ltac:(done)) as H.
    rewrite fs_boot_used in H by done. exact H.
Defined.
