(* ===== verification/FsInode.v ===== *)
(** * Inodes on the disk and in memory

    [iupdate] and [ilock] of [kernel/fs.c]: what the first stores is what the
    second loads, and the other inodes of the block are not touched. *)

From Stdlib Require Import ZArith Lia.
From S2P Require Import Prelude Params CString State Process Vm Bytes Sleeplock Bio BioRep Cache Log LogRep Crash Txn Fs FsRep FsAlloc.
From stdpp Require Import base gmap strings numbers list.

Open Scope Z_scope.

(** ** The fields of a [struct dinode] *)

(** The fields of an in-memory inode are in the range of their C types. *)
Record inode_ok (x : inode) : Prop := {
  io_type : - 2 ^ 15 ≤ i_type x < 2 ^ 15;
  io_major : - 2 ^ 15 ≤ i_major x < 2 ^ 15;
  io_minor : - 2 ^ 15 ≤ i_minor x < 2 ^ 15;
  io_nlink : - 2 ^ 15 ≤ i_nlink x < 2 ^ 15;
  io_size : 0 ≤ i_size x < 2 ^ 32;
  io_len : length (i_addrs x) = 13%nat;
  io_addrs : Forall (λ a, 0 ≤ a < 2 ^ 32) (i_addrs x)
}.

(** The in-memory inode [y] with the fields of [x] that are kept on disk. *)
Definition with_fields (x y : inode) : inode :=
  y <| i_type := i_type x |> <| i_major := i_major x |> <| i_minor := i_minor x |>
    <| i_nlink := i_nlink x |> <| i_size := i_size x |> <| i_addrs := i_addrs x |>.

(** Side conditions on the length of an array after some stores. *)
Ltac len := solve [repeat first [lia | rewrite length_bput]].

Lemma length_put_addrs d off l :
  (off + 4 * length l ≤ length d)%nat → length (put_addrs d off l) = length d.
Proof.
  revert d off. induction l as [|a l IH]; intros d off Hl; simpl in *; [done|].
  rewrite IH; rewrite length_bput; lia.
Qed.

Lemma put_addrs_lookup d off l k :
  (off + 4 * length l ≤ length d)%nat → (k < off ∨ off + 4 * length l ≤ k)%nat → put_addrs d off l !! k = d !! k.
Proof.
  revert d off. induction l as [|a l IH]; intros d off Hl Hk; simpl in *; [done|].
  rewrite IH by (rewrite ?length_bput; lia). apply bput_lookup; lia.
Qed.

Lemma get_put_addrs d off l k a :
  (off + 4 * length l ≤ length d)%nat → l !! k = Some a →
  get32 (put_addrs d off l) (off + 4 * k) = a mod 2 ^ 32.
Proof.
  revert d off k. induction l as [|b l IH]; intros d off k Hl Hk; [done|].
  cbn [put_addrs length] in *. destruct k as [|k]; simplify_eq/=.
  - rewrite Nat.add_0_r. etrans; [apply (bget_ext 4 _ (put32 d off a))|by rewrite bget_bput_eq by lia].
    intros j Hj. apply put_addrs_lookup; rewrite ?length_bput; lia.
  - replace (off + (k + (k + (k + (k + 0))) + 4))%nat with (off + 4 + 4 * k)%nat by lia.
    replace (off + S (k + S (k + S (k + S (k + 0)))))%nat with (off + 4 + 4 * k)%nat by lia.
    apply IH; [rewrite length_bput|]; [lia|lia|done].
Qed.

Lemma length_store_dinode d off x :
  length (i_addrs x) = 13%nat → (off + 64 ≤ length d)%nat → length (store_dinode d off x) = length d.
Proof.
  intros Ha Hl. unfold store_dinode. rewrite length_put_addrs; rewrite ?Ha; len.
Qed.

Lemma store_dinode_lookup d off x k :
  length (i_addrs x) = 13%nat → (off + 64 ≤ length d)%nat → (k < off ∨ off + 64 ≤ k)%nat →
  store_dinode d off x !! k = d !! k.
Proof.
  intros Ha Hl Hk. unfold store_dinode.
  rewrite put_addrs_lookup by (rewrite ?Ha; len). by rewrite !bput_lookup by len.
Qed.

(** A field before the addresses is not touched by storing the addresses. *)
Lemma get_put_addrs_before n d off l o :
  (off + 4 * length l ≤ length d)%nat → (o + n ≤ off)%nat → bget_n n (put_addrs d off l) o = bget_n n d o.
Proof. intros Hl Ho. apply bget_ext. intros k Hk. apply put_addrs_lookup; lia. Qed.

Lemma s16_mod x : - 2 ^ 15 ≤ x < 2 ^ 15 → s16 (x mod 2 ^ 16) = x.
Proof.
  intros Hx. unfold s16. rewrite Zplus_mod_idemp_l. rewrite Z.mod_small; lia.
Qed.

Lemma load_store_dinode d off x y :
  inode_ok x → (off + 64 ≤ length d)%nat → load_dinode (store_dinode d off x) off y = with_fields x y.
Proof.
  intros [H1 H2 H3 H4 H5 Hlen Hall] Hl.
  assert (∀ n o, (o + n ≤ off + 12)%nat → bget_n n (store_dinode d off x) o =
    bget_n n (put32 (put16 (put16 (put16 (put16 d off (i_type x)) (off + 2) (i_major x)) (off + 4) (i_minor x)) (off + 6) (i_nlink x)) (off + 8) (i_size x)) o) as Hpre.
  { intros n o Ho. unfold store_dinode. apply get_put_addrs_before; [|lia].
    rewrite Hlen. len. }
  assert (di_addrs (store_dinode d off x) off = i_addrs x) as Hadr.
  { unfold di_addrs. apply list_eq. intros k. rewrite list_lookup_fmap.
    destruct (decide (k < 13)%nat) as [Hk|Hk].
    - rewrite lookup_seq_lt by done. simpl fmap. destruct (lookup_lt_is_Some_2 (i_addrs x) k ltac:(lia)) as [a Ea].
      rewrite Ea. f_equal. unfold store_dinode. rewrite (get_put_addrs _ (off + 12) (i_addrs x) k a).
      + apply Z.mod_small. rewrite Forall_forall in Hall. apply Hall. by eapply list_elem_of_lookup_2.
      + rewrite Hlen. len.
      + done.
    - rewrite lookup_seq_ge, (lookup_ge_None_2 (i_addrs x)) by lia. done. }
  unfold load_dinode, with_fields, di_type, di_nlink. rewrite !Hpre, Hadr by lia.
  repeat first [rewrite bget_bput_eq by len | rewrite bget_bput_ne by len].
  change (8 * Z.of_nat 2) with 16. change (8 * Z.of_nat 4) with 32.
  rewrite !s16_mod, (Z.mod_small (i_size x)) by done. done.
Qed.

Lemma load_store_other d off off' x y :
  length (i_addrs x) = 13%nat → (off + 64 ≤ length d)%nat → (off' + 64 ≤ off ∨ off + 64 ≤ off')%nat →
  load_dinode (store_dinode d off x) off' y = load_dinode d off' y.
Proof.
  intros Ha Hl Ho. unfold load_dinode, di_type, di_nlink.
  assert (∀ n o, (off' ≤ o)%nat → (o + n ≤ off' + 64)%nat → bget_n n (store_dinode d off x) o = bget_n n d o) as Hg.
  { intros n o H1 H2. apply bget_ext. intros k Hk. apply store_dinode_lookup; [done|done|lia]. }
  assert (di_addrs (store_dinode d off x) off' = di_addrs d off') as ->; [|by rewrite !Hg by lia].
  apply list_fmap_ext. intros j k [-> Hk]%lookup_seq. apply Hg; lia.
Qed.

(** ** iupdate *)

(** Inode [inum] as it is on the disk (in the cache), in the entry [y]. *)
Definition dinode (s : kst) (inum : Z) (y : inode) : inode :=
  load_dinode (blk s (IBLOCK inum (sb s))) (DI_OFF inum) y.

(** The inode blocks are full blocks outside the log. *)
Record inode_geom (s : kst) (st inum : Z) : Prop := {
  ig_block : 0 ≤ IBLOCK inum (sb s) < 2 ^ 31;
  ig_out : outside st (IBLOCK inum (sb s));
  ig_len : Z.of_nat (length (blk s (IBLOCK inum (sb s)))) = BSIZE
}.

Lemma DI_OFF_bound inum : (DI_OFF inum + 64 ≤ Z.to_nat BSIZE)%nat.
Proof.
  unfold DI_OFF. pose proof (Z.mod_pos_bound inum IPB ltac:(done)) as H.
  unfold IPB, BSIZE, DINODE_SIZE in *. change (1024 / 64) with 16 in *. lia.
Qed.

Lemma DI_OFF_apart a b :
  0 ≤ a → 0 ≤ b → a mod IPB ≠ b mod IPB → (DI_OFF b + 64 ≤ DI_OFF a ∨ DI_OFF a + 64 ≤ DI_OFF b)%nat.
Proof.
  intros Ha Hb Hne. unfold DI_OFF. pose proof (Z.mod_pos_bound a IPB ltac:(done)).
  pose proof (Z.mod_pos_bound b IPB ltac:(done)). unfold DINODE_SIZE. lia.
Qed.

Lemma geti_ok s ip x : itable s !! ip = Some x → geti ip s = Ok x s.
Proof. intros Hx. unfold geti. by rewrite Hx. Qed.

Lemma updi_ok s ip f x :
  itable s !! ip = Some x → updi ip f s = Ok tt (s <| itable := <[ip := f x]> (itable s) |>).
Proof. intros Hx. unfold updi. erewrite bind_ok by (by apply geti_ok). reflexivity. Qed.

Lemma in_txn_itable s i pid st ops bs O t :
  in_txn s i pid st ops bs O → in_txn (s <| itable := t |>) i pid st ops bs O.
Proof.
  intros [(R & [Hc [] Hg Hp Ha] & HR) Ho]. split; [|by rsimpl]. exists R. split; [|done].
  split; [|by split; rsimpl|done|done|by rsimpl].
  destruct Hc as [[] [l []] ? ? ? ?]. split; [split; by rsimpl|exists l; split; rsimpl; done|rsimpl; done..].
Qed.

Lemma blk_itable s t m : blk (s <| itable := t |>) m = blk s m.
Proof. unfold blk. by rsimpl. Qed.

Lemma in_txn_running s i pid st ops bs O : in_txn s i pid st ops bs O → running s i pid.
Proof. intros [(R & [Hc _ _ _ _] & _) _]. apply Hc. Qed.

Section Inode.
Context `{HW : Wakeups, HB : BlockDev, HBO : !BlockDevOk}.
Context (i : nat) (pid st ops : Z).

Lemma iupdate_ok s bs O ip x :
  in_txn s i pid st ops bs O → 1 ≤ ops → itable s !! ip = Some x → i_dev x = ROOTDEV → inode_geom s st (i_inum x) →
  O !! IBLOCK (i_inum x) (sb s) = None → (length bs + size O < NBUF)%nat → Z.of_nat (length bs) < LOGBLOCKS →
  ∃ s', iupdate ip s = Ok tt s' ∧ in_txn s' i pid st ops (logged bs (IBLOCK (i_inum x) (sb s))) O ∧
    (∀ m, blk s' m = if decide (m = IBLOCK (i_inum x) (sb s))
                     then store_dinode (blk s m) (DI_OFF (i_inum x)) x else blk s m) ∧ tframe s s'.
Proof.
  intros Ht Hops Hx Hd Hg Ho Hsz Hl. unfold iupdate, getsb. kstep. erewrite bind_ok by (by apply geti_ok).
  rewrite Hd. destruct (txn_modify i pid st ops s bs O _ (λ d, store_dinode d (DI_OFF (i_inum x)) x) Ht Hops Ho Hsz Hl)
    as (s' & E & Ht' & Hb & Hf); [apply Hg|apply Hg|].
  exists s'. split; [exact E|]. split; [done|]. split; [|done]. intros m. rewrite Hb. by case_decide; [subst|].
Qed.

(** [iupdate] writes the inode and nothing else.  Afterwards the inode on
    the disk (in the cache, logged) has exactly the fields of the one in
    memory, as [ilock] would load them; every other inode, also one of the same
    block, and every other block read as before. *)
Theorem iupdate_correct s bs ip x :
  in_txn s i pid st ops bs ∅ → 1 ≤ ops → itable s !! ip = Some x → i_dev x = ROOTDEV → 0 ≤ i_inum x → inode_ok x →
  inode_geom s st (i_inum x) → Z.of_nat (length bs) < LOGBLOCKS →
  ∃ s', iupdate ip s = Ok tt s' ∧ in_txn s' i pid st ops (logged bs (IBLOCK (i_inum x) (sb s))) ∅ ∧
    (∀ y, dinode s' (i_inum x) y = with_fields x y) ∧
    (∀ n y, 0 ≤ n → (n mod IPB ≠ i_inum x mod IPB ∨ IBLOCK n (sb s) ≠ IBLOCK (i_inum x) (sb s)) →
            dinode s' n y = dinode s n y) ∧
    (∀ m, m ≠ IBLOCK (i_inum x) (sb s) → blk s' m = blk s m) ∧ tframe s s'.
Proof.
  intros Ht Hops Hx Hd Hn Hok Hg Hl.
  destruct (iupdate_ok s bs ∅ ip x Ht Hops Hx Hd Hg (lookup_empty _)) as (s' & E & Ht' & Hb & Hf); [|done|].
  { rewrite map_size_empty. unfold LOGBLOCKS, MAXOPBLOCKS, NBUF in *. lia. }
  pose proof (tframe_sb _ _ Hf) as Hsb. pose proof (DI_OFF_bound (i_inum x)) as Hoff. pose proof (ig_len _ _ _ Hg) as Hlen.
  exists s'. split_and!; [exact E|done| | |intros m Hm; by rewrite Hb, decide_False|done].
  - intros y. unfold dinode. rewrite Hsb, Hb, decide_True by done. apply load_store_dinode; [done|lia].
  - intros n y Hn' Hne. unfold dinode. rewrite Hsb, Hb. case_decide as EB; [|done].
    destruct Hne as [Hne|Hne]; [|done]. rewrite EB. apply load_store_other; [apply Hok|lia|].
    by apply DI_OFF_apart.
Qed.

(** ** ilock *)

Lemma sl_store_inode ip v s x :
  itable s !! ip = Some x → sl_store (SlInode ip) v s = s <| itable := <[ip := x <| i_lock := v |>]> (itable s) |>.
Proof.
  intros Hx. rewrite <- (alter_lookup_insert (λ y, y <| i_lock := v |>)) by done. unfold sl_store. kst_eq s.
Qed.

Lemma itable_itable s t t' : s <| itable := t |> <| itable := t' |> = s <| itable := t' |>.
Proof. kst_eq s. Qed.

(** The entry after [ilock]: locked, and loaded from the disk if it was not
    valid. *)
Definition ilocked (s : kst) (x : inode) : inode :=
  let y := x <| i_lock := mkSleeplock 1 pid |> in
  if i_valid x =? 0 then (dinode s (i_inum x) y) <| i_valid := 1 |> else y.

Lemma ilock_ok s bs O ip x :
  in_txn s i pid st ops bs O → itable s !! ip = Some x → 1 ≤ i_ref x → sl_locked (i_lock x) = 0 → i_dev x = ROOTDEV →
  O !! IBLOCK (i_inum x) (sb s) = None → (length bs + size O < NBUF)%nat →
  if (i_valid x =? 0) && (i_type (ilocked s x) =? 0) then ilock ip s = Panic "ilock: no type"
  else ∃ s', ilock ip s = Ok tt s' ∧ in_txn s' i pid st ops bs O ∧ (∀ m, blk s' m = blk s m) ∧
    itable s' = <[ip := ilocked s x]> (itable s) ∧ tframe (s <| itable := itable s' |>) s'.
Proof.
  intros Ht Hx Hr Hl Hd Ho Hsz. pose proof (in_txn_running _ _ _ _ _ _ _ Ht) as Hrun.
  unfold ilock. erewrite bind_ok by (by apply geti_ok). rewrite (proj2 (Z.ltb_ge _ _)) by done.
  erewrite bind_ok by (eapply acquiresleep_ok; [exact Hrun|simpl; by rewrite Hx|done]).
  set (y := x <| i_lock := mkSleeplock 1 pid |>). rewrite (sl_store_inode ip _ s x) by done. fold y.
  set (s1 := s <| itable := _ |>). pose proof (lookup_lt_Some _ _ _ Hx) as Hip.
  assert (itable s1 !! ip = Some y) as Hy by (subst s1; rsimpl; by apply list_lookup_insert_eq).
  assert (in_txn s1 i pid st ops bs O) as Ht1 by (by apply in_txn_itable).
  assert (∀ m, blk s1 m = blk s m) as Hb1 by (intros m; apply blk_itable).
  erewrite bind_ok by (by apply geti_ok). unfold ilocked. fold y. subst y. rsimpl. set (y := x <| i_lock := _ |>) in *.
  destruct (i_valid x =? 0) eqn:Ev; cbn [andb].
  2:{ exists s1. split; [done|]. split; [done|]. split; [done|]. subst s1. rsimpl. split; [done|]. unfold tframe. kst_eq s. }
  unfold getsb. kstep. rewrite Hd. assert (sb s1 = sb s) as Hsb by (subst s1; by rsimpl). rewrite Hsb.
  set (n := IBLOCK (i_inum x) (sb s)) in *.
  destruct (txn_bread i pid st ops s1 bs O n Ht1 Ho Hsz) as (b & s2 & E2 & Ht2 & Hb2 & Hf2).
  destruct (in_txn_owned i pid st ops s2 bs _ n b Ht2 (lookup_insert_eq _ _ _)) as (z & Ez & _ & Hz).
  erewrite bind_ok by exact E2. erewrite bind_ok by exact Ez. rewrite Hz, Hb2, Hb1. subst n.
  change (load_dinode _ _) with (dinode s (i_inum x)). set (n := IBLOCK (i_inum x) (sb s)) in *.
  erewrite bind_ok by (apply updi_ok; rewrite (tframe_itable _ _ Hf2); exact Hy).
  set (s2' := s2 <| itable := _ |>).
  destruct (txn_brelse i pid st ops s2' bs (<[n := b]> O) n b) as (s3 & E3 & Ht3 & Hb3 & Hf3);
    [by apply in_txn_itable|apply lookup_insert_eq| |].
  { destruct (decide (n ∈ bs)); [by left|right]. subst s2'. rewrite blk_itable, Hb2. rsimpl.
    rewrite (tframe_disk _ _ Hf2). by eapply in_txn_clean. }
  rewrite delete_insert_id in Ht3 by done. erewrite bind_ok by exact E3.
  assert (itable s3 = <[ip := dinode s (i_inum x) y]> (itable s)) as Hi3.
  { rewrite (tframe_itable _ _ Hf3). subst s2'. rsimpl. rewrite (tframe_itable _ _ Hf2). subst s1. rsimpl.
    by rewrite list_insert_insert_eq. }
  assert (itable s3 !! ip = Some (dinode s (i_inum x) y)) as Hy3 by (rewrite Hi3; by apply list_lookup_insert_eq).
  erewrite bind_ok by (apply updi_ok; exact Hy3). rewrite Hi3, list_insert_insert_eq.
  erewrite bind_ok by (apply geti_ok; rsimpl; by apply list_lookup_insert_eq). rsimpl.
  destruct (i_type (dinode s (i_inum x) y) =? 0); [done|].
  eexists. split; [reflexivity|]. split; [by apply in_txn_itable|]. split; [|split; [rsimpl; reflexivity|]].
  - intros m. rewrite blk_itable, Hb3. subst s2'. by rewrite blk_itable, Hb2.
  - rsimpl. unfold tframe in *. rewrite Hf3. subst s2'. rewrite Hf2. subst s1. kst_eq s.
Qed.

(** C31: [ilock] of an unlocked entry returns with the lock held by the process.
    An entry not yet valid is loaded with the fields of the inode on the disk,
    and marked valid; if the inode on the disk is free the kernel panics.  No
    block and no other entry changes. *)
Theorem ilock_correct s bs ip x :
  in_txn s i pid st ops bs ∅ → itable s !! ip = Some x → 1 ≤ i_ref x → sl_locked (i_lock x) = 0 → i_dev x = ROOTDEV →
  (length bs < NBUF)%nat →
  if (i_valid x =? 0) && (i_type (ilocked s x) =? 0) then ilock ip s = Panic "ilock: no type"
  else ∃ s', ilock ip s = Ok tt s' ∧ in_txn s' i pid st ops bs ∅ ∧ (∀ m, blk s' m = blk s m) ∧
    itable s' = <[ip := ilocked s x]> (itable s) ∧ tframe (s <| itable := itable s' |>) s'.
Proof. intros. apply ilock_ok; try done. rewrite map_size_empty. lia. Qed.

End Inode.

(** ** Two entries: inode 1 in memory, inode 2 not read yet *)

Definition demo_inode (inum valid : Z) : inode :=
  mkInode ROOTDEV inum 1 (mkSleeplock 0 0) valid T_DIR 0 0 1 1024 (46 :: replicate 12 0).
Definition inode_boot : kst := fs_boot <| itable := demo_inode 1 1 :: demo_inode 2 0 :: replicate 48 inode0 |>.

#[local] Instance inode_wakeups : Wakeups := 0%nat.
#[local] Instance inode_disk : BlockDev := ram_disk.
#[local] Instance inode_disk_ok : BlockDevOk := ram_disk_ok.

Lemma inode_boot_txn : in_txn inode_boot 0 1 2 1 [] ∅.
Proof. apply in_txn_itable, fs_boot_txn. Qed.

Lemma inode_boot_geom inum : 0 ≤ inum < 16 → inode_geom inode_boot 2 inum.
Proof.
  intros Hn. assert (IBLOCK inum (sb inode_boot) = 33) as E
    by (unfold IBLOCK, IPB, BSIZE, DINODE_SIZE; change (1024 / 64) with 16; by rewrite Z.div_small).
  split; rewrite E; [lia|right; unfold LOGBLOCKS, MAXOPBLOCKS; lia|].
  unfold inode_boot. rewrite blk_itable, fs_boot_blk. reflexivity.
Qed.

Lemma demo_inode_ok inum valid : inode_ok (demo_inode inum valid).
Proof. split; [done..|]. repeat (constructor; [lia|]). constructor. Qed.

Lemma iupdate_correct_witness :
  ∃ s', iupdate 0 inode_boot = Ok tt s' ∧
    dinode s' 1 inode0 = with_fields (demo_inode 1 1) inode0 ∧ dinode s' 3 inode0 = dinode inode_boot 3 inode0.
Proof.
  destruct (iupdate_correct 0 1 2 1 inode_boot [] 0 (demo_inode 1 1) inode_boot_txn ltac:(lia) eq_refl eq_refl
              ltac:(cbn; lia) (demo_inode_ok 1 1) (inode_boot_geom 1 ltac:(lia)) ltac:(reflexivity))
    as (s' & E & _ & H1 & H2 & _).
  exists s'. split; [exact E|]. clear E. split; [apply (H1 inode0)|].
  apply (H2 3 inode0); [lia|]. left. cbn [i_inum demo_inode]. unfold IPB, BSIZE, DINODE_SIZE. discriminate.
Defined.

Lemma ilock_correct_witness :
  (∃ s', ilock 0 inode_boot = Ok tt s') ∧ ilock 1 inode_boot = Panic "ilock: no type".
Proof.
  split.
  - destruct (ilock_correct 0 1 2 1 inode_boot [] 0 (demo_inode 1 1) inode_boot_txn eq_refl ltac:(cbn; lia) eq_refl eq_refl
                ltac:(unfold NBUF; cbn; lia)) as (s' & E & _). exists s'. exact E.
  - apply (ilock_correct 0 1 2 1 inode_boot [] 1 (demo_inode 2 0) inode_boot_txn eq_refl ltac:(cbn; lia) eq_refl eq_refl
             ltac:(unfold NBUF; cbn; lia)).
Defined.
