(* ===== verification/FsFile.v ===== *)
(** * Reading and writing the contents of a file

    [bmap], [readi] and [writei] of [kernel/fs.c] on the bytes of a file, for
    files whose blocks are allocated. *)

From Stdlib Require Import ZArith Lia.
From S2P Require Import Prelude Params CString State Process Vm Bytes Sleeplock Bio BioRep Cache Log LogRep Crash Txn Fs FsRep FsAlloc FsInode.
From stdpp Require Import base gmap strings numbers list.

Open Scope Z_scope.

(** ** The bytes of a file *)

(** The indirect block, and the disk block of block [bn] of the file (0: none). *)
Definition ind_of (x : inode) : Z := default 0 (i_addrs x !! Z.to_nat NDIRECT).
Definition addr_of (s : kst) (x : inode) (bn : Z) : Z :=
  if bn <? NDIRECT then default 0 (i_addrs x !! Z.to_nat bn)
  else get32 (blk s (ind_of x)) (4 * Z.to_nat (bn - NDIRECT)).

(** Byte [k] of the file, and [len] bytes from [off] on. *)
Definition fbyte (s : kst) (x : inode) (k : Z) : Z :=
  default 0 (blk s (addr_of s x (k / BSIZE)) !! Z.to_nat (k mod BSIZE)).
Definition slice (s : kst) (x : inode) (off len : Z) : list Z := fbyte s x <$> seqZ off len.

(** Every block of the file is allocated and is a full block. *)
Record file_ok (s : kst) (x : inode) : Prop := {
  fo_dev : i_dev x = ROOTDEV;
  fo_size : 0 ≤ i_size x ≤ MAXFILE * BSIZE;
  fo_len : length (i_addrs x) = 13%nat;
  fo_ind : NDIRECT * BSIZE < i_size x → ind_of x ≠ 0;
  fo_alloc : ∀ bn, 0 ≤ bn → bn * BSIZE < i_size x → addr_of s x bn ≠ 0;
  fo_full : ∀ bn, 0 ≤ bn → bn * BSIZE < i_size x → Z.of_nat (length (blk s (addr_of s x bn))) = BSIZE
}.

Lemma addr_of_ext s s' x bn : (∀ m, blk s' m = blk s m) → addr_of s' x bn = addr_of s x bn.
Proof. intros Hb. unfold addr_of. by rewrite Hb. Qed.
Lemma fbyte_ext s s' x k : (∀ m, blk s' m = blk s m) → fbyte s' x k = fbyte s x k.
Proof. intros Hb. unfold fbyte. by rewrite (addr_of_ext s s'), Hb. Qed.
Lemma slice_ext s s' x off len : (∀ m, blk s' m = blk s m) → slice s' x off len = slice s x off len.
Proof. intros Hb. apply list_fmap_ext. intros. by apply fbyte_ext. Qed.
Lemma file_ok_ext s s' x : (∀ m, blk s' m = blk s m) → file_ok s x → file_ok s' x.
Proof. intros Hb []. split; try done; intros bn; rewrite (addr_of_ext s s') by done; [|rewrite Hb]; auto. Qed.

Lemma length_slice s x off len : length (slice s x off len) = Z.to_nat len.
Proof. unfold slice. by rewrite length_fmap, length_seqZ. Qed.

Lemma slice_app s x off a b :
  0 ≤ a → 0 ≤ b → slice s x off (a + b) = slice s x off a ++ slice s x (off + a) b.
Proof. intros. unfold slice. by rewrite seqZ_app, fmap_app. Qed.

Lemma block_of off j : 0 ≤ off → 0 ≤ j < BSIZE - off mod BSIZE →
  (off + j) / BSIZE = off / BSIZE ∧ (off + j) mod BSIZE = off mod BSIZE + j.
Proof.
  intros Ho Hj. pose proof (Z.div_mod off BSIZE ltac:(done)). pose proof (Z.mod_pos_bound off BSIZE ltac:(done)).
  split; [symmetry; eapply (Z.div_unique_pos _ _ _ (off mod BSIZE + j)) | symmetry; eapply (Z.mod_unique_pos _ _ (off / BSIZE))]; lia.
Qed.

(** The part of one block that a round of [readi] copies. *)
Lemma slice_block s x off m :
  0 ≤ off → 0 ≤ m ≤ BSIZE - off mod BSIZE → Z.of_nat (length (blk s (addr_of s x (off / BSIZE)))) = BSIZE →
  take (Z.to_nat m) (drop (Z.to_nat (off mod BSIZE)) (blk s (addr_of s x (off / BSIZE)))) = slice s x off m.
Proof.
  intros Ho Hm Hlen. pose proof (Z.mod_pos_bound off BSIZE ltac:(done)). apply list_eq. intros k.
  unfold slice. rewrite list_lookup_fmap. destruct (decide (Z.of_nat k < m)) as [Hk|Hk].
  - rewrite lookup_take_lt, lookup_drop by lia. rewrite lookup_seqZ_lt by lia. simpl. unfold fbyte.
    destruct (block_of off (Z.of_nat k) Ho ltac:(lia)) as [-> ->].
    replace (Z.to_nat (off mod BSIZE + Z.of_nat k)) with (Z.to_nat (off mod BSIZE) + k)%nat by lia.
    destruct (lookup_lt_is_Some_2 (blk s (addr_of s x (off / BSIZE))) (Z.to_nat (off mod BSIZE) + k)) as [v Hv]; [lia|].
    by rewrite Hv.
  - rewrite lookup_take_ge by lia. rewrite lookup_seqZ_ge by lia. done.
Qed.

Section File.
Context `{HL : Layout, HW : Wakeups, HB : BlockDev, HBO : !BlockDevOk}.
Context (i : nat) (pid st ops : Z).

(** [bmap] of an allocated block. *)
Lemma bmap_ok s bs ip x bn :
  in_txn s i pid st ops bs ∅ → itable s !! ip = Some x → file_ok s x → 0 ≤ bn → bn * BSIZE < i_size x →
  (length bs < NBUF)%nat →
  ∃ s', bmap ip bn s = Ok (addr_of s x bn) s' ∧ in_txn s' i pid st ops bs ∅ ∧ (∀ m, blk s' m = blk s m) ∧ tframe s s'.
Proof.
  intros Ht Hx Hf Hbn Hsz Hcap. pose proof (fo_alloc _ _ Hf bn Hbn Hsz) as Ha. pose proof (fo_size _ _ Hf) as Hs.
  unfold bmap. erewrite bind_ok by (by apply geti_ok). unfold addr_of in *.
  destruct (Z.ltb_spec bn NDIRECT) as [Hd|Hd].
  - destruct (lookup_lt_is_Some_2 (i_addrs x) (Z.to_nat bn)) as [a Ea]; [rewrite (fo_len _ _ Hf); unfold NDIRECT in *; lia|].
    kstep. rewrite Ea in *. cbn [default from_option id] in *. rewrite (proj2 (Z.eqb_neq a 0)) by done.
    exists s. split_and!; [done|done|done|apply tframe_refl].
  - assert (bn - NDIRECT < NINDIRECT) as Hi by (unfold MAXFILE, NDIRECT, NINDIRECT, BSIZE in *; change (1024 / 4) with 256 in *; lia).
    rewrite (proj2 (Z.ltb_lt _ _) Hi). pose proof (fo_ind _ _ Hf ltac:(unfold BSIZE in *; lia)) as Hind. unfold ind_of in *.
    destruct (lookup_lt_is_Some_2 (i_addrs x) (Z.to_nat NDIRECT)) as [a Ea]; [rewrite (fo_len _ _ Hf); unfold NDIRECT; lia|].
    kstep. rewrite Ea in *. cbn [default from_option id] in *. rewrite (proj2 (Z.eqb_neq a 0)) by done.
    kstep. rewrite (proj2 (Z.eqb_neq a 0)) by done. rewrite (fo_dev _ _ Hf).
    destruct (txn_read i pid st ops s bs ∅ a Ht (lookup_empty _)) as (b & z & s1 & s2 & E1 & Ez & Hz & E2 & Ht2 & Hb2 & _ & Hf2);
      [rewrite map_size_empty; lia|].
    erewrite bind_ok by exact E1. erewrite bind_ok by exact Ez. rewrite Hz.
    rewrite (proj2 (Z.eqb_neq _ 0) Ha). kstep. erewrite bind_ok by exact E2.
    exists s2. split_and!; [done|done|done|done].
Qed.

Lemma file_bound s x off : file_ok s x → 0 ≤ off < i_size x → off / BSIZE * BSIZE < i_size x ∧ 0 ≤ off / BSIZE.
Proof.
  intros Hf Ho. pose proof (Z.div_mod off BSIZE ltac:(done)). pose proof (Z.mod_pos_bound off BSIZE ltac:(done)).
  split; [lia|apply Z.div_pos; [lia|done]].
Qed.

(** How far one round gets, and how many rounds are left. *)
Lemma round_progress off r fuel m :
  0 ≤ off → 0 < r → off mod BSIZE + r ≤ Z.of_nat (S fuel) * BSIZE → m = Z.min r (BSIZE - off mod BSIZE) →
  0 < m ≤ r ∧ m ≤ BSIZE - off mod BSIZE ∧ (m < r → (off + m) mod BSIZE + (r - m) ≤ Z.of_nat fuel * BSIZE).
Proof.
  intros Ho Hr Hf ->. pose proof (Z.mod_pos_bound off BSIZE ltac:(done)) as Hm.
  pose proof (Z.div_mod off BSIZE ltac:(done)) as Hd. split; [lia|]. split; [lia|]. intros Hlt.
  rewrite Z.min_r in * by lia.
  replace (off + (BSIZE - off mod BSIZE)) with ((off / BSIZE + 1) * BSIZE) by lia. rewrite Z.mod_mul by done. lia.
Qed.

Lemma readi_loop_ok fuel s bs ip x off n tot acc :
  in_txn s i pid st ops bs ∅ → itable s !! ip = Some x → file_ok s x → (length bs < NBUF)%nat →
  0 ≤ off → 0 ≤ tot ≤ n → off + (n - tot) ≤ i_size x → (tot < n → off mod BSIZE + (n - tot) ≤ Z.of_nat fuel * BSIZE) →
  ∃ s', readi_loop fuel ip ToLocal off n tot acc s = Ok (n, acc ++ slice s x off (n - tot)) s' ∧
    in_txn s' i pid st ops bs ∅ ∧ (∀ m, blk s' m = blk s m) ∧ tframe s s'.
Proof.
  revert s off tot acc. induction fuel as [|fuel IH]; intros s off tot acc Ht Hx Hf Hcap Ho Htot Hsz Hfuel;
    cbn [readi_loop]; destruct (Z.ltb_spec tot n) as [Hlt|Hge].
  1: { pose proof (Z.mod_pos_bound off BSIZE ltac:(done)). lia. }
  1,3: assert (tot = n) as -> by lia; exists s; rewrite Z.sub_diag; split_and!;
       [unfold slice; by rewrite seqZ_nil, app_nil_r by lia|done|done|apply tframe_refl].
  destruct (file_bound s x off Hf ltac:(lia)) as [Hb0 Hb1]. pose proof (fo_size _ _ Hf) as Hmax.
  erewrite bind_ok by (by apply geti_ok).
  destruct (bmap_ok s bs ip x (off / BSIZE) Ht Hx Hf Hb1 Hb0 Hcap) as (s1 & E1 & Ht1 & Hbl1 & Hf1).
  erewrite bind_ok by exact E1. set (a := addr_of s x (off / BSIZE)) in *.
  rewrite (proj2 (Z.eqb_neq a 0)) by (by apply (fo_alloc _ _ Hf)). rewrite (fo_dev _ _ Hf).
  destruct (txn_read i pid st ops s1 bs ∅ a Ht1 (lookup_empty _)) as (b & z & s2 & s3 & E2 & Ez & Hz & E3 & Ht3 & Hbl3 & _ & Hf3);
    [rewrite map_size_empty; lia|].
  erewrite bind_ok by exact E2. erewrite bind_ok by exact Ez. unfold either_copyout. kstep. erewrite bind_ok by exact E3.
  change (0 =? -1) with false. cbv iota. set (m := Z.min (n - tot) (BSIZE - off mod BSIZE)).
  destruct (round_progress off (n - tot) fuel m Ho ltac:(lia) (Hfuel Hlt) eq_refl) as (Hm & Hm' & Hnext).
  rewrite u32_small by (unfold MAXFILE, NDIRECT, NINDIRECT, BSIZE in *; change (1024 / 4) with 256 in *; lia).
  assert (∀ k, blk s3 k = blk s k) as Hbl by (intros k; by rewrite Hbl3).
  assert (tframe s s3) as Hfr by (by eapply tframe_trans).
  destruct (IH s3 (off + m) (tot + m) (acc ++ slice s x off m)) as (s4 & E4 & Ht4 & Hbl4 & Hf4);
    [done|by rewrite (tframe_itable _ _ Hfr)|by eapply file_ok_ext|done|lia|lia|lia|
     replace (n - (tot + m)) with (n - tot - m) by lia; intros; apply Hnext; lia|].
  exists s4. split_and!; [|done|intros k; by rewrite Hbl4|by eapply tframe_trans].
  rewrite Hz, Hbl1. cbn [advance_target]. unfold a. rewrite slice_block by (try lia; by apply (fo_full _ _ Hf)).
  rewrite E4. do 2 f_equal. rewrite <- app_assoc. f_equal. rewrite (slice_ext s s3) by done.
  replace (n - tot) with (m + (n - (tot + m))) by lia. by rewrite slice_app by lia.
Qed.

Lemma blocks_fuel_enough n o : 0 ≤ n → 0 ≤ o < BSIZE → o + n ≤ Z.of_nat (blocks_fuel n) * BSIZE.
Proof.
  intros Hn Ho. unfold blocks_fuel. pose proof (Z.div_mod n BSIZE ltac:(done)). pose proof (Z.mod_pos_bound n BSIZE ltac:(done)).
  pose proof (Z.div_pos n BSIZE ltac:(lia) ltac:(done)). lia.
Qed.

Lemma readi_ok s bs ip x off n :
  in_txn s i pid st ops bs ∅ → itable s !! ip = Some x → file_ok s x → (length bs < NBUF)%nat →
  0 ≤ off < 2 ^ 32 → 0 ≤ n < 2 ^ 32 →
  let len := if (i_size x <? off) || (2 ^ 32 <=? off + n) then 0 else Z.min n (i_size x - off) in
  ∃ s', readi ip ToLocal off n s = Ok (len, slice s x off len) s' ∧ in_txn s' i pid st ops bs ∅ ∧
    (∀ m, blk s' m = blk s m) ∧ tframe s s'.
Proof.
  intros Ht Hx Hf Hcap Ho Hn len. pose proof (fo_size _ _ Hf) as Hmax.
  assert (i_size x < 2 ^ 31) as Hsz by (unfold MAXFILE, NDIRECT, NINDIRECT, BSIZE in *; change (1024 / 4) with 256 in *; lia).
  assert (u32 (off + n) = if 2 ^ 32 <=? off + n then off + n - 2 ^ 32 else off + n) as Hu.
  { destruct (Z.leb_spec (2 ^ 32) (off + n)); [|by apply u32_small; lia]. unfold u32. symmetry.
    apply (Z.mod_unique_pos _ _ 1); lia. }
  unfold readi. erewrite bind_ok by (by apply geti_ok). rewrite Hu. subst len.
  destruct (Z.ltb_spec (i_size x) off) as [Hgt|Hle]; cbn [orb].
  { rewrite (proj2 (Z.gtb_lt off (i_size x))) by lia. exists s. split_and!; try done. apply tframe_refl. }
  replace (off >? i_size x) with false by lia. cbn [orb].
  destruct (Z.leb_spec (2 ^ 32) (off + n)) as [Hw|Hw].
  { replace (off + n - 2 ^ 32 <? off) with true by lia. exists s. split_and!; try done. apply tframe_refl. }
  replace (off + n <? off) with false by lia.
  replace (if off + n >? i_size x then i_size x - off else n) with (Z.min n (i_size x - off)) by (destruct (Z.gtb_spec (off + n) (i_size x)); lia).
  set (len := Z.min n (i_size x - off)). pose proof (Z.mod_pos_bound off BSIZE ltac:(done)).
  destruct (readi_loop_ok (blocks_fuel len) s bs ip x off len 0 []) as (s' & E & Ht' & Hb & Hfr);
    [done|done|done|done|lia|lia|lia|intros; rewrite Z.sub_0_r; apply blocks_fuel_enough; lia|].
  exists s'. split_and!; [|done|done|done].
  erewrite bind_ok by exact E. rewrite Z.sub_0_r. cbn [fst snd app]. by rewrite s32_small by lia.
Qed.

(** C12: [readi] into a kernel variable always returns; it delivers exactly the
    bytes of the file from [off] on, as many as were asked for or as the file
    has, and none for an offset past the end or a range that wraps.  No block
    and no inode changes. *)
Theorem readi_correct s bs ip x off n :
  in_txn s i pid st ops bs ∅ → itable s !! ip = Some x → file_ok s x → (length bs < NBUF)%nat →
  0 ≤ off < 2 ^ 32 → 0 ≤ n < 2 ^ 32 →
  let len := if (i_size x <? off) || (2 ^ 32 <=? off + n) then 0 else Z.min n (i_size x - off) in
  ∃ s', readi ip ToLocal off n s = Ok (len, slice s x off len) s' ∧ in_txn s' i pid st ops bs ∅ ∧
    (∀ m, blk s' m = blk s m) ∧ itable s' = itable s.
Proof.
  intros Ht Hx Hf Hcap Ho Hn len. destruct (readi_ok s bs ip x off n Ht Hx Hf Hcap Ho Hn) as (s' & E & Ht' & Hb & Hfr).
  exists s'. split_and!; [done|done|done|by apply tframe_itable].
Qed.

(** ** Writing in place *)

(** Comparisons of integers whose outcome is known. *)
Ltac zcmp :=
  first [apply Z.leb_gt | apply Z.ltb_ge | apply Z.leb_le | apply Z.ltb_lt
        | symmetry; first [apply Z.leb_gt | apply Z.ltb_ge | apply Z.leb_le | apply Z.ltb_lt]]; lia.

(** The file's blocks are distinct blocks outside the log, none of them the
    indirect block or the block of the inode. *)
Record file_wr (s : kst) (x : inode) : Prop := {
  fw_ok : file_ok s x;
  fw_inj : ∀ a b, 0 ≤ a → a * BSIZE < i_size x → 0 ≤ b → b * BSIZE < i_size x → addr_of s x a = addr_of s x b → a = b;
  fw_home : ∀ a, 0 ≤ a → a * BSIZE < i_size x → 0 ≤ addr_of s x a < 2 ^ 31 ∧ outside st (addr_of s x a) ∧
    addr_of s x a ≠ ind_of x ∧ addr_of s x a ≠ IBLOCK (i_inum x) (sb s);
  fw_ind : ind_of x ≠ IBLOCK (i_inum x) (sb s)
}.

Lemma file_wr_ext s s' x : (∀ m, blk s' m = blk s m) → sb s' = sb s → file_wr s x → file_wr s' x.
Proof.
  intros Hb Hs [Hok Hinj Hh Hi]. pose proof (λ bn, addr_of_ext s s' x bn Hb) as Ha.
  split; [by eapply file_ok_ext|intros a b; rewrite !Ha; apply Hinj|intros a; rewrite Ha, Hs; apply Hh|by rewrite Hs].
Qed.

(** The bytes of the file after [data] is written at [off]. *)
Definition over (data : list Z) (off : Z) (f : Z → Z) (k : Z) : Z :=
  if (off <=? k) && (k <? off + Z.of_nat (length data)) then default 0 (data !! Z.to_nat (k - off)) else f k.

Lemma over_app d1 d2 off f k :
  0 ≤ off → over d2 (off + Z.of_nat (length d1)) (over d1 off f) k = over (d1 ++ d2) off f k.
Proof.
  intros Ho. unfold over. rewrite length_app. destruct (Z.leb_spec off k); cbn [andb].
  2:{ by replace (off + Z.of_nat (length d1) <=? k) with false by zcmp. }
  destruct (Z.ltb_spec k (off + Z.of_nat (length d1))).
  - replace (off + Z.of_nat (length d1) <=? k) with false by zcmp. cbn [andb].
    replace (k <? off + Z.of_nat (length d1 + length d2)) with true by zcmp.
    by rewrite lookup_app_l by lia.
  - replace (off + Z.of_nat (length d1) <=? k) with true by zcmp. cbn [andb].
    replace (off + Z.of_nat (length d1) + Z.of_nat (length d2)) with (off + Z.of_nat (length d1 + length d2)) by lia.
    destruct (Z.ltb_spec k (off + Z.of_nat (length d1 + length d2))); [|done].
    rewrite lookup_app_r by lia. do 2 f_equal. lia.
Qed.

(** A change of one block of the file. *)
Lemma file_block_written s s' x off data :
  file_wr s x → 0 ≤ off → off + Z.of_nat (length data) ≤ i_size x → off < i_size x →
  Z.of_nat (length data) ≤ BSIZE - off mod BSIZE → sb s' = sb s →
  (∀ m, blk s' m = if decide (m = addr_of s x (off / BSIZE))
                   then splice (blk s (addr_of s x (off / BSIZE))) (Z.to_nat (off mod BSIZE)) data else blk s m) →
  file_wr s' x ∧ (∀ bn, addr_of s' x bn = addr_of s x bn) ∧
  ∀ k, 0 ≤ k < i_size x → fbyte s' x k = over data off (fbyte s x) k.
Proof.
  intros [Hok Hinj Hhome Hind] Ho Hlen Hlt Hfit Hsb Hb. pose proof (Z.mod_pos_bound off BSIZE ltac:(done)) as Hmod.
  destruct (file_bound s x off Hok ltac:(lia)) as [Hb0 Hb1].
  set (a := addr_of s x (off / BSIZE)) in *. destruct (Hhome _ Hb1 Hb0) as (_ & _ & Hai & _). fold a in Hai.
  assert (∀ bn, addr_of s' x bn = addr_of s x bn) as Haddr
    by (intros bn; unfold addr_of; by rewrite Hb, decide_False by congruence).
  pose proof (fo_full _ _ Hok _ Hb1 Hb0) as Hfull. fold a in Hfull.
  split; [|split; [done|]].
  - split; [|intros p q; rewrite !Haddr; apply Hinj|intros p; rewrite Haddr, Hsb; apply Hhome|by rewrite Hsb].
    destruct Hok as [? ? ? ? Hal Hfu]. split; try done; intros bn; rewrite Haddr; [apply Hal|].
    intros H1 H2. rewrite Hb. case_decide as E; [|by apply Hfu]. rewrite length_splice; [done|lia].
  - intros k Hk. unfold fbyte. rewrite Haddr, Hb. destruct (file_bound s x k Hok Hk) as [Hk0 Hk1].
    pose proof (Z.mod_pos_bound k BSIZE ltac:(done)). pose proof (Z.div_mod k BSIZE ltac:(done)).
    pose proof (Z.div_mod off BSIZE ltac:(done)). unfold over. case_decide as E.
    + apply Hinj in E; [|done..]. rewrite splice_lookup by lia.
      destruct (Z.leb_spec off k); cbn [andb].
      2:{ rewrite decide_False by lia. by rewrite E. }
      destruct (Z.ltb_spec k (off + Z.of_nat (length data))).
      * rewrite decide_True by lia. do 2 f_equal. lia.
      * rewrite decide_False by lia. by rewrite E.
    + assert (k / BSIZE ≠ off / BSIZE) as Hne by (intros Ek; apply E; unfold a; by rewrite Ek).
      replace ((off <=? k) && (k <? off + Z.of_nat (length data))) with false; [done|].
      destruct (Z.leb_spec off k); cbn [andb]; [|done]. symmetry. apply Z.ltb_ge.
      destruct (decide (off + Z.of_nat (length data) ≤ k)); [done|]. exfalso. apply Hne.
      replace k with (off + (k - off)) by lia. apply block_of; lia.
Qed.

(** One block written: locked, overwritten, logged and released. *)
Lemma write_block s bs x off data :
  in_txn s i pid st ops bs ∅ → 1 ≤ ops → file_wr s x → 0 ≤ off < i_size x → Z.of_nat (length bs) < LOGBLOCKS →
  let a := addr_of s x (off / BSIZE) in
  let f := λ d, splice d (Z.to_nat (off mod BSIZE)) data in
  ∃ b s1 s2, bread ROOTDEV a s = Ok b s1 ∧ tframe s s1 ∧
    (updb b (λ x, x <| b_data ::= f |>) ;;; log_write b ;;; brelse b) s1 = Ok tt s2 ∧
    in_txn s2 i pid st ops (logged bs a) ∅ ∧ (∀ m, blk s2 m = if decide (m = a) then f (blk s a) else blk s m) ∧ tframe s s2.
Proof.
  intros Ht Hops Hw Ho Hl a f. destruct (file_bound s x off (fw_ok _ _ Hw) Ho) as [Hb0 Hb1].
  destruct (fw_home _ _ Hw _ Hb1 Hb0) as (Har & Hao & _). fold a in Har, Hao.
  destruct (txn_bread i pid st ops s bs ∅ a Ht (lookup_empty _)) as (b & s1 & E1 & Ht1 & Hbl1 & Hf1).
  { rewrite map_size_empty. unfold LOGBLOCKS, MAXOPBLOCKS, NBUF in *. lia. }
  destruct (txn_commit_block i pid st ops s1 bs _ a b f Ht1 Hops (lookup_insert_eq _ _ _) Hl Har Hao) as (s2 & E2 & Ht2 & Hbl2 & Hf2).
  rewrite delete_insert_id in Ht2 by done. exists b, s1, s2. split_and!; try done; [|by eapply tframe_trans].
  intros m. rewrite Hbl2, !Hbl1. done.
Qed.

(** [s'] is [s] with [data] written at [off] of the file. *)
Record written (s s' : kst) (x : inode) (data : list Z) (off : Z) : Prop := {
  wn_file : file_wr s' x;
  wn_addr : ∀ bn, addr_of s' x bn = addr_of s x bn;
  wn_bytes : ∀ k, 0 ≤ k < i_size x → fbyte s' x k = over data off (fbyte s x) k;
  wn_blocks : ∀ m, (∀ bn, 0 ≤ bn → bn * BSIZE < i_size x → m ≠ addr_of s x bn) → blk s' m = blk s m;
  wn_frame : tframe s s'
}.

Lemma written_nil s x off : file_wr s x → written s s x [] off.
Proof.
  intros Hw. split; try done; [|apply tframe_refl]. intros k Hk. unfold over. change (Z.of_nat (length [])) with 0.
  destruct (Z.leb_spec off k), (Z.ltb_spec k (off + 0)); (done || lia).
Qed.

Lemma written_app s s1 s2 x d1 d2 off :
  0 ≤ off → written s s1 x d1 off → written s1 s2 x d2 (off + Z.of_nat (length d1)) → written s s2 x (d1 ++ d2) off.
Proof.
  intros Ho [Hw1 Ha1 Hy1 Hb1 Hf1] [Hw2 Ha2 Hy2 Hb2 Hf2]. split; [done|intros; by rewrite Ha2| | |by eapply tframe_trans].
  - intros k Hk. rewrite Hy2 by done. rewrite <- over_app by done. unfold over at 1 3. by rewrite Hy1.
  - intros m Hm. rewrite Hb2; [by apply Hb1|]. intros bn H1 H2. rewrite Ha1. by apply Hm.
Qed.

Lemma writei_round fuel s bs ip x off n tot data m :
  in_txn s i pid st ops bs ∅ → 1 ≤ ops → itable s !! ip = Some x → file_wr s x → Z.of_nat (length bs) < LOGBLOCKS →
  0 ≤ off → 0 ≤ tot < n → off + (n - tot) ≤ i_size x → Z.of_nat (length data) = n - tot →
  m = Z.min (n - tot) (BSIZE - off mod BSIZE) →
  ∃ s', writei_loop (S fuel) ip (FromLocal data) off n tot s =
        writei_loop fuel ip (FromLocal (drop (Z.to_nat m) data)) (off + m) n (tot + m) s' ∧
    in_txn s' i pid st ops (logged bs (addr_of s x (off / BSIZE))) ∅ ∧ written s s' x (take (Z.to_nat m) data) off.
Proof.
  intros Ht Hops Hx Hw Hcap Ho Htot Hsz Hdata Hm. pose proof (fw_ok _ _ Hw) as Hf.
  pose proof (Z.mod_pos_bound off BSIZE ltac:(done)) as Hmod. pose proof (fo_size _ _ Hf) as Hmax.
  destruct (file_bound s x off Hf ltac:(lia)) as [Hb0 Hb1].
  assert (length bs < NBUF)%nat as HN by (unfold LOGBLOCKS, MAXOPBLOCKS, NBUF in *; lia).
  set (d1 := take (Z.to_nat m) data). assert (Z.of_nat (length d1) = m) as Hd1 by (unfold d1; rewrite length_take; lia).
  cbn [writei_loop]. rewrite (proj2 (Z.ltb_lt tot n)) by lia. erewrite bind_ok by (by apply geti_ok).
  destruct (bmap_ok s bs ip x (off / BSIZE) Ht Hx Hf Hb1 Hb0 HN) as (s1 & E1 & Ht1 & Hbl1 & Hf1).
  erewrite bind_ok by exact E1. rewrite (proj2 (Z.eqb_neq _ 0) (fo_alloc _ _ Hf _ Hb1 Hb0)), (fo_dev _ _ Hf), <- Hm.
  assert (file_wr s1 x) as Hw1 by (eapply file_wr_ext; [exact Hbl1|by apply tframe_sb|done]).
  destruct (write_block s1 bs x off d1 Ht1 Hops Hw1 ltac:(lia) Hcap) as (b & s2 & s3 & E2 & Hf2 & E3 & Ht3 & Hbl3 & Hf3).
  rewrite (addr_of_ext s s1) in * by done. set (a := addr_of s x (off / BSIZE)) in *.
  erewrite bind_ok by exact E2. unfold either_copyin. kstep. cbn [fst snd]. fold d1. change (0 =? -1) with false. cbv iota.
  apply bind_inv_ok in E3 as ([] & sa & Ea & E3). apply bind_inv_ok in E3 as ([] & sb' & Eb & Ec).
  erewrite bind_ok by exact Ea. erewrite bind_ok by exact Eb. erewrite bind_ok by exact Ec.
  rewrite u32_small by (unfold MAXFILE, NDIRECT, NINDIRECT, BSIZE in *; change (1024 / 4) with 256 in *; lia).
  assert (tframe s s3) as Hfr by (eapply tframe_trans; [exact Hf1|exact Hf3]).
  assert (∀ k, blk s3 k = if decide (k = a) then splice (blk s a) (Z.to_nat (off mod BSIZE)) d1 else blk s k) as Hbl
    by (intros k; rewrite Hbl3, !Hbl1; done).
  destruct (file_block_written s s3 x off d1 Hw Ho ltac:(lia) ltac:(lia) ltac:(lia) (tframe_sb _ _ Hfr) Hbl) as (Hw3 & Ha3 & Hby).
  exists s3. split; [done|]. split; [done|]. split; try done.
  intros k Hk. rewrite Hbl, decide_False; [done|]. by apply Hk.
Qed.

Lemma writei_loop_ok fuel s bs ip x off n tot data :
  in_txn s i pid st ops bs ∅ → 1 ≤ ops → itable s !! ip = Some x → file_wr s x →
  Z.of_nat (length bs) + Z.of_nat fuel ≤ LOGBLOCKS →
  0 ≤ off → 0 ≤ tot ≤ n → Z.of_nat (length data) = n - tot → off + (n - tot) ≤ i_size x →
  (tot < n → off mod BSIZE + (n - tot) ≤ Z.of_nat fuel * BSIZE) →
  ∃ s' bs', writei_loop fuel ip (FromLocal data) off n tot s = Ok (n, off + (n - tot)) s' ∧
    in_txn s' i pid st ops bs' ∅ ∧ Z.of_nat (length bs') ≤ Z.of_nat (length bs) + Z.of_nat fuel ∧ written s s' x data off.
Proof.
  revert s bs off tot data. induction fuel as [|fuel IH];
    intros s bs off tot data Ht Hops Hx Hw Hcap Ho Htot Hdata Hsz Hfuel; destruct (decide (tot < n)) as [Hlt|Hge].
  1: { pose proof (Z.mod_pos_bound off BSIZE ltac:(done)). lia. }
  1,3: assert (tot = n) as -> by lia; destruct data; [|simpl in Hdata; lia]; exists s, bs; cbn [writei_loop];
       rewrite Z.ltb_irrefl, Z.sub_diag, Z.add_0_r; split_and!; [done|done|lia|by apply written_nil].
  set (m := Z.min (n - tot) (BSIZE - off mod BSIZE)).
  destruct (round_progress off (n - tot) fuel m Ho ltac:(lia) (Hfuel Hlt) eq_refl) as (Hm & Hm' & Hnext).
  destruct (writei_round fuel s bs ip x off n tot data m Ht Hops Hx Hw ltac:(lia) Ho ltac:(lia) Hsz Hdata eq_refl) as (s1 & E1 & Ht1 & Hn1).
  pose proof (length_logged bs (addr_of s x (off / BSIZE))) as Hll.
  destruct (IH s1 _ (off + m) (tot + m) (drop (Z.to_nat m) data) Ht1) as (s2 & bs2 & E2 & Ht2 & Hl2 & Hn2);
    [done|by rewrite (tframe_itable _ _ (wn_frame _ _ _ _ _ Hn1))|apply Hn1|lia|lia|lia|rewrite length_drop; lia|lia|
     replace (n - (tot + m)) with (n - tot - m) by lia; intros; apply Hnext; lia|].
  exists s2, bs2. rewrite E1, E2. split_and!; [do 2 f_equal; lia|done|lia|].
  rewrite <- (take_drop (Z.to_nat m) data). eapply written_app; [done|exact Hn1|].
  rewrite length_take. by replace (off + Z.of_nat (Z.to_nat m `min` length data)) with (off + m) by lia.
Qed.

(** Storing the inode leaves the contents alone. *)
Lemma fbyte_inode s s' x k f :
  file_wr s x → 0 ≤ k < i_size x →
  (∀ m, blk s' m = if decide (m = IBLOCK (i_inum x) (sb s)) then f m else blk s m) → fbyte s' x k = fbyte s x k.
Proof.
  intros Hw Hk Hb. destruct (file_bound s x k (fw_ok _ _ Hw) Hk) as [H0 H1].
  assert (addr_of s' x (k / BSIZE) = addr_of s x (k / BSIZE)) as Ea
    by (unfold addr_of; by rewrite Hb, decide_False by apply Hw).
  unfold fbyte. rewrite Ea, Hb, decide_False by (by apply (fw_home _ _ Hw)). done.
Qed.

(** C11: [writei] from a kernel variable, inside a file: with room in the log it
    returns the length written; the file then has the data at [off] and its
    old bytes everywhere else, the inode is stored, and no block changes but
    those of the file and that of the inode. *)
Theorem writei_correct s bs ip x off data :
  in_txn s i pid st ops bs ∅ → 1 ≤ ops → itable s !! ip = Some x → file_wr s x →
  0 ≤ i_inum x → inode_ok x → inode_geom s st (i_inum x) →
  let n := Z.of_nat (length data) in
  0 ≤ off → off + n ≤ i_size x → Z.of_nat (length bs) + Z.of_nat (blocks_fuel n) < LOGBLOCKS →
  ∃ s' bs', writei ip (FromLocal data) off n s = Ok n s' ∧ in_txn s' i pid st ops bs' ∅ ∧
    (∀ k, 0 ≤ k < i_size x → fbyte s' x k = over data off (fbyte s x) k) ∧
    (∀ y, dinode s' (i_inum x) y = with_fields x y) ∧
    (∀ m, (∀ bn, 0 ≤ bn → bn * BSIZE < i_size x → m ≠ addr_of s x bn) → m ≠ IBLOCK (i_inum x) (sb s) → blk s' m = blk s m) ∧
    itable s' = itable s.
Proof.
  intros Ht Hops Hx Hw Hinum Hok Hg n Ho Hsz Hcap. pose proof (fo_size _ _ (fw_ok _ _ Hw)) as Hmax.
  assert (i_size x < 2 ^ 31) as Hs31 by (unfold MAXFILE, NDIRECT, NINDIRECT, BSIZE in *; change (1024 / 4) with 256 in *; lia).
  pose proof (Z.mod_pos_bound off BSIZE ltac:(done)).
  destruct (writei_loop_ok (blocks_fuel n) s bs ip x off n 0 data Ht Hops Hx Hw) as (s1 & bs1 & E1 & Ht1 & Hl1 & Hn1);
    [lia|lia|lia|lia|lia|intros; rewrite Z.sub_0_r; apply blocks_fuel_enough; lia|].
  destruct Hn1 as [Hw1 Ha1 Hy1 Hb1 Hf1]. pose proof (tframe_sb _ _ Hf1) as Hsb1.
  assert (blk s1 (IBLOCK (i_inum x) (sb s)) = blk s (IBLOCK (i_inum x) (sb s))) as HbI
    by (apply Hb1; intros bn H1 H2 E; by destruct (fw_home _ _ Hw bn H1 H2) as (_ & _ & _ & [])).
  assert (inode_geom s1 st (i_inum x)) as Hg1 by (destruct Hg; split; rewrite Hsb1, ?HbI; done).
  destruct (iupdate_ok i pid st ops s1 bs1 ∅ ip x Ht1 Hops) as (s2 & E2 & Ht2 & Hb2 & Hf2);
    [by rewrite (tframe_itable _ _ Hf1)|apply Hw|done|apply lookup_empty|
     rewrite map_size_empty; unfold LOGBLOCKS, MAXOPBLOCKS, NBUF in *; lia|lia|].
  exists s2, (logged bs1 (IBLOCK (i_inum x) (sb s1))). split_and!; [|done| | | |by rewrite (tframe_itable _ _ Hf2), (tframe_itable _ _ Hf1)].
  - unfold writei. erewrite bind_ok by (by apply geti_ok). rewrite u32_small by lia.
    replace (off >? i_size x) with false by lia. replace (off + n <? off) with false by lia. cbn [orb].
    replace (off + n >? MAXFILE * BSIZE) with false by lia. erewrite bind_ok by exact E1. rewrite Z.sub_0_r.
    erewrite bind_ok by (apply geti_ok; by rewrite (tframe_itable _ _ Hf1)).
    replace (off + n >? i_size x) with false by lia. kstep. erewrite bind_ok by exact E2. by rewrite s32_small by lia.
  - intros k Hk. rewrite (fbyte_inode s1 s2 x k _ Hw1 Hk Hb2). by apply Hy1.
  - intros y. unfold dinode. rewrite (tframe_sb _ _ Hf2), Hb2, decide_True by done.
    apply load_store_dinode; [done|]. pose proof (DI_OFF_bound (i_inum x)). pose proof (ig_len _ _ _ Hg1). lia.
  - intros m Hm HmI. rewrite Hb2, Hsb1, decide_False by done. by apply Hb1.
Qed.

End File.

(** ** A file of one block *)

#[local] Instance file_layout : Layout := Build_Layout 0x80020000 0x80010000 0x80009000 0 0 0 0 0.
#[local] Instance file_wakeups : Wakeups := 0%nat.
#[local] Instance file_disk : BlockDev := ram_disk.
#[local] Instance file_disk_ok : BlockDevOk := ram_disk_ok.

Lemma one_block bn : 0 ≤ bn → bn * BSIZE < 1024 → bn = 0.
Proof. unfold BSIZE. lia. Qed.

Lemma demo_file_ok : file_ok inode_boot (demo_inode 1 1).
Proof.
  split; cbn [i_dev i_size i_addrs demo_inode]; [done|done|done|done| |];
    intros bn H0 H1; rewrite (one_block bn H0 H1); [done|].
  change (addr_of inode_boot (demo_inode 1 1) 0) with 46.
  unfold inode_boot. rewrite blk_itable, fs_boot_blk. reflexivity.
Qed.

Lemma demo_file_wr : file_wr 2 inode_boot (demo_inode 1 1).
Proof.
  split; cbn [i_size i_inum demo_inode]; [exact demo_file_ok| | |done].
  - intros a b H0 H1 H2 H3 _. by rewrite (one_block a H0 H1), (one_block b H2 H3).
  - intros a H0 H1. rewrite (one_block a H0 H1). change (addr_of inode_boot (demo_inode 1 1) 0) with 46.
    split; [lia|]. split; [right; done|]. split; [done|]. vm_compute. discriminate.
Qed.

Lemma readi_correct_witness :
  ∃ s', readi 0 ToLocal 1020 100 inode_boot = Ok (4, slice inode_boot (demo_inode 1 1) 1020 4) s'.
Proof.
  destruct (readi_correct 0 1 2 1 inode_boot [] 0 (demo_inode 1 1) 1020 100 inode_boot_txn eq_refl demo_file_ok
              ltac:(unfold NBUF; cbn; lia) ltac:(lia) ltac:(lia)) as (s' & E & _).
  exists s'. exact E.
Defined.

Lemma writei_correct_witness :
  ∃ s', writei 0 (FromLocal [7; 8; 9]) 5 3 inode_boot = Ok 3 s' ∧
    fbyte s' (demo_inode 1 1) 6 = 8 ∧ fbyte s' (demo_inode 1 1) 9 = fbyte inode_boot (demo_inode 1 1) 9.
Proof.
  destruct (writei_correct 0 1 2 1 inode_boot [] 0 (demo_inode 1 1) 5 [7; 8; 9] inode_boot_txn ltac:(lia) eq_refl
              demo_file_wr ltac:(cbn; lia) (demo_inode_ok 1 1) (inode_boot_geom 1 ltac:(lia))
              ltac:(lia) ltac:(cbn; lia) ltac:(reflexivity)) as (s' & bs' & E & _ & Hy & _).
  exists s'. split; [exact E|]. clear E.
  split; [apply (Hy 6); cbn; lia|apply (Hy 9); cbn; lia].
Defined.
