(* ===== verification/Dir.v ===== *)
(** * Directories and path names ([kernel/fs.c])

    Directory entries are 16 bytes: an inode number and a name of [DIRSIZ]
    bytes that need not end in a NUL.  A path is the list of bytes of a C
    string from the current position, its NUL included. *)

From Stdlib Require Import ZArith Lia.
From S2P Require Import Prelude Params CString State Process Vm Bytes Sleeplock Bio Log Fs.
From stdpp Require Import base gmap strings numbers list.

Open Scope Z_scope.

Definition namecmp (s t : list Z) : option Z := strncmp s t DIRSIZ.

Definition de_inum (de : list Z) : Z := get16 de 0.
Definition de_name (de : list Z) : list Z := drop 2 de.
Definition mk_dirent (inum : Z) (name : list Z) : list Z := le_encode 2 inum ++ name.

(** ** Path elements *)

Definition SLASH : Z := 47.

Fixpoint skip_slashes (path : list Z) : list Z :=
  match path with
  | c :: path' => if c =? SLASH then skip_slashes path' else path
  | [] => []
  end.

(** The characters up to the next slash or NUL, and what follows. *)
Fixpoint path_elem (path : list Z) : list Z * list Z :=
  match path with
  | c :: path' =>
      if (c =? SLASH) || (c =? 0) then ([], path)
      else let '(e, rest) := path_elem path' in (c :: e, rest)
  | [] => ([], [])
  end.

(** The [name] array after the element [e] is copied into it. *)
Definition copy_elem (name e : list Z) : list Z :=
  if Z.of_nat (length e) >=? DIRSIZ then splice name 0 (take (Z.to_nat DIRSIZ) e)
  else splice name 0 (e ++ [0]).

(** [None] when the C code reads past the end of the string; [Some None] for
    a null result; otherwise the rest of the path and the new name. *)
Definition skipelem (path name : list Z) : option (option (list Z * list Z)) :=
  match skip_slashes path with
  | [] => None
  | (c :: _) as p =>
      if c =? 0 then Some None
      else
        let '(e, rest) := path_elem p in
        match skip_slashes rest with
        | [] => None
        | path' => Some (Some (path', copy_elem name e))
        end
  end.

Section Dir.
Context `{Layout, Wakeups, BlockDev}.

(** ** Directories *)

Definition dir_fuel (size : Z) : nat := Z.to_nat (size / DIRENT_SIZE + 2).

(** One [readi] of a whole entry. *)
Definition read_dirent (dp : nat) (off : Z) (msg : string) : KM (list Z) :=
  r <- readi dp ToLocal off DIRENT_SIZE ;;
  if negb (fst r =? DIRENT_SIZE) then panic msg else ret (snd r).

(** The entry found with its offset ([*poff]). *)
Fixpoint dirlookup_loop (fuel : nat) (dp : nat) (name : list Z) (off : Z) : KM (option (nat * Z)) :=
  x <- geti dp ;;
  if off <? i_size x then
    match fuel with
    | O => nofuel
    | S fuel' =>
        de <- read_dirent dp off "dirlookup read" ;;
        if de_inum de =? 0 then dirlookup_loop fuel' dp name (u32 (off + DIRENT_SIZE))
        else
          c <- in_range (namecmp name (de_name de)) ;;
          if c =? 0 then ip <- iget (i_dev x) (de_inum de) ;; ret (Some (ip, off))
          else dirlookup_loop fuel' dp name (u32 (off + DIRENT_SIZE))
    end
  else ret None.

Definition dirlookup (dp : nat) (name : list Z) : KM (option (nat * Z)) :=
  x <- geti dp ;;
  if negb (i_type x =? T_DIR) then panic "dirlookup not DIR"
  else dirlookup_loop (dir_fuel (i_size x)) dp name 0.

(** The offset of the first empty entry, or of the end, with the last entry
    read. *)
Fixpoint empty_dirent (fuel : nat) (dp : nat) (off : Z) (de : list Z) : KM (Z * list Z) :=
  x <- geti dp ;;
  if off <? i_size x then
    match fuel with
    | O => nofuel
    | S fuel' =>
        de <- read_dirent dp off "dirlink read" ;;
        if de_inum de =? 0 then ret (off, de) else empty_dirent fuel' dp (off + DIRENT_SIZE) de
    end
  else ret (off, de).

(** [de] is uninitialised on the stack; [strncpy] and the assignment fill it
    completely. *)
Definition dirlink (dp : nat) (name : list Z) (inum : Z) : KM Z :=
  r <- dirlookup dp name ;;
  match r with
  | Some (ip, _) => iput ip ;;; ret (-1)
  | None =>
      x <- geti dp ;;
      r <- empty_dirent (dir_fuel (i_size x)) dp 0 (replicate (Z.to_nat DIRENT_SIZE) 0) ;;
      let '(off, de) := r in
      de_name' <- in_range (strncpy (de_name de) name DIRSIZ) ;;
      n <- writei dp (FromLocal (mk_dirent inum de_name')) off DIRENT_SIZE ;;
      ret (if negb (n =? DIRENT_SIZE) then -1 else 0)
  end.

(** ** Paths *)

(** [while((path = skipelem(path, name)) != 0)], from inode [ip]; each
    element uses at least one character. *)
Fixpoint namex_loop (fuel : nat) (ip : nat) (path : list Z) (parent : bool) (name : list Z) : KM (option nat * list Z) :=
  o <- in_range (skipelem path name) ;;
  match o with
  | None => if parent then iput ip ;;; ret (None, name) else ret (Some ip, name)
  | Some (path', name') =>
      match fuel with
      | O => nofuel
      | S fuel' =>
          ilock ip ;;;
          x <- geti ip ;;
          if negb (i_type x =? T_DIR) then iunlockput ip ;;; ret (None, name')
          else if parent && (default 0 (head path') =? 0) then iunlock ip ;;; ret (Some ip, name')
          else
            r <- dirlookup ip name' ;;
            match r with
            | None => iunlockput ip ;;; ret (None, name')
            | Some (next, _) => iunlockput ip ;;; namex_loop fuel' next path' parent name'
            end
      end
  end.

(** Returns the inode with the contents of [name]. *)
Definition namex (path : list Z) (parent : bool) (name : list Z) : KM (option nat * list Z) :=
  c <- in_range (head path) ;;
  ip <- (if c =? SLASH then iget ROOTDEV ROOTINO
         else i <- curproc ;; p <- getp i ;; cwd <- in_range (p_cwd p) ;; idup cwd) ;;
  namex_loop (length path) ip path parent name.

Definition namei (path : list Z) : KM (option nat) :=
  r <- namex path false (replicate (Z.to_nat DIRSIZ) 0) ;; ret (fst r).

Definition nameiparent (path name : list Z) : KM (option nat * list Z) := namex path true name.

End Dir.
