(* ===== verification/FsDir.v ===== *)
(** * The inode table and directory lookup

    [iget] and [dirlookup] of [kernel/fs.c]: the table of inodes in memory has
    at most one entry for an inode, and a directory is searched for the first
    entry with a name. *)

From Stdlib Require Import ZArith Lia.
From S2P Require Import Prelude Params CString State Process Vm Bytes Sleeplock Bio BioRep Cache Log LogRep Crash Txn Fs FsRep FsAlloc FsInode FsFile Dir.
From stdpp Require Import base gmap strings numbers list.

Open Scope Z_scope.

(** ** iget *)

Definition is_entry (dev inum : Z) (x : inode) : bool :=
  (i_ref x >? 0) && (i_dev x =? dev) && (i_inum x =? inum).
Definition is_free (x : inode) : bool := i_ref x =? 0.

Lemma iget_scan_spec dev inum l k e :
  fst (iget_scan dev inum l k e) = find_from (is_entry dev inum) l k ∧
  (find_from (is_entry dev inum) l k = None →
   snd (iget_scan dev inum l k e) = match e with Some _ => e | None => find_from is_free l k end).
Proof.
  revert k e. induction l as [|x l IH]; intros k e; simpl; [by destruct e|].
  fold (is_entry dev inum x). destruct (is_entry dev inum x); [done|]. fold (is_free x).
  destruct (IH (S k) (match e with Some _ => e | None => if is_free x then Some k else None end)) as [-> H].
  split; [done|]. intros Hn. rewrite H by done. destruct e; [done|]. by destruct (is_free x).
Qed.

(** The entry [iget] returns: one more reference to a known inode, or a fresh
    entry to be read from the disk. *)
Definition one_more (x : inode) : inode := x <| i_ref := s32 (i_ref x + 1) |>.
Definition fresh_entry (dev inum : Z) (x : inode) : inode :=
  x <| i_dev := dev |> <| i_inum := inum |> <| i_ref := 1 |> <| i_valid := 0 |>.

Lemma iget_ok s dev inum :
  Litable ∉ held s →
  iget dev inum s =
  match find_first (is_entry dev inum) (itable s) with
  | Some j => match itable s !! j with
              | Some x => Ok j (s <| itable := <[j := one_more x]> (itable s) |>) | None => Fault end
  | None => match find_first is_free (itable s) with
            | Some j => match itable s !! j with
                        | Some x => Ok j (s <| itable := <[j := fresh_entry dev inum x]> (itable s) |>) | None => Fault end
            | None => Panic "iget: no inodes"
            end
  end.
Proof.
  intros Hn. unfold iget, find_first. kcall. kstep. destruct (iget_scan_spec dev inum (itable s) 0 None) as [Hf Hs].
  destruct (iget_scan dev inum (itable s) 0 None) as [h e]. simpl in Hf, Hs. subst h.
  destruct (find_from (is_entry dev inum) (itable s) 0) as [j|] eqn:Ej.
  - apply find_from_Some in Ej as (n & x & -> & Hx & _). simpl in *. rewrite Hx.
    erewrite bind_ok by (apply updi_ok; rsimpl; exact Hx). krel. f_equal.
  - rewrite Hs by done. destruct (find_from is_free (itable s) 0) as [j|] eqn:Ek; [|done].
    apply find_from_Some in Ek as (n & x & -> & Hx & _). simpl in *. rewrite Hx.
    erewrite bind_ok by (apply updi_ok; rsimpl; exact Hx). krel. f_equal.
Qed.

(** At most one entry for an inode, and reference counts that do not wrap. *)
Record itable_wf (t : list inode) : Prop := {
  iw_ref : ∀ j x, t !! j = Some x → 0 ≤ i_ref x < 2 ^ 31 - 1;
  iw_uniq : ∀ j k x y, t !! j = Some x → t !! k = Some y → 0 < i_ref x → 0 < i_ref y →
    i_dev x = i_dev y → i_inum x = i_inum y → j = k
}.

(** The references to an inode. *)
Definition refs_to (t : list inode) (dev inum : Z) : Z :=
  match find_first (is_entry dev inum) t with
  | Some j => match t !! j with Some x => i_ref x | None => 0 end
  | None => 0
  end.

Lemma is_entry_true dev inum x : is_entry dev inum x = true ↔ 0 < i_ref x ∧ i_dev x = dev ∧ i_inum x = inum.
Proof. unfold is_entry. rewrite !andb_true_iff, Z.gtb_lt, !Z.eqb_eq. naive_solver. Qed.

Lemma no_entry t dev inum j x :
  find_first (is_entry dev inum) t = None → t !! j = Some x → 0 < i_ref x → ¬ (i_dev x = dev ∧ i_inum x = inum).
Proof.
  intros Hn Hx Hr [Hd Hi]. rewrite find_first_None in Hn. specialize (Hn j x Hx).
  rewrite (proj2 (is_entry_true dev inum x)) in Hn by done. done.
Qed.

(** [iget] keeps the inode table free of duplicates.  It returns an entry
    for exactly that inode, with one reference more than the table had to it,
    and changes no other entry; it panics only when the inode is not in the
    table and every entry is in use. *)
Theorem iget_correct s dev inum :
  Litable ∉ held s → itable_wf (itable s) →
  (∃ j x, iget dev inum s = Ok j (s <| itable := <[j := x]> (itable s) |>) ∧ (j < length (itable s))%nat ∧
     i_dev x = dev ∧ i_inum x = inum ∧ i_ref x = refs_to (itable s) dev inum + 1 ∧
     ∀ k l y z, <[j := x]> (itable s) !! k = Some y → <[j := x]> (itable s) !! l = Some z →
       0 < i_ref y → 0 < i_ref z → i_dev y = i_dev z → i_inum y = i_inum z → k = l) ∨
  (iget dev inum s = Panic "iget: no inodes" ∧ ∀ j x, itable s !! j = Some x →
     0 < i_ref x ∧ ¬ (i_dev x = dev ∧ i_inum x = inum)).
Proof.
  intros Hn [Href Hu]. rewrite (iget_ok s dev inum Hn). unfold refs_to.
  destruct (find_first (is_entry dev inum) (itable s)) as [j|] eqn:Ej.
  - apply find_first_Some in Ej as (x & Hx & He & _). rewrite Hx. apply is_entry_true in He as (Hr & Hd & Hi).
    pose proof (lookup_lt_Some _ _ _ Hx) as Hj. pose proof (Href _ _ Hx). left. exists j, (one_more x).
    unfold one_more. rsimpl. rewrite s32_small by lia. split_and!; try done.
    intros k l y z Hk Hl Hy Hz Hd' Hi'. apply list_lookup_insert_Some in Hk, Hl.
    destruct Hk as [(<- & <- & _)|[Hk Hk']], Hl as [(<- & <- & _)|[Hl Hl']]; rsimpl; [done|by eapply Hu..].
  - destruct (find_first is_free (itable s)) as [j|] eqn:Ek.
    + apply find_first_Some in Ek as (x & Hx & _). rewrite Hx. pose proof (lookup_lt_Some _ _ _ Hx) as Hj.
      left. exists j, (fresh_entry dev inum x). unfold fresh_entry. rsimpl. split_and!; try done.
      intros k l y z Hk Hl Hy Hz Hd' Hi'. apply list_lookup_insert_Some in Hk, Hl.
      destruct Hk as [(<- & <- & _)|[Hk Hk']], Hl as [(<- & <- & _)|[Hl Hl']]; rsimpl.
      * done.
      * destruct (no_entry _ _ _ _ _ Ej Hl' Hz). done.
      * destruct (no_entry _ _ _ _ _ Ej Hk' Hy). done.
      * by eapply Hu.
    + right. split; [done|]. intros j x Hx. rewrite find_first_None in Ek. specialize (Ek j x Hx).
      unfold is_free in Ek. apply Z.eqb_neq in Ek. pose proof (Href _ _ Hx).
      split; [lia|]. eapply no_entry; [done|done|lia].
Qed.

(** ** dirlookup *)

(** The directory entry at [off], and whether it is in use with that name. *)
Definition dent (s : kst) (x : inode) (off : Z) : list Z := slice s x off DIRENT_SIZE.
Definition same_name (name de : list Z) : Prop := take 14 (cstr name) = take 14 (cstr (de_name de)).
Definition hit (s : kst) (x : inode) (name : list Z) (off : Z) : Prop :=
  de_inum (dent s x off) ≠ 0 ∧ same_name name (dent s x off).

(** An array that holds a name: all bytes, with a NUL unless it is full. *)
Record name_ok (name : list Z) : Prop := {
  no_bytes : Forall (λ c, 0 ≤ c < 256) name;
  no_end : DIRSIZ ≤ Z.of_nat (length name) ∨ 0 ∈ name
}.

(** The contents of a directory. *)
Record dir_ok (s : kst) (x : inode) : Prop := {
  do_file : file_ok s x;
  do_type : i_type x = T_DIR;
  do_entries : i_size x mod DIRENT_SIZE = 0;
  do_bytes : ∀ k, 0 ≤ k < i_size x → 0 ≤ fbyte s x k < 256
}.

Lemma dir_ok_ext s s' x : (∀ m, blk s' m = blk s m) → dir_ok s x → dir_ok s' x.
Proof.
  intros Hb []. split; try done; [by eapply file_ok_ext|]. intros k Hk. rewrite (fbyte_ext s s') by done. auto.
Qed.

Lemma entry_fits off size :
  0 ≤ off < size → off mod DIRENT_SIZE = 0 → size mod DIRENT_SIZE = 0 → off + DIRENT_SIZE ≤ size.
Proof.
  unfold DIRENT_SIZE. intros. pose proof (Z.div_mod off 16 ltac:(lia)). pose proof (Z.div_mod size 16 ltac:(lia)). lia.
Qed.

Lemma dent_name s x name off :
  dir_ok s x → name_ok name → 0 ≤ off → off + DIRENT_SIZE ≤ i_size x →
  ∃ r, namecmp name (de_name (dent s x off)) = Some r ∧ (r = 0 ↔ same_name name (dent s x off)).
Proof.
  intros Hd [Hb Hl] Ho Hs. unfold namecmp, same_name.
  apply strncmp_zero; [done|done| |done|].
  - apply Forall_drop. apply Forall_fmap, Forall_forall. intros k Hk. apply elem_of_seqZ in Hk.
    apply (do_bytes _ _ Hd). lia.
  - left. unfold de_name, dent. by rewrite length_drop, length_slice.
Qed.

Section Lookup.
Context `{HL : Layout, HW : Wakeups, HB : BlockDev, HBO : !BlockDevOk}.
Context (i : nat) (pid st ops : Z).

Lemma read_dirent_ok s bs dp x off msg :
  in_txn s i pid st ops bs ∅ → itable s !! dp = Some x → dir_ok s x → (length bs < NBUF)%nat →
  0 ≤ off < i_size x → off mod DIRENT_SIZE = 0 →
  ∃ s', read_dirent dp off msg s = Ok (dent s x off) s' ∧ in_txn s' i pid st ops bs ∅ ∧
    (∀ m, blk s' m = blk s m) ∧ tframe s s'.
Proof.
  intros Ht Hx Hd Hcap Ho Hm. pose proof (entry_fits off (i_size x) Ho Hm (do_entries _ _ Hd)) as Hfit.
  pose proof (fo_size _ _ (do_file _ _ Hd)) as Hmax.
  assert (i_size x < 2 ^ 31) by (unfold MAXFILE, NDIRECT, NINDIRECT, BSIZE in *; change (1024 / 4) with 256 in *; lia).
  destruct (readi_ok i pid st ops s bs dp x off DIRENT_SIZE Ht Hx (do_file _ _ Hd) Hcap ltac:(lia) ltac:(done))
    as (s' & E & Ht' & Hb & Hi).
  replace (i_size x <? off) with false in E by lia.
  replace (2 ^ 32 <=? off + DIRENT_SIZE) with false in E by (unfold DIRENT_SIZE in *; lia). cbn [orb] in E.
  rewrite Z.min_l in E by lia. exists s'. split_and!; [|done|done|done].
  unfold read_dirent. erewrite bind_ok by exact E. done.
Qed.

(** The outcome of a search: the first hit from [off] on, looked up with
    [iget], or none. *)
Definition found (s : kst) (bs : list Z) (x : inode) (name : list Z) (off : Z) (r : res kst (option (nat * Z))) : Prop :=
  ∃ s', in_txn s' i pid st ops bs ∅ ∧ (∀ m, blk s' m = blk s m) ∧ tframe s s' ∧
  ((∃ o, off ≤ o < i_size x ∧ o mod DIRENT_SIZE = 0 ∧ hit s x name o ∧
      (∀ o', off ≤ o' < o → o' mod DIRENT_SIZE = 0 → ¬ hit s x name o') ∧
      r = (ip <- iget ROOTDEV (de_inum (dent s x o)) ;; ret (Some (ip, o))) s') ∨
   ((∀ o, off ≤ o < i_size x → o mod DIRENT_SIZE = 0 → ¬ hit s x name o) ∧ r = Ok None s')).

Lemma next_entry off o :
  off mod DIRENT_SIZE = 0 → o mod DIRENT_SIZE = 0 → off ≤ o → o = off ∨ off + DIRENT_SIZE ≤ o.
Proof.
  unfold DIRENT_SIZE. intros. pose proof (Z.div_mod off 16 ltac:(lia)). pose proof (Z.div_mod o 16 ltac:(lia)). lia.
Qed.

Lemma in_txn_held s bs O : in_txn s i pid st ops bs O → held s = [].
Proof. intros Ht. apply (in_txn_running _ _ _ _ _ _ _ Ht). Qed.

(** Skipping an entry that is not a hit. *)
Lemma found_skip s s1 bs x name off r :
  (∀ m, blk s1 m = blk s m) → tframe s s1 → off mod DIRENT_SIZE = 0 → ¬ hit s x name off →
  found s1 bs x name (off + DIRENT_SIZE) r → found s bs x name off r.
Proof.
  intros Hb Hf Hm Hno (s' & Ht' & Hb' & Hf' & Hr). exists s'.
  assert (∀ o, dent s1 x o = dent s x o) as He by (intros; by apply slice_ext).
  assert (∀ o, hit s1 x name o ↔ hit s x name o) as Hhit by (intros; unfold hit; by rewrite He).
  split_and!; [done|intros m; by rewrite Hb'|by eapply tframe_trans|].
  assert (0 < DIRENT_SIZE) by done. destruct Hr as [(o & Ho & Hom & Hht & Hmin & ->)|[Hnone ->]].
  - left. exists o. rewrite He. split_and!; [lia|lia|done|by apply Hhit| |done].
    intros o' Ho' Hm' Hh2. destruct (next_entry off o' Hm Hm') as [->|]; [lia|done|].
    apply (Hmin o'); [lia|done|by apply Hhit].
  - right. split; [|done]. intros o Ho Hom Hh2. destruct (next_entry off o Hm Hom) as [->|]; [lia|done|].
    apply (Hnone o); [lia|done|by apply Hhit].
Qed.

Lemma dirlookup_loop_ok fuel s bs dp x name off :
  in_txn s i pid st ops bs ∅ → itable s !! dp = Some x → dir_ok s x → name_ok name → (length bs < NBUF)%nat →
  0 ≤ off → off mod DIRENT_SIZE = 0 → i_size x - off ≤ Z.of_nat fuel * DIRENT_SIZE →
  found s bs x name off (dirlookup_loop fuel dp name off s).
Proof.
  revert s off. induction fuel as [|fuel IH]; intros s off Ht Hx Hd Hname Hcap Ho Hm Hfuel;
    cbn [dirlookup_loop]; erewrite bind_ok by (by apply geti_ok); destruct (Z.ltb_spec off (i_size x)) as [Hlt|Hge]; try lia.
  1,3: exists s; split_and!; [done|done|apply tframe_refl|right; split; [intros; lia|done]].
  destruct (read_dirent_ok s bs dp x off "dirlookup read" Ht Hx Hd Hcap ltac:(lia) Hm) as (s1 & E1 & Ht1 & Hb1 & Hf1).
  erewrite bind_ok by exact E1. pose proof (entry_fits off (i_size x) ltac:(lia) Hm (do_entries _ _ Hd)) as Hfit.
  pose proof (fo_size _ _ (do_file _ _ Hd)) as Hmax.
  rewrite u32_small by (unfold MAXFILE, NDIRECT, NINDIRECT, BSIZE, DIRENT_SIZE in *; change (1024 / 4) with 256 in *; lia).
  assert (¬ hit s x name off → found s bs x name off (dirlookup_loop fuel dp name (off + DIRENT_SIZE) s1)) as Hskip.
  { intros Hno. eapply found_skip; [exact Hb1|done|done|done|]. apply IH; try done; [by rewrite (tframe_itable _ _ Hf1)|by eapply dir_ok_ext| | |].
    - unfold DIRENT_SIZE in *. lia.
    - by rewrite <- Zplus_mod_idemp_r, Z_mod_same_full, Z.add_0_r.
    - unfold DIRENT_SIZE in *. lia. }
  destruct (Z.eqb_spec (de_inum (dent s x off)) 0) as [E0|E0]; [by apply Hskip; intros [? _]|].
  destruct (dent_name s x name off Hd Hname Ho Hfit) as (r & Er & Hr). kstep. destruct (Z.eqb_spec r 0) as [->|Hne].
  - exists s1. split_and!; try done. left. exists off. rewrite (fo_dev _ _ (do_file _ _ Hd)).
    split_and!; [lia|lia|done|split; [done|by apply Hr]|intros; lia|done].
  - apply Hskip. intros [_ Hs]. by apply Hr in Hs.
Qed.

Lemma dirlookup_ok s bs dp x name :
  in_txn s i pid st ops bs ∅ → itable s !! dp = Some x → dir_ok s x → name_ok name → (length bs < NBUF)%nat →
  found s bs x name 0 (dirlookup dp name s).
Proof.
  intros Ht Hx Hd Hname Hcap. unfold dirlookup. erewrite bind_ok by (by apply geti_ok).
  rewrite (do_type _ _ Hd). change (negb (T_DIR =? T_DIR)) with false. cbv iota.
  apply (dirlookup_loop_ok _ s bs); try done. pose proof (fo_size _ _ (do_file _ _ Hd)). unfold dir_fuel.
  pose proof (Z.div_mod (i_size x) DIRENT_SIZE ltac:(done)). pose proof (Z.mod_pos_bound (i_size x) DIRENT_SIZE ltac:(done)).
  pose proof (Z.div_pos (i_size x) DIRENT_SIZE ltac:(lia) ltac:(done)). lia.
Qed.

(** [dirlookup] in a directory returns: it finds the first entry in use
    with that name and returns the in-memory inode [iget] gives for its inode
    number with the entry's offset, or none if no entry has the name.  Names are
    compared up to their NUL or all 14 bytes.  No block changes. *)
Theorem dirlookup_correct s bs dp x name :
  in_txn s i pid st ops bs ∅ → itable s !! dp = Some x → dir_ok s x → name_ok name → (length bs < NBUF)%nat →
  found s bs x name 0 (dirlookup dp name s).
Proof. apply dirlookup_ok. Qed.

End Lookup.

(** ** A directory with two entries, [.] and [sh] *)

Definition demo_entries : list Z := [1; 0; 46] ++ replicate 13 0 ++ [5; 0; 115; 104] ++ replicate 12 0.
Definition demo_dir : inode := mkInode ROOTDEV 1 1 (mkSleeplock 0 0) 1 T_DIR 0 0 1 32 (46 :: replicate 12 0).
Definition dir_boot : kst :=
  (fs_disk {[ 45 := demo_bitmap; 46 := demo_entries ++ replicate 992 0 ]}) <| itable := demo_dir :: replicate 49 inode0 |>.

#[local] Instance dir_layout : Layout := Build_Layout 0x80020000 0x80010000 0x80009000 0 0 0 0 0.
#[local] Instance dir_wakeups : Wakeups := 0%nat.
#[local] Instance dir_disk : BlockDev := ram_disk.
#[local] Instance dir_disk_ok : BlockDevOk := ram_disk_ok.

Lemma dir_boot_blk n : blk dir_boot n = dblock {[ 45 := demo_bitmap; 46 := demo_entries ++ replicate 992 0 ]} n.
Proof. unfold dir_boot. rewrite blk_itable. apply fs_disk_blk. Qed.

(** A directory of these two entries in block 46. *)
Definition holds_demo (s : kst) (x : inode) : Prop :=
  blk s 46 = demo_entries ++ replicate 992 0 ∧ i_addrs x = 46 :: replicate 12 0 ∧ i_size x = 32 ∧ i_dev x = ROOTDEV ∧ i_type x = T_DIR.

Lemma demo_byte s x k : holds_demo s x → 0 ≤ k < 32 → fbyte s x k = default 0 (demo_entries !! Z.to_nat k).
Proof.
  intros (Hb & Ha & _) Hk. unfold fbyte, BSIZE. rewrite (Z.div_small k 1024), (Z.mod_small k 1024) by lia.
  unfold addr_of. rewrite Ha. change (blk s _) with (blk s 46). rewrite Hb, lookup_app_l by (cbn; lia). done.
Qed.

Lemma demo_dir_ok s x : holds_demo s x → dir_ok s x.
Proof.
  intros H. pose proof H as (Hb & Ha & Hs & Hd & Ht). assert (∀ bn, 0 ≤ bn → bn * BSIZE < 32 → bn = 0) as H1 by (unfold BSIZE; lia).
  assert (addr_of s x 0 = 46) as H2 by (unfold addr_of; by rewrite Ha).
  split; [split| |by rewrite Hs|]; rewrite ?Hs, ?Ha; try done.
  - intros bn Hbn Hl. by rewrite (H1 bn Hbn Hl), H2.
  - intros bn Hbn Hl. by rewrite (H1 bn Hbn Hl), H2, Hb.
  - intros k Hk. rewrite (demo_byte s x k H Hk).
    assert (Forall (λ c, 0 ≤ c < 256) demo_entries) as HF by (repeat constructor; lia).
    destruct (lookup_lt_is_Some_2 demo_entries (Z.to_nat k)) as [c Hc]; [cbn; lia|].
    rewrite Hc. exact (Forall_lookup_1 _ _ _ _ HF Hc).
Qed.

Lemma demo_dent s x k : holds_demo s x → (k < 2)%nat → dent s x (16 * Z.of_nat k) = take 16 (drop (16 * k) demo_entries).
Proof.
  intros H Hk. unfold dent, slice. rewrite (list_fmap_ext _ (λ j, default 0 (demo_entries !! Z.to_nat j))).
  - destruct k as [|[|]]; [reflexivity|reflexivity|lia].
  - intros j y Hy. apply list_elem_of_lookup_2, elem_of_seqZ in Hy. apply (demo_byte s x y H). unfold DIRENT_SIZE in Hy. lia.
Qed.

Lemma dir_boot_holds : holds_demo dir_boot demo_dir.
Proof. split_and!; [by rewrite dir_boot_blk|done..]. Qed.

Lemma dir_boot_itable : itable_wf (itable dir_boot).
Proof.
  assert (∀ j x, itable dir_boot !! j = Some x → (j = 0%nat ∧ x = demo_dir) ∨ x = inode0) as H.
  { intros [|j] x Hx; [left; by injection Hx|right]. by apply (lookup_replicate 49 inode0 x j). }
  split.
  - intros j x Hx. destruct (H j x Hx) as [[_ ->]| ->]; cbn; lia.
  - intros j k x y Hx Hy Hrx Hry _ _. destruct (H j x Hx) as [[-> _]| ->], (H k y Hy) as [[-> _]| ->]; done.
Qed.

Lemma iget_correct_witness :
  ∃ j x, iget ROOTDEV 1 dir_boot = Ok j (dir_boot <| itable := <[j := x]> (itable dir_boot) |>) ∧ i_ref x = 2.
Proof.
  destruct (iget_correct dir_boot ROOTDEV 1 ltac:(by intros ?%elem_of_nil) dir_boot_itable)
    as [(j & x & E & _ & _ & _ & Hr & _)|[_ H]].
  - exists j, x. split; [exact E|exact Hr].
  - destruct (H 1%nat inode0 eq_refl) as [H0 _]. discriminate H0.
Defined.

Definition name_sh : list Z := [115; 104] ++ replicate 12 0.
Lemma name_sh_ok : name_ok name_sh.
Proof. split; [repeat constructor; lia|left; done]. Qed.

Lemma dirlookup_correct_witness :
  ∃ s', dirlookup 0 name_sh dir_boot = (ip <- iget ROOTDEV 5 ;; ret (Some (ip, 16))) s'.
Proof.
  destruct (dirlookup_correct 0 1 2 1 dir_boot [] 0 demo_dir name_sh) as (s' & _ & _ & _ & H);
    [apply in_txn_itable, fs_disk_txn|reflexivity|exact (demo_dir_ok _ _ dir_boot_holds)|exact name_sh_ok|unfold NBUF; cbn; lia|].
  exists s'. pose proof (demo_dent _ _ 0 dir_boot_holds ltac:(lia)) as D0. pose proof (demo_dent _ _ 1 dir_boot_holds ltac:(lia)) as D1.
  change (16 * Z.of_nat 0) with 0 in D0. change (16 * Z.of_nat 1) with 16 in D1.
  assert (hit dir_boot demo_dir name_sh 16) as Hhit by (unfold hit, same_name; rewrite D1; split; [discriminate|reflexivity]).
  destruct H as [(o & Ho & Hm & Hh & _ & E)|[Hno _]]; [|by destruct (Hno 16)].
  rewrite E. clear E. cbn [i_size demo_dir] in Ho.
  destruct (next_entry 0 o eq_refl Hm) as [->|Hge]; [lia| |].
  - exfalso. destruct Hh as [_ Hs]. unfold same_name in Hs. rewrite D0 in Hs. discriminate Hs.
  - destruct (next_entry 16 o eq_refl Hm) as [->|Hge']; [exact Hge| |unfold DIRENT_SIZE in Hge'; lia].
    rewrite D1. reflexivity.
Defined.
