(* ===== verification/FsPath.v ===== *)
(** * Path names ([kernel/fs.c], [namex])

    The elements of a path, the directory tree the blocks on the disk hold, and
    path resolution: [namei] and [nameiparent] follow the elements of the path
    through the tree, whatever part of it is in the inode table. *)

From Stdlib Require Import ZArith Lia.
From S2P Require Import Prelude Params CString State Process Vm Bytes Sleeplock Bio BioRep Cache Log LogRep Crash Txn Fs FsRep FsAlloc FsInode FsFile Dir FsDir.
From stdpp Require Import base gmap strings numbers list.

Open Scope Z_scope.

(** ** The elements of a path *)

Definition flush (e : list Z) : list (list Z) := match e with [] => [] | _ => [e] end.

(** The parts between slashes that are not empty; [e] is the one begun. *)
Fixpoint split_path (p : list Z) (e : list Z) : list (list Z) :=
  match p with
  | [] => flush e
  | c :: p' => if c =? SLASH then flush e ++ split_path p' [] else split_path p' (e ++ [c])
  end.
Definition path_elems (path : list Z) : list (list Z) := split_path (cstr path) [].

Lemma split_elem path e :
  e ≠ [] → split_path (cstr path) e = (e ++ fst (path_elem path)) :: split_path (cstr (snd (path_elem path))) [].
Proof.
  revert e. induction path as [|c path IH]; intros e He; cbn [cstr path_elem].
  - cbn. rewrite app_nil_r. by destruct e.
  - destruct (c =? 0) eqn:E0; [rewrite orb_true_r; cbn [fst snd cstr]; rewrite E0; cbn; rewrite app_nil_r; by destruct e|].
    rewrite orb_false_r. cbn [split_path]. destruct (c =? SLASH) eqn:Es.
    + cbn [fst snd cstr split_path]. rewrite E0, app_nil_r. cbn [split_path]. rewrite Es. by destruct e.
    + rewrite IH by (by destruct e). destruct (path_elem path) as [e' r]. cbn [fst snd]. by rewrite <- app_assoc.
Qed.

Lemma split_slashes path : split_path (cstr (skip_slashes path)) [] = split_path (cstr path) [].
Proof.
  induction path as [|c path IH]; [done|]. cbn [skip_slashes]. destruct (c =? SLASH) eqn:Es; [|done].
  rewrite IH. cbn [cstr]. replace (c =? 0) with false by (unfold SLASH in Es; lia). cbn [split_path]. by rewrite Es.
Qed.

Lemma skip_slashes_spec path :
  0 ∈ path → ∃ c r, skip_slashes path = c :: r ∧ c ≠ SLASH ∧ 0 ∈ c :: r ∧ (c :: r) `suffix_of` path.
Proof.
  induction path as [|c path IH]; [by intros []%elem_of_nil|]. intros Hin. cbn [skip_slashes]. destruct (c =? SLASH) eqn:Es.
  - apply elem_of_cons in Hin as [<-|Hin]; [done|]. destruct (IH Hin) as (c' & r & -> & Hc & Hr & Hl). exists c', r.
    split_and!; [done..|by apply suffix_cons_r].
  - exists c, path. split_and!; [done|lia|done|done].
Qed.

Lemma path_elem_spec path :
  0 ∈ path → 0 ∈ snd (path_elem path) ∧ path = fst (path_elem path) ++ snd (path_elem path) ∧ Forall (λ c, c ≠ 0) (fst (path_elem path)).
Proof.
  induction path as [|c path IH]; [by intros []%elem_of_nil|]. intros Hin. cbn [path_elem].
  destruct ((c =? SLASH) || (c =? 0)) eqn:E; [by split_and!|]. apply orb_false_iff in E as [_ E0].
  apply elem_of_cons in Hin as [<-|Hin]; [done|]. destruct (IH Hin) as (H1 & H2 & H3). destruct (path_elem path) as [e r]. cbn in *.
  split; [done|]. split; [by rewrite H2|]. constructor; [lia|done].
Qed.

Lemma elems_nil c r : c ≠ SLASH → (path_elems (c :: r) = [] ↔ c = 0).
Proof.
  intros Hc. unfold path_elems. cbn [cstr]. destruct (c =? 0) eqn:E0; [split; [lia|done]|].
  cbn [split_path]. replace (c =? SLASH) with false by lia. rewrite split_elem by done. split; [done|lia].
Qed.

(** [skipelem] takes the elements one by one. *)
Lemma skipelem_spec path name :
  0 ∈ path →
  match path_elems path with
  | [] => skipelem path name = Some None
  | e :: es => ∃ path', skipelem path name = Some (Some (path', copy_elem name e)) ∧ 0 ∈ path' ∧ path_elems path' = es ∧
      path' `suffix_of` path ∧ (length path' < length path)%nat ∧ (default 0 (head path') = 0 ↔ es = []) ∧
      Forall (λ c, c ≠ 0 ∧ c ∈ path) e
  end.
Proof.
  intros Hin. destruct (skip_slashes_spec path Hin) as (c & r & E & Hc & Hr & Hs). unfold skipelem. rewrite E.
  assert (path_elems path = path_elems (c :: r)) as -> by (unfold path_elems; by rewrite <- split_slashes, E).
  destruct (c =? 0) eqn:E0; [rewrite (proj2 (elems_nil c r Hc)) by lia; done|].
  destruct (path_elem_spec (c :: r) Hr) as (P1 & P2 & P3).
  assert (path_elems (c :: r) = fst (path_elem (c :: r)) :: path_elems (snd (path_elem (c :: r)))) as ->.
  { unfold path_elems. cbn [cstr path_elem]. rewrite E0. cbn [split_path]. replace (c =? SLASH) with false by lia. cbn [orb app].
    rewrite split_elem by done. by destruct (path_elem r). }
  destruct (path_elem (c :: r)) as [e rest] eqn:Ee. cbn [fst snd] in *. cbv beta iota.
  destruct (skip_slashes_spec rest P1) as (c' & r' & E' & Hc' & Hr' & Hs'). rewrite E'.
  assert (e ≠ []) as Hne by (intros ->; cbn in Ee; replace (c =? SLASH) with false in Ee by lia; rewrite E0 in Ee; cbn in Ee; by destruct (path_elem r)).
  assert (rest `suffix_of` path) as Hsr by (etransitivity; [|exact Hs]; rewrite P2; by apply suffix_app_r).
  assert ((c' :: r') `suffix_of` path) as Hsp by (by etransitivity).
  assert (path_elems (c' :: r') = path_elems rest) as Hel by (unfold path_elems; by rewrite <- (split_slashes rest), E').
  exists (c' :: r'). split_and!; [done|done|done|done| | |].
  - apply suffix_length in Hs, Hs'. rewrite P2, length_app in Hs. destruct e; [done|]. cbn [length] in *. lia.
  - cbn [head default from_option id]. rewrite <- (elems_nil c' r' Hc'), Hel. done.
  - apply Forall_forall. intros a Ha. split; [by apply (proj1 (Forall_forall _ _) P3)|]. destruct Hs as [k ->].
    apply elem_of_app. right. rewrite P2. apply elem_of_app. by left.
Qed.

(** ** Names *)

(** The name array holds the first 14 bytes of the element. *)
Lemma copy_elem_spec name e :
  length name = Z.to_nat DIRSIZ → Forall (λ c, c ≠ 0) e →
  length (copy_elem name e) = Z.to_nat DIRSIZ ∧ take 14 (cstr (copy_elem name e)) = take 14 e.
Proof.
  intros Hl He. unfold copy_elem, splice. change (Z.to_nat DIRSIZ) with 14%nat in *. rewrite !take_0, !app_nil_l, !Nat.add_0_l.
  destruct (Z.geb_spec (Z.of_nat (length e)) DIRSIZ) as [Hge|Hlt]; unfold DIRSIZ in *.
  - rewrite (drop_ge name), app_nil_r by (rewrite length_take; lia). split; [rewrite length_take; lia|].
    rewrite <- (app_nil_r (take 14 e)) at 1. rewrite cstr_idemp_app by (by apply Forall_take). change (cstr []) with (@nil Z). rewrite app_nil_r.
    by rewrite take_take.
  - split; [rewrite length_app, length_drop, length_app; cbn [length]; lia|].
    rewrite <- app_assoc. f_equal. by apply cstr_app_nul.
Qed.

Lemma copy_elem_bytes name e : Forall (λ c, 0 ≤ c < 256) name → Forall (λ c, 0 ≤ c < 256) e → Forall (λ c, 0 ≤ c < 256) (copy_elem name e).
Proof.
  intros Hn He. unfold copy_elem, splice. rewrite take_0, app_nil_l. case_match; rewrite ?take_0, ?app_nil_l.
  - apply Forall_app_2; [by apply Forall_take|by apply Forall_drop].
  - apply Forall_app_2; [apply Forall_app_2; [done|by repeat constructor]|by apply Forall_drop].
Qed.

(** ** References *)

(** The references of the table to inode [n] of device [d]. *)
Definition weight (d n : Z) (x : inode) : Z := if is_entry d n x then i_ref x else 0.
Definition total (t : list inode) (d n : Z) : Z := foldr (λ x a, weight d n x + a) 0 t.

(** At most one entry for an inode. *)
Definition uniq (t : list inode) : Prop :=
  ∀ j k x y, t !! j = Some x → t !! k = Some y → 0 < i_ref x → 0 < i_ref y → i_dev x = i_dev y → i_inum x = i_inum y → j = k.

Definition counted (t : list inode) : Prop := ∀ j x, t !! j = Some x → 0 ≤ i_ref x.
Definition free_entries (t : list inode) : nat := length (filter (λ x, i_ref x = 0) t).
Definition cnt (n : Z) (ks : list Z) : Z := Z.of_nat (length (filter (λ m, m = n) ks)).

Lemma weight_nonneg d n x : 0 ≤ i_ref x → 0 ≤ weight d n x.
Proof. intros. unfold weight. by case_match. Qed.
Lemma weight_entry x : 0 < i_ref x → weight (i_dev x) (i_inum x) x = i_ref x.
Proof. intros. unfold weight. by rewrite (proj2 (is_entry_true _ _ _)). Qed.

Lemma total_cons x t d n : total (x :: t) d n = weight d n x + total t d n.
Proof. done. Qed.

Lemma total_insert t j x y d n :
  t !! j = Some x → total (<[j := y]> t) d n = total t d n - weight d n x + weight d n y.
Proof.
  revert j. induction t as [|z t IH]; intros [|j] Hj; [done..| |].
  - injection Hj as ->. change (<[0%nat := y]> (x :: t)) with (y :: t). rewrite !total_cons. lia.
  - change (<[S j := y]> (z :: t)) with (z :: <[j := y]> t). rewrite !total_cons, (IH j Hj). lia.
Qed.

Lemma refs_counted_cons x t : counted (x :: t) → 0 ≤ i_ref x ∧ counted t.
Proof. intros Hc. split; [by apply (Hc 0%nat)|]. intros k y Hk. by apply (Hc (S k)). Qed.

Lemma total_nonneg t d n : counted t → 0 ≤ total t d n.
Proof.
  induction t as [|x t IH]; [done|]. intros [Hx Hc]%refs_counted_cons. rewrite total_cons. pose proof (weight_nonneg d n x Hx). specialize (IH Hc). lia.
Qed.

Lemma total_at t j x d n : counted t → t !! j = Some x → weight d n x ≤ total t d n.
Proof.
  revert j. induction t as [|z t IH]; intros j Hc Hj; [done|]. apply refs_counted_cons in Hc as [Hz Hc]. rewrite total_cons.
  pose proof (weight_nonneg d n z Hz). pose proof (total_nonneg t d n Hc).
  destruct j as [|j]; [injection Hj as ->; lia|]. specialize (IH j Hc Hj). lia.
Qed.

Lemma total_pos t d n : 0 < total t d n → ∃ j x, t !! j = Some x ∧ 0 < i_ref x ∧ i_dev x = d ∧ i_inum x = n.
Proof.
  induction t as [|x t IH]; [done|]. rewrite total_cons. intros Ht. destruct (is_entry d n x) eqn:E.
  - exists 0%nat, x. apply is_entry_true in E. tauto.
  - unfold weight in Ht. rewrite E in Ht. destruct IH as (j & y & Hj & Hy); [lia|]. by exists (S j), y.
Qed.

Lemma uniq_insert t j x y :
  uniq t → t !! j = Some x → (0 < i_ref y → 0 < i_ref x ∧ i_dev y = i_dev x ∧ i_inum y = i_inum x) → uniq (<[j := y]> t).
Proof.
  intros Hu Hx Hy k l a b Hk Hl Ha Hb Hd Hi. apply list_lookup_insert_Some in Hk, Hl.
  destruct Hk as [(<- & <- & _)|[Hk Hk']], Hl as [(<- & <- & _)|[Hl Hl']]; [done| | |by eapply Hu].
  - destruct (Hy Ha) as (H1 & H2 & H3). by apply (Hu j l x b); [..|rewrite <- H2|rewrite <- H3].
  - destruct (Hy Hb) as (H1 & H2 & H3). by apply (Hu k j a x); [..|rewrite <- H2|rewrite <- H3].
Qed.

Lemma uniq_fresh t j y d n :
  uniq t → find_first (is_entry d n) t = None → i_dev y = d → i_inum y = n → uniq (<[j := y]> t).
Proof.
  intros Hu Hn Hd Hi k l a b Hk Hl Ha Hb Hd' Hi'. apply list_lookup_insert_Some in Hk, Hl.
  destruct Hk as [(<- & <- & _)|[Hk Hk']], Hl as [(<- & <- & _)|[Hl Hl']]; [done| | |by eapply Hu].
  - exfalso. apply (no_entry _ _ _ _ _ Hn Hl' Hb). split; congruence.
  - exfalso. apply (no_entry _ _ _ _ _ Hn Hk' Ha). split; congruence.
Qed.

Lemma cnt_cons n m ks : cnt n (m :: ks) = (if decide (m = n) then 1 else 0) + cnt n ks.
Proof. unfold cnt. rewrite filter_cons. case_decide; cbn [length]; lia. Qed.
Lemma cnt_bound n ks : 0 ≤ cnt n ks ≤ Z.of_nat (length ks).
Proof. unfold cnt. pose proof (length_filter (λ m, m = n) ks). lia. Qed.

(** The references to an inode are those of its entry. *)
Lemma total_uniq t j x : uniq t → counted t → t !! j = Some x → 0 < i_ref x → total t (i_dev x) (i_inum x) = i_ref x.
Proof.
  revert j. induction t as [|y t IH]; intros j Hu Hc Hj Hr; [done|].
  assert (uniq t) as Hu' by (intros a b u v Hua Hvb H1 H2 H3 H4; by injection (Hu (S a) (S b) u v Hua Hvb H1 H2 H3 H4)).
  apply refs_counted_cons in Hc as [Hy Hc]. rewrite total_cons. destruct j as [|j].
  - injection Hj as ->. rewrite weight_entry by done. pose proof (total_nonneg t (i_dev x) (i_inum x) Hc).
    destruct (decide (0 < total t (i_dev x) (i_inum x))) as [Hp|]; [|lia].
    destruct (total_pos _ _ _ Hp) as (k & z & Hk & Hz & Hd & Hi). by discriminate (Hu (S k) 0%nat z x Hk eq_refl Hz Hr Hd Hi).
  - rewrite (IH j Hu' Hc Hj Hr). unfold weight. destruct (is_entry (i_dev x) (i_inum x) y) eqn:E; [|lia].
    apply is_entry_true in E as (Hy' & Hd & Hi). by discriminate (Hu 0%nat (S j) y x eq_refl Hj Hy' Hr Hd Hi).
Qed.

(** The inodes in the table. *)
Definition keys (t : list inode) : list (Z * Z) := (λ x, (i_dev x, i_inum x)) <$> filter (λ x, 0 < i_ref x) t.

Lemma uniq_cons x t : uniq (x :: t) → uniq t ∧ (0 < i_ref x → ∀ j y, t !! j = Some y → 0 < i_ref y → (i_dev y, i_inum y) ≠ (i_dev x, i_inum x)).
Proof.
  intros Hu. split.
  - intros j k a b Ha Hb H1 H2 H3 H4. by injection (Hu (S j) (S k) a b Ha Hb H1 H2 H3 H4).
  - intros Hx j y Hy Hr [= Hd Hi]. discriminate (Hu (S j) 0%nat y x Hy eq_refl Hr Hx Hd Hi).
Qed.

Lemma keys_nodup t : uniq t → NoDup (keys t).
Proof.
  induction t as [|x t IH]; [constructor|]. intros [Hu Hx]%uniq_cons. unfold keys. rewrite filter_cons. case_decide as Hr; [|by apply IH].
  cbn. constructor; [|by apply IH]. intros (y & Hy & Hin)%list_elem_of_fmap. apply list_elem_of_filter in Hin as [Hry [j Hj]%list_elem_of_lookup].
  by apply (Hx Hr j y Hj Hry).
Qed.

Lemma keys_length t : counted t → (length (keys t) + free_entries t = length t)%nat.
Proof.
  unfold keys, free_entries. rewrite length_fmap. induction t as [|x t IH]; [done|]. intros [Hx Hc]%refs_counted_cons. specialize (IH Hc).
  rewrite !filter_cons. destruct (decide (0 < i_ref x)), (decide (i_ref x = 0)); cbn [length]; lia.
Qed.

Lemma keys_total t d n : counted t → (d, n) ∈ keys t → 0 < total t d n.
Proof.
  intros Hc (x & [= -> ->] & [Hr [j Hj]%list_elem_of_lookup]%list_elem_of_filter)%list_elem_of_fmap.
  pose proof (total_at t j x (i_dev x) (i_inum x) Hc Hj) as H. rewrite weight_entry in H by done. lia.
Qed.

(** With fewer new references than there were free entries one is left. *)
Lemma free_slot t0 t ks :
  uniq t → counted t → counted t0 → length t = length t0 →
  (∀ d n, 0 < total t d n → 0 < total t0 d n ∨ d = ROOTDEV ∧ n ∈ ks) → (length ks < free_entries t0)%nat →
  ∃ j, find_first is_free t = Some j.
Proof.
  intros Hu Hc Hc0 Hl Hk Hf. destruct (find_first is_free t) as [j|] eqn:E; [by exists j|exfalso]. rewrite find_first_None in E.
  assert (free_entries t = 0%nat) as Hz.
  { unfold free_entries. destruct (filter _ t) as [|x l] eqn:El; [done|]. assert (x ∈ filter (λ x, i_ref x = 0) t) as Hin by (rewrite El; left).
    apply list_elem_of_filter in Hin as [Hr [j Hj]%list_elem_of_lookup]. specialize (E j x Hj). unfold is_free in E. lia. }
  pose proof (keys_length t Hc). pose proof (keys_length t0 Hc0).
  assert (length (keys t) ≤ length (keys t0 ++ ((ROOTDEV,.) <$> ks)))%nat as Hle.
  { apply submseteq_length, NoDup_submseteq; [by apply keys_nodup|]. intros [d n] Hin. apply keys_total in Hin; [|done].
    destruct (Hk d n Hin) as [Hp|[-> Hn]]; apply elem_of_app; [left|right; by apply list_elem_of_fmap_2].
    destruct (total_pos t0 d n Hp) as (j & x & Hj & Hr & <- & <-). unfold keys. apply list_elem_of_fmap. exists x. split; [done|].
    apply list_elem_of_filter. split; [done|by eapply list_elem_of_lookup_2]. }
  rewrite length_app, length_fmap in Hle. lia.
Qed.

(** ** The tree on the disk *)

(** Inode [n] as it is on the disk. *)
Definition inode_of (s : kst) (n : Z) : inode := (dinode s n inode0) <| i_dev := ROOTDEV |> <| i_inum := n |>.

(** The offsets of the entries of a directory. *)
Definition entry_offs (x : inode) : list Z := (λ k, 16 * k) <$> seqZ 0 (i_size x / 16).

(** The entry at [o] is in use for the name [e], of which 14 bytes count. *)
Definition entry_for (s : kst) (x : inode) (e : list Z) (o : Z) : Prop :=
  de_inum (dent s x o) ≠ 0 ∧ take 14 e = take 14 (cstr (de_name (dent s x o))).
#[global] Instance entry_for_dec s x e o : Decision (entry_for s x e o).
Proof. unfold entry_for. apply _. Defined.

(** The inode number of a name in directory [n]: that of the first entry. *)
Definition dir_look (s : kst) (n : Z) (e : list Z) : option Z :=
  let x := inode_of s n in
  if i_type x =? T_DIR then (λ ko, de_inum (dent s x (snd ko))) <$> list_find (entry_for s x e) (entry_offs x) else None.

Fixpoint walk_elems (s : kst) (n : Z) (es : list (list Z)) {struct es} : option Z :=
  match es with
  | [] => Some n
  | e :: es' => match dir_look s n e with Some m => walk_elems s m es' | None => None end
  end.

(** The directory of the last element. *)
Definition walk_parent (s : kst) (n : Z) (es : list (list Z)) : option Z :=
  match es with
  | [] => None
  | _ => match walk_elems s n (removelast es) with
         | Some m => if i_type (inode_of s m) =? T_DIR then Some m else None
         | None => None
         end
  end.

(** [live] inodes are in use and linked; directories among them are well formed
    and their entries live. *)
Record tree_ok (s : kst) (live : Z → Prop) : Prop := {
  to_root : live ROOTINO;
  to_used : ∀ n, live n → i_type (inode_of s n) ≠ 0 ∧ i_nlink (inode_of s n) ≠ 0;
  to_dir : ∀ n, live n → i_type (inode_of s n) = T_DIR → dir_ok s (inode_of s n);
  to_entry : ∀ n o, live n → i_type (inode_of s n) = T_DIR → o ∈ entry_offs (inode_of s n) →
    de_inum (dent s (inode_of s n) o) ≠ 0 → live (de_inum (dent s (inode_of s n) o))
}.

Lemma dir_look_live s live n e m : tree_ok s live → live n → dir_look s n e = Some m → live m.
Proof.
  intros Ht Hn. unfold dir_look. destruct (i_type (inode_of s n) =? T_DIR) eqn:E; [|done]. intros H. apply fmap_Some in H as ([k o] & Hf & ->).
  apply list_find_Some in Hf as (Ho & [Hi _] & _). apply (to_entry _ _ Ht); [done|lia|by eapply list_elem_of_lookup_2|done].
Qed.

(** An entry with the fields of the inode on the disk. *)
Lemma dinode_fields s n x :
  let y := dinode s n x in let z := inode_of s n in
  i_type y = i_type z ∧ i_nlink y = i_nlink z ∧ i_size y = i_size z ∧ i_addrs y = i_addrs z ∧
  i_dev y = i_dev x ∧ i_inum y = i_inum x ∧ i_ref y = i_ref x ∧ i_lock y = i_lock x ∧ i_valid y = i_valid x.
Proof. unfold inode_of, dinode, load_dinode. rsimpl. done. Qed.

(** An entry is that of the disk when its six fields are. *)
Lemma dinode_same d off x :
  load_dinode d off x = x ↔ i_type x = di_type d off ∧ i_major x = s16 (get16 d (off + 2)) ∧ i_minor x = s16 (get16 d (off + 4)) ∧
    i_nlink x = di_nlink d off ∧ i_size x = get32 d (off + 8) ∧ i_addrs x = di_addrs d off.
Proof.
  unfold load_dinode.
  generalize (di_type d off), (s16 (get16 d (off + 2))), (s16 (get16 d (off + 4))), (di_nlink d off), (get32 d (off + 8)), (di_addrs d off).
  intros a b c e f g. split; [intros <-; by rsimpl|]. intros (<- & <- & <- & <- & <- & <-). by destruct x; rsimpl.
Qed.

Lemma dinode_keep s n x y :
  dinode s n x = x → with_fields x y = y → dinode s n y = y.
Proof.
  intros Hx <-. unfold dinode in *. apply dinode_same in Hx as (A & B & C & D & E & F). apply dinode_same. unfold with_fields. rsimpl. done.
Qed.

Lemma dinode_loaded s n x v : dinode s n ((dinode s n x) <| i_valid := v |>) = (dinode s n x) <| i_valid := v |>.
Proof. apply dinode_same. unfold dinode, load_dinode. by rsimpl. Qed.

Lemma dent_fields s x y o : i_addrs x = i_addrs y → dent s x o = dent s y o.
Proof. intros E. unfold dent, slice. apply list_fmap_ext. intros j k _. unfold fbyte, addr_of, ind_of. by rewrite E. Qed.

Lemma dir_ok_fields s x y :
  i_dev x = i_dev y → i_type x = i_type y → i_size x = i_size y → i_addrs x = i_addrs y → dir_ok s x → dir_ok s y.
Proof.
  intros Ed Et Es Ea [[F1 F2 F3 F4 F5 F6] D2 D3 D4].
  assert (∀ bn, addr_of s y bn = addr_of s x bn) as Hao by (intros; unfold addr_of, ind_of; by rewrite Ea).
  assert (∀ k, fbyte s y k = fbyte s x k) as Hfb by (intros; unfold fbyte; by rewrite Hao).
  split; [split|..]; unfold ind_of in *; rewrite <- ?Ed, <- ?Et, <- ?Es, <- ?Ea; try done.
  - intros bn H1 H2. rewrite Hao. auto.
  - intros bn H1 H2. rewrite Hao. auto.
  - intros k Hk. rewrite Hfb. auto.
Qed.

(** The first hit of a directory search is that of [dir_look]. *)
Lemma hit_entry s x y name e o : i_addrs x = i_addrs y → take 14 (cstr name) = take 14 e → (hit s x name o ↔ entry_for s y e o).
Proof. intros Ea En. unfold hit, same_name, entry_for. by rewrite (dent_fields s x y), En. Qed.

Lemma entry_offs_spec x o : 0 ≤ i_size x → i_size x mod 16 = 0 → (o ∈ entry_offs x ↔ 0 ≤ o < i_size x ∧ o mod DIRENT_SIZE = 0).
Proof.
  intros Hs Hm. unfold entry_offs, DIRENT_SIZE. rewrite list_elem_of_fmap. pose proof (Z.div_mod (i_size x) 16 ltac:(lia)). split.
  - intros (k & -> & Hk%elem_of_seqZ). split; [lia|]. rewrite Z.mul_comm. apply Z_mod_mult.
  - intros [Ho Hm']. exists (o / 16). pose proof (Z.div_mod o 16 ltac:(lia)). split; [lia|]. apply elem_of_seqZ. lia.
Qed.

Lemma entry_offs_lookup x k o : entry_offs x !! k = Some o → o = 16 * Z.of_nat k.
Proof. unfold entry_offs. rewrite list_lookup_fmap. intros (z & [Hz _]%lookup_seqZ & ->)%fmap_Some. lia. Qed.

Lemma dir_look_found s n name e o x :
  dir_ok s (inode_of s n) → i_addrs x = i_addrs (inode_of s n) → take 14 (cstr name) = take 14 e →
  0 ≤ o < i_size (inode_of s n) → o mod DIRENT_SIZE = 0 → hit s x name o →
  (∀ o', 0 ≤ o' < o → o' mod DIRENT_SIZE = 0 → ¬ hit s x name o') → dir_look s n e = Some (de_inum (dent s x o)).
Proof.
  intros Hd Ea En Ho Hm Hh Hmin. unfold dir_look. rewrite (do_type _ _ Hd). change (T_DIR =? T_DIR) with true. cbv iota.
  pose proof (fo_size _ _ (do_file _ _ Hd)) as [Hs _]. pose proof (do_entries _ _ Hd) as Hse. change DIRENT_SIZE with 16 in Hse.
  assert (o ∈ entry_offs (inode_of s n)) as Hin by (by apply entry_offs_spec). apply list_elem_of_lookup in Hin as [k Hk].
  rewrite (proj2 (list_find_Some _ _ k o)); [cbn; by rewrite (dent_fields s x (inode_of s n))|].
  split; [done|]. split; [exact (proj1 (hit_entry s x _ name e o Ea En) Hh)|]. intros k' o' Hk' Hlt He. apply (hit_entry s x _ name e o' Ea En) in He.
  apply entry_offs_lookup in Hk as Ek, Hk' as Ek'. apply list_elem_of_lookup_2, entry_offs_spec in Hk' as [H1 H2]; [|done|done].
  apply (Hmin o'); [lia|done|done].
Qed.

Lemma dir_look_none s n name e x :
  dir_ok s (inode_of s n) → i_addrs x = i_addrs (inode_of s n) → take 14 (cstr name) = take 14 e →
  (∀ o, 0 ≤ o < i_size (inode_of s n) → o mod DIRENT_SIZE = 0 → ¬ hit s x name o) → dir_look s n e = None.
Proof.
  intros Hd Ea En Hno. unfold dir_look. case_match; [|done]. apply fmap_None, list_find_None, Forall_forall. intros o Ho He.
  pose proof (fo_size _ _ (do_file _ _ Hd)) as [Hs _]. apply entry_offs_spec in Ho as [H1 H2]; [|done|apply Hd].
  apply (Hno o); [done|done|]. by apply (hit_entry s x _ name e o Ea En).
Qed.

(** ** The operations of a lookup *)

Lemma in_txn_procs s i pid st ops bs O ps :
  in_txn s i pid st ops bs O → p_pid <$> ps !! i = Some pid → length ps = NPROC → in_txn (s <| procs := ps |>) i pid st ops bs O.
Proof.
  intros [(R & [Hc [] Hg Hp Ha] & HR) Ho] Hi Hl. split; [|by rsimpl]. exists R. split; [|done].
  split; [by apply cache_procs|by split; rsimpl|done|done|by rsimpl].
Qed.

Section Path.
Context `{HL : Layout, HW : Wakeups, HB : BlockDev, HBO : !BlockDevOk}.
Context (i : nat) (pid st ops : Z) (bs : list Z) (s0 : kst) (live : Z → Prop).
Context (Hroom : (length bs < NBUF)%nat) (Htree : tree_ok s0 live).

(** The state [s] is [s0] with references to the inodes [ks] and the entry [L]
    locked. *)
Record tab (s : kst) (ks : list Z) (L : option nat) : Prop := {
  tb_txn : in_txn s i pid st ops bs ∅;
  tb_blk : ∀ m, blk s m = blk s0 m;
  tb_frame : tframe (s0 <| itable := itable s |>) s;
  tb_len : length (itable s) = length (itable s0);
  tb_uniq : uniq (itable s);
  tb_pos : counted (itable s);
  tb_refs : ∀ d n, total (itable s) d n = total (itable s0) d n + (if decide (d = ROOTDEV) then cnt n ks else 0);
  tb_free : ∀ j x, itable s !! j = Some x → i_ref x = 0 → sl_locked (i_lock x) = 0;
  tb_cache : ∀ j x, itable s !! j = Some x → 0 < i_ref x → i_dev x = ROOTDEV → live (i_inum x) →
    (if decide (L = Some j) then i_lock x = mkSleeplock 1 pid else sl_locked (i_lock x) = 0) ∧
    (i_valid x ≠ 0 → dinode s0 (i_inum x) x = x)
}.

(** Entry [ip] is for inode [n]. *)
Definition at_entry (s : kst) (ip : nat) (n : Z) : Prop :=
  ∃ x, itable s !! ip = Some x ∧ 0 < i_ref x ∧ i_dev x = ROOTDEV ∧ i_inum x = n.

Lemma tab_dinode s ks L n x : tab s ks L → dinode s n x = dinode s0 n x.
Proof.
  intros [_ Hb Hf _ _ _ _ _ _]. unfold dinode. rewrite Hb. pose proof (tframe_sb _ _ Hf) as E. revert E. rsimpl. by intros ->.
Qed.

(** A change of one entry that keeps what it is for. *)
Lemma tab_update s ks L s' ip x y L' :
  tab s ks L → itable s !! ip = Some x → 0 < i_ref x → i_dev x = ROOTDEV → live (i_inum x) →
  itable s' = <[ip := y]> (itable s) → in_txn s' i pid st ops bs ∅ → (∀ m, blk s' m = blk s m) → tframe (s <| itable := itable s' |>) s' →
  i_ref y = i_ref x → i_dev y = i_dev x → i_inum y = i_inum x →
  (if decide (L' = Some ip) then i_lock y = mkSleeplock 1 pid else sl_locked (i_lock y) = 0) →
  (i_valid y ≠ 0 → dinode s0 (i_inum y) y = y) → (∀ j, j ≠ ip → L = Some j ↔ L' = Some j) →
  tab s' ks L' ∧ (∀ j m, at_entry s j m → at_entry s' j m).
Proof.
  intros [T1 T2 T3 T4 T5 T6 T7 T8 T9] Hx Hr Hd Hl Hi Ht' Hb' Hf' Er Ed En Hlk Hv HL'. pose proof (lookup_lt_Some _ _ _ Hx) as Hip. split.
  - split; rewrite ?Hi.
    + done.
    + intros m. by rewrite Hb'.
    + unfold tframe in *. rewrite Hf' at 1. rewrite T3. rewrite Hi. rsimpl. kst_eq s0.
    + by rewrite length_insert.
    + apply (uniq_insert _ _ x); [done|done|]. by rewrite Er.
    + intros j z Hj. apply list_lookup_insert_Some in Hj as [(<- & <- & _)|[_ Hj]]; [lia|by apply (T6 j)].
    + intros d n. rewrite (total_insert _ _ x) by done. rewrite T7. unfold weight, is_entry. rewrite Er, Ed, En. lia.
    + intros j z Hj Hz. apply list_lookup_insert_Some in Hj as [(<- & <- & _)|[_ Hj]]; [lia|by apply (T8 j)].
    + intros j z Hj Hz Hdz Hlz. apply list_lookup_insert_Some in Hj as [(<- & <- & _)|[Hne Hj]]; [done|].
      destruct (T9 j z Hj Hz Hdz Hlz) as [H1 H2]. split; [|done]. destruct (decide (L = Some j)) as [E|E], (decide (L' = Some j)) as [E'|E']; try done;
        exfalso; naive_solver.
  - intros j m (z & Hz & H1 & H2 & H3). unfold at_entry. rewrite Hi. destruct (decide (j = ip)) as [-> |Hne].
    + exists y. rewrite list_lookup_insert_eq by done. simplify_eq. split_and!; congruence.
    + exists z. by rewrite list_lookup_insert_ne by done.
Qed.

(** The entry [ilock] leaves. *)
Lemma ilocked_fields s n x :
  (∀ y, dinode s n y = dinode s0 n y) → i_inum x = n → (i_valid x ≠ 0 → dinode s0 n x = x) →
  let z := ilocked pid s x in
  i_ref z = i_ref x ∧ i_dev z = i_dev x ∧ i_inum z = n ∧ i_lock z = mkSleeplock 1 pid ∧ dinode s0 n z = z.
Proof.
  intros Hs Hn Hv. unfold ilocked. rewrite Hn, Hs. set (y := x <| i_lock := mkSleeplock 1 pid |>). cbv zeta.
  destruct (dinode_fields s0 n y) as (_ & _ & _ & _ & Y5 & Y6 & Y7 & Y8 & _). destruct (i_valid x =? 0) eqn:Ev.
  - rewrite dinode_loaded. rsimpl. rewrite Y5, Y6, Y7, Y8. subst y. by rsimpl.
  - assert (dinode s0 n y = y) as ->; [|subst y; by rsimpl]. apply (dinode_keep _ _ x); [apply Hv; lia|]. unfold y, with_fields. by destruct x; rsimpl.
Qed.

Lemma tab_ilock s ks ip n :
  tab s ks None → at_entry s ip n → live n →
  ∃ s' x, ilock ip s = Ok tt s' ∧ tab s' ks (Some ip) ∧ (∀ j m, at_entry s j m → at_entry s' j m) ∧
    itable s' !! ip = Some x ∧ i_dev x = ROOTDEV ∧ dinode s0 n x = x.
Proof.
  intros Ht (x & Hx & Hr & Hd & Hn) Hl. pose proof (tb_cache _ _ _ Ht ip x Hx Hr Hd ltac:(by rewrite Hn)) as [Hlk Hv].
  rewrite decide_False in Hlk by done. destruct (to_used _ _ Htree n Hl) as [Hty _].
  pose proof (ilock_ok i pid st ops s bs ∅ ip x (tb_txn _ _ _ Ht) Hx ltac:(lia) Hlk Hd (lookup_empty _) ltac:(by rewrite map_size_empty, Nat.add_0_r)) as HI.
  rewrite Hn in Hv. pose proof (ilocked_fields s n x (λ y, tab_dinode _ _ _ n y Ht) Hn Hv) as HZ. cbv zeta in HZ. revert HI HZ.
  generalize (ilocked pid s x). intros z HI (Z1 & Z2 & Z3 & Z4 & Z5).
  assert (i_type z = i_type (inode_of s0 n)) as Zt by (rewrite <- Z5; exact (proj1 (dinode_fields s0 n z))).
  rewrite Zt in HI. replace (i_type (inode_of s0 n) =? 0) with false in HI by lia. rewrite andb_false_r in HI.
  destruct HI as (s' & E & Ht' & Hb' & Hi' & Hf'). exists s', z.
  destruct (tab_update s ks None s' ip x z (Some ip)) as [HT HA];
    [done|done|done|done|by rewrite Hn|done|done|done|done|done|done|by rewrite Z3|by rewrite decide_True|by rewrite Z3|naive_solver|].
  rewrite Hi', list_lookup_insert_eq by (by eapply lookup_lt_Some). split_and!; [exact E|exact HT|exact HA|done|by rewrite Z2|exact Z5].
Qed.

Lemma tab_iunlock s ks ip n :
  tab s ks (Some ip) → at_entry s ip n → live n →
  ∃ s', iunlock ip s = Ok tt s' ∧ tab s' ks None ∧ (∀ j m, at_entry s j m → at_entry s' j m).
Proof.
  intros Ht (x & Hx & Hr & Hd & Hn) Hl. pose proof (tb_cache _ _ _ Ht ip x Hx Hr Hd ltac:(by rewrite Hn)) as [Hlk Hv].
  rewrite decide_True in Hlk by done. pose proof (in_txn_running _ _ _ _ _ _ _ (tb_txn _ _ _ Ht)) as Hrun.
  assert (sl_lookup (SlInode ip) s = Some (i_lock x)) as Hsl by (simpl; by rewrite Hx). unfold iunlock.
  erewrite bind_ok by (by apply (holdingsleep_ok _ _ i pid)). erewrite bind_ok by (by apply geti_ok). rewrite Hlk. cbn [sl_locked sl_pid].
  rewrite Z.eqb_refl. replace (i_ref x <? 1) with false by lia. cbn [Z.eqb negb andb orb].
  rewrite (releasesleep_ok _ _ i pid _ Hrun Hsl), (sl_store_inode ip _ s x Hx). eexists. split; [reflexivity|].
  destruct (wake_running s i pid (slk_chan (SlInode ip)) Hrun) as [W1 W2].
  eapply (tab_update s ks (Some ip) _ ip x (x <| i_lock := mkSleeplock 0 0 |>) None); rsimpl; try done.
  - by rewrite Hn.
  - by apply in_txn_procs; [apply in_txn_itable, Ht|..].
  - intros Hv'. apply (dinode_keep _ _ x); [by apply Hv|]. unfold with_fields. by destruct x; rsimpl.
  - naive_solver.
Qed.

(** A change of the references of one entry. *)
Lemma tab_insert s ks L ks' j x y :
  tab s ks L → itable s !! j = Some x → uniq (<[j := y]> (itable s)) → 0 ≤ i_ref y →
  (∀ d n, weight d n y - weight d n x = if decide (d = ROOTDEV) then cnt n ks' - cnt n ks else 0) →
  (i_ref y = 0 → sl_locked (i_lock y) = 0) →
  (0 < i_ref y → i_dev y = ROOTDEV → live (i_inum y) →
    (if decide (L = Some j) then i_lock y = mkSleeplock 1 pid else sl_locked (i_lock y) = 0) ∧ (i_valid y ≠ 0 → dinode s0 (i_inum y) y = y)) →
  tab (s <| itable := <[j := y]> (itable s) |>) ks' L.
Proof.
  intros [T1 T2 T3 T4 T5 T6 T7 T8 T9] Hx Hu Hr Hw Hf Hc. split; rsimpl.
  - by apply in_txn_itable.
  - intros m. by rewrite blk_itable.
  - unfold tframe in *. rewrite T3. rsimpl. kst_eq s0.
  - by rewrite length_insert.
  - done.
  - intros k z Hk. apply list_lookup_insert_Some in Hk as [(<- & <- & _)|[_ Hk]]; [done|by apply (T6 k)].
  - intros d n. rewrite (total_insert _ _ x), T7 by done. specialize (Hw d n). destruct (decide (d = ROOTDEV)); lia.
  - intros k z Hk Hz. apply list_lookup_insert_Some in Hk as [(<- & <- & _)|[_ Hk]]; [by apply Hf|by apply (T8 k)].
  - intros k z Hk. apply list_lookup_insert_Some in Hk as [(<- & <- & _)|[_ Hk]]; [done|by apply (T9 k)].
Qed.

Context (Hbound : ∀ n, total (itable s0) ROOTDEV n < 2 ^ 31 - 4).

Lemma tab_ref s ks L j x : tab s ks L → itable s !! j = Some x → i_dev x = ROOTDEV → i_ref x < 2 ^ 31 - 4 + Z.of_nat (length ks).
Proof.
  intros Ht Hx Hd. destruct (decide (0 < i_ref x)); [|lia]. pose proof (total_at _ j x (i_dev x) (i_inum x) (tb_pos _ _ _ Ht) Hx) as Hle.
  rewrite weight_entry, (tb_refs _ _ _ Ht), Hd, decide_True in Hle by done. pose proof (cnt_bound (i_inum x) ks). specialize (Hbound (i_inum x)). lia.
Qed.

Lemma tab_idup s ks L j n x :
  tab s ks L → itable s !! j = Some x → 0 < i_ref x → i_dev x = ROOTDEV → i_inum x = n → (length ks ≤ 2)%nat →
  tab (s <| itable := <[j := one_more x]> (itable s) |>) (n :: ks) L.
Proof.
  intros Ht Hx Hr Hd Hn Hk. pose proof (tab_ref s ks L j x Ht Hx Hd). assert (i_ref (one_more x) = i_ref x + 1) as Er by (unfold one_more; rsimpl; rewrite s32_small; lia).
  apply (tab_insert s ks L _ j x); [done|done| |lia| |lia|].
  - apply (uniq_insert _ _ x); [apply Ht|done|]. intros _. unfold one_more. by rsimpl.
  - intros d m. unfold weight, is_entry. rewrite Er. unfold one_more. rsimpl. rewrite Hd, Hn, cnt_cons.
    replace (i_ref x >? 0) with true by lia. replace (i_ref x + 1 >? 0) with true by lia. cbn [andb].
    destruct (Z.eqb_spec ROOTDEV d) as [<-|]; [rewrite decide_True by done|rewrite decide_False by done; cbn; lia]. cbn [andb].
    destruct (Z.eqb_spec n m) as [<-|]; [rewrite decide_True by done|rewrite decide_False by done]; lia.
  - intros _ _ Hl. unfold one_more in *. revert Hl. rsimpl. intros Hl. destruct (tb_cache _ _ _ Ht j x Hx Hr Hd Hl) as [H1 H2].
    split; [done|]. intros Hv. apply (dinode_keep _ _ x); [by apply H2|]. unfold with_fields. by destruct x; rsimpl.
Qed.

Lemma tab_fresh s ks L j n x :
  tab s ks L → itable s !! j = Some x → i_ref x = 0 → L ≠ Some j → find_first (is_entry ROOTDEV n) (itable s) = None →
  tab (s <| itable := <[j := fresh_entry ROOTDEV n x]> (itable s) |>) (n :: ks) L.
Proof.
  intros Ht Hx Hr Hlo Hn. assert (i_ref (fresh_entry ROOTDEV n x) = 1) as Er by (unfold fresh_entry; by rsimpl).
  apply (tab_insert s ks L _ j x); [done|done| |lia| |lia|].
  - apply (uniq_fresh _ _ _ ROOTDEV n); [apply Ht|done|unfold fresh_entry; by rsimpl..].
  - intros d m. unfold weight, is_entry. rewrite Er, Hr. unfold fresh_entry. rsimpl. rewrite cnt_cons. change (0 >? 0) with false. change (1 >? 0) with true. cbn [andb].
    destruct (Z.eqb_spec ROOTDEV d) as [<-|]; [rewrite (decide_True (P := ROOTDEV = ROOTDEV)) by done|rewrite decide_False by done; cbn; lia]. cbn [andb].
    destruct (Z.eqb_spec n m) as [<-|]; [rewrite decide_True by done|rewrite decide_False by done]; lia.
  - intros _ _ _. rewrite decide_False by done. unfold fresh_entry. rsimpl. split; [by apply (tb_free _ _ _ Ht j x)|done].
Qed.

(** A new reference keeps the other entries. *)
Lemma at_entry_insert s j x y k m :
  itable s !! j = Some x → (0 < i_ref x → 0 < i_ref y ∧ i_dev y = i_dev x ∧ i_inum y = i_inum x) →
  at_entry s k m → at_entry (s <| itable := <[j := y]> (itable s) |>) k m.
Proof.
  intros Hx Hy (z & Hz & H1 & H2 & H3). unfold at_entry. rsimpl. destruct (decide (j = k)) as [<-|Hne].
  - simplify_eq. exists y. rewrite list_lookup_insert_eq by (by eapply lookup_lt_Some). destruct (Hy H1) as (? & -> & ->). done.
  - exists z. by rewrite list_lookup_insert_ne by done.
Qed.

Lemma tab_iget s ks L n :
  tab s ks L → (∀ j, L = Some j → ∃ m, at_entry s j m) → (length ks ≤ 2)%nat → (length ks < free_entries (itable s0))%nat →
  counted (itable s0) →
  ∃ j s', iget ROOTDEV n s = Ok j s' ∧ tab s' (n :: ks) L ∧ at_entry s' j n ∧ (∀ k m, at_entry s k m → at_entry s' k m).
Proof.
  intros Ht Hlo Hk Hf Hc0. rewrite (iget_ok s ROOTDEV n) by (rewrite (in_txn_held i pid st ops s bs ∅ (tb_txn _ _ _ Ht)); apply not_elem_of_nil).
  destruct (find_first (is_entry ROOTDEV n) (itable s)) as [j|] eqn:Ej.
  - apply find_first_Some in Ej as (x & Hx & He & _). rewrite Hx. apply is_entry_true in He as (Hr & Hd & Hn).
    pose proof (tab_ref s ks L j x Ht Hx Hd). assert (i_ref (one_more x) = i_ref x + 1) as Er by (unfold one_more; rsimpl; rewrite s32_small; lia).
    eexists j, _. split; [reflexivity|]. split; [by apply tab_idup|]. split.
    + exists (one_more x). rsimpl. rewrite list_lookup_insert_eq by (by eapply lookup_lt_Some). rewrite Er. unfold one_more. rsimpl. split_and!; [done|lia|done|done].
    + intros k m. apply (at_entry_insert s j x); [done|]. intros _. rewrite Er. unfold one_more. rsimpl. split_and!; [lia|done|done].
  - destruct (free_slot (itable s0) (itable s) ks) as [j Hj]; [apply Ht|apply Ht|done|apply Ht| |done|].
    { intros d m. rewrite (tb_refs _ _ _ Ht). pose proof (total_nonneg _ d m Hc0). case_decide as Hd; [|left; lia].
      intros Hp. destruct (decide (m ∈ ks)) as [Hin|Hin]; [by right|left]. unfold cnt in Hp.
      destruct (filter (λ m', m' = m) ks) as [|a l] eqn:El; [cbn in Hp; lia|]. exfalso. apply Hin.
      assert (a ∈ filter (λ m', m' = m) ks) as Ha by (rewrite El; left). apply list_elem_of_filter in Ha as [-> ?]. done. }
    rewrite Hj. apply find_first_Some in Hj as (x & Hx & He & _). rewrite Hx. unfold is_free in He. apply Z.eqb_eq in He.
    eexists j, _. split; [reflexivity|]. split; [apply tab_fresh; try done|split].
    + intros ->. destruct (Hlo j eq_refl) as (m & y & Hy & Hr & _). rewrite Hx in Hy. injection Hy as ->. lia.
    + exists (fresh_entry ROOTDEV n x). rsimpl. rewrite list_lookup_insert_eq by (by eapply lookup_lt_Some). unfold fresh_entry. by rsimpl.
    + intros k m. apply (at_entry_insert s j x); [done|lia].
Qed.

Lemma tab_iput s ks ip n :
  tab s (n :: ks) None → at_entry s ip n → live n → (length ks ≤ 2)%nat → counted (itable s0) →
  ∃ s', iput ip s = Ok tt s' ∧ tab s' ks None ∧ (∀ k m, at_entry s k m → m ∈ ks → at_entry s' k m).
Proof.
  intros Ht (x & Hx & Hr & Hd & Hn) Hl Hk Hc0. pose proof (tb_cache _ _ _ Ht ip x Hx Hr Hd ltac:(by rewrite Hn)) as [Hlk Hv].
  pose proof (tab_ref s _ None ip x Ht Hx Hd) as Hb. cbn [length] in Hb.
  assert (Litable ∉ held s) as Hh by (rewrite (in_txn_held i pid st ops s bs ∅ (tb_txn _ _ _ Ht)); apply not_elem_of_nil).
  assert ((i_ref x =? 1) && negb (i_valid x =? 0) && (i_nlink x =? 0) = false) as Hnt.
  { destruct (i_valid x =? 0) eqn:Ev; [by rewrite andb_false_r|]. assert (i_nlink x = i_nlink (inode_of s0 n)) as ->.
    { specialize (Hv ltac:(lia)). rewrite <- Hv, Hn. exact (proj1 (proj2 (dinode_fields s0 n x))). }
    destruct (to_used _ _ Htree n Hl) as [_ Hnl]. rewrite andb_comm. by replace (i_nlink (inode_of s0 n) =? 0) with false by lia. }
  unfold iput. erewrite bind_ok by (by apply acquire_ok). erewrite bind_ok by (apply geti_ok; rsimpl; exact Hx). rewrite Hnt. rewrite bind_ret.
  erewrite bind_ok by (apply updi_ok; rsimpl; exact Hx). cbv beta. rewrite s32_small by lia. set (y := x <| i_ref := i_ref x - 1 |>).
  rewrite (release_top Litable (held s)) by (rsimpl; done). exists (s <| itable := <[ip := y]> (itable s) |>). split; [rsimpl; f_equal; kst_eq s|].
  assert (i_ref y = i_ref x - 1 ∧ i_dev y = ROOTDEV ∧ i_inum y = n ∧ i_lock y = i_lock x ∧ i_valid y = i_valid x) as (Y1 & Y2 & Y3 & Y4 & Y5) by (unfold y; by rsimpl).
  assert (tab (s <| itable := <[ip := y]> (itable s) |>) ks None) as Ht'.
  { apply (tab_insert s (n :: ks) None _ ip x); [done|done| |lia| |by rewrite Y4|].
    - apply (uniq_insert _ _ x); [apply Ht|done|]. intros _. by rewrite Y2, Y3.
    - intros d m. unfold weight, is_entry. rewrite Y1, Y2, Y3, Hd, Hn, cnt_cons. replace (i_ref x >? 0) with true by lia. cbn [andb].
      destruct (Z.eqb_spec ROOTDEV d) as [<-|]; [rewrite (decide_True (P := ROOTDEV = ROOTDEV)) by done|rewrite (decide_False (P := d = ROOTDEV)) by congruence; rewrite andb_false_r; cbn; lia].
      rewrite andb_true_r. destruct (Z.eqb_spec n m) as [<-|]; [rewrite decide_True, !andb_true_r by done|rewrite decide_False, !andb_false_r by done; lia].
      destruct (Z.gtb_spec (i_ref x - 1) 0); lia.
    - intros _ _ _. rewrite decide_False in * by done. rewrite Y3, Y4, Y5. split; [done|]. rewrite Hn in Hv. intros Hv'.
      apply (dinode_keep _ _ x); [by apply Hv|]. unfold y, with_fields. by destruct x; rsimpl. }
  split; [exact Ht'|]. intros k m (z & Hz & Z1 & Z2 & Z3) Hm. unfold at_entry. rsimpl. destruct (decide (ip = k)) as [<-|Hne].
  - exists y. rewrite list_lookup_insert_eq by (by eapply lookup_lt_Some). rewrite Hx in Hz. injection Hz as <-.
    split_and!; [done| |done|congruence]. pose proof (tb_refs _ _ _ Ht ROOTDEV (i_inum x)) as Hc.
    rewrite (decide_True (P := ROOTDEV = ROOTDEV)) in Hc by done. rewrite <- Hd in Hc at 1.
    rewrite (total_uniq _ ip x (tb_uniq _ _ _ Ht) (tb_pos _ _ _ Ht) Hx Hr), Hn, cnt_cons, decide_True in Hc by done.
    pose proof (total_nonneg (itable s0) ROOTDEV n Hc0). assert (0 < cnt n ks); [|lia]. unfold cnt.
    assert (n ∈ filter (λ m', m' = n) ks) as Hin by (apply list_elem_of_filter; split; [done|congruence]).
    destruct (filter _ ks); [by apply elem_of_nil in Hin|]. cbn [length]. lia.
  - exists z. by rewrite list_lookup_insert_ne by done.
Qed.

Lemma tab_tframe s ks L s1 :
  tab s ks L → in_txn s1 i pid st ops bs ∅ → (∀ m, blk s1 m = blk s m) → tframe s s1 →
  tab s1 ks L ∧ (∀ k m, at_entry s k m → at_entry s1 k m).
Proof.
  intros [T1 T2 T3 T4 T5 T6 T7 T8 T9] Ht Hb Hf. pose proof (tframe_itable _ _ Hf) as Hi. split; [|intros k m; unfold at_entry; by rewrite Hi].
  split; rewrite ?Hi; try done; [intros m; by rewrite Hb|]. rewrite <- Hi. eapply tframe_trans; [|exact Hf]. by rewrite Hi.
Qed.

(** A search in the locked directory [ip]. *)
Lemma tab_dirlookup s ks ip n x name e :
  tab s ks (Some ip) → at_entry s ip n → itable s !! ip = Some x → i_dev x = ROOTDEV → dinode s0 n x = x → i_type x = T_DIR → live n →
  name_ok name → take 14 (cstr name) = take 14 e →
  (length ks ≤ 2)%nat → (length ks < free_entries (itable s0))%nat → counted (itable s0) →
  match dir_look s0 n e with
  | Some m => ∃ j o s', dirlookup ip name s = Ok (Some (j, o)) s' ∧ tab s' (m :: ks) (Some ip) ∧ at_entry s' j m ∧
      (∀ k m, at_entry s k m → at_entry s' k m)
  | None => ∃ s', dirlookup ip name s = Ok None s' ∧ tab s' ks (Some ip) ∧ (∀ k m, at_entry s k m → at_entry s' k m)
  end.
Proof.
  intros Ht Hat Hx Hd Hxx Hty Hl Hname He Hk Hf Hc0.
  destruct (dinode_fields s0 n x) as (X1 & _ & X3 & X4 & X5 & _). rewrite Hxx in X1, X3, X4, X5.
  pose proof (to_dir _ _ Htree n Hl ltac:(by rewrite <- X1)) as Hdir0.
  assert (dir_ok s x) as Hdir.
  { apply (dir_ok_ext s0); [apply Ht|]. apply (dir_ok_fields s0 (inode_of s0 n)); [unfold inode_of; by rsimpl|done..]. }
  assert (∀ o, dent s x o = dent s0 x o) as Hde by (intros o; apply slice_ext; apply Ht).
  assert (∀ o, hit s x name o ↔ hit s0 x name o) as Hhit by (intros o; unfold hit; by rewrite Hde).
  destruct (dirlookup_ok i pid st ops s bs ip x name (tb_txn _ _ _ Ht) Hx Hdir Hname Hroom) as (s1 & Ht1 & Hb1 & Hf1 & Hcase).
  destruct (tab_tframe s ks (Some ip) s1 Ht Ht1 Hb1 Hf1) as [HT1 HA1].
  destruct Hcase as [(o & Ho & Hm & Hh & Hmin & ->)|[Hno ->]].
  - rewrite (dir_look_found s0 n name e o x); [|done|done|done|by rewrite <- X3|done|by apply Hhit|intros o' Ho' Hm'; rewrite <- Hhit; by apply Hmin].
    rewrite Hde. destruct (tab_iget s1 ks (Some ip) (de_inum (dent s0 x o)) HT1) as (j & s2 & E2 & HT2 & Hj & HA2); [|done|done|done|].
    { intros j [= <-]. exists n. by apply HA1. }
    exists j, o, s2. split; [by erewrite bind_ok by exact E2|]. split; [done|]. split; [done|]. intros k m Hkm. by apply HA2, HA1.
  - rewrite (dir_look_none s0 n name e x); [|done|done|done|intros o Ho Hm; rewrite <- Hhit; apply Hno; [by rewrite X3|done]].
    exists s1. split; [done|]. split; done.
Qed.

Lemma tab_perm s ks ks' L : ks ≡ₚ ks' → tab s ks L → tab s ks' L.
Proof.
  intros Hp [T1 T2 T3 T4 T5 T6 T7 T8 T9]. split; try done. intros d n. rewrite T7.
  replace (cnt n ks') with (cnt n ks); [done|]. unfold cnt. f_equal. apply Permutation_length. by apply filter_Permutation.
Qed.

(** The result of a lookup: a reference to the inode found, or none. *)
Definition reached (s : kst) (o : option nat) (r : option Z) : Prop :=
  match r with
  | Some m => ∃ ip, o = Some ip ∧ tab s [m] None ∧ at_entry s ip m
  | None => o = None ∧ tab s [] None
  end.

Context (Hc0 : counted (itable s0)) (Hfree : (2 ≤ free_entries (itable s0))%nat).

Lemma tab_iunlockput s ks ip n :
  tab s (n :: ks) (Some ip) → at_entry s ip n → live n → (length ks ≤ 2)%nat →
  ∃ s', iunlockput ip s = Ok tt s' ∧ tab s' ks None ∧ (∀ k m, at_entry s k m → m ∈ ks → at_entry s' k m).
Proof.
  intros Ht Ha Hl Hk. destruct (tab_iunlock s _ ip n Ht Ha Hl) as (s1 & E1 & HT1 & HA1).
  destruct (tab_iput s1 ks ip n HT1 (HA1 _ _ Ha) Hl Hk Hc0) as (s2 & E2 & HT2 & HA2).
  exists s2. unfold iunlockput. split; [by erewrite bind_ok by exact E1|]. split; [done|]. intros k m Hkm Hm. apply HA2; [by apply HA1|done].
Qed.

(** The elements that are left, from directory [n]. *)
Definition target (parent : bool) (n : Z) (es : list (list Z)) : option Z := if parent then walk_parent s0 n es else walk_elems s0 n es.

Lemma target_step parent n e es m :
  dir_look s0 n e = Some m → (parent = true → es ≠ []) → target parent n (e :: es) = target parent m es.
Proof.
  intros Hm Hp. destruct parent; cbn [target walk_elems]; [|by rewrite Hm]. destruct es as [|e' es]; [by specialize (Hp eq_refl)|].
  unfold walk_parent. change (removelast (e :: e' :: es)) with (e :: removelast (e' :: es)). cbn [walk_elems]. by rewrite Hm.
Qed.

Lemma target_none parent n e es : dir_look s0 n e = None → (parent = true → es ≠ []) → target parent n (e :: es) = None.
Proof.
  intros Hm Hp. destruct parent; cbn [target walk_elems]; [|by rewrite Hm]. destruct es as [|e' es]; [by specialize (Hp eq_refl)|].
  unfold walk_parent. change (removelast (e :: e' :: es)) with (e :: removelast (e' :: es)). cbn [walk_elems]. by rewrite Hm.
Qed.

Lemma target_file parent n e es : i_type (inode_of s0 n) ≠ T_DIR → target parent n (e :: es) = None.
Proof.
  intros Ht. assert (dir_look s0 n e = None) as Hn by (unfold dir_look; by replace (i_type (inode_of s0 n) =? T_DIR) with false by lia).
  destruct es as [|e' es]; [|by apply target_none]. destruct parent; cbn; [|by rewrite Hn].
  by replace (i_type (inode_of s0 n) =? T_DIR) with false by lia.
Qed.

(** The name array of [nameiparent]. *)
Definition last_name (parent : bool) (es : list (list Z)) (o : option nat) (name : list Z) : Prop :=
  parent = true → o ≠ None → ∃ e, last es = Some e ∧ take 14 (cstr name) = take 14 e.

Lemma last_name_none parent es name : last_name parent es None name.
Proof. by intros _ []. Qed.

(** The name taken from an element. *)
Lemma elem_name path name e :
  Forall (λ c, 0 ≤ c < 256) path → length name = Z.to_nat DIRSIZ → Forall (λ c, 0 ≤ c < 256) name → Forall (λ c, c ≠ 0 ∧ c ∈ path) e →
  let name' := copy_elem name e in
  length name' = Z.to_nat DIRSIZ ∧ Forall (λ c, 0 ≤ c < 256) name' ∧ name_ok name' ∧ take 14 (cstr name') = take 14 e.
Proof.
  intros Hby Hln Hnb Hel. assert (Forall (λ c, c ≠ 0) e ∧ Forall (λ c, 0 ≤ c < 256) e) as [Hez Heb].
  { split; apply Forall_forall; intros c Hc; apply (proj1 (Forall_forall _ _) Hel) in Hc as [? ?]; [done|by apply (proj1 (Forall_forall _ _) Hby)]. }
  destruct (copy_elem_spec name e Hln Hez) as [Hln' Hcs]. pose proof (copy_elem_bytes name e Hnb Heb) as Hnb'.
  split_and!; [done|done| |done]. split; [done|left; rewrite Hln'; done].
Qed.

(** From a locked directory to the inode of the name. *)
Lemma tab_next s ip n x name e :
  tab s [n] (Some ip) → at_entry s ip n → itable s !! ip = Some x → i_dev x = ROOTDEV → dinode s0 n x = x → i_type x = T_DIR → live n →
  name_ok name → take 14 (cstr name) = take 14 e →
  match dir_look s0 n e with
  | Some m => ∃ j o s1 s2, dirlookup ip name s = Ok (Some (j, o)) s1 ∧ iunlockput ip s1 = Ok tt s2 ∧ tab s2 [m] None ∧ at_entry s2 j m
  | None => ∃ s1 s2, dirlookup ip name s = Ok None s1 ∧ iunlockput ip s1 = Ok tt s2 ∧ tab s2 [] None
  end.
Proof.
  intros Ht Ha Hx Hd Hxx Hty Hl Hok Hcs.
  pose proof (tab_dirlookup s [n] ip n x name e Ht Ha Hx Hd Hxx Hty Hl Hok Hcs ltac:(cbn; lia) ltac:(cbn; lia) Hc0) as Hlook.
  destruct (dir_look s0 n e) as [m|].
  - destruct Hlook as (j & o & s1 & E1 & HT1 & Hj & HA1). apply (tab_perm _ _ [n; m]) in HT1; [|apply Permutation_swap].
    destruct (tab_iunlockput s1 [m] ip n HT1 (HA1 _ _ Ha) Hl ltac:(cbn; lia)) as (s2 & E2 & HT2 & HA2).
    exists j, o, s1, s2. split_and!; [done..|]. apply HA2; [done|by apply list_elem_of_singleton].
  - destruct Hlook as (s1 & E1 & HT1 & HA1). destruct (tab_iunlockput s1 [] ip n HT1 (HA1 _ _ Ha) Hl ltac:(cbn; lia)) as (s2 & E2 & HT2 & _).
    by exists s1, s2.
Qed.

(** The end of the path. *)
Lemma namex_end s ip n (parent : bool) name :
  tab s [n] None → at_entry s ip n → live n →
  ∃ o s', (if parent then iput ip ;;; ret (None, name) else ret (Some ip, name)) s = Ok (o, name) s' ∧
    reached s' o (target parent n []) ∧ last_name parent [] o name.
Proof.
  intros Ht Ha Hl. destruct parent.
  - destruct (tab_iput s [] ip n Ht Ha Hl ltac:(cbn; lia) Hc0) as (s' & E & HT & _). exists None, s'.
    split; [by erewrite bind_ok by exact E|]. split; [by split|apply last_name_none].
  - exists (Some ip), s. split; [done|]. split; [by exists ip|done].
Qed.

Lemma namex_loop_ok es fuel s ip n path parent name :
  path_elems path = es → 0 ∈ path → Forall (λ c, 0 ≤ c < 256) path → (length path ≤ fuel)%nat →
  length name = Z.to_nat DIRSIZ → Forall (λ c, 0 ≤ c < 256) name → tab s [n] None → at_entry s ip n → live n →
  ∃ o name' s', namex_loop fuel ip path parent name s = Ok (o, name') s' ∧ reached s' o (target parent n es) ∧ last_name parent es o name'.
Proof.
  revert fuel s ip n path name. induction es as [|e es IH]; intros fuel s ip n path name Hes H0 Hby Hfu Hln Hnb Ht Ha Hl;
    pose proof (skipelem_spec path name H0) as Hsk; rewrite Hes in Hsk.
  - destruct (namex_end s ip n parent name Ht Ha Hl) as (o & s' & E & Hr). exists o, name, s'. split; [|exact Hr].
    destruct fuel; cbn [namex_loop]; erewrite bind_ok by (by rewrite Hsk); exact E.
  - destruct Hsk as (path' & Hsk & H0' & Hes' & Hsuf & Hlen & Hhead & Hel). destruct fuel as [|fuel]; [lia|]. cbn [namex_loop].
    erewrite bind_ok by (by rewrite Hsk). cbv beta iota. destruct (elem_name path name e Hby Hln Hnb Hel) as (Hln' & Hnb' & Hok & Hcs).
    set (name' := copy_elem name e) in *. clearbody name'.
    destruct (tab_ilock s [n] ip n Ht Ha Hl) as (s1 & x & E1 & HT1 & HA1 & Hx & Hd & Hxx). erewrite bind_ok by exact E1.
    erewrite bind_ok by (by apply geti_ok). destruct (dinode_fields s0 n x) as (X1 & _). rewrite Hxx in X1.
    pose proof (HA1 _ _ Ha) as Ha1. destruct (Z.eqb_spec (i_type x) T_DIR) as [Ety|Ety]; cbn [negb].
    2: { destruct (tab_iunlockput s1 [] ip n HT1 Ha1 Hl ltac:(cbn; lia)) as (s2 & E2 & HT2 & _). exists None, name', s2.
         split; [by erewrite bind_ok by exact E2|]. rewrite target_file by congruence. split; [by split|apply last_name_none]. }
    destruct (parent && (default 0 (head path') =? 0)) eqn:Ep.
    + apply andb_prop in Ep as [-> Eh%Z.eqb_eq]. apply Hhead in Eh as ->. destruct (tab_iunlock s1 [n] ip n HT1 Ha1 Hl) as (s2 & E2 & HT2 & HA2).
      exists (Some ip), name', s2. split; [by erewrite bind_ok by exact E2|]. split; [|intros _ _; by exists e].
      unfold target. cbn [walk_parent removelast walk_elems]. rewrite <- X1, Ety. change (T_DIR =? T_DIR) with true. exists ip. split_and!; [done|done|by apply HA2].
    + assert (parent = true → es ≠ []) as Hpar by (intros -> ->; rewrite (proj2 (Z.eqb_eq _ _)) in Ep by (by apply Hhead); done).
      pose proof (tab_next s1 ip n x name' e HT1 Ha1 Hx Hd Hxx Ety Hl Hok Hcs) as Hnx. destruct (dir_look s0 n e) as [m|] eqn:Em.
      * destruct Hnx as (j & o & s2 & s3 & E2 & E3 & HT3 & Hj). erewrite bind_ok by exact E2. cbv beta iota. erewrite bind_ok by exact E3.
        rewrite (target_step parent n e es m Em Hpar). pose proof (dir_look_live s0 live n e m Htree Hl Em) as Hm.
        assert (Forall (λ c, 0 ≤ c < 256) path') as Hby' by (destruct Hsuf as [k ->]; by apply Forall_app in Hby as [_ ?]).
        destruct (IH fuel s3 j m path' name' Hes' H0' Hby' ltac:(lia) Hln' Hnb' HT3 Hj Hm) as (o' & name2 & s4 & E4 & Hr4 & Hn4).
        exists o', name2, s4. split; [exact E4|]. split; [exact Hr4|]. intros Hp Ho. destruct (Hn4 Hp Ho) as (e' & He' & Hc'). exists e'.
        split; [by rewrite last_cons, He'|done].
      * destruct Hnx as (s2 & s3 & E2 & E3 & HT3). erewrite bind_ok by exact E2. cbv beta iota. exists None, name', s3.
        split; [by erewrite bind_ok by exact E3|]. rewrite (target_none parent n e es Em Hpar). split; [by split|apply last_name_none].
Qed.

(** Where the walk starts: the root, or the directory of the process. *)
Definition start_dir (path : list Z) (n : Z) : Prop :=
  if decide (head path = Some SLASH) then n = ROOTINO
  else ∃ p cip, procs s0 !! i = Some p ∧ p_cwd p = Some cip ∧ at_entry s0 cip n.

Lemma namex_ok path parent name n :
  tab s0 [] None → 0 ∈ path → Forall (λ c, 0 ≤ c < 256) path → length name = Z.to_nat DIRSIZ → Forall (λ c, 0 ≤ c < 256) name →
  start_dir path n → live n →
  ∃ o name' s', namex path parent name s0 = Ok (o, name') s' ∧ reached s' o (target parent n (path_elems path)) ∧
    last_name parent (path_elems path) o name'.
Proof.
  intros Ht H0 Hby Hln Hnb Hst Hl. unfold namex. destruct path as [|c path]; [by apply elem_of_nil in H0|].
  erewrite bind_ok by reflexivity.
  assert (∃ (ip : nat) (s : kst), (if c =? SLASH then iget ROOTDEV ROOTINO else i <- curproc ;; p <- getp i ;; cwd <- in_range (p_cwd p) ;; idup cwd) s0 = Ok ip s ∧
    tab s [n] None ∧ at_entry s ip n) as (ip & s & E & HT & Ha).
  { unfold start_dir in Hst. cbn [head] in Hst. destruct (Z.eqb_spec c SLASH) as [-> |Hc].
    - rewrite decide_True in Hst by done. subst n. destruct (tab_iget s0 [] None ROOTINO Ht) as (j & s & E & HT & Hj & _); [done|cbn; lia|cbn; lia|done|].
      by exists j, s.
    - rewrite decide_False in Hst by congruence. destruct Hst as (p & cip & Hp & Hcwd & (x & Hx & Hr & Hd & Hn)).
      pose proof (in_txn_running _ _ _ _ _ _ _ (tb_txn _ _ _ Ht)) as Hrun. erewrite bind_ok by (apply curproc_ok, Hrun).
      erewrite bind_ok by (by apply getp_ok). rewrite Hcwd. erewrite bind_ok by reflexivity. unfold idup.
      erewrite bind_ok by (apply acquire_ok; rewrite (rn_held _ _ _ Hrun); apply not_elem_of_nil).
      erewrite bind_ok by (apply updi_ok; rsimpl; exact Hx). cbv beta. fold (one_more x).
      erewrite bind_ok by (apply (release_top Litable (held s0)); [by rsimpl|rewrite (rn_held _ _ _ Hrun); apply not_elem_of_nil]).
      exists cip, (s0 <| itable := <[cip := one_more x]> (itable s0) |>). split; [unfold ret; f_equal; rsimpl; kst_eq s0|].
      split; [by apply tab_idup; [..|cbn; lia]|]. pose proof (tab_ref s0 [] None cip x Ht Hx Hd) as Hb. cbn [length] in Hb.
      apply (at_entry_insert s0 cip x); [done| |by exists x]. intros _. unfold one_more. rsimpl. rewrite s32_small by lia. split_and!; [lia|done|done]. }
  erewrite bind_ok by exact E. by eapply namex_loop_ok.
Qed.

End Path.

(** ** Path resolution *)

(** In a transaction with a tree on the disk: the inode table agrees with the
    disk, no inode is locked, no reference count is near its bound and two
    entries of the table are free. *)
Record lookup_ready (i : nat) (pid st ops : Z) (bs : list Z) (s : kst) (live : Z → Prop) : Prop := {
  lr_table : tab i pid st ops bs s live s [] None;
  lr_tree : tree_ok s live;
  lr_room : (length bs < NBUF)%nat;
  lr_bound : ∀ n, total (itable s) ROOTDEV n < 2 ^ 31 - 4;
  lr_free : (2 ≤ free_entries (itable s))%nat
}.

(** C13: [namex] follows the elements of the path through the directories on the
    disk. It always returns: with the inode the walk reaches, unlocked and with
    exactly one reference more than before the call, or, when an element is
    missing or not in a directory, with nothing and every reference count as it
    was. For [nameiparent] it is the inode of the last directory, and [name] is
    the last element. *)
Theorem namex_correct `{HL : Layout, HW : Wakeups, HB : BlockDev, HBO : !BlockDevOk} i pid st ops bs s live path (parent : bool) name n :
  lookup_ready i pid st ops bs s live → 0 ∈ path → Forall (λ c, 0 ≤ c < 256) path →
  length name = Z.to_nat DIRSIZ → Forall (λ c, 0 ≤ c < 256) name → start_dir i s path n → live n →
  ∃ o name' s', namex path parent name s = Ok (o, name') s' ∧
    reached i pid st ops bs s live s' o (if parent then walk_parent s n (path_elems path) else walk_elems s n (path_elems path)) ∧
    last_name parent (path_elems path) o name'.
Proof.
  intros [Ht Htr Hro Hb Hf] H0 Hp Hl Hn Hs Hlv.
  exact (namex_ok i pid st ops bs s live Hro Htr Hb (tb_pos _ _ _ _ _ _ _ _ _ _ Ht) Hf path parent name n Ht H0 Hp Hl Hn Hs Hlv).
Qed.

(** ** A disk with a root directory that names itself and a file *)

Definition demo_inodes : list Z :=
  replicate 64 0 ++ [1; 0; 0; 0; 0; 0; 1; 0; 32; 0; 0; 0; 46] ++ replicate 51 0 ++ replicate 192 0 ++
  [2; 0; 0; 0; 0; 0; 1] ++ replicate 57 0 ++ replicate 640 0.
Definition demo_blocks : gmap Z (list Z) := {[ 33 := demo_inodes; 46 := demo_entries ++ replicate 992 0 ]}.
Definition path_boot : kst := fs_disk demo_blocks.
(** The path [/./sh]. *)
Definition demo_path : list Z := [47; 46; 47; 115; 104; 0].

#[local] Instance path_layout : Layout := Build_Layout 0x80020000 0x80010000 0x80009000 0 0 0 0 0.
#[local] Instance path_wakeups : Wakeups := 0%nat.
#[local] Instance path_disk : BlockDev := ram_disk.
#[local] Instance path_disk_ok : BlockDevOk := ram_disk_ok.

Lemma path_boot_inode n : 0 ≤ n < 16 → inode_of path_boot n = (load_dinode demo_inodes (DI_OFF n) inode0) <| i_dev := ROOTDEV |> <| i_inum := n |>.
Proof.
  intros Hn. unfold inode_of, dinode. change (sb path_boot) with demo_sb. unfold path_boot. rewrite fs_disk_blk.
  unfold IBLOCK, IPB. by rewrite Z.div_small.
Qed.

Lemma path_boot_holds : holds_demo path_boot (inode_of path_boot 1).
Proof. rewrite path_boot_inode by lia. split_and!; [unfold path_boot; by rewrite fs_disk_blk|reflexivity..]. Qed.

Lemma path_boot_offs : entry_offs (inode_of path_boot 1) = [0; 16].
Proof. unfold entry_offs. destruct path_boot_holds as (_ & _ & -> & _). reflexivity. Qed.

Lemma path_boot_tree : tree_ok path_boot (λ n, n = 1 ∨ n = 5).
Proof.
  pose proof path_boot_holds as H1. assert (inode_of path_boot 5 = (load_dinode demo_inodes (DI_OFF 5) inode0) <| i_dev := ROOTDEV |> <| i_inum := 5 |>) as E5
    by (apply path_boot_inode; lia).
  split.
  - by left.
  - intros n [-> | ->]; rewrite path_boot_inode by lia; split; discriminate.
  - intros n [-> | ->] Ht; [by apply demo_dir_ok|]. rewrite E5 in Ht. discriminate Ht.
  - intros n o [-> | ->] Ht; [|rewrite E5 in Ht; discriminate Ht]. rewrite path_boot_offs.
    pose proof (demo_dent _ _ 0 H1 ltac:(lia)) as D0. pose proof (demo_dent _ _ 1 H1 ltac:(lia)) as D1.
    change (16 * Z.of_nat 0) with 0 in D0. change (16 * Z.of_nat 1) with 16 in D1.
    intros [-> |[-> |[]%elem_of_nil]%elem_of_cons]%elem_of_cons _; [rewrite D0|rewrite D1]; [by left|by right].
Qed.

Lemma path_boot_ready : lookup_ready 0 1 2 1 [] path_boot (λ n, n = 1 ∨ n = 5).
Proof.
  assert (∀ j x, itable path_boot !! j = Some x → x = inode0) as H0 by (intros j x Hx; by apply lookup_replicate in Hx as [? _]).
  split; [|exact path_boot_tree|unfold NBUF; cbn; lia| |].
  - split.
    + apply fs_disk_txn.
    + done.
    + apply tframe_refl.
    + done.
    + intros j k x y Hx Hy Hr. rewrite (H0 j x Hx) in Hr. cbn in Hr. lia.
    + intros j x Hx. by rewrite (H0 j x Hx).
    + intros d n. replace (cnt n []) with 0 by reflexivity. case_decide; lia.
    + intros j x Hx _. by rewrite (H0 j x Hx).
    + intros j x Hx Hr. rewrite (H0 j x Hx) in Hr. cbn in Hr. lia.
  - intros n. replace (total (itable path_boot) ROOTDEV n) with 0 by reflexivity. lia.
  - replace (free_entries (itable path_boot)) with 50%nat by reflexivity. lia.
Qed.

Lemma path_boot_walk : walk_elems path_boot 1 (path_elems demo_path) = Some 5.
Proof.
  pose proof path_boot_holds as H1. pose proof (demo_dent _ _ 0 H1 ltac:(lia)) as D0. pose proof (demo_dent _ _ 1 H1 ltac:(lia)) as D1.
  change (16 * Z.of_nat 0) with 0 in D0. change (16 * Z.of_nat 1) with 16 in D1.
  assert (dir_look path_boot 1 [46] = Some 1 ∧ dir_look path_boot 1 [115; 104] = Some 5) as [L1 L2].
  { unfold dir_look. rewrite path_boot_offs. destruct H1 as (_ & _ & _ & _ & Ht). rewrite Ht. cbn [list_find].
    rewrite !Z.eqb_refl. split.
    - rewrite decide_True by (unfold entry_for; rewrite D0; split; [discriminate|reflexivity]). cbn [fmap option_fmap option_map snd]. by rewrite D0.
    - rewrite decide_False by (unfold entry_for; rewrite D0; intros [_ H]; discriminate H). cbn [list_find].
      rewrite decide_True by (unfold entry_for; rewrite D1; split; [discriminate|reflexivity]). cbn. rewrite D1. reflexivity. }
  change (path_elems demo_path) with [[46]; [115; 104]]. cbn [walk_elems]. by rewrite L1, L2.
Qed.

(** [/./sh] is the file with inode number 5. *)
Lemma namex_correct_witness :
  ∃ ip name' s', namex demo_path false (replicate 14 0) path_boot = Ok (Some ip, name') s' ∧ at_entry s' ip 5.
Proof.
  destruct (namex_correct 0 1 2 1 [] path_boot (λ n, n = 1 ∨ n = 5) demo_path false (replicate 14 0) 1 path_boot_ready)
    as (o & name' & s' & E & Hr & _); [apply list_elem_of_In; cbn; tauto|repeat constructor; lia|reflexivity|repeat constructor; lia|reflexivity|by left|].
  cbv iota in Hr. rewrite path_boot_walk in Hr. destruct Hr as (ip & -> & _ & Ha).
  exists ip, name', s'. split; [exact E|exact Ha].
Defined.
