(* ===== verification/Console.v ===== *)
(** * The console and its serial line ([kernel/console.c], [kernel/uart.c])

    The UART itself is outside the kernel: [uart_out] collects the bytes
    written to its transmit register, [uartintr] takes what it would read from
    the device (whether the transmitter is idle, and the characters waiting).
    The busy wait of [uartputc_sync] for an idle transmitter is not modelled. *)

From Stdlib Require Import ZArith Lia.
From S2P Require Import Prelude Params CString State Process Vm Bytes Sleeplock Bio Log Fs.
From stdpp Require Import base gmap strings numbers list.

Open Scope Z_scope.

Definition BACKSPACE : Z := 0x100.
Definition C (x : Z) : Z := x - 64.
Definition INPUT_BUF_SIZE : Z := 128.
Definition NEWLINE : Z := 10.
Definition DEL : Z := 0x7f.

(** ** uart.c *)

Definition WriteReg_THR (c : Z) : KM unit := modify (λ s, s <| uart_out ::= List.cons (u8 c) |>).

Definition uartputc_sync (c : Z) : KM unit := WriteReg_THR c.

Section Uart.
Context `{Wakeups}.

(** [while(tx_busy != 0) sleep(&tx_chan, &tx_lock)] *)
Fixpoint uart_wait (fuel : nat) : KM unit :=
  busy <- gets tx_busy ;;
  if busy =? 0 then ret tt
  else match fuel with
       | O => nofuel
       | S fuel' => sleep ChTx Ltx ;;; uart_wait fuel'
       end.

Fixpoint uartwrite_loop (buf : list Z) : KM unit :=
  match buf with
  | [] => ret tt
  | c :: buf' =>
      uart_wait wakeups ;;;
      WriteReg_THR c ;;;
      modify (λ s, s <| tx_busy := 1 |>) ;;;
      uartwrite_loop buf'
  end.

(** [buf] is the [n] bytes to send. *)
Definition uartwrite (buf : list Z) : KM unit :=
  acquire Ltx ;;;
  uartwrite_loop buf ;;;
  release Ltx.

End Uart.

(** ** console.c *)

Definition consputc (c : Z) : KM unit :=
  if c =? BACKSPACE then uartputc_sync 8 ;;; uartputc_sync 32 ;;; uartputc_sync 8
  else uartputc_sync c.

Definition getcons : KM console := gets kcons.
Definition updcons (f : console → console) : KM unit := modify (λ s, s <| kcons ::= f |>).

(** [cons.buf[i % INPUT_BUF_SIZE]] *)
Definition cons_slot (i : Z) : nat := Z.to_nat (i mod INPUT_BUF_SIZE).
Definition cons_byte (c : console) (i : Z) : Z := default 0 (c_buf c !! cons_slot i).

(** Kill line. *)
Fixpoint kill_line (fuel : nat) : KM unit :=
  c <- getcons ;;
  if negb (c_e c =? c_w c) && negb (cons_byte c (u32 (c_e c - 1)) =? NEWLINE) then
    match fuel with
    | O => nofuel
    | S fuel' =>
        updcons (λ c, c <| c_e := u32 (c_e c - 1) |>) ;;;
        consputc BACKSPACE ;;;
        kill_line fuel'
    end
  else ret tt.

(** The value of the enumeration, which selects the text printed. *)
Definition state_index (st : procstate) : Z :=
  match st with UNUSED => 0 | USED => 1 | SLEEPING => 2 | RUNNABLE => 3 | RUNNING => 4 | ZOMBIE => 5 end.

Definition procdump : KM unit :=
  printk "\n" [] ;;;
  for_each table (λ i,
    p <- getp i ;;
    (when negb (is_state UNUSED p) do 
       (printk "%d %s %s" (p_pid p :: state_index (p_state p) :: p_name p) ;;; printk "\n" [])) ;;;
    ret (@None unit)) ;;;
  ret tt.

(** A character stored at the edit index. *)
Definition store_char (ch : Z) : KM unit :=
  updcons (λ c, c <| c_buf ::= <[cons_slot (c_e c) := u8 ch]> |> <| c_e := u32 (c_e c + 1) |>).

Definition consoleintr (ch : Z) : KM unit :=
  acquire Lcons ;;;
  (if ch =? C 80 then procdump
   else if ch =? C 85 then kill_line (Z.to_nat INPUT_BUF_SIZE)
   else if (ch =? C 72) || (ch =? DEL) then
     c <- getcons ;;
     when negb (c_e c =? c_w c) do
       (updcons (λ c, c <| c_e := u32 (c_e c - 1) |>) ;;; consputc BACKSPACE)
   else
     c <- getcons ;;
     when negb (ch =? 0) && (u32 (c_e c - c_r c) <? INPUT_BUF_SIZE) do
       (let ch := if ch =? 13 then NEWLINE else ch in
        consputc ch ;;;
        store_char ch ;;;
        c <- getcons ;;
        when (ch =? NEWLINE) || (ch =? C 68) || (u32 (c_e c - c_r c) =? INPUT_BUF_SIZE) do
          (updcons (λ c, c <| c_w := c_e c |>) ;;; wakeup ChCons))) ;;;
  release Lcons.

(** [while(1){ c = uartgetc(); if(c == -1) break; consoleintr(c); }] over the
    characters waiting. *)
Fixpoint uart_input (rx : list Z) : KM unit :=
  match rx with
  | [] => ret tt
  | c :: rx' => consoleintr c ;;; uart_input rx'
  end.

Definition uartintr (tx_idle : bool) (rx : list Z) : KM unit :=
  acquire Ltx ;;;
  (when tx_idle do (modify (λ s, s <| tx_busy := 0 |>) ;;; wakeup ChTx)) ;;;
  release Ltx ;;;
  uart_input rx.

Section Console.
Context `{Layout, Wakeups}.

(** [while(i < n)], 32 bytes at a time. *)
Fixpoint consolewrite_loop (fuel : nat) (src : source) (n i : Z) : KM Z :=
  if i <? n then
    match fuel with
    | O => nofuel
    | S fuel' =>
        let nn := Z.min 32 (n - i) in
        r <- either_copyin src nn ;;
        if fst r =? -1 then ret i
        else uartwrite (snd r) ;;; consolewrite_loop fuel' (advance_source src nn) n (i + nn)
    end
  else ret i.

Definition consolewrite (src : source) (n : Z) : KM Z :=
  consolewrite_loop (Z.to_nat (n / 32 + 2)) src n 0.

(** The wait for input; [false] when the process was killed, with the lock
    released. *)
Fixpoint consoleread_wait (fuel : nat) (p : nat) : KM bool :=
  c <- getcons ;;
  if c_r c =? c_w c then
    k <- killed p ;;
    if negb (k =? 0) then release Lcons ;;; ret false
    else match fuel with
         | O => nofuel
         | S fuel' => sleep ChCons Lcons ;;; consoleread_wait fuel' p
         end
  else ret true.

(** [n] bytes are left to read of [target]; [inl]: killed. *)
Fixpoint consoleread_loop (n : nat) (dst : target) (target : Z) (acc : list Z) : KM (unit + (Z * list Z)) :=
  match n with
  | O => ret (inr (0, acc))
  | S n' =>
      p <- curproc ;;
      alive <- consoleread_wait wakeups p ;;
      if negb alive then ret (inl tt)
      else
        co <- getcons ;;
        let c := cons_byte co (c_r co) in
        updcons (λ co, co <| c_r := u32 (c_r co + 1) |>) ;;;
        if c =? C 68 then
          (when Z.of_nat n <? target do updcons (λ co, co <| c_r := u32 (c_r co - 1) |>)) ;;;
          ret (inr (Z.of_nat n, acc))
        else
          r <- either_copyout dst [c] ;;
          if r =? -1 then ret (inr (Z.of_nat n, acc))
          else if c =? NEWLINE then ret (inr (Z.of_nat n', acc ++ [c]))
          else consoleread_loop n' (advance_target dst 1) target (acc ++ [c])
  end.

(** Returns the count with the bytes delivered. *)
Definition consoleread (dst : target) (n : Z) : KM (Z * list Z) :=
  acquire Lcons ;;;
  r <- consoleread_loop (Z.to_nat n) dst (u32 n) [] ;;
  match r with
  | inl _ => ret (-1, [])
  | inr (rem, bytes) =>
      release Lcons ;;;
      ret (s32 (u32 n - (if n <=? 0 then n else rem)), bytes)
  end.

End Console.
