(* ===== verification/File.v ===== *)
(** * Open files ([kernel/file.c]) and the creation of pipes

    A file pointer is an index in [ftable].  [devsw] has one entry in use, the
    console, which [consoleinit] connects. *)

From Stdlib Require Import ZArith Lia.
From S2P Require Import Prelude Params CString State Kalloc Process Vm Bytes Sleeplock Bio Log Fs Console Pipe.
From stdpp Require Import base gmap strings numbers list.

Open Scope Z_scope.

Definition CONSOLE : Z := 1.

Definition getf (f : nat) : KM file := λ s,
  match ftable s !! f with Some x => Ok x s | None => Fault end.
Definition updf (f : nat) (g : file → file) : KM unit :=
  x <- getf f ;; modify (λ s, s <| ftable ::= <[f := g x]> |>).

(** A [struct stat]; [pad] is what the four padding bytes of the variable
    happen to hold. *)
Definition stat_bytes (st : Z * Z * Z * Z * Z) (pad : list Z) : list Z :=
  let '(dev, ino, type, nlink, size) := st in
  le_encode 4 dev ++ le_encode 4 ino ++ le_encode 2 type ++ le_encode 2 nlink ++ take 4 pad ++ le_encode 8 size.

Definition filealloc : KM (option nat) :=
  acquire Lftable ;;;
  r <- for_each (seq 0 NFILE) (λ f,
    x <- getf f ;;
    if f_ref x =? 0 then
      updf f (λ x, x <| f_ref := 1 |>) ;;;
      release Lftable ;;;
      ret (Some f)
    else ret None) ;;
  match r with
  | Some f => ret (Some f)
  | None => release Lftable ;;; ret None
  end.

Definition filedup (f : nat) : KM nat :=
  acquire Lftable ;;;
  x <- getf f ;;
  if f_ref x <? 1 then panic "filedup"
  else
    updf f (λ x, x <| f_ref := s32 (f_ref x + 1) |>) ;;;
    release Lftable ;;;
    ret f.

Definition fdtype (t : filetype) (f : file) : bool := bool_decide (f_type f = t).

Section File.
Context `{Layout, Wakeups, BlockDev}.

Definition fileclose (f : nat) : KM unit :=
  acquire Lftable ;;;
  x <- getf f ;;
  if f_ref x <? 1 then panic "fileclose"
  else
    updf f (λ x, x <| f_ref := s32 (f_ref x - 1) |>) ;;;
    ff <- getf f ;;
    if f_ref ff >? 0 then release Lftable
    else
      updf f (λ x, x <| f_ref := 0 |> <| f_type := FD_NONE |>) ;;;
      release Lftable ;;;
      if fdtype FD_PIPE ff then pipeclose (f_pipe ff) (negb (f_writable ff =? 0))
      else
        when fdtype FD_INODE ff || fdtype FD_DEVICE ff do
          (ip <- in_range (f_ip ff) ;;
           begin_op ;;; iput ip ;;; end_op).

Definition filestat (pad : list Z) (f : nat) (addr : Z) : KM Z :=
  i <- curproc ;;
  x <- getf f ;;
  if fdtype FD_INODE x || fdtype FD_DEVICE x then
    ip <- in_range (f_ip x) ;;
    ilock ip ;;;
    st <- stati ip ;;
    iunlock ip ;;;
    p <- getp i ;;
    r <- copyout (p_pagetable p) addr (stat_bytes st pad) ;;
    ret (if r <? 0 then -1 else 0)
  else ret (-1).

(** Whether [devsw[major].read] and [.write] are set. *)
Definition has_dev (major : Z) : bool := (0 <=? major) && (major <? NDEV) && (major =? CONSOLE).

Definition fileread (f : nat) (addr n : Z) : KM Z :=
  x <- getf f ;;
  if f_readable x =? 0 then ret (-1)
  else match f_type x with
  | FD_PIPE => piperead wakeups (f_pipe x) addr n
  | FD_DEVICE =>
      if negb (has_dev (f_major x)) then ret (-1)
      else r <- consoleread (ToUser addr) n ;; ret (fst r)
  | FD_INODE =>
      ip <- in_range (f_ip x) ;;
      ilock ip ;;;
      x <- getf f ;;
      r <- readi ip (ToUser addr) (f_off x) (u32 n) ;;
      (when fst r >? 0 do updf f (λ x, x <| f_off := u32 (f_off x + fst r) |>)) ;;;
      iunlock ip ;;;
      ret (fst r)
  | FD_NONE => panic "fileread"
  end.

(** The largest part of a write done in one transaction. *)
Definition write_max : Z := (MAXOPBLOCKS - 1 - 1 - 2) / 2 * BSIZE.

(** Returns the [i] the loop ends with. *)
Fixpoint filewrite_loop (fuel : nat) (f ip : nat) (addr n i : Z) : KM Z :=
  if i <? n then
    match fuel with
    | O => nofuel
    | S fuel' =>
        let n1 := Z.min (n - i) write_max in
        begin_op ;;;
        ilock ip ;;;
        x <- getf f ;;
        r <- writei ip (FromUser (u64 (addr + i))) (f_off x) n1 ;;
        (when r >? 0 do updf f (λ x, x <| f_off := u32 (f_off x + r) |>)) ;;;
        iunlock ip ;;;
        end_op ;;;
        if negb (r =? n1) then ret i else filewrite_loop fuel' f ip addr n (i + r)
    end
  else ret i.

Definition filewrite (f : nat) (addr n : Z) : KM Z :=
  x <- getf f ;;
  if f_writable x =? 0 then ret (-1)
  else match f_type x with
  | FD_PIPE => pipewrite wakeups (f_pipe x) addr n
  | FD_DEVICE =>
      if negb (has_dev (f_major x)) then ret (-1) else consolewrite (FromUser addr) n
  | FD_INODE =>
      ip <- in_range (f_ip x) ;;
      i <- filewrite_loop (Z.to_nat (n / write_max + 2)) f ip addr n 0 ;;
      ret (if i =? n then n else -1)
  | FD_NONE => panic "filewrite"
  end.

(** The new pipe; the ring is whatever the page held. *)
Definition new_pipe (data : list Z) : pipe := mkPipe data 0 0 1 1.

Definition set_pipe_end (f : nat) (pi : Z) (readable writable : Z) : KM unit :=
  updf f (λ x, x <| f_type := FD_PIPE |> <| f_readable := readable |> <| f_writable := writable |> <| f_pipe := pi |>).

(** [goto bad] with [pi] null. *)
Definition pipealloc_bad (f0 f1 : option nat) : KM (option (nat * nat)) :=
  (match f0 with Some f => fileclose f | None => ret tt end) ;;;
  (match f1 with Some f => fileclose f | None => ret tt end) ;;;
  ret None.

(** The two ends, or [None] for -1. *)
Definition pipealloc : KM (option (nat * nat)) :=
  f0 <- filealloc ;;
  match f0 with
  | None => pipealloc_bad None None
  | Some r =>
      f1 <- filealloc ;;
      match f1 with
      | None => pipealloc_bad f0 None
      | Some w =>
          pi <- kalloc ;;
          if pi =? 0 then pipealloc_bad f0 f1
          else
            data <- kread pi PIPESIZE ;;
            modify (λ s, s <| pipes ::= <[pi := new_pipe data]> |>) ;;;
            set_pipe_end r pi 1 0 ;;;
            set_pipe_end w pi 0 1 ;;;
            ret (Some (r, w))
      end
  end.

End File.
