(* ===== verification/Lifecycle.v ===== *)
(** * Creation and end of processes ([kernel/proc.c])

    [allocproc] and [freeproc], the page table of a process, [growproc],
    [kfork], [kexit], [reparent] and [kwait].  A process pointer is an index
    in the process table; the trap frame is a page of RAM. *)

From Stdlib Require Import ZArith Lia.
From S2P Require Import Prelude Params CString State Kalloc Process Vm Bytes Sleeplock Bio Log Fs Dir Pipe Console File.
From stdpp Require Import base gmap strings numbers list.

Open Scope Z_scope.

(** ** [struct trapframe] *)
Definition TF_SIZE : Z := 288.
Definition TF_KERNEL_SATP : Z := 0.
Definition TF_KERNEL_SP : Z := 8.
Definition TF_KERNEL_TRAP : Z := 16.
Definition TF_EPC : Z := 24.
Definition TF_KERNEL_HARTID : Z := 32.
Definition TF_SP : Z := 48.
(** Register [a0] to [a7]. *)
Definition TF_A (n : Z) : Z := 112 + 8 * n.

(** [memset(&p->context, 0, ...)] with [ra] and [sp] set. *)
Definition fresh_context (ra sp : Z) : context := mkContext ra sp (replicate 12 0).

(** The fields [allocproc] initialises of the slot it found. *)
Definition init_proc (pid : Z) (p : proc) : proc :=
  p <| p_pid := pid |> <| p_state := USED |> <| p_power_mode := POWER_NORMAL |> <| p_cpu_budget := 0 |>
    <| p_ticks_used := 0 |> <| p_ticks_total := 0 |> <| p_budget_window_start := 0 |>
    <| p_eco_skip_counter := 0 |> <| p_cpu_ticks := 0 |> <| p_cpu_ticks_limit := 0 |>
    <| p_sched_count := 0 |> <| p_disk_writes := 0 |>.

(** The fields [freeproc] resets. *)
Definition clear_proc (p : proc) : proc :=
  p <| p_trapframe := 0 |> <| p_pagetable := 0 |> <| p_sz := 0 |> <| p_pid := 0 |> <| p_parent := None |>
    <| p_name ::= <[0%nat := 0]> |> <| p_chan := ChNull |> <| p_killed := 0 |> <| p_xstate := 0 |>
    <| p_power_mode := POWER_NORMAL |> <| p_cpu_budget := 0 |> <| p_ticks_used := 0 |>
    <| p_ticks_total := 0 |> <| p_budget_window_start := 0 |> <| p_eco_skip_counter := 0 |>
    <| p_state := UNUSED |> <| p_cpu_ticks := 0 |> <| p_sched_count := 0 |> <| p_disk_writes := 0 |>
    <| p_cpu_ticks_limit := 0 |>.

(** What the child inherits in [kfork] under the parent's lock. *)
Definition inherit (p np : proc) : proc :=
  np <| p_power_mode := p_power_mode p |> <| p_cpu_budget := p_cpu_budget p |> <| p_ticks_used := 0 |>
     <| p_ticks_total := 0 |> <| p_budget_window_start := p_budget_window_start p |>
     <| p_eco_skip_counter := 0 |> <| p_cpu_ticks := 0 |> <| p_cpu_ticks_limit := p_cpu_ticks_limit p |>.

Definition chan_of (p : option nat) : channel := match p with Some i => ChProc i | None => ChNull end.

Section Lifecycle.
Context `{Layout, Wakeups, BlockDev}.

Definition procinit : KM unit :=
  for_range 0 NPROC (λ i,
    updp i (λ p, p <| p_state := UNUSED |> <| p_kstack := KSTACK (Z.of_nat i) |>)).

Definition proc_pagetable (i : nat) : KM Z :=
  pagetable <- uvmcreate ;;
  if pagetable =? 0 then ret 0
  else
    r <- mappages pagetable TRAMPOLINE PGSIZE trampoline (Z.lor PTE_R PTE_X) ;;
    if r <? 0 then uvmfree pagetable 0 ;;; ret 0
    else
      p <- getp i ;;
      r <- mappages pagetable TRAPFRAME PGSIZE (p_trapframe p) (Z.lor PTE_R PTE_W) ;;
      if r <? 0 then
        uvmunmap pagetable TRAMPOLINE 1 false ;;;
        uvmfree pagetable 0 ;;;
        ret 0
      else ret pagetable.

Definition proc_freepagetable (pagetable sz : Z) : KM unit :=
  uvmunmap pagetable TRAMPOLINE 1 false ;;;
  uvmunmap pagetable TRAPFRAME 1 false ;;;
  uvmfree pagetable sz.

Definition freeproc (i : nat) : KM unit :=
  p <- getp i ;;
  (when negb (p_trapframe p =? 0) do kfree (p_trapframe p)) ;;;
  updp i (λ p, p <| p_trapframe := 0 |>) ;;;
  (when negb (p_pagetable p =? 0) do proc_freepagetable (p_pagetable p) (p_sz p)) ;;;
  updp i clear_proc.

(** [goto found]: the slot, its lock held. *)
Definition find_unused : KM (option nat) :=
  for_each table (λ i,
    acquire (Lproc i) ;;;
    p <- getp i ;;
    if is_state UNUSED p then ret (Some i) else release (Lproc i) ;;; ret None).

Definition allocproc : KM (option nat) :=
  o <- find_unused ;;
  match o with
  | None => ret None
  | Some i =>
      pid <- allocpid ;;
      updp i (init_proc pid) ;;;
      tf <- kalloc ;;
      updp i (λ p, p <| p_trapframe := tf |>) ;;;
      if tf =? 0 then freeproc i ;;; release (Lproc i) ;;; ret None
      else
        pt <- proc_pagetable i ;;
        updp i (λ p, p <| p_pagetable := pt |>) ;;;
        if pt =? 0 then freeproc i ;;; release (Lproc i) ;;; ret None
        else
          updp i (λ p, p <| p_context := fresh_context forkret_addr (u64 (p_kstack p + PGSIZE)) |>) ;;;
          ret (Some i)
  end.

Definition userinit : KM unit :=
  o <- allocproc ;;
  modify (λ s, s <| initproc := o |>) ;;;
  i <- in_range o ;;
  cwd <- namei [SLASH; 0] ;;
  updp i (λ p, p <| p_cwd := cwd |>) ;;;
  updp i (λ p, p <| p_state := RUNNABLE |>) ;;;
  release (Lproc i).

Definition growproc (n : Z) : KM Z :=
  i <- curproc ;;
  p <- getp i ;;
  let sz := p_sz p in
  if n >? 0 then
    if u64 (sz + n) >? TRAPFRAME then ret (-1)
    else
      sz' <- uvmalloc (p_pagetable p) sz (u64 (sz + n)) PTE_W ;;
      if sz' =? 0 then ret (-1)
      else updp i (λ p, p <| p_sz := sz' |>) ;;; ret 0
  else if n <? 0 then
    sz' <- uvmdealloc (p_pagetable p) sz (u64 (sz + n)) ;;
    updp i (λ p, p <| p_sz := sz' |>) ;;; ret 0
  else updp i (λ p, p <| p_sz := sz |>) ;;; ret 0.

(** [for(i = 0; i < NOFILE; i++) if(p->ofile[i]) np->ofile[i] = filedup(...)] *)
Definition dup_files (me np : nat) : KM unit :=
  for_range 0 NOFILE (λ fd,
    p <- getp me ;;
    o <- in_range (p_ofile p !! fd) ;;
    match o with
    | Some f => f' <- filedup f ;; updp np (λ q, q <| p_ofile ::= <[fd := Some f']> |>)
    | None => ret tt
    end).

Definition kfork : KM Z :=
  me <- curproc ;;
  o <- allocproc ;;
  match o with
  | None => ret (-1)
  | Some np =>
      p <- getp me ;;
      q <- getp np ;;
      r <- uvmcopy (p_pagetable p) (p_pagetable q) (p_sz p) ;;
      if r <? 0 then freeproc np ;;; release (Lproc np) ;;; ret (-1)
      else
        updp np (λ q, q <| p_sz := p_sz p |>) ;;;
        kmemmove (p_trapframe q) (p_trapframe p) TF_SIZE ;;;
        st64 (p_trapframe q + TF_A 0) 0 ;;;
        dup_files me np ;;;
        cwd <- in_range (p_cwd p) ;;
        cwd' <- idup cwd ;;
        updp np (λ q, q <| p_cwd := Some cwd' |>) ;;;
        name <- in_range (safestrcpy (p_name q) (p_name p) 16) ;;
        updp np (λ q, q <| p_name := name |>) ;;;
        acquire (Lproc me) ;;;
        p <- getp me ;;
        updp np (inherit p) ;;;
        release (Lproc me) ;;;
        q <- getp np ;;
        let pid := p_pid q in
        release (Lproc np) ;;;
        acquire Lwait ;;;
        updp np (λ q, q <| p_parent := Some me |>) ;;;
        release Lwait ;;;
        acquire (Lproc np) ;;;
        updp np (λ q, q <| p_state := RUNNABLE |>) ;;;
        release (Lproc np) ;;;
        ret pid
  end.

Definition reparent (me : nat) : KM unit :=
  for_range 0 NPROC (λ i,
    pp <- getp i ;;
    when bool_decide (p_parent pp = Some me) do
      (init <- gets initproc ;;
       updp i (λ p, p <| p_parent := init |>) ;;;
       wakeup (chan_of init))).

(** Close all open files. *)
Definition close_files (me : nat) : KM unit :=
  for_range 0 NOFILE (λ fd,
    p <- getp me ;;
    o <- in_range (p_ofile p !! fd) ;;
    match o with
    | Some f => fileclose f ;;; updp me (λ p, p <| p_ofile ::= <[fd := None]> |>)
    | None => ret tt
    end).

Definition kexit (status : Z) : KM unit :=
  me <- curproc ;;
  init <- gets initproc ;;
  if bool_decide (Some me = init) then panic "init exiting"
  else
    close_files me ;;;
    begin_op ;;;
    p <- getp me ;;
    cwd <- in_range (p_cwd p) ;;
    iput cwd ;;;
    end_op ;;;
    updp me (λ p, p <| p_cwd := None |>) ;;;
    acquire Lwait ;;;
    reparent me ;;;
    p <- getp me ;;
    wakeup (chan_of (p_parent p)) ;;;
    acquire (Lproc me) ;;;
    updp me (λ p, p <| p_xstate := status |> <| p_state := ZOMBIE |>) ;;;
    release Lwait ;;;
    sched ;;;
    panic "zombie exit".

(** One scan for exited children: [inl r] when [kwait] returns [r], otherwise
    whether there are children. *)
Fixpoint wait_scan (l : list nat) (me : nat) (addr : Z) (havekids : bool) : KM (Z + bool) :=
  match l with
  | [] => ret (inr havekids)
  | i :: l' =>
      pp <- getp i ;;
      if bool_decide (p_parent pp = Some me) then
        acquire (Lproc i) ;;;
        pp <- getp i ;;
        if is_state ZOMBIE pp then
          let pid := p_pid pp in
          r <- (if negb (addr =? 0) then
                  p <- getp me ;; copyout (p_pagetable p) addr (le_encode 4 (p_xstate pp))
                else ret 0) ;;
          if r <? 0 then
            release (Lproc i) ;;;
            release Lwait ;;;
            ret (inl (-1))
          else
            freeproc i ;;;
            release (Lproc i) ;;;
            release Lwait ;;;
            ret (inl pid)
        else release (Lproc i) ;;; wait_scan l' me addr true
      else wait_scan l' me addr havekids
  end.

Fixpoint kwait_loop (fuel : nat) (me : nat) (addr : Z) : KM Z :=
  r <- wait_scan table me addr false ;;
  match r with
  | inl r => ret r
  | inr havekids =>
      stop <- (if negb havekids then ret true else k <- killed me ;; ret (negb (k =? 0))) ;;
      if (stop : bool) then release Lwait ;;; ret (-1)
      else match fuel with
           | O => nofuel
           | S fuel' => sleep (ChProc me) Lwait ;;; kwait_loop fuel' me addr
           end
  end.

Definition kwait (addr : Z) : KM Z :=
  me <- curproc ;;
  acquire Lwait ;;;
  kwait_loop wakeups me addr.

End Lifecycle.
