(* ===== verification/Freewalk.v ===== *)
(** * The end of an address space

    [freewalk], [uvmfree] and [proc_freepagetable] return every page of an
    address space to the allocator: the tables and the user pages, but not the
    trampoline; none is freed twice, and [freewalk] never meets a leaf.
    [freeproc] also frees the trapframe.  [tpages] lists the pages of a tree
    of tables the way [freewalk] visits them. *)

From Stdlib Require Import ZArith Lia.
From S2P Require Import Prelude Params CString State Kalloc Process Vm VmRep VmMap Uvm Copy Space Bytes Sleeplock Bio BioRep Cache Log Fs Console File Lifecycle.
From stdpp Require Import base gmap strings numbers list.

Open Scope Z_scope.

Definition RWX : Z := Z.lor PTE_R (Z.lor PTE_W PTE_X).

(** The pages below entry [j] of the table [a]. *)
Definition below_entry (sub : Z → list Z) (m : memory) (a j : Z) : list Z :=
  if has (entry m a j) PTE_V then sub (PTE2PA (entry m a j)) else [].

Fixpoint tpages (m : memory) (d : nat) (a : Z) : list Z :=
  match d with
  | O => [a]
  | S d' => (seqZ 0 512 ≫= below_entry (tpages m d') m a) ++ [a]
  end.

(** A tree of tables without leaves. *)
Fixpoint dirs (m : memory) (d : nat) (a : Z) : Prop :=
  ∀ j, 0 ≤ j < 512 → has (entry m a j) PTE_V = true →
    match d with
    | O => False
    | S d' => Z.land (entry m a j) RWX = 0 ∧ dirs m d' (PTE2PA (entry m a j))
    end.

Section Freewalk.
Context `{Layout, !LayoutOk}.

(** The pages [ps] can be freed. *)
Record can_free (ps : list Z) (s : kst) (fl : list Z) : Prop := {
  cf_kmem : kmem_wf s fl;
  cf_lock : Lkmem ∉ held s;
  cf_nodup : NoDup (ps ++ fl);
  cf_pages : Forall page_ok ps
}.

(** [f] frees [ps] and writes to no other page than those of [ws]. *)
Definition frees (f : KM unit) (ps ws : list Z) (s : kst) (fl : list Z) : Prop :=
  ∃ s' fl', f s = Ok tt s' ∧ kmem_wf s' fl' ∧ fl' ≡ₚ ps ++ fl ∧
    s' = s <| ram := ram s' |> <| freelist := freelist s' |> ∧
    ∀ q, q mod PGSIZE = 0 → q ∉ ws → same_page (ram s) (ram s') q.

Lemma frees_weaken f ps ws ws' s fl : frees f ps ws s fl → (∀ q, q ∈ ws → q ∈ ws') → frees f ps ws' s fl.
Proof. intros (s' & fl' & E & Hk & Hp & Hs & Hm) Hw. exists s', fl'. split_and!; try done. intros q Hq Hn. apply Hm; auto. Qed.

Lemma frees_nil s ws fl : kmem_wf s fl → frees (ret tt) [] ws s fl.
Proof. intros Hk. exists s, fl. split_and!; try done. kst_eq s. Qed.

Lemma kfree_frees p s fl : can_free [p] s fl → frees (kfree p) [p] [p] s fl.
Proof.
  intros [Hk Hl [Hn _]%NoDup_cons Hp%Forall_inv]. eexists _, (p :: fl). split; [apply (kfree_ok s p fl Hk Hl Hp)|].
  split; [exact (kfree_wf s p fl Hk Hp Hn)|]. split; [reflexivity|].
  split; [rsimpl; kst_eq s|]. rsimpl.
  intros q Hq Hne b Hb. symmetry. destruct Hp as (Hpm & _). apply not_elem_of_cons in Hne as [Hne _].
  destruct (pages_disjoint p q Hpm Hq ltac:(congruence)); apply kfree_frame; lia.
Qed.

(** What is left to free after a part of it has been freed. *)
Lemma can_free_rest ps qs s fl s' fl' :
  can_free (ps ++ qs) s fl → kmem_wf s' fl' → fl' ≡ₚ ps ++ fl → held s' = held s → can_free qs s' fl'.
Proof.
  intros [_ Hl Hn Hp] Hk Hfl Hh. split; [done|by rewrite Hh| |by apply Forall_app in Hp as [_ ?]].
  rewrite Hfl. rewrite <- app_assoc in Hn. by rewrite (Permutation_app_swap_app qs ps fl).
Qed.

Lemma can_free_first ps qs s fl : can_free (ps ++ qs) s fl → can_free ps s fl.
Proof.
  intros [Hk Hl Hn Hp]. apply Forall_app in Hp as [Hp _]. split; [done..| |done].
  rewrite (Permutation_app_comm ps qs), <- app_assoc in Hn. by apply NoDup_app in Hn as (_ & _ & ?).
Qed.

Lemma frees_seq f g ps qs ws1 ws2 s fl :
  can_free (ps ++ qs) s fl → frees f ps ws1 s fl →
  (∀ s1 fl1, can_free qs s1 fl1 → fl1 ≡ₚ ps ++ fl → (∀ q, q mod PGSIZE = 0 → q ∉ ws1 → same_page (ram s) (ram s1) q) → frees g qs ws2 s1 fl1) →
  frees (f ;;; g) (ps ++ qs) (ws1 ++ ws2) s fl.
Proof.
  intros Hc (s1 & fl1 & E1 & Hk1 & Hp1 & Hs1 & Hm1) Hg.
  destruct (Hg s1 fl1) as (s2 & fl2 & E2 & Hk2 & Hp2 & Hs2 & Hm2); [|done|done|].
  { eapply can_free_rest; [done..|]. rewrite Hs1. by rsimpl. }
  exists s2, fl2. split; [by erewrite bind_ok by exact E1|]. split; [done|]. split.
  { rewrite Hp2, Hp1, <- app_assoc. apply Permutation_app_swap_app. }
  split; [rewrite Hs2, Hs1; rsimpl; kst_eq s|]. intros q Hq Hn. apply not_elem_of_app in Hn as [? ?].
  eapply same_page_trans; [by apply Hm1|by apply Hm2].
Qed.

Lemma frees_ext f g ps ws s fl : f s = g s → frees g ps ws s fl → frees f ps ws s fl.
Proof. unfold frees. intros E (s' & fl' & ?). exists s', fl'. by rewrite E. Qed.

Lemma seq_assoc_ok (f g h : KM unit) s s' : f s = Ok tt s' → ((f ;;; g) ;;; h) s = (f ;;; g ;;; h) s.
Proof. intros E. unfold bind. by rewrite E. Qed.

(** Clearing an entry of a page that is not yet free. *)
Lemma frees_clear a j g ps ws s fl :
  page_ok a → 0 ≤ j < 512 → a ∈ ws →
  frees g ps ws (s <| ram := store64 (ram s) (a + 8 * j) 0 |>) fl → frees (st64 (a + 8 * j) 0 ;;; g) ps ws s fl.
Proof.
  intros Ha Hj Hin (s' & fl' & E & Hk & Hp & Hs & Hm). exists s', fl'.
  split; [by erewrite bind_ok by (by apply st64_ok, table_entry_phys)|]. split; [done|]. split; [done|].
  split; [rewrite Hs; rsimpl; kst_eq s|]. intros q Hq Hn. eapply same_page_trans; [|by apply Hm]. rsimpl.
  apply same_page_store; [by destruct Ha|done|done|congruence].
Qed.

Lemma can_free_clear a j ps s fl :
  page_ok a → 0 ≤ j < 512 → a ∉ fl → can_free ps s fl → can_free ps (s <| ram := store64 (ram s) (a + 8 * j) 0 |>) fl.
Proof.
  intros Ha Hj Hn [Hk Hl Hnd Hp]. split; [|by rsimpl|done..]. eapply kmem_wf_frame; [exact Hk|by rsimpl|].
  intros p Hin. rsimpl. pose proof (proj1 (Forall_forall _ _) (kw_pages _ _ Hk) p Hin) as (? & _).
  apply same_page_store; [by destruct Ha|done|done|congruence].
Qed.

(** ** Trees of tables *)

Lemma tpages_root m d a : a ∈ tpages m d a.
Proof. destruct d; cbn [tpages]; [by apply list_elem_of_singleton|]. apply elem_of_app. right. by apply list_elem_of_singleton. Qed.

Lemma tpages_sub m d a j p :
  0 ≤ j < 512 → p ∈ below_entry (tpages m d) m a j → p ∈ tpages m (S d) a.
Proof. intros Hj Hp. cbn [tpages]. apply elem_of_app. left. apply list_elem_of_bind. exists j. split; [done|]. by apply elem_of_seqZ. Qed.

(** A tree is read off its own pages. *)
Lemma tree_ext m m' d a :
  (∀ p, p ∈ tpages m d a → same_page m m' p) →
  tpages m' d a = tpages m d a ∧ (dirs m d a → dirs m' d a).
Proof.
  revert a. induction d as [|d IH]; intros a Hs.
  - split; [done|]. cbn [dirs]. intros Hd j Hj. rewrite <- (entry_same m) by (done || apply Hs, tpages_root). by apply Hd.
  - assert (∀ j, 0 ≤ j < 512 → entry m' a j = entry m a j) as He
      by (intros j Hj; symmetry; apply entry_same; [apply Hs, tpages_root|done]).
    assert (∀ j, 0 ≤ j < 512 → has (entry m a j) PTE_V = true →
      tpages m' d (PTE2PA (entry m a j)) = tpages m d (PTE2PA (entry m a j)) ∧
      (dirs m d (PTE2PA (entry m a j)) → dirs m' d (PTE2PA (entry m a j)))) as Hsub.
    { intros j Hj Hv. apply IH. intros p Hp. apply Hs. apply (tpages_sub _ _ _ j); [done|]. unfold below_entry. by rewrite Hv. }
    split.
    + cbn [tpages]. f_equal. apply Forall_bind_ext, Forall_forall. intros j Hj%elem_of_seqZ. unfold below_entry. rewrite He by lia.
      destruct (has _ _) eqn:Hv; [|done]. by apply Hsub; [lia|].
    + cbn [dirs]. intros Hd j Hj. rewrite He by done. intros Hv. destruct (Hd j Hj Hv) as [? ?]. split; [done|]. by apply Hsub.
Qed.

(** ** The walk *)

(** [rec] frees the subtrees [pg] of a directory. *)
Record frees_sub (rec : Z → KM unit) (pg : memory → Z → list Z) (wf : memory → Z → Prop) : Prop := {
  fs_ext : ∀ m m' c, (∀ p, p ∈ pg m c → same_page m m' p) → pg m' c = pg m c ∧ (wf m c → wf m' c);
  fs_frees : ∀ s fl c, wf (ram s) c → can_free (pg (ram s) c) s fl → frees (rec c) (pg (ram s) c) (pg (ram s) c) s fl
}.

Lemma bind_seqZ_S (f : Z → list Z) i n : seqZ i (Z.of_nat (S n)) ≫= f = f i ++ (seqZ (i + 1) (Z.of_nat n) ≫= f).
Proof.
  replace (Z.of_nat (S n)) with (Z.succ (Z.of_nat n)) by lia. rewrite seqZ_cons by lia.
  by rewrite Z.pred_succ.
Qed.

Definition kids (pg : memory → Z → list Z) (m : memory) (a i : Z) (n : nat) : list Z :=
  seqZ i (Z.of_nat n) ≫= below_entry (pg m) m a.
Definition kids_wf (wf : memory → Z → Prop) (m : memory) (a i : Z) : Prop :=
  ∀ j, i ≤ j < 512 → has (entry m a j) PTE_V = true →
    Z.land (entry m a j) RWX = 0 ∧ wf m (PTE2PA (entry m a j)).

Lemma kids_ext rec pg wf m m' a i n :
  frees_sub rec pg wf → i + Z.of_nat n = 512 → (∀ j, i ≤ j < 512 → entry m' a j = entry m a j) →
  (∀ p, p ∈ kids pg m a i n → same_page m m' p) →
  kids pg m' a i n = kids pg m a i n ∧ (kids_wf wf m a i → kids_wf wf m' a i).
Proof.
  intros [Hext _] Hn Hent Hs.
  assert (∀ j, i ≤ j < 512 → has (entry m a j) PTE_V = true →
    pg m' (PTE2PA (entry m a j)) = pg m (PTE2PA (entry m a j)) ∧ (wf m (PTE2PA (entry m a j)) → wf m' (PTE2PA (entry m a j)))) as Hsub.
  { intros j Hj Hv. apply Hext. intros p Hp. apply Hs, list_elem_of_bind. exists j. split; [|apply elem_of_seqZ; lia].
    unfold below_entry. by rewrite Hv. }
  split.
  - apply Forall_bind_ext, Forall_forall. intros j Hj%elem_of_seqZ. unfold below_entry. rewrite Hent by lia.
    destruct (has _ _) eqn:Hv; [|done]. by apply Hsub; [lia|].
  - intros Hd j Hj. rewrite Hent by done. intros Hv. destruct (Hd j Hj Hv). split; [done|]. by apply Hsub.
Qed.

Lemma freewalk_entries_ok rec pg wf a n i s fl :
  frees_sub rec pg wf → page_ok a → 0 ≤ i → i + Z.of_nat n = 512 → a ∉ fl → a ∉ kids pg (ram s) a i n →
  can_free (kids pg (ram s) a i n) s fl → kids_wf wf (ram s) a i →
  frees (freewalk_entries n rec a i) (kids pg (ram s) a i n) (kids pg (ram s) a i n ++ [a]) s fl.
Proof.
  intros Hsub Ha. revert i s fl. induction n as [|n IH]; intros i s fl Hi Hn Hfl Hk Hc Hd.
  { apply frees_nil, Hc. }
  cbn [freewalk_entries]. eapply frees_ext; [by erewrite bind_ok by (by apply ld64_ok, table_entry_phys; [|lia])|].
  fold (entry (ram s) a i). fold RWX. revert Hk Hc. unfold kids. rewrite bind_seqZ_S. fold (kids pg (ram s) a (i + 1) n).
  unfold below_entry. destruct (has (entry (ram s) a i) PTE_V) eqn:Hv; cbn [andb app]; intros Hk Hc; cycle 1.
  { eapply frees_ext; [by rewrite bind_ret|]. apply IH; [lia|lia|done..|]. intros j Hj. apply Hd. lia. }
  destruct (Hd i ltac:(lia) Hv) as [-> Hwf]. cbn [Z.eqb]. set (c := PTE2PA _) in *. set (rest := kids _ _ _ _ _) in *.
  apply not_elem_of_app in Hk as [Hk1 Hk2].
  pose proof (fs_frees _ _ _ Hsub s fl c Hwf (can_free_first _ _ _ _ Hc)) as Hfr. pose proof Hfr as (s0 & fl0 & E0 & _).
  eapply frees_ext; [eapply seq_assoc_ok, E0|]. clear s0 fl0 E0.
  eapply frees_weaken; [apply frees_seq with (ws1 := pg (ram s) c) (ws2 := rest ++ [a]); [done|done|]|].
  2:{ intros q. rewrite !elem_of_app. tauto. }
  intros s1 fl1 Hc1 Hp1 Hm1. apply frees_clear; [done|lia|apply elem_of_app; right; by apply list_elem_of_singleton|].
  assert (a ∉ fl1) as Hfl1 by (rewrite Hp1, elem_of_app; tauto).
  set (s2 := s1 <| ram := _ |>). assert (can_free rest s2 fl1) as Hc2 by (apply can_free_clear; [done|lia|done|done]).
  destruct (kids_ext rec pg wf (ram s) (ram s2) a (i + 1) n) as [E Hd2]; [done|lia| | |].
  - intros j Hj. unfold s2. rsimpl. rewrite entry_store_ne by (try apply Ha; try lia; intros [=]; lia).
    symmetry. apply entry_same; [|lia]. apply Hm1; [apply Ha|done].
  - intros p Hp. destruct (proj1 (Forall_forall _ _) (cf_pages _ _ _ Hc1) p Hp) as (Hal & _).
    eapply same_page_trans; [apply Hm1; [done|]|].
    + pose proof (cf_nodup _ _ _ Hc) as Hnd. rewrite <- app_assoc in Hnd. apply NoDup_app in Hnd as (_ & Hnd & _).
      intros Hin. apply (Hnd p Hin). apply elem_of_app. by left.
    + unfold s2. rsimpl. apply same_page_store; [by destruct Ha|done|lia|by intros ->].
  - fold rest in E. rewrite <- E in *. apply IH; [lia|lia|done..|]. apply Hd2. intros j Hj. apply Hd. lia.
Qed.

Lemma freewalk_level rec pg wf a s fl :
  frees_sub rec pg wf → can_free (kids pg (ram s) a 0 512 ++ [a]) s fl → kids_wf wf (ram s) a 0 →
  frees (freewalk_entries 512 rec a 0 ;;; kfree a) (kids pg (ram s) a 0 512 ++ [a]) (kids pg (ram s) a 0 512 ++ [a]) s fl.
Proof.
  intros Hsub Hc Hd. pose proof (cf_nodup _ _ _ Hc) as Hnd. rewrite <- app_assoc in Hnd.
  apply NoDup_app in Hnd as (_ & Hnk & [Hnf _]%NoDup_cons).
  pose proof (cf_pages _ _ _ Hc) as [_ Ha%Forall_inv]%Forall_app.
  eapply frees_weaken; [apply frees_seq with (ws1 := kids pg (ram s) a 0 512 ++ [a]) (ws2 := [a]); [done| |]|].
  - eapply freewalk_entries_ok; [done|done|lia|lia|done| |by eapply can_free_first|done].
    intros Hin. apply (Hnk a Hin). apply list_elem_of_here.
  - intros s1 fl1 Hc1 _ _. by apply kfree_frees.
  - intros q. rewrite !elem_of_app. tauto.
Qed.

(** [freewalk] frees a tree of tables without leaves. *)
Lemma freewalk_ok d : frees_sub (freewalk (S d)) (λ m, tpages m d) (λ m, dirs m d).
Proof.
  induction d as [|d IH]; (split; [intros m m' c; apply tree_ext|]); intros s fl c Hd Hc.
  - assert (kids (λ _ _, []) (ram s) c 0 512 = []) as E.
    { unfold kids. generalize (seqZ 0 (Z.of_nat 512)). intros l. induction l as [|j l IH]; [done|].
      cbn [mbind list_bind]. unfold below_entry at 1. by destruct (has _ _). }
    pose proof (freewalk_level (freewalk 0) (λ _ _, []) (λ _ _, False) c s fl) as Hl. rewrite E in Hl.
    apply Hl; [by split|done|]. intros j Hj Hv. by destruct (Hd j Hj Hv).
  - apply (freewalk_level (freewalk (S d)) (λ m, tpages m d) (λ m, dirs m d)); [done|done|].
    intros j Hj Hv. by apply Hd.
Qed.

(** ** The tables of an address space *)

Lemma PA2PTE_low b n : 0 ≤ n < 10 → Z.testbit (PA2PTE b) n = false.
Proof. intros Hn. unfold PA2PTE, u64. by rewrite Z.mod_pow2_bits_low, Z.shiftl_spec_low by lia. Qed.

(** Flags below bit 10 of an entry are those it was made with. *)
Lemma pte_flags b perm f : 0 ≤ f < 1024 → Z.land (Z.lor (PA2PTE b) perm) f = Z.land perm f.
Proof.
  intros Hf. rewrite Z.land_lor_distr_l. replace (Z.land (PA2PTE b) f) with 0; [done|]. symmetry. apply Z.bits_inj_0. intros n.
  rewrite Z.land_spec. destruct (Z.lt_ge_cases n 0) as [?|Hn]; [by rewrite !Z.testbit_neg_r|].
  destruct (Z.lt_ge_cases n 10) as [?|Hge]; [by rewrite PA2PTE_low by lia|].
  destruct (decide (f = 0)) as [->|Hnz]; [by rewrite Z.testbit_0_l, andb_false_r|].
  rewrite (Z.bits_above_log2 f); [apply andb_false_r|lia|]. apply (Z.lt_le_trans _ 10); [|done]. apply Z.log2_lt_pow2; [lia|]. change (2 ^ 10) with 1024. lia.
Qed.

Lemma dir_pte_flags b : Z.land (Z.lor (PA2PTE b) PTE_V) RWX = 0.
Proof. by apply pte_flags. Qed.

Lemma rep_dirs m root T d k a :
  pt_rep m root T → (∀ v, leaf T !! v = None) → tabs T !! (Z.of_nat d, k) = Some a → dirs m d a.
Proof.
  intros HT Hl. revert k a. induction d as [|d IH]; intros k a Ha j Hj Hv.
  - pose proof (pr_leaf _ _ _ HT k a j Ha Hj) as E. rewrite Hl, Hv in E. done.
  - pose proof (pr_dir _ _ _ HT _ k a j Ha ltac:(lia) Hj) as E. replace (Z.of_nat (S d) - 1) with (Z.of_nat d) in E by lia.
    destruct (tabs T !! (Z.of_nat d, k * 512 + j)) as [b|] eqn:Eb; [|congruence]. rewrite E. split; [apply dir_pte_flags|].
    rewrite dir_pte_pa by (by eapply table_page). by eapply IH.
Qed.

(** The index, [e] levels up, of the table above index [k]. *)
Fixpoint above (e : nat) (k : Z) : Z := match e with O => k | S e' => above e' k / 512 end.

Lemma rep_above m root T e l k :
  pt_rep m root T → l + Z.of_nat e ≤ 2 → is_Some (tabs T !! (l, k)) → is_Some (tabs T !! (l + Z.of_nat e, above e k)).
Proof.
  intros HT. induction e as [|e IH]; intros Hle Hk; [by rewrite Z.add_0_r|].
  replace (l + Z.of_nat (S e)) with (l + Z.of_nat e + 1) by lia. apply (pr_up _ _ _ HT); [lia|]. apply IH; [lia|done].
Qed.

Lemma rep_entry m root T d k a j :
  pt_rep m root T → tabs T !! (Z.of_nat (S d), k) = Some a → 0 ≤ j < 512 →
  below_entry (tpages m d) m a j = match tabs T !! (Z.of_nat d, k * 512 + j) with Some b => tpages m d b | None => [] end.
Proof.
  intros HT Ha Hj. pose proof (pr_dir _ _ _ HT _ k a j Ha ltac:(lia) Hj) as E.
  replace (Z.of_nat (S d) - 1) with (Z.of_nat d) in E by lia. unfold below_entry. revert E.
  destruct (tabs T !! (Z.of_nat d, k * 512 + j)) as [b|] eqn:Eb; intros E; rewrite E; [|done]. rewrite has_lor_V. by rewrite dir_pte_pa by (by eapply table_page).
Qed.

Lemma elem_tpages m root T d k a p :
  pt_rep m root T → Z.of_nat d ≤ 2 → tabs T !! (Z.of_nat d, k) = Some a →
  p ∈ tpages m d a ↔ ∃ e k', (e ≤ d)%nat ∧ tabs T !! (Z.of_nat (d - e), k') = Some p ∧ above e k' = k.
Proof.
  intros HT. revert k a. induction d as [|d IH]; intros k a Hd Ha.
  - cbn [tpages]. rewrite list_elem_of_singleton. split.
    + intros ->. by exists 0%nat, k.
    + intros (e & k' & He & Hp & Hk). assert (e = 0)%nat as -> by lia. cbn in Hk, Hp. congruence.
  - cbn [tpages]. rewrite elem_of_app, list_elem_of_bind, list_elem_of_singleton. split.
    + intros [(j & Hp & Hj%elem_of_seqZ)| ->]; [|exists 0%nat, k; split_and!; [lia|done|done]].
      rewrite (rep_entry m root T d k) in Hp by (done || lia).
      destruct (tabs T !! (Z.of_nat d, k * 512 + j)) as [b|] eqn:Eb; [|by apply not_elem_of_nil in Hp].
      apply (IH _ _ ltac:(lia) Eb) in Hp as (e & k' & He & Hp & Hk). exists (S e), k'. split; [lia|]. split; [done|].
      cbn [above]. rewrite Hk. apply div_512. lia.
    + intros (e & k' & He & Hp & Hk). destruct e as [|e]; [right; cbn in Hk, Hp; congruence|left].
      cbn [above] in Hk. pose proof (Z.mod_pos_bound (above e k') 512 ltac:(lia)) as Hj.
      pose proof (Z.div_mod (above e k') 512 ltac:(lia)) as Hdm. exists (above e k' mod 512). split; [|apply elem_of_seqZ; lia].
      rewrite (rep_entry m root T d k) by done. replace (k * 512 + above e k' mod 512) with (above e k') by lia.
      destruct (rep_above m root T e (Z.of_nat (d - e)) k' HT) as [b Hb]; [lia|by eexists|].
      replace (Z.of_nat (d - e) + Z.of_nat e) with (Z.of_nat d) in Hb by lia. rewrite Hb.
      apply (IH _ _ ltac:(lia) Hb). exists e, k'. split_and!; [lia|done|done].
Qed.

Lemma NoDup_tpages m root T d k a :
  pt_rep m root T → Z.of_nat d ≤ 2 → tabs T !! (Z.of_nat d, k) = Some a → NoDup (tpages m d a).
Proof.
  intros HT. revert k a. induction d as [|d IH]; intros k a Hd Ha; [apply NoDup_singleton|].
  cbn [tpages]. assert (∀ j p, 0 ≤ j < 512 → p ∈ below_entry (tpages m d) m a j →
    ∃ e k', (e ≤ d)%nat ∧ tabs T !! (Z.of_nat (d - e), k') = Some p ∧ above e k' = k * 512 + j) as Hsub.
  { intros j p Hj. rewrite (rep_entry m root T d k) by done. destruct (tabs T !! (Z.of_nat d, k * 512 + j)) as [b|] eqn:Eb; [|by intros ?%not_elem_of_nil].
    apply (elem_tpages m root T d); [done|lia|done]. }
  apply NoDup_app. split_and!; [apply NoDup_bind| |apply NoDup_singleton].
  - intros j1 j2 p Hj1%elem_of_seqZ Hj2%elem_of_seqZ H1 H2.
    apply Hsub in H1 as (e1 & k1 & ? & H1 & Hk1); [|lia]. apply Hsub in H2 as (e2 & k2 & ? & H2 & Hk2); [|lia].
    pose proof (pr_inj _ _ _ HT _ _ _ H1 H2) as [= E ->]. assert (e1 = e2) as -> by lia. lia.
  - intros j Hj%elem_of_seqZ. rewrite (rep_entry m root T d k) by (done || lia).
    destruct (tabs T !! (Z.of_nat d, k * 512 + j)) as [b|] eqn:Eb; [|constructor]. by apply (IH (k * 512 + j)); [lia|].
  - apply NoDup_seqZ.
  - intros p (j & Hp & Hj%elem_of_seqZ)%list_elem_of_bind ->%list_elem_of_singleton.
    apply Hsub in Hp as (e & k' & ? & Hp & _); [|lia]. pose proof (pr_inj _ _ _ HT _ _ _ Ha Hp) as [= E _]. lia.
Qed.

(** The pages [freewalk] visits are the tables. *)
Lemma tpages_tables m root T p : pt_rep m root T → p ∈ tpages m 2 root ↔ is_table T p.
Proof.
  intros HT. rewrite (elem_tpages m root T 2 0) by (done || apply (pr_root _ _ _ HT)). split.
  - intros (e & k' & _ & Hp & _). by eexists.
  - intros [[l k] Hp]. destruct (pr_level _ _ _ HT _ _ _ Hp) as [Hl _]. exists (Z.to_nat (2 - l)), k.
    split; [lia|]. split; [by replace (Z.of_nat (2 - Z.to_nat (2 - l))) with l by lia|].
    destruct (rep_above m root T (Z.to_nat (2 - l)) l k HT) as [b Hb]; [lia|by eexists|].
    apply (pr_level _ _ _ HT _ _ _ Hb). lia.
Qed.

(** ** The address space of a process *)

Lemma frame_shared T v p : UVPN ≤ v → frame (without T v) p ↔ frame T p.
Proof.
  intros Hv. split; intros (w & e & He & Hw & <-); exists w, e; revert He; unfold without; rsimpl.
  - by intros [_ ?]%lookup_delete_Some.
  - by rewrite lookup_delete_ne by lia.
Qed.

(** Unmapping a page that is not the process's own: the trampoline and the
    trapframe. *)
Lemma unmap_shared s root T fl va :
  uvm_wf s root T fl → va mod 4096 = 0 → UVPN ≤ va / 4096 → 0 ≤ va < MAXVA →
  ∃ s', uvmunmap root va 1 false s = Ok tt s' ∧ uvm_wf s' root (without T (va / 4096)) fl ∧
    uvm_move s T fl s' (without T (va / 4096)) fl.
Proof.
  intros Hw Hal Hv Hva. assert (MAXVA + PGSIZE < 2 ^ 64) as Hm by done. unfold uvmunmap. change PGSIZE with 4096 in Hm |- *.
  rewrite Hal, Z.mul_1_l. cbn [Z.eqb negb]. rewrite u64_small by lia. change (Z.to_nat 1) with 1%nat. cbn [uvmunmap_loop].
  rewrite (proj2 (Z.ltb_lt _ _)) by lia. change PGSIZE with 4096. rewrite u64_small, Z.ltb_irrefl by lia.
  pose proof (uv_vm _ _ _ _ Hw) as Hvm. pose proof (vm_rep _ _ _ _ Hvm) as HT.
  erewrite bind_ok by (by apply walk_noalloc).
  assert (leaf T !! (va / 4096) = None → ∃ s', Ok tt s = Ok tt s' ∧ uvm_wf s' root (without T (va / 4096)) fl ∧
    uvm_move s T fl s' (without T (va / 4096)) fl) as Hnop.
  { intros Hn. exists s. rewrite (without_id _ _ Hn). split_and!; try done. apply uvm_move_refl. }
  destruct (tabs T !! (0, idx 1 va)) as [b|] eqn:Eb; cycle 1.
  { destruct (leaf_addr_None _ _ _ _ HT Eb) as [-> Hn]. by apply Hnop. }
  destruct (leaf_addr_Some _ _ _ _ _ HT Eb) as (Hla & Hnz & Hph & Hlk). rewrite (proj2 (Z.eqb_neq _ _)) by done. cbn [negb].
  erewrite bind_assoc_ok by (by apply ld64_ok). cbv zeta in Hlk. destruct (has _ PTE_V) eqn:Ev; [|by apply Hnop].
  rewrite Hla. destruct (store_leaf s root T fl va b 0 Hvm Eb ltac:(done)) as (s1 & E1 & Hv1 & Hst). rewrite set_leaf_0 in Hv1, Hst.
  exists s1. split; [by erewrite bind_assoc_ok, bind_ok by (done || exact E1)|].
  assert (∀ p, as_page (without T (va / 4096)) p ↔ as_page T p) as Has by (intros p; unfold as_page; by rewrite frame_shared).
  split; [split; [done|..]|split].
  - intros p Hp. apply frame_shared in Hp; [|done]. apply (uv_frame _ _ _ _ Hw p Hp).
  - unfold without. rsimpl. intros w w' f f' [_ Hf]%lookup_delete_Some [_ Hf']%lookup_delete_Some. by apply (uv_inj _ _ _ _ Hw).
  - unfold without. rsimpl. intros w f [_ Hf]%lookup_delete_Some. by apply (uv_user _ _ _ _ Hw).
  - exact (vs_frame _ _ _ _ _ _ Hst).
  - intros p. unfold own. by rewrite Has.
  - intros p Hp Hn. apply (vs_mem _ _ _ _ _ _ Hst); [done|]. intros Ht. apply Hn. left. by left.
Qed.

(** [freewalk] of an address space without mappings. *)
Lemma freewalk_tables s root T fl :
  uvm_wf s root T fl → (∀ v, leaf T !! v = None) → frees (freewalk 3 root) (tpages (ram s) 2 root) (tpages (ram s) 2 root) s fl.
Proof.
  intros Hw Hl. pose proof (uv_vm _ _ _ _ Hw) as [Hk HT Hd Hlk]. pose proof (pr_root _ _ _ HT) as Hr.
  apply (freewalk_ok 2); [by apply (rep_dirs _ root T 2 0)|]. split; [done|done| |].
  - apply NoDup_app. split_and!; [by apply (NoDup_tpages _ root T 2 0)| |apply Hk].
    intros p Hp. apply Hd. by apply (tpages_tables (ram s) root T).
  - apply Forall_forall. intros p Hp. apply (pr_page _ _ _ HT). by apply (tpages_tables (ram s) root T) in Hp.
Qed.

(** The end of an address space: all its pages go to the allocator. *)
Definition released (s : kst) (T : aspace) (fl : list Z) (r : res kst unit) : Prop :=
  ∃ s' fl', r = Ok tt s' ∧ kmem_wf s' fl' ∧ (∀ p, p ∈ fl' ↔ own T fl p) ∧
    s' = s <| ram := ram s' |> <| freelist := freelist s' |> ∧
    ∀ p, p mod PGSIZE = 0 → ¬ own T fl p → same_page (ram s) (ram s') p.

Lemma released_move s T fl s' T' fl' r : uvm_move s T fl s' T' fl' → released s' T' fl' r → released s T fl r.
Proof.
  intros [Hf Ho Hm] (s2 & fl2 & E & Hk & Hp & Hs & Hm2). exists s2, fl2. split; [done|]. split; [done|].
  split; [intros p; by rewrite Hp|]. split; [rewrite Hs, Hf; rsimpl; kst_eq s|].
  intros p Hal Hn. eapply same_page_trans; [by apply Hm|]. apply Hm2; [done|]. by rewrite Ho.
Qed.

Lemma uvmfree_ok s root T fl sz :
  uvm_wf s root T fl → 0 ≤ sz ≤ TRAPFRAME → (∀ v, is_Some (leaf T !! v) → 0 ≤ v < npages sz) →
  released s T fl (uvmfree root sz s).
Proof.
  intros Hw Hsz Hl. destruct (PGROUNDUP_pages sz) as (E & Hr & Hn); [lia..|].
  assert (∃ s1 T1 fl1, (when 0 <? sz do uvmunmap root 0 (PGROUNDUP sz / PGSIZE) true) s = Ok tt s1 ∧
    uvm_wf s1 root T1 fl1 ∧ uvm_move s T fl s1 T1 fl1 ∧ ∀ v, leaf T1 !! v = None) as (s1 & T1 & fl1 & E1 & Hw1 & Hm1 & Hl1).
  { destruct (Z.ltb_spec 0 sz).
    - change (PGROUNDUP sz / PGSIZE) with (npages sz).
      destruct (uvmunmap_ok s root T fl 0 (npages sz)) as (s1 & fl1 & E1 & Hw1 & Hm1 & _);
        [done|lia|done|lia|change TRAPFRAME with (UVPN * 4096); unfold PGSIZE; lia|].
      exists s1, (without_range (Z.to_nat (npages sz)) (0 / 4096) T), fl1. split_and!; try done.
      intros v. rewrite lookup_without_range, Z2Nat.id by lia. case_decide; [done|]. apply eq_None_not_Some. intros Hv%Hl.
      change (0 / 4096) with 0 in *. lia.
    - exists s, T, fl. split_and!; try done; [apply uvm_move_refl|]. intros v. apply eq_None_not_Some. intros Hv%Hl. lia. }
  unfold uvmfree. erewrite bind_ok by exact E1. apply (released_move _ _ _ _ _ _ _ Hm1).
  destruct (freewalk_tables s1 root T1 fl1 Hw1 Hl1) as (s2 & fl2 & E2 & Hk2 & Hp2 & Hs2 & Hm2).
  assert (∀ p, p ∈ tpages (ram s1) 2 root ↔ as_page T1 p) as Has.
  { intros p. rewrite (tpages_tables _ root T1) by apply Hw1. unfold as_page. split; [by left|].
    intros [?|(v & e & He & _)]; [done|]. by rewrite Hl1 in He. }
  exists s2, fl2. split_and!; try done.
  - intros p. rewrite Hp2, elem_of_app. unfold own. by rewrite Has.
  - intros p Hp Hno. apply Hm2; [done|]. rewrite Has. intros ?. apply Hno. by left.
Qed.

Lemma proc_freepagetable_ok s root T fl sz :
  uvm_wf s root T fl → 0 ≤ sz ≤ TRAPFRAME → process_as T sz → released s T fl (proc_freepagetable root sz s).
Proof.
  intros Hw Hsz Hl. unfold proc_freepagetable.
  destruct (unmap_shared s root T fl TRAMPOLINE Hw) as (s1 & E1 & Hw1 & Hm1); [done..|]. erewrite bind_ok by exact E1.
  apply (released_move _ _ _ _ _ _ _ Hm1). clear E1 Hm1.
  destruct (unmap_shared s1 root _ fl TRAPFRAME Hw1) as (s2 & E2 & Hw2 & Hm2); [done..|]. erewrite bind_ok by exact E2.
  apply (released_move _ _ _ _ _ _ _ Hm2). apply uvmfree_ok; [done|done|].
  unfold without. rsimpl. intros v Hv. destruct (Hl v) as [?|[->| ->]]; [|done|exfalso..].
  - destruct Hv as [e [_ [_ He]%lookup_delete_Some]%lookup_delete_Some]. by eexists.
  - destruct Hv as [e [Hne _]%lookup_delete_Some]. by apply Hne.
  - destruct Hv as [e [_ [Hne _]%lookup_delete_Some]%lookup_delete_Some]. by apply Hne.
Qed.

(** Freeing a page of neither the address space nor the allocator. *)
Lemma kfree_uvm s root T fl q :
  uvm_wf s root T fl → page_ok q → ¬ own T fl q →
  ∃ s', kfree q s = Ok tt s' ∧ uvm_wf s' root T (q :: fl) ∧ s' = s <| ram := ram s' |> <| freelist := freelist s' |> ∧
    (∀ r, r mod PGSIZE = 0 → r ≠ q → same_page (ram s) (ram s') r).
Proof.
  intros Hw Hq Hn. assert (q ∉ fl ∧ ¬ is_table T q ∧ ¬ frame T q) as (Hn1 & Hn2 & Hn3) by (unfold own, as_page in Hn; tauto).
  destruct (kfree_vm s root T fl q (uv_vm _ _ _ _ Hw) Hq Hn1 Hn2) as (s' & E & Hv & Hs & Hm).
  exists s'. split_and!; [done| |done|done]. split; [done| |apply Hw..].
  intros p Hp. destruct (uv_frame _ _ _ _ Hw p Hp) as (? & ? & ?). split_and!; [done|done|].
  intros [->|?]%elem_of_cons; done.
Qed.

(** ** A new address space *)

(** The tables grew, and a page that is not the process's own may have been
    mapped. *)
Lemma new_shared s root T fl s' T' fl' v e :
  uvm_wf s root T fl → vm_step s T fl s' T' fl' → vm_state s' root T' fl' → UVPN ≤ v → has e PTE_U = false →
  leaf T' = <[v := e]> (leaf T) ∨ leaf T' = leaf T → uvm_wf s' root T' fl' ∧ uvm_move s T fl s' T' fl'.
Proof.
  intros Hw [Hs _ (used & Hfl & Ht) Hm] Hv' Hv He Hl.
  assert (∀ w, w < UVPN → leaf T' !! w = leaf T !! w) as Hlow by (intros w Hlt; destruct Hl as [->| ->]; [by rewrite lookup_insert_ne by lia|done]).
  assert (∀ p, frame T' p ↔ frame T p) as Hfr by (intros p; split; intros (w & f & Hf & Hlt & <-); exists w, f; (split; [|done]); by rewrite ?Hlow in * by done).
  split; [split; [done|..]|split; [done|..]].
  - intros p Hp%Hfr. destruct (uv_frame _ _ _ _ Hw p Hp) as (? & ? & ?). rewrite Ht. set_solver.
  - intros w w' f f' Hf Hf' Hlt Hlt'. rewrite Hlow in Hf, Hf' by done. by apply (uv_inj _ _ _ _ Hw).
  - intros w f Hf Hu. apply (uv_user _ _ _ _ Hw w f); [|done]. destruct Hl as [E|E]; rewrite E in Hf; [|done].
    apply lookup_insert_Some in Hf as [[_ <-]|[_ ?]]; [congruence|done].
  - intros p. unfold own, as_page. rewrite Hfr, Ht, Hfl, elem_of_app. tauto.
  - intros p Hp Hn. apply Hm; [done|]. rewrite Ht. unfold own, as_page in Hn. set_solver.
Qed.

(** Mapping a page that is not the process's own. *)
Lemma map_shared s root T fl va pa perm :
  uvm_wf s root T fl → va mod 4096 = 0 → UVPN ≤ va / 4096 → 0 ≤ va < MAXVA → 0 ≤ pa → pa + PGSIZE < 2 ^ 64 →
  0 ≤ perm < 2 ^ 64 → Z.land perm PTE_U = 0 → leaf T !! (va / 4096) = None →
  ∃ r s' T' fl', mappages root va PGSIZE pa perm s = Ok r s' ∧ uvm_wf s' root T' fl' ∧ uvm_move s T fl s' T' fl' ∧
    ((r = 0 ∧ leaf T' = <[va / 4096 := pte_of pa perm]> (leaf T)) ∨ (r = -1 ∧ leaf T' = leaf T)).
Proof.
  intros Hw Hal Hv Hva Hpa Hpa2 Hperm HU Hnone. pose proof (Z.div_mod va 4096 ltac:(lia)) as Hdm.
  assert (va + PGSIZE ≤ MAXVA) as Hend by (change MAXVA with (67108864 * 4096) in *; unfold PGSIZE; lia).
  destruct (mappages_ok s root T fl va PGSIZE pa perm (uv_vm _ _ _ _ Hw)) as (r & s' & T' & fl' & k & E & Hv' & Hst & Hl & _ & Hc); try done; try lia.
  { intros w. rewrite vpn_next. intros Hw'. by replace w with (va / 4096) by lia. }
  change (PGSIZE / PGSIZE) with 1 in Hc. exists r, s', T', fl'. split; [done|].
  assert ((r = 0 ∧ leaf T' = <[va / 4096 := pte_of pa perm]> (leaf T)) ∨ (r = -1 ∧ leaf T' = leaf T)) as Hcase.
  { destruct Hc as [[-> Hk]|(-> & Hk & ->)]; [left|right]; (split; [done|]).
    - by assert (k = 1%nat) as -> by lia.
    - by assert (k = 0%nat) as -> by lia. }
  clear Hc Hl. destruct (new_shared s root T fl s' T' fl' (va / 4096) (pte_of pa perm)) as [? ?]; [done|done|done|done| | |by auto].
  - unfold has, pte_of. rewrite <- Z.lor_assoc, pte_flags by done. rewrite Z.land_lor_distr_l, HU. done.
  - destruct Hcase as [[_ ->]|[_ ->]]; [by left|by right].
Qed.

Lemma uvmcreate_move s p fl :
  kmem_wf s (p :: fl) → Lkmem ∉ held s →
  ∃ s', uvmcreate s = Ok p s' ∧ uvm_wf s' p (empty_as p) fl ∧ s' = s <| ram := ram s' |> <| freelist := freelist s' |> ∧
    ∀ q, q mod PGSIZE = 0 → q ≠ p → same_page (ram s) (ram s') q.
Proof.
  intros Hk Hlk. destruct (kalloc_zeroed _ _ _ Hk Hlk) as (s1 & Hr & Hk1 & Hpp & Hnin & Hs1 & Hm).
  exists (s1 <| ram := memset (ram s1) p 0 PGSIZE |>).
  assert (∀ v e, leaf (empty_as p) !! v = Some e → False) as Hno by (intros v e He; cbn [leaf empty_as] in He; by rewrite lookup_empty in He).
  split_and!.
  - unfold uvmcreate. erewrite bind_ok by exact Hr. pose proof (page_ok_nonzero _ Hpp). replace (p =? 0) with false by lia.
    by erewrite bind_ok by (apply kmemset_ok, page_ok_phys0; [done|lia]).
  - split; [split; [done| | |]|..].
    + rsimpl. apply pt_rep_empty; [done|apply zero_page_memset].
    + intros a Ha. by apply is_table_empty in Ha as ->.
    + rewrite Hs1. by rsimpl.
    + intros q (v & e & He & _). by apply Hno in He.
    + intros v v' e e' He. by apply Hno in He.
    + intros v e He. by apply Hno in He.
  - rewrite Hs1. rsimpl. kst_eq s.
  - by rsimpl.
Qed.

(** The outcome of making an address space out of the pages [fl]. *)
Definition made (s : kst) (fl : list Z) (tf : Z) (x : res kst Z) : Prop :=
  ∃ r s' fl', x = Ok r s' ∧ s' = s <| ram := ram s' |> <| freelist := freelist s' |> ∧
    (∀ q, q mod PGSIZE = 0 → q ∉ fl → same_page (ram s) (ram s') q) ∧
    ((r = 0 ∧ kmem_wf s' fl' ∧ ∀ q, q ∈ fl' ↔ q ∈ fl) ∨
     ∃ T, uvm_wf s' r T fl' ∧ process_as T 0 ∧ (∀ q, own T fl' q ↔ q ∈ fl) ∧
       leaf T !! UVPN = Some (pte_of tf (Z.lor PTE_R PTE_W)) ∧ leaf T !! (UVPN + 1) = Some (pte_of trampoline (Z.lor PTE_R PTE_X))).

Lemma made_fail s fl tf s1 root T fl1 f :
  uvm_wf s1 root T fl1 → process_as T 0 → (∀ q, own T fl1 q ↔ q ∈ fl) → s1 = s <| ram := ram s1 |> <| freelist := freelist s1 |> →
  (∀ q, q mod PGSIZE = 0 → q ∉ fl → same_page (ram s) (ram s1) q) →
  released s1 T fl1 (f s1) → made s fl tf ((f ;;; ret 0) s1).
Proof.
  intros Hw Hpa Ho Hs Hm (s2 & fl2 & E & Hk & Hf & Hs2 & Hm2). exists 0, s2, fl2. split; [by erewrite bind_ok by exact E|].
  split; [rewrite Hs2, Hs; rsimpl; kst_eq s|]. split.
  - intros q Hq Hn. eapply same_page_trans; [by apply Hm|]. apply Hm2; [done|]. by rewrite Ho.
  - left. split_and!; [done|done|]. intros q. by rewrite Hf.
Qed.

Lemma move_made s (fl : list Z) s1 T1 fl1 s2 T2 fl2 :
  s1 = s <| ram := ram s1 |> <| freelist := freelist s1 |> → (∀ q, own T1 fl1 q ↔ q ∈ fl) →
  (∀ q, q mod PGSIZE = 0 → q ∉ fl → same_page (ram s) (ram s1) q) → uvm_move s1 T1 fl1 s2 T2 fl2 →
  s2 = s <| ram := ram s2 |> <| freelist := freelist s2 |> ∧ (∀ q, own T2 fl2 q ↔ q ∈ fl) ∧
  (∀ q, q mod PGSIZE = 0 → q ∉ fl → same_page (ram s) (ram s2) q).
Proof.
  intros Hs Ho Hm [Hs2 Ho2 Hm2]. split; [rewrite Hs2, Hs; rsimpl; kst_eq s|]. split; [intros q; by rewrite Ho2|].
  intros q Hq Hn. eapply same_page_trans; [by apply Hm|]. apply Hm2; [done|]. by rewrite Ho.
Qed.

Lemma uvmfree_0 s root T fl : uvm_wf s root T fl → (∀ v, leaf T !! v = None) → released s T fl (uvmfree root 0 s).
Proof. intros Hw Hl. apply uvmfree_ok; [done|done|]. intros v [e He]. by rewrite Hl in He. Qed.

(** [proc_pagetable] makes an address space with the trampoline and the
    trapframe in it, or returns 0 and has lost no page. *)
Lemma proc_pagetable_ok i p s fl :
  kmem_wf s fl → Lkmem ∉ held s → procs s !! i = Some p → page_ok (p_trapframe p) → made s fl (p_trapframe p) (proc_pagetable i s).
Proof.
  intros Hk Hlk Hp Htf. unfold proc_pagetable. destruct fl as [|root fl].
  { unfold uvmcreate. erewrite bind_ok by (by erewrite bind_ok by (by apply kalloc_empty)).
    exists 0, s, []. split_and!; try done; [kst_eq s|]. by left. }
  destruct (uvmcreate_move s root fl Hk Hlk) as (s1 & E1 & Hw1 & Hs1 & Hm1). erewrite bind_ok by exact E1. clear E1.
  assert (page_ok root) as Hroot by (apply (proj1 (Forall_forall _ _) (kw_pages _ _ Hk)); left).
  pose proof (page_ok_nonzero _ Hroot) as Hnz. replace (root =? 0) with false by lia.
  assert (∀ q, own (empty_as root) fl q ↔ q ∈ root :: fl) as Ho1.
  { intros q. unfold own, as_page. rewrite is_table_empty, elem_of_cons. split; [|tauto].
    intros [[?|(v & e & He & _)]|?]; [by left| |by right]. cbn [leaf empty_as] in He. by rewrite lookup_empty in He. }
  assert (∀ q, q mod PGSIZE = 0 → q ∉ root :: fl → same_page (ram s) (ram s1) q) as Hm1' by (intros q Hq [? _]%not_elem_of_cons; by apply Hm1).
  pose proof trampoline_range as Htr. pose proof etext_range. pose proof kend_range as [_ Hke].
  assert (0 ≤ trampoline ∧ trampoline + PGSIZE < 2 ^ 64) as [Ht0 Ht1] by (unfold KERNBASE, PHYSTOP, PGSIZE, KERNBASE in *; lia).
  destruct (map_shared s1 root (empty_as root) fl TRAMPOLINE trampoline (Z.lor PTE_R PTE_X) Hw1) as (r2 & s2 & T2 & fl2 & E2 & Hw2 & Hmv2 & Hc2);
    [done..|apply lookup_empty|]. erewrite bind_ok by exact E2. clear E2.
  destruct (move_made s _ _ _ _ _ _ _ Hs1 Ho1 Hm1' Hmv2) as (Hs2 & Ho2 & Hm2).
  destruct Hc2 as [[-> Hl2]|[-> Hl2]]; cbn [Z.ltb Z.compare]; cycle 1.
  { eapply made_fail; try done; [intros v Hv; rewrite Hl2 in Hv; by apply (process_empty root)|]. apply uvmfree_0; [done|]. intros v. rewrite Hl2. apply lookup_empty. }
  erewrite bind_ok by (apply getp_ok; by rewrite Hs2; rsimpl). pose proof (page_ok_bound _ Htf) as [Hpb _].
  destruct (map_shared s2 root T2 fl2 TRAPFRAME (p_trapframe p) (Z.lor PTE_R PTE_W) Hw2) as (r3 & s3 & T3 & fl3 & E3 & Hw3 & Hmv3 & Hc3);
    [done..|lia|unfold PGSIZE; lia|done|done|rewrite Hl2; by rewrite lookup_insert_ne|]. erewrite bind_ok by exact E3. clear E3.
  destruct (move_made s _ _ _ _ _ _ _ Hs2 Ho2 Hm2 Hmv3) as (Hs3 & Ho3 & Hm3).
  destruct Hc3 as [[-> Hl3]|[-> Hl3]]; cbn [Z.ltb Z.compare].
  - exists root, s3, fl3. split_and!; try done. right. exists T3. rewrite Hl3, Hl2. split_and!; try done.
    intros v Hv. rewrite Hl3, Hl2 in Hv. apply lookup_insert_is_Some' in Hv as [<-|Hv]; [by right; left|].
    apply lookup_insert_is_Some' in Hv as [<-|Hv]; [by right; right|]. cbn [leaf empty_as] in Hv. rewrite lookup_empty in Hv. by destruct Hv.
  - destruct (unmap_shared s3 root T3 fl3 TRAMPOLINE Hw3) as (s4 & E4 & Hw4 & Hmv4); [done..|]. erewrite bind_ok by exact E4. clear E4.
    destruct (move_made s _ _ _ _ _ _ _ Hs3 Ho3 Hm3 Hmv4) as (Hs4 & Ho4 & Hm4).
    assert (∀ v, leaf (without T3 (TRAMPOLINE / 4096)) !! v = None) as Hl4.
    { intros v. unfold without. rsimpl. rewrite Hl3, Hl2, delete_insert_id by apply lookup_empty. apply lookup_empty. }
    eapply made_fail; try done; [intros v [e He]; by rewrite Hl4 in He|]. by apply uvmfree_0.
Qed.

End Freewalk.

Lemma freeproc_ok `{Layout, !LayoutOk, Wakeups, BlockDev} i p T fl s :
  procs s !! i = Some p → uvm_wf s (p_pagetable p) T fl → 0 ≤ p_sz p ≤ TRAPFRAME → process_as T (p_sz p) →
  page_ok (p_trapframe p) → ¬ own T fl (p_trapframe p) →
  ∃ s' fl', freeproc i s = Ok tt s' ∧ kmem_wf s' fl' ∧
    s' = s <| procs := <[i := clear_proc p]> (procs s) |> <| ram := ram s' |> <| freelist := freelist s' |> ∧
    (∀ q, q ∈ fl' ↔ q = p_trapframe p ∨ own T fl q) ∧
    (∀ q, q mod PGSIZE = 0 → q ≠ p_trapframe p → ¬ own T fl q → same_page (ram s) (ram s') q).
Proof.
  intros Hp Hw Hsz Hl Htf Hno. unfold freeproc. erewrite bind_ok by (by apply getp_ok).
  assert (∀ q, page_ok q → (q =? 0) = false) as Hnz.
  { intros q Hq. apply page_ok_range in Hq. apply Z.eqb_neq. unfold KERNBASE in *. lia. }
  rewrite !Hnz by (done || apply (pr_page _ _ _ (vm_rep _ _ _ _ (uv_vm _ _ _ _ Hw))); eexists; apply (pr_root _ _ _ (vm_rep _ _ _ _ (uv_vm _ _ _ _ Hw)))).
  cbn [negb]. destruct (kfree_uvm s _ T fl _ Hw Htf Hno) as (s1 & E1 & Hw1 & Hs1 & Hm1). erewrite bind_ok by exact E1. clear E1.
  assert (procs s1 = procs s) as Ep by (rewrite Hs1; by rsimpl).
  erewrite bind_ok by (apply (updp_ok i _ p); by rewrite Ep).
  set (s2 := s1 <| procs := _ |>). assert (uvm_wf s2 (p_pagetable p) T (p_trapframe p :: fl)) as Hw2 by (eapply uvm_wf_eq, Hw1; by unfold s2; rsimpl).
  destruct (proc_freepagetable_ok s2 _ T _ (p_sz p) Hw2 Hsz Hl) as (s3 & fl3 & E3 & Hk3 & Hf3 & Hs3 & Hm3).
  erewrite bind_ok by exact E3. clear E3.
  assert (procs s3 = <[i := p <| p_trapframe := 0 |>]> (procs s)) as Ep3 by (rewrite Hs3; unfold s2; rsimpl; by rewrite Ep).
  pose proof (lookup_lt_Some _ _ _ Hp) as Hlt.
  eexists _, fl3. split; [apply (updp_ok i _ (p <| p_trapframe := 0 |>)); rewrite Ep3; by apply list_lookup_insert_eq|].
  split; [eapply kmem_wf_frame; [exact Hk3|by rsimpl|done]|]. split.
  { rsimpl. rewrite Ep3, list_insert_insert_eq. replace (clear_proc (p <| p_trapframe := 0 |>)) with (clear_proc p) by (by unfold clear_proc; rsimpl).
    rewrite Hs3 at 1. unfold s2 at 1. rewrite Hs1 at 1. kst_eq s. }
  split; [intros q; rewrite Hf3; unfold own; rewrite elem_of_cons; tauto|].
  intros q Hq Hne Hn. rsimpl. eapply same_page_trans; [by apply Hm1|]. change (ram s1) with (ram s2).
  apply Hm3; [done|]. unfold own in *. rewrite elem_of_cons. tauto.
Qed.

(** C25: [freeproc] gives back all memory of a process and nothing else: after
    it the free list holds what it held, the trapframe, and every table and user
    page of the address space, each once; other pages are unchanged and the slot
    is free.  In particular [freewalk] never meets a leaf, and no page is freed
    twice or lost. *)
Theorem freeproc_correct `{Layout, !LayoutOk, Wakeups, BlockDev} i p T fl s :
  procs s !! i = Some p → uvm_wf s (p_pagetable p) T fl → 0 ≤ p_sz p ≤ TRAPFRAME → process_as T (p_sz p) →
  page_ok (p_trapframe p) → ¬ own T fl (p_trapframe p) →
  ∃ s' fl', freeproc i s = Ok tt s' ∧ kmem_wf s' fl' ∧ procs s' = <[i := clear_proc p]> (procs s) ∧
    (∀ q, q ∈ fl' ↔ q = p_trapframe p ∨ own T fl q) ∧
    (∀ q, q mod PGSIZE = 0 → q ≠ p_trapframe p → ¬ own T fl q → same_page (ram s) (ram s') q).
Proof.
  intros Hp Hw Hsz Hl Htf Hno. destruct (freeproc_ok i p T fl s Hp Hw Hsz Hl Htf Hno) as (s' & fl' & E & Hk & Hs & Hf & Hm).
  exists s', fl'. split_and!; [done|done|rewrite Hs; by rsimpl|done|done].
Qed.

Section Witnesses.
Local Existing Instance qemu_layout.
Local Existing Instance qemu_layout_ok.
#[local] Instance free_wakeups : Wakeups := 0%nat.
#[local] Instance free_disk : BlockDev := ram_disk.

(** A process of two pages, its trapframe at [child_root]. *)
Definition dead_proc : proc :=
  proc0 <| p_state := ZOMBIE |> <| p_pagetable := demo_root |> <| p_sz := 8192 |> <| p_trapframe := child_root |>.
Definition dead_demo : kst := (spare ∅) <| procs := [dead_proc] |>.

Lemma dead_demo_uvm : uvm_wf dead_demo demo_root (empty_as demo_root) fork_pages.
Proof.
  apply (uvm_wf_eq (spare ∅)); [unfold dead_demo; by rsimpl..|].
  apply spare_vm; [by vm_compute|apply (bool_decide_unpack _); by vm_compute|by intros b Hb].
Qed.

Lemma dead_demo_frame : ¬ own (empty_as demo_root) fork_pages child_root.
Proof.
  intros [[Ht|(v & e & He & _)]|Hin].
  - by apply is_table_empty in Ht.
  - cbn [leaf empty_as] in He. by rewrite lookup_empty in He.
  - revert Hin. apply (bool_decide_unpack _). by vm_compute.
Qed.

Lemma freeproc_correct_witness :
  ∃ r s s' fl', uvmalloc demo_root 0 8192 PTE_W dead_demo = Ok r s ∧ freeproc 0 s = Ok tt s' ∧ kmem_wf s' fl' ∧
    child_root ∈ fl' ∧ ∀ q, q ∈ fork_pages → q ∈ fl'.
Proof.
  pose proof dead_demo_uvm as Hw0. assert (procs dead_demo = [dead_proc]) as Hp0 by (unfold dead_demo; by rsimpl).
  generalize dependent dead_demo. intros s0 Hw0 Hp0.
  destruct (uvmalloc_ok s0 demo_root (empty_as demo_root) fork_pages 0 8192 PTE_W) as (r & s & T & fl & E & Hw & Hm & Hc);
    [exact Hw0|done|done|apply process_empty|done|].
  assert (process_as T 8192) as Hpa.
  { destruct Hc as [(_ & ? & _)|(_ & Hl & _)]; [done|]. intros v Hv. apply Hl in Hv. change (npages 0) with 0 in Hv. change (npages 8192) with 2. lia. }
  destruct (freeproc_correct 0 dead_proc T fl s) as (s' & fl' & E' & Hk & _ & Hf & _);
    [by rewrite (um_frame _ _ _ _ _ _ Hm); rsimpl; rewrite Hp0|exact Hw|by vm_compute|exact Hpa|by vm_compute| |].
  { rewrite (um_own _ _ _ _ _ _ Hm). exact dead_demo_frame. }
  exists r, s, s', fl'. split; [exact E|]. split; [exact E'|]. split; [exact Hk|]. split; [apply Hf; by left|].
  intros q Hq. apply Hf. right. apply (um_own _ _ _ _ _ _ Hm). by right.
Defined.

End Witnesses.
