(* ===== verification/Fork.v ===== *)
(** * fork ([kernel/proc.c])

    [allocproc] takes an unused slot, a trap frame and a page table, or gives
    back what it took; [kfork] makes a process whose memory, registers, open
    files and directory are those of the parent. *)

From Stdlib Require Import ZArith Lia.
From S2P Require Import Prelude Params CString State Kalloc Process Sched Vm VmRep VmMap Uvm Copy Space Bytes Sleeplock Bio BioRep Cache Log Fs FsInode Dir Pipe Console File Lifecycle Freewalk.
From stdpp Require Import base gmap strings numbers list.

Open Scope Z_scope.

(** An unused slot is as [freeproc] and [kexit] leave it. *)
Record clean (q : proc) : Prop := {
  cl_clear : clear_proc q = q;
  cl_files : p_ofile q = replicate NOFILE None;
  cl_name : length (p_name q) = 16%nat
}.

(** The slot [allocproc] returns. *)
Definition new_proc `{Layout} (pid tf root : Z) (q : proc) : proc :=
  init_proc pid q <| p_trapframe := tf |> <| p_pagetable := root |>
    <| p_context := fresh_context forkret_addr (u64 (p_kstack q + PGSIZE)) |>.

Section Fork.
Context `{Layout, !LayoutOk, Wakeups, BlockDev}.

Lemma find_unused_ok s :
  length (procs s) = NPROC → held s = [] →
  find_unused s =
    match find_first (is_state UNUSED) (procs s) with
    | Some i => Ok (Some i) (s <| held := [Lproc i] |>)
    | None => Ok None s
    end.
Proof.
  intros Hlen Hh. assert (∀ i, Lproc i ∉ held s) as Hn by (intros i; rewrite Hh; apply not_elem_of_nil). unfold find_unused.
  apply (for_each_find (is_state UNUSED) _ (λ i, i) (λ i, s <| held := [Lproc i] |>)); [done|..].
  - intros i p Hp Ht. slot_enter Hp. rewrite Ht. by apply slot_skip.
  - intros i p Hp Ht. slot_enter Hp. rewrite Ht. unfold ret. by rewrite Hh.
Qed.

Lemma allocpid_ok s : Lpid ∉ held s → allocpid s = Ok (nextpid s) (s <| nextpid := s32 (nextpid s + 1) |>).
Proof.
  intros Hl. unfold allocpid. kcall. kstep. kstep.
  erewrite bind_ok by (apply (release_top Lpid (held s)); [by rsimpl|done]). unfold ret. rsimpl. kst_eq s.
Qed.

Lemma kfree_page s fl p :
  kmem_wf s fl → Lkmem ∉ held s → page_ok p → p ∉ fl →
  ∃ s', kfree p s = Ok tt s' ∧ kmem_wf s' (p :: fl) ∧ s' = s <| ram := ram s' |> <| freelist := freelist s' |> ∧
    (∀ a, a mod PGSIZE = 0 → a ≠ p → same_page (ram s) (ram s') a).
Proof.
  intros Hk Hl Hp Hn. eexists. split; [by eapply kfree_ok|].
  assert (∀ a, a mod PGSIZE = 0 → a ≠ p → same_page (ram s) (store64 (memset (ram s) p 1 PGSIZE) p (freelist s)) a) as Hsame.
  { intros a Ha Hne b Hb. symmetry. destruct (pages_disjoint p a (proj1 Hp) Ha ltac:(congruence)); apply kfree_frame; lia. }
  split; [by apply kfree_wf|]. split; [rsimpl; kst_eq s|by rsimpl].
Qed.

Lemma kalloc_page s p fl :
  kmem_wf s (p :: fl) → Lkmem ∉ held s →
  ∃ s', kalloc s = Ok p s' ∧ kmem_wf s' fl ∧ s' = s <| ram := ram s' |> <| freelist := freelist s' |> ∧
    (∀ a, a mod PGSIZE = 0 → a ≠ p → same_page (ram s) (ram s') a).
Proof.
  intros Hk Hl. eexists. split; [by apply (kalloc_cons s p fl)|]. split; [by apply kalloc_wf|]. split; [rsimpl; kst_eq s|].
  assert (page_ok p) as (Hp & _) by (apply (proj1 (Forall_forall _ _) (kw_pages _ _ Hk)); left).
  intros a Ha Hne. rsimpl. apply same_page_memset; congruence.
Qed.

(** [freeproc] of a process that has no page table yet. *)
Lemma freeproc_bare i q s fl :
  procs s !! i = Some q → p_pagetable q = 0 → kmem_wf s fl → Lkmem ∉ held s →
  p_trapframe q = 0 ∨ page_ok (p_trapframe q) ∧ p_trapframe q ∉ fl →
  ∃ s' fl', freeproc i s = Ok tt s' ∧ kmem_wf s' fl' ∧
    s' = s <| procs := <[i := clear_proc q]> (procs s) |> <| ram := ram s' |> <| freelist := freelist s' |> ∧
    (∀ a, a ∈ fl' ↔ a ∈ fl ∨ a = p_trapframe q ∧ p_trapframe q ≠ 0) ∧
    (∀ a, a mod PGSIZE = 0 → (a = p_trapframe q → p_trapframe q = 0) → same_page (ram s) (ram s') a).
Proof.
  intros Hq Hpt Hk Hl Htf. unfold freeproc. erewrite bind_ok by (by apply getp_ok). pose proof (lookup_lt_Some _ _ _ Hq) as Hlt.
  assert (∃ s1 fl1, (when negb (p_trapframe q =? 0) do kfree (p_trapframe q)) s = Ok tt s1 ∧ kmem_wf s1 fl1 ∧
    s1 = s <| ram := ram s1 |> <| freelist := freelist s1 |> ∧ (∀ a, a ∈ fl1 ↔ a ∈ fl ∨ a = p_trapframe q ∧ p_trapframe q ≠ 0) ∧
    (∀ a, a mod PGSIZE = 0 → (a = p_trapframe q → p_trapframe q = 0) → same_page (ram s) (ram s1) a)) as (s1 & fl1 & E1 & Hk1 & Hs1 & Hf1 & Hm1).
  { destruct Htf as [->|[Hp Hn]].
    - exists s, fl. split_and!; [done|done|kst_eq s|intros a; tauto|done].
    - pose proof (page_ok_nonzero _ Hp). replace (p_trapframe q =? 0) with false by lia.
      destruct (kfree_page s fl _ Hk Hl Hp Hn) as (s1 & E & Hk1 & Hs1 & Hm1). exists s1, (p_trapframe q :: fl).
      split_and!; [done..| |]; intros a; [rewrite elem_of_cons; tauto|]. intros ? Ha. apply Hm1; [done|]. intros ->. lia. }
  erewrite bind_ok by exact E1. clear E1. assert (procs s1 = procs s) as Ep by (rewrite Hs1; by rsimpl).
  erewrite bind_ok by (apply (updp_ok i _ q); by rewrite Ep). rewrite Hpt. cbn [Z.eqb negb].
  rewrite bind_ret. erewrite updp_ok by (rsimpl; rewrite Ep; by apply list_lookup_insert_eq).
  eexists _, fl1. split; [reflexivity|]. split; [eapply kmem_wf_frame; [exact Hk1|by rsimpl|done]|].
  split_and!; [|done|intros a ? ?; rsimpl; by apply Hm1]. rsimpl. rewrite Ep, list_insert_insert_eq. rewrite Hs1 at 1.
  replace (clear_proc (q <| p_trapframe := 0 |>)) with (clear_proc q) by (by unfold clear_proc; rsimpl). rsimpl. kst_eq s.
Qed.

(** Slots that are not used are clean. *)
Definition slots_clean (s : kst) : Prop := ∀ i q, procs s !! i = Some q → p_state q = UNUSED → clean q.

(** From [s] a pid has been given, slot [i] is locked and holds [q], and pages
    have been taken or given back. *)
Definition at_slot (s : kst) (i : nat) (q : proc) (s1 : kst) : Prop :=
  s1 = s <| ram := ram s1 |> <| freelist := freelist s1 |> <| nextpid := s32 (nextpid s + 1) |>
         <| procs := <[i := q]> (procs s) |> <| held := [Lproc i] |>.

Lemma at_slot_look s i q s1 : (i < length (procs s))%nat → at_slot s i q s1 → procs s1 !! i = Some q ∧ held s1 = [Lproc i].
Proof. intros Hi E. rewrite E. rsimpl. split; [by apply list_lookup_insert_eq|done]. Qed.

Lemma at_slot_updp s i q s1 f :
  (i < length (procs s))%nat → at_slot s i q s1 →
  ∃ s2, updp i f s1 = Ok tt s2 ∧ at_slot s i (f q) s2 ∧ ram s2 = ram s1 ∧ freelist s2 = freelist s1.
Proof.
  intros Hi E. destruct (at_slot_look s i q s1 Hi E) as [Hq _]. eexists. split; [by apply (updp_ok i f q)|].
  split; [|by rsimpl].
  assert (procs s1 = <[i := q]> (procs s)) as Ep by (rewrite E; by rsimpl).
  unfold at_slot. rsimpl. rewrite Ep. rewrite E at 1. rewrite list_insert_insert_eq. kst_eq s.
Qed.

Lemma at_slot_mem s i q s1 s2 :
  at_slot s i q s1 → s2 = s1 <| ram := ram s2 |> <| freelist := freelist s2 |> → at_slot s i q s2.
Proof. intros E1 E2. unfold at_slot. rewrite E2 at 1. rewrite E1 at 1. kst_eq s. Qed.

(** What [allocproc] promises, from the free pages [fl]. *)
Definition alloc_none (s : kst) (fl : list Z) (s' : kst) : Prop :=
  ∃ fl', kmem_wf s' fl' ∧ (∀ a, a ∈ fl' ↔ a ∈ fl) ∧
    s' = s <| ram := ram s' |> <| freelist := freelist s' |> <| nextpid := nextpid s' |> ∧
    (∀ a, a mod PGSIZE = 0 → a ∉ fl → same_page (ram s) (ram s') a).
Record alloc_some (s : kst) (fl : list Z) (i : nat) (q : proc) (tf root : Z) (T : aspace) (fl' : list Z) (s' : kst) : Prop := {
  al_slot : procs s !! i = Some q ∧ p_state q = UNUSED;
  al_state : at_slot s i (new_proc (nextpid s) tf root q) s';
  al_as : uvm_wf s' root T fl';
  al_empty : process_as T 0;
  al_tf : page_ok tf ∧ ¬ own T fl' tf;
  al_map : leaf T !! UVPN = Some (pte_of tf (Z.lor PTE_R PTE_W)) ∧
    leaf T !! (UVPN + 1) = Some (pte_of trampoline (Z.lor PTE_R PTE_X));
  al_own : ∀ a, a = tf ∨ own T fl' a ↔ a ∈ fl;
  al_mem : ∀ a, a mod PGSIZE = 0 → a ∉ fl → same_page (ram s) (ram s') a
}.

(** What [allocproc] has set of a slot when it gives up is cleared. *)
Lemma clear_alloc pid tf q :
  clean q → let q' := init_proc pid q <| p_trapframe := tf |> in
  clear_proc q' = clear_proc q ∧ clear_proc (q' <| p_pagetable := 0 |>) = clear_proc q ∧ p_pagetable q' = 0.
Proof.
  intros Hc. cbv zeta. split_and!; [by unfold clear_proc, init_proc; rsimpl..|].
  unfold init_proc. rsimpl. rewrite <- (cl_clear _ Hc). unfold clear_proc. by rsimpl.
Qed.

(** The way back out of [allocproc]: the slot is freed and unlocked. *)
Lemma alloc_undo_ok i q q' s s1 fl fl1 :
  procs s !! i = Some q → clean q → clear_proc q' = clear_proc q → p_pagetable q' = 0 →
  at_slot s i q' s1 → held s = [] → kmem_wf s1 fl1 → p_trapframe q' = 0 ∨ page_ok (p_trapframe q') ∧ p_trapframe q' ∉ fl1 →
  (∀ a, a ∈ fl ↔ a ∈ fl1 ∨ a = p_trapframe q' ∧ p_trapframe q' ≠ 0) →
  (∀ a, a mod PGSIZE = 0 → a ∉ fl → same_page (ram s) (ram s1) a) →
  ∃ s', (freeproc i ;;; release (Lproc i) ;;; ret (@None nat)) s1 = Ok None s' ∧ alloc_none s fl s'.
Proof.
  intros Hq Hcl Hc Hpt Hs1 Hh Hk Htf Hfl Hm. pose proof (lookup_lt_Some _ _ _ Hq) as Hlt.
  destruct (at_slot_look s i q' s1 Hlt Hs1) as [Hq' Hh1].
  destruct (freeproc_bare i q' s1 fl1 Hq' Hpt Hk) as (s2 & fl2 & E & Hk2 & Hs2 & Hf2 & Hm2); [rewrite Hh1; set_solver|done|].
  erewrite bind_ok by exact E. clear E.
  erewrite bind_ok by (apply (release_top _ []); [rewrite Hs2; by rsimpl|apply not_elem_of_nil]).
  eexists. split; [reflexivity|]. exists fl2. split; [eapply kmem_wf_frame; [exact Hk2|by rsimpl|done]|].
  split; [intros a; by rewrite Hf2, Hfl|]. split.
  - assert (nextpid s2 = nextpid s1) as En by (rewrite Hs2; by rsimpl).
    assert (procs s1 = <[i := q']> (procs s) ∧ nextpid s1 = s32 (nextpid s + 1)) as [Ep En1] by (rewrite Hs1; by rsimpl).
    rsimpl. rewrite En, En1. rewrite Hs2 at 1. rewrite Ep. rewrite Hs1 at 1.
    rewrite Hc, (cl_clear _ Hcl), list_insert_insert_eq, list_insert_id, <- Hh by done. clear. kst_eq s.
  - intros a Ha Hn. rsimpl. eapply same_page_trans; [by apply Hm|]. apply Hm2; [done|]. intros ->.
    destruct Htf as [?|[Hp _]]; [done|]. exfalso. apply Hn, Hfl. right. split; [done|]. pose proof (page_ok_nonzero _ Hp). lia.
Qed.

(** The tables above the trampoline and the trapframe. *)
Definition top_keys : list (Z * Z) := [(2, 0); (1, 255); (0, 131071)].

Lemma mappages_top s root T fl va pa perm l :
  vm_state s root T fl → (va = TRAMPOLINE ∨ va = TRAPFRAME) → 0 ≤ pa → pa + PGSIZE < 2 ^ 64 → 0 ≤ perm < 2 ^ 64 →
  leaf T !! (va / 4096) = None → NoDup l → (3 < length l)%nat → (∀ a, a ∈ l → a ∈ fl ∨ is_table T a) →
  (∀ x, is_Some (tabs T !! x) → x ∈ top_keys) →
  ∃ s' T' fl', mappages root va PGSIZE pa perm s = Ok 0 s' ∧ vm_state s' root T' fl' ∧
    leaf T' = <[va / 4096 := pte_of pa perm]> (leaf T) ∧ s' = s <| ram := ram s' |> <| freelist := freelist s' |> ∧
    (∀ a, a ∈ l → a ∈ fl' ∨ is_table T' a) ∧ (∀ x, is_Some (tabs T' !! x) → x ∈ top_keys).
Proof.
  intros Hv Hva Hpa Hpa2 Hperm Hnone Hnd Hlen Hl Hk.
  assert (va mod PGSIZE = 0 ∧ 0 ≤ va ∧ va + PGSIZE ≤ MAXVA ∧ 67108862 ≤ va / 4096 ≤ 67108863) as (V1 & V2 & V3 & V4)
    by (destruct Hva as [-> | ->]; by vm_compute).
  destruct (mappages_ok s root T fl va PGSIZE pa perm Hv) as (r & s' & T' & fl' & k & E & Hv' & Hst & Hlf & Hg & Hc); try done.
  { intros w. rewrite vpn_next. intros Hw. by replace w with (va / 4096) by lia. }
  change (PGSIZE / PGSIZE) with 1 in Hc, Hg. destruct (vs_used _ _ _ _ _ _ Hst) as (used & Hfl & Ht).
  assert (∀ x, is_Some (tabs T' !! x) → x ∈ top_keys) as Hk'.
  { intros x Hx. destruct (proj2 Hg x Hx) as [?|(w & Hw & Hc')]; [by apply Hk|].
    assert (w / 2 ^ 18 = 255 ∧ w / 2 ^ 9 = 131071) as [W1 W2].
    { split; (apply Z.le_antisymm; [apply Z.lt_succ_r, Z.div_lt_upper_bound; lia|apply Z.div_le_lower_bound; lia]). }
    rewrite W1, W2 in Hc'. destruct Hc' as [-> | ->]; apply (bool_decide_unpack _); by vm_compute. }
  assert (∀ a, a ∈ l → a ∈ fl' ∨ is_table T' a) as Hl'.
  { intros a Ha. destruct (Hl a Ha) as [Hin|?]; [|right; apply Ht; by left]. rewrite Hfl in Hin. apply elem_of_app in Hin as [?|?]; [right; apply Ht; by right|by left]. }
  destruct Hc as [[-> Hk1]|(-> & _ & ->)].
  - assert (k = 1%nat) as -> by lia. exists s', T', fl'. split_and!; [done|done|done|apply Hst|done|done].
  - pose proof (tables_count T' top_keys l [] [] Hnd) as Hcnt. cbn in Hcnt. exfalso.
    assert ((length l ≤ 3)%nat); [|lia]. apply Hcnt; [|done]. intros a Ha. destruct (Hl' a Ha); tauto.
Qed.

Lemma pagetable_enough i p s fl :
  kmem_wf s fl → Lkmem ∉ held s → procs s !! i = Some p → page_ok (p_trapframe p) → (3 < length fl)%nat →
  ∃ r s', proc_pagetable i s = Ok r s' ∧ r ≠ 0.
Proof.
  intros Hk Hlk Hp Htf Hlen. unfold proc_pagetable. pose proof (kw_nodup _ _ Hk) as Hnd. destruct fl as [|root fl]; [cbn in Hlen; lia|].
  destruct (uvmcreate_ok s root fl Hk Hlk) as (s1 & E1 & Hv1 & Hs1). erewrite bind_ok by exact E1. clear E1.
  assert (page_ok root) as Hroot by (apply (proj1 (Forall_forall _ _) (kw_pages _ _ Hk)); left).
  pose proof (page_ok_nonzero _ Hroot) as Hnz. replace (root =? 0) with false by lia.
  pose proof trampoline_range as Htr. pose proof etext_range. pose proof kend_range as [_ Hke]. pose proof (page_ok_bound _ Htf) as [Hpb _].
  assert (0 ≤ trampoline ∧ trampoline + PGSIZE < 2 ^ 64) as [Ht0 Ht1] by (unfold KERNBASE, PHYSTOP, PGSIZE, KERNBASE in *; lia).
  destruct (mappages_top s1 root (empty_as root) fl TRAMPOLINE trampoline (Z.lor PTE_R PTE_X) (root :: fl)) as (s2 & T2 & fl2 & E2 & Hv2 & L2 & Hs2 & Hl2 & Hk2);
    [done|by left|done|done|by vm_compute|apply lookup_empty|done|done| | |].
  { intros a [-> |?]%elem_of_cons; [right; by apply is_table_empty|by left]. }
  { intros x [a Ha]. cbn [tabs empty_as] in Ha. apply lookup_singleton_Some in Ha as [<- _]. by left. }
  erewrite bind_ok by exact E2. cbn [Z.ltb Z.compare]. clear E2.
  erewrite bind_ok by (apply getp_ok; rewrite Hs2, Hs1; by rsimpl).
  destruct (mappages_top s2 root T2 fl2 TRAPFRAME (p_trapframe p) (Z.lor PTE_R PTE_W) (root :: fl)) as (s3 & T3 & fl3 & E3 & _);
    [done|by right|lia|unfold PGSIZE; lia|by vm_compute|rewrite L2, lookup_insert_ne by done; apply lookup_empty|done|done|done|done|].
  erewrite bind_ok by exact E3. exists root, s3. split; [done|lia].
Qed.

Lemma allocproc_ok s fl :
  kmem_wf s fl → length (procs s) = NPROC → held s = [] → slots_clean s →
  ∃ x s', allocproc s = Ok x s' ∧
    match x with
    | None => alloc_none s fl s' ∧ (find_first (is_state UNUSED) (procs s) = None ∨ (length fl ≤ 4)%nat)
    | Some i => ∃ q tf root T fl', alloc_some s fl i q tf root T fl' s'
    end.
Proof.
  intros Hk Hlen Hh Hcl. unfold allocproc. pose proof (find_unused_ok s Hlen Hh) as Ef.
  destruct (find_first (is_state UNUSED) (procs s)) as [i|] eqn:Ei.
  2: { erewrite bind_ok by exact Ef. exists None, s. split; [done|]. split; [|by left]. exists fl. split_and!; [done|done|kst_eq s|done]. }
  apply find_first_Some in Ei as (q & Hq & Hst & _). apply bool_decide_eq_true in Hst. pose proof (Hcl i q Hq Hst) as Hc.
  pose proof (lookup_lt_Some _ _ _ Hq) as Hlt.
  erewrite bind_ok by exact Ef. clear Ef. cbv beta iota. erewrite bind_ok by (apply allocpid_ok; rsimpl; set_solver).
  assert (at_slot s i q (s <| held := [Lproc i] |> <| nextpid := s32 (nextpid s + 1) |>)) as H0'.
  { unfold at_slot. rsimpl. rewrite list_insert_id by done. kst_eq s. }
  rsimpl. set (s0 := _ <| nextpid := _ |>) in *.
  assert (ram s0 = ram s ∧ freelist s0 = freelist s) as [R0 F0] by (by unfold s0; rsimpl). clearbody s0.
  destruct (at_slot_updp s i q s0 (init_proc (nextpid s)) Hlt H0') as (s1 & E1 & A1 & R1 & F1).
  erewrite bind_ok by exact E1. clear E1. set (q1 := init_proc (nextpid s) q) in *. rewrite R0 in R1. rewrite F0 in F1.
  assert (kmem_wf s1 fl) as Hk1 by (eapply kmem_wf_frame; [exact Hk|done|by rewrite R1]).
  pose proof (proj2 (at_slot_look _ _ _ _ Hlt A1)) as Hh1. assert (Lkmem ∉ held s1) as Hl1 by (rewrite Hh1; set_solver).
  destruct fl as [|tf fl].
  - erewrite bind_ok by (by apply kalloc_empty).
    destruct (at_slot_updp s i q1 s1 (λ p, p <| p_trapframe := 0 |>) Hlt A1) as (s2 & E2 & A2 & R2 & F2).
    erewrite bind_ok by exact E2. clear E2. cbn [Z.eqb].
    destruct (alloc_undo_ok i q (q1 <| p_trapframe := 0 |>) s s2 [] []) as (s' & E & Ha); try done.
    + by apply (clear_alloc (nextpid s) 0 q Hc).
    + eapply kmem_wf_frame; [exact Hk1|done|by rewrite R2].
    + left. by rsimpl.
    + intros a. rsimpl. set_solver.
    + intros a _ _. by rewrite R2, R1.
    + exists None, s'. split; [done|]. split; [done|]. right. cbn. lia.
  - pose proof (kw_nodup _ _ Hk) as [Hnin _]%NoDup_cons.
    assert (page_ok tf) as Hpp by (apply (proj1 (Forall_forall _ _) (kw_pages _ _ Hk)); left).
    pose proof (page_ok_nonzero _ Hpp) as Hnz.
    destruct (kalloc_page s1 tf fl Hk1 Hl1) as (s2 & E2 & Hk2 & S2 & M2). erewrite bind_ok by exact E2. clear E2.
    pose proof (at_slot_mem _ _ _ _ _ A1 S2) as A2.
    destruct (at_slot_updp s i q1 s2 (λ p, p <| p_trapframe := tf |>) Hlt A2) as (s3 & E3 & A3 & R3 & F3).
    erewrite bind_ok by exact E3. clear E3. replace (tf =? 0) with false by lia.
    destruct (at_slot_look _ _ _ _ Hlt A3) as [Hq3 Hh3].
    assert (kmem_wf s3 fl) as Hk3 by (eapply kmem_wf_frame; [exact Hk2|done|by rewrite R3]).
    destruct (proc_pagetable_ok i (q1 <| p_trapframe := tf |>) s3 fl) as (r & s4 & fl4 & E4 & S4 & M4 & C4);
      [exact Hk3|rewrite Hh3; set_solver|exact Hq3|by rsimpl|].
    erewrite bind_ok by exact E4. pose proof (at_slot_mem _ _ _ _ _ A3 S4) as A4.
    destruct (at_slot_updp s i _ s4 (λ p, p <| p_pagetable := r |>) Hlt A4) as (s5 & E5 & A5 & R5 & F5).
    erewrite bind_ok by exact E5. clear E5.
    assert (∀ a, a mod PGSIZE = 0 → a ∉ tf :: fl → same_page (ram s) (ram s5) a) as M5.
    { intros a Ha [Hne Hn]%not_elem_of_cons. rewrite R5. eapply same_page_trans; [|by apply M4]. rewrite R3, <- R1. by apply M2. }
    destruct C4 as [(-> & Hk4 & Hf4)|(T & Hw4 & Hpa & Ho4 & Hm4)].
    + cbn [Z.eqb]. destruct (clear_alloc (nextpid s) tf q Hc) as (_ & Hc2 & _).
      destruct (alloc_undo_ok i q (q1 <| p_trapframe := tf |> <| p_pagetable := 0 |>) s s5 (tf :: fl) fl4 Hq Hc Hc2) as (s' & E & Ha); try done.
      * eapply kmem_wf_frame; [exact Hk4|done|by rewrite R5].
      * right. rsimpl. by rewrite Hf4.
      * intros a. rsimpl. rewrite Hf4, elem_of_cons. tauto.
      * exists None, s'. split; [done|]. split; [done|]. right. destruct (decide (3 < length fl)%nat) as [H3|?]; [|cbn; lia].
        destruct (pagetable_enough i (q1 <| p_trapframe := tf |>) s3 fl Hk3 ltac:(rewrite Hh3; set_solver) Hq3 ltac:(by rsimpl) H3) as (r' & s4' & Er & Hr').
        rewrite E4 in Er. injection Er as <- _. done.
    + assert (r ≠ 0) as Hr.
      { pose proof (vm_rep _ _ _ _ (uv_vm _ _ _ _ Hw4)) as HT. apply page_ok_nonzero, (pr_page _ _ _ HT). eexists. apply (pr_root _ _ _ HT). }
      replace (r =? 0) with false by lia.
      destruct (at_slot_updp s i _ s5 (λ p, p <| p_context := fresh_context forkret_addr (u64 (p_kstack p + PGSIZE)) |>) Hlt A5)
        as (s6 & E6 & A6 & R6 & F6). erewrite bind_ok by exact E6. clear E6. exists (Some i), s6. split; [done|].
      exists q, tf, r, T, fl4. assert (¬ own T fl4 tf) as Hno by (by rewrite Ho4).
      split; [done| | |done|done| | |].
      * revert A6. unfold new_proc. rsimpl. unfold q1, init_proc. by rsimpl.
      * apply (uvm_wf_eq s4); [by rewrite R6, R5|by rewrite F6, F5| |exact Hw4].
        by rewrite (proj2 (at_slot_look _ _ _ _ Hlt A6)), (proj2 (at_slot_look _ _ _ _ Hlt A4)).
      * revert Hm4. by rsimpl.
      * intros a. rewrite Ho4, elem_of_cons. tauto.
      * by rewrite R6.
Qed.

(** ** The child *)

(** The state while the child is being made: its slot [i] holds [q]. *)
Definition making (s : kst) (i : nat) (q : proc) (h : list lock) (ft : list file) (it : list inode) (m : memory) (f : Z) : kst :=
  s <| ram := m |> <| freelist := f |> <| nextpid := s32 (nextpid s + 1) |> <| procs := <[i := q]> (procs s) |>
    <| held := h |> <| ftable := ft |> <| itable := it |>.

Lemma at_slot_making s i q s1 :
  at_slot s i q s1 → s1 = making s i q [Lproc i] (ftable s) (itable s) (ram s1) (freelist s1).
Proof. intros E. rewrite E at 1. unfold making. kst_eq s. Qed.

Section Making.
Context (s : kst) (i : nat) (Hi : (i < length (procs s))%nat).

Lemma making_getp q h ft it m f : getp i (making s i q h ft it m f) = Ok q (making s i q h ft it m f).
Proof. apply getp_ok. unfold making. rsimpl. by apply list_lookup_insert_eq. Qed.

Lemma making_other j p q h ft it m f :
  j ≠ i → procs s !! j = Some p → getp j (making s i q h ft it m f) = Ok p (making s i q h ft it m f).
Proof. intros Hj Hp. apply getp_ok. unfold making. rsimpl. by rewrite list_lookup_insert_ne. Qed.

Lemma making_updp g q h ft it m f : updp i g (making s i q h ft it m f) = Ok tt (making s i (g q) h ft it m f).
Proof.
  rewrite (updp_ok i g q); unfold making; rsimpl; [|by apply list_lookup_insert_eq].
  rewrite list_insert_insert_eq. kst_eq s.
Qed.

Lemma making_acquire l q h ft it m f :
  l ∉ h → acquire l (making s i q h ft it m f) = Ok tt (making s i q (l :: h) ft it m f).
Proof. intros Hl. rewrite acquire_ok; unfold making; rsimpl; [|done]. kst_eq s. Qed.

Lemma making_release l q h ft it m f :
  l ∉ h → release l (making s i q (l :: h) ft it m f) = Ok tt (making s i q h ft it m f).
Proof. intros Hl. rewrite (release_top l h); unfold making; rsimpl; [|done|done]. kst_eq s. Qed.

Lemma making_kmemmove d a n q h ft it m f :
  phys_ok d n = true → phys_ok a n = true →
  kmemmove d a n (making s i q h ft it m f) = Ok tt (making s i q h ft it (memmove m d a n) f).
Proof. intros Hd Ha. rewrite kmemmove_ok by done. unfold making. rsimpl. kst_eq s. Qed.

Lemma making_st64 a v q h ft it m f :
  phys_ok a 8 = true → st64 a v (making s i q h ft it m f) = Ok tt (making s i q h ft it (store64 m a v) f).
Proof. intros Ha. rewrite st64_ok by done. unfold making. rsimpl. kst_eq s. Qed.

(** [filedup] *)
Definition bump (x : file) : file := x <| f_ref := s32 (f_ref x + 1) |>.

Lemma making_filedup g x q h ft it m f :
  Lftable ∉ h → ft !! g = Some x → 1 ≤ f_ref x →
  filedup g (making s i q h ft it m f) = Ok g (making s i q h (<[g := bump x]> ft) it m f).
Proof.
  intros Hl Hx Hr. unfold filedup. erewrite bind_ok by (by apply making_acquire).
  assert (∀ ft, ft !! g = Some x → getf g (making s i q (Lftable :: h) ft it m f) = Ok x (making s i q (Lftable :: h) ft it m f)) as Hg.
  { intros ft' Hx'. unfold getf, making. rsimpl. by rewrite Hx'. }
  erewrite bind_ok by (by apply Hg). replace (f_ref x <? 1) with false by lia.
  erewrite bind_ok by (unfold updf; erewrite bind_ok by (by apply Hg); reflexivity).
  replace (_ <| ftable ::= _ |>) with (making s i q (Lftable :: h) (<[g := bump x]> ft) it m f) by (unfold making; rsimpl; kst_eq s).
  by erewrite bind_ok by (by apply making_release).
Qed.

Lemma making_idup ip x q h ft it m f :
  Litable ∉ h → it !! ip = Some x →
  idup ip (making s i q h ft it m f) = Ok ip (making s i q h ft (<[ip := x <| i_ref := s32 (i_ref x + 1) |>]> it) m f).
Proof.
  intros Hl Hx. unfold idup. erewrite bind_ok by (by apply making_acquire).
  erewrite bind_ok by (apply updi_ok; unfold making; rsimpl; exact Hx).
  replace (_ <| itable := _ |>) with (making s i q (Litable :: h) ft (<[ip := x <| i_ref := s32 (i_ref x + 1) |>]> it) m f)
    by (unfold making; rsimpl; kst_eq s).
  by erewrite bind_ok by (by apply making_release).
Qed.

(** The references after the open files [os] have been duplicated. *)
Definition dup_refs (os : list (option nat)) (ft : list file) : list file :=
  foldl (λ ft o, match o with Some g => alter bump g ft | None => ft end) ft os.

(** Every open file of [os] is in the table, with between 1 and [n] references. *)
Definition refs_ok (os : list (option nat)) (n : Z) (ft : list file) : Prop :=
  ∀ g, Some g ∈ os → ∃ x, ft !! g = Some x ∧ 1 ≤ f_ref x ≤ n.

Lemma refs_ok_bump os n ft g x :
  refs_ok os n ft → ft !! g = Some x → Some g ∈ os → n + 1 < 2 ^ 31 → refs_ok os (n + 1) (<[g := bump x]> ft).
Proof.
  intros Hr Hx Hg Hn j Hj. destruct (Hr j Hj) as (y & Hy & Hb). destruct (decide (j = g)) as [->|].
  - simplify_eq. exists (bump x). split; [apply list_lookup_insert_eq; by eapply lookup_lt_Some|].
    unfold bump. rsimpl. rewrite s32_small; lia.
  - exists y. rewrite list_lookup_insert_ne by done. split; [done|lia].
Qed.

(** The loop body of [dup_files]. *)
Definition dup_file (me fd : nat) : KM unit :=
  p <- getp me ;;
  o <- in_range (p_ofile p !! fd) ;;
  match o with
  | Some g => g' <- filedup g ;; updp i (λ q, q <| p_ofile ::= <[fd := Some g']> |>)
  | None => ret tt
  end.

Lemma dup_files_loop me p q h it m f k n ft :
  me ≠ i → procs s !! me = Some p → length (p_ofile p) = (k + n)%nat → Lftable ∉ h →
  p_ofile q = take k (p_ofile p) ++ replicate n None → refs_ok (p_ofile p) (2 ^ 31 - 1 - Z.of_nat n) ft →
  for_each (seq k n) (λ j, dup_file me j ;;; ret (@None unit)) (making s i q h ft it m f) =
  Ok None (making s i (q <| p_ofile := p_ofile p |>) h (dup_refs (drop k (p_ofile p)) ft) it m f).
Proof.
  intros Hne Hp. revert k q ft. induction n as [|n IH]; intros k q ft Hlen Hl Hq Hr; cbn [seq for_each].
  - rewrite drop_ge by lia. rewrite app_nil_r, take_ge in Hq by lia. rewrite <- Hq. unfold ret. f_equal.
    f_equal. destruct q. by rsimpl.
  - destruct (lookup_lt_is_Some_2 (p_ofile p) k) as [o Ho]; [lia|].
    assert (drop k (p_ofile p) = o :: drop (S k) (p_ofile p)) as -> by (by apply drop_S).
    assert (∀ v, <[k := v]> (take k (p_ofile p) ++ replicate (S n) None) = (take k (p_ofile p) ++ [v]) ++ replicate n None) as Hins.
    { intros v. rewrite insert_app_r_alt by (rewrite length_take; lia). rewrite length_take, Nat.min_l, Nat.sub_diag, <- app_assoc by lia. done. }
    assert (∀ q' ft', p_ofile q' = take (S k) (p_ofile p) ++ replicate n None → q' <| p_ofile := p_ofile p |> = q <| p_ofile := p_ofile p |> →
      refs_ok (p_ofile p) (2 ^ 31 - 1 - Z.of_nat n) ft' → dup_refs (o :: drop (S k) (p_ofile p)) ft = dup_refs (drop (S k) (p_ofile p)) ft' →
      dup_file me k (making s i q h ft it m f) = Ok tt (making s i q' h ft' it m f) →
      (dup_file me k ;;; ret (@None unit)) (making s i q h ft it m f) = Ok None (making s i q' h ft' it m f) ∧
      for_each (seq (S k) n) (λ j, dup_file me j ;;; ret (@None unit)) (making s i q' h ft' it m f) =
        Ok None (making s i (q <| p_ofile := p_ofile p |>) h (dup_refs (o :: drop (S k) (p_ofile p)) ft) it m f)) as Hstep.
    { intros q' ft' Hq' Heq Hr' Hd E. split; [by erewrite bind_ok by exact E|]. rewrite Hd, <- Heq. apply IH; [lia|done|done|done]. }
    destruct o as [g|].
    + destruct (Hr g) as (x & Hx & Hb); [by eapply list_elem_of_lookup_2|].
      destruct (Hstep (q <| p_ofile ::= <[k := Some g]> |>) (<[g := bump x]> ft)) as [E1 E2].
      * rsimpl. by rewrite Hq, Hins, (take_S_r _ _ _ Ho).
      * by destruct q; rsimpl.
      * replace (2 ^ 31 - 1 - Z.of_nat n) with (2 ^ 31 - 1 - Z.of_nat (S n) + 1) by lia.
        apply refs_ok_bump; [done|done|by eapply list_elem_of_lookup_2|lia].
      * cbn [dup_refs foldl]. by erewrite alter_lookup_insert by done.
      * unfold dup_file. erewrite bind_ok by (by apply making_other). rewrite Ho. erewrite bind_ok by reflexivity. cbv beta iota.
        erewrite bind_ok by (apply making_filedup; [done|done|lia]). apply making_updp.
      * erewrite bind_ok by exact E1. exact E2.
    + destruct (Hstep q ft) as [E1 E2].
      * by rewrite Hq, (take_S_r _ _ _ Ho), <- app_assoc.
      * done.
      * intros g Hg. destruct (Hr g Hg) as (x & ? & ?). exists x. split; [done|lia].
      * done.
      * unfold dup_file. erewrite bind_ok by (by apply making_other). rewrite Ho. by erewrite bind_ok by reflexivity.
      * erewrite bind_ok by exact E1. exact E2.
Qed.

Lemma dup_files_ok me p q h it m f ft :
  me ≠ i → procs s !! me = Some p → length (p_ofile p) = NOFILE → Lftable ∉ h →
  p_ofile q = replicate NOFILE None → refs_ok (p_ofile p) (2 ^ 31 - 17) ft →
  dup_files me i (making s i q h ft it m f) =
    Ok tt (making s i (q <| p_ofile := p_ofile p |>) h (dup_refs (p_ofile p) ft) it m f).
Proof.
  intros Hne Hp Hlen Hl Hq Hr. unfold dup_files, for_range.
  erewrite bind_ok by (by apply (dup_files_loop me p q h it m f 0 NOFILE ft)). by rewrite drop_0.
Qed.

End Making.

(** ** The memory of the child *)

(** The trap frame of the child: the parent's, with 0 in [a0]. *)
Definition tf_copied (m m' : memory) (tf tf' : Z) : Prop :=
  ∀ k, 0 ≤ k < TF_SIZE → ldb m' (tf' + k) = if decide (TF_A 0 ≤ k < TF_A 0 + 8) then 0 else ldb m (tf + k).

Lemma ldb_stn_0 n m a b : a ≤ b < a + Z.of_nat n → ldb (stn n m a 0) b = 0.
Proof.
  revert m a. induction n as [|n IH]; intros m a Hb; [lia|]. change (stn (S n) m a 0) with (stn n (stb m a 0) (a + 1) 0). destruct (decide (b = a)) as [->|].
  - rewrite ldb_stn_ne by lia. by rewrite ldb_stb_eq.
  - apply IH. lia.
Qed.

Lemma tf_copy m tf tf' :
  page_ok tf → page_ok tf' → tf ≠ tf' →
  let m' := store64 (memmove m tf' tf TF_SIZE) (tf' + TF_A 0) 0 in
  tf_copied m m' tf tf' ∧ ∀ a, a mod PGSIZE = 0 → a ≠ tf' → same_page m m' a.
Proof.
  intros [Htf _] [Htf' _] Hne m'. unfold tf_copied, m', TF_SIZE, TF_A. split.
  - intros k Hk. case_decide as Hd.
    + apply (ldb_stn_0 8). lia.
    + rewrite ldb_stn_ne by lia. rewrite ldb_memmove, decide_True by lia. f_equal. lia.
  - intros a Ha Hne' b Hb. destruct (pages_disjoint tf' a Htf' Ha ltac:(congruence)); unfold PGSIZE in *;
      (rewrite ldb_stn_ne by lia); rewrite ldb_memmove, decide_False by lia; done.
Qed.

Lemma as_page_ok s root T fl a : uvm_wf s root T fl → as_page T a → page_ok a ∧ a ∉ fl.
Proof.
  intros [[_ HT Hdt _] Hf _ _] [Ha|Ha]; [|by destruct (Hf a Ha) as (? & _ & ?)].
  split; [by apply (pr_page _ _ _ HT)|by apply Hdt].
Qed.

(** A new process that is freed: only the context stays. *)
Lemma cleared_new pid tf root q :
  clean q → let np := new_proc pid tf root q in
  p_sz np = 0 ∧ p_trapframe np = tf ∧ p_pagetable np = root ∧ clear_proc np = q <| p_context := p_context np |>.
Proof.
  intros Hcl np. assert (p_sz q = 0) as Hz by (rewrite <- (cl_clear _ Hcl); unfold clear_proc; by rsimpl).
  unfold np, new_proc, init_proc. rsimpl. split_and!; [done..|].
  set (c := fresh_context _ _). rewrite <- (cl_clear _ Hcl) at 2. unfold clear_proc. by rsimpl.
Qed.

(** ** fork *)

(** Process [me] can call [fork]: it is in slot [p] with its own memory [T] and
    trap frame, its directory is entry [ip] of the inode table, and the counts of
    its open files are far from overflowing. *)
Record forkable (s : kst) (me : nat) (p : proc) (T : aspace) (fl : list Z) (ip : nat) (x : inode) : Prop := {
  fk_cur : cur s = Some me;
  fk_proc : procs s !! me = Some p;
  fk_used : p_state p ≠ UNUSED;
  fk_len : length (procs s) = NPROC;
  fk_held : held s = [];
  fk_clean : slots_clean s;
  fk_as : uvm_wf s (p_pagetable p) T fl;
  fk_sz : 0 ≤ p_sz p ≤ TRAPFRAME;
  fk_pages : process_as T (p_sz p);
  fk_tf : page_ok (p_trapframe p) ∧ ¬ own T fl (p_trapframe p);
  fk_files : length (p_ofile p) = NOFILE;
  fk_refs : refs_ok (p_ofile p) (2 ^ 31 - 17) (ftable s);
  fk_cwd : p_cwd p = Some ip;
  fk_ip : itable s !! ip = Some x;
  fk_name : length (p_name p) = 16%nat
}.

(** The slot of the child. *)
Definition child_proc (pid tf root : Z) (me : nat) (p q : proc) (name : list Z) : proc :=
  inherit p (new_proc pid tf root q <| p_sz := p_sz p |> <| p_ofile := p_ofile p |> <| p_cwd := p_cwd p |>
    <| p_name := name |>) <| p_parent := Some me |> <| p_state := RUNNABLE |>.

(** Slot [i], [q] before, holds the child; its memory is [T'] with trap frame [tf]. *)
Record forked (s : kst) (me : nat) (p : proc) (T : aspace) (fl : list Z) (ip : nat) (x : inode)
    (i : nat) (q : proc) (tf root : Z) (T' : aspace) (fl' : list Z) (name : list Z) (s' : kst) : Prop := {
  fd_slot : procs s !! i = Some q ∧ p_state q = UNUSED;
  fd_state : s' = making s i (child_proc (nextpid s) tf root me p q name) [] (dup_refs (p_ofile p) (ftable s))
    (<[ip := x <| i_ref := s32 (i_ref x + 1) |>]> (itable s)) (ram s') (freelist s');
  fd_name : cstr name = take 15 (cstr (p_name p));
  fd_two : two s' (p_pagetable p) T root T' fl';
  fd_pages : process_as T' (p_sz p);
  fd_map : leaf T' !! UVPN = Some (pte_of tf (Z.lor PTE_R PTE_W)) ∧
    leaf T' !! (UVPN + 1) = Some (pte_of trampoline (Z.lor PTE_R PTE_X));
  fd_child : ∀ w, 0 ≤ w → uview (ram s') T' (p_sz p) w = uview (ram s) T (p_sz p) w;
  fd_parent : ∀ sz w, uview (ram s') T sz w = uview (ram s) T sz w;
  fd_frame : page_ok tf ∧ ¬ own T' fl' tf;
  fd_tf : tf_copied (ram s) (ram s') (p_trapframe p) tf;
  fd_own : ∀ a, a = tf ∨ own T' fl' a ↔ a ∈ fl
}.

(** No child: the memory is as before; a slot that was taken for a moment is
    unused again and differs in the saved context only. *)
Definition fork_none (s : kst) (fl : list Z) (s' : kst) : Prop :=
  ∃ fl', kmem_wf s' fl' ∧ (∀ a, a ∈ fl' ↔ a ∈ fl) ∧
    s' = s <| ram := ram s' |> <| freelist := freelist s' |> <| nextpid := nextpid s' |> <| procs := procs s' |> ∧
    (procs s' = procs s ∨ ∃ i q c, procs s !! i = Some q ∧ p_state q = UNUSED ∧ procs s' = <[i := q <| p_context := c |>]> (procs s)) ∧
    (∀ a, a mod PGSIZE = 0 → a ∉ fl → same_page (ram s) (ram s') a).

(** [kfork] after the memory has been copied. *)
Definition fork_tail (me np : nat) (p q : proc) : KM Z :=
  updp np (λ q, q <| p_sz := p_sz p |>) ;;;
  kmemmove (p_trapframe q) (p_trapframe p) TF_SIZE ;;;
  st64 (p_trapframe q + TF_A 0) 0 ;;;
  dup_files me np ;;;
  cwd <- in_range (p_cwd p) ;;
  cwd' <- idup cwd ;;
  updp np (λ q, q <| p_cwd := Some cwd' |>) ;;;
  name <- in_range (safestrcpy (p_name q) (p_name p) 16) ;;
  updp np (λ q, q <| p_name := name |>) ;;;
  acquire (Lproc me) ;;;
  p <- getp me ;;
  updp np (inherit p) ;;;
  release (Lproc me) ;;;
  q <- getp np ;;
  let pid := p_pid q in
  release (Lproc np) ;;;
  acquire Lwait ;;;
  updp np (λ q, q <| p_parent := Some me |>) ;;;
  release Lwait ;;;
  acquire (Lproc np) ;;;
  updp np (λ q, q <| p_state := RUNNABLE |>) ;;;
  release (Lproc np) ;;;
  ret pid.

Section Forking.
Context (s : kst) (me : nat) (p : proc) (T : aspace) (fl : list Z) (ip : nat) (x : inode).
Context (F : forkable s me p T fl ip x).
Context (i : nat) (q : proc) (tf root : Z) (T1 : aspace) (fl1 : list Z) (s1 : kst).
Context (A : alloc_some s fl i q tf root T1 fl1 s1).

Lemma slot_ne : me ≠ i.
Proof. intros ->. destruct (al_slot _ _ _ _ _ _ _ _ _ A) as [Hq Hu]. rewrite (fk_proc _ _ _ _ _ _ _ F) in Hq. injection Hq as <-. by apply (fk_used _ _ _ _ _ _ _ F). Qed.

Lemma slot_lt : (i < length (procs s))%nat.
Proof. eapply lookup_lt_Some, (al_slot _ _ _ _ _ _ _ _ _ A). Qed.

(** The parent's pages are not among those the child is made of. *)
Lemma parent_page a : as_page T a → page_ok a ∧ a ∉ fl.
Proof. apply (as_page_ok _ _ _ _ _ (fk_as _ _ _ _ _ _ _ F)). Qed.

Lemma alloc_two : two s1 (p_pagetable p) T root T1 fl1.
Proof.
  pose proof (al_as _ _ _ _ _ _ _ _ _ A) as Hw1.
  assert (∀ a, as_page T a → ¬ own T1 fl1 a) as Hn.
  { intros a Ha Ho. apply (parent_page a Ha), (al_own _ _ _ _ _ _ _ _ _ A). by right. }
  split; [|done|intros a Ha Hb; apply (Hn a Ha); by left].
  apply (space_kept s _ T fl); [apply F|apply Hw1..| |].
  - intros a Ha Hb. apply (Hn a Ha). by right.
  - intros a Ha. destruct (parent_page a Ha) as [(Hp & _) ?]. by apply (al_mem _ _ _ _ _ _ _ _ _ A).
Qed.

Lemma alloc_parent : kept T s s1.
Proof. intros a Ha. destruct (parent_page a (or_intror Ha)) as [(Hp & _) ?]. by apply (al_mem _ _ _ _ _ _ _ _ _ A). Qed.

Section Copied.
Context (s2 : kst) (T2 : aspace) (fl2 : list Z).
Context (Htw : two s2 (p_pagetable p) T root T2 fl2) (Hm : uvm_move s1 T1 fl1 s2 T2 fl2).

Lemma copied_slot : at_slot s i (new_proc (nextpid s) tf root q) s2.
Proof. eapply at_slot_mem; [apply (al_state _ _ _ _ _ _ _ _ _ A)|apply (um_frame _ _ _ _ _ _ Hm)]. Qed.

Lemma copied_own a : a = tf ∨ own T2 fl2 a ↔ a ∈ fl.
Proof. rewrite (um_own _ _ _ _ _ _ Hm). apply (al_own _ _ _ _ _ _ _ _ _ A). Qed.

Lemma copied_tf : page_ok tf ∧ ¬ own T2 fl2 tf.
Proof. rewrite (um_own _ _ _ _ _ _ Hm). apply (al_tf _ _ _ _ _ _ _ _ _ A). Qed.

Lemma copied_other a : a mod PGSIZE = 0 → a ∉ fl → same_page (ram s) (ram s2) a.
Proof.
  intros Ha Hn. eapply same_page_trans; [by apply (al_mem _ _ _ _ _ _ _ _ _ A)|]. apply (um_mem _ _ _ _ _ _ Hm); [done|].
  intros Ho. apply Hn, (al_own _ _ _ _ _ _ _ _ _ A). by right.
Qed.

(** No memory for the child: what was taken is given back. *)
Lemma fork_undo :
  process_as T2 0 →
  ∃ s', (freeproc i ;;; release (Lproc i) ;;; ret (-1)) s2 = Ok (-1) s' ∧ fork_none s fl s'.
Proof.
  intros Hpa. pose proof copied_slot as A2. pose proof slot_lt as Hlt. destruct (at_slot_look _ _ _ _ Hlt A2) as [Hq2 Hh2].
  destruct (al_slot _ _ _ _ _ _ _ _ _ A) as [Hq Hu]. pose proof (fk_clean _ _ _ _ _ _ _ F i q Hq Hu) as Hcl.
  set (np := new_proc (nextpid s) tf root q) in *. set (q' := q <| p_context := p_context np |>).
  assert (p_sz np = 0 ∧ p_trapframe np = tf ∧ p_pagetable np = root ∧ clear_proc np = q') as (Es & Et & Er & Ec)
    by (by apply cleared_new).
  destruct (freeproc_ok i np T2 fl2 s2 Hq2) as (s3 & fl3 & E & Hk & Hs & Hf & Hm3).
  { rewrite Er. apply Htw. } { by rewrite Es. } { by rewrite Es. } { rewrite Et. apply copied_tf. } { rewrite Et. apply copied_tf. }
  erewrite bind_ok by exact E. clear E.
  erewrite bind_ok by (apply (release_top _ []); [rewrite Hs; by rsimpl|apply not_elem_of_nil]). eexists. split; [reflexivity|].
  exists fl3. split; [eapply kmem_wf_frame; [exact Hk|by rsimpl|done]|]. rewrite Et in Hf, Hm3.
  split; [intros a; by rewrite Hf, copied_own|].
  assert (procs s2 = <[i := np]> (procs s) ∧ nextpid s2 = s32 (nextpid s + 1)) as [Ep En] by (rewrite A2; by rsimpl).
  assert (nextpid s3 = s32 (nextpid s + 1) ∧ procs s3 = <[i := q']> (procs s)) as [En3 Ep3].
  { rewrite Hs. rsimpl. by rewrite Ep, Ec, list_insert_insert_eq. }
  split; [|split; [rsimpl; right; by exists i, q, (p_context np)|]].
  - rsimpl. rewrite En3, Ep3. rewrite Hs at 1. rewrite Ep, Ec. rewrite A2 at 1.
    rewrite list_insert_insert_eq, <- (fk_held _ _ _ _ _ _ _ F) by done. clear. kst_eq s.
  - intros a Ha Hn. rsimpl. eapply same_page_trans; [by apply copied_other|]. apply Hm3; [done| |]; intros Hx; apply Hn, copied_own; auto.
Qed.

Lemma fork_tail_ok :
  ∃ name, cstr name = take 15 (cstr (p_name p)) ∧
    fork_tail me i p (new_proc (nextpid s) tf root q) s2 =
      Ok (nextpid s) (making s i (child_proc (nextpid s) tf root me p q name) [] (dup_refs (p_ofile p) (ftable s))
        (<[ip := x <| i_ref := s32 (i_ref x + 1) |>]> (itable s))
        (store64 (memmove (ram s2) tf (p_trapframe p) TF_SIZE) (tf + TF_A 0) 0) (freelist s2)).
Proof.
  destruct (al_slot _ _ _ _ _ _ _ _ _ A) as [Hq Hu]. pose proof (fk_clean _ _ _ _ _ _ _ F i q Hq Hu) as Hcl.
  pose proof slot_ne as Hne. pose proof slot_lt as Hlt. destruct copied_tf as [Htf _]. destruct (fk_tf _ _ _ _ _ _ _ F) as [Hpt _].
  destruct (safestrcpy_spec (p_name q) (p_name p) 16) as (name & En & _ & Ec & _);
    [done|rewrite (cl_name _ Hcl); lia|rewrite (fk_name _ _ _ _ _ _ _ F); lia|].
  exists name. split; [exact Ec|]. rewrite (at_slot_making _ _ _ _ copied_slot). unfold fork_tail.
  assert (p_trapframe (new_proc (nextpid s) tf root q) = tf ∧ p_name (new_proc (nextpid s) tf root q) = p_name q ∧
    p_ofile (new_proc (nextpid s) tf root q) = p_ofile q ∧ p_pid (new_proc (nextpid s) tf root q) = nextpid s) as (Et & Enm & Eo & Epid)
    by (unfold new_proc, init_proc; by rsimpl).
  rewrite Et, Enm. set (np := new_proc (nextpid s) tf root q) in *.
  erewrite bind_ok by (by apply (making_updp s i Hlt)).
  erewrite bind_ok by (apply (making_kmemmove s i Hlt); by apply page_ok_phys0).
  erewrite bind_ok by (apply (making_st64 s i Hlt); by apply page_ok_phys).
  erewrite bind_ok by (apply (dup_files_ok s i Hlt me p); try done; [apply F|apply F|set_solver|rsimpl; rewrite Eo; apply Hcl|apply F]).
  rewrite (fk_cwd _ _ _ _ _ _ _ F). erewrite bind_ok by reflexivity.
  erewrite bind_ok by (apply (making_idup s i Hlt); [set_solver|apply F]).
  erewrite bind_ok by (by apply (making_updp s i Hlt)). rewrite En. erewrite bind_ok by reflexivity.
  erewrite bind_ok by (by apply (making_updp s i Hlt)).
  erewrite bind_ok by (apply (making_acquire s i Hlt); set_solver).
  erewrite bind_ok by (apply (making_other s i me p); [done|apply F]).
  erewrite bind_ok by (by apply (making_updp s i Hlt)).
  erewrite bind_ok by (apply (making_release s i Hlt); set_solver).
  erewrite bind_ok by (by apply (making_getp s i Hlt)). cbv zeta.
  erewrite bind_ok by (apply (making_release s i Hlt); set_solver).
  erewrite bind_ok by (apply (making_acquire s i Hlt); set_solver).
  erewrite bind_ok by (by apply (making_updp s i Hlt)).
  erewrite bind_ok by (apply (making_release s i Hlt); set_solver).
  erewrite bind_ok by (apply (making_acquire s i Hlt); set_solver).
  erewrite bind_ok by (by apply (making_updp s i Hlt)).
  erewrite bind_ok by (apply (making_release s i Hlt); set_solver).
  unfold ret, child_proc, inherit. rewrite (fk_cwd _ _ _ _ _ _ _ F). rsimpl. by rewrite Epid.
Qed.

Lemma fork_done name s' :
  process_as T2 (p_sz p) → (∀ w, UVPN ≤ w → leaf T2 !! w = leaf T1 !! w) → kept T s1 s2 →
  (∀ w, 0 ≤ w → uview (ram s2) T2 (p_sz p) w = uview (ram s1) T (p_sz p) w) →
  cstr name = take 15 (cstr (p_name p)) →
  s' = making s i (child_proc (nextpid s) tf root me p q name) [] (dup_refs (p_ofile p) (ftable s))
        (<[ip := x <| i_ref := s32 (i_ref x + 1) |>]> (itable s))
        (store64 (memmove (ram s2) tf (p_trapframe p) TF_SIZE) (tf + TF_A 0) 0) (freelist s2) →
  forked s me p T fl ip x i q tf root T2 fl2 name s'.
Proof.
  intros Hpa Hhigh Hk Hv Hn ->. destruct copied_tf as [Htf Hntf]. destruct (fk_tf _ _ _ _ _ _ _ F) as [Hpt Hnp].
  assert (tf ∈ fl) as Htfl by (apply copied_own; by left).
  assert (p_trapframe p ≠ tf) as Hne by (intros Eq; apply Hnp; rewrite Eq; by right).
  destruct (tf_copy (ram s2) (p_trapframe p) tf Hpt Htf Hne) as [Hcp Hsame]. set (m' := store64 _ _ 0) in *. clearbody m'.
  set (s' := making _ _ _ _ _ _ _ _). assert (ram s' = m' ∧ freelist s' = freelist s2 ∧ held s' = []) as (Er & Ef & Eh) by (unfold s', making; by rsimpl).
  pose proof Htw as [HwT HwT2 Hdisj].
  assert (∀ a, own T2 fl2 a → same_page (ram s2) (ram s') a) as HsT2.
  { intros a Ha. rewrite Er. apply Hsame; [|intros ->; by apply Hntf]. destruct Ha as [Ha|Ha].
    - apply (as_page_ok _ _ _ _ _ HwT2 Ha).
    - apply (proj1 (Forall_forall _ _) (kw_pages _ _ (vm_kmem _ _ _ _ (uv_vm _ _ _ _ HwT2))) a Ha). }
  assert (∀ a, as_page T a → same_page (ram s2) (ram s') a) as HsT.
  { intros a Ha. destruct (parent_page a Ha) as [(Hm0 & _) Hnf]. rewrite Er. apply Hsame; [done|]. by intros ->. }
  assert (kmem_wf s' fl2) as Hk2 by (eapply kmem_wf_frame; [apply HwT2|done|intros a Ha; apply HsT2; by right]).
  assert (Lkmem ∉ held s') as Hlk by (rewrite Eh; apply not_elem_of_nil).
  assert (two s' (p_pagetable p) T root T2 fl2) as Htw'.
  { split; [| |done]; (eapply space_kept; [eassumption|done|done| |]).
    - intros a Ha. by apply (as_page_ok _ _ _ _ _ HwT).
    - done.
    - intros a Ha. by apply (as_page_ok _ _ _ _ _ HwT2).
    - intros a Ha. apply HsT2. by left. }
  pose proof alloc_parent as Hk1. split; try done.
  - apply A.
  - rewrite !Hhigh by lia. apply A.
  - intros w Hw. rewrite (uview_kept s2 s' root T2 fl2) by (done || intros a Ha; apply HsT2; left; by right).
    rewrite Hv by done. apply (uview_kept s s1 (p_pagetable p) T fl); [apply F|done].
  - intros sz w. apply (uview_kept s s' (p_pagetable p) T fl); [apply F|]. intros a Ha.
    eapply same_page_trans; [by apply Hk1|]. eapply same_page_trans; [by apply Hk|]. apply HsT. by right.
  - intros b Hb. rewrite Er, Hcp by done. case_decide; [done|]. symmetry. apply (copied_other (p_trapframe p)).
    + apply Hpt.
    + intros Hin. apply Hnp. by right.
    + unfold TF_SIZE, PGSIZE in *. lia.
  - exact copied_own.
Qed.

End Copied.
End Forking.

Lemma alloc_fork_none s fl s' : alloc_none s fl s' → fork_none s fl s'.
Proof.
  intros (fl' & Hk & Hf & Hs & Hm). exists fl'. assert (procs s' = procs s) as Ep by (rewrite Hs; by rsimpl).
  split_and!; [done|done| |by left|done]. rewrite Ep. rewrite Hs at 1. kst_eq s.
Qed.

Lemma kfork_ok s me p T fl ip x :
  forkable s me p T fl ip x →
  ∃ r s', kfork s = Ok r s' ∧
    (r = -1 ∧ fork_none s fl s' ∨
     r = nextpid s ∧ ∃ i q tf root T' fl' name, forked s me p T fl ip x i q tf root T' fl' name s').
Proof.
  intros F. unfold kfork. erewrite bind_ok by (apply curproc_ok; apply F).
  destruct (allocproc_ok s fl) as (o & s1 & E1 & Ho); [apply F..|]. erewrite bind_ok by exact E1. clear E1.
  destruct o as [i|]; [|exists (-1), s1; split; [done|]; left; split; [done|]; by apply alloc_fork_none, Ho].
  destruct Ho as (q & tf & root & T1 & fl1 & A). pose proof (slot_ne _ _ _ _ _ _ _ F _ _ _ _ _ _ _ A) as Hne.
  pose proof (slot_lt _ _ _ _ _ _ _ _ _ A) as Hlt.
  assert (procs s1 !! me = Some p) as Hp1 by (rewrite (al_state _ _ _ _ _ _ _ _ _ A); rsimpl; rewrite list_lookup_insert_ne by done; apply F).
  destruct (at_slot_look _ _ _ _ Hlt (al_state _ _ _ _ _ _ _ _ _ A)) as [Hq1 _].
  erewrite bind_ok by (by apply getp_ok). erewrite bind_ok by (by apply getp_ok).
  assert (p_pagetable (new_proc (nextpid s) tf root q) = root) as -> by (unfold new_proc, init_proc; by rsimpl).
  pose proof (alloc_two _ _ _ _ _ _ _ F _ _ _ _ _ _ _ A) as Htw1.
  destruct (uvmcopy_ok s1 _ T _ T1 fl1 (p_sz p) Htw1) as (r & s2 & T2 & fl2 & E2 & Htw & Hm & Hk & Hhigh & Hc); [apply F|apply F|apply A|].
  erewrite bind_ok by exact E2. clear E2. destruct Hc as [(-> & Hpa & Hv)|(-> & Hpa)]; cbn [Z.ltb Z.compare].
  - destruct (fork_tail_ok _ _ _ _ _ _ _ F _ _ _ _ _ _ _ A s2 T2 fl2 Htw Hm) as (name & En & E).
    eexists (nextpid s), _. split; [exact E|]. right. split; [done|]. exists i, q, tf, root, T2, fl2, name.
    by apply (fork_done _ _ _ _ _ _ _ F _ _ _ _ _ _ _ A s2 T2 fl2).
  - destruct (fork_undo _ _ _ _ _ _ _ F _ _ _ _ _ _ _ A s2 T2 fl2 Htw Hm Hpa) as (s' & E & Hn).
    exists (-1), s'. split; [exact E|]. by left.
Qed.

End Fork.

(** C2: [fork] either fails with -1, giving back every page it took and leaving
    all else as it was, or returns the new pid with one more runnable process: in a
    slot that was unused, with the parent recorded, the size, open files (each with
    one reference more), directory, name, power mode and limits of the parent and
    counters at zero; the child sees exactly the memory the parent sees, shares no
    page with it or with the allocator, and its registers are the parent's but for
    0 in [a0].  The parent sees its memory unchanged, and no page is lost. *)
Theorem kfork_correct `{Layout, !LayoutOk, Wakeups, BlockDev} s me p T fl ip x :
  forkable s me p T fl ip x →
  ∃ r s', kfork s = Ok r s' ∧
    (r = -1 ∧ fork_none s fl s' ∨
     r = nextpid s ∧ ∃ i q tf root T' fl' name, forked s me p T fl ip x i q tf root T' fl' name s').
Proof. apply kfork_ok. Qed.

Section Witnesses.
Local Existing Instance qemu_layout.
Local Existing Instance qemu_layout_ok.
#[local] Instance fork_wakeups : Wakeups := 0%nat.
#[local] Instance fork_disk : BlockDev := ram_disk.

(** A process of 5000 bytes with file 3 open twice, in the first of 64 slots. *)
Definition fork_parent : proc :=
  proc0 <| p_state := RUNNING |> <| p_pid := 1 |> <| p_pagetable := demo_root |> <| p_sz := 5000 |>
    <| p_trapframe := child_root |> <| p_cwd := Some 0%nat |> <| p_ofile := Some 3%nat :: Some 3%nat :: replicate 14 None |>.
Definition fork_state : kst :=
  (spare ∅) <| procs := fork_parent :: replicate 63 proc0 |> <| cur := Some 0%nat |> <| nextpid := 2 |>
    <| ftable := <[3%nat := file0 <| f_ref := 2 |>]> (replicate NFILE file0) |>
    <| itable := <[0%nat := inode0 <| i_ref := 1 |>]> (replicate NINODE inode0) |>.

Lemma fork_state_fields :
  cur fork_state = Some 0%nat ∧ procs fork_state = fork_parent :: replicate 63 proc0 ∧ held fork_state = [] ∧
  ftable fork_state = <[3%nat := file0 <| f_ref := 2 |>]> (replicate NFILE file0) ∧
  itable fork_state = <[0%nat := inode0 <| i_ref := 1 |>]> (replicate NINODE inode0) ∧
  uvm_wf fork_state demo_root (empty_as demo_root) fork_pages.
Proof.
  unfold fork_state. rsimpl. split_and!; [reflexivity..|].
  apply (uvm_wf_eq (spare ∅)); [by rsimpl..|].
  apply spare_vm; [by vm_compute|apply (bool_decide_unpack _); by vm_compute|by intros b Hb].
Qed.

Lemma fork_state_ok : forkable fork_state 0 fork_parent (empty_as demo_root) fork_pages 0 (inode0 <| i_ref := 1 |>).
Proof.
  destruct fork_state_fields as (Hc & Hp & Hh & Hf & Hi & Hw). generalize dependent fork_state. intros s Hc Hp Hh Hf Hi Hw.
  split; [exact Hc|by rewrite Hp|done|by rewrite Hp|exact Hh| |exact Hw|by vm_compute|apply process_empty| |done| |done|by rewrite Hi|done].
  - intros [|i] q Hq Hu; rewrite Hp in Hq; simpl in Hq; [by injection Hq as <-|].
    apply (lookup_replicate_1 63) in Hq as [-> _]. split; [by vm_compute|done|done].
  - split; [by vm_compute|apply dead_demo_frame].
  - intros g Hg. rewrite Hf. exists (file0 <| f_ref := 2 |>).
    assert (g = 3%nat) as -> by (revert Hg; unfold fork_parent; rsimpl; set_solver). split; [by vm_compute|by vm_compute].
Qed.

Lemma kfork_correct_witness :
  ∃ r s', kfork fork_state = Ok r s' ∧
    (r = -1 ∧ fork_none fork_state fork_pages s' ∨
     r = 2 ∧ ∃ i q tf root T' fl' name,
       forked fork_state 0 fork_parent (empty_as demo_root) fork_pages 0 (inode0 <| i_ref := 1 |>) i q tf root T' fl' name s').
Proof. exact (kfork_correct fork_state 0 fork_parent (empty_as demo_root) fork_pages 0 _ fork_state_ok). Defined.

End Witnesses.
