(* ===== verification/Exit.v ===== *)
(** * exit ([kernel/proc.c])

    [kexit] gives up files and directory, hands the children to [init], wakes
    the parent and leaves a zombie with its status. *)

From Stdlib Require Import ZArith Lia.
From S2P Require Import Prelude Params CString State Kalloc Process Sched Vm VmRep VmMap Uvm Copy Space Bytes Sleeplock Bio BioRep Cache Log Fs FsInode Dir Pipe Console File Lifecycle Freewalk Fork.
From stdpp Require Import base gmap strings numbers list.

Open Scope Z_scope.

(** One reference less. *)
Definition unref (x : file) : file := x <| f_ref := f_ref x - 1 |>.

(** The file table after the open files [os] have been closed. *)
Definition close_refs (os : list (option nat)) (ft : list file) : list file :=
  foldl (λ ft o, match o with Some g => alter unref g ft | None => ft end) ft os.

(** The number of descriptors of [os] for the file [g]. *)
Definition fds_of (g : nat) (os : list (option nat)) : Z := Z.of_nat (length (filter (λ o, o = Some g) os)).

(** Every open file of [os] is also open elsewhere. *)
Definition shared_files (os : list (option nat)) (ft : list file) : Prop :=
  ∀ g, Some g ∈ os → ∃ x, ft !! g = Some x ∧ fds_of g os < f_ref x < 2 ^ 31.

Lemma fds_of_cons g o os : fds_of g (o :: os) = (if decide (o = Some g) then 1 else 0) + fds_of g os.
Proof. unfold fds_of. rewrite filter_cons. case_decide; cbn [length]; lia. Qed.

Lemma shared_files_cons o os ft :
  shared_files (o :: os) ft → shared_files os (match o with Some g => alter unref g ft | None => ft end).
Proof.
  intros Hs g Hg. destruct (Hs g) as (x & Hx & Hr); [by right|]. rewrite fds_of_cons in Hr. destruct o as [g'|].
  - destruct (decide (g = g')) as [-> |Hne].
    + exists (unref x). rewrite list_lookup_alter_eq, Hx. split; [done|]. rewrite decide_True in Hr by done. unfold unref. rsimpl. lia.
    + exists x. rewrite list_lookup_alter_ne by done. split; [done|]. rewrite decide_False in Hr by naive_solver. lia.
  - exists x. split; [done|]. rewrite decide_False in Hr by done. lia.
Qed.

(** A child of [me] goes to [init]. *)
Definition orphan (me : nat) (init : option nat) (q : proc) : proc :=
  if bool_decide (p_parent q = Some me) then q <| p_parent := init |> else q.

Lemma wake_idem c m j q : wake c m j (wake c m j q) = wake c m j q.
Proof. unfold wake, is_state. repeat case_bool_decide; rsimpl; repeat case_bool_decide; rsimpl; done. Qed.
Lemma wake_parent c m j q : p_parent (wake c m j q) = p_parent q.
Proof. unfold wake. case_match; by rsimpl. Qed.
Lemma orphan_wake me init c m j q : orphan me init (wake c m j q) = wake c m j (orphan me init q).
Proof.
  unfold orphan. rewrite wake_parent. case_bool_decide; [|done]. unfold wake, is_state. rsimpl. case_match; [|done]. by destruct q; rsimpl.
Qed.

(** A process that sleeps on one of the channels [cs] becomes runnable. *)
Definition woken (cs : list channel) (q : proc) : proc :=
  if decide (p_state q = SLEEPING ∧ p_chan q ∈ cs) then q <| p_state := RUNNABLE |> else q.

Lemma woken_fields cs q : p_parent (woken cs q) = p_parent q ∧ p_chan (woken cs q) = p_chan q.
Proof. unfold woken. case_decide; by rsimpl. Qed.
Lemma wake_woken c m j q : m ≠ Some j → wake c m j q = woken [c] q.
Proof.
  intros Hm. unfold wake, woken, is_state. rewrite bool_decide_false by done. cbn [negb andb].
  destruct (decide (p_state q = SLEEPING)) as [E|E]; [rewrite (bool_decide_true _ E)|rewrite (bool_decide_false _ E), decide_False by tauto; done].
  destruct (decide (p_chan q = c)) as [E'|E']; [rewrite bool_decide_true, decide_True; [done|by rewrite list_elem_of_singleton|done]|].
  rewrite bool_decide_false, decide_False; [done|rewrite list_elem_of_singleton; tauto|done].
Qed.
Lemma wake_current c j q : wake c (Some j) j q = q.
Proof. unfold wake. by rewrite bool_decide_true. Qed.
Lemma woken_app cs ds q : woken cs (woken ds q) = woken (ds ++ cs) q.
Proof.
  unfold woken at 2 3. destruct (decide (p_state q = SLEEPING ∧ p_chan q ∈ ds)) as [[E1 E2]|E].
  - rewrite decide_True by (split; [done|apply elem_of_app; by left]). unfold woken. rsimpl. by rewrite decide_False by naive_solver.
  - unfold woken. destruct (decide (p_state q = SLEEPING ∧ p_chan q ∈ cs)) as [[E1 E2]|E'].
    + by rewrite decide_True by (split; [done|apply elem_of_app; by right]).
    + by rewrite decide_False by (rewrite elem_of_app; tauto).
Qed.
Lemma orphan_woken me init cs q : orphan me init (woken cs q) = woken cs (orphan me init q).
Proof.
  unfold orphan. rewrite (proj1 (woken_fields cs q)). case_bool_decide; [|done]. unfold woken. rsimpl. case_decide; [|done]. by destruct q; rsimpl.
Qed.

Section Exit.
Context `{Layout, !LayoutOk, Wakeups, BlockDev}.

(** The parts of the kernel an exit works on. *)
Definition exiting (s : kst) (h : list lock) (ps : list proc) (ft : list file) (it : list inode) (lg : log) : kst :=
  s <| held := h |> <| procs := ps |> <| ftable := ft |> <| itable := it |> <| klog := lg |>.

Section Parts.
Context (s : kst).

Lemma exiting_id : exiting s (held s) (procs s) (ftable s) (itable s) (klog s) = s.
Proof. unfold exiting. kst_eq s. Qed.

Lemma exiting_acquire l h ps ft it lg : l ∉ h → acquire l (exiting s h ps ft it lg) = Ok tt (exiting s (l :: h) ps ft it lg).
Proof. intros Hl. rewrite acquire_ok; unfold exiting; rsimpl; [|done]. kst_eq s. Qed.

Lemma exiting_release l h ps ft it lg :
  l ∈ h → release l (exiting s h ps ft it lg) = Ok tt (exiting s (remove_lock l h) ps ft it lg).
Proof. intros Hl. rewrite release_ok; unfold exiting; rsimpl; [|done]. kst_eq s. Qed.

Lemma exiting_release_top l h ps ft it lg : l ∉ h → release l (exiting s (l :: h) ps ft it lg) = Ok tt (exiting s h ps ft it lg).
Proof. intros Hl. rewrite exiting_release by left. by rewrite remove_lock_cons. Qed.

Lemma exiting_getp j p h ps ft it lg : ps !! j = Some p → getp j (exiting s h ps ft it lg) = Ok p (exiting s h ps ft it lg).
Proof. intros Hp. apply getp_ok. unfold exiting. by rsimpl. Qed.

Lemma exiting_updp j f p h ps ft it lg :
  ps !! j = Some p → updp j f (exiting s h ps ft it lg) = Ok tt (exiting s h (alter f j ps) ft it lg).
Proof. intros Hp. rewrite (updp_alter _ _ p); unfold exiting; rsimpl; [|done]. kst_eq s. Qed.

Lemma exiting_wakeup c h ps ft it lg :
  length ps = NPROC → (∀ i, Lproc i ∉ h) →
  wakeup c (exiting s h ps ft it lg) = Ok tt (exiting s h (imap (wake c (cur s)) ps) ft it lg).
Proof. intros Hl Hh. rewrite wakeup_ok; [unfold exiting; rsimpl; kst_eq s|]. split; unfold exiting; by rsimpl. Qed.

(** [fileclose] of a file that stays open elsewhere. *)
Lemma exiting_fileclose g x h ps ft it lg :
  Lftable ∉ h → ft !! g = Some x → 1 < f_ref x < 2 ^ 31 →
  fileclose g (exiting s h ps ft it lg) = Ok tt (exiting s h ps (alter unref g ft) it lg).
Proof.
  intros Hl Hx Hr. unfold fileclose. erewrite bind_ok by (by apply exiting_acquire).
  assert (∀ ft y, ft !! g = Some y → getf g (exiting s (Lftable :: h) ps ft it lg) = Ok y (exiting s (Lftable :: h) ps ft it lg)) as Hg.
  { intros ft' y Hy. unfold getf, exiting. rsimpl. by rewrite Hy. }
  erewrite bind_ok by (by apply Hg). replace (f_ref x <? 1) with false by lia.
  erewrite bind_ok by (unfold updf; erewrite bind_ok by (by apply Hg); reflexivity). rewrite s32_small by lia. fold (unref x).
  replace (_ <| ftable ::= _ |>) with (exiting s (Lftable :: h) ps (alter unref g ft) it lg)
    by (rewrite (alter_lookup_insert unref g x) by done; unfold exiting; rsimpl; kst_eq s).
  erewrite bind_ok by (apply Hg; by rewrite list_lookup_alter_eq, Hx). cbn [fmap option_fmap option_map].
  replace (f_ref (unref x) >? 0) with true by (unfold unref; rsimpl; lia). by apply exiting_release_top.
Qed.

Definition closed_proc (p : proc) : proc := p <| p_ofile := replicate NOFILE None |>.

(** The loop body of [close_files]. *)
Definition close_file (me fd : nat) : KM unit :=
  p <- getp me ;;
  o <- in_range (p_ofile p !! fd) ;;
  match o with
  | Some f => fileclose f ;;; updp me (λ p, p <| p_ofile ::= <[fd := None]> |>)
  | None => ret tt
  end.

Lemma exiting_close_file me q o h it lg os k ps ft :
  ps !! me = Some q → p_ofile q = replicate k None ++ o :: os → shared_files (o :: os) ft → Lftable ∉ h →
  close_file me k (exiting s h ps ft it lg) =
    Ok tt (exiting s h (alter (λ p, p <| p_ofile ::= <[k := None]> |>) me ps) (close_refs [o] ft) it lg).
Proof.
  intros Hq Ho Hs Hh. unfold close_file. erewrite bind_ok by (by apply exiting_getp).
  assert (p_ofile q !! k = Some o) as Hk by (rewrite Ho, lookup_app_r, length_replicate, Nat.sub_diag; [done|rewrite length_replicate; lia]).
  rewrite Hk. erewrite bind_ok by reflexivity. cbv beta iota. destruct o as [g|].
  - destruct (Hs g) as (x & Hx & Hr); [left|]. rewrite fds_of_cons, decide_True in Hr by done. unfold fds_of in Hr.
    erewrite bind_ok by (apply (exiting_fileclose g x); [done|done|lia]). by apply (exiting_updp me _ q).
  - unfold ret. rewrite (alter_lookup_insert _ _ q) by done. rewrite (list_insert_id ps); [done|].
    rewrite Hq. f_equal. trans (q <| p_ofile := <[k := None]> (p_ofile q) |>); [|by destruct q; rsimpl].
    rewrite list_insert_id by done. by destruct q; rsimpl.
Qed.

(** The loop over the descriptors; those below [k] are closed. *)
Lemma close_loop me q h it lg os k ps ft :
  ps !! me = Some q → p_ofile q = replicate k None ++ os → shared_files os ft → Lftable ∉ h →
  for_each (seq k (length os)) (λ fd, close_file me fd ;;; ret (@None unit)) (exiting s h ps ft it lg) =
  Ok None (exiting s h (alter (λ p, p <| p_ofile := replicate (k + length os) None |>) me ps) (close_refs os ft) it lg).
Proof.
  revert k q ps ft. induction os as [|o os IH]; intros k q ps ft Hq Ho Hs Hh; cbn [seq length for_each].
  - rewrite app_nil_r in Ho. rewrite Nat.add_0_r, (alter_lookup_insert _ _ q), <- Ho by done.
    replace (q <| p_ofile := p_ofile q |>) with q by (destruct q; by rsimpl). by rewrite list_insert_id.
  - assert (replicate (S k) None ++ os = <[k := None]> (replicate k None ++ o :: os)) as Hins.
    { rewrite insert_app_r_alt by (rewrite length_replicate; lia). rewrite length_replicate, Nat.sub_diag.
      change (<[0%nat := None]> (o :: os)) with ([None] ++ os). by rewrite app_assoc, <- replicate_cons_app. }
    apply shared_files_cons in Hs as Hs'.
    erewrite bind_ok by (by erewrite bind_ok by (by apply (exiting_close_file me q o h it lg os k ps ft))).
    rewrite (IH (S k) (q <| p_ofile ::= <[k := None]> |>)); [|by rewrite list_lookup_alter_eq, Hq|rsimpl; by rewrite Ho, Hins|done|done].
    rewrite Nat.add_succ_r, (alter_lookup_insert (λ p, p <| p_ofile ::= <[k := None]> |>) me q), list_alter_of_insert by done.
    rewrite (alter_lookup_insert _ me q) by done. by destruct q; rsimpl.
Qed.

Lemma exiting_close_files me q h ps ft it lg :
  ps !! me = Some q → length (p_ofile q) = NOFILE → shared_files (p_ofile q) ft → Lftable ∉ h →
  close_files me (exiting s h ps ft it lg) = Ok tt (exiting s h (alter closed_proc me ps) (close_refs (p_ofile q) ft) it lg).
Proof.
  intros Hq Hl Hs Hh. unfold close_files, for_range. rewrite <- Hl at 1. erewrite bind_ok by (by apply (close_loop me q h it lg (p_ofile q) 0)).
  unfold closed_proc. by rewrite Hl.
Qed.

(** ** The directory *)

(** The log admits one more operation, and between operations it is empty. *)
Record log_room (lg : log) : Prop := {
  lr_idle : l_committing lg = 0;
  lr_range : 0 ≤ l_outstanding lg < 2 ^ 31 - 1;
  lr_room : lh_n (l_lh lg) + (l_outstanding lg + 1) * MAXOPBLOCKS ≤ LOGBLOCKS;
  lr_empty : l_outstanding lg = 0 → lh_n (l_lh lg) ≤ 0
}.

Lemma exiting_updlog f h ps ft it lg : updlog f (exiting s h ps ft it lg) = Ok tt (exiting s h ps ft it (f lg)).
Proof. unfold updlog, modify. apply (f_equal (Ok tt)). unfold exiting. rsimpl. kst_eq s. Qed.

Lemma exiting_getlog h ps ft it lg : getlog (exiting s h ps ft it lg) = Ok lg (exiting s h ps ft it lg).
Proof. unfold getlog, gets, exiting. by rsimpl. Qed.

Lemma exiting_begin_op h ps ft it lg :
  Llog ∉ h → log_room lg →
  begin_op (exiting s h ps ft it lg) = Ok tt (exiting s h ps ft it (lg <| l_outstanding := l_outstanding lg + 1 |>)).
Proof.
  intros Hl [Hi Hr Hm He]. unfold begin_op. erewrite bind_ok by (by apply exiting_acquire).
  destruct wakeups as [|n]; cbn [begin_op_wait]; (erewrite bind_ok by apply exiting_getlog); rewrite Hi;
    replace (lh_n (l_lh lg) + (l_outstanding lg + 1) * MAXOPBLOCKS >? LOGBLOCKS) with false by lia;
    cbn [Z.eqb negb orb]; (erewrite bind_ok by apply exiting_updlog); rewrite exiting_release_top by done;
    do 2 f_equal; destruct lg; rsimpl; by rewrite s32_small by (cbn in *; lia).
Qed.

Lemma exiting_end_op h ps ft it lg :
  Llog ∉ h → (∀ i, Lproc i ∉ h) → length ps = NPROC → log_room lg →
  end_op (exiting s h ps ft it (lg <| l_outstanding := l_outstanding lg + 1 |>)) =
    Ok tt (exiting s h (imap (wake ChLog (cur s)) ps) ft it lg).
Proof.
  intros Hl Hp Hlen [Hi Hr Hm He]. unfold end_op. erewrite bind_ok by (by apply exiting_acquire).
  assert (∀ i, Lproc i ∉ Llog :: h) as Hp' by (intros i; by apply not_elem_of_cons).
  erewrite bind_ok by apply exiting_updlog. erewrite bind_ok by apply exiting_getlog. rsimpl. rewrite Hi. cbn [Z.eqb negb].
  rewrite s32_small by lia. replace (l_outstanding lg + 1 - 1) with (l_outstanding lg) by lia.
  replace (lg <| l_outstanding := l_outstanding lg + 1 |> <| l_outstanding := l_outstanding lg |>) with lg by (by destruct lg; rsimpl).
  destruct (l_outstanding lg =? 0) eqn:E0.
  - erewrite bind_ok by apply exiting_updlog. erewrite bind_ok by (by apply exiting_release_top).
    unfold commit. erewrite bind_ok.
    2: { erewrite bind_ok by apply exiting_getlog. rsimpl. replace (lh_n (l_lh lg) >? 0) with false by lia. reflexivity. }
    erewrite bind_ok by (by apply exiting_acquire). erewrite bind_ok by apply exiting_updlog.
    erewrite bind_ok by (by apply exiting_wakeup). rewrite exiting_release_top by done. do 2 f_equal. destruct lg; rsimpl. cbn in *. by subst.
  - erewrite bind_ok by (by apply exiting_wakeup). erewrite bind_ok by (by apply exiting_release_top). done.
Qed.

Definition unref_inode (x : inode) : inode := x <| i_ref := i_ref x - 1 |>.

(** [iput] of an inode that is in use elsewhere. *)
Lemma exiting_iput ip x h ps ft it lg :
  Litable ∉ h → it !! ip = Some x → 1 < i_ref x < 2 ^ 31 →
  iput ip (exiting s h ps ft it lg) = Ok tt (exiting s h ps ft (alter unref_inode ip it) lg).
Proof.
  intros Hl Hx Hr. unfold iput. erewrite bind_ok by (by apply exiting_acquire).
  erewrite bind_ok by (apply geti_ok; unfold exiting; rsimpl; exact Hx). replace (i_ref x =? 1) with false by lia. cbn [andb].
  rewrite bind_ret. erewrite bind_ok by (apply updi_ok; unfold exiting; rsimpl; exact Hx).
  replace (_ <| itable := _ |>) with (exiting s (Litable :: h) ps ft (alter unref_inode ip it) lg).
  - by apply exiting_release_top.
  - rewrite (alter_lookup_insert _ _ x), s32_small by (done || lia). unfold exiting, unref_inode. rsimpl. kst_eq s.
Qed.

(** ** The children *)

(** The slots from [lo] on, [n] of them, after [reparent] has seen them: [b] says
    whether there was a child among them. *)
Record reparented (me lo n : nat) (init : option nat) (ps ps' : list proc) (b : bool) : Prop := {
  re_length : length ps' = length ps;
  re_child : b = true ↔ ∃ j q, (lo ≤ j < lo + n)%nat ∧ ps !! j = Some q ∧ p_parent q = Some me;
  re_slot : ∀ j q, ps !! j = Some q →
    let q' := if decide (lo ≤ j < lo + n)%nat then orphan me init q else q in
    ps' !! j = Some (if b then wake (chan_of init) (cur s) j q' else q')
}.

(** The loop body of [reparent]. *)
Definition reparent_one (me i : nat) : KM unit :=
  pp <- getp i ;;
  when bool_decide (p_parent pp = Some me) do
    (init <- gets initproc ;; updp i (λ p, p <| p_parent := init |>) ;;; wakeup (chan_of init)).

Lemma exiting_reparent_one me i q h ps ft it lg :
  ps !! i = Some q → length ps = NPROC → (∀ j, Lproc j ∉ h) →
  reparent_one me i (exiting s h ps ft it lg) =
    Ok tt (exiting s h (if bool_decide (p_parent q = Some me) then
      imap (wake (chan_of (initproc s)) (cur s)) (alter (λ p, p <| p_parent := initproc s |>) i ps) else ps) ft it lg).
Proof.
  intros Hq Hl Hh. unfold reparent_one. erewrite bind_ok by (by apply exiting_getp). case_bool_decide; [|done].
  rewrite bind_gets. assert (initproc (exiting s h ps ft it lg) = initproc s) as -> by (unfold exiting; by rsimpl).
  erewrite bind_ok by (by apply (exiting_updp i _ q)). apply exiting_wakeup; [by rewrite length_alter|done].
Qed.

Lemma reparent_loop me n k ps h ft it lg :
  (k + n ≤ NPROC)%nat → length ps = NPROC → (∀ j, Lproc j ∉ h) →
  ∃ ps' b, for_each (seq k n) (λ i, reparent_one me i ;;; ret (@None unit)) (exiting s h ps ft it lg) = Ok None (exiting s h ps' ft it lg) ∧
    reparented me k n (initproc s) ps ps' b.
Proof.
  revert k ps. induction n as [|n IH]; intros k ps Hk Hl Hh; cbn [seq for_each].
  - exists ps, false. split; [done|]. split; [done|naive_solver lia|]. intros j q Hj. rewrite decide_False by lia. done.
  - destruct (lookup_lt_is_Some_2 ps k) as [q Hq]; [lia|].
    erewrite bind_ok by (by erewrite bind_ok by (by apply (exiting_reparent_one me k q))). case_bool_decide as Hc.
    + set (ps1 := imap _ _). destruct (IH (S k) ps1) as (ps' & b & E & [R1 R2 R3]); [lia|unfold ps1; by rewrite length_imap, length_alter|done|].
      assert (∀ j q, ps !! j = Some q → ps1 !! j = Some (wake (chan_of (initproc s)) (cur s) j (if decide (j = k) then orphan me (initproc s) q else q))) as Hps1.
      { intros j q' Hj. unfold ps1. rewrite list_lookup_imap. case_decide as Hd; [subst j|by rewrite list_lookup_alter_ne, Hj by done].
        rewrite list_lookup_alter_eq, Hj. simplify_eq. cbn. unfold orphan. by rewrite bool_decide_true. }
      exists ps', true. split; [exact E|]. split.
      * rewrite R1. unfold ps1. by rewrite length_imap, length_alter.
      * split; [|done]. intros _. exists k, q. split; [lia|done].
      * intros j q' Hj. rewrite (R3 j _ (Hps1 j q' Hj)). f_equal. rewrite orphan_wake.
        destruct (decide (j = k)) as [-> |Hne]; [rewrite decide_False, decide_True by lia; destruct b; by rewrite ?wake_idem|].
        destruct (decide (S k ≤ j < S k + n)%nat); [rewrite decide_True by lia|rewrite decide_False by lia]; destruct b; by rewrite ?wake_idem.
    + destruct (IH (S k) ps) as (ps' & b & E & [R1 R2 R3]); [lia|done|done|]. exists ps', b. split; [exact E|]. split; [done| |].
      * rewrite R2. split; intros (j & q' & Hj & Hq' & Hc'); exists j, q'; split_and!; try done; try lia.
        destruct (decide (j = k)) as [-> |]; [naive_solver|lia].
      * intros j q' Hj. rewrite (R3 j q' Hj). destruct (decide (j = k)) as [-> |Hne].
        -- simplify_eq. unfold orphan. rewrite bool_decide_false by done. by repeat case_decide.
        -- destruct (decide (S k ≤ j < S k + n)%nat); [rewrite decide_True by lia|rewrite decide_False by lia]; done.
Qed.

End Parts.

(** ** [kexit] *)

(** A process that may exit: it is not [init], its files and its directory are
    in use elsewhere and the log has room. *)
Record exit_ready (s : kst) (me : nat) (p : proc) (ip : nat) (x : inode) : Prop := {
  er_proc : cur s = Some me ∧ procs s !! me = Some p;
  er_table : length (procs s) = NPROC;
  er_locks : held s = [];
  er_init : initproc s ≠ Some me;
  er_parent : p_parent p ≠ Some me;
  er_files : length (p_ofile p) = NOFILE ∧ shared_files (p_ofile p) (ftable s);
  er_cwd : p_cwd p = Some ip ∧ itable s !! ip = Some x ∧ 1 < i_ref x < 2 ^ 31;
  er_log : log_room (klog s)
}.

Definition zombie (status : Z) (p : proc) : proc :=
  p <| p_ofile := replicate NOFILE None |> <| p_cwd := None |> <| p_xstate := status |> <| p_state := ZOMBIE |>.

Definition has_child (s : kst) (me : nat) : Prop := ∃ j q, procs s !! j = Some q ∧ p_parent q = Some me.

(** What an exit leaves: [cs] are the channels on which processes were woken. *)
Record exited (s : kst) (me : nat) (p : proc) (ip : nat) (status : Z) (cs : list channel) (s' : kst) : Prop := {
  ex_self : procs s' !! me = Some (zombie status p);
  ex_other : ∀ j q, j ≠ me → procs s !! j = Some q → procs s' !! j = Some (woken cs (orphan me (initproc s) q));
  ex_table : length (procs s') = NPROC;
  ex_rest : s' = exiting s [Lproc me] (procs s') (close_refs (p_ofile p) (ftable s)) (alter unref_inode ip (itable s)) (klog s);
  ex_parent : chan_of (p_parent p) ∈ cs;
  ex_init : has_child s me → chan_of (initproc s) ∈ cs;
  ex_woken : ∀ c, c ∈ cs → c = ChLog ∨ c = chan_of (p_parent p) ∨ (c = chan_of (initproc s) ∧ has_child s me)
}.

(** Files and directory. *)
Lemma exit_files {A} (rest : KM A) s me p ip x :
  exit_ready s me p ip x →
  (close_files me ;;; begin_op ;;; q <- getp me ;; cwd <- in_range (p_cwd q) ;; iput cwd ;;; end_op ;;;
   updp me (λ p, p <| p_cwd := None |>) ;;; rest) s =
  rest (exiting s [] (alter (λ p, p <| p_cwd := None |>) me (imap (wake ChLog (cur s)) (alter closed_proc me (procs s))))
    (close_refs (p_ofile p) (ftable s)) (alter unref_inode ip (itable s)) (klog s)).
Proof.
  intros [[Hc Hp] Hl Hh Hi Hpa [Hof Hsh] (Hcwd & Hx & Hr) Hlog]. rewrite <- (exiting_id s) at 1. rewrite Hh.
  erewrite bind_ok by (apply (exiting_close_files _ _ p); [done|done|done|apply not_elem_of_nil]).
  erewrite bind_ok by (apply exiting_begin_op; [apply not_elem_of_nil|done]).
  assert (alter closed_proc me (procs s) !! me = Some (closed_proc p)) as Hq by (by rewrite list_lookup_alter_eq, Hp).
  erewrite bind_ok by (by apply exiting_getp). assert (p_cwd (closed_proc p) = Some ip) as -> by (unfold closed_proc; by rsimpl).
  erewrite bind_ok by reflexivity. erewrite bind_ok by (apply (exiting_iput _ _ x); [apply not_elem_of_nil|done|done]).
  erewrite bind_ok by (apply exiting_end_op; [apply not_elem_of_nil|intros; apply not_elem_of_nil|by rewrite length_alter|done]).
  erewrite bind_ok; [reflexivity|]. eapply exiting_updp. by rewrite list_lookup_imap, Hq.
Qed.

(** The slots after files and directory have been given up. *)
Lemma exit_files_slots s me p :
  cur s = Some me → procs s !! me = Some p →
  let ps := alter (λ p, p <| p_cwd := None |>) me (imap (wake ChLog (cur s)) (alter closed_proc me (procs s))) in
  ps !! me = Some ((closed_proc p) <| p_cwd := None |>) ∧
  ∀ j q, j ≠ me → procs s !! j = Some q → ps !! j = Some (woken [ChLog] q).
Proof.
  intros Hc Hp. cbv zeta. split.
  - by rewrite list_lookup_alter_eq, list_lookup_imap, list_lookup_alter_eq, Hp, Hc; cbn; rewrite wake_current.
  - intros j q Hj Hq. rewrite list_lookup_alter_ne, list_lookup_imap, list_lookup_alter_ne, Hq by done. cbn.
    by rewrite wake_woken by (rewrite Hc; naive_solver).
Qed.

(** The children are handed over. *)
Lemma exit_children s me p p1 ps ft it lg :
  cur s = Some me → procs s !! me = Some p → length (procs s) = NPROC → length ps = NPROC →
  p_parent p ≠ Some me → p_parent p1 = p_parent p → ps !! me = Some p1 →
  (∀ j q, j ≠ me → procs s !! j = Some q → ps !! j = Some (woken [ChLog] q)) →
  ∃ ps2 cs, reparent me (exiting s [Lwait] ps ft it lg) = Ok tt (exiting s [Lwait] ps2 ft it lg) ∧
    length ps2 = NPROC ∧ ps2 !! me = Some p1 ∧
    (∀ j q, j ≠ me → procs s !! j = Some q → ps2 !! j = Some (woken (ChLog :: cs) (orphan me (initproc s) q))) ∧
    (has_child s me → chan_of (initproc s) ∈ cs) ∧ (∀ c, c ∈ cs → c = chan_of (initproc s) ∧ has_child s me).
Proof.
  intros Hc Hp Hl Hlp Hpa Hp1 S1 S2.
  destruct (reparent_loop s me NPROC 0 ps [Lwait] ft it lg) as (ps2 & b & E2 & [R1 R2 R3]);
    [lia|done|intros j; by rewrite list_elem_of_singleton|].
  assert (b = true ↔ has_child s me) as Hb.
  { rewrite R2. split.
    - intros (j & q & _ & Hj & Hq). destruct (decide (j = me)) as [-> |Hne]; [exfalso; congruence|].
      destruct (lookup_lt_is_Some_2 (procs s) j) as [q' Hq']; [apply lookup_lt_Some in Hj; lia|]. exists j, q'. split; [done|].
      rewrite (S2 j q' Hne Hq') in Hj. simplify_eq. by rewrite (proj1 (woken_fields _ _)) in Hq.
    - intros (j & q & Hj & Hq). assert (j ≠ me) by congruence. exists j, (woken [ChLog] q).
      split; [apply lookup_lt_Some in Hj; lia|]. split; [by apply S2|]. by rewrite (proj1 (woken_fields _ _)). }
  exists ps2, (if b then [chan_of (initproc s)] else []). split; [unfold reparent, for_range; by erewrite bind_ok by exact E2|].
  split; [by rewrite R1|]. split_and!.
  - rewrite (R3 _ _ S1). rewrite Hc, wake_current. unfold orphan. rewrite bool_decide_false by congruence. by destruct b, (decide _).
  - intros j q Hj Hq. rewrite (R3 j _ (S2 j q Hj Hq)), decide_True by (apply lookup_lt_Some in Hq; lia).
    rewrite orphan_woken. destruct b; [rewrite wake_woken by congruence; by rewrite woken_app|done].
  - intros Hk. apply Hb in Hk as ->. left.
  - intros c Hcs. destruct b; [|by apply elem_of_nil in Hcs]. apply list_elem_of_singleton in Hcs as ->. split; [done|by apply Hb].
Qed.

Lemma kexit_ok s me p ip x status :
  exit_ready s me p ip x → ∃ cs s' k, kexit status s = Swtch s' k ∧ exited s me p ip status cs s'.
Proof.
  intros Hr. pose proof Hr as [[Hc Hp] Hl Hh Hi Hpa _ _ _]. unfold kexit.
  erewrite bind_ok by (by apply curproc_ok). rewrite bind_gets, bool_decide_false by congruence. rewrite (exit_files _ _ _ _ _ _ Hr).
  destruct (exit_files_slots s me p Hc Hp) as [S1 S2]. cbv zeta in S1, S2. set (ps := alter _ _ _) in *.
  assert (length ps = NPROC) as Hlp by (unfold ps; by rewrite length_alter, length_imap, length_alter). clearbody ps.
  set (ft := close_refs _ _). set (it := alter unref_inode _ _). set (p1 := (closed_proc p) <| p_cwd := None |>) in *.
  assert (p_parent p1 = p_parent p) as Hp1 by (unfold p1, closed_proc; by rsimpl).
  erewrite bind_ok by (apply exiting_acquire, not_elem_of_nil).
  destruct (exit_children s me p p1 ps ft it (klog s)) as (ps2 & cs & E2 & Hl2 & Q2 & O2 & C1 & C2); try done.
  erewrite bind_ok by exact E2. erewrite bind_ok by (by apply exiting_getp). rewrite Hp1.
  erewrite bind_ok by (apply exiting_wakeup; [done|intros j; by rewrite list_elem_of_singleton]). set (ps3 := imap _ _).
  assert (ps3 !! me = Some p1) as Q3 by (unfold ps3; rewrite list_lookup_imap, Q2, Hc; cbn; by rewrite wake_current).
  erewrite bind_ok by (apply exiting_acquire; by rewrite list_elem_of_singleton). erewrite bind_ok by (by apply (exiting_updp _ _ _ p1)).
  erewrite bind_ok by (apply exiting_release; right; left). rewrite remove_lock_cons_ne, remove_lock_cons by (done || apply not_elem_of_nil).
  set (ps4 := alter _ _ ps3). assert (ps4 !! me = Some (zombie status p)) as Q4.
  { unfold ps4. rewrite list_lookup_alter_eq, Q3. reflexivity. }
  exists (ChLog :: cs ++ [chan_of (p_parent p)]), (exiting s [Lproc me] ps4 ft it (klog s)). eexists. split.
  { eapply bind_swtch, (sched_swtch _ me (zombie status p)); unfold exiting; rsimpl; done. }
  assert (procs (exiting s [Lproc me] ps4 ft it (klog s)) = ps4) as Hps by (unfold exiting; by rsimpl).
  split; rewrite ?Hps; [done| |unfold ps4, ps3; by rewrite length_alter, length_imap|done| | |].
  - intros j q Hj Hq. unfold ps4, ps3. rewrite list_lookup_alter_ne, list_lookup_imap, (O2 j q Hj Hq) by done. cbn.
    rewrite wake_woken by congruence. by rewrite woken_app.
  - right. apply elem_of_app. right. by apply list_elem_of_singleton.
  - intros Hk. right. apply elem_of_app. left. by apply C1.
  - intros c [-> |[Hcs| ->%list_elem_of_singleton]%elem_of_app]%elem_of_cons; [by left|right; right; by apply C2|right; by left].
Qed.

End Exit.
