(* ===== verification/Wait.v ===== *)
(** * wait ([kernel/proc.c])

    [kwait] scans the table for a zombie child, copies its status to the
    caller's memory and frees it; without one it sleeps on the caller's own
    channel or fails.  With [kexit] this gives the way of an exit status from
    the child to its parent. *)

From Stdlib Require Import ZArith Lia.
From S2P Require Import Prelude Params CString State Kalloc Process Sched Vm VmRep VmMap Uvm Copy Space Bytes Sleeplock Bio BioRep Cache Log Fs FsInode Dir Pipe Console File Lifecycle Freewalk Fork Exit.
From stdpp Require Import base gmap strings numbers list.

Open Scope Z_scope.

Section Wait.
Context `{Layout, !LayoutOk, Wakeups, BlockDev}.

(** A slot the scan passes by. *)
Definition no_zombie (s : kst) (me i : nat) : Prop :=
  ∃ q, procs s !! i = Some q ∧ (p_parent q = Some me → p_state q ≠ ZOMBIE).

(** Whether there is a child in the slots [l]. *)
Definition kids (s : kst) (me : nat) (l : list nat) : bool :=
  existsb (λ i, match procs s !! i with Some q => bool_decide (p_parent q = Some me) | None => false end) l.

Lemma kids_spec s me l : kids s me l = true ↔ ∃ i q, i ∈ l ∧ procs s !! i = Some q ∧ p_parent q = Some me.
Proof.
  unfold kids. rewrite existsb_exists. split.
  - intros (i & Hi & Hk). apply list_elem_of_In in Hi. destruct (procs s !! i) as [q|] eqn:E; [|done].
    apply bool_decide_eq_true in Hk. by exists i, q.
  - intros (i & q & Hi & Hq & Hk). exists i. rewrite <- list_elem_of_In, Hq. by rewrite bool_decide_true.
Qed.

Lemma scan_skip l l2 me addr hk s :
  held s = [Lwait] → (∀ i, i ∈ l → no_zombie s me i) →
  wait_scan (l ++ l2) me addr hk s = wait_scan l2 me addr (hk || kids s me l) s.
Proof.
  intros Hh. revert hk. induction l as [|i l IH]; intros hk Hl; cbn [app wait_scan kids existsb].
  - by rewrite orb_false_r.
  - destruct (Hl i) as (q & Hq & Hz); [left|]. erewrite bind_ok by (by apply getp_ok). rewrite Hq.
    assert (∀ j, j ∈ l → no_zombie s me j) as Hl' by (intros j Hj; apply Hl; by right). case_bool_decide as Hc.
    + erewrite bind_ok by (apply acquire_ok; rewrite Hh; by rewrite list_elem_of_singleton).
      erewrite bind_ok by (apply getp_ok; rsimpl; exact Hq). unfold is_state. rewrite bool_decide_false by auto.
      erewrite bind_ok by (apply (release_top _ [Lwait]); [rsimpl; by rewrite Hh|by rewrite list_elem_of_singleton]).
      replace (_ <| held := [Lwait] |>) with s by (rewrite <- Hh; kst_eq s). rewrite IH by done. by destruct hk.
    + rewrite IH by done. done.
Qed.

(** ** Reaping *)

(** A parent and its zombie child in memory. *)
Record reapable (s : kst) (p : proc) (Tp : aspace) (c : proc) (Tc : aspace) (fl : list Z) : Prop := {
  rp_two : two s (p_pagetable p) Tp (p_pagetable c) Tc fl;
  rp_size : p_sz p ≤ TRAPFRAME ∧ 0 ≤ p_sz c ≤ TRAPFRAME;
  rp_space : process_as Tc (p_sz c);
  rp_frame : page_ok (p_trapframe c) ∧ ¬ as_page Tp (p_trapframe c) ∧ ¬ own Tc fl (p_trapframe c)
}.

Lemma two_sym s r1 T1 r2 T2 fl : two s r1 T1 r2 T2 fl → two s r2 T2 r1 T1 fl.
Proof. intros [A B D]. split; [done|done|]. intros p Hp Hp'. by apply (D p). Qed.

(** Work on the parent's memory leaves the child's alone. *)
Lemma reapable_step s p Tp c Tc fl s' Tp' fl' :
  reapable s p Tp c Tc fl → uvm_step s Tp fl s' Tp' fl' → uvm_wf s' (p_pagetable p) Tp' fl' → reapable s' p Tp' c Tc fl'.
Proof.
  intros [Htw Hsz Hpa (Hf & Hn1 & Hn2)] [Sf Sfl St Sfr Sm] Hw'. apply two_sym in Htw as Hsy. pose proof Htw as [W1 W2 Hd].
  assert (∀ q, as_page Tp' q → as_page Tp q ∨ q ∈ fl) as Hap by (intros q [Ht|Hfr]; [destruct (St _ Ht)|destruct (Sfr _ Hfr)]; unfold as_page; tauto).
  assert (∀ q, as_page Tc q → q ∉ fl ∧ ¬ as_page Tp q) as Hc.
  { intros q Hq. pose proof (two_not_own _ _ _ _ _ _ _ Hsy Hq) as Hn. unfold own in Hn. tauto. }
  split; [split; [done| |]|done|done|split; [done|]].
  - apply (space_kept s _ _ fl); [done|apply Hw'|apply Hw'|intros q Hq Hin; by apply (proj1 (Hc q Hq)), Sfl|].
    intros q Hq. apply Sm; [by apply (own_page _ _ _ _ _ W2); left| | |]; unfold as_page in Hc; naive_solver.
  - intros q Hq Hq2. destruct (Hap q Hq) as [Hq'|Hq']; naive_solver.
  - unfold own in *. split; [|naive_solver]. intros Hq. destruct (Hap _ Hq); tauto.
Qed.

Lemma reap_free i s p Tp c Tc fl :
  procs s !! i = Some c → reapable s p Tp c Tc fl →
  ∃ s' fl', freeproc i s = Ok tt s' ∧
    s' = s <| procs := <[i := clear_proc c]> (procs s) |> <| ram := ram s' |> <| freelist := freelist s' |> ∧
    uvm_wf s' (p_pagetable p) Tp fl' ∧ (∀ w, uview (ram s') Tp (p_sz p) w = uview (ram s) Tp (p_sz p) w) ∧
    (∀ q, q = p_trapframe c ∨ as_page Tc q → q ∈ fl').
Proof.
  intros Hc [Htw [_ Hsz] Hpa (Hf & Hn1 & Hn2)]. pose proof Htw as [W1 W2 _].
  destruct (freeproc_ok i c Tc fl s) as (s' & fl' & E & Hk & Hs & Hfl & Hm); try done.
  assert (∀ q, as_page Tp q → q ≠ p_trapframe c ∧ ¬ own Tc fl q) as Hno.
  { intros q Hq. split; [by intros ->|]. by apply (two_not_own s (p_pagetable p) Tp (p_pagetable c) Tc fl). }
  assert (∀ q, as_page Tp q → same_page (ram s) (ram s') q) as Hsm.
  { intros q Hq. destruct (Hno q Hq). apply Hm; [by apply (own_page _ _ _ _ _ W1); left|done|done]. }
  exists s', fl'. split; [exact E|]. split; [exact Hs|]. split_and!.
  - apply (space_kept s _ _ fl); [done|done|rewrite Hs; rsimpl; apply W1| |exact Hsm].
    intros q Hq Hin. apply Hfl in Hin. destruct (Hno q Hq). tauto.
  - intros w. apply (uview_kept s s' _ _ _ _ _ W1). intros q Hq. apply Hsm. by right.
  - intros q [-> |Hq]; apply Hfl; [by left|right; by left].
Qed.

(** What a wait that found a zombie leaves. *)
Record reaped (s : kst) (i : nat) (p c : proc) (Tp Tc : aspace) (addr : Z) (Tp' : aspace) (fl' : list Z) (s' : kst) : Prop := {
  rd_procs : procs s' = <[i := clear_proc c]> (procs s);
  rd_wf : uvm_wf s' (p_pagetable p) Tp' fl';
  rd_view : ∀ w, uview (ram s') Tp' (p_sz p) w =
    if decide (addr = 0) then uview (ram s) Tp (p_sz p) w
    else overwrite (uview (ram s) Tp (p_sz p)) addr (le_encode 4 (p_xstate c)) w;
  rd_free : ∀ q, q = p_trapframe c ∨ as_page Tc q → q ∈ fl';
  rd_rest : s' = s <| held := [] |> <| procs := procs s' |> <| ram := ram s' |> <| freelist := freelist s' |>
}.

Definition wait_failed (s : kst) (p : proc) (Tp : aspace) (addr : Z) (s' : kst) : Prop :=
  addr ≠ 0 ∧ (∃ w, addr ≤ w < addr + 4 ∧ ¬ rw_ok Tp w) ∧ (∃ Tp' fl', uvm_wf s' (p_pagetable p) Tp' fl') ∧
  s' = s <| held := [] |> <| ram := ram s' |> <| freelist := freelist s' |>.

(** The copy of the status. *)
Lemma reap_copy s me p Tp c Tc fl addr :
  cur s = Some me → procs s !! me = Some p → reapable s p Tp c Tc fl → 0 ≤ addr →
  ∃ r s' Tp' fl', (if negb (addr =? 0) then q <- getp me ;; copyout (p_pagetable q) addr (le_encode 4 (p_xstate c)) else ret 0) s = Ok r s' ∧
    s' = s <| ram := ram s' |> <| freelist := freelist s' |> ∧ reapable s' p Tp' c Tc fl' ∧ uvm_wf s' (p_pagetable p) Tp' fl' ∧
    ((r = 0 ∧ ∀ w, uview (ram s') Tp' (p_sz p) w =
        if decide (addr = 0) then uview (ram s) Tp (p_sz p) w else overwrite (uview (ram s) Tp (p_sz p)) addr (le_encode 4 (p_xstate c)) w) ∨
     (r = -1 ∧ addr ≠ 0 ∧ ∃ w, addr ≤ w < addr + 4 ∧ ¬ rw_ok Tp w)).
Proof.
  intros Hc Hp Hr Ha. pose proof (tw_1 _ _ _ _ _ _ (rp_two _ _ _ _ _ _ Hr)) as W1. destruct (addr =? 0) eqn:E0; cbn [negb].
  - exists 0, s, Tp, fl. split_and!; [done|kst_eq s|done|done|]. left. split; [done|]. intros w. by rewrite decide_True by lia.
  - erewrite bind_ok by (by apply getp_ok).
    destruct (copyout_ok s (p_pagetable p) Tp fl (p_sz p) addr (le_encode 4 (p_xstate c))) as (r & s' & Tp' & fl' & k & E & W' & St & _ & _ & Hv & Hcase);
      [done|by exists me, p|apply Hr|done|].
    exists r, s', Tp', fl'. split; [exact E|]. split; [apply St|]. split; [by eapply reapable_step|]. split; [done|].
    destruct Hcase as [[-> ->]|(-> & _ & w & Hw & Hn)]; [left|right].
    + split; [done|]. intros w. rewrite decide_False by lia. by rewrite Hv, take_ge by done.
    + split; [done|]. split; [lia|]. exists w. split; [|done]. change (Z.of_nat (length (le_encode 4 (p_xstate c)))) with 4 in Hw. lia.
Qed.

Lemma reapable_ext s s' p Tp c Tc fl :
  reapable s p Tp c Tc fl → ram s' = ram s → freelist s' = freelist s → Lkmem ∉ held s' → reapable s' p Tp c Tc fl.
Proof. intros [[W1 W2 Hd] Hsz Hpa Hf] Hr Hfl Hh. split; [split; [by eapply uvm_wf_ext..|done]|done|done|done]. Qed.

Lemma reapable_zombie s p Tp c Tc fl status : reapable s p Tp c Tc fl → reapable s p Tp (zombie status c) Tc fl.
Proof. by intros [A B C D]. Qed.

Definition wait_result (s : kst) (i : nat) (p c : proc) (Tp Tc : aspace) (addr r : Z) (s' : kst) : Prop :=
  (r = p_pid c ∧ ∃ Tp' fl', reaped s i p c Tp Tc addr Tp' fl' s') ∨ (r = -1 ∧ wait_failed s p Tp addr s').

Lemma scan_zombie s me p i c Tp Tc fl l addr hk :
  cur s = Some me → procs s !! me = Some p → held s = [Lwait] → procs s !! i = Some c → p_parent c = Some me → p_state c = ZOMBIE →
  reapable s p Tp c Tc fl → 0 ≤ addr →
  ∃ r s', wait_scan (i :: l) me addr hk s = Ok (inl r) s' ∧ wait_result s i p c Tp Tc addr r s'.
Proof.
  intros Hc Hp Hh Hi Hpa Hz Hr Ha. cbn [wait_scan]. erewrite bind_ok by (by apply getp_ok). rewrite bool_decide_true by done.
  assert (∀ j, Lproc j ∉ [Lwait]) as Hnl by (intros j; by rewrite list_elem_of_singleton).
  erewrite bind_ok by (apply acquire_ok; by rewrite Hh). rewrite Hh. set (s1 := s <| held := _ |>).
  assert (cur s1 = Some me ∧ procs s1 !! me = Some p ∧ procs s1 !! i = Some c ∧ held s1 = [Lproc i; Lwait]) as (C1 & C2 & C3 & C4) by (unfold s1; by rsimpl).
  assert (Lkmem ∉ [Lproc i; Lwait]) as Hnk by (intros [?|[?|[]%elem_of_nil]%elem_of_cons]%elem_of_cons; discriminate).
  assert (reapable s1 p Tp c Tc fl) as Hr1 by (eapply reapable_ext; [exact Hr|unfold s1; by rsimpl..|by rewrite C4]).
  erewrite bind_ok by (by apply getp_ok). unfold is_state. rewrite bool_decide_true by done.
  destruct (reap_copy s1 me p Tp c Tc fl addr C1 C2 Hr1 Ha) as (r & s2 & Tp2 & fl2 & E2 & F2 & R2 & W2 & Hcase). erewrite bind_ok by exact E2. clear E2.
  assert (held s2 = [Lproc i; Lwait] ∧ procs s2 = procs s) as [D1 D2] by (rewrite F2; unfold s1; by rsimpl).
  destruct Hcase as [[-> Hv]|(-> & Hcase)]; cbn [Z.ltb Z.compare].
  - destruct (reap_free i s2 p Tp2 c Tc fl2) as (s3 & fl3 & E3 & F3 & W3 & V3 & Hf3); [by rewrite D2|done|].
    erewrite bind_ok by exact E3. clear E3. assert (held s3 = [Lproc i; Lwait]) as D3 by (rewrite F3; by rsimpl).
    erewrite bind_ok by (by apply (release_top _ [Lwait])). erewrite bind_ok by (apply (release_top _ []); [by rsimpl|apply not_elem_of_nil]).
    eexists _, _. split; [reflexivity|]. left. split; [done|]. exists Tp2, fl3. split; rsimpl.
    + rewrite F3. rsimpl. by rewrite D2.
    + eapply uvm_wf_ext; [exact W3|by rsimpl..|rsimpl; apply not_elem_of_nil].
    + intros w. rewrite V3, Hv. unfold s1. by rsimpl.
    + exact Hf3.
    + rewrite F3, F2. unfold s1. rsimpl. kst_eq s.
  - erewrite bind_ok by (by apply (release_top _ [Lwait])). erewrite bind_ok by (apply (release_top _ []); [by rsimpl|apply not_elem_of_nil]).
    eexists _, _. split; [reflexivity|]. right. split; [done|]. split; [apply Hcase|]. split; [apply Hcase|]. split.
    + exists Tp2, fl2. eapply uvm_wf_ext; [exact W2|by rsimpl..|rsimpl; apply not_elem_of_nil].
    + rewrite F2. unfold s1. rsimpl. kst_eq s.
Qed.

(** ** The loop *)

Lemma table_split i : (i < NPROC)%nat → table = seq 0 i ++ i :: seq (S i) (NPROC - S i).
Proof. intros Hi. unfold table. replace NPROC with (i + S (NPROC - S i))%nat at 1 by lia. by rewrite seq_app. Qed.

Lemma kwait_zombie n s me p i c Tp Tc fl addr :
  cur s = Some me → procs s !! me = Some p → length (procs s) = NPROC → held s = [Lwait] →
  procs s !! i = Some c → p_parent c = Some me → p_state c = ZOMBIE → (∀ j, (j < i)%nat → no_zombie s me j) →
  reapable s p Tp c Tc fl → 0 ≤ addr →
  ∃ r s', kwait_loop n me addr s = Ok r s' ∧ wait_result s i p c Tp Tc addr r s'.
Proof.
  intros Hc Hp Hl Hh Hi Hpa Hz Hno Hr Ha. assert (i < NPROC)%nat as Hlt by (apply lookup_lt_Some in Hi; lia).
  destruct (scan_zombie s me p i c Tp Tc fl (seq (S i) (NPROC - S i)) addr (kids s me (seq 0 i))) as (r & s' & E & Hres); try done.
  exists r, s'. split; [|done]. assert (wait_scan table me addr false s = Ok (inl r) s') as Es.
  { rewrite (table_split i Hlt), scan_skip by (done || intros j Hj%elem_of_seq; apply Hno; lia). exact E. }
  destruct n; cbn [kwait_loop]; by erewrite bind_ok by exact Es.
Qed.

(** The scan of a table without zombie children. *)
Lemma scan_none me addr s :
  held s = [Lwait] → (∀ j, (j < NPROC)%nat → no_zombie s me j) →
  wait_scan table me addr false s = Ok (inr (kids s me table)) s.
Proof.
  intros Hh Hno. rewrite <- (app_nil_r table). rewrite scan_skip by (done || intros j Hj%elem_of_seq; apply Hno; lia). by rewrite app_nil_r.
Qed.

Lemma kwait_fails n s me p addr :
  procs s !! me = Some p → held s = [Lwait] → (∀ j, (j < NPROC)%nat → no_zombie s me j) →
  kids s me table = false ∨ p_killed p ≠ 0 → kwait_loop n me addr s = Ok (-1) (s <| held := [] |>).
Proof.
  intros Hp Hh Hno Hc.
  assert ((if negb (kids s me table) then ret true else k <- killed me ;; ret (negb (k =? 0))) s = Ok true s) as Hstop.
  { destruct (kids s me table); cbn [negb]; [|done]. destruct Hc as [?|Hk]; [done|].
    erewrite bind_ok by (apply killed_ok with (p := p); [by rewrite Hh, list_elem_of_singleton|done]). by replace (p_killed p =? 0) with false by lia. }
  destruct n; cbn [kwait_loop]; (erewrite bind_ok by (by apply scan_none)); cbv beta iota; (erewrite bind_ok by exact Hstop); cbv beta iota;
    by (erewrite bind_ok by (by apply (release_top _ []); [|apply not_elem_of_nil])).
Qed.

Definition asleep (me : nat) (p : proc) : proc := p <| p_chan := ChProc me |> <| p_state := SLEEPING |>.

(** Without a zombie a process that is not killed sleeps, with its own lock
    taken before [wait_lock] is given up, and scans again when it is resumed. *)
Lemma kwait_sleeps n s me p addr :
  cur s = Some me → procs s !! me = Some p → held s = [Lwait] → (∀ j, (j < NPROC)%nat → no_zombie s me j) →
  kids s me table = true → p_killed p = 0 →
  ∃ k, kwait_loop (S n) me addr s = Swtch (s <| procs := <[me := asleep me p]> (procs s) |> <| held := [Lproc me] |>) k ∧
    ∀ s2 q, cur s2 = Some me → held s2 = [Lproc me] → procs s2 !! me = Some q →
    k s2 = kwait_loop n me addr (s2 <| procs := <[me := q <| p_chan := ChNull |>]> (procs s2) |> <| held := [Lwait] |>).
Proof.
  intros Hc Hp Hh Hno Hk Hkl. cbn [kwait_loop]. erewrite bind_ok by (by apply scan_none). cbv beta iota. rewrite Hk. cbn [negb].
  erewrite bind_ok by (erewrite bind_ok by (apply killed_ok with (p := p); [by rewrite Hh, list_elem_of_singleton|done]); rewrite Hkl; reflexivity).
  cbn [Z.eqb negb]. cbv beta iota. destruct (sleep_ok s me p (ChProc me) Lwait) as (k & E & Hres); [done|done|done|done|].
  eexists. split; [rewrite (bind_swtch _ _ _ _ _ E); reflexivity|]. intros s2 q Hc2 Hh2 Hq. cbn beta. rewrite (Hres s2 q) by done. reflexivity.
Qed.

(** [kwait] starts the loop with [wait_lock]. *)
Lemma kwait_enter s me addr :
  cur s = Some me → held s = [] → kwait addr s = kwait_loop wakeups me addr (s <| held := [Lwait] |>).
Proof.
  intros Hc Hh. unfold kwait. erewrite bind_ok by (by apply curproc_ok).
  erewrite bind_ok by (apply acquire_ok; rewrite Hh; apply not_elem_of_nil). by rewrite Hh.
Qed.

Lemma wait_result_held s h i p c Tp Tc addr r s' :
  wait_result (s <| held := h |>) i p c Tp Tc addr r s' → wait_result s i p c Tp Tc addr r s'.
Proof.
  intros [(-> & Tp' & fl' & [A B C D E])|(-> & A & B & C & D)]; [left|right].
  - split; [done|]. exists Tp', fl'. split; [by rewrite A; rsimpl|done|intros w; rewrite C; by rsimpl|done|rewrite E at 1; rsimpl; kst_eq s].
  - split; [done|]. split; [done|]. split; [done|]. split; [done|]. rewrite D at 1. rsimpl. kst_eq s.
Qed.

(** The parent [j] is on the CPU again and holds [wait_lock]: only its own slot,
    its lock and what runs on this hart differ from [s1]. *)
Record parent_back (s1 : kst) (j : nat) (s2 : kst) (p2 : proc) : Prop := {
  pb_cur : cur s2 = Some j ∧ held s2 = [Lwait];
  pb_self : procs s2 !! j = Some p2 ∧ p_state p2 = RUNNING;
  pb_other : length (procs s2) = length (procs s1) ∧ ∀ i, i ≠ j → procs s2 !! i = procs s1 !! i;
  pb_mem : ram s2 = ram s1 ∧ freelist s2 = freelist s1
}.

(** After the exit the child is the first zombie the parent finds. *)
Lemma exited_first s me c ip status cs s1 j p s2 p2 i :
  exited s me c ip status cs s1 → length (procs s) = NPROC → procs s !! j = Some p → initproc s ≠ Some j → parent_back s1 j s2 p2 →
  (∀ i, (i < me)%nat → no_zombie s j i) → (i < me)%nat → no_zombie s2 j i.
Proof.
  intros [_ Xo _ _ _ _ _] Hl Hj Hin [_ [P1 P2] [_ P3] _] Hno Hi. destruct (decide (i = j)) as [-> |Hne].
  - exists p2. split; [done|]. by rewrite P2.
  - destruct (Hno i Hi) as (q & Hq & Hz). unfold no_zombie. rewrite (P3 i Hne), (Xo i q) by (done || lia). eexists. split; [done|].
    rewrite (proj1 (woken_fields _ _)). unfold orphan. case_bool_decide as Hc; rsimpl; [done|]. intros Hp. specialize (Hz Hp).
    unfold woken. case_decide; by rsimpl.
Qed.

Lemma exited_reapable s me c ip status cs s1 j p s2 p2 Tp Tc fl :
  exited s me c ip status cs s1 → reapable s p Tp c Tc fl → parent_back s1 j s2 p2 → p_pagetable p2 = p_pagetable p → p_sz p2 = p_sz p →
  reapable s2 p2 Tp (zombie status c) Tc fl.
Proof.
  intros [_ _ _ Xr _ _ _] Hr [[_ Hh] _ _ [M F]] Hpt Hsz.
  assert (ram s1 = ram s ∧ freelist s1 = freelist s) as [M1 F1] by (rewrite Xr; unfold exiting; by rsimpl).
  apply reapable_zombie. assert (reapable s2 p Tp c Tc fl) as [[W1 W2 Hd] Hs Hpa Hf].
  { eapply reapable_ext; [exact Hr|by rewrite M|by rewrite F|]. by rewrite Hh, list_elem_of_singleton. }
  split; rewrite ?Hpt, ?Hsz; done.
Qed.

End Wait.


(** C16: [kwait] on every path.  A zombie child is reaped: its pid is
    returned, the four bytes of its status are at [addr] of the caller's memory,
    the slot is free and every page of the child is on the free list; if the
    status cannot be written, -1 is returned and the zombie stays.  Without a
    zombie the caller gets -1 when it has no children or has been killed, and
    otherwise sleeps on its own channel, its own lock taken before [wait_lock]
    is released, to scan again when it is resumed. *)
Theorem kwait_correct `{Layout, !LayoutOk, Wakeups, BlockDev} s me p addr :
  cur s = Some me → procs s !! me = Some p → length (procs s) = NPROC → held s = [] → 0 ≤ addr →
  (∀ i c Tp Tc fl, procs s !! i = Some c → p_parent c = Some me → p_state c = ZOMBIE → (∀ j, (j < i)%nat → no_zombie s me j) →
     reapable s p Tp c Tc fl → ∃ r s', kwait addr s = Ok r s' ∧ wait_result s i p c Tp Tc addr r s') ∧
  ((∀ j, (j < NPROC)%nat → no_zombie s me j) →
     (kids s me table = false ∨ p_killed p ≠ 0 → kwait addr s = Ok (-1) s) ∧
     (kids s me table = true → p_killed p = 0 → ∀ n, wakeups = S n →
        ∃ k, kwait addr s = Swtch (s <| procs := <[me := asleep me p]> (procs s) |> <| held := [Lproc me] |>) k ∧
        ∀ s2 q, cur s2 = Some me → held s2 = [Lproc me] → procs s2 !! me = Some q →
        k s2 = kwait_loop n me addr (s2 <| procs := <[me := q <| p_chan := ChNull |>]> (procs s2) |> <| held := [Lwait] |>))).
Proof.
  intros Hc Hp Hl Hh Ha. rewrite (kwait_enter _ _ _ Hc Hh).
  assert (∀ j, no_zombie s me j → no_zombie (s <| held := [Lwait] |>) me j) as Hnz by (intros j Hj; unfold no_zombie; by rsimpl).
  split; [|intros Hno; split].
  - intros i c Tp Tc fl Hi Hpa Hz Hno Hr.
    destruct (kwait_zombie wakeups (s <| held := [Lwait] |>) me p i c Tp Tc fl addr) as (r & s' & E & Hres); [by rsimpl..|done|done|intros j Hj; by apply Hnz, Hno| |done|].
    { eapply reapable_ext; [exact Hr|by rsimpl..|]. rsimpl. by rewrite list_elem_of_singleton. }
    exists r, s'. split; [exact E|]. by eapply wait_result_held.
  - intros Hk. rewrite (kwait_fails _ _ _ p); [rsimpl; rewrite <- Hh; apply (f_equal (Ok (-1))); kst_eq s|by rsimpl|by rsimpl|intros j Hj; by apply Hnz, Hno|].
    unfold kids. rsimpl. exact Hk.
  - intros Hk Hkl n Hn. rewrite Hn.
    destruct (kwait_sleeps n (s <| held := [Lwait] |>) me p addr) as (k & E & Hres);
      [by rsimpl..|intros j Hj; by apply Hnz, Hno|unfold kids; rsimpl; exact Hk|done|].
    exists k. split; [|exact Hres]. rewrite E. f_equal.
Qed.


Section Witnesses.
Local Existing Instance qemu_layout.
Local Existing Instance qemu_layout_ok.
#[local] Instance wait_wakeups : Wakeups := 0%nat.
#[local] Instance wait_disk : BlockDev := ram_disk.

(** [init], a parent asleep in [wait], its child with file 3 open twice, and a
    child of the child. *)
Definition wait_parent : proc :=
  proc0 <| p_state := SLEEPING |> <| p_chan := ChProc 1 |> <| p_pid := 4 |> <| p_parent := Some 0%nat |> <| p_pagetable := demo_root |> <| p_sz := 5000 |>.
Definition wait_child : proc :=
  proc0 <| p_state := RUNNING |> <| p_pid := 7 |> <| p_parent := Some 1%nat |> <| p_pagetable := child_root |> <| p_trapframe := 0x80031000 |>
    <| p_cwd := Some 0%nat |> <| p_ofile := Some 3%nat :: Some 3%nat :: replicate 14 None |>.
Definition wait_table : list proc :=
  [proc0 <| p_state := SLEEPING |>; wait_parent; wait_child; proc0 <| p_state := RUNNABLE |> <| p_parent := Some 2%nat |>] ++ replicate 60 proc0.
Definition exit_state : kst :=
  fork_demo <| procs := wait_table |> <| cur := Some 2%nat |> <| initproc := Some 0%nat |>
    <| ftable := <[3%nat := file0 <| f_ref := 4 |>]> (replicate NFILE file0) |>
    <| itable := <[0%nat := inode0 <| i_ref := 2 |>]> (replicate NINODE inode0) |>.

Lemma exit_state_fields :
  cur exit_state = Some 2%nat ∧ procs exit_state = wait_table ∧ held exit_state = [] ∧ initproc exit_state = Some 0%nat ∧
  ftable exit_state = <[3%nat := file0 <| f_ref := 4 |>]> (replicate NFILE file0) ∧
  itable exit_state = <[0%nat := inode0 <| i_ref := 2 |>]> (replicate NINODE inode0) ∧
  klog exit_state = mkLog 0 0 0 0 (mkLh 0 (replicate 30 0)) ∧ ram exit_state = ram fork_demo ∧ freelist exit_state = freelist fork_demo.
Proof. unfold exit_state. rsimpl. split_and!; reflexivity. Qed.

Lemma exit_state_ok : exit_ready exit_state 2 wait_child 0 (inode0 <| i_ref := 2 |>).
Proof.
  destruct exit_state_fields as (Hc & Hp & Hh & Hin & Hf & Hi & Hl & _). generalize dependent exit_state. intros s Hc Hp Hh Hin Hf Hi Hl.
  split; rewrite ?Hp; [by rewrite Hc|done|done|by rewrite Hin|done| | |].
  - split; [done|]. intros g Hg. rewrite Hf. exists (file0 <| f_ref := 4 |>).
    assert (g = 3%nat) as -> by (revert Hg; unfold wait_child; rsimpl; set_solver). split; [by vm_compute|by vm_compute].
  - rewrite Hi. by split_and!.
  - rewrite Hl. split; cbn; try done.
Qed.

Lemma empty_page root q : root ≠ q → ¬ as_page (empty_as root) q.
Proof. intros Hr [Ht|(v & e & He & _)]; [apply is_table_empty in Ht; by subst|cbn [leaf empty_as] in He; by rewrite lookup_empty in He]. Qed.

Lemma wait_frame_free : page_ok 0x80031000 ∧ ¬ as_page (empty_as demo_root) 0x80031000 ∧ ¬ own (empty_as child_root) fork_pages 0x80031000.
Proof.
  split; [by vm_compute|]. split; [by apply empty_page|]. intros [Hp|Hin]; [by apply (empty_page child_root) in Hp|].
  revert Hin. apply (bool_decide_unpack _). by vm_compute.
Qed.

Lemma exit_state_reapable p :
  p_pagetable p = demo_root → p_sz p = 5000 → reapable exit_state p (empty_as demo_root) wait_child (empty_as child_root) fork_pages.
Proof.
  intros Hpt Hsz. destruct exit_state_fields as (_ & _ & Hh & _ & _ & _ & _ & Hm & Hfl). generalize dependent exit_state. intros s Hh Hm Hfl.
  apply (reapable_ext fork_demo); [|exact Hm|exact Hfl|rewrite Hh; apply not_elem_of_nil]. clear Hm Hfl.
  split; rewrite ?Hpt, ?Hsz; [apply two_sym, fork_demo_two|by vm_compute|apply process_empty|exact wait_frame_free].
Qed.


(** The parent finds the zombie and takes its status to address 100. *)
Definition zombie_state : kst := exit_state <| procs := <[2%nat := zombie 42 wait_child]> wait_table |> <| cur := Some 1%nat |>.

Lemma zombie_reapable : reapable zombie_state wait_parent (empty_as demo_root) (zombie 42 wait_child) (empty_as child_root) fork_pages.
Proof.
  pose proof (exit_state_reapable wait_parent eq_refl eq_refl) as Hr. destruct exit_state_fields as (_ & _ & Hh & _).
  assert (ram zombie_state = ram exit_state ∧ freelist zombie_state = freelist exit_state ∧ held zombie_state = held exit_state) as (M & F & L)
    by (unfold zombie_state; rsimpl; split_and!; reflexivity).
  generalize dependent zombie_state. intros s M F L.
  apply reapable_zombie, (reapable_ext exit_state s _ _ _ _ _ Hr M F). rewrite L, Hh. apply not_elem_of_nil.
Qed.

Lemma zombie_fields : cur zombie_state = Some 1%nat ∧ procs zombie_state = <[2%nat := zombie 42 wait_child]> wait_table ∧ held zombie_state = [].
Proof. unfold zombie_state, exit_state. rsimpl. split_and!; reflexivity. Qed.

Lemma zombie_first s j : procs s = <[2%nat := zombie 42 wait_child]> wait_table → (j < 2)%nat → no_zombie s 1 j.
Proof. intros Hp Hj. unfold no_zombie. rewrite Hp. destruct j as [|[|j]]; [eexists; split; [reflexivity|done]..|lia]. Qed.

Lemma kwait_correct_witness :
  ∃ r s', kwait 100 zombie_state = Ok r s' ∧
    wait_result zombie_state 2 wait_parent (zombie 42 wait_child) (empty_as demo_root) (empty_as child_root) 100 r s'.
Proof.
  pose proof zombie_reapable as Hr. destruct zombie_fields as (Hc & Hp & Hh). revert Hr Hc Hp Hh. generalize zombie_state. intros s Hr Hc Hp Hh.
  destruct (kwait_correct s 1 wait_parent 100) as [Hz _]; [exact Hc|rewrite Hp; reflexivity|rewrite Hp; reflexivity|exact Hh|lia|].
  apply (Hz 2%nat (zombie 42 wait_child) _ _ fork_pages); [rewrite Hp; reflexivity|reflexivity|reflexivity| |exact Hr].
  intros j. exact (zombie_first s j Hp).
Defined.


End Witnesses.
