(* ===== verification/Machine.v ===== *)
(** * The hart: registers, address translation and the instructions of the [.S] files

    The part of the RISC-V instruction set (RV64, supervisor mode, Sv39) that
    the assembly code of the kernel uses.  [translate] is the walk the hardware
    makes of the page table [satp] names; the lemmas say that on a page table
    [pt_rep] describes it finds exactly the valid leaves.  The accessed and dirty
    bits the hardware sets are left out. *)

From Stdlib Require Import ZArith Lia.
From S2P Require Import Prelude Params CString State Kalloc Process Vm VmRep VmMap Uvm.
From stdpp Require Import base gmap strings numbers functions list.

Open Scope Z_scope.

(** ** Registers *)

Inductive reg : Type :=
  | ZERO | RA | SP | GP | TP | T0 | T1 | T2 | S0 | S1 | A0 | A1 | A2 | A3 | A4 | A5 | A6 | A7
  | S2 | S3 | S4 | S5 | S6 | S7 | S8 | S9 | S10 | S11 | T3 | T4 | T5 | T6.
#[export] Instance reg_eq_dec : EqDecision reg.
Proof. solve_decision. Defined.

Inductive csr : Type :=
  | SSTATUS | SIE | STVEC | SSCRATCH | SEPC | SCAUSE | STVAL | SATP | STIMECMP | TIME
  | MHARTID | MSTATUS | MEPC | MEDELEG | MIDELEG | MIE | PMPADDR0 | PMPCFG0 | MENVCFG | MCOUNTEREN.
#[export] Instance csr_eq_dec : EqDecision csr.
Proof. solve_decision. Defined.

Inductive mode : Type := User | Supervisor | Machine.
#[export] Instance mode_eq_dec : EqDecision mode.
Proof. solve_decision. Defined.

Record machine : Type := mkMachine {
  x_reg : reg → Z;
  x_csr : csr → Z;
  x_mode : mode;
  x_pc : Z;
  x_mem : memory
}.
#[export] Instance machine_eta : Eta machine := λ x, mkMachine (x_reg x) (x_csr x) (x_mode x) (x_pc x) (x_mem x).

Lemma machine_ext x y :
  x_reg x = x_reg y → x_csr x = x_csr y → x_mode x = x_mode y → x_pc x = x_pc y → x_mem x = x_mem y → x = y.
Proof. destruct x, y. cbn. intros -> -> -> -> ->. done. Qed.

(** Equality of two updates of a state. *)
Ltac machine_eq := apply machine_ext; rsimpl; try reflexivity.

Definition getr (r : reg) (x : machine) : Z := if decide (r = ZERO) then 0 else x_reg x r.
Definition setr (r : reg) (v : Z) (x : machine) : machine := x <| x_reg ::= <[r := u64 v]> |>.

(** ** Address translation *)

Inductive access : Type := Load | Store | Fetch.

Definition access_bit (a : access) : Z := match a with Load => PTE_R | Store => PTE_W | Fetch => PTE_X end.

(** Supervisor code may use user pages only for data, and only while SUM is set. *)
Definition may_access (sstatus : Z) (md : mode) (a : access) (pte : Z) : bool :=
  has pte (access_bit a) &&
  match md with
  | User => has pte PTE_U
  | _ => negb (has pte PTE_U) || (match a with Fetch => false | _ => Z.testbit sstatus 18 end)
  end.

(** The Sv39 walk from the table at [level]; a leaf above level 0 maps a larger
    page, which must be aligned. *)
Fixpoint sv39 (m : memory) (level : nat) (table va : Z) (ok : Z → bool) : option Z :=
  let pte := load64 m (table + 8 * PX (Z.of_nat level) va) in
  let span := 2 ^ (12 + 9 * Z.of_nat level) in
  if negb (has pte PTE_V) || (negb (has pte PTE_R) && has pte PTE_W) || (2 ^ 54 <=? pte) then None
  else if has pte PTE_R || has pte PTE_X then
    if ok pte && (PTE2PA pte mod span =? 0) then Some (PTE2PA pte + va mod span) else None
  else match level with
       | O => None
       | S level' => sv39 m level' (PTE2PA pte) va ok
       end.

(** The top 25 bits of a virtual address must equal bit 38. *)
Definition canonical (va : Z) : bool := (0 <=? va) && ((va <? 2 ^ 38) || (2 ^ 64 - 2 ^ 38 <=? va) && (va <? 2 ^ 64)).

Definition translate (m : memory) (c : csr → Z) (md : mode) (a : access) (va : Z) : option Z :=
  if bool_decide (md = Machine) || (Z.shiftr (c SATP) 60 =? 0) then Some va
  else if (Z.shiftr (c SATP) 60 =? 8) && canonical va then
    sv39 m 2 (Z.shiftl (Z.land (c SATP) (2 ^ 44 - 1)) 12) va (may_access (c SSTATUS) md a)
  else None.

(** ** Instructions

    [li], [la] and [call] are taken as one instruction each. *)

Inductive instr : Type :=
  | Sd (rs : reg) (off : Z) (base : reg)
  | Ld (rd : reg) (off : Z) (base : reg)
  | Addi (rd rs : reg) (imm : Z)
  | AddReg (rd rs rt : reg)
  | MulReg (rd rs rt : reg)
  | Li (rd : reg) (v : Z)
  | La (rd : reg) (a : Z)
  | Csrw (c : csr) (rs : reg)
  | Csrr (rd : reg) (c : csr)
  | Sfence
  | Jalr (rs : reg)
  | Call (a : Z)
  | Ret
  | Sret.

(** The sizes in bytes the assembler chooses. *)
Class Asm := {
  isize : instr → Z;
  isize_pos i : 0 < isize i
}.

(** SPP, SPIE and SIE of [sstatus]. *)
Definition sret_status (s : Z) : Z :=
  let s := if Z.testbit s 5 then Z.setbit s 1 else Z.clearbit s 1 in
  Z.clearbit (Z.setbit s 5) 8.

Section Exec.
Context `{Asm}.

Definition next (i : instr) (x : machine) : machine := x <| x_pc ::= λ pc, u64 (pc + isize i) |>.

(** A data access; [None] is a fault.  An 8-byte access must be aligned. *)
Definition data (a : access) (va : Z) (x : machine) : option Z :=
  if va mod 8 =? 0 then
    pa ← translate (x_mem x) (x_csr x) (x_mode x) a va;
    if phys_ok pa 8 then Some pa else None
  else None.

Definition exec (i : instr) (x : machine) : option machine :=
  match i with
  | Sd rs off b =>
      pa ← data Store (u64 (getr b x + off)) x;
      Some (next i (x <| x_mem ::= λ m, store64 m pa (getr rs x) |>))
  | Ld rd off b =>
      pa ← data Load (u64 (getr b x + off)) x;
      Some (next i (setr rd (load64 (x_mem x) pa) x))
  | Addi rd rs imm => Some (next i (setr rd (getr rs x + imm) x))
  | AddReg rd rs rt => Some (next i (setr rd (getr rs x + getr rt x) x))
  | MulReg rd rs rt => Some (next i (setr rd (getr rs x * getr rt x) x))
  | Li rd v | La rd v => Some (next i (setr rd v x))
  | Csrw c rs => Some (next i (x <| x_csr ::= <[c := getr rs x]> |>))
  | Csrr rd c => Some (next i (setr rd (x_csr x c) x))
  | Sfence => Some (next i x)
  | Jalr rs => Some ((setr RA (x_pc x + isize i) x) <| x_pc := getr rs x |>)
  | Call a => Some ((setr RA (x_pc x + isize i) x) <| x_pc := a |>)
  | Ret => Some (x <| x_pc := getr RA x |>)
  | Sret =>
      let s := x_csr x SSTATUS in
      Some (x <| x_pc := x_csr x SEPC |> <| x_mode := if Z.testbit s 8 then Supervisor else User |>
              <| x_csr ::= <[SSTATUS := sret_status s]> |>)
  end.

(** The instruction at physical address [pa] of the code at [base]. *)
Fixpoint fetch (code : list instr) (base pa : Z) : option instr :=
  match code with
  | [] => None
  | i :: code' => if pa =? base then Some i else fetch code' (base + isize i) pa
  end.

Definition step (code : list instr) (base : Z) (x : machine) : option machine :=
  pa ← translate (x_mem x) (x_csr x) (x_mode x) Fetch (x_pc x);
  i ← fetch code base pa;
  exec i x.

Fixpoint run (code : list instr) (base : Z) (n : nat) (x : machine) : option machine :=
  match n with
  | O => Some x
  | S n' => x' ← step code base x; run code base n' x'
  end.

(** A trap: the hart saves where it was and enters the handler in [stvec]. *)
Definition take_trap (cause tval : Z) (x : machine) : machine :=
  let s := x_csr x SSTATUS in
  let s := if Z.testbit s 1 then Z.setbit s 5 else Z.clearbit s 5 in
  let s := Z.clearbit s 1 in
  let s := if bool_decide (x_mode x = User) then Z.clearbit s 8 else Z.setbit s 8 in
  x <| x_csr ::= λ c, <[SSTATUS := s]> (<[SEPC := x_pc x]> (<[SCAUSE := cause]> (<[STVAL := tval]> c))) |>
    <| x_mode := Supervisor |> <| x_pc := x_csr x STVEC |>.

End Exec.

(** ** Translation of a page table in memory *)

Section Translate.
Context `{Layout, !LayoutOk}.

(** A leaf entry the hardware accepts. *)
Definition leaf_valid (e : Z) : bool :=
  (has e PTE_R || has e PTE_X) && (has e PTE_R || negb (has e PTE_W)) && (e <? 2 ^ 54).

Lemma pte_of_small pa perm : 0 ≤ pa < 2 ^ 56 → 0 ≤ perm < 2 ^ 10 → 0 ≤ pte_of pa perm < 2 ^ 54.
Proof.
  intros Hpa Hp. unfold pte_of. apply lor_bound; [done|apply lor_bound; [done| |lia]|done].
  unfold PA2PTE. rewrite Z.shiftr_div_pow2, Z.shiftl_mul_pow2 by done.
  pose proof (Z.div_pos pa (2 ^ 12) ltac:(lia) ltac:(done)). pose proof (Z.div_lt_upper_bound pa (2 ^ 12) (2 ^ 44) ltac:(done) ltac:(lia)).
  rewrite u64_small; lia.
Qed.

Lemma PTE2PA_aligned e : PTE2PA e mod 4096 = 0.
Proof.
  unfold PTE2PA, u64. rewrite Z.shiftl_mul_pow2 by done.
  replace (2 ^ 64) with (2 ^ 12 * 2 ^ 52) by done. rewrite (Z.mul_comm _ (2 ^ 12)), Zmult_mod_distr_l.
  change 4096 with (2 ^ 12). rewrite Z.mul_comm. by apply Z.mod_mul.
Qed.

(** The step of the walk at a directory. *)
Lemma sv39_dir m root T (l : nat) va a ok :
  pt_rep m root T → tabs T !! (Z.of_nat (S l), idx (Z.of_nat (S l) + 1) va) = Some a →
  sv39 m (S l) a va ok =
    match tabs T !! (Z.of_nat l, idx (Z.of_nat (S l)) va) with
    | Some b => sv39 m l b va ok
    | None => None
    end.
Proof.
  intros HT Ha. pose proof (walk_entry m root T (Z.of_nat (S l)) va a HT ltac:(lia) Ha) as He.
  replace (Z.of_nat (S l) - 1) with (Z.of_nat l) in He by lia. cbn [sv39]. fold (entry m a (PX (Z.of_nat (S l)) va)).
  destruct (tabs T !! (Z.of_nat l, idx (Z.of_nat (S l)) va)) as [b|]; [|by rewrite He].
  destruct He as [-> Hb]. pose proof (page_ok_bound _ Hb) as [Hbb _].
  replace (Z.lor (PA2PTE b) PTE_V) with (pte_of b 0) by (unfold pte_of; by rewrite Z.lor_0_r).
  pose proof (pte_of_small b 0 Hbb ltac:(lia)) as Hs. rewrite !has_pte_of by done.
  rewrite (proj2 (Z.leb_gt _ _)) by lia. cbn -[sv39 PTE2PA]. by rewrite pte_of_pa.
Qed.

Lemma sv39_rep m root T va ok :
  pt_rep m root T → 0 ≤ va < MAXVA →
  sv39 m 2 root va ok =
    match leaf T !! (va / 4096) with
    | Some e => if leaf_valid e && ok e then Some (PTE2PA e + va mod 4096) else None
    | None => None
    end.
Proof.
  intros HT Hva. rewrite (sv39_dir m root T 1 va root ok HT).
  2: { change (Z.of_nat 2 + 1) with 3. rewrite idx_top by done. apply (pr_root _ _ _ HT). }
  change (Z.of_nat 1) with 1. change (Z.of_nat 2) with 2.
  destruct (tabs T !! (0, idx 1 va)) as [b|] eqn:Eb.
  - destruct (leaf_addr_Some _ _ _ _ _ HT Eb) as (Ea & _ & _ & Hl).
    destruct (tabs T !! (1, idx 2 va)) as [a|] eqn:E1.
    2: { pose proof (tabs_above m root T 0 va HT ltac:(lia)) as Hu. change (0 + 1) with 1 in Hu. change (0 + 2) with 2 in Hu.
         rewrite Eb, E1 in Hu. by destruct Hu. }
    rewrite (sv39_dir m root T 0 va a ok HT) by exact E1. change (Z.of_nat 0) with 0. change (Z.of_nat 1) with 1. rewrite Eb.
    rewrite Hl, Ea. cbn -[PTE2PA load64 PX Z.pow]. change (Z.of_nat 0) with 0. set (e := load64 _ _). change (2 ^ 12) with 4096.
    destruct (has e PTE_V); [|done]. rewrite PTE2PA_aligned. unfold leaf_valid. rewrite Z.ltb_antisym.
    cbn [negb orb Z.eqb]. rewrite andb_true_r.
    destruct (has e PTE_R), (has e PTE_W), (has e PTE_X), (2 ^ 54 <=? e); done.
  - destruct (leaf_addr_None _ _ _ _ HT Eb) as [_ ->]. destruct (tabs T !! (1, idx 2 va)) as [a|] eqn:E1; [|done].
    rewrite (sv39_dir m root T 0 va a ok HT) by exact E1. change (Z.of_nat 0) with 0. change (Z.of_nat 1) with 1. by rewrite Eb.
Qed.

Lemma satp_mode root : 0 ≤ root < 2 ^ 56 → Z.shiftr (MAKE_SATP root) 60 = 8.
Proof.
  intros Hr. unfold MAKE_SATP. rewrite Z.shiftr_lor, Z.shiftr_shiftr by done. change (12 + 60) with 72.
  rewrite (Z.shiftr_div_pow2 root), (Z.div_small root) by lia. done.
Qed.

Lemma satp_range root : 0 ≤ root < 2 ^ 56 → 0 ≤ MAKE_SATP root < 2 ^ 64.
Proof.
  intros Hr. pose proof (satp_mode root Hr) as Hm. rewrite Z.shiftr_div_pow2 in Hm by done.
  pose proof (Z.div_mod (MAKE_SATP root) (2 ^ 60) ltac:(done)). pose proof (Z.mod_pos_bound (MAKE_SATP root) (2 ^ 60) ltac:(done)). lia.
Qed.

Lemma satp_root root : 0 ≤ root < 2 ^ 56 → root mod 4096 = 0 → Z.shiftl (Z.land (MAKE_SATP root) (2 ^ 44 - 1)) 12 = root.
Proof.
  intros Hr Ha. unfold MAKE_SATP. rewrite Z.land_lor_distr_l. change (Z.land SATP_SV39 (2 ^ 44 - 1)) with 0.
  rewrite Z.lor_0_l. change (2 ^ 44 - 1) with (Z.ones 44). rewrite Z.land_ones, Z.shiftr_div_pow2, Z.shiftl_mul_pow2 by done.
  change (2 ^ 12) with 4096. rewrite Z.mod_small; pose proof (Z.div_mod root 4096 ltac:(lia)); lia.
Qed.

Lemma rep_root_ok m root T : pt_rep m root T → page_ok root.
Proof. intros HT. eapply pr_page; [exact HT|]. eexists. apply (pr_root _ _ _ HT). Qed.

(** With paging on, an access finds the leaf of its page if the leaf allows it. *)
Lemma translate_rep m c md a root T va :
  pt_rep m root T → md ≠ Machine → c SATP = MAKE_SATP root → 0 ≤ va < MAXVA →
  translate m c md a va =
    match leaf T !! (va / 4096) with
    | Some e => if leaf_valid e && may_access (c SSTATUS) md a e then Some (PTE2PA e + va mod 4096) else None
    | None => None
    end.
Proof.
  intros HT Hmd Hs Hva. pose proof (rep_root_ok _ _ _ HT) as Hp.
  apply page_ok_bound in Hp as [Hr Ha]. unfold translate. rewrite Hs, satp_mode, satp_root by done.
  rewrite bool_decide_false by done. cbn [orb Z.eqb]. change (8 =? 8) with true.
  assert (canonical va = true) as -> by (unfold canonical; change MAXVA with (2 ^ 38) in Hva; lia). cbn [andb].
  by apply sv39_rep.
Qed.

Lemma leaf_valid_of pa perm :
  0 ≤ pa < 2 ^ 56 → 0 ≤ perm < 1024 → has (Z.lor perm PTE_V) PTE_R = true → leaf_valid (pte_of pa perm) = true.
Proof.
  intros Hpa Hperm Hr. unfold leaf_valid. rewrite (has_pte_at pa perm PTE_R), Hr by done.
  pose proof (pte_of_small pa perm Hpa ltac:(lia)). cbn. lia.
Qed.

End Translate.

(** ** Running straight-line code *)

Section Run.
Context `{Asm}.

Definition csize (l : list instr) : Z := foldr (λ i n, isize i + n) 0 l.

Lemma csize_nonneg l : 0 ≤ csize l.
Proof. induction l as [|i l IH]; cbn [csize foldr]; [lia|]. pose proof (isize_pos i). unfold csize in IH. lia. Qed.

Lemma csize_app l l' : csize (l ++ l') = csize l + csize l'.
Proof. induction l as [|i l IH]; [done|]. cbn [csize foldr app] in *. unfold csize in *. lia. Qed.

Lemma csize_cons i l : csize (i :: l) = isize i + csize l.
Proof. done. Qed.

Lemma fetch_at pre i post b : fetch (pre ++ i :: post) b (b + csize pre) = Some i.
Proof.
  revert b. induction pre as [|j pre IH]; intros b; cbn [app fetch csize foldr].
  - by rewrite Z.add_0_r, Z.eqb_refl.
  - pose proof (isize_pos j). pose proof (csize_nonneg pre). fold (csize pre). rewrite (proj2 (Z.eqb_neq _ _)) by lia.
    rewrite Z.add_assoc. apply IH.
Qed.

Lemma run_app code b n k x : run code b (n + k) x = (y ← run code b n x; run code b k y).
Proof. revert x. induction n as [|n IH]; intros x; cbn [run Nat.add]; [done|]. by destruct (step code b x); cbn. Qed.

Definition saves (b : reg) (l : list (reg * Z)) : list instr := (λ '(r, off), Sd r off b) <$> l.
Definition loads (b : reg) (l : list (reg * Z)) : list instr := (λ '(r, off), Ld r off b) <$> l.

(** Memory after the registers of [l] are saved, registers after they are loaded. *)
Definition save_mem (v : reg → Z) (pa : Z) (l : list (reg * Z)) (m : memory) : memory :=
  foldl (λ m '(r, off), store64 m (pa + off) (v r)) m l.
Definition load_regs (m : memory) (pa : Z) (l : list (reg * Z)) (v : reg → Z) : reg → Z :=
  foldl (λ v '(r, off), <[r := load64 m (pa + off)]> v) v l.

(** The code is at physical address [base] and is run at virtual address [va],
    which one page maps; [okm] is what the translation needs of the memory. *)
Record in_page (code : list instr) (base va : Z) (c : csr → Z) (md : mode) (okm : memory → Prop) : Prop := {
  ip_fits : csize code ≤ PGSIZE;
  ip_va : 0 ≤ va ∧ va + PGSIZE < 2 ^ 64;
  ip_fetch : ∀ m k, okm m → 0 ≤ k < PGSIZE → translate m c md Fetch (va + k) = Some (base + k)
}.

Section Window.
Context (code : list instr) (base va : Z) (c : csr → Z) (md : mode) (okm : memory → Prop).
Context (Hip : in_page code base va c md okm).

(** The hart is about to run what follows [pre]. *)
Record at_code (pre : list instr) (x : machine) : Prop := {
  ac_csr : x_csr x = c;
  ac_mode : x_mode x = md;
  ac_mem : okm (x_mem x);
  ac_pc : x_pc x = va + csize pre
}.

Lemma step_at pre i post x : code = pre ++ i :: post → at_code pre x → step code base x = exec i x.
Proof.
  intros Ec [Hc Hmd Hm Hpc]. unfold step. rewrite Hc, Hmd, Hpc. destruct Hip as [Hf _ Ht]. rewrite Ec in Hf |- *.
  rewrite csize_app, csize_cons in Hf. pose proof (csize_nonneg pre). pose proof (csize_nonneg post). pose proof (isize_pos i).
  rewrite Ht by (done || lia). cbn [mbind option_bind]. by rewrite fetch_at.
Qed.

Lemma pc_next pre i post : code = pre ++ i :: post → u64 (va + csize pre + isize i) = va + csize (pre ++ [i]).
Proof.
  intros Ec. destruct Hip as [Hf Hva _]. rewrite Ec in Hf. rewrite csize_app, csize_cons in *. change (csize []) with 0 in *.
  pose proof (csize_nonneg pre). pose proof (csize_nonneg post). pose proof (isize_pos i). rewrite u64_small; lia.
Qed.

(** An instruction that only changes registers. *)
Lemma run_next pre i post n x y :
  code = pre ++ i :: post → at_code pre x → exec i x = Some (next i y) →
  x_csr y = c → x_mode y = md → okm (x_mem y) → x_pc y = x_pc x →
  ∃ z, z = y <| x_pc := va + csize (pre ++ [i]) |> ∧ at_code (pre ++ [i]) z ∧ run code base (S n) x = run code base n z.
Proof.
  intros Ec Hx E Hc Hm Hk Hp. eexists. split; [reflexivity|]. split; [by split; rsimpl|]. cbn [run].
  rewrite (step_at pre i post x Ec Hx), E. cbn [mbind option_bind]. f_equal. unfold next. machine_eq.
  rewrite Hp, (ac_pc _ _ Hx). by rewrite (pc_next pre i post Ec).
Qed.

Lemma run_setr pre i post n x r v :
  code = pre ++ i :: post → at_code pre x → exec i x = Some (next i (setr r v x)) →
  ∃ z, z = x <| x_reg ::= <[r := u64 v]> |> <| x_pc := va + csize (pre ++ [i]) |> ∧ at_code (pre ++ [i]) z ∧
    run code base (S n) x = run code base n z.
Proof.
  intros Ec Hx E. apply (run_next pre i post n x (setr r v x) Ec Hx E); unfold setr; rsimpl; (apply Hx || done).
Qed.

Lemma run_fence pre post n x :
  code = pre ++ Sfence :: post → at_code pre x →
  ∃ z, z = x <| x_pc := va + csize (pre ++ [Sfence]) |> ∧ at_code (pre ++ [Sfence]) z ∧ run code base (S n) x = run code base n z.
Proof. intros Ec Hx. by apply (run_next pre Sfence post n x x Ec Hx); try apply Hx. Qed.

(** A window of memory at virtual address [bv] and physical address [pa]. *)
Context (b : reg) (bv pa : Z) (offs : list Z).
Context (Hb : b ≠ ZERO).
Context (Hacc : ∀ m off a, okm m → off ∈ offs → a ≠ Fetch → translate m c md a (bv + off) = Some (pa + off)).
Context (Hoff : ∀ off, off ∈ offs → phys_ok (pa + off) 8 = true ∧ (bv + off) mod 8 = 0 ∧ 0 ≤ bv + off < 2 ^ 64).

Lemma data_at a off x : x_csr x = c → x_mode x = md → okm (x_mem x) → off ∈ offs → a ≠ Fetch → getr b x = bv →
  data a (u64 (getr b x + off)) x = Some (pa + off).
Proof.
  intros Hc Hm Hk Ho Ha ->. destruct (Hoff off Ho) as (Hp & H8 & Hr). unfold data. rewrite u64_small, H8 by done. cbn [Z.eqb].
  rewrite Hc, Hm, Hacc by done. cbn [mbind option_bind]. by rewrite Hp.
Qed.

Lemma run_loads l pre post x :
  code = pre ++ loads b l ++ post → at_code pre x → (∀ r off, (r, off) ∈ l → r ≠ b ∧ off ∈ offs) → getr b x = bv →
  ∃ y, run code base (length l) x = Some y ∧ at_code (pre ++ loads b l) y ∧
    y = x <| x_reg := load_regs (x_mem x) pa l (x_reg x) |> <| x_pc := va + csize (pre ++ loads b l) |>.
Proof.
  revert pre x. induction l as [|[r off] l IH]; intros pre x Ec Hx Hl Hbv.
  - exists x. cbn [loads fmap list_fmap] in *. rewrite app_nil_r. split; [done|]. split; [done|].
    machine_eq. apply Hx.
  - destruct (Hl r off) as [Hr Ho]; [left|]. cbn [length]. change (loads b ((r, off) :: l)) with (Ld r off b :: loads b l) in *.
    destruct (run_next pre (Ld r off b) (loads b l ++ post) (length l) x (setr r (load64 (x_mem x) (pa + off)) x)) as (z & Ez & Hz & ->);
      [done|done| |apply Hx|apply Hx|apply Hx|done|].
    { cbn [exec]. rewrite data_at by (apply Hx || done). done. }
    destruct (IH (pre ++ [Ld r off b]) z) as (y & E & Hy & ->).
    { by rewrite <- app_assoc. } { done. } { intros r' o' Hin. apply Hl. by right. }
    { rewrite Ez. unfold getr, setr in *. rsimpl. rewrite decide_False in * by done. by rewrite fn_lookup_insert_ne by done. }
    eexists. split; [exact E|]. rewrite <- app_assoc in *. split; [done|]. rewrite Ez. unfold setr. rsimpl. cbn [load_regs foldl].
    rewrite (u64_small (load64 _ _)) by apply (ldn_range 8). done.
Qed.

Context (Hst : ∀ m off v, okm m → off ∈ offs → okm (store64 m (pa + off) v)).

Lemma run_saves l pre post x :
  code = pre ++ saves b l ++ post → at_code pre x → (∀ r off, (r, off) ∈ l → r ≠ ZERO ∧ off ∈ offs) → getr b x = bv →
  ∃ y, run code base (length l) x = Some y ∧ at_code (pre ++ saves b l) y ∧
    y = x <| x_mem := save_mem (x_reg x) pa l (x_mem x) |> <| x_pc := va + csize (pre ++ saves b l) |>.
Proof.
  revert pre x. induction l as [|[r off] l IH]; intros pre x Ec Hx Hl Hbv.
  - exists x. cbn [saves fmap list_fmap] in *. rewrite app_nil_r. split; [done|]. split; [done|].
    machine_eq. apply Hx.
  - destruct (Hl r off) as [Hr Ho]; [left|]. cbn [length]. change (saves b ((r, off) :: l)) with (Sd r off b :: saves b l) in *.
    destruct (run_next pre (Sd r off b) (saves b l ++ post) (length l) x (x <| x_mem ::= λ m, store64 m (pa + off) (getr r x) |>)) as (z & Ez & Hz & ->);
      [done|done| |apply Hx|apply Hx|rsimpl; apply Hst; [apply Hx|done]|done|].
    { cbn [exec]. rewrite data_at by (apply Hx || done). done. }
    destruct (IH (pre ++ [Sd r off b]) z) as (y & E & Hy & ->).
    { by rewrite <- app_assoc. } { done. } { intros r' o' Hin. apply Hl. by right. } { rewrite Ez. exact Hbv. }
    eexists. split; [exact E|]. rewrite <- app_assoc in *. split; [done|]. rewrite Ez. rsimpl. cbn [save_mem foldl].
    unfold getr. rewrite decide_False by done. done.
Qed.

End Window.

(** What saving and loading do, register by register. *)
Definition slots_ok (l : list (reg * Z)) : Prop := NoDup l.*1 ∧ NoDup l.*2 ∧ Forall (λ p, p.2 mod 8 = 0) l.

Lemma save_ldb v pa l m a :
  (∀ r off, (r, off) ∈ l → a < pa + off ∨ pa + off + 8 ≤ a) → ldb (save_mem v pa l m) a = ldb m a.
Proof.
  revert m. induction l as [|[r off] l IH]; intros m Ha; [done|]. cbn [save_mem foldl]. fold (save_mem v pa l (store64 m (pa + off) (v r))).
  rewrite IH by (intros r' o' Hin; apply (Ha r' o'); by right). apply ldb_stn_ne. destruct (Ha r off); [left|lia|lia].
Qed.

Lemma save_load_other v pa l m a :
  (∀ r off, (r, off) ∈ l → a + 8 ≤ pa + off ∨ pa + off + 8 ≤ a) → load64 (save_mem v pa l m) a = load64 m a.
Proof. intros Ha. apply ldn_ext. intros b Hb. apply save_ldb. intros r off Hin. destruct (Ha r off Hin); lia. Qed.

Lemma save_load v pa l m r off :
  slots_ok l → (r, off) ∈ l → 0 ≤ v r < 2 ^ 64 → load64 (save_mem v pa l m) (pa + off) = v r.
Proof.
  intros (_ & Hn & H8) Hin Hv. apply list_elem_of_split in Hin as (l1 & l2 & ->). unfold save_mem. rewrite foldl_app. cbn [foldl].
  fold (save_mem v pa l1 m). set (m1 := save_mem v pa l1 m). fold (save_mem v pa l2 (store64 m1 (pa + off) (v r))).
  rewrite save_load_other, ldn_stn_eq; [by apply Z.mod_small|]. intros r' o' Hin'.
  rewrite fmap_app in Hn. apply list.NoDup_app in Hn as (_ & _ & [Hn _]%NoDup_cons). cbn [snd] in Hn.
  assert (o' ≠ off) by (intros ->; apply Hn, list_elem_of_fmap; by exists (r', off)).
  rewrite Forall_app, Forall_cons in H8. destruct H8 as (_ & H8 & H8'). rewrite Forall_forall in H8'. specialize (H8' _ Hin'). cbn in *.
  pose proof (Z.div_mod off 8 ltac:(lia)). pose proof (Z.div_mod o' 8 ltac:(lia)). lia.
Qed.

Lemma load_regs_ext m m' pa l v :
  (∀ r off, (r, off) ∈ l → load64 m (pa + off) = load64 m' (pa + off)) → load_regs m pa l v = load_regs m' pa l v.
Proof.
  revert v. induction l as [|[r off] l IH]; intros v Hl; [done|]. cbn [load_regs foldl].
  rewrite (Hl r off) by left. apply IH. intros r' o' Hin. apply (Hl r'). by right.
Qed.

Lemma load_regs_out m pa l v r : r ∉ l.*1 → load_regs m pa l v r = v r.
Proof.
  revert v. induction l as [|[r' o'] l IH]; intros v Hn; [done|]. cbn [load_regs foldl]. fold (load_regs m pa l (<[r' := load64 m (pa + o')]> v)).
  apply not_elem_of_cons in Hn as [Hne Hn]. rewrite IH by done. by apply fn_lookup_insert_ne.
Qed.

Lemma load_regs_in m pa l v r off : slots_ok l → (r, off) ∈ l → load_regs m pa l v r = load64 m (pa + off).
Proof.
  intros (Hn & _ & _) Hin. revert v. induction l as [|[r' o'] l IH]; intros v; [by apply not_elem_of_nil in Hin|].
  cbn [load_regs foldl]. fold (load_regs m pa l (<[r' := load64 m (pa + o')]> v)). apply NoDup_cons in Hn as [Hni Hn].
  apply elem_of_cons in Hin as [[= <- <-]|Hin]; [|by apply IH]. rewrite load_regs_out by done. by apply fn_lookup_insert.
Qed.

End Run.
