(* ===== verification/Kvm.v ===== *)
(** * The kernel's page table ([kvmmake], [proc_mapstacks], [kvminit], [kvminithart] of vm.c and proc.c)

    From the free list [kinit] builds, [kvmmake] cannot run out of pages: the
    tables it can need are known ([kernel_keys]), so 166 free pages are enough.
    The table it builds is [kernel_leaf], and on it the hart can neither write
    the kernel's code nor execute its data, and a kernel stack that overflows
    faults on the page below it. *)

From Stdlib Require Import ZArith Lia.
From S2P Require Import Prelude Params CString State Kalloc Process Vm VmRep VmMap Uvm Machine.
From stdpp Require Import base gmap strings numbers functions list.

Open Scope Z_scope.

(** The places of the tables the kernel's mappings go through. *)
Definition kernel_keys : list (Z * Z) :=
  [(2, 0); (1, 0); (1, 2); (1, 255); (0, 128); (0, 131071)] ++
  (pair 0 <$> seqZ 96 32) ++ (pair 0 <$> seqZ 1024 64).

(** Page [v] of the device registers. *)
Definition device_page (v : Z) : bool := (49152 <=? v) && (v <? 65536 + 2).

(** The page of [p]'s kernel stack. *)
Definition stack_vpn (p : Z) : Z := 67108863 - (p + 1) * 2.

Definition stack_leaf (ps : list Z) (v : Z) : option Z :=
  let k := 67108863 - v in
  if (2 <=? k) && Z.even k then (λ pa, pte_of pa (Z.lor PTE_R PTE_W)) <$> ps !! Z.to_nat (k / 2 - 1) else None.

(** What the kernel's page table maps, [ps] being the pages of the stacks. *)
Definition kernel_leaf `{Layout} (ps : list Z) (v : Z) : option Z :=
  if v =? TRAMPOLINE / 4096 then Some (pte_of trampoline (Z.lor PTE_R PTE_X))
  else if device_page v then Some (pte_of (v * 4096) (Z.lor PTE_R PTE_W))
  else if (KERNBASE / 4096 <=? v) && (v <? etext / 4096) then Some (pte_of (v * 4096) (Z.lor PTE_R PTE_X))
  else if (etext / 4096 <=? v) && (v <? PHYSTOP / 4096) then Some (pte_of (v * 4096) (Z.lor PTE_R PTE_W))
  else stack_leaf ps v.

Section Kvm.
Context `{Layout, !LayoutOk}.

(** The pages whose tables are among [kernel_keys]. *)
Definition keyed (w : Z) : Prop := (1, w / 2 ^ 18) ∈ kernel_keys ∧ (0, w / 2 ^ 9) ∈ kernel_keys.

Lemma keyed_device w : 49152 ≤ w < 65538 → keyed w.
Proof.
  intros Hw. assert (w / 2 ^ 18 = 0) as E by (apply Z.div_small; lia). split; [rewrite E; apply (bool_decide_unpack _); by vm_compute|].
  unfold kernel_keys. rewrite !elem_of_app. assert (96 ≤ w / 2 ^ 9 ≤ 128) as Hr.
  { split; [apply Z.div_le_lower_bound; lia|]. apply Z.lt_succ_r, Z.div_lt_upper_bound; lia. }
  destruct (decide (w / 2 ^ 9 = 128)) as [-> |]; [left; apply (bool_decide_unpack _); by vm_compute|].
  right. left. apply list_elem_of_fmap. exists (w / 2 ^ 9). split; [done|]. apply elem_of_seqZ. lia.
Qed.

Lemma keyed_ram w : 524288 ≤ w < 557056 → keyed w.
Proof.
  intros Hw. assert (w / 2 ^ 18 = 2) as E.
  { apply Z.le_antisymm; [apply Z.lt_succ_r, Z.div_lt_upper_bound; lia|apply Z.div_le_lower_bound; lia]. }
  split; [rewrite E; apply (bool_decide_unpack _); by vm_compute|]. unfold kernel_keys. rewrite !elem_of_app. right. right.
  apply list_elem_of_fmap. exists (w / 2 ^ 9). split; [done|]. apply elem_of_seqZ.
  split; [apply Z.div_le_lower_bound; lia|apply Z.div_lt_upper_bound; lia].
Qed.

Lemma keyed_top w : 67108352 ≤ w < 67108864 → keyed w.
Proof.
  intros Hw. assert (w / 2 ^ 18 = 255 ∧ w / 2 ^ 9 = 131071) as [E1 E2].
  { split; (apply Z.le_antisymm; [apply Z.lt_succ_r, Z.div_lt_upper_bound; lia|apply Z.div_le_lower_bound; lia]). }
  unfold keyed. rewrite E1, E2. split; apply (bool_decide_unpack _); by vm_compute.
Qed.

Lemma kstack_vpn i : (i < 64)%nat → KSTACK (Z.of_nat i) = stack_vpn (Z.of_nat i) * 4096 ∧ 67108735 ≤ stack_vpn (Z.of_nat i) ≤ 67108861.
Proof. intros Hi. unfold KSTACK, stack_vpn, PGSIZE. change TRAMPOLINE with (67108863 * 4096). lia. Qed.

Lemma stack_leaf_app ps pa v :
  stack_leaf (ps ++ [pa]) v =
    if decide (v = stack_vpn (Z.of_nat (length ps))) then Some (pte_of pa (Z.lor PTE_R PTE_W)) else stack_leaf ps v.
Proof.
  unfold stack_leaf, stack_vpn. set (n := length ps). case_decide as Hd.
  - subst v. replace (67108863 - (67108863 - (Z.of_nat n + 1) * 2)) with (2 * (Z.of_nat n + 1)) by lia.
    replace (2 <=? 2 * (Z.of_nat n + 1)) with true by lia. rewrite Z.even_mul. cbn [andb orb Z.even].
    rewrite (Z.mul_comm 2), Z.div_mul, Z.add_simpl_r, Nat2Z.id by lia. unfold n. by rewrite list_lookup_middle.
  - destruct (2 <=? 67108863 - v) eqn:E1; [|done]. destruct (Z.even (67108863 - v)) eqn:E2; [|done]. cbn [andb]. f_equal.
    apply Z.even_spec in E2 as [q Hq]. rewrite Hq, (Z.mul_comm 2), Z.div_mul by lia.
    destruct (decide (Z.to_nat (q - 1) < n)%nat) as [Hlt|Hge]; [by rewrite lookup_app_l|].
    rewrite !lookup_ge_None_2; [done|fold n; lia|]. rewrite length_app. cbn. fold n. lia.
Qed.

Lemma etext_vpn : ∃ e, etext = e * 4096 ∧ 524288 < e < 557056 ∧
  u64 (etext - KERNBASE) = (e - 524288) * 4096 ∧ u64 (PHYSTOP - etext) = (557056 - e) * 4096.
Proof.
  pose proof etext_range as He. pose proof etext_aligned as Ha. pose proof kend_range as [_ Hke].
  unfold PHYSTOP, KERNBASE, PGSIZE in *. exists (etext / 4096). pose proof (Z.div_mod etext 4096 ltac:(lia)).
  rewrite !u64_small by lia. lia.
Qed.

Lemma trampoline_vpn : ∃ t, trampoline = t * 4096 ∧ 0 ≤ t < 557056.
Proof.
  pose proof trampoline_range as Ht. pose proof etext_range. pose proof trampoline_aligned. pose proof kend_range as [_ Hke].
  unfold PHYSTOP, KERNBASE, PGSIZE in *. exists (trampoline / 4096). pose proof (Z.div_mod trampoline 4096 ltac:(lia)). lia.
Qed.

Lemma kernel_leaf_top ps v : 557056 ≤ v ≤ 67108862 → kernel_leaf ps v = stack_leaf ps v.
Proof.
  intros Hv. unfold kernel_leaf, device_page. change (TRAMPOLINE / 4096) with 67108863. change (PHYSTOP / 4096) with 557056.
  pose proof etext_range. pose proof kend_range as [_ Hke].
  assert (etext / 4096 ≤ 557056) by (unfold PHYSTOP, PGSIZE, KERNBASE in *; apply Z.div_le_upper_bound; lia).
  replace (v =? 67108863) with false by lia. rewrite (proj2 (Z.ltb_ge v (65536 + 2))), (proj2 (Z.ltb_ge v (etext / 4096))), (proj2 (Z.ltb_ge v 557056)) by lia.
  by rewrite !andb_false_r.
Qed.

Lemma kernel_leaf_other ps pa w : w ≠ stack_vpn (Z.of_nat (length ps)) → kernel_leaf ps w = kernel_leaf (ps ++ [pa]) w.
Proof. intros Hw. unfold kernel_leaf. by rewrite stack_leaf_app, decide_False. Qed.

Lemma kernel_leaf_stack ps pa :
  (length ps < 64)%nat → kernel_leaf (ps ++ [pa]) (stack_vpn (Z.of_nat (length ps))) = Some (pte_of pa (Z.lor PTE_R PTE_W)).
Proof. intros Hi. rewrite kernel_leaf_top by (pose proof (kstack_vpn (length ps) Hi); lia). by rewrite stack_leaf_app, decide_True. Qed.

Lemma stack_fresh ps i : length ps = i → (i < 64)%nat → kernel_leaf ps (stack_vpn (Z.of_nat i)) = None.
Proof.
  intros <- Hi. rewrite kernel_leaf_top by (pose proof (kstack_vpn (length ps) Hi); lia). unfold stack_leaf, stack_vpn. destruct (_ && _); [|done].
  rewrite lookup_ge_None_2; [done|]. replace (67108863 - (67108863 - (Z.of_nat (length ps) + 1) * 2)) with ((Z.of_nat (length ps) + 1) * 2) by lia.
  rewrite Z.div_mul by done. lia.
Qed.

(** The mappings in the order they are made. *)
Lemma fixed_leaf e tr w :
  etext = e * 4096 → trampoline = tr * 4096 → 524288 < e < 557056 →
  (if decide (67108863 ≤ w < 67108863 + 1) then Some (pte_of ((tr + (w - 67108863)) * 4096) (Z.lor PTE_R PTE_X))
   else if decide (e ≤ w < e + (557056 - e)) then Some (pte_of ((e + (w - e)) * 4096) (Z.lor PTE_R PTE_W))
   else if decide (524288 ≤ w < 524288 + (e - 524288)) then Some (pte_of ((524288 + (w - 524288)) * 4096) (Z.lor PTE_R PTE_X))
   else if decide (49152 ≤ w < 49152 + 16384) then Some (pte_of ((49152 + (w - 49152)) * 4096) (Z.lor PTE_R PTE_W))
   else if decide (65537 ≤ w < 65537 + 1) then Some (pte_of ((65537 + (w - 65537)) * 4096) (Z.lor PTE_R PTE_W))
   else if decide (65536 ≤ w < 65536 + 1) then Some (pte_of ((65536 + (w - 65536)) * 4096) (Z.lor PTE_R PTE_W))
   else None) = kernel_leaf [] w.
Proof.
  intros Ee Et He. unfold kernel_leaf, device_page. rewrite Ee, Et, Z.div_mul by done. change (TRAMPOLINE / 4096) with 67108863.
  change (KERNBASE / 4096) with 524288. change (PHYSTOP / 4096) with 557056. rewrite !Zplus_minus.
  assert (stack_leaf [] w = None) as -> by (unfold stack_leaf; destruct (_ && _); by rewrite ?lookup_nil).
  destruct (w =? 67108863) eqn:E0; [rewrite decide_True by lia; repeat f_equal; lia|rewrite decide_False by lia].
  destruct ((49152 <=? w) && (w <? 65536 + 2)) eqn:E1.
  { rewrite (decide_False (P := e ≤ w < _)), (decide_False (P := 524288 ≤ w < _)) by lia. repeat case_decide; (done || lia). }
  destruct ((524288 <=? w) && (w <? e)) eqn:E2.
  { rewrite decide_False, decide_True by lia. done. }
  destruct ((e <=? w) && (w <? 557056)) eqn:E3; [by rewrite decide_True by lia|]. by rewrite !decide_False by lia.
Qed.

(** The page table of a kernel under construction: the pages of [fl0] are free,
    tables or stacks. *)
Record building (s0 : kst) (fl0 : list Z) (s : kst) (root : Z) (K : aspace) (fl ps : list Z) : Prop := {
  bd_vm : vm_state s root K fl;
  bd_frame : s = s0 <| ram := ram s |> <| freelist := freelist s |>;
  bd_all : ∀ a, a ∈ fl0 ↔ a ∈ fl ∨ is_table K a ∨ a ∈ ps;
  bd_stacks : NoDup ps ∧ Forall page_ok ps;
  bd_apart : ∀ a, a ∈ ps → a ∉ fl ∧ ¬ is_table K a;
  bd_keys : ∀ x, is_Some (tabs K !! x) → x ∈ kernel_keys
}.

Context (s0 : kst) (fl0 : list Z).
Context (fl0_nodup : NoDup fl0) (enough : (166 < length fl0)%nat).

Lemma building_count s root K fl ps :
  building s0 fl0 s root K fl ps → (length fl0 ≤ length fl + 102 + length ps)%nat.
Proof.
  intros B. apply (tables_count K kernel_keys); [done| |apply (bd_keys _ _ _ _ _ _ _ B)]. intros a. apply (bd_all _ _ _ _ _ _ _ B).
Qed.

Lemma kvmmap_ok s root K fl ps va pa sz perm :
  building s0 fl0 s root K fl ps → (length ps ≤ 64)%nat → va mod PGSIZE = 0 → sz mod PGSIZE = 0 → 0 < sz → 0 ≤ va →
  va + sz ≤ MAXVA → 0 ≤ pa → pa + sz < 2 ^ 64 → 0 ≤ perm < 2 ^ 64 →
  (∀ w, va / 4096 ≤ w < va / 4096 + sz / 4096 → leaf K !! w = None ∧ keyed w) →
  ∃ s' K' fl', kvmmap root va pa sz perm s = Ok tt s' ∧ building s0 fl0 s' root K' fl' ps ∧
    ∀ w, leaf K' !! w = if decide (va / 4096 ≤ w < va / 4096 + sz / 4096)
                        then Some (pte_of (pa + (w - va / 4096) * PGSIZE) perm) else leaf K !! w.
Proof.
  intros B Hps Hva Hsz Hpos Hva0 Hmax Hpa Hpb Hperm Hr. pose proof B as [Hv Hf Ha Hst Hap Hk].
  destruct (mappages_ok s root K fl va sz pa perm) as (r & s' & K' & fl' & k & E & Hv' & Hs & Hl & Hg & Hc); try done.
  { intros w Hw. apply Hr. unfold PGSIZE in *. pose proof (Z.div_mod sz 4096 ltac:(lia)).
    replace (va + sz) with (va + sz / 4096 * 4096) in Hw by lia. by rewrite Z.div_add in Hw. }
  destruct (vs_used _ _ _ _ _ _ Hs) as (used & Hfl & Ht).
  assert (building s0 fl0 s' root K' fl' ps) as B'.
  { split; [done| | |done| |].
    - rewrite (vs_frame _ _ _ _ _ _ Hs), Hf. rsimpl. kst_eq s0.
    - intros a. rewrite Ha, Ht, Hfl, elem_of_app. tauto.
    - intros a Hin. destruct (Hap a Hin) as [Hn Hnt]. rewrite Hfl, elem_of_app in Hn. rewrite Ht. tauto.
    - intros x Hx. destruct (proj2 Hg x Hx) as [?|(w & Hw & [-> | ->])]; [by apply Hk|by apply Hr..]. }
  assert (r = 0 ∧ Z.of_nat k = sz / 4096) as [-> Hn].
  { destruct Hc as [?|(-> & _ & ->)]; [done|]. pose proof (building_count _ _ _ _ _ B') as Hcnt. cbn in Hcnt. lia. }
  exists s', K', fl'. split; [unfold kvmmap; by erewrite bind_ok by exact E|]. split; [done|].
  intros w. by rewrite Hl, lookup_map_pages, Hn.
Qed.

(** ** The stacks *)

Lemma stack_alloc s root K pa fl ps :
  building s0 fl0 s root K (pa :: fl) ps → ∃ s1, kalloc s = Ok pa s1 ∧ page_ok pa ∧ building s0 fl0 s1 root K fl (ps ++ [pa]).
Proof.
  intros B. pose proof B as [[Hk HT Hd Hlk] Hf Ha [Hnd Hpo] Hap Hkeys].
  pose proof (kalloc_wf _ _ _ Hk) as Hk1. eexists. split; [by eapply kalloc_cons|].
  pose proof (proj1 (Forall_cons _ _ _) (kw_pages _ _ Hk)) as [Hpa _]. split; [done|].
  pose proof (proj1 (NoDup_cons _ _) (kw_nodup _ _ Hk)) as [Hnin _].
  split; [split; [done| | |by rsimpl]|..]; rsimpl.
  - eapply pt_rep_frame; [exact HT|]. intros b Hb. apply same_page_memset; [by apply Hpa|by apply (pr_page _ _ _ HT b Hb)|].
    intros ->. apply (Hd _ Hb). by left.
  - intros a Hta Hin. apply (Hd a Hta). by right.
  - rewrite Hf. rsimpl. kst_eq s0.
  - intros a. rewrite Ha, elem_of_cons, elem_of_app, list_elem_of_singleton. tauto.
  - split; [|by apply Forall_app_2; [|by apply Forall_singleton]]. apply NoDup_app. split_and!; [done| |by apply NoDup_singleton].
    intros a Hin ->%list_elem_of_singleton. apply (proj1 (Hap _ Hin)). by left.
  - intros a [Hin| ->%list_elem_of_singleton]%elem_of_app.
    + destruct (Hap a Hin) as [Hn ?]. split; [|done]. intros ?. apply Hn. by right.
    + split; [done|]. intros Ht. apply (Hd _ Ht). by left.
  - done.
Qed.

Lemma mapstacks_ok root : ∀ n i s K fl ps,
  building s0 fl0 s root K fl ps → length ps = i → (i + n ≤ 64)%nat → (∀ w, leaf K !! w = kernel_leaf ps w) →
  ∃ s' K' fl' ps', for_each (seq i n) (λ i,
      pa <- kalloc ;;
      if pa =? 0 then panic "kalloc"
      else kvmmap root (KSTACK (Z.of_nat i)) pa PGSIZE (Z.lor PTE_R PTE_W) ;;; ret (@None unit)) s = Ok None s' ∧
    building s0 fl0 s' root K' fl' ps' ∧ length ps' = (i + n)%nat ∧ ∀ w, leaf K' !! w = kernel_leaf ps' w.
Proof.
  induction n as [|n IH]; intros i s K fl ps B Hi Hn HK; cbn [seq for_each].
  { exists s, K, fl, ps. split_and!; [done|done|lia|done]. }
  pose proof (building_count _ _ _ _ _ B) as Hcnt. destruct fl as [|pa fl]; [cbn in Hcnt; lia|].
  destruct (kstack_vpn i ltac:(lia)) as [Eks Hks]. destruct (stack_alloc _ _ _ _ _ _ B) as (s1 & E1 & Hpa & B1).
  pose proof (page_ok_nonzero _ Hpa) as Hnz. pose proof (page_ok_bound _ Hpa) as [Hpb _].
  destruct (kvmmap_ok s1 root K fl (ps ++ [pa]) (KSTACK (Z.of_nat i)) pa PGSIZE (Z.lor PTE_R PTE_W)) as (s2 & K2 & fl2 & E2 & B2 & L2);
    [done|rewrite length_app; cbn; lia|rewrite Eks; by apply Z.mod_mul|done|done|lia|rewrite Eks; change MAXVA with (67108864 * 4096); unfold PGSIZE; lia
    |lia|unfold PGSIZE; lia|by vm_compute| |].
  { rewrite Eks, Z.div_mul by done. change (PGSIZE / 4096) with 1. intros w Hw. assert (w = stack_vpn (Z.of_nat i)) as -> by lia.
    split; [|apply keyed_top; lia]. rewrite HK. apply stack_fresh; [done|lia]. }
  erewrite bind_ok; [|erewrite bind_ok by exact E1; replace (pa =? 0) with false by lia; by erewrite bind_ok by exact E2]. cbn beta iota.
  destruct (IH (S i) s2 K2 fl2 (ps ++ [pa])) as (s' & K' & fl' & ps' & E & B' & Hl' & HK'); [done|rewrite length_app; cbn; lia|lia| |].
  { intros w. rewrite L2, Eks, Z.div_mul by done. change (PGSIZE / 4096) with 1. rewrite <- Hi in *.
    case_decide as Hw; [|rewrite HK; apply kernel_leaf_other; lia].
    assert (w = stack_vpn (Z.of_nat (length ps))) as -> by lia. rewrite Z.sub_diag, Z.add_0_r. symmetry. apply kernel_leaf_stack. lia. }
  exists s', K', fl', ps'. split_and!; [exact E|done|lia|done].
Qed.

(** ** The table *)

Lemma kvm_root : kmem_wf s0 fl0 → Lkmem ∉ held s0 →
  ∃ root s1 s2 fl, kalloc s0 = Ok root s1 ∧ kmemset root 0 PGSIZE s1 = Ok tt s2 ∧ building s0 fl0 s2 root (empty_as root) fl [].
Proof.
  intros Hk Hlk. destruct fl0 as [|root fl] eqn:Ef; [cbn in enough; lia|].
  destruct (kalloc_zeroed _ _ _ Hk Hlk) as (s1 & Hr & Hk1 & Hpp & Hnin & Hs1 & _).
  exists root, s1, (s1 <| ram := memset (ram s1) root 0 PGSIZE |>), fl. split; [done|].
  split; [apply kmemset_ok, page_ok_phys0; [done|unfold PGSIZE; lia]|].
  split; [split; [done| | |]|..]; rsimpl.
  - apply pt_rep_empty; [done|apply zero_page_memset].
  - intros a Ha. by apply is_table_empty in Ha as ->.
  - by rewrite Hs1.
  - rewrite Hs1. rsimpl. kst_eq s0.
  - intros a. rewrite is_table_empty, elem_of_cons, elem_of_nil. tauto.
  - split; [apply NoDup_nil_2|apply Forall_nil_2].
  - by intros a ?%elem_of_nil.
  - intros x [a Ha]. cbn [tabs empty_as] in Ha. apply lookup_singleton_Some in Ha as [<- _]. apply (bool_decide_unpack _). by vm_compute.
Qed.

(** The fixed part of the mappings. *)
Definition kvm_fixed (root : Z) : KM unit :=
  kvmmap root UART0 UART0 PGSIZE (Z.lor PTE_R PTE_W) ;;;
  kvmmap root VIRTIO0 VIRTIO0 PGSIZE (Z.lor PTE_R PTE_W) ;;;
  kvmmap root PLIC PLIC 0x4000000 (Z.lor PTE_R PTE_W) ;;;
  kvmmap root KERNBASE KERNBASE (u64 (etext - KERNBASE)) (Z.lor PTE_R PTE_X) ;;;
  kvmmap root etext etext (u64 (PHYSTOP - etext)) (Z.lor PTE_R PTE_W) ;;;
  kvmmap root TRAMPOLINE trampoline PGSIZE (Z.lor PTE_R PTE_X).

(** One mapping, by page numbers. *)
Lemma kvmmap_pages s root K fl v p n perm :
  building s0 fl0 s root K fl [] → 0 < n → 0 ≤ v → v + n ≤ 67108864 → 0 ≤ p → p + n < 2 ^ 51 → 0 ≤ perm < 2 ^ 64 →
  (∀ w, v ≤ w < v + n → leaf K !! w = None ∧ keyed w) →
  ∃ s' K' fl', kvmmap root (v * 4096) (p * 4096) (n * 4096) perm s = Ok tt s' ∧ building s0 fl0 s' root K' fl' [] ∧
    ∀ w, leaf K' !! w = if decide (v ≤ w < v + n) then Some (pte_of ((p + (w - v)) * 4096) perm) else leaf K !! w.
Proof.
  intros B Hn Hv Hmax Hp Hpb Hperm Hr.
  destruct (kvmmap_ok s root K fl [] (v * 4096) (p * 4096) (n * 4096) perm) as (s' & K' & fl' & E & B' & L);
    [done|cbn; lia|by apply Z.mod_mul|by apply Z.mod_mul|lia|lia|change MAXVA with (67108864 * 4096); lia|lia|lia|done|by rewrite !Z.div_mul by done|].
  exists s', K', fl'. split_and!; [done..|]. intros w. rewrite L, !Z.div_mul by done. unfold PGSIZE. by rewrite Z.mul_add_distr_r.
Qed.

Lemma kvm_fixed_ok s root fl :
  building s0 fl0 s root (empty_as root) fl [] →
  ∃ s' K fl', kvm_fixed root s = Ok tt s' ∧ building s0 fl0 s' root K fl' [] ∧ ∀ w, leaf K !! w = kernel_leaf [] w.
Proof.
  intros B. destruct etext_vpn as (e & Ee & He & E1 & E2). destruct trampoline_vpn as (tr & Etr & Htr).
  assert (∀ w, leaf (empty_as root) !! w = None) as L0 by (intros w; apply lookup_empty).
  unfold kvm_fixed. rewrite E1, E2, Ee, Etr. clear E1 E2.
  destruct (kvmmap_pages s root _ fl 65536 65536 1 (Z.lor PTE_R PTE_W) B) as (s1 & K1 & f1 & E1 & B1 & L1); try done.
  { intros w Hw. split; [done|apply keyed_device; lia]. }
  erewrite bind_ok by exact E1. clear E1.
  destruct (kvmmap_pages s1 root _ f1 65537 65537 1 (Z.lor PTE_R PTE_W) B1) as (s2 & K2 & f2 & E2 & B2 & L2); try done.
  { intros w Hw. rewrite L1, L0, decide_False by lia. split; [done|apply keyed_device; lia]. }
  erewrite bind_ok by exact E2. clear E2.
  destruct (kvmmap_pages s2 root _ f2 49152 49152 16384 (Z.lor PTE_R PTE_W) B2) as (s3 & K3 & f3 & E3 & B3 & L3); try done.
  { intros w Hw. rewrite L2, L1, L0, !decide_False by lia. split; [done|apply keyed_device; lia]. }
  erewrite bind_ok by exact E3. clear E3.
  destruct (kvmmap_pages s3 root _ f3 524288 524288 (e - 524288) (Z.lor PTE_R PTE_X) B3) as (s4 & K4 & f4 & E4 & B4 & L4); try (done || lia).
  { intros w Hw. rewrite L3, L2, L1, L0, !decide_False by lia. split; [done|apply keyed_ram; lia]. }
  erewrite bind_ok by exact E4. clear E4.
  destruct (kvmmap_pages s4 root _ f4 e e (557056 - e) (Z.lor PTE_R PTE_W) B4) as (s5 & K5 & f5 & E5 & B5 & L5); try (done || lia).
  { intros w Hw. rewrite L4, L3, L2, L1, L0, !decide_False by lia. split; [done|apply keyed_ram; lia]. }
  erewrite bind_ok by exact E5. clear E5.
  destruct (kvmmap_pages s5 root _ f5 67108863 tr 1 (Z.lor PTE_R PTE_X) B5) as (s6 & K6 & f6 & E6 & B6 & L6); try (done || lia).
  { intros w Hw. rewrite L5, L4, L3, L2, L1, L0, !decide_False by lia. split; [done|apply keyed_top; lia]. }
  exists s6, K6, f6. split_and!; [exact E6|done|]. intros w. rewrite L6, L5, L4, L3, L2, L1, L0. by apply fixed_leaf.
Qed.

Lemma kvmmake_ok :
  kmem_wf s0 fl0 → Lkmem ∉ held s0 →
  ∃ root s' K fl ps, kvmmake s0 = Ok root s' ∧ building s0 fl0 s' root K fl ps ∧ length ps = 64%nat ∧
    ∀ w, leaf K !! w = kernel_leaf ps w.
Proof.
  intros Hk Hlk. destruct (kvm_root Hk Hlk) as (root & s1 & s2 & fl & E1 & E2 & B2).
  destruct (kvm_fixed_ok _ _ _ B2) as (s3 & K3 & f3 & E3 & B3 & L3).
  destruct (mapstacks_ok root 64 0 s3 K3 f3 [] B3 eq_refl ltac:(lia) L3) as (s' & K & fl' & ps & E4 & B4 & Hl & L).
  exists root, s', K, fl', ps. split_and!; [|done|done|done].
  unfold kvmmake. erewrite bind_ok by exact E1. erewrite bind_ok by exact E2. unfold kvm_fixed in E3.
  repeat (apply bind_inv_ok in E3 as (? & ? & E & E3); erewrite bind_ok by exact E; clear E). erewrite bind_ok by exact E3.
  erewrite bind_ok; [reflexivity|]. unfold proc_mapstacks. by erewrite bind_ok by exact E4.
Qed.

End Kvm.

(** ** What the hart sees of it *)

Section Access.
Context `{Layout, !LayoutOk}.

(** A page that is not for users. *)
Lemma kernel_translate m c root K a va pa perm :
  pt_rep m root K → c SATP = MAKE_SATP root → 0 ≤ va < MAXVA → leaf K !! (va / 4096) = Some (pte_of pa perm) →
  perm = Z.lor PTE_R PTE_W ∨ perm = Z.lor PTE_R PTE_X → 0 ≤ pa < 2 ^ 56 → pa mod 4096 = 0 →
  translate m c Supervisor a va = (if has perm (access_bit a) then Some (pa + va mod 4096) else None) ∧
  translate m c User a va = None.
Proof.
  intros HT Hs Hva Hl Hperm Hpa Hal. rewrite !(translate_rep m c _ a root K) by done. rewrite Hl.
  rewrite leaf_valid_of by (done || by destruct Hperm as [-> | ->]). unfold may_access.
  rewrite !has_pte_at by (done || by destruct Hperm as [-> | ->]; destruct a). destruct Hperm as [-> | ->]; rewrite pte_of_alt, PTE2PA_PA2PTE by done; by destruct a.
Qed.

(** The kernel's view of memory: code that cannot be written, data and devices
    that cannot be executed, stacks with an unmapped page below each, the
    trampoline, and nothing for user mode. *)
Record kernel_space (m : memory) (c : csr → Z) (ps : list Z) : Prop := {
  ks_text : ∀ a va, KERNBASE ≤ va < etext → translate m c Supervisor a va = match a with Store => None | _ => Some va end;
  ks_data : ∀ a va, etext ≤ va < PHYSTOP → translate m c Supervisor a va = match a with Fetch => None | _ => Some va end;
  ks_dev : ∀ a va, PLIC ≤ va < VIRTIO0 + PGSIZE → translate m c Supervisor a va = match a with Fetch => None | _ => Some va end;
  ks_stack : ∀ i pa off a, ps !! i = Some pa → 0 ≤ off < PGSIZE →
    translate m c Supervisor a (KSTACK (Z.of_nat i) + off) = match a with Fetch => None | _ => Some (pa + off) end;
  ks_guard : ∀ i off a, (i < 64)%nat → 0 ≤ off < PGSIZE → translate m c Supervisor a (KSTACK (Z.of_nat i) - PGSIZE + off) = None;
  ks_tramp : ∀ k a, 0 ≤ k < PGSIZE → translate m c Supervisor a (TRAMPOLINE + k) = match a with Store => None | _ => Some (trampoline + k) end;
  ks_user : ∀ a va, 0 ≤ va < MAXVA → translate m c User a va = None
}.

Ltac leaf_range := unfold kernel_leaf, device_page; change (TRAMPOLINE / 4096) with 67108863;
  change (KERNBASE / 4096) with 524288; change (PHYSTOP / 4096) with 557056.

Lemma kernel_leaf_text ps v : 524288 ≤ v < etext / 4096 → kernel_leaf ps v = Some (pte_of (v * 4096) (Z.lor PTE_R PTE_X)).
Proof.
  destruct etext_vpn as (e & He' & He & _). leaf_range. rewrite He', Z.div_mul by done. intros Hv.
  replace (v =? 67108863) with false by lia. replace ((49152 <=? v) && (v <? 65536 + 2)) with false by lia.
  by replace ((524288 <=? v) && (v <? e)) with true by lia.
Qed.

Lemma kernel_leaf_data ps v : etext / 4096 ≤ v < 557056 → kernel_leaf ps v = Some (pte_of (v * 4096) (Z.lor PTE_R PTE_W)).
Proof.
  destruct etext_vpn as (e & He' & He & _). leaf_range. rewrite He', Z.div_mul by done. intros Hv.
  replace (v =? 67108863) with false by lia. replace ((49152 <=? v) && (v <? 65536 + 2)) with false by lia.
  replace ((524288 <=? v) && (v <? e)) with false by lia. by replace ((e <=? v) && (v <? 557056)) with true by lia.
Qed.

Lemma kernel_leaf_device ps v : 49152 ≤ v < 65538 → kernel_leaf ps v = Some (pte_of (v * 4096) (Z.lor PTE_R PTE_W)).
Proof.
  intros Hv. leaf_range. replace (v =? 67108863) with false by lia. by replace ((49152 <=? v) && (v <? 65536 + 2)) with true by lia.
Qed.

Lemma kernel_leaf_guard ps i : (i < 64)%nat → kernel_leaf ps (stack_vpn (Z.of_nat i) - 1) = None.
Proof.
  intros Hi. destruct (kstack_vpn i Hi) as [_ Hr]. rewrite kernel_leaf_top by lia. unfold stack_leaf, stack_vpn.
  replace (67108863 - (67108863 - (Z.of_nat i + 1) * 2 - 1)) with (2 * (Z.of_nat i + 1) + 1) by lia.
  rewrite Z.even_add, Z.even_mul. by rewrite andb_false_r.
Qed.

Lemma kernel_leaf_kstack ps i pa : (i < 64)%nat → ps !! i = Some pa → kernel_leaf ps (stack_vpn (Z.of_nat i)) = Some (pte_of pa (Z.lor PTE_R PTE_W)).
Proof.
  intros Hi Hp. destruct (kstack_vpn i Hi) as [_ Hr]. rewrite kernel_leaf_top by lia. unfold stack_leaf, stack_vpn.
  replace (67108863 - (67108863 - (Z.of_nat i + 1) * 2)) with (2 * (Z.of_nat i + 1)) by lia.
  replace (2 <=? 2 * (Z.of_nat i + 1)) with true by lia. rewrite Z.even_mul. cbn [andb orb Z.even].
  by rewrite (Z.mul_comm 2), Z.div_mul, Z.add_simpl_r, Nat2Z.id, Hp by lia.
Qed.

(** Every mapping is one of the two kinds, and none is for users. *)
Lemma kernel_leaf_kind ps v e :
  Forall page_ok ps → 0 ≤ v → kernel_leaf ps v = Some e →
  ∃ pa perm, e = pte_of pa perm ∧ (perm = Z.lor PTE_R PTE_W ∨ perm = Z.lor PTE_R PTE_X) ∧ 0 ≤ pa < 2 ^ 56 ∧ pa mod 4096 = 0.
Proof.
  intros Hps Hv. destruct etext_vpn as (t & Ht' & Ht & _). leaf_range. rewrite Ht', Z.div_mul by done.
  destruct trampoline_vpn as (tr & -> & Htr). assert (∀ w, (w * 4096) mod 4096 = 0) as Hm by (intros; by apply Z.mod_mul).
  destruct (v =? 67108863) eqn:E0; [intros [= <-]; exists (tr * 4096), (Z.lor PTE_R PTE_X); split_and!; auto; lia|].
  destruct ((49152 <=? v) && (v <? 65536 + 2)) eqn:E1; [intros [= <-]; exists (v * 4096), (Z.lor PTE_R PTE_W); split_and!; auto; lia|].
  destruct ((524288 <=? v) && (v <? t)) eqn:E2; [intros [= <-]; exists (v * 4096), (Z.lor PTE_R PTE_X); split_and!; auto; lia|].
  destruct ((t <=? v) && (v <? 557056)) eqn:E3; [intros [= <-]; exists (v * 4096), (Z.lor PTE_R PTE_W); split_and!; auto; lia|].
  unfold stack_leaf. case_match; [|by intros ?]. intros (pa & Hin & ->)%fmap_Some. exists pa, (Z.lor PTE_R PTE_W).
  apply list_elem_of_lookup_2 in Hin. apply (proj1 (Forall_forall _ _) Hps), page_ok_bound in Hin as [? ?]. split_and!; auto; lia.
Qed.

Lemma kernel_space_ok m c root K ps :
  pt_rep m root K → c SATP = MAKE_SATP root → (∀ w, leaf K !! w = kernel_leaf ps w) → length ps = 64%nat → Forall page_ok ps →
  kernel_space m c ps.
Proof.
  intros HT Hs HK Hl Hps. destruct etext_vpn as (e & Ee & He & _). destruct trampoline_vpn as (tr & Et & Htr).
  assert (∀ w, (w * 4096) mod 4096 = 0) as Hm by (intros; by apply Z.mod_mul).
  assert (∀ a va perm, perm = Z.lor PTE_R PTE_W ∨ perm = Z.lor PTE_R PTE_X → 0 ≤ va < PHYSTOP →
    kernel_leaf ps (va / 4096) = Some (pte_of (va / 4096 * 4096) perm) →
    translate m c Supervisor a va = if has perm (access_bit a) then Some va else None) as Hid.
  { intros a va perm Hp Hr Hv. pose proof (Z.div_mod va 4096 ltac:(lia)). pose proof (Z.mod_pos_bound va 4096 ltac:(lia)).
    unfold PHYSTOP, KERNBASE in Hr. change MAXVA with (2 ^ 38) in *.
    destruct (kernel_translate m c root K a va (va / 4096 * 4096) perm) as [-> _];
      [done|done|change MAXVA with (2 ^ 38); lia|by rewrite HK|done|lia|done|]. destruct (has _ _); [f_equal; lia|done]. }
  assert (∀ a v pa off perm, perm = Z.lor PTE_R PTE_W ∨ perm = Z.lor PTE_R PTE_X → 0 ≤ v < 67108864 → 0 ≤ off < PGSIZE →
    kernel_leaf ps v = Some (pte_of pa perm) → 0 ≤ pa < 2 ^ 56 → pa mod 4096 = 0 →
    translate m c Supervisor a (v * 4096 + off) = if has perm (access_bit a) then Some (pa + off) else None) as Hoff.
  { intros a v pa off perm Hp Hv Ho Hk Hpa Hal. unfold PGSIZE in Ho.
    assert ((v * 4096 + off) / 4096 = v ∧ (v * 4096 + off) mod 4096 = off) as [Ed Emo].
    { rewrite Z.add_comm, Z.div_add, Z.mod_add, Z.div_small, Z.mod_small by lia. lia. }
    destruct (kernel_translate m c root K a (v * 4096 + off) pa perm) as [-> _];
      [done|done|change MAXVA with (67108864 * 4096); lia|by rewrite HK, Ed|done|done|done|]. by rewrite Emo. }
  split.
  - intros a va Hr. rewrite (Hid a va (Z.lor PTE_R PTE_X)); [by destruct a|by right|unfold PHYSTOP, KERNBASE in *; lia|].
    apply kernel_leaf_text. unfold KERNBASE in Hr. split; [apply Z.div_le_lower_bound; lia|]. rewrite Ee, Z.div_mul by done. apply Z.div_lt_upper_bound; lia.
  - intros a va Hr. rewrite (Hid a va (Z.lor PTE_R PTE_W)); [by destruct a|by left|unfold PHYSTOP, KERNBASE in *; lia|].
    apply kernel_leaf_data. unfold PHYSTOP, KERNBASE in Hr. rewrite Ee, Z.div_mul by done. split; [apply Z.div_le_lower_bound; lia|apply Z.div_lt_upper_bound; lia].
  - intros a va Hr. unfold PLIC, VIRTIO0, PGSIZE in Hr. rewrite (Hid a va (Z.lor PTE_R PTE_W)); [by destruct a|by left|unfold PHYSTOP, KERNBASE in *; lia|].
    apply kernel_leaf_device. split; [apply Z.div_le_lower_bound; lia|apply Z.div_lt_upper_bound; lia].
  - intros i pa off a Hi Ho. pose proof (lookup_lt_Some _ _ _ Hi) as Hlt. rewrite Hl in Hlt. destruct (kstack_vpn i Hlt) as [-> Hr].
    pose proof (proj1 (Forall_forall _ _) Hps pa (list_elem_of_lookup_2 _ _ _ Hi)) as [Hb Ha]%page_ok_bound.
    rewrite (Hoff a _ pa off (Z.lor PTE_R PTE_W)); [by destruct a|by left|lia|done|by apply kernel_leaf_kstack|done|done].
  - intros i off a Hi Ho. destruct (kstack_vpn i Hi) as [-> Hr]. unfold PGSIZE in Ho |- *.
    rewrite (translate_rep m c Supervisor a root K) by (done || change MAXVA with (67108864 * 4096); lia).
    replace (stack_vpn (Z.of_nat i) * 4096 - 4096 + off) with (off + (stack_vpn (Z.of_nat i) - 1) * 4096) by lia.
    rewrite Z.div_add by done. rewrite (Z.div_small off) by done. rewrite Z.add_0_l, HK. by rewrite kernel_leaf_guard.
  - intros k a Hk. change TRAMPOLINE with (67108863 * 4096). rewrite (Hoff a 67108863 trampoline k (Z.lor PTE_R PTE_X));
      [by destruct a|by right|lia|done|done|rewrite Et; lia|by rewrite Et].
  - intros a va Hva. rewrite (translate_rep m c User a root K), HK by done. destruct (kernel_leaf ps (va / 4096)) as [x|] eqn:Ex; [|done].
    assert (0 ≤ va / 4096) as Hv0 by (apply Z.div_pos; lia). destruct (kernel_leaf_kind ps _ _ Hps Hv0 Ex) as (pa & perm & -> & Hp & Hpa & Hal).
    destruct (kernel_translate m c root K a va pa perm) as [_ Hu]; [done|done|done|by rewrite HK|done|done|done|].
    by rewrite (translate_rep m c User a root K), HK, Ex in Hu by done.
Qed.

End Access.

(** ** From the end of the kernel's image to paging *)

Section Boot.
Context `{Layout, !LayoutOk}.

(** [kinit] frees every whole page after the kernel. *)
Lemma kinit_pages s n :
  kmem_wf s [] → Lkmem ∉ held s → kend + Z.of_nat (S n) * PGSIZE ≤ PHYSTOP →
  ∃ s' fl, kinit s = Ok tt s' ∧ kmem_wf s' fl ∧ s' = s <| ram := ram s' |> <| freelist := freelist s' |> ∧ (n ≤ length fl)%nat ∧
    ∀ a, a ∈ fl ↔ a mod PGSIZE = 0 ∧ kend ≤ a ∧ a + PGSIZE ≤ PHYSTOP.
Proof.
  intros Hw Hl Hroom. pose proof kend_range as [_ Hke]. unfold PGSIZE in Hke, Hroom.
  destruct (freerange_wf kend PHYSTOP s Hw Hl) as (s' & fl & E & Hw' & Hh & Hfl); [lia..|].
  exists s', fl. split_and!; [done|done|done| |done].
  set (b := (kend + 4095) / 4096). pose proof (Z.div_mod (kend + 4095) 4096 ltac:(lia)) as Hdm. fold b in Hdm. pose proof (Z.mod_pos_bound (kend + 4095) 4096 ltac:(lia)).
  transitivity (length ((λ k, (b + k) * 4096) <$> seqZ 0 (Z.of_nat n))); [by rewrite length_fmap, length_seqZ, Nat2Z.id|].
  apply submseteq_length, NoDup_submseteq.
  - apply NoDup_fmap_2_strong; [|apply NoDup_seqZ]. intros x y _ _ Hxy. lia.
  - intros a (k & -> & Hk%elem_of_seqZ)%list_elem_of_fmap. apply Hfl. unfold PGSIZE. split; [by apply Z.mod_mul|]. lia.
Qed.

End Boot.

(** C14: Booting to paging: after [kinit], [kvminit] and [kvminithart] the hart's
    page table gives the kernel exactly its view of memory: code that cannot be
    written, data and devices that cannot be executed, a stack for every process
    on a page of its own with an unmapped page below it, and nothing at all for
    user mode.  The tables and the stacks are no longer free. *)
Theorem boot_paging_correct `{Layout, !LayoutOk} s :
  kmem_wf s [] → Lkmem ∉ held s → kend + 168 * PGSIZE ≤ PHYSTOP →
  ∃ s' root K fl ps, (kinit ;;; kvminit ;;; kvminithart) s = Ok tt s' ∧
    r_satp (State.csr s') = MAKE_SATP root ∧ kernel_pagetable s' = root ∧ vm_state s' root K fl ∧
    (∀ v, leaf K !! v = kernel_leaf ps v) ∧ length ps = NPROC ∧ NoDup ps ∧ (∀ p, p ∈ ps → page_ok p ∧ p ∉ fl ∧ ¬ is_table K p) ∧
    ∀ c, c SATP = r_satp (State.csr s') → kernel_space (ram s') c ps.
Proof.
  intros Hw Hl Hroom. destruct (kinit_pages s 167 Hw Hl Hroom) as (s1 & fl0 & E1 & Hw1 & Hf1 & Hn & _).
  assert (Lkmem ∉ held s1) as Hl1 by (rewrite Hf1; by rsimpl).
  destruct (kvmmake_ok s1 fl0 (kw_nodup _ _ Hw1) Hn Hw1 Hl1) as (root & s2 & K & fl & ps & E2 & B & Hps & HK).
  pose proof B as [Hv Hf Ha [Hnd Hpo] Hap _].
  exists (s2 <| kernel_pagetable := root |> <| State.csr ::= λ c, c <| r_satp := MAKE_SATP root |> |>), root, K, fl, ps.
  split_and!.
  - erewrite bind_ok by exact E1. unfold kvminit. erewrite bind_ok by (by erewrite bind_ok by exact E2). unfold kvminithart. kstep. by unfold modify.
  - by rsimpl.
  - by rsimpl.
  - destruct Hv as [Hk HT Hd Hlk]. split; rsimpl; try done. by eapply kmem_wf_frame; [exact Hk|rsimpl|].
  - done.
  - done.
  - done.
  - intros p Hp. split; [by apply (proj1 (Forall_forall _ _) Hpo)|by apply Hap].
  - rsimpl. intros c Hc. apply (kernel_space_ok _ _ root K); [apply Hv|done..].
Qed.

Section Witnesses.
Local Existing Instance qemu_layout.
Local Existing Instance qemu_layout_ok.

Lemma boot_paging_correct_witness :
  ∃ s', (kinit ;;; kvminit ;;; kvminithart) kst0 = Ok tt s' ∧ ∃ ps, ∀ c, c SATP = r_satp (State.csr s') → kernel_space (ram s') c ps.
Proof.
  destruct (boot_paging_correct kst0 kmem_wf_boot (not_elem_of_nil _) ltac:(vm_compute; discriminate)) as (s' & root & K & fl & ps & E & _ & _ & _ & _ & _ & _ & _ & Hk).
  exists s'. split; [exact E|]. exists ps. exact Hk.
Defined.

End Witnesses.
