(* ===== verification/Asm.v ===== *)
(** * The assembly files ([swtch.S], [trampoline.S], [kernelvec.S], [entry.S])

    The code as lists of instructions, run by [Machine.v].  A trap from user
    space goes through [uservec] into the kernel and back through [userret]; the
    register slots are those of [struct trapframe] the C code uses, so system-call
    arguments and the result of [fork] reach the right registers.  [swtch] saves
    and loads [struct context], and [kernelvec] makes an interrupt invisible to
    the kernel code it interrupts. *)

From Stdlib Require Import ZArith Lia.
From S2P Require Import Prelude Params CString State Kalloc Process Vm VmRep VmMap Uvm Copy Space Bytes Sleeplock Bio BioRep Cache Log Fs Console File Lifecycle Freewalk Fork Machine.
From stdpp Require Import base gmap strings numbers functions list.

Open Scope Z_scope.

(** ** The code *)

(** swtch.S *)
Definition swtch_code : list instr :=
  [ Sd RA 0 A0; Sd SP 8 A0; Sd S0 16 A0; Sd S1 24 A0; Sd S2 32 A0; Sd S3 40 A0; Sd S4 48 A0;
    Sd S5 56 A0; Sd S6 64 A0; Sd S7 72 A0; Sd S8 80 A0; Sd S9 88 A0; Sd S10 96 A0;
    Sd S11 104 A0; Ld RA 0 A1; Ld SP 8 A1; Ld S0 16 A1; Ld S1 24 A1; Ld S2 32 A1; Ld S3 40 A1;
    Ld S4 48 A1; Ld S5 56 A1; Ld S6 64 A1; Ld S7 72 A1; Ld S8 80 A1; Ld S9 88 A1; Ld S10 96 A1;
    Ld S11 104 A1; Ret ].

(** trampoline.S; [jalr] leaves the address of [userret_code] in [ra]. *)
Definition uservec_code : list instr :=
  [ Csrw SSCRATCH A0; Li A0 TRAPFRAME; Sd RA 40 A0; Sd SP 48 A0; Sd GP 56 A0; Sd TP 64 A0;
    Sd T0 72 A0; Sd T1 80 A0; Sd T2 88 A0; Sd S0 96 A0; Sd S1 104 A0; Sd A1 120 A0;
    Sd A2 128 A0; Sd A3 136 A0; Sd A4 144 A0; Sd A5 152 A0; Sd A6 160 A0; Sd A7 168 A0;
    Sd S2 176 A0; Sd S3 184 A0; Sd S4 192 A0; Sd S5 200 A0; Sd S6 208 A0; Sd S7 216 A0;
    Sd S8 224 A0; Sd S9 232 A0; Sd S10 240 A0; Sd S11 248 A0; Sd T3 256 A0; Sd T4 264 A0;
    Sd T5 272 A0; Sd T6 280 A0; Csrr T0 SSCRATCH; Sd T0 112 A0; Ld SP 8 A0; Ld TP 32 A0;
    Ld T0 16 A0; Ld T1 0 A0; Sfence; Csrw SATP T1; Sfence; Jalr T0 ].
Definition userret_code : list instr :=
  [ Sfence; Csrw SATP A0; Sfence; Li A0 TRAPFRAME; Ld RA 40 A0; Ld SP 48 A0; Ld GP 56 A0;
    Ld TP 64 A0; Ld T0 72 A0; Ld T1 80 A0; Ld T2 88 A0; Ld S0 96 A0; Ld S1 104 A0;
    Ld A1 120 A0; Ld A2 128 A0; Ld A3 136 A0; Ld A4 144 A0; Ld A5 152 A0; Ld A6 160 A0;
    Ld A7 168 A0; Ld S2 176 A0; Ld S3 184 A0; Ld S4 192 A0; Ld S5 200 A0; Ld S6 208 A0;
    Ld S7 216 A0; Ld S8 224 A0; Ld S9 232 A0; Ld S10 240 A0; Ld S11 248 A0; Ld T3 256 A0;
    Ld T4 264 A0; Ld T5 272 A0; Ld T6 280 A0; Ld A0 112 A0; Sret ].
Definition tramp_code : list instr := uservec_code ++ userret_code.

(** kernelvec.S, [kerneltrap] being the address of the C handler. *)
Definition kernelvec_code (kerneltrap : Z) : list instr :=
  [ Addi SP SP (-256); Sd RA 0 SP; Sd GP 16 SP; Sd TP 24 SP; Sd T0 32 SP; Sd T1 40 SP;
    Sd T2 48 SP; Sd A0 72 SP; Sd A1 80 SP; Sd A2 88 SP; Sd A3 96 SP; Sd A4 104 SP;
    Sd A5 112 SP; Sd A6 120 SP; Sd A7 128 SP; Sd T3 216 SP; Sd T4 224 SP; Sd T5 232 SP;
    Sd T6 240 SP; Call kerneltrap; Ld RA 0 SP; Ld GP 16 SP; Ld T0 32 SP; Ld T1 40 SP;
    Ld T2 48 SP; Ld A0 72 SP; Ld A1 80 SP; Ld A2 88 SP; Ld A3 96 SP; Ld A4 104 SP;
    Ld A5 112 SP; Ld A6 120 SP; Ld A7 128 SP; Ld T3 216 SP; Ld T4 224 SP; Ld T5 232 SP;
    Ld T6 240 SP; Addi SP SP 256; Sret ].

(** entry.S *)
Definition entry_code (stack0 start : Z) : list instr :=
  [ La SP stack0; Li A0 (1024 * 4); Csrr A1 MHARTID; Addi A1 A1 1; MulReg A0 A0 A1; AddReg SP SP A0; Call start ].

(** ** The slots *)

(** [struct context] *)
Definition context_slots : list (reg * Z) :=
  [ (RA, 0); (SP, 8); (S0, 16); (S1, 24); (S2, 32); (S3, 40); (S4, 48); (S5, 56); (S6, 64); (S7, 72);
    (S8, 80); (S9, 88); (S10, 96); (S11, 104) ].

(** The user registers of [struct trapframe], but [a0]. *)
Definition user_slots : list (reg * Z) :=
  [ (RA, 40); (SP, 48); (GP, 56); (TP, 64); (T0, 72); (T1, 80); (T2, 88); (S0, 96); (S1, 104);
    (A1, 120); (A2, 128); (A3, 136); (A4, 144); (A5, 152); (A6, 160); (A7, 168); (S2, 176); (S3, 184);
    (S4, 192); (S5, 200); (S6, 208); (S7, 216); (S8, 224); (S9, 232); (S10, 240); (S11, 248);
    (T3, 256); (T4, 264); (T5, 272); (T6, 280) ].
Definition frame_slots : list (reg * Z) := user_slots ++ [(A0, 112)].

(** What [uservec] loads of the trap frame. *)
Definition kernel_slots : list (reg * Z) := [ (SP, 8); (TP, 32); (T0, 16); (T1, 0) ].

Definition frame_offs : list Z := (λ k, 8 * k) <$> seqZ 0 36.

(** The caller-saved registers of an interrupted kernel thread. *)
Definition caller_saved : list (reg * Z) :=
  [ (T0, 32); (T1, 40); (T2, 48); (A0, 72); (A1, 80); (A2, 88); (A3, 96); (A4, 104); (A5, 112);
    (A6, 120); (A7, 128); (T3, 216); (T4, 224); (T5, 232); (T6, 240) ].
Definition interrupt_saves : list (reg * Z) := (RA, 0) :: (GP, 16) :: (TP, 24) :: caller_saved.
Definition interrupt_loads : list (reg * Z) := (RA, 0) :: (GP, 16) :: caller_saved.

Lemma swtch_blocks : swtch_code = saves A0 context_slots ++ loads A1 context_slots ++ [Ret].
Proof. reflexivity. Qed.
Lemma uservec_blocks :
  uservec_code = [Csrw SSCRATCH A0; Li A0 TRAPFRAME] ++ saves A0 user_slots ++ [Csrr T0 SSCRATCH] ++ saves A0 [(T0, 112)] ++
    loads A0 kernel_slots ++ [Sfence; Csrw SATP T1; Sfence; Jalr T0].
Proof. reflexivity. Qed.
Lemma userret_blocks :
  userret_code = [Sfence; Csrw SATP A0; Sfence; Li A0 TRAPFRAME] ++ loads A0 user_slots ++ [Ld A0 112 A0; Sret].
Proof. reflexivity. Qed.
Lemma kernelvec_blocks h :
  kernelvec_code h = [Addi SP SP (-256)] ++ saves SP interrupt_saves ++ [Call h] ++ loads SP interrupt_loads ++ [Addi SP SP 256; Sret].
Proof. reflexivity. Qed.

Definition slots_okb (l : list (reg * Z)) : bool :=
  bool_decide (NoDup l.*1) && bool_decide (NoDup l.*2) && forallb (λ p, p.2 mod 8 =? 0) l.
Lemma slots_okb_ok l : slots_okb l = true → slots_ok l.
Proof.
  unfold slots_okb. intros [[H1 H2]%andb_true_iff H3]%andb_true_iff. split_and!; [by eapply bool_decide_eq_true_1..|].
  apply Forall_forall. intros p Hp. rewrite forallb_forall in H3. apply Z.eqb_eq, H3. by apply list_elem_of_In.
Qed.

(** Every register but [zero] has one slot. *)
Lemma frame_slots_all r : r ≠ ZERO → ∃ off, (r, off) ∈ frame_slots.
Proof.
  intros Hr. assert (r ∈ frame_slots.*1) as ([r' off] & -> & Hin)%list_elem_of_fmap; [|by exists off].
  destruct r; [done|apply (bool_decide_unpack _); by vm_compute..].
Qed.

Lemma slots_range {P : reg * Z → Prop} `{∀ p, Decision (P p)} l : bool_decide (Forall P l) = true → ∀ r off, (r, off) ∈ l → P (r, off).
Proof. intros Hl r off. apply bool_decide_eq_true_1 in Hl. rewrite Forall_forall in Hl. apply Hl. Qed.

(** ** Traps from user space *)

(** Page table [root] of a process: its trap frame and the trampoline at the top. *)
Record user_table `{Layout} (m : memory) (root : Z) (T : aspace) (tf : Z) : Prop := {
  ut_rep : pt_rep m root T;
  ut_page : page_ok tf;
  ut_own : ¬ is_table T tf;
  ut_frame : leaf T !! UVPN = Some (pte_of tf (Z.lor PTE_R PTE_W));
  ut_tramp : leaf T !! (UVPN + 1) = Some (pte_of trampoline (Z.lor PTE_R PTE_X))
}.

(** The kernel's page table maps the trampoline at the same address. *)
Record kernel_table `{Layout} (m : memory) (root : Z) (K : aspace) (tf : Z) : Prop := {
  kt_rep : pt_rep m root K;
  kt_own : ¬ is_table K tf;
  kt_tramp : leaf K !! (UVPN + 1) = Some (pte_of trampoline (Z.lor PTE_R PTE_X))
}.

Section Trampoline.
Context `{Layout, !LayoutOk, Asm}.
Context (tramp_fits : csize tramp_code ≤ PGSIZE).

Lemma trampoline_bound : 0 ≤ trampoline < 2 ^ 56 ∧ trampoline mod 4096 = 0.
Proof.
  pose proof trampoline_range. pose proof etext_range. pose proof kend_range as [_ Hk]. split; [|apply trampoline_aligned].
  unfold KERNBASE, PHYSTOP, PGSIZE, KERNBASE in *. lia.
Qed.

Lemma tramp_fetch m c root T k :
  pt_rep m root T → leaf T !! (UVPN + 1) = Some (pte_of trampoline (Z.lor PTE_R PTE_X)) → c SATP = MAKE_SATP root →
  0 ≤ k < PGSIZE → translate m c Supervisor Fetch (TRAMPOLINE + k) = Some (trampoline + k).
Proof.
  intros HT Hl Hs Hk. destruct trampoline_bound as [Hb Ha]. change TRAMPOLINE with (67108863 * 4096). unfold PGSIZE in Hk.
  rewrite (translate_rep m c Supervisor Fetch root T) by (done || change MAXVA with (2 ^ 38); lia).
  rewrite Z.add_comm, Z.div_add, Z.div_small, Z.add_0_l, Z.mod_add, Z.mod_small by lia. change 67108863 with (UVPN + 1).
  rewrite Hl, leaf_valid_of by done. unfold may_access. rewrite !has_pte_at by done. cbn [andb orb negb].
  rewrite pte_of_alt, PTE2PA_PA2PTE by done. done.
Qed.

Lemma frame_access m c root T tf a off :
  user_table m root T tf → c SATP = MAKE_SATP root → a ≠ Fetch → 0 ≤ off < PGSIZE →
  translate m c Supervisor a (TRAPFRAME + off) = Some (tf + off).
Proof.
  intros [HT Hp _ Hl _] Hs Hf Ho. pose proof (page_ok_bound _ Hp) as [Hb Ha]. change TRAPFRAME with (67108862 * 4096). unfold PGSIZE in Ho.
  rewrite (translate_rep m c Supervisor a root T) by (done || change MAXVA with (2 ^ 38); lia).
  rewrite Z.add_comm, Z.div_add, Z.div_small, Z.add_0_l, Z.mod_add, Z.mod_small by lia. change 67108862 with UVPN.
  rewrite Hl, leaf_valid_of by done. unfold may_access. rewrite !has_pte_at by (done || by destruct a).
  rewrite pte_of_pa by done. by destruct a.
Qed.

Lemma tramp_in_page c root T okm :
  (∀ m, okm m → pt_rep m root T) → leaf T !! (UVPN + 1) = Some (pte_of trampoline (Z.lor PTE_R PTE_X)) → c SATP = MAKE_SATP root →
  in_page tramp_code trampoline TRAMPOLINE c Supervisor okm.
Proof. intros Hr Hl Hs. split; [done|done|]. intros m k Hm Hk. by eapply tramp_fetch; eauto. Qed.

(** The window [uservec] and [userret] work on. *)
Lemma frame_offs_ok tf off :
  page_ok tf → off ∈ frame_offs → phys_ok (tf + off) 8 = true ∧ (TRAPFRAME + off) mod 8 = 0 ∧ 0 ≤ TRAPFRAME + off < 2 ^ 64.
Proof.
  intros Hp (k & -> & Hk%elem_of_seqZ)%list_elem_of_fmap. split; [apply page_ok_phys; unfold PGSIZE; (done || lia)|].
  change TRAPFRAME with (8 * 34359737344). split; [|lia]. rewrite <- Z.mul_add_distr_l, Z.mul_comm. by apply Z.mod_mul.
Qed.

Lemma frame_offs_range off : off ∈ frame_offs → 0 ≤ off < PGSIZE.
Proof. intros (k & -> & Hk%elem_of_seqZ)%list_elem_of_fmap. unfold PGSIZE. lia. Qed.

Lemma user_table_store m root T tf off v :
  user_table m root T tf → off ∈ frame_offs → user_table (store64 m (tf + off) v) root T tf.
Proof.
  intros [HT Hp Hn Hf Ht] Ho. split; try done. eapply pt_rep_frame; [exact HT|]. intros a Ha.
  apply list_elem_of_fmap in Ho as (k & -> & Hk%elem_of_seqZ). apply same_page_store; [apply Hp|apply (pr_page _ _ _ HT a Ha)|lia|by intros ->].
Qed.

Lemma kernel_table_store m root K tf off v :
  page_ok tf → kernel_table m root K tf → off ∈ frame_offs → kernel_table (store64 m (tf + off) v) root K tf.
Proof.
  intros Hp [HT Hn Ht] Ho. split; try done. eapply pt_rep_frame; [exact HT|]. intros a Ha.
  apply list_elem_of_fmap in Ho as (k & -> & Hk%elem_of_seqZ). apply same_page_store; [apply Hp|apply (pr_page _ _ _ HT a Ha)|lia|by intros ->].
Qed.

(** Both tables, while registers are saved. *)
Definition both (root : Z) (T : aspace) (tf kroot : Z) (K : aspace) (m : memory) : Prop :=
  user_table m root T tf ∧ kernel_table m kroot K tf.

Lemma both_store root T tf kroot K m off v :
  both root T tf kroot K m → off ∈ frame_offs → both root T tf kroot K (store64 m (tf + off) v).
Proof. intros [Hu Hk] Ho. split; [by apply user_table_store|]. apply kernel_table_store; [by eapply ut_page|done|done]. Qed.

Section Passage.
Context (root : Z) (T : aspace) (tf kroot : Z) (K : aspace).
Abbreviation okm := (both root T tf kroot K).

Lemma user_page c m0 : okm m0 → c SATP = MAKE_SATP root → in_page tramp_code trampoline TRAMPOLINE c Supervisor okm.
Proof. intros Hm Hs. apply (tramp_in_page c root T); [|apply Hm|done]. intros m [Hu _]. apply Hu. Qed.

Lemma kernel_page c m0 : okm m0 → c SATP = MAKE_SATP kroot → in_page tramp_code trampoline TRAMPOLINE c Supervisor okm.
Proof. intros Hm Hs. apply (tramp_in_page c kroot K); [|apply Hm|done]. intros m [_ Hk]. apply Hk. Qed.

Lemma user_window c : c SATP = MAKE_SATP root →
  ∀ m off a, okm m → off ∈ frame_offs → a ≠ Fetch → translate m c Supervisor a (TRAPFRAME + off) = Some (tf + off).
Proof. intros Hs m off a [Hu _] Ho Ha. eapply frame_access; try done. by apply frame_offs_range. Qed.

(** A write to a CSR: the following code runs with the new one. *)
Lemma run_csrw c pre cs r post n x m0 :
  tramp_code = pre ++ Csrw cs r :: post → okm m0 → (c SATP = MAKE_SATP root ∨ c SATP = MAKE_SATP kroot) →
  at_code TRAMPOLINE c Supervisor okm pre x →
  ∃ z, z = x <| x_csr ::= <[cs := getr r x]> |> <| x_pc := TRAMPOLINE + csize (pre ++ [Csrw cs r]) |> ∧
    at_code TRAMPOLINE (<[cs := getr r x]> c) Supervisor okm (pre ++ [Csrw cs r]) z ∧
    run tramp_code trampoline (S n) x = run tramp_code trampoline n z.
Proof.
  intros Ec Hm Hs Hx. assert (in_page tramp_code trampoline TRAMPOLINE c Supervisor okm) as Hip
    by (destruct Hs; [by eapply user_page|by eapply kernel_page]).
  eexists. split; [reflexivity|]. split.
  - split; rsimpl; try apply Hx; [|done]. by rewrite (ac_csr _ _ _ _ _ _ Hx).
  - cbn [run]. rewrite (step_at _ _ _ _ _ _ Hip pre (Csrw cs r) post x Ec Hx). cbn [exec mbind option_bind]. f_equal.
    unfold next. machine_eq. rewrite (ac_pc _ _ _ _ _ _ Hx). by rewrite (pc_next _ _ _ _ _ _ Hip pre (Csrw cs r) post Ec).
Qed.

Lemma user_slots_saved r off : (r, off) ∈ user_slots → r ≠ ZERO ∧ off ∈ frame_offs.
Proof. revert r off. apply (slots_range (P := λ p, p.1 ≠ ZERO ∧ p.2 ∈ frame_offs)). by vm_compute. Qed.

Lemma user_slots_loaded r off : (r, off) ∈ user_slots → r ≠ A0 ∧ off ∈ frame_offs.
Proof. revert r off. apply (slots_range (P := λ p, p.1 ≠ A0 ∧ p.2 ∈ frame_offs)). by vm_compute. Qed.

Lemma kernel_slots_ok r off : (r, off) ∈ kernel_slots → r ≠ A0 ∧ off ∈ frame_offs.
Proof. revert r off. apply (slots_range (P := λ p, p.1 ≠ A0 ∧ p.2 ∈ frame_offs)). by vm_compute. Qed.

(** The memory and the registers [uservec] leaves. *)
Definition saved_mem (x : machine) : memory :=
  save_mem (<[T0 := getr A0 x]> (<[A0 := u64 TRAPFRAME]> (x_reg x))) tf [(T0, 112)] (save_mem (<[A0 := u64 TRAPFRAME]> (x_reg x)) tf user_slots (x_mem x)).
Definition kernel_regs (x : machine) : reg → Z :=
  load_regs (saved_mem x) tf kernel_slots (<[T0 := getr A0 x]> (<[A0 := u64 TRAPFRAME]> (x_reg x))).

Lemma uservec_run x :
  okm (x_mem x) → x_csr x SATP = MAKE_SATP root → load64 (saved_mem x) (tf + 0) = MAKE_SATP kroot →
  x_mode x = Supervisor → x_pc x = TRAMPOLINE → 0 ≤ x_reg x A0 < 2 ^ 64 →
  ∃ y, run tramp_code trampoline (length uservec_code) x = Some y ∧ x_mem y = saved_mem x ∧ x_mode y = Supervisor ∧
    x_csr y = <[SATP := MAKE_SATP kroot]> (<[SSCRATCH := getr A0 x]> (x_csr x)) ∧
    x_pc y = kernel_regs x T0 ∧ x_reg y = <[RA := TRAMPOLINE + csize uservec_code]> (kernel_regs x) ∧ okm (x_mem y).
Proof.
  intros Hm Hs Hks Hmd Hpc Ha0.
  assert (at_code TRAMPOLINE (x_csr x) Supervisor okm [] x) as H0' by (split; [done|done|done|rewrite Hpc; unfold csize; cbn; lia]).
  change (length uservec_code) with (S (S (length user_slots + S (1 + (length kernel_slots + S (S (S 1)))))))%nat.
  destruct (run_csrw (x_csr x) [] SSCRATCH A0 (tail tramp_code) (S (length user_slots + S (1 + (length kernel_slots + S (S (S 1))))))%nat x (x_mem x))
    as (x1 & E1 & H1' & ->); [done|done|by left|done|].
  set (c1 := <[SSCRATCH := getr A0 x]> (x_csr x)) in *. assert (c1 SATP = MAKE_SATP root) as Hs1 by done.
  pose proof (user_page c1 _ Hm Hs1) as Hip1. pose proof (user_window c1 Hs1) as Hwin.
  assert (∀ off, off ∈ frame_offs → phys_ok (tf + off) 8 = true ∧ (TRAPFRAME + off) mod 8 = 0 ∧ 0 ≤ TRAPFRAME + off < 2 ^ 64) as Hoff
    by (intros off; apply frame_offs_ok, (ut_page _ _ _ _ (proj1 Hm))).
  destruct (run_setr _ _ _ _ _ _ Hip1 [Csrw SSCRATCH A0] (Li A0 TRAPFRAME) (drop 2 tramp_code)
    (length user_slots + S (1 + (length kernel_slots + S (S (S 1)))))%nat x1 A0 TRAPFRAME) as (x2 & E2 & H2' & ->); [done..|].
  rewrite run_app.
  destruct (run_saves _ _ _ _ _ _ Hip1 A0 TRAPFRAME tf frame_offs Hwin Hoff (both_store _ _ _ _ _) user_slots
    [Csrw SSCRATCH A0; Li A0 TRAPFRAME] (drop 32 tramp_code) x2) as (x3 & -> & H3' & E3); [done|done|by apply user_slots_saved|by rewrite E2; unfold getr; rsimpl|].
  cbn [mbind option_bind].
  destruct (run_setr _ _ _ _ _ _ Hip1 (take 32 tramp_code) (Csrr T0 SSCRATCH) (drop 33 tramp_code)
    (1 + (length kernel_slots + S (S (S 1))))%nat x3 T0 (x_csr x3 SSCRATCH)) as (x4 & E4 & H4' & ->); [done..|].
  rewrite run_app.
  destruct (run_saves _ _ _ _ _ _ Hip1 A0 TRAPFRAME tf frame_offs Hwin Hoff (both_store _ _ _ _ _) [(T0, 112)]
    (take 33 tramp_code) (drop 34 tramp_code) x4) as (x5 & E5' & H5' & E5); [done|done| |by rewrite E4, E3, E2; unfold getr; rsimpl|].
  { intros r off [= -> ->]%list_elem_of_singleton. split; [done|]. apply (bool_decide_unpack _). by vm_compute. }
  change (length [(T0, 112)]) with 1%nat in E5'. rewrite E5'. clear E5'. cbn [mbind option_bind]. rewrite run_app.
  destruct (run_loads _ _ _ _ _ _ Hip1 A0 TRAPFRAME tf frame_offs ltac:(done) Hwin Hoff kernel_slots
    (take 34 tramp_code) (drop 38 tramp_code) x5) as (x6 & -> & H6' & E6); [done|done|by apply kernel_slots_ok|by rewrite E5, E4, E3, E2; unfold getr; rsimpl|].
  cbn [mbind option_bind].
  destruct (run_fence _ _ _ _ _ _ Hip1 (take 38 tramp_code) (drop 39 tramp_code) 3 x6) as (x7 & E7 & H7' & ->); [done..|].
  destruct (run_csrw c1 (take 39 tramp_code) SATP T1 (drop 40 tramp_code) 2 x7 (x_mem x)) as (x8 & E8 & H8' & ->); [done|done|by left|done|].
  assert (x_mem x7 = saved_mem x ∧ x_reg x7 = kernel_regs x) as [Em7 Er7].
  { rewrite E7, E6, E5, E4, E3, E2, E1. unfold kernel_regs, saved_mem, getr. rsimpl. cbn [saved_mem]. rewrite fn_lookup_insert.
    rewrite decide_False by done. by rewrite (u64_small (x_reg x A0)) by done. }
  assert (getr T1 x7 = MAKE_SATP kroot) as Hk1.
  { unfold getr. rewrite decide_False, Er7 by done. unfold kernel_regs.
    rewrite (load_regs_in _ _ kernel_slots _ T1 0); [done|by apply slots_okb_ok|apply (bool_decide_unpack _); by vm_compute]. }
  rewrite Hk1 in *. set (c2 := <[SATP := MAKE_SATP kroot]> c1) in *. assert (c2 SATP = MAKE_SATP kroot) as Hs2 by done.
  pose proof (kernel_page c2 _ Hm Hs2) as Hip2.
  destruct (run_fence _ _ _ _ _ _ Hip2 (take 40 tramp_code) (drop 41 tramp_code) 1 x8) as (x9 & E9 & H9' & ->); [done..|].
  cbn [run]. rewrite (step_at _ _ _ _ _ _ Hip2 (take 41 tramp_code) (Jalr T0) (drop 42 tramp_code) x9) by done.
  cbn [exec mbind option_bind]. eexists. split; [reflexivity|].
  assert (x_mem x9 = saved_mem x ∧ x_reg x9 = kernel_regs x) as [Em9 Er9] by (rewrite E9, E8; rsimpl; done).
  unfold setr, getr. rsimpl. rewrite Em9, Er9, (ac_csr _ _ _ _ _ _ H9'), (ac_mode _ _ _ _ _ _ H9'), (ac_pc _ _ _ _ _ _ H9').
  split_and!; [done|done|done|done| |].
  - f_equal. apply (pc_next _ _ _ _ _ _ Hip2 (take 41 tramp_code) (Jalr T0) (drop 42 tramp_code)). done.
  - rewrite <- Em9. apply H9'.
Qed.

Definition regs_ok (x : machine) : Prop := ∀ r, r ≠ ZERO → 0 ≤ x_reg x r < 2 ^ 64.

Lemma frame_slots_good : slots_ok frame_slots.
Proof. apply slots_okb_ok. by vm_compute. Qed.

Lemma user_slots_good : slots_ok user_slots.
Proof. apply slots_okb_ok. by vm_compute. Qed.

(** Every user register is in its slot of the trap frame. *)
Lemma saved_slot x r off : regs_ok x → (r, off) ∈ frame_slots → load64 (saved_mem x) (tf + off) = x_reg x r.
Proof.
  intros Hr Hin. unfold saved_mem. set (v := <[A0 := u64 TRAPFRAME]> (x_reg x)). apply elem_of_app in Hin as [Hin|Hin%list_elem_of_singleton].
  - destruct (user_slots_loaded r off Hin) as [Hne _].
    assert (v r = x_reg x r) as Hv by (unfold v; by rewrite fn_lookup_insert_ne by done).
    rewrite save_load_other, (save_load _ _ _ _ r); [done|apply user_slots_good|done|rewrite Hv; apply Hr; by apply (user_slots_saved r off)|].
    intros r' o' [= -> ->]%list_elem_of_singleton. revert r off Hin Hne Hv.
    assert (∀ r off, (r, off) ∈ user_slots → off + 8 ≤ 112 ∨ 120 ≤ off) as Hsep.
    { apply (slots_range (P := λ p, p.2 + 8 ≤ 112 ∨ 120 ≤ p.2)). by vm_compute. }
    intros r off Hin _ _. specialize (Hsep r off Hin). lia.
  - injection Hin as -> ->. cbn [save_mem foldl]. rewrite ldn_stn_eq, fn_lookup_insert. unfold getr. rewrite decide_False by done.
    by apply Z.mod_small, Hr.
Qed.

(** Nothing else changes, the other fields of the trap frame included. *)
Lemma saved_other x a : a < tf + 40 ∨ tf + 288 ≤ a → ldb (saved_mem x) a = ldb (x_mem x) a.
Proof.
  intros Ha. unfold saved_mem. rewrite !save_ldb; [done| |].
  - assert (∀ r off, (r, off) ∈ user_slots → 40 ≤ off ≤ 280) as Hsep.
    { apply (slots_range (P := λ p, 40 ≤ p.2 ≤ 280)). by vm_compute. }
    intros r off Hin. specialize (Hsep r off Hin). lia.
  - intros r off [= -> ->]%list_elem_of_singleton. lia.
Qed.

Lemma saved_field x off : 0 ≤ off ≤ 32 → load64 (saved_mem x) (tf + off) = load64 (x_mem x) (tf + off).
Proof. intros Ho. apply ldn_ext. intros b Hb. apply saved_other. lia. Qed.

Lemma userret_run x :
  okm (x_mem x) → x_csr x SATP = MAKE_SATP kroot → getr A0 x = MAKE_SATP root →
  x_mode x = Supervisor → x_pc x = TRAMPOLINE + csize uservec_code →
  ∃ y, run tramp_code trampoline (length userret_code) x = Some y ∧ x_mem y = x_mem x ∧
    x_pc y = x_csr x SEPC ∧ x_mode y = (if Z.testbit (x_csr x SSTATUS) 8 then Supervisor else User) ∧
    x_csr y = <[SSTATUS := sret_status (x_csr x SSTATUS)]> (<[SATP := MAKE_SATP root]> (x_csr x)) ∧
    (∀ r off, (r, off) ∈ frame_slots → x_reg y r = load64 (x_mem x) (tf + off)).
Proof.
  intros Hm Hs Ha0 Hmd Hpc.
  assert (at_code TRAMPOLINE (x_csr x) Supervisor okm uservec_code x) as H0' by (by split).
  change (length userret_code) with (S (S (S (S (length user_slots + 2)))))%nat.
  pose proof (kernel_page (x_csr x) _ Hm Hs) as Hip0.
  destruct (run_fence _ _ _ _ _ _ Hip0 uservec_code (drop 43 tramp_code) (S (S (S (length user_slots + 2)))) x) as (x1 & E1 & H1' & ->); [done..|].
  destruct (run_csrw (x_csr x) (take 43 tramp_code) SATP A0 (drop 44 tramp_code) (S (S (length user_slots + 2))) x1 (x_mem x))
    as (x2 & E2 & H2' & ->); [done|done|by right|done|].
  assert (getr A0 x1 = MAKE_SATP root) as Ea by (rewrite E1; exact Ha0). rewrite Ea in *.
  set (c1 := <[SATP := MAKE_SATP root]> (x_csr x)) in *. assert (c1 SATP = MAKE_SATP root) as Hs1 by done.
  pose proof (user_page c1 _ Hm Hs1) as Hip1. pose proof (user_window c1 Hs1) as Hwin.
  assert (∀ off, off ∈ frame_offs → phys_ok (tf + off) 8 = true ∧ (TRAPFRAME + off) mod 8 = 0 ∧ 0 ≤ TRAPFRAME + off < 2 ^ 64) as Hoff
    by (intros off; apply frame_offs_ok, (ut_page _ _ _ _ (proj1 Hm))).
  destruct (run_fence _ _ _ _ _ _ Hip1 (take 44 tramp_code) (drop 45 tramp_code) (S (length user_slots + 2)) x2) as (x3 & E3 & H3' & ->); [done..|].
  destruct (run_setr _ _ _ _ _ _ Hip1 (take 45 tramp_code) (Li A0 TRAPFRAME) (drop 46 tramp_code) (length user_slots + 2) x3 A0 TRAPFRAME)
    as (x4 & E4 & H4' & ->); [done..|].
  assert (getr A0 x4 = TRAPFRAME) as Ea4 by (rewrite E4; unfold getr; by rsimpl).
  rewrite run_app.
  destruct (run_loads _ _ _ _ _ _ Hip1 A0 TRAPFRAME tf frame_offs ltac:(done) Hwin Hoff user_slots
    (take 46 tramp_code) (drop 76 tramp_code) x4) as (x5 & -> & H5' & E5); [done|done|apply user_slots_loaded|done|].
  cbn [mbind option_bind].
  assert (getr A0 x5 = TRAPFRAME) as Ea5.
  { rewrite E5. unfold getr. rsimpl. rewrite decide_False, load_regs_out; [|apply (bool_decide_unpack _); by vm_compute|done].
    revert Ea4. unfold getr. by rewrite decide_False by done. }
  destruct (run_setr _ _ _ _ _ _ Hip1 (take 76 tramp_code) (Ld A0 112 A0) (drop 77 tramp_code) 1 x5 A0 (load64 (x_mem x5) (tf + 112)))
    as (x6 & E6 & H6' & ->); [done|done| |].
  { cbn [exec]. rewrite (data_at c1 Supervisor okm A0 TRAPFRAME tf frame_offs Hwin Hoff); [done|apply H5'..| |done|done].
    apply (bool_decide_unpack _). by vm_compute. }
  cbn [run]. rewrite (step_at _ _ _ _ _ _ Hip1 (take 77 tramp_code) Sret [] x6) by done. cbn [exec mbind option_bind].
  eexists. split; [reflexivity|]. rsimpl. rewrite (ac_csr _ _ _ _ _ _ H6').
  assert (x_mem x6 = x_mem x ∧ x_reg x6 = <[A0 := load64 (x_mem x) (tf + 112)]> (load_regs (x_mem x) tf user_slots (x_reg x4))) as [Em Er].
  { rewrite E6, E5, E4, E3, E2, E1. rsimpl. by rewrite (u64_small (load64 _ _)) by apply (ldn_range 8). }
  rewrite Em, Er. split_and!; [done..|]. intros r off Hin. apply elem_of_app in Hin as [Hin|[= -> ->]%list_elem_of_singleton].
  - destruct (user_slots_loaded r off Hin) as [Hne _]. rewrite fn_lookup_insert_ne by done.
    apply load_regs_in; [apply user_slots_good|done].
  - by rewrite fn_lookup_insert.
Qed.

End Passage.

Lemma take_trap_fields cause tval x :
  let y := take_trap cause tval x in
  x_mem y = x_mem x ∧ x_reg y = x_reg x ∧ x_mode y = Supervisor ∧ x_pc y = x_csr x STVEC ∧ x_csr y SATP = x_csr x SATP ∧
  x_csr y SEPC = x_pc x ∧ x_csr y SCAUSE = cause ∧ x_csr y STVAL = tval.
Proof. intros y. unfold y, take_trap. rsimpl. done. Qed.

(** Into the kernel. *)
Lemma trap_entry cause tval x root T tf kroot K :
  both root T tf kroot K (x_mem x) → regs_ok x → x_csr x SATP = MAKE_SATP root → x_csr x STVEC = TRAMPOLINE →
  load64 (x_mem x) (tf + TF_KERNEL_SATP) = MAKE_SATP kroot →
  ∃ y, run tramp_code trampoline (length uservec_code) (take_trap cause tval x) = Some y ∧
    x_mode y = Supervisor ∧ x_pc y = load64 (x_mem x) (tf + TF_KERNEL_TRAP) ∧
    x_reg y SP = load64 (x_mem x) (tf + TF_KERNEL_SP) ∧ x_reg y TP = load64 (x_mem x) (tf + TF_KERNEL_HARTID) ∧
    x_reg y RA = TRAMPOLINE + csize uservec_code ∧
    x_csr y = <[SATP := MAKE_SATP kroot]> (<[SSCRATCH := x_reg x A0]> (x_csr (take_trap cause tval x))) ∧
    (∀ r off, (r, off) ∈ frame_slots → load64 (x_mem y) (tf + off) = x_reg x r) ∧
    (∀ a, a < tf + 40 ∨ tf + 288 ≤ a → ldb (x_mem y) a = ldb (x_mem x) a) ∧ both root T tf kroot K (x_mem y).
Proof.
  intros Hm Hr Hs Hv Hks. destruct (take_trap_fields cause tval x) as (Em & Er & Emd & Epc & Es & Eepc & Ec & Et).
  set (x1 := take_trap cause tval x) in *. assert (regs_ok x1) as Hr1 by (unfold regs_ok; by rewrite Er).
  destruct (uservec_run root T tf kroot K x1) as (y & E & Ey & Ymd & Yc & Ypc & Yr & Yb);
    [by rewrite Em|by rewrite Es|by rewrite saved_field, Em by lia|done|by rewrite Epc|by apply Hr1|].
  assert (∀ r off, (r, off) ∈ kernel_slots → kernel_regs tf x1 r = load64 (x_mem x) (tf + off)) as Hk.
  { intros r off Hin. unfold kernel_regs. rewrite (load_regs_in _ _ kernel_slots _ r off); [|by apply slots_okb_ok|done].
    rewrite saved_field, Em; [done|]. revert r off Hin. apply (slots_range (P := λ p, 0 ≤ p.2 ≤ 32)). by vm_compute. }
  assert (kernel_regs tf x1 T0 = load64 (x_mem x) (tf + 16) ∧ kernel_regs tf x1 SP = load64 (x_mem x) (tf + 8) ∧
    kernel_regs tf x1 TP = load64 (x_mem x) (tf + 32)) as (K1 & K2 & K3)
    by (split_and!; apply Hk; apply (bool_decide_unpack _); by vm_compute).
  exists y. rewrite Ypc, Yr. split_and!; [done|done|done|exact K2|exact K3|done| | | |done]; rewrite ?Ey.
  - rewrite Yc. unfold getr. by rewrite decide_False, Er by done.
  - intros r off Hin. rewrite (saved_slot tf x1 r off) by done. by rewrite Er.
  - intros a Ha. rewrite saved_other by done. by rewrite Em.
Qed.

(** C5: A trap from user space and the way back: the trampoline enters the kernel
    on its page table and stack at the handler the trap frame names, with every
    user register in its slot of the trap frame and nothing else written; when the
    handler returns the address of the page table, the trampoline restores every
    register from its slot and drops to user mode at [sepc]. *)
Theorem trap_roundtrip cause tval x root T tf kroot K :
  both root T tf kroot K (x_mem x) → regs_ok x → x_csr x SATP = MAKE_SATP root → x_csr x STVEC = TRAMPOLINE →
  load64 (x_mem x) (tf + TF_KERNEL_SATP) = MAKE_SATP kroot →
  ∃ y, run tramp_code trampoline (length uservec_code) (take_trap cause tval x) = Some y ∧
    x_mode y = Supervisor ∧ x_pc y = load64 (x_mem x) (tf + TF_KERNEL_TRAP) ∧
    x_reg y SP = load64 (x_mem x) (tf + TF_KERNEL_SP) ∧ x_reg y TP = load64 (x_mem x) (tf + TF_KERNEL_HARTID) ∧
    x_csr y SATP = MAKE_SATP kroot ∧ x_csr y SEPC = x_pc x ∧ x_csr y SCAUSE = cause ∧ x_csr y STVAL = tval ∧
    (∀ r off, (r, off) ∈ frame_slots → load64 (x_mem y) (tf + off) = x_reg x r) ∧
    (∀ a, a < tf + 40 ∨ tf + 288 ≤ a → ldb (x_mem y) a = ldb (x_mem x) a) ∧
    ∀ z, x_pc z = x_reg y RA → x_mode z = Supervisor → x_csr z SATP = MAKE_SATP kroot → x_reg z A0 = MAKE_SATP root →
      Z.testbit (x_csr z SSTATUS) 8 = false → both root T tf kroot K (x_mem z) →
      ∃ w, run tramp_code trampoline (length userret_code) z = Some w ∧ x_mode w = User ∧ x_pc w = x_csr z SEPC ∧
        x_csr w SATP = MAKE_SATP root ∧ x_mem w = x_mem z ∧
        ∀ r off, (r, off) ∈ frame_slots → x_reg w r = load64 (x_mem z) (tf + off).
Proof.
  intros Hm Hr Hs Hv Hks. destruct (trap_entry cause tval x root T tf kroot K Hm Hr Hs Hv Hks) as (y & E & Ymd & Ypc & Ysp & Ytp & Yra & Yc & Ysl & Yot & _).
  destruct (take_trap_fields cause tval x) as (_ & _ & _ & _ & _ & Eepc & Ec & Et).
  exists y. rewrite Yc. rewrite !fn_lookup_insert, !fn_lookup_insert_ne by done. split_and!; [done..|].
  intros z Zpc Zmd Zs Za Zp Zm. rewrite Yra in Zpc. destruct (userret_run root T tf kroot K z) as (w & E' & Wm & Wpc & Wmd & Wc & Wr); [done..|].
  rewrite Zp in Wmd. exists w. rewrite Wc. by split_and!.
Qed.

Lemma ldn_shift n m m' a b :
  (∀ k, 0 ≤ k < Z.of_nat n → ldb m (a + k) = ldb m' (b + k)) → ldn n m a = ldn n m' b.
Proof.
  revert a b. induction n as [|n IH]; intros a b Hk; [done|].
  change (ldb m a + 2 ^ 8 * ldn n m (a + 1) = ldb m' b + 2 ^ 8 * ldn n m' (b + 1)).
  pose proof (Hk 0 ltac:(lia)) as H0'. rewrite !Z.add_0_r in H0'. rewrite H0', (IH (a + 1) (b + 1)); [done|].
  intros k Hr. specialize (Hk (1 + k) ltac:(lia)). by rewrite !Z.add_assoc in Hk.
Qed.

(** The child's frame, slot by slot. *)
Lemma copied_slot_value m m' tf tf' r off :
  tf_copied m m' tf tf' → (r, off) ∈ frame_slots → load64 m' (tf' + off) = if decide (r = A0) then 0 else load64 m (tf + off).
Proof.
  intros Hc Hin. destruct (decide (r = A0)) as [->|Hne].
  - assert (off = 112) as ->.
    { revert off Hin. assert (∀ r off, (r, off) ∈ frame_slots → r = A0 → off = 112) as Hq; [|intros off Hin; by apply (Hq A0)].
      apply (slots_range (P := λ p, p.1 = A0 → p.2 = 112)). by vm_compute. }
    apply ldn_zero. intros a Ha. replace a with (tf' + (a - tf')) by lia. unfold tf_copied, TF_A, TF_SIZE in Hc.
    rewrite Hc by lia. by rewrite decide_True by lia.
  - assert (40 ≤ off ≤ 280 ∧ (off + 8 ≤ 112 ∨ 120 ≤ off)) as [Hr Hs].
    { revert Hne. revert r off Hin. apply (slots_range (P := λ p, p.1 ≠ A0 → 40 ≤ p.2 ≤ 280 ∧ (p.2 + 8 ≤ 112 ∨ 120 ≤ p.2))). by vm_compute. }
    unfold tf_copied, TF_A, TF_SIZE in Hc. rewrite (ldn_shift 8 m' m (tf' + off) (tf + off)); [done|]. intros k Hk.
    rewrite <- !Z.add_assoc, Hc by lia. by rewrite decide_False by lia.
Qed.


End Trampoline.

(** ** Switching between kernel threads *)

(** A window of memory at virtual address [bv] and physical address [pa]; stores
    to it keep the translation. *)
Record window (c : csr → Z) (okm : memory → Prop) (offs : list Z) (bv pa : Z) : Prop := {
  w_map : ∀ m off a, okm m → off ∈ offs → a ≠ Fetch → translate m c Supervisor a (bv + off) = Some (pa + off);
  w_ram : ∀ off, off ∈ offs → phys_ok (pa + off) 8 = true ∧ (bv + off) mod 8 = 0 ∧ 0 ≤ bv + off < 2 ^ 64;
  w_keep : ∀ m off v, okm m → off ∈ offs → okm (store64 m (pa + off) v)
}.

Definition context_offs : list Z := (λ k, 8 * k) <$> seqZ 0 14.

(** A [struct context] at [a], which the kernel maps at its physical address. *)
Definition context_at (c : csr → Z) (okm : memory → Prop) (a : Z) : Prop := window c okm context_offs a a.
Definition apart (a b : Z) : Prop := a + 112 ≤ b ∨ b + 112 ≤ a.

Section Swtch.
Context `{Asm} (base : Z) (c : csr → Z) (okm : memory → Prop).
Context (Hip : in_page swtch_code base base c Supervisor okm).

Lemma context_slots_in r off : (r, off) ∈ context_slots → r ≠ ZERO ∧ off ∈ context_offs.
Proof. revert r off. apply (slots_range (P := λ p, p.1 ≠ ZERO ∧ p.2 ∈ context_offs)). by vm_compute. Qed.

Lemma context_slots_a1 r off : (r, off) ∈ context_slots → r ≠ A1 ∧ off ∈ context_offs.
Proof. revert r off. apply (slots_range (P := λ p, p.1 ≠ A1 ∧ p.2 ∈ context_offs)). by vm_compute. Qed.

Lemma context_slots_range r off : (r, off) ∈ context_slots → 0 ≤ off ≤ 104.
Proof. revert r off. apply (slots_range (P := λ p, 0 ≤ p.2 ≤ 104)). by vm_compute. Qed.

Lemma context_slots_zero r off : (r, off) ∈ context_slots → r ≠ ZERO.
Proof. revert r off. apply (slots_range (P := λ p, p.1 ≠ ZERO)). by vm_compute. Qed.

Lemma context_slots_good : slots_ok context_slots.
Proof. apply slots_okb_ok. by vm_compute. Qed.

Lemma swtch_run old new x :
  context_at c okm old → context_at c okm new → apart old new → at_code base c Supervisor okm [] x →
  x_reg x A0 = old → x_reg x A1 = new →
  ∃ y, run swtch_code base (length swtch_code) x = Some y ∧ x_mem y = save_mem (x_reg x) old context_slots (x_mem x) ∧
    x_reg y = load_regs (x_mem x) new context_slots (x_reg x) ∧ x_pc y = load64 (x_mem x) (new + 0) ∧
    x_csr y = c ∧ x_mode y = Supervisor.
Proof.
  intros Ho Hn Hap Hx Ha0 Ha1. change (length swtch_code) with (length context_slots + (length context_slots + 1))%nat. rewrite run_app.
  destruct (run_saves _ _ _ _ _ _ Hip A0 old old context_offs (w_map _ _ _ _ _ Ho) (w_ram _ _ _ _ _ Ho) (w_keep _ _ _ _ _ Ho) context_slots
    [] (drop 14 swtch_code) x) as (x1 & -> & H1' & E1); [done|done|apply context_slots_in|done|].
  cbn [mbind option_bind]. rewrite run_app.
  destruct (run_loads _ _ _ _ _ _ Hip A1 new new context_offs ltac:(done) (w_map _ _ _ _ _ Hn) (w_ram _ _ _ _ _ Hn) context_slots
    (take 14 swtch_code) [Ret] x1) as (x2 & -> & H2' & E2); [done|done|apply context_slots_a1|by rewrite E1; unfold getr; rsimpl|].
  cbn [mbind option_bind run]. rewrite (step_at _ _ _ _ _ _ Hip (take 28 swtch_code) Ret [] x2) by done. cbn [exec mbind option_bind].
  eexists. split; [reflexivity|]. rsimpl.
  assert (x_reg x2 = load_regs (x_mem x) new context_slots (x_reg x)) as Er.
  { rewrite E2, E1. rsimpl. apply load_regs_ext. intros r off Hin. apply save_load_other. intros r' o' Hin'.
    pose proof (context_slots_range r off Hin). pose proof (context_slots_range r' o' Hin'). unfold apart in Hap. lia. }
  split_and!; [by rewrite E2, E1; rsimpl|done| |apply H2'..].
  unfold getr. rewrite decide_False, Er by done. apply load_regs_in; [apply context_slots_good|]. apply (bool_decide_unpack _). by vm_compute.
Qed.

End Swtch.

(** C24: A kernel thread that calls [swtch] continues after the call as if it had
    returned: whoever switches to the saved context later, if its 112 bytes have
    not changed, jumps to the return address of the first call with the stack
    pointer and every callee-saved register the thread had; [swtch] writes nothing
    but the context it saves to. *)
Theorem swtch_resumes `{Asm} base c okm old new x c' okm' other z :
  in_page swtch_code base base c Supervisor okm → in_page swtch_code base base c' Supervisor okm' →
  context_at c okm old → context_at c okm new → apart old new → at_code base c Supervisor okm [] x →
  x_reg x A0 = old → x_reg x A1 = new → regs_ok x →
  context_at c' okm' other → context_at c' okm' old → apart other old → at_code base c' Supervisor okm' [] z →
  x_reg z A0 = other → x_reg z A1 = old →
  ∃ y, run swtch_code base (length swtch_code) x = Some y ∧ x_pc y = load64 (x_mem x) new ∧
    (∀ a, a < old ∨ old + 112 ≤ a → ldb (x_mem y) a = ldb (x_mem x) a) ∧
    ((∀ a, old ≤ a < old + 112 → ldb (x_mem z) a = ldb (x_mem y) a) →
     ∃ w, run swtch_code base (length swtch_code) z = Some w ∧ x_pc w = x_reg x RA ∧
       ∀ r off, (r, off) ∈ context_slots → x_reg w r = x_reg x r).
Proof.
  intros Hip Hip' Ho Hn Hap Hx Ha0 Ha1 Hr Hoth Ho' Hap' Hz Hz0 Hz1.
  destruct (swtch_run base c okm Hip old new x) as (y & E & Ym & _ & Ypc & _ & _); [done..|]. rewrite Z.add_0_r in Ypc.
  exists y. split; [done|]. split; [done|]. split.
  { intros a Ha. rewrite Ym. apply save_ldb. intros r off Hin. pose proof (context_slots_range r off Hin). lia. }
  intros Hsame. destruct (swtch_run base c' okm' Hip' other old z) as (w & E' & _ & Wr & Wpc & _ & _); [done..|].
  assert (∀ r off, (r, off) ∈ context_slots → load64 (x_mem z) (old + off) = x_reg x r) as Hld.
  { intros r off Hin. pose proof (context_slots_range r off Hin) as Hrg. rewrite <- (save_load (x_reg x) old context_slots (x_mem x) r off context_slots_good Hin (Hr r (context_slots_zero r off Hin))), <- Ym.
    apply ldn_ext. intros b Hb. apply Hsame. lia. }
  exists w. split; [done|]. split.
  - rewrite Wpc. apply Hld. apply (bool_decide_unpack _). by vm_compute.
  - intros r off Hin. rewrite Wr, (load_regs_in _ _ context_slots _ r off) by (apply context_slots_good || done). by apply Hld.
Qed.

(** ** Interrupts in the kernel *)

Definition stack_offs : list Z := (λ k, 8 * k) <$> seqZ 0 32.
Definition callee_saved : list reg := [S0; S1; S2; S3; S4; S5; S6; S7; S8; S9; S10; S11].

Lemma interrupt_saves_in r off : (r, off) ∈ interrupt_saves → r ≠ ZERO ∧ off ∈ stack_offs.
Proof. revert r off. apply (slots_range (P := λ p, p.1 ≠ ZERO ∧ p.2 ∈ stack_offs)). by vm_compute. Qed.

Lemma interrupt_loads_in r off : (r, off) ∈ interrupt_loads → r ≠ SP ∧ off ∈ stack_offs.
Proof. revert r off. apply (slots_range (P := λ p, p.1 ≠ SP ∧ p.2 ∈ stack_offs)). by vm_compute. Qed.

Lemma interrupt_loads_saved r off : (r, off) ∈ interrupt_loads → (r, off) ∈ interrupt_saves ∧ r ≠ SP.
Proof. revert r off. apply (slots_range (P := λ p, p ∈ interrupt_saves ∧ p.1 ≠ SP)). by vm_compute. Qed.

Lemma interrupt_saves_range r off : (r, off) ∈ interrupt_saves → 0 ≤ off ≤ 240.
Proof. revert r off. apply (slots_range (P := λ p, 0 ≤ p.2 ≤ 240)). by vm_compute. Qed.

Lemma interrupt_slots_good : slots_ok interrupt_saves ∧ slots_ok interrupt_loads.
Proof. split; apply slots_okb_ok; by vm_compute. Qed.

(** What is not saved is callee-saved. *)
Lemma register_kept r : r = ZERO ∨ r = SP ∨ r = TP ∨ r ∈ callee_saved ∨ ∃ off, (r, off) ∈ interrupt_loads.
Proof.
  destruct (decide (r ∈ interrupt_loads.*1)) as [([r' off] & -> & Hin)%list_elem_of_fmap|Hn]; [by do 4 right; exists off|].
  destruct r; try (by auto); try (right; right; right; left; apply (bool_decide_unpack _); by vm_compute);
    exfalso; apply Hn; apply (bool_decide_unpack _); by vm_compute.
Qed.

Section Kernelvec.
Context `{Asm} (base handler : Z).
Abbreviation code := (kernelvec_code handler).

(** From the interrupt to the call of [kerneltrap]. *)
Lemma kernelvec_enter c okm bv pa x :
  in_page code base base c Supervisor okm → window c okm stack_offs bv pa → at_code base c Supervisor okm [] x →
  u64 (x_reg x SP - 256) = bv →
  ∃ y, run code base 20 x = Some y ∧ x_pc y = handler ∧ x_reg y = <[RA := base + csize (take 20 code)]> (<[SP := bv]> (x_reg x)) ∧
    x_mem y = save_mem (<[SP := bv]> (x_reg x)) pa interrupt_saves (x_mem x) ∧ x_csr y = c ∧ x_mode y = Supervisor.
Proof.
  intros Hip Hw Hx Hsp. change 20%nat with (S (length interrupt_saves + 1)).
  destruct (run_setr _ _ _ _ _ _ Hip [] (Addi SP SP (-256)) (drop 1 code) (length interrupt_saves + 1) x SP (x_reg x SP + -256))
    as (x1 & E1 & H1' & ->); [done..|]. rewrite run_app. change (x_reg x SP + -256) with (x_reg x SP - 256) in E1. rewrite Hsp in E1.
  destruct (run_saves _ _ _ _ _ _ Hip SP bv pa stack_offs (w_map _ _ _ _ _ Hw) (w_ram _ _ _ _ _ Hw) (w_keep _ _ _ _ _ Hw) interrupt_saves
    [Addi SP SP (-256)] (drop 19 code) x1) as (x2 & -> & H2' & E2); [done|done|apply interrupt_saves_in|by rewrite E1; unfold getr; rsimpl|].
  cbn [mbind option_bind run]. rewrite (step_at _ _ _ _ _ _ Hip (take 19 code) (Call handler) (drop 20 code) x2) by done.
  cbn [exec mbind option_bind]. eexists. split; [reflexivity|]. unfold setr. rsimpl.
  rewrite (ac_csr _ _ _ _ _ _ H2'), (ac_mode _ _ _ _ _ _ H2'), (ac_pc _ _ _ _ _ _ H2').
  assert (x_reg x2 = <[SP := bv]> (x_reg x) ∧ x_mem x2 = save_mem (<[SP := bv]> (x_reg x)) pa interrupt_saves (x_mem x)) as [-> ->]
    by (rewrite E2, E1; by rsimpl).
  split_and!; [done| |done|done|done]. f_equal. apply (pc_next _ _ _ _ _ _ Hip (take 19 code) (Call handler) (drop 20 code)). done.
Qed.

(** From the return of [kerneltrap] to the interrupted code. *)
Lemma kernelvec_leave c okm bv pa z :
  in_page code base base c Supervisor okm → window c okm stack_offs bv pa → at_code base c Supervisor okm (take 20 code) z →
  x_reg z SP = bv →
  ∃ w, run code base 19 z = Some w ∧ x_pc w = c SEPC ∧ x_mode w = (if Z.testbit (c SSTATUS) 8 then Supervisor else User) ∧
    x_mem w = x_mem z ∧ x_reg w = <[SP := u64 (bv + 256)]> (load_regs (x_mem z) pa interrupt_loads (x_reg z)).
Proof.
  intros Hip Hw Hz Hsp. change 19%nat with (length interrupt_loads + 2)%nat. rewrite run_app.
  destruct (run_loads _ _ _ _ _ _ Hip SP bv pa stack_offs ltac:(done) (w_map _ _ _ _ _ Hw) (w_ram _ _ _ _ _ Hw) interrupt_loads
    (take 20 code) (drop 37 code) z) as (x1 & -> & H1' & E1); [done|done|apply interrupt_loads_in|done|]. cbn [mbind option_bind].
  assert (x_reg x1 = load_regs (x_mem z) pa interrupt_loads (x_reg z)) as Er by (rewrite E1; by rsimpl).
  assert (x_reg x1 SP = bv) as Hsp1 by (rewrite Er, load_regs_out; [done|apply (bool_decide_unpack _); by vm_compute]).
  destruct (run_setr _ _ _ _ _ _ Hip (take 37 code) (Addi SP SP 256) [Sret] 1 x1 SP (x_reg x1 SP + 256)) as (x2 & E2 & H2' & ->); [done..|].
  cbn [run]. rewrite (step_at _ _ _ _ _ _ Hip (take 38 code) Sret [] x2) by done. cbn [exec mbind option_bind].
  eexists. split; [reflexivity|]. rsimpl. rewrite (ac_csr _ _ _ _ _ _ H2').
  assert (x_reg x2 = <[SP := u64 (bv + 256)]> (x_reg x1) ∧ x_mem x2 = x_mem z) as [-> ->] by (rewrite E2, Hsp1, E1; by rsimpl).
  by rewrite Er.
Qed.

End Kernelvec.

(** C27: An interrupt is invisible to the kernel code it interrupts: [kernelvec]
    calls [kerneltrap] having written nothing but the 256 bytes below the stack
    pointer, and if the handler keeps these bytes, the stack pointer and the
    callee-saved registers, as C functions do, every register but [tp] (the hart
    may have changed) is as it was when the interrupted code goes on at [sepc]. *)
Theorem kernelvec_transparent `{Asm} base handler cause tval x okm pa :
  let x1 := take_trap cause tval x in
  in_page (kernelvec_code handler) base base (x_csr x1) Supervisor okm →
  window (x_csr x1) okm stack_offs (x_reg x SP - 256) pa → okm (x_mem x) → x_csr x STVEC = base →
  regs_ok x → 256 ≤ x_reg x SP →
  ∃ y, run (kernelvec_code handler) base 20 x1 = Some y ∧ x_pc y = handler ∧ x_csr y SEPC = x_pc x ∧
    (∀ a, a < pa ∨ pa + 256 ≤ a → ldb (x_mem y) a = ldb (x_mem x) a) ∧
    ∀ c' okm' z, in_page (kernelvec_code handler) base base c' Supervisor okm' → window c' okm' stack_offs (x_reg x SP - 256) pa →
      x_csr z = c' → x_mode z = Supervisor → okm' (x_mem z) → x_pc z = x_reg y RA → x_reg z SP = x_reg y SP →
      (∀ r, r ∈ callee_saved → x_reg z r = x_reg y r) → (∀ a, pa ≤ a < pa + 256 → ldb (x_mem z) a = ldb (x_mem y) a) →
      ∃ w, run (kernelvec_code handler) base 19 z = Some w ∧ x_pc w = c' SEPC ∧
        x_mode w = (if Z.testbit (c' SSTATUS) 8 then Supervisor else User) ∧ x_mem w = x_mem z ∧ x_reg w TP = x_reg z TP ∧
        ∀ r, r ≠ TP → r ≠ ZERO → x_reg w r = x_reg x r.
Proof.
  intros x1 Hip Hw Hm Hv Hr Hsp. destruct (take_trap_fields cause tval x) as (Em & Er & Emd & Epc & _ & Eepc & _ & _). fold x1 in Em, Er, Emd, Epc, Eepc.
  pose proof (Hr SP ltac:(done)) as Hspb. set (bv := x_reg x SP - 256) in *.
  destruct (kernelvec_enter base handler (x_csr x1) okm bv pa x1 Hip Hw) as (y & E & Ypc & Yr & Ym & Yc & Ymd).
  { split; [done|done|by rewrite Em|rewrite Epc, Hv; unfold csize; cbn; lia]. } { rewrite Er. apply u64_small. lia. }
  rewrite Er, Em in *. assert (bv < 2 ^ 64 ∧ 0 ≤ bv) as Hbv by lia.
  exists y. split; [done|]. split; [done|]. split; [by rewrite Yc|]. split.
  { intros a Ha. rewrite Ym. apply save_ldb. intros r off Hin. pose proof (interrupt_saves_range r off Hin). lia. }
  intros c' okm' z Hip' Hw' Zc Zmd Zm Zpc Zsp Zcs Zmem.
  destruct (kernelvec_leave base handler c' okm' bv pa z Hip' Hw') as (w & E' & Wpc & Wmd & Wm & Wr).
  { split; [done|done|done|by rewrite Zpc, Yr]. } { by rewrite Zsp, Yr. }
  exists w. split_and!; [done|done|done|done|rewrite Wr, fn_lookup_insert_ne by done; apply load_regs_out; apply (bool_decide_unpack _); by vm_compute|].
  intros r Htp Hz. rewrite Wr. destruct (register_kept r) as [->|[->|[->|[Hc|[off Hin]]]]]; [done| |done| |].
  - rewrite fn_lookup_insert. unfold bv. rewrite u64_small; lia.
  - assert (r ≠ SP ∧ r ≠ RA ∧ r ∉ interrupt_loads.*1) as (H1 & H2 & H3).
    { revert Hc. clear. intros Hc. destruct r; try (by (exfalso; revert Hc; apply (bool_decide_unpack _); vm_compute)); split_and!;
        apply (bool_decide_unpack _); by vm_compute. }
    rewrite fn_lookup_insert_ne, load_regs_out, Zcs, Yr by done. by rewrite !fn_lookup_insert_ne by done.
  - destruct (interrupt_loads_saved r off Hin) as [Hin' Hsp'].
    rewrite fn_lookup_insert_ne, (load_regs_in _ _ interrupt_loads _ r off) by (done || apply interrupt_slots_good).
    assert (load64 (x_mem y) (pa + off) = x_reg x r) as <-.
    { rewrite Ym, (save_load _ _ _ _ r off); [by rewrite fn_lookup_insert_ne by done|apply interrupt_slots_good|done|].
      rewrite fn_lookup_insert_ne by done. by apply Hr. }
    apply ldn_ext. intros b Hb. apply Zmem. pose proof (interrupt_saves_range r off Hin'). lia.
Qed.

(** The first instructions of a hart. *)
Lemma entry_stack `{Asm} base stack0 start x :
  csize (entry_code stack0 start) ≤ PGSIZE → 0 ≤ base → base + PGSIZE < 2 ^ 64 → x_mode x = Machine → x_pc x = base →
  0 ≤ stack0 → 0 ≤ x_csr x MHARTID → stack0 + 4096 * (x_csr x MHARTID + 1) < 2 ^ 64 →
  ∃ y, run (entry_code stack0 start) base 7 x = Some y ∧ x_pc y = start ∧ x_mode y = Machine ∧
    x_reg y SP = stack0 + 4096 * (x_csr x MHARTID + 1) ∧ x_mem y = x_mem x ∧ x_csr y = x_csr x.
Proof.
  intros Hf Hb0 Hb Hmd Hpc Hs0 Hh Hmax. set (code := entry_code stack0 start). set (h := x_csr x MHARTID) in *.
  assert (in_page code base base (x_csr x) Machine (λ _, True)) as Hip by (split; [done|done|intros m k _ _; done]).
  assert (at_code base (x_csr x) Machine (λ _, True) [] x) as H0' by (split; [done|done|done|rewrite Hpc; unfold csize; cbn; lia]).
  destruct (run_setr _ _ _ _ _ _ Hip [] (La SP stack0) (drop 1 code) 6 x SP stack0) as (x1 & E1 & H1' & ->); [done..|].
  destruct (run_setr _ _ _ _ _ _ Hip (take 1 code) (Li A0 (1024 * 4)) (drop 2 code) 5 x1 A0 (1024 * 4)) as (x2 & E2 & H2' & ->); [done..|].
  destruct (run_setr _ _ _ _ _ _ Hip (take 2 code) (Csrr A1 MHARTID) (drop 3 code) 4 x2 A1 (x_csr x2 MHARTID)) as (x3 & E3 & H3' & ->); [done..|].
  destruct (run_setr _ _ _ _ _ _ Hip (take 3 code) (Addi A1 A1 1) (drop 4 code) 3 x3 A1 (x_reg x3 A1 + 1)) as (x4 & E4 & H4' & ->); [done..|].
  destruct (run_setr _ _ _ _ _ _ Hip (take 4 code) (MulReg A0 A0 A1) (drop 5 code) 2 x4 A0 (x_reg x4 A0 * x_reg x4 A1)) as (x5 & E5 & H5' & ->); [done..|].
  destruct (run_setr _ _ _ _ _ _ Hip (take 5 code) (AddReg SP SP A0) (drop 6 code) 1 x5 SP (x_reg x5 SP + x_reg x5 A0)) as (x6 & E6 & H6' & ->); [done..|].
  cbn [run]. rewrite (step_at _ _ _ _ _ _ Hip (take 6 code) (Call start) [] x6) by done. cbn [exec mbind option_bind].
  eexists. split; [reflexivity|]. unfold setr. rsimpl. rewrite (ac_mode _ _ _ _ _ _ H6'). split_and!; [done|done| |by rewrite E6, E5, E4, E3, E2, E1; rsimpl|by apply H6'].
  assert (x_csr x2 MHARTID = h) as Eh by (by rewrite (ac_csr _ _ _ _ _ _ H2')).
  rewrite E6, E5, E4, E3. rsimpl. rewrite Eh, E2, E1. rsimpl.
  change (u64 (u64 stack0 + u64 (u64 4096 * u64 (u64 h + 1))) = stack0 + 4096 * (h + 1)).
  rewrite (u64_small h), (u64_small (h + 1)), (u64_small 4096), (u64_small (4096 * (h + 1))), (u64_small stack0), u64_small by lia. done.
Qed.

(** ** Witnesses *)

Section Witnesses.
Local Existing Instance qemu_layout.
Local Existing Instance qemu_layout_ok.
#[local] Instance asm_wakeups : Wakeups := 0%nat.
#[local] Instance asm_disk : BlockDev := ram_disk.

(** Four bytes an instruction; paging off, so that the kernel sees physical addresses. *)
#[local] Instance four_bytes : Asm := { isize _ := 4; isize_pos _ := eq_refl }.
Definition bare : csr → Z := λ _, 0.
Definition always (_ : memory) : Prop := True.

Lemma bare_translate m c a va : c SATP = 0 → translate m c Supervisor a va = Some va.
Proof. intros Hs. unfold translate. by rewrite Hs. Qed.

Lemma bare_page code base c :
  c SATP = 0 → csize code ≤ PGSIZE → 0 ≤ base → base + PGSIZE < 2 ^ 64 → in_page code base base c Supervisor always.
Proof. intros Hs Hf Hb Hm. split; [done|done|]. intros. by apply bare_translate. Qed.

Lemma bare_window c n a :
  c SATP = 0 → a mod 8 = 0 → KERNBASE ≤ a → a + 8 * n ≤ PHYSTOP → window c always ((λ k, 8 * k) <$> seqZ 0 n) a a.
Proof.
  intros Hs H8 Hk Hp. split; [intros; by apply bare_translate| |done]. intros off (k & -> & Hr%elem_of_seqZ)%list_elem_of_fmap.
  assert ((a + 8 * k) mod 8 = 0) as -> by (rewrite (Z.mul_comm 8), Z.mod_add by done; done).
  unfold phys_ok, KERNBASE, PHYSTOP, KERNBASE in *. split_and!; [lia|done|lia|lia].
Qed.

Definition thread (old new : Z) (ra : Z) (m : memory) : machine :=
  mkMachine (<[A0 := old]> (<[A1 := new]> (<[RA := ra]> (λ _, 5)))) bare Supervisor 0x80001000 m.

Lemma thread_at old new ra m : at_code 0x80001000 bare Supervisor always [] (thread old new ra m).
Proof. split; [reflexivity|reflexivity|exact I|by vm_compute]. Qed.

Lemma swtch_page : in_page swtch_code 0x80001000 0x80001000 bare Supervisor always.
Proof. apply bare_page; by vm_compute. Qed.

Lemma context_bare a : a mod 8 = 0 → KERNBASE ≤ a → a + 112 ≤ PHYSTOP → context_at bare always a.
Proof. intros. by apply (bare_window bare 14). Qed.

Lemma swtch_resumes_witness :
  ∃ y w, run swtch_code 0x80001000 (length swtch_code) (thread 0x80010000 0x80010100 77 ∅) = Some y ∧
    run swtch_code 0x80001000 (length swtch_code) (thread 0x80010200 0x80010000 88 (x_mem y)) = Some w ∧ x_pc w = 77 ∧ x_reg w S3 = 5.
Proof.
  assert (context_at bare always 0x80010000 ∧ context_at bare always 0x80010100 ∧ context_at bare always 0x80010200) as (C1 & C2 & C3)
    by (split_and!; apply context_bare; by vm_compute).
  pose proof (thread_at 0x80010000 0x80010100 77 ∅) as T1. assert (regs_ok (thread 0x80010000 0x80010100 77 ∅)) as Hr by (intros []; by vm_compute).
  assert (∃ y, run swtch_code 0x80001000 (length swtch_code) (thread 0x80010000 0x80010100 77 ∅) = Some y) as [y0 E0].
  { eexists. vm_compute. reflexivity. }
  destruct (swtch_resumes 0x80001000 bare always 0x80010000 0x80010100 (thread 0x80010000 0x80010100 77 ∅) bare always 0x80010200
    (thread 0x80010200 0x80010000 88 (x_mem y0)) swtch_page swtch_page C1 C2 ltac:(left; by vm_compute) T1 eq_refl eq_refl Hr
    C3 C1 ltac:(right; by vm_compute) (thread_at _ _ _ _) eq_refl eq_refl) as (y & E & _ & _ & Hw).
  assert (y = y0) as -> by congruence. destruct Hw as (w & Ew & Hpc & Hregs); [intros; reflexivity|].
  exists y0, w. split; [exact E|]. split; [exact Ew|]. split; [exact Hpc|].
  rewrite (Hregs S3 40); [reflexivity|]. apply (bool_decide_unpack _). by vm_compute.
Defined.

(** A kernel thread interrupted at address 99, and the state a handler that
    changes the caller-saved registers and [tp] returns in. *)
Definition interrupted : machine :=
  mkMachine (<[SP := 0x80020100]> (<[A3 := 33]> (λ _, 5))) (<[STVEC := 0x80001000]> bare) Supervisor 99 ∅.
Definition handled (y : machine) : machine :=
  mkMachine (<[A3 := 0]> (<[TP := 1]> (x_reg y))) (x_csr y) Supervisor (x_reg y RA) (x_mem y).

Lemma handled_saved y r : r ∈ callee_saved → x_reg (handled y) r = x_reg y r.
Proof. intros Hi. unfold handled. cbn [x_reg]. rewrite !fn_lookup_insert_ne; [done|intros <-; revert Hi; apply (bool_decide_unpack _); by vm_compute..]. Qed.

Lemma kernelvec_transparent_witness :
  ∃ y w, run (kernelvec_code 0x80002000) 0x80001000 20 (take_trap 9 0 interrupted) = Some y ∧ x_pc y = 0x80002000 ∧
    run (kernelvec_code 0x80002000) 0x80001000 19 (handled y) = Some w ∧ x_pc w = 99 ∧ x_reg w A3 = 33 ∧ x_reg w SP = 0x80020100 ∧ x_reg w TP = 1.
Proof.
  assert (regs_ok interrupted) as Hr by (intros []; by vm_compute).
  assert (∃ y, run (kernelvec_code 0x80002000) 0x80001000 20 (take_trap 9 0 interrupted) = Some y ∧ x_csr y SATP = 0 ∧ x_csr y SEPC = 99 ∧ x_reg y SP = 0x80020000) as (y0 & E0 & S0' & P0 & R0).
  { eexists. split; [vm_compute; reflexivity|]. vm_compute. auto. }
  assert (∀ c, c SATP = 0 → window c always stack_offs (x_reg interrupted SP - 256) 0x80020000) as W.
  { intros c Hc. assert (x_reg interrupted SP - 256 = 0x80020000) as -> by by vm_compute. by apply (bare_window c 32). }
  destruct (kernelvec_transparent 0x80001000 0x80002000 9 0 interrupted always 0x80020000) as (y & E & Hpc & _ & _ & Hz).
  { apply bare_page; by vm_compute. }
  { apply W. by vm_compute. }
  { exact I. }
  { by vm_compute. }
  { exact Hr. }
  { by vm_compute. }
  assert (y = y0) as -> by congruence.
  destruct (Hz (x_csr y0) always (handled y0)) as (w & Ew & Wpc & _ & _ & Wtp & Wr);
    [apply bare_page; [exact S0'|by vm_compute..]|apply W; exact S0'|reflexivity|reflexivity|exact I|reflexivity|reflexivity| |reflexivity|].
  { exact (handled_saved y0). }
  exists y0, w. split; [exact E|]. split; [exact Hpc|]. split; [exact Ew|]. split; [exact (eq_trans Wpc P0)|].
  split; [exact (Wr A3 ltac:(discriminate) ltac:(discriminate))|]. split; [exact (Wr SP ltac:(discriminate) ltac:(discriminate))|exact Wtp].
Defined.

(** The child of [fork_state]; its page table serves as the kernel's too. *)
Lemma fork_runs : match kfork fork_state with Ok r _ => r =? 2 | _ => false end = true.
Proof. by vm_compute. Qed.

Lemma child_made : ∃ i q tf root T' fl' name s',
  forked fork_state 0 fork_parent (empty_as demo_root) fork_pages 0 (inode0 <| i_ref := 1 |>) i q tf root T' fl' name s'.
Proof.
  destruct (kfork_ok fork_state 0 fork_parent (empty_as demo_root) fork_pages 0 _ fork_state_ok) as (r & s' & E & Hc).
  pose proof fork_runs as Hr. rewrite E in Hr. apply Z.eqb_eq in Hr. subst r. destruct Hc as [[Hc _]|(_ & i & q & tf & root & T' & fl' & name & HF)]; [discriminate Hc|].
  exists i, q, tf, root, T', fl', name, s'. exact HF.
Qed.

Lemma child_tables : ∃ m root T tf, both root T tf root T m.
Proof.
  destruct child_made as (i & q & tf & root & T' & fl' & name & s' & HF). exists (ram s'), root, T', tf.
  destruct HF as [_ _ _ Htw _ [Hl1 Hl2] _ _ [Hp Hno] _ _]. clear - Htw Hl1 Hl2 Hp Hno.
  assert (¬ is_table T' tf) as Ht by (intros Ht; apply Hno; left; by left).
  split; (split; [apply Htw|..]); done.
Qed.

Lemma tramp_fits_four : csize tramp_code ≤ PGSIZE.
Proof. by vm_compute. Qed.

(** A process that makes a system call. *)
Definition caller (root : Z) (m : memory) : machine :=
  mkMachine (<[A7 := 22]> (λ _, 7)) (<[SATP := MAKE_SATP root]> (<[STVEC := TRAMPOLINE]> bare)) User 4096 m.
Definition kernel_return (root : Z) (m : memory) : machine :=
  mkMachine (<[A0 := MAKE_SATP root]> (λ _, 7)) (<[SATP := MAKE_SATP root]> (<[SEPC := 4100]> bare)) Supervisor (TRAMPOLINE + csize uservec_code) m.

Lemma caller_regs root m : regs_ok (caller root m).
Proof. intros []; by vm_compute. Qed.

Lemma trap_roundtrip_witness :
  ∃ root m tf y, run tramp_code trampoline (length uservec_code) (take_trap 8 0 (caller root m)) = Some y ∧
    x_csr y SCAUSE = 8 ∧ load64 (x_mem y) (tf + 168) = 22.
Proof.
  destruct child_tables as (m & root & T & tf & Hb).
  assert (0 ∈ frame_offs) as H0' by (apply (bool_decide_unpack _); by vm_compute).
  set (m1 := store64 m (tf + 0) (MAKE_SATP root)). pose proof (both_store root T tf root T m 0 (MAKE_SATP root) Hb H0') as Hb1.
  assert (load64 m1 (tf + TF_KERNEL_SATP) = MAKE_SATP root) as Hl.
  { unfold m1. change (tf + TF_KERNEL_SATP) with (tf + 0). rewrite ldn_stn_eq. apply Z.mod_small, satp_range, page_ok_bound, (rep_root_ok _ _ _ (ut_rep _ _ _ _ (proj1 Hb))). }
  destruct (trap_roundtrip tramp_fits_four 8 0 (caller root m1) root T tf root T Hb1 (caller_regs root m1) eq_refl eq_refl Hl)
    as (y & E & _ & _ & _ & _ & _ & _ & Hc & _ & Hr & _).
  exists root, m1, tf, y. split; [exact E|]. split; [exact Hc|]. rewrite (Hr A7 168); [reflexivity|apply (bool_decide_unpack _); by vm_compute].
Defined.


End Witnesses.
