(* ===== verification/Start.v ===== *)
(** * Machine mode ([start.c] and the accessors of [riscv.h])

    A hart comes out of [entry.S] in machine mode on its own stack; [start]
    gives supervisor mode the memory, the timer and every trap, and enters
    [main] with [mret].  The registers are those of [Machine.v]; [sie] is the
    part of [mie] that [mideleg] delegates, and a hart may implement fewer
    delegation bits than it is asked for ([Hart]). *)

From Stdlib Require Import ZArith Lia.
From S2P Require Import Prelude Params CString State Kalloc Process Vm VmRep VmMap Uvm Copy Space Bytes Sleeplock Bio BioRep Cache Log Fs Console File Lifecycle Freewalk Fork Machine Asm.
From stdpp Require Import base gmap strings numbers functions list.

Open Scope Z_scope.

Definition MSTATUS_MPP_MASK : Z := Z.shiftl 3 11.
Definition MSTATUS_MPP_S : Z := Z.shiftl 1 11.
Definition SIE_SEIE : Z := Z.shiftl 1 9.
Definition SIE_STIE : Z := Z.shiftl 1 5.
Definition MIE_STIE : Z := Z.shiftl 1 5.

(** The delegation bits a hart implements: at least the supervisor's timer and
    external interrupts, and system calls and page faults from user mode. *)
Class Hart := {
  mideleg_bits : Z;
  medeleg_bits : Z
}.
Class HartOk `{Hart} : Prop := {
  interrupts_delegable i : i = 5 ∨ i = 9 → Z.testbit mideleg_bits i = true;
  exceptions_delegable i : i = 8 ∨ i = 12 ∨ i = 13 ∨ i = 15 → Z.testbit medeleg_bits i = true
}.

Section Start.
Context `{Hart}.

(** [csrr] and [csrw] *)
Definition csrr (c : csr) (x : machine) : Z :=
  match c with
  | SIE => Z.land (x_csr x MIE) (x_csr x MIDELEG)
  | _ => x_csr x c
  end.
Definition csrw (c : csr) (v : Z) (x : machine) : machine :=
  x <| x_csr ::= λ f,
    match c with
    | SIE => <[MIE := Z.lor (Z.land (f MIE) (Z.lnot (f MIDELEG))) (Z.land v (f MIDELEG))]> f
    | MIDELEG => <[MIDELEG := Z.land v mideleg_bits]> f
    | MEDELEG => <[MEDELEG := Z.land v medeleg_bits]> f
    | _ => <[c := v]> f
    end |>.

(** [mret]: MPP, MPIE and MIE of [mstatus]. *)
Definition mpp (m : Z) : mode :=
  if Z.testbit m 11 then (if Z.testbit m 12 then Machine else Supervisor) else User.
Definition mret_status (m : Z) : Z :=
  let m := if Z.testbit m 7 then Z.setbit m 3 else Z.clearbit m 3 in
  Z.clearbit (Z.clearbit (Z.setbit m 7) 11) 12.
Definition mret (x : machine) : machine :=
  let m := x_csr x MSTATUS in
  x <| x_pc := x_csr x MEPC |> <| x_mode := mpp m |> <| x_csr ::= <[MSTATUS := mret_status m]> |>.

Definition timerinit (x : machine) : machine :=
  let x := csrw MIE (Z.lor (csrr MIE x) MIE_STIE) x in
  let x := csrw MENVCFG (Z.lor (csrr MENVCFG x) (Z.shiftl 1 63)) x in
  let x := csrw MCOUNTEREN (Z.lor (csrr MCOUNTEREN x) 2) x in
  csrw STIMECMP (u64 (csrr TIME x + 1000000)) x.

Definition start (main : Z) (x : machine) : machine :=
  let m := csrr MSTATUS x in
  let m := Z.land m (Z.lnot MSTATUS_MPP_MASK) in
  let m := Z.lor m MSTATUS_MPP_S in
  let x := csrw MSTATUS m x in
  let x := csrw MEPC main x in
  let x := csrw SATP 0 x in
  let x := csrw MEDELEG 0xffff x in
  let x := csrw MIDELEG 0xffff x in
  let x := csrw SIE (Z.lor (Z.lor (csrr SIE x) SIE_SEIE) SIE_STIE) x in
  let x := csrw PMPADDR0 0x3fffffffffffff x in
  let x := csrw PMPCFG0 0xf x in
  let x := timerinit x in
  let id := s32 (csrr MHARTID x) in
  let x := setr TP id x in
  mret x.

(** ** What the registers mean *)

(** Entry 0 of the physical memory protection, the only one in use: bits 3 and 4
    of the configuration choose addresses below [pmpaddr0 * 4], the low bits what
    supervisor and user mode may do there. *)
Definition pmp_allows (c : csr → Z) (md : mode) (a : access) (pa : Z) : bool :=
  match md with
  | Machine => true
  | _ => (Z.land (Z.shiftr (c PMPCFG0) 3) 3 =? 1) && (pa <? 4 * c PMPADDR0) &&
         Z.testbit (c PMPCFG0) (match a with Load => 0 | Store => 1 | Fetch => 2 end)
  end.

(** Whether a trap goes to supervisor mode. *)
Definition delegated (interrupt : bool) (cause : Z) (c : csr → Z) (md : mode) : bool :=
  negb (bool_decide (md = Machine)) && Z.testbit (if interrupt then c MIDELEG else c MEDELEG) cause.

(** A pending interrupt of the supervisor is taken in user mode, and in
    supervisor mode if SIE of [sstatus] is set. *)
Definition interrupt_taken (i : Z) (x : machine) : bool :=
  Z.testbit (csrr SIE x) i &&
  match x_mode x with
  | User => true
  | Supervisor => Z.testbit (x_csr x SSTATUS) 1
  | Machine => false
  end.

End Start.

(** ** From reset to [main] *)

Section Facts.
Context `{Hart, !HartOk}.

Lemma mpp_supervisor m : mpp (Z.lor (Z.land m (Z.lnot MSTATUS_MPP_MASK)) MSTATUS_MPP_S) = Supervisor.
Proof.
  unfold mpp. rewrite !Z.lor_spec, !Z.land_spec, !Z.lnot_spec by done.
  change (Z.testbit MSTATUS_MPP_S 11) with true. change (Z.testbit MSTATUS_MPP_S 12) with false.
  change (Z.testbit MSTATUS_MPP_MASK 12) with true. by rewrite orb_true_r, andb_false_r.
Qed.

(** [x] with other CSRs. *)
Definition with_csr (c : csr → Z) (x : machine) : machine := x <| x_csr := c |>.

Lemma csrw_plain c v x : c ≠ SIE → c ≠ MIDELEG → c ≠ MEDELEG → csrw c v x = with_csr (<[c := v]> (x_csr x)) x.
Proof. intros. unfold csrw, with_csr. by destruct c. Qed.

Lemma timerinit_run x :
  let c := x_csr x in
  timerinit x = with_csr (<[STIMECMP := u64 (c TIME + 1000000)]> (<[MCOUNTEREN := Z.lor (c MCOUNTEREN) 2]>
    (<[MENVCFG := Z.lor (c MENVCFG) (Z.shiftl 1 63)]> (<[MIE := Z.lor (c MIE) MIE_STIE]> c)))) x.
Proof. intros c. unfold timerinit, csrr. rewrite !csrw_plain by done. unfold with_csr. machine_eq. Qed.

(** [start] up to [timerinit], with the [mstatus] it writes. *)
Definition prepared (main m : Z) (c : csr → Z) : csr → Z :=
  let d := Z.land 0xffff mideleg_bits in
  <[PMPCFG0 := 0xf]> (<[PMPADDR0 := 0x3fffffffffffff]> (<[MIE := Z.lor (Z.land (c MIE) (Z.lnot d))
      (Z.land (Z.lor (Z.lor (Z.land (c MIE) d) SIE_SEIE) SIE_STIE) d)]>
    (<[MIDELEG := d]> (<[MEDELEG := Z.land 0xffff medeleg_bits]> (<[SATP := 0]> (<[MEPC := main]> (<[MSTATUS := m]> c))))))).

Lemma start_run main x :
  let m := Z.lor (Z.land (x_csr x MSTATUS) (Z.lnot MSTATUS_MPP_MASK)) MSTATUS_MPP_S in
  start main x = mret (setr TP (s32 (x_csr x MHARTID)) (timerinit (with_csr (prepared main m (x_csr x)) x))).
Proof.
  intros m. unfold start. cbv zeta. match goal with |- mret (setr TP _ (timerinit ?y)) = _ => assert (y = with_csr (prepared main m (x_csr x)) x) as Ey end.
  { unfold csrr. rewrite (csrw_plain PMPCFG0), (csrw_plain PMPADDR0), (csrw_plain SATP), (csrw_plain MEPC), (csrw_plain MSTATUS) by done.
    unfold csrw, with_csr, prepared. machine_eq. }
  rewrite Ey. do 2 f_equal.
Qed.

(** The CSRs [start] leaves, [mie] aside. *)
Lemma start_csrs main x :
  let y := start main x in let c := x_csr y in
  c SATP = 0 ∧ c PMPADDR0 = 0x3fffffffffffff ∧ c PMPCFG0 = 0xf ∧ c STIMECMP = u64 (x_csr x TIME + 1000000) ∧
  c MEDELEG = Z.land 0xffff medeleg_bits ∧ c MIDELEG = Z.land 0xffff mideleg_bits ∧
  c MENVCFG = Z.lor (x_csr x MENVCFG) (Z.shiftl 1 63) ∧ c MCOUNTEREN = Z.lor (x_csr x MCOUNTEREN) 2 ∧
  x_mode y = Supervisor ∧ x_pc y = main ∧ x_mem y = x_mem x ∧
  x_reg y = <[TP := u64 (s32 (x_csr x MHARTID))]> (x_reg x) ∧ c SSTATUS = x_csr x SSTATUS.
Proof.
  intros y c. unfold c, y. rewrite start_run, timerinit_run. unfold mret, setr, with_csr. rsimpl.
  split_and!; try reflexivity. rewrite !fn_lookup_insert_ne by done. unfold prepared. rewrite !fn_lookup_insert_ne, fn_lookup_insert by done.
  apply mpp_supervisor.
Qed.

(** Both interrupts the kernel serves are enabled. *)
Lemma start_sie main x i : i = 5 ∨ i = 9 → Z.testbit (csrr SIE (start main x)) i = true.
Proof.
  intros Hi. pose proof (interrupts_delegable i Hi) as Hd. destruct (start_csrs main x) as (_ & _ & _ & _ & _ & Em & _).
  cbn [csrr]. rewrite Em, start_run, timerinit_run. unfold mret, setr, with_csr. rsimpl.
  rewrite !fn_lookup_insert_ne by done. rewrite fn_lookup_insert. unfold prepared. rewrite !fn_lookup_insert_ne, fn_lookup_insert by done.
  rewrite !Z.land_spec, !Z.lor_spec, !Z.land_spec, !Z.lor_spec, !Z.land_spec, Hd.
  destruct Hi as [-> | ->]; cbn -[Z.testbit]; change (Z.testbit SIE_SEIE 9) with true; change (Z.testbit SIE_STIE 5) with true;
    change (Z.testbit 65535 5) with true; change (Z.testbit 65535 9) with true; by rewrite ?andb_true_r, ?orb_true_r.
Qed.

End Facts.

(** C26: From reset to [main]: hart [h] runs [entry.S] and [start] and arrives in
    [main] in supervisor mode on the [h]-th stack, its number in [tp], paging
    off.  Supervisor and user mode may use all of physical memory, the timer and
    device interrupts and the traps the kernel handles come to supervisor mode,
    and the first timer interrupt is asked for. *)
Theorem hart_boots `{Asm, Hart, !HartOk} base stack0 start_addr main x h :
  csize (entry_code stack0 start_addr) ≤ PGSIZE → 0 ≤ base → base + PGSIZE < 2 ^ 64 → x_mode x = Machine → x_pc x = base →
  0 ≤ stack0 → x_csr x MHARTID = h → 0 ≤ h < Z.of_nat NCPU → stack0 + 4096 * Z.of_nat NCPU < 2 ^ 64 → 0 ≤ x_csr x TIME < 2 ^ 63 →
  ∃ y, run (entry_code stack0 start_addr) base 7 x = Some y ∧ x_pc y = start_addr ∧
    let z := start main y in
    x_mode z = Supervisor ∧ x_pc z = main ∧ x_mem z = x_mem x ∧ x_reg z TP = h ∧
    x_reg z SP = stack0 + 4096 * (h + 1) ∧
    (∀ m a va, translate m (x_csr z) Supervisor a va = Some va) ∧
    (∀ md a pa, pa < 2 ^ 56 - 4 → pmp_allows (x_csr z) md a pa = true) ∧
    (∀ i, i = 5 ∨ i = 9 → delegated true i (x_csr z) User = true ∧ delegated true i (x_csr z) Supervisor = true ∧
      interrupt_taken i (z <| x_mode := User |>) = true) ∧
    (∀ i, i = 8 ∨ i = 12 ∨ i = 13 ∨ i = 15 → delegated false i (x_csr z) User = true) ∧
    x_csr z STIMECMP = x_csr x TIME + 1000000 ∧ Z.testbit (x_csr z MENVCFG) 63 = true ∧ Z.testbit (x_csr z MCOUNTEREN) 1 = true.
Proof.
  intros Hf Hb0 Hb Hmd Hpc Hs0 Eh Hh Hmax Htime. change (Z.of_nat NCPU) with 8 in *.
  destruct (entry_stack base stack0 start_addr x) as (y & Er & Epc & _ & Esp & Em & Ec); [done|done|done|done|done|done|lia|lia|].
  exists y. split; [done|]. split; [done|]. intros z. pose proof (start_sie main y) as Hsie.
  destruct (start_csrs main y) as (C1 & C2 & C3 & C4 & C5 & C6 & C7 & C8 & Cm & Cp & Cme & Cr & _). fold z in C1, C2, C3, C4, C5, C6, C7, C8, Cm, Cp, Cme, Cr, Hsie.
  assert (∀ i, i = 5 ∨ i = 9 → Z.testbit (x_csr z MIDELEG) i = true) as Hdi.
  { intros i Hi. rewrite C6, Z.land_spec, (interrupts_delegable i Hi). by destruct Hi as [-> | ->]. }
  assert (∀ i, i = 8 ∨ i = 12 ∨ i = 13 ∨ i = 15 → Z.testbit (x_csr z MEDELEG) i = true) as Hde.
  { intros i Hi. rewrite C5, Z.land_spec, (exceptions_delegable i Hi). by destruct Hi as [-> |[-> |[-> | ->]]]. }
  split_and!; [done|done|congruence| | | | | | | | |].
  - rewrite Cr, fn_lookup_insert, Ec, Eh. rewrite s32_small by lia. by rewrite u64_small by lia.
  - rewrite Cr, fn_lookup_insert_ne by done. by rewrite Esp, Eh.
  - intros m a va. unfold translate. by rewrite C1.
  - intros [] a pa Hpa; [| |done]; unfold pmp_allows; rewrite C2, C3; apply andb_true_iff; (split; [apply andb_true_iff; split; [done|lia]|by destruct a]).
  - intros i Hi. unfold delegated, interrupt_taken. rewrite (Hdi i Hi). split_and!; [done|done|]. cbn [csrr] in Hsie |- *. rsimpl. by rewrite (Hsie i Hi).
  - intros i Hi. unfold delegated. by rewrite (Hde i Hi).
  - rewrite C4, Ec, u64_small by lia. done.
  - rewrite C7, Z.lor_spec. change (Z.testbit (Z.shiftl 1 63) 63) with true. by rewrite orb_true_r.
  - rewrite C8, Z.lor_spec. change (Z.testbit 2 1) with true. by rewrite orb_true_r.
Qed.

Section Witnesses.
#[local] Instance word_size : Asm := { isize _ := 4; isize_pos _ := eq_refl }.
#[local] Instance full_hart : Hart := { mideleg_bits := 0x222; medeleg_bits := 0xb3ff }.
#[local] Instance full_hart_ok : HartOk.
Proof. split; [intros i [-> | ->]|intros i [-> |[-> |[-> | ->]]]]; by vm_compute. Qed.

(** Hart 3 at reset. *)
Definition reset_hart : machine := mkMachine (λ _, 0) (<[MHARTID := 3]> (λ _, 0)) Machine 0x80000000 ∅.

Lemma hart_boots_witness :
  ∃ y, run (entry_code 0x8000a000 0x80000100) 0x80000000 7 reset_hart = Some y ∧
    x_reg (start 0x80000200 y) SP = 0x8000e000 ∧ x_reg (start 0x80000200 y) TP = 3.
Proof.
  destruct (hart_boots 0x80000000 0x8000a000 0x80000100 0x80000200 reset_hart 3) as (y & E & _ & _ & _ & _ & Ht & Hs & _);
    [by vm_compute|by vm_compute|by vm_compute|reflexivity|reflexivity|by vm_compute|reflexivity|by vm_compute|by vm_compute|by vm_compute|].
  exists y. split; [exact E|]. split; [exact Hs|exact Ht].
Defined.

End Witnesses.
