(* ===== verification/Exec.v ===== *)
(** * The exec system call ([kernel/exec.c])

    An argument vector is the list of the strings it points to, each with its
    NUL. *)

From Stdlib Require Import ZArith Lia.
From S2P Require Import Prelude Params CString State Kalloc Process Vm Bytes Sleeplock Bio Log Fs Dir Pipe Console File Lifecycle.
From stdpp Require Import base gmap strings numbers list.

Open Scope Z_scope.

Abbreviation get64 := (bget_n 8).

Definition ELF_MAGIC : Z := 0x464C457F.
Definition ELF_PROG_LOAD : Z := 1.
Definition ELFHDR_SIZE : Z := 64.
Definition PROGHDR_SIZE : Z := 56.

(** The fields used of a [struct elfhdr] and a [struct proghdr]. *)
Definition elf_magic (d : list Z) : Z := get32 d 0.
Definition elf_entry (d : list Z) : Z := get64 d 24.
Definition elf_phoff (d : list Z) : Z := get64 d 32.
Definition elf_phnum (d : list Z) : Z := get16 d 56.
Record proghdr : Type := mkPh {
  ph_type : Z; ph_flags : Z; ph_off : Z; ph_vaddr : Z; ph_filesz : Z; ph_memsz : Z
}.
Definition proghdr_of (d : list Z) : proghdr :=
  mkPh (get32 d 0) (get32 d 4) (get64 d 8) (get64 d 16) (get64 d 32) (get64 d 40).

Definition flags2perm (flags : Z) : Z :=
  let perm := if negb (Z.land flags 0x1 =? 0) then PTE_X else 0 in
  if negb (Z.land flags 0x2 =? 0) then Z.lor perm PTE_W else perm.

(** The part of the path after its last slash. *)
Fixpoint last_elem (path last : list Z) : list Z :=
  match path with
  | [] => last
  | c :: path' => if c =? 0 then last else last_elem path' (if c =? SLASH then path' else last)
  end.

Section Exec.
Context `{Layout, Wakeups, BlockDev}.

Fixpoint loadseg_loop (fuel : nat) (pagetable va : Z) (ip : nat) (offset sz i : Z) : KM Z :=
  if i <? sz then
    match fuel with
    | O => nofuel
    | S fuel' =>
        pa <- walkaddr pagetable (u64 (va + i)) ;;
        if pa =? 0 then panic "loadseg: address should exist"
        else
          let n := if sz - i <? PGSIZE then sz - i else PGSIZE in
          r <- readi ip (ToPhys pa) (u32 (offset + i)) n ;;
          if negb (u32 (fst r) =? n) then ret (-1)
          else loadseg_loop fuel' pagetable va ip offset sz (i + PGSIZE)
    end
  else ret 0.

Definition loadseg (pagetable va : Z) (ip : nat) (offset sz : Z) : KM Z :=
  loadseg_loop (pages_fuel sz) pagetable va ip offset sz 0.

(** The loop over the program headers, [k] of them left; [(false, sz)] for
    [goto bad] with the memory allocated so far. *)
Fixpoint load_segments (k : nat) (pagetable : Z) (ip : nat) (path : list Z) (off sz : Z) : KM (bool * Z) :=
  match k with
  | O => ret (true, sz)
  | S k' =>
      r <- readi ip ToLocal (u32 off) PROGHDR_SIZE ;;
      if negb (fst r =? PROGHDR_SIZE) then
        printk "kexec: readi program header failed for %s" path ;;; ret (false, sz)
      else
        let ph := proghdr_of (snd r) in
        let next := s32 (off + PROGHDR_SIZE) in
        if negb (ph_type ph =? ELF_PROG_LOAD) then load_segments k' pagetable ip path next sz
        else if ph_memsz ph <? ph_filesz ph then
          printk "kexec: ph.memsz < ph.filesz for %s" path ;;; ret (false, sz)
        else if u64 (ph_vaddr ph + ph_memsz ph) <? ph_vaddr ph then ret (false, sz)
        else if negb (ph_vaddr ph mod PGSIZE =? 0) then ret (false, sz)
        else
          sz1 <- uvmalloc pagetable sz (u64 (ph_vaddr ph + ph_memsz ph)) (flags2perm (ph_flags ph)) ;;
          if sz1 =? 0 then printk "kexec: uvmalloc failed for %s" path ;;; ret (false, sz)
          else
            r <- loadseg pagetable (ph_vaddr ph) ip (u32 (ph_off ph)) (u32 (ph_filesz ph)) ;;
            if r <? 0 then printk "kexec: loadseg failed for %s" path ;;; ret (false, sz1)
            else load_segments k' pagetable ip path next sz1
  end.

(** Copies the argument strings below [sp]; the addresses they got, with the
    final [sp], or [None] for [goto bad]. *)
Fixpoint push_args (pagetable stackbase sp : Z) (argv : list (list Z)) (ustack : list Z) : KM (option (Z * list Z)) :=
  match argv with
  | [] => ret (Some (sp, ustack))
  | a :: argv' =>
      if (MAXARG <=? length ustack)%nat then ret None
      else
        len <- in_range (strlen a) ;;
        let sp := u64 (sp - (len + 1)) in
        let sp := u64 (sp - sp mod 16) in
        if sp <? stackbase then ret None
        else
          r <- copyout pagetable sp (take (Z.to_nat (len + 1)) a) ;;
          if r <? 0 then ret None
          else push_args pagetable stackbase sp argv' (ustack ++ [sp])
  end.

Definition kexec_bad (pagetable sz : Z) (ip : option nat) : KM Z :=
  (when negb (pagetable =? 0) do proc_freepagetable pagetable sz) ;;;
  (match ip with Some ip => iunlockput ip ;;; end_op | None => ret tt end) ;;;
  ret (-1).

(** From the end of loading to the switch to the new image. *)
Definition kexec_finish (pagetable sz entry : Z) (path : list Z) (argv : list (list Z)) : KM Z :=
  i <- curproc ;;
  p <- getp i ;;
  let oldsz := p_sz p in
  let sz := PGROUNDUP sz in
  sz1 <- uvmalloc pagetable sz (u64 (sz + (USERSTACK + 1) * PGSIZE)) PTE_W ;;
  if sz1 =? 0 then kexec_bad pagetable sz None
  else
    let sz := sz1 in
    uvmclear pagetable (u64 (sz - (USERSTACK + 1) * PGSIZE)) ;;;
    let stackbase := u64 (sz - USERSTACK * PGSIZE) in
    o <- push_args pagetable stackbase sz argv [] ;;
    match o with
    | None => kexec_bad pagetable sz None
    | Some (sp, ustack) =>
        let argc := Z.of_nat (length ustack) in
        let sp := u64 (sp - (argc + 1) * 8) in
        let sp := u64 (sp - sp mod 16) in
        if sp <? stackbase then kexec_bad pagetable sz None
        else
          r <- copyout pagetable sp (concat (le_encode 8 <$> (ustack ++ [0]))) ;;
          if r <? 0 then kexec_bad pagetable sz None
          else
            st64 (p_trapframe p + TF_A 1) sp ;;;
            name <- in_range (safestrcpy (p_name p) (last_elem path path) 16) ;;
            updp i (λ p, p <| p_name := name |>) ;;;
            updp i (λ p, p <| p_pagetable := pagetable |> <| p_sz := sz |>) ;;;
            st64 (p_trapframe p + TF_EPC) entry ;;;
            st64 (p_trapframe p + TF_SP) sp ;;;
            proc_freepagetable (p_pagetable p) oldsz ;;;
            ret argc
    end.

Definition kexec (path : list Z) (argv : list (list Z)) : KM Z :=
  i <- curproc ;;
  begin_op ;;;
  o <- namei path ;;
  match o with
  | None => printk "kexec: namei(%s) failed" path ;;; end_op ;;; ret (-1)
  | Some ip =>
      ilock ip ;;;
      r <- readi ip ToLocal 0 ELFHDR_SIZE ;;
      let elf := snd r in
      if negb (fst r =? ELFHDR_SIZE) then
        printk "kexec: readi ELF header failed for %s" path ;;; kexec_bad 0 0 (Some ip)
      else if negb (elf_magic elf =? ELF_MAGIC) then
        printk "kexec: ELF magic mismatch for %s: 0x%x" (path ++ [elf_magic elf]) ;;; kexec_bad 0 0 (Some ip)
      else
        pagetable <- proc_pagetable i ;;
        if pagetable =? 0 then printk "kexec: proc_pagetable failed" [] ;;; kexec_bad 0 0 (Some ip)
        else
          r <- load_segments (Z.to_nat (elf_phnum elf)) pagetable ip path (s32 (elf_phoff elf)) 0 ;;
          let '(ok, sz) := r in
          if negb ok then kexec_bad pagetable sz (Some ip)
          else
            iunlockput ip ;;;
            end_op ;;;
            kexec_finish pagetable sz (elf_entry elf) path argv
  end.

End Exec.
