(* ===== verification/Sysarg.v ===== *)
(** * System-call arguments ([kernel/syscall.c])

    Arguments are read from the registers saved in the trap frame. *)

From Stdlib Require Import ZArith Lia.
From S2P Require Import Prelude Params CString State Process Vm Bytes Fs Lifecycle.
From stdpp Require Import base gmap strings numbers list.

Open Scope Z_scope.

Section Sysarg.
Context `{Layout}.

(** The value fetched, or [None] for -1. *)
Definition fetchaddr (addr : Z) : KM (option Z) :=
  i <- curproc ;;
  p <- getp i ;;
  if (addr >=? p_sz p) || (u64 (addr + 8) >? p_sz p) then ret None
  else
    r <- copyin (p_pagetable p) addr 8 ;;
    ret (if negb (fst r =? 0) then None else Some (le_decode (snd r))).

(** The length, or -1, with the bytes stored in the buffer. *)
Definition fetchstr (addr max : Z) : KM (Z * list Z) :=
  i <- curproc ;;
  p <- getp i ;;
  r <- copyinstr (p_pagetable p) addr max ;;
  if fst r <? 0 then ret (-1, snd r)
  else len <- in_range (strlen (snd r)) ;; ret (len, snd r).

Definition argraw (n : Z) : KM Z :=
  i <- curproc ;;
  p <- getp i ;;
  if (0 <=? n) && (n <=? 5) then ld64 (p_trapframe p + TF_A n) else panic "argraw".

Definition argint (n : Z) : KM Z := v <- argraw n ;; ret (s32 v).
Definition argaddr (n : Z) : KM Z := argraw n.
Definition argstr (n max : Z) : KM (Z * list Z) := addr <- argaddr n ;; fetchstr addr max.

End Sysarg.
