(* ===== verification/Sysproc.v ===== *)
(** * System calls on processes ([kernel/sysproc.c]) *)

From Stdlib Require Import ZArith Lia.
From S2P Require Import Prelude Params CString State Kalloc Process Vm Bytes Sleeplock Bio Log Fs Dir Lifecycle Sysarg.
From stdpp Require Import base gmap strings numbers list.

Open Scope Z_scope.

Definition SBRK_EAGER : Z := 1.

(** A [struct proccostinfo]: four padding bytes follow the name. *)
Definition cost_of (p : proc) : Z := u64 (p_cpu_ticks p + 5 * p_disk_writes p).
Definition PROCCOSTINFO_SIZE : Z := 56.
Definition proccostinfo_bytes (name pad : list Z) (p : proc) : list Z :=
  le_encode 4 (p_pid p) ++ name ++ take 4 pad ++ le_encode 8 (p_cpu_ticks p) ++
  le_encode 8 (p_sched_count p) ++ le_encode 8 (p_disk_writes p) ++ le_encode 8 (cost_of p).

(** Whether [sys_proccost] reports a slot. *)
Definition reported (p : proc) : bool := negb (is_state UNUSED p) && negb (is_state USED p).

(** The counts of [sys_getsyshealth]. *)
Fixpoint count_total (l : list proc) : Z :=
  match l with
  | [] => 0
  | p :: l' => if is_state UNUSED p then count_total l' else 1 + count_total l'
  end.
Fixpoint count_running (l : list proc) : Z :=
  match l with
  | [] => 0
  | p :: l' =>
      if is_state UNUSED p then count_running l'
      else (if is_state RUNNING p || is_state RUNNABLE p then 1 else 0) + count_running l'
  end.

Section Sysproc.
Context `{Layout, Wakeups, BlockDev}.

Definition sys_exit : KM Z := n <- argint 0 ;; kexit n ;;; ret 0.
Definition sys_getpid : KM Z := i <- curproc ;; p <- getp i ;; ret (p_pid p).
Definition sys_fork : KM Z := kfork.
Definition sys_wait : KM Z := p <- argaddr 0 ;; kwait p.

Definition sys_sbrk : KM Z :=
  n <- argint 0 ;;
  t <- argint 1 ;;
  i <- curproc ;;
  p <- getp i ;;
  let addr := p_sz p in
  if (t =? SBRK_EAGER) || (n <? 0) then
    r <- growproc n ;;
    ret (if r <? 0 then -1 else addr)
  else if u64 (addr + n) <? addr then ret (-1)
  else if u64 (addr + n) >? TRAPFRAME then ret (-1)
  else updp i (λ p, p <| p_sz := u64 (p_sz p + n) |>) ;;; ret addr.

(** [while(ticks - ticks0 < n)] *)
Fixpoint pause_loop (fuel : nat) (i : nat) (ticks0 n : Z) : KM Z :=
  now <- gets ticks ;;
  if u32 (now - ticks0) <? n then
    k <- killed i ;;
    if negb (k =? 0) then release Lticks ;;; ret (-1)
    else match fuel with
         | O => nofuel
         | S fuel' => sleep ChTicks Lticks ;;; pause_loop fuel' i ticks0 n
         end
  else release Lticks ;;; ret 0.

Definition sys_pause : KM Z :=
  n <- argint 0 ;;
  let n := if n <? 0 then 0 else n in
  acquire Lticks ;;;
  ticks0 <- gets ticks ;;
  i <- curproc ;;
  pause_loop wakeups i ticks0 n.

Definition sys_kill : KM Z := pid <- argint 0 ;; kkill pid.
Definition sys_setpowermode : KM Z := pid <- argint 0 ;; mode <- argint 1 ;; setpowermode_pid pid mode.
Definition sys_setcpulimit : KM Z := pid <- argint 0 ;; limit <- argint 1 ;; setcpulimit_pid pid limit.
Definition sys_getcputicks : KM Z := pid <- argint 0 ;; getcputicks_pid pid.

Definition sys_uptime : KM Z :=
  acquire Lticks ;;;
  xticks <- gets ticks ;;
  release Lticks ;;;
  ret xticks.

(** The walk over the table; [name] is the array of the local [entry], [pad]
    its padding bytes. *)
Fixpoint proccost_loop (l : list nat) (uaddr max count : Z) (name pad : list Z) : KM Z :=
  match l with
  | [] => ret count
  | q :: l' =>
      if count <? max then
        acquire (Lproc q) ;;;
        x <- getp q ;;
        if reported x then
          name' <- in_range (safestrcpy name (p_name x) 16) ;;
          release (Lproc q) ;;;
          i <- curproc ;;
          p <- getp i ;;
          r <- copyout (p_pagetable p) (u64 (uaddr + count * PROCCOSTINFO_SIZE)) (proccostinfo_bytes name' pad x) ;;
          if r <? 0 then ret (-1) else proccost_loop l' uaddr max (count + 1) name' pad
        else release (Lproc q) ;;; proccost_loop l' uaddr max count name pad
      else ret count
  end.

(** [name] and [pad]: the contents of the uninitialised [entry]. *)
Definition sys_proccost (name pad : list Z) : KM Z :=
  uaddr <- argaddr 0 ;;
  max <- argint 1 ;;
  if max <=? 0 then ret (-1) else proccost_loop table uaddr max 0 name pad.

Definition syshealth_bytes (up act idle cs running total free : Z) : list Z :=
  concat (le_encode 4 <$> [up; act; idle; cs; running; total; free]).

Definition sys_getsyshealth : KM Z :=
  addr <- argaddr 0 ;;
  acquire Lticks ;;;
  up <- gets ticks ;;
  act <- gets active_ticks ;;
  idle <- gets idle_ticks ;;
  release Lticks ;;;
  cs <- gets context_switches ;;
  free <- kfreepages ;;
  ps <- gets procs ;;
  i <- curproc ;;
  p <- getp i ;;
  r <- copyout (p_pagetable p) addr
         (syshealth_bytes up act idle cs (count_running ps) (count_total ps) free) ;;
  ret (if r <? 0 then -1 else 0).

Definition sys_setusagelimit : KM Z :=
  pid <- argint 0 ;;
  max <- argint 1 ;;
  r <- for_each table (λ i,
    acquire (Lproc i) ;;;
    p <- getp i ;;
    if p_pid p =? pid then
      updp i (λ p, p <| p_cpu_ticks_limit := if max <? 0 then 0 else max |>) ;;;
      release (Lproc i) ;;;
      ret (Some 0)
    else release (Lproc i) ;;; ret None) ;;
  ret (or_minus1 r).

Definition sys_getusagestats : KM Z :=
  pid <- argint 0 ;;
  addr <- argaddr 1 ;;
  r <- for_each table (λ i,
    acquire (Lproc i) ;;;
    p <- getp i ;;
    if p_pid p =? pid then
      release (Lproc i) ;;;
      r <- either_copyout (ToUser addr) (le_encode 8 (p_cpu_ticks p) ++ le_encode 8 (p_cpu_ticks_limit p)) ;;
      ret (Some (if r <? 0 then -1 else 0))
    else release (Lproc i) ;;; ret None) ;;
  ret (or_minus1 r).

End Sysproc.
