(* ===== verification/Sysfile.v ===== *)
(** * System calls on files ([kernel/sysfile.c]) *)

From Stdlib Require Import ZArith Lia.
From S2P Require Import Prelude Params CString State Kalloc Process Vm Bytes Sleeplock Bio Log Fs Dir Pipe Console File Lifecycle Exec Sysarg.
From stdpp Require Import base gmap strings numbers list.

Open Scope Z_scope.

(** The local array [name[DIRSIZ]]: [skipelem] writes a whole C string (or
    all [DIRSIZ] bytes) before any byte of it is read. *)
Definition name_array : list Z := replicate (Z.to_nat DIRSIZ) 0.
Definition DOT : list Z := [46; 0].
Definition DOTDOT : list Z := [46; 46; 0].

Section Sysfile.
Context `{Layout, Wakeups, BlockDev}.

(** The descriptor and its file, or [None] for -1. *)
Definition argfd (n : Z) : KM (option (nat * nat)) :=
  fd <- argint n ;;
  if (fd <? 0) || (fd >=? Z.of_nat NOFILE) then ret None
  else
    i <- curproc ;;
    p <- getp i ;;
    o <- in_range (p_ofile p !! Z.to_nat fd) ;;
    ret (match o with Some f => Some (Z.to_nat fd, f) | None => None end).

Definition set_ofile (i fd : nat) (o : option nat) : KM unit :=
  updp i (λ p, p <| p_ofile ::= <[fd := o]> |>).

Definition fdalloc (f : nat) : KM Z :=
  i <- curproc ;;
  r <- for_each (seq 0 NOFILE) (λ fd,
    p <- getp i ;;
    o <- in_range (p_ofile p !! fd) ;;
    match o with
    | None => set_ofile i fd (Some f) ;;; ret (Some (Z.of_nat fd))
    | Some _ => ret None
    end) ;;
  ret (or_minus1 r).

Definition sys_dup : KM Z :=
  a <- argfd 0 ;;
  match a with
  | None => ret (-1)
  | Some (_, f) =>
      fd <- fdalloc f ;;
      if fd <? 0 then ret (-1) else filedup f ;;; ret fd
  end.

Definition sys_read : KM Z :=
  p <- argaddr 1 ;;
  n <- argint 2 ;;
  a <- argfd 0 ;;
  match a with None => ret (-1) | Some (_, f) => fileread f p n end.

Definition sys_write : KM Z :=
  p <- argaddr 1 ;;
  n <- argint 2 ;;
  a <- argfd 0 ;;
  match a with
  | None => ret (-1)
  | Some (_, f) =>
      pr <- curproc ;;
      x <- getf f ;;
      (when fdtype FD_INODE x do updp pr (λ p, p <| p_disk_writes := u64 (p_disk_writes p + 1) |>)) ;;;
      filewrite f p n
  end.

Definition sys_close : KM Z :=
  a <- argfd 0 ;;
  match a with
  | None => ret (-1)
  | Some (fd, f) => i <- curproc ;; set_ofile i fd None ;;; fileclose f ;;; ret 0
  end.

(** [pad]: the padding bytes of the local [struct stat]. *)
Definition sys_fstat (pad : list Z) : KM Z :=
  st <- argaddr 1 ;;
  a <- argfd 0 ;;
  match a with None => ret (-1) | Some (_, f) => filestat pad f st end.

(** [bad:] of [sys_link]. *)
Definition link_bad (ip : nat) : KM Z :=
  ilock ip ;;;
  updi ip (λ x, x <| i_nlink := s16 (i_nlink x - 1) |>) ;;;
  iupdate ip ;;;
  iunlockput ip ;;;
  end_op ;;;
  ret (-1).

Definition sys_link : KM Z :=
  old <- argstr 0 MAXPATH ;;
  if fst old <? 0 then ret (-1)
  else
    new <- argstr 1 MAXPATH ;;
    if fst new <? 0 then ret (-1)
    else
      begin_op ;;;
      o <- namei (snd old) ;;
      match o with
      | None => end_op ;;; ret (-1)
      | Some ip =>
          ilock ip ;;;
          x <- geti ip ;;
          if i_type x =? T_DIR then iunlockput ip ;;; end_op ;;; ret (-1)
          else
            updi ip (λ x, x <| i_nlink := s16 (i_nlink x + 1) |>) ;;;
            iupdate ip ;;;
            iunlock ip ;;;
            d <- nameiparent (snd new) name_array ;;
            match d with
            | (None, _) => link_bad ip
            | (Some dp, name) =>
                ilock dp ;;;
                y <- geti dp ;;
                x <- geti ip ;;
                r <- (if negb (i_dev y =? i_dev x) then ret (-1) else dirlink dp name (i_inum x)) ;;
                if r <? 0 then iunlockput dp ;;; link_bad ip
                else iunlockput dp ;;; iput ip ;;; end_op ;;; ret 0
            end
      end.

(** [for(off = 2*sizeof(de); off < dp->size; off += sizeof(de))] *)
Fixpoint isdirempty_loop (fuel : nat) (dp : nat) (off : Z) : KM bool :=
  x <- geti dp ;;
  if off <? i_size x then
    match fuel with
    | O => nofuel
    | S fuel' =>
        de <- read_dirent dp off "isdirempty: readi" ;;
        if negb (de_inum de =? 0) then ret false else isdirempty_loop fuel' dp (off + DIRENT_SIZE)
    end
  else ret true.

Definition isdirempty (dp : nat) : KM bool :=
  x <- geti dp ;; isdirempty_loop (dir_fuel (i_size x)) dp (2 * DIRENT_SIZE).

Definition unlink_bad (dp : nat) : KM Z := iunlockput dp ;;; end_op ;;; ret (-1).

Definition sys_unlink : KM Z :=
  path <- argstr 0 MAXPATH ;;
  if fst path <? 0 then ret (-1)
  else
    begin_op ;;;
    d <- nameiparent (snd path) name_array ;;
    match d with
    | (None, _) => end_op ;;; ret (-1)
    | (Some dp, name) =>
        ilock dp ;;;
        c1 <- in_range (namecmp name DOT) ;;
        c2 <- in_range (namecmp name DOTDOT) ;;
        if (c1 =? 0) || (c2 =? 0) then unlink_bad dp
        else
          o <- dirlookup dp name ;;
          match o with
          | None => unlink_bad dp
          | Some (ip, off) =>
              ilock ip ;;;
              x <- geti ip ;;
              if i_nlink x <? 1 then panic "unlink: nlink < 1"
              else
                busy <- (if i_type x =? T_DIR then e <- isdirempty ip ;; ret (negb e) else ret false) ;;
                if (busy : bool) then iunlockput ip ;;; unlink_bad dp
                else
                  n <- writei dp (FromLocal (replicate (Z.to_nat DIRENT_SIZE) 0)) off DIRENT_SIZE ;;
                  if negb (n =? DIRENT_SIZE) then panic "unlink: writei"
                  else
                    (when i_type x =? T_DIR do
                       (updi dp (λ y, y <| i_nlink := s16 (i_nlink y - 1) |>) ;;; iupdate dp)) ;;;
                    iunlockput dp ;;;
                    updi ip (λ x, x <| i_nlink := s16 (i_nlink x - 1) |>) ;;;
                    iupdate ip ;;;
                    iunlockput ip ;;;
                    end_op ;;;
                    ret 0
          end
    end.

(** [fail:] of [create]. *)
Definition create_fail (dp ip : nat) : KM (option nat) :=
  updi ip (λ x, x <| i_nlink := 0 |>) ;;;
  iupdate ip ;;;
  iunlockput ip ;;;
  iunlockput dp ;;;
  ret None.

Definition create (path : list Z) (type major minor : Z) : KM (option nat) :=
  d <- nameiparent path name_array ;;
  match d with
  | (None, _) => ret None
  | (Some dp, name) =>
      ilock dp ;;;
      o <- dirlookup dp name ;;
      match o with
      | Some (ip, _) =>
          iunlockput dp ;;;
          ilock ip ;;;
          x <- geti ip ;;
          if (type =? T_FILE) && ((i_type x =? T_FILE) || (i_type x =? T_DEVICE)) then ret (Some ip)
          else iunlockput ip ;;; ret None
      | None =>
          y <- geti dp ;;
          o <- ialloc (i_dev y) type ;;
          match o with
          | None => iunlockput dp ;;; ret None
          | Some ip =>
              ilock ip ;;;
              updi ip (λ x, x <| i_major := major |> <| i_minor := minor |> <| i_nlink := 1 |>) ;;;
              iupdate ip ;;;
              x <- geti ip ;;
              dots <- (if type =? T_DIR then
                         r <- dirlink ip DOT (i_inum x) ;;
                         if r <? 0 then ret false
                         else y <- geti dp ;; r <- dirlink ip DOTDOT (i_inum y) ;; ret (negb (r <? 0))
                       else ret true) ;;
              if negb dots then create_fail dp ip
              else
                r <- dirlink dp name (i_inum x) ;;
                if r <? 0 then create_fail dp ip
                else
                  (when type =? T_DIR do
                     (updi dp (λ y, y <| i_nlink := s16 (i_nlink y + 1) |>) ;;; iupdate dp)) ;;;
                  iunlockput dp ;;;
                  ret (Some ip)
          end
      end
  end.

Definition has_flag (omode f : Z) : bool := negb (Z.land omode f =? 0).

(** The inode to open, locked; [None] after [end_op] for -1. *)
Definition open_inode (path : list Z) (omode : Z) : KM (option nat) :=
  if has_flag omode O_CREATE then
    o <- create path T_FILE 0 0 ;;
    match o with Some ip => ret (Some ip) | None => end_op ;;; ret None end
  else
    o <- namei path ;;
    match o with
    | None => end_op ;;; ret None
    | Some ip =>
        ilock ip ;;;
        x <- geti ip ;;
        if (i_type x =? T_DIR) && negb (omode =? O_RDONLY) then iunlockput ip ;;; end_op ;;; ret None
        else ret (Some ip)
    end.

(** How [sys_open] sets up the file structure for inode [ip]. *)
Definition open_file (ip : nat) (x : inode) (omode : Z) (f : file) : file :=
  (if i_type x =? T_DEVICE then f <| f_type := FD_DEVICE |> <| f_major := i_major x |>
   else f <| f_type := FD_INODE |> <| f_off := 0 |>)
  <| f_ip := Some ip |> <| f_readable := b2z (negb (has_flag omode O_WRONLY)) |>
  <| f_writable := b2z (has_flag omode O_WRONLY || has_flag omode O_RDWR) |>.

Definition sys_open : KM Z :=
  omode <- argint 1 ;;
  path <- argstr 0 MAXPATH ;;
  if fst path <? 0 then ret (-1)
  else
    begin_op ;;;
    o <- open_inode (snd path) omode ;;
    match o with
    | None => ret (-1)
    | Some ip =>
        x <- geti ip ;;
        if (i_type x =? T_DEVICE) && ((i_major x <? 0) || (i_major x >=? NDEV)) then
          iunlockput ip ;;; end_op ;;; ret (-1)
        else
          f <- filealloc ;;
          fd <- (match f with Some f => fdalloc f | None => ret (-1) end) ;;
          if fd <? 0 then
            (match f with Some f => fileclose f | None => ret tt end) ;;;
            iunlockput ip ;;;
            end_op ;;;
            ret (-1)
          else
            f <- in_range f ;;
            updf f (open_file ip x omode) ;;;
            (when has_flag omode O_TRUNC && (i_type x =? T_FILE) do itrunc ip) ;;;
            iunlock ip ;;;
            end_op ;;;
            ret fd
    end.

Definition sys_mkdir : KM Z :=
  begin_op ;;;
  path <- argstr 0 MAXPATH ;;
  o <- (if fst path <? 0 then ret None else create (snd path) T_DIR 0 0) ;;
  match o with
  | None => end_op ;;; ret (-1)
  | Some ip => iunlockput ip ;;; end_op ;;; ret 0
  end.

Definition sys_mknod : KM Z :=
  begin_op ;;;
  major <- argint 1 ;;
  minor <- argint 2 ;;
  path <- argstr 0 MAXPATH ;;
  o <- (if fst path <? 0 then ret None else create (snd path) T_DEVICE (s16 major) (s16 minor)) ;;
  match o with
  | None => end_op ;;; ret (-1)
  | Some ip => iunlockput ip ;;; end_op ;;; ret 0
  end.

Definition sys_chdir : KM Z :=
  i <- curproc ;;
  begin_op ;;;
  path <- argstr 0 MAXPATH ;;
  o <- (if fst path <? 0 then ret None else namei (snd path)) ;;
  match o with
  | None => end_op ;;; ret (-1)
  | Some ip =>
      ilock ip ;;;
      x <- geti ip ;;
      if negb (i_type x =? T_DIR) then iunlockput ip ;;; end_op ;;; ret (-1)
      else
        iunlock ip ;;;
        p <- getp i ;;
        cwd <- in_range (p_cwd p) ;;
        iput cwd ;;;
        end_op ;;;
        updp i (λ p, p <| p_cwd := Some ip |>) ;;;
        ret 0
  end.

(** The pages of [argv] with the strings in them; [false] for [goto bad].
    [k] entries of the array are left. *)
Fixpoint exec_args (k : nat) (uargv i : Z) (argv : list (Z * list Z)) : KM (bool * list (Z * list Z)) :=
  match k with
  | O => ret (false, argv)
  | S k' =>
      o <- fetchaddr (u64 (uargv + 8 * i)) ;;
      match o with
      | None => printk "sys_exec: fetchaddr failed for argv index %d" [i] ;;; ret (false, argv)
      | Some uarg =>
          if uarg =? 0 then ret (true, argv)
          else
            page <- kalloc ;;
            if page =? 0 then ret (false, argv)
            else
              r <- fetchstr uarg PGSIZE ;;
              kwrite page (snd r) ;;;
              let argv' := argv ++ [(page, snd r)] in
              if fst r <? 0 then ret (false, argv') else exec_args k' uargv (i + 1) argv'
      end
  end.

Fixpoint free_args (argv : list (Z * list Z)) : KM unit :=
  match argv with
  | [] => ret tt
  | a :: argv' => kfree (fst a) ;;; free_args argv'
  end.

Definition sys_exec : KM Z :=
  uargv <- argaddr 1 ;;
  path <- argstr 0 MAXPATH ;;
  if fst path <? 0 then printk "sys_exec: argstr(path) failed" [] ;;; ret (-1)
  else
    a <- exec_args MAXARG uargv 0 [] ;;
    let '(ok, argv) := a in
    if negb ok then free_args argv ;;; ret (-1)
    else
      r <- kexec (snd path) (snd <$> argv) ;;
      (when r <? 0 do printk "sys_exec: kexec returned -1 for path %s" (snd path)) ;;;
      free_args argv ;;;
      ret r.

(** The failure paths of [sys_pipe]: the descriptors are taken back. *)
Definition pipe_undo (i : nat) (fds : list nat) (rf wf : nat) : KM Z :=
  for_each fds (λ fd, set_ofile i fd None ;;; ret (@None unit)) ;;;
  fileclose rf ;;;
  fileclose wf ;;;
  ret (-1).

Definition sys_pipe : KM Z :=
  i <- curproc ;;
  fdarray <- argaddr 0 ;;
  o <- pipealloc ;;
  match o with
  | None => ret (-1)
  | Some (rf, wf) =>
      fd0 <- fdalloc rf ;;
      if fd0 <? 0 then pipe_undo i [] rf wf
      else
        fd1 <- fdalloc wf ;;
        if fd1 <? 0 then pipe_undo i [Z.to_nat fd0] rf wf
        else
          p <- getp i ;;
          r0 <- copyout (p_pagetable p) fdarray (le_encode 4 fd0) ;;
          r1 <- (if r0 <? 0 then ret (-1)
                 else copyout (p_pagetable p) (u64 (fdarray + 4)) (le_encode 4 fd1)) ;;
          if r1 <? 0 then pipe_undo i [Z.to_nat fd0; Z.to_nat fd1] rf wf else ret 0
  end.

End Sysfile.
