(* ===== verification/Syscall.v ===== *)
(** * System-call dispatch ([kernel/syscall.c]) *)

From Stdlib Require Import ZArith Lia.
From S2P Require Import Prelude Params CString State Process Vm Bytes Sleeplock Bio Log Fs Lifecycle Sysarg Sysproc Sysfile.
From stdpp Require Import base gmap strings numbers list.

Open Scope Z_scope.

(** What uninitialised local variables of the handlers hold: the name and the
    padding of [sys_proccost]'s [entry], the padding of a [struct stat]. *)
Class Uninit := {
  uninit_name : list Z;
  uninit_pad : list Z;
  uninit_stat : list Z
}.

(** ** syscall.h *)
Inductive sysno : Type :=
  | SYS_fork | SYS_exit | SYS_wait | SYS_pipe | SYS_read | SYS_kill | SYS_exec | SYS_fstat
  | SYS_chdir | SYS_dup | SYS_getpid | SYS_sbrk | SYS_pause | SYS_uptime | SYS_open | SYS_write
  | SYS_mknod | SYS_unlink | SYS_link | SYS_mkdir | SYS_close | SYS_setpowermode | SYS_setcpulimit
  | SYS_getcputicks | SYS_proccost | SYS_getsyshealth | SYS_setusagelimit | SYS_getusagestats.
Definition sys_number (n : sysno) : Z :=
  match n with
  | SYS_fork => 1 | SYS_exit => 2 | SYS_wait => 3 | SYS_pipe => 4 | SYS_read => 5 | SYS_kill => 6
  | SYS_exec => 7 | SYS_fstat => 8 | SYS_chdir => 9 | SYS_dup => 10 | SYS_getpid => 11
  | SYS_sbrk => 12 | SYS_pause => 13 | SYS_uptime => 14 | SYS_open => 15 | SYS_write => 16
  | SYS_mknod => 17 | SYS_unlink => 18 | SYS_link => 19 | SYS_mkdir => 20 | SYS_close => 21
  | SYS_setpowermode => 22 | SYS_setcpulimit => 23 | SYS_getcputicks => 24 | SYS_proccost => 25
  | SYS_getsyshealth => 26 | SYS_setusagelimit => 27 | SYS_getusagestats => 28
  end.
Coercion sys_number : sysno >-> Z.

Section Syscall.
Context `{Layout, Wakeups, BlockDev, Uninit}.

(** [syscalls[]], as the list of its designated initialisers. *)
Definition syscalls : list (sysno * KM Z) :=
  [ (SYS_fork, sys_fork); (SYS_exit, sys_exit); (SYS_wait, sys_wait); (SYS_pipe, sys_pipe);
    (SYS_read, sys_read); (SYS_kill, sys_kill); (SYS_exec, sys_exec);
    (SYS_fstat, sys_fstat uninit_stat); (SYS_chdir, sys_chdir); (SYS_dup, sys_dup);
    (SYS_getpid, sys_getpid); (SYS_sbrk, sys_sbrk); (SYS_pause, sys_pause);
    (SYS_uptime, sys_uptime); (SYS_open, sys_open); (SYS_write, sys_write);
    (SYS_mknod, sys_mknod); (SYS_unlink, sys_unlink); (SYS_link, sys_link);
    (SYS_mkdir, sys_mkdir); (SYS_close, sys_close); (SYS_setpowermode, sys_setpowermode);
    (SYS_setcpulimit, sys_setcpulimit); (SYS_getcputicks, sys_getcputicks);
    (SYS_proccost, sys_proccost uninit_name uninit_pad); (SYS_getsyshealth, sys_getsyshealth);
    (SYS_setusagelimit, sys_setusagelimit); (SYS_getusagestats, sys_getusagestats) ].

Fixpoint lookup_call (num : Z) (l : list (sysno * KM Z)) : option (KM Z) :=
  match l with
  | [] => None
  | (k, h) :: l' => if num =? k then Some h else lookup_call num l'
  end.

Definition syscall : KM unit :=
  i <- curproc ;;
  p <- getp i ;;
  a7 <- ld64 (p_trapframe p + TF_A 7) ;;
  let num := s32 a7 in
  match lookup_call num syscalls with
  | Some h =>
      v <- h ;;
      p <- getp i ;;
      st64 (p_trapframe p + TF_A 0) v
  | None =>
      printk "%d %s: unknown sys call %d" (p_pid p :: num :: p_name p) ;;;
      st64 (p_trapframe p + TF_A 0) (-1)
  end.

End Syscall.
