(* ===== verification/Trap.v ===== *)
(** * Traps and interrupts ([kernel/trap.c]) and the first return to user space

    The CSRs the C code reads are those the trap left.  What the interrupt
    controller and the UART report is an argument of [devintr]; the disk's
    interrupt handler works on the driver's own state ([Virtio.v]) and is an
    operation of the class [DiskIntr].  The SIE bit of [sstatus] is the one
    outside critical sections: [acquire] and [release] restore it. *)

From Stdlib Require Import ZArith Lia.
From S2P Require Import Prelude Params CString State Process Vm Bytes Sleeplock Bio Log Fs Console Lifecycle Exec Sysarg Sysproc Sysfile Syscall.
From stdpp Require Import base gmap strings numbers list.

Open Scope Z_scope.

Class DiskIntr := virtio_disk_intr : KM unit.

(** What the devices report: the interrupt claimed from the PLIC, whether the
    UART's transmitter is idle, the characters it received. *)
Record devices : Type := mkDev { dev_irq : Z; dev_tx_idle : bool; dev_rx : list Z }.

Definition SCAUSE_ECALL : Z := 8.
Definition SCAUSE_LOAD : Z := 13.
Definition SCAUSE_STORE : Z := 15.
Definition SCAUSE_EXTERNAL : Z := 0x8000000000000009.
Definition SCAUSE_TIMER : Z := 0x8000000000000005.
Definition TIMER_INTERVAL : Z := 1000000.

Definition getcsr : KM csrs := gets csr.
Definition updcsr (f : csrs → csrs) : KM unit := modify (λ s, s <| csr ::= f |>).

(** ** riscv.h *)
Definition intr_on : KM unit := updcsr (λ c, c <| r_sstatus ::= λ x, Z.lor x SSTATUS_SIE |>).
Definition intr_off : KM unit := updcsr (λ c, c <| r_sstatus ::= λ x, Z.land x (Z.lnot SSTATUS_SIE) |>).
Definition intr_get : KM bool := c <- getcsr ;; ret (negb (Z.land (r_sstatus c) SSTATUS_SIE =? 0)).

(** Clear SPP, set SPIE: [sret] goes to user mode with interrupts enabled. *)
Definition user_sstatus (x : Z) : Z := Z.lor (Z.land x (Z.lnot SSTATUS_SPP)) SSTATUS_SPIE.

(** What a timer interrupt from user space charges to the process. *)
Definition charge_tick (p : proc) : proc :=
  p <| p_ticks_used ::= λ n, s32 (n + 1) |> <| p_ticks_total ::= λ n, s32 (n + 1) |>.
Definition over_limit (p : proc) : bool :=
  (p_cpu_ticks_limit p >? 0) && (p_cpu_ticks p >? p_cpu_ticks_limit p).

(** The clock interrupt. *)
Definition clockintr : KM unit :=
  h <- gets hartid ;;
  (when h =? 0 do
     (acquire Lticks ;;;
      modify (λ s, s <| ticks ::= λ n, u32 (n + 1) |>) ;;;
      wakeup ChTicks ;;;
      c <- gets cur ;;
      (match c with
       | Some _ => modify (λ s, s <| active_ticks ::= λ n, u32 (n + 1) |>)
       | None => modify (λ s, s <| idle_ticks ::= λ n, u32 (n + 1) |>)
       end) ;;;
      release Lticks)) ;;;
  c <- myproc ;;
  (match c with
   | Some i =>
       p <- getp i ;;
       when is_state RUNNING p do updp i (λ p, p <| p_cpu_ticks := u64 (p_cpu_ticks p + 1) |>)
   | None => ret tt
   end) ;;;
  updcsr (λ c, c <| r_stimecmp := u64 (r_time c + TIMER_INTERVAL) |>).

Section Trap.
Context `{Layout, Wakeups, BlockDev, Uninit, DiskIntr}.

Definition trapinithart : KM unit := updcsr (λ c, c <| r_stvec := kernelvec |>).

(** 2 for a timer interrupt, 1 for another device, 0 if not recognised. *)
Definition devintr (d : devices) : KM Z :=
  c <- getcsr ;;
  if r_scause c =? SCAUSE_EXTERNAL then
    let irq := dev_irq d in
    (if irq =? UART0_IRQ then uartintr (dev_tx_idle d) (dev_rx d)
     else if irq =? VIRTIO0_IRQ then virtio_disk_intr
     else when negb (irq =? 0) do printk "unexpected interrupt irq=%d" [irq]) ;;;
    ret 1
  else if r_scause c =? SCAUSE_TIMER then clockintr ;;; ret 2
  else ret 0.

Definition prepare_return : KM unit :=
  i <- curproc ;;
  p <- getp i ;;
  intr_off ;;;
  updcsr (λ c, c <| r_stvec := u64 (TRAMPOLINE + (uservec - trampoline)) |>) ;;;
  c <- getcsr ;;
  st64 (p_trapframe p + TF_KERNEL_SATP) (r_satp c) ;;;
  st64 (p_trapframe p + TF_KERNEL_SP) (u64 (p_kstack p + PGSIZE)) ;;;
  st64 (p_trapframe p + TF_KERNEL_TRAP) usertrap_addr ;;;
  h <- gets hartid ;;
  st64 (p_trapframe p + TF_KERNEL_HARTID) h ;;;
  updcsr (λ c, c <| r_sstatus ::= user_sstatus |>) ;;;
  epc <- ld64 (p_trapframe p + TF_EPC) ;;
  updcsr (λ c, c <| r_sepc := epc |>).

(** The three-way dispatch of [usertrap] on the cause; returns [which_dev]. *)
Definition usertrap_cause (i : nat) (d : devices) : KM Z :=
  c <- getcsr ;;
  if r_scause c =? SCAUSE_ECALL then
    k <- killed i ;;
    (when negb (k =? 0) do kexit (-1)) ;;;
    p <- getp i ;;
    epc <- ld64 (p_trapframe p + TF_EPC) ;;
    st64 (p_trapframe p + TF_EPC) (u64 (epc + 4)) ;;;
    intr_on ;;;
    syscall ;;;
    ret 0
  else
    which_dev <- devintr d ;;
    if negb (which_dev =? 0) then ret which_dev
    else
      p <- getp i ;;
      mapped <- (if (r_scause c =? SCAUSE_STORE) || (r_scause c =? SCAUSE_LOAD) then
                   vmfault (p_pagetable p) (r_stval c) (r_scause c =? SCAUSE_LOAD)
                 else ret 0) ;;
      (when mapped =? 0 do
         (printk "usertrap(): unexpected scause 0x%lx pid=%d" [r_scause c; p_pid p] ;;;
          printk "            sepc=0x%lx stval=0x%lx" [r_sepc c; r_stval c] ;;;
          setkilled i)) ;;;
      ret 0.

(** The accounting of a timer tick, and the yield. *)
Definition account_tick (i : nat) : KM unit :=
  acquire (Lproc i) ;;;
  updp i charge_tick ;;;
  p <- getp i ;;
  (when over_limit p do
     (printk "process %d (%s) exceeded cpu limit (%d ticks)"
        (p_pid p :: s32 (p_cpu_ticks_limit p) :: p_name p) ;;;
      updp i (λ p, p <| p_killed := 1 |>))) ;;;
  release (Lproc i) ;;;
  yield.

Definition usertrap (d : devices) : KM Z :=
  c <- getcsr ;;
  if negb (Z.land (r_sstatus c) SSTATUS_SPP =? 0) then panic "usertrap: not from user mode"
  else
    updcsr (λ c, c <| r_stvec := kernelvec |>) ;;;
    i <- curproc ;;
    p <- getp i ;;
    st64 (p_trapframe p + TF_EPC) (r_sepc c) ;;;
    which_dev <- usertrap_cause i d ;;
    k <- killed i ;;
    (when negb (k =? 0) do kexit (-1)) ;;;
    (when which_dev =? 2 do account_tick i) ;;;
    prepare_return ;;;
    p <- getp i ;;
    ret (MAKE_SATP (p_pagetable p)).

Definition kerneltrap (d : devices) : KM unit :=
  c <- getcsr ;;
  let sepc := r_sepc c in
  let sstatus := r_sstatus c in
  if Z.land sstatus SSTATUS_SPP =? 0 then panic "kerneltrap: not from supervisor mode"
  else
    on <- intr_get ;;
    if (on : bool) then panic "kerneltrap: interrupts enabled"
    else
      which_dev <- devintr d ;;
      if which_dev =? 0 then
        c' <- getcsr ;;
        printk "scause=0x%lx sepc=0x%lx stval=0x%lx" [r_scause c; r_sepc c'; r_stval c'] ;;;
        panic "kerneltrap"
      else
        me <- myproc ;;
        (when (which_dev =? 2) && bool_decide (me ≠ None) do yield) ;;;
        updcsr (λ c, c <| r_sepc := sepc |> <| r_sstatus := sstatus |>).

(** ** [forkret] of [kernel/proc.c]: the value is the [satp] passed to
    [userret]. *)
Definition INIT_PATH : list Z := [47; 105; 110; 105; 116; 0].

Definition forkret : KM Z :=
  i <- curproc ;;
  release (Lproc i) ;;;
  f <- gets first ;;
  (when negb (f =? 0) do
     (fsinit ROOTDEV ;;;
      modify (λ s, s <| first := 0 |>) ;;;
      r <- kexec INIT_PATH [INIT_PATH] ;;
      p <- getp i ;;
      st64 (p_trapframe p + TF_A 0) r ;;;
      when r =? -1 do panic "exec")) ;;;
  prepare_return ;;;
  p <- getp i ;;
  ret (MAKE_SATP (p_pagetable p)).

End Trap.
