(* ===== verification/Ecall.v ===== *)
(** * A system call from the instruction to its result

    The composition of [trampoline.S], [usertrap], [syscall] and
    [prepare_return]: a process that executes [ecall] continues at the next
    instruction, in user mode, with the handler's value in [a0] and every other
    register as it was; and everything the next trap relies on is in place
    again ([user_ready] is an invariant of system calls). *)

From Stdlib Require Import ZArith Lia.
From S2P Require Import Prelude Params CString State Kalloc Process Vm VmRep VmMap Uvm Copy Space Bytes Sleeplock Bio BioRep Cache Log Fs Console File Lifecycle Freewalk Fork Machine Asm Exec Sysarg Sysproc Sysfile Syscall Trap.
From stdpp Require Import base gmap strings numbers functions list.

Open Scope Z_scope.

Section Ecall.
Context `{Layout, !LayoutOk, Wakeups, BlockDev, Uninit, DiskIntr, Asm}.
Context (tramp_fits : csize tramp_code ≤ PGSIZE).

(** What [prepare_return] leaves in the trap frame for the next trap. *)
Record frame_ready (m : memory) (tf kroot : Z) (p : proc) (h : Z) : Prop := {
  fr_satp : load64 m (tf + TF_KERNEL_SATP) = MAKE_SATP kroot;
  fr_sp : load64 m (tf + TF_KERNEL_SP) = u64 (p_kstack p + PGSIZE);
  fr_trap : load64 m (tf + TF_KERNEL_TRAP) = u64 usertrap_addr;
  fr_hart : load64 m (tf + TF_KERNEL_HARTID) = u64 h
}.

(** Process [i] runs in user mode on hart [x]; [s] is the kernel's state. *)
Record user_ready (x : machine) (s : kst) (i : nat) (p : proc) (T : aspace) (kroot : Z) (K : aspace) : Prop := {
  ur_mem : x_mem x = ram s;
  ur_tables : both (p_pagetable p) T (p_trapframe p) kroot K (ram s);
  ur_proc : cur s = Some i ∧ procs s !! i = Some p ∧ p_killed p = 0;
  ur_locks : held s = [];
  ur_regs : regs_ok x;
  ur_user : x_mode x = User ∧ 0 ≤ x_pc x < 2 ^ 64;
  ur_csr : x_csr x SATP = MAKE_SATP (p_pagetable p) ∧ x_csr x STVEC = TRAMPOLINE;
  ur_frame : frame_ready (ram s) (p_trapframe p) kroot p (hartid s)
}.

(** The kernel's view of the CSRs and of memory. *)
Definition csrs_of (c : csr → Z) (k : csrs) : csrs :=
  mkCsrs (c SSTATUS) (c SEPC) (c SCAUSE) (c STVAL) (c STVEC) (c SATP) (r_stimecmp k) (r_time k).
Definition enter (x : machine) (s : kst) : kst := s <| ram := x_mem x |> <| State.csr ::= csrs_of (x_csr x) |>.

(** The hart when the kernel has returned to the trampoline. *)
Record leaving (y : machine) (satp : Z) (s : kst) (z : machine) : Prop := {
  lv_pc : x_pc z = x_reg y RA;
  lv_mode : x_mode z = Supervisor;
  lv_mem : x_mem z = ram s;
  lv_a0 : x_reg z A0 = satp;
  lv_csr : x_csr z SATP = r_satp (State.csr s) ∧ x_csr z SEPC = r_sepc (State.csr s) ∧
    x_csr z SSTATUS = r_sstatus (State.csr s) ∧ x_csr z STVEC = r_stvec (State.csr s)
}.

(** The state in which the handler is called: [epc] is past the instruction and
    interrupts are on. *)
Definition at_call (y : machine) (s : kst) (tf : Z) : kst :=
  let s1 := enter y s in
  s1 <| State.csr ::= λ c, c <| r_stvec := kernelvec |> <| r_sstatus ::= λ x, Z.lor x SSTATUS_SIE |> |>
     <| ram := store64 (store64 (ram s1) (tf + TF_EPC) (x_csr y SEPC)) (tf + TF_EPC) (u64 (x_csr y SEPC + 4)) |>.

(** A handler that returned to its process: it is still the one running, holds
    no lock, has not been killed and its trap frame and page tables are there. *)
Record returned (s : kst) (i : nat) (p : proc) (kroot : Z) (K : aspace) (s' : kst) (p' : proc) (T' : aspace) : Prop := {
  rt_proc : cur s' = Some i ∧ procs s' !! i = Some p' ∧ p_killed p' = 0;
  rt_same : p_trapframe p' = p_trapframe p;
  rt_locks : held s' = [];
  rt_tables : both (p_pagetable p') T' (p_trapframe p) kroot K (ram s');
  rt_frame : ∀ a, p_trapframe p ≤ a < p_trapframe p + TF_SIZE → ldb (ram s') a = ldb (ram s) a;
  rt_csr : r_satp (State.csr s') = r_satp (State.csr s)
}.

(** ** The way back *)

Lemma frame_phys tf off : page_ok tf → 0 ≤ off ≤ 280 → phys_ok (tf + off) 8 = true.
Proof. intros Hp Ho. apply page_ok_phys; [done|lia|unfold PGSIZE; lia]. Qed.

(** The memory [prepare_return] leaves. *)
Definition prepared_mem (m : memory) (tf satp ksp h : Z) : memory :=
  store64 (store64 (store64 (store64 m (tf + TF_KERNEL_SATP) satp) (tf + TF_KERNEL_SP) ksp) (tf + TF_KERNEL_TRAP) usertrap_addr) (tf + TF_KERNEL_HARTID) h.

Lemma prepare_return_ok s i p :
  cur s = Some i → procs s !! i = Some p → page_ok (p_trapframe p) →
  ∃ s', prepare_return s = Ok tt s' ∧
    ram s' = prepared_mem (ram s) (p_trapframe p) (r_satp (State.csr s)) (u64 (p_kstack p + PGSIZE)) (hartid s) ∧
    r_stvec (State.csr s') = u64 (TRAMPOLINE + (uservec - trampoline)) ∧ r_satp (State.csr s') = r_satp (State.csr s) ∧
    r_sstatus (State.csr s') = user_sstatus (Z.land (r_sstatus (State.csr s)) (Z.lnot SSTATUS_SIE)) ∧
    r_sepc (State.csr s') = load64 (ram s') (p_trapframe p + TF_EPC) ∧
    s' = s <| ram := ram s' |> <| State.csr := State.csr s' |>.
Proof.
  intros Hc Hp Htf. unfold prepare_return. erewrite bind_ok by (by apply curproc_ok). erewrite bind_ok by (by apply getp_ok).
  unfold intr_off, updcsr, getcsr. do 2 rewrite bind_modify. rewrite bind_gets. rsimpl.
  do 3 (erewrite bind_ok by (apply st64_ok, frame_phys; [done|unfold TF_KERNEL_SATP, TF_KERNEL_SP, TF_KERNEL_TRAP; lia])). rsimpl.
  rewrite bind_gets. rsimpl. erewrite bind_ok by (apply st64_ok, frame_phys; [done|unfold TF_KERNEL_HARTID; lia]). rewrite bind_modify. rsimpl.
  erewrite bind_ok by (apply ld64_ok, frame_phys; [done|unfold TF_EPC; lia]). rsimpl.
  eexists. split; [reflexivity|]. rsimpl. split_and!; [reflexivity..|kst_eq s].
Qed.

Lemma prepared_other m tf satp ksp h off :
  off = TF_EPC ∨ 40 ≤ off → load64 (prepared_mem m tf satp ksp h) (tf + off) = load64 m (tf + off).
Proof.
  intros Ho. unfold prepared_mem, TF_KERNEL_SATP, TF_KERNEL_SP, TF_KERNEL_TRAP, TF_KERNEL_HARTID, TF_EPC in *.
  rewrite !ldn_stn_ne by lia. done.
Qed.

Lemma prepared_outside m tf satp ksp h a : a < tf ∨ tf + 40 ≤ a → ldb (prepared_mem m tf satp ksp h) a = ldb m a.
Proof.
  intros Ha. unfold prepared_mem, TF_KERNEL_SATP, TF_KERNEL_SP, TF_KERNEL_TRAP, TF_KERNEL_HARTID. by rewrite !ldb_stn_ne by lia.
Qed.

Lemma prepared_ready m tf kroot p h :
  0 ≤ kroot < 2 ^ 56 → frame_ready (prepared_mem m tf (MAKE_SATP kroot) (u64 (p_kstack p + PGSIZE)) h) tf kroot p h.
Proof.
  intros Hk. unfold prepared_mem, TF_KERNEL_SATP, TF_KERNEL_SP, TF_KERNEL_TRAP, TF_KERNEL_HARTID.
  split; unfold TF_KERNEL_SATP, TF_KERNEL_SP, TF_KERNEL_TRAP, TF_KERNEL_HARTID; repeat rewrite ldn_stn_ne by lia; rewrite ldn_stn_eq;
    change (2 ^ (8 * Z.of_nat 8)) with (2 ^ 64); try done; apply Z.mod_small; first [by apply satp_range|apply u64_range].
Qed.

Lemma prepared_both root T tf kroot K m satp ksp h :
  both root T tf kroot K m → both root T tf kroot K (prepared_mem m tf satp ksp h).
Proof.
  intros Hb. unfold prepared_mem. repeat apply both_store; [exact Hb|apply (bool_decide_unpack _); by vm_compute..].
Qed.

(** ** The trap from user mode *)

Lemma user_trap_spp cause tval x : x_mode x = User → Z.land (x_csr (take_trap cause tval x) SSTATUS) SSTATUS_SPP = 0.
Proof.
  intros Hm. unfold take_trap. rsimpl. rewrite bool_decide_true by done. rewrite fn_lookup_insert.
  apply Z.bits_inj_iff'. intros n Hn. rewrite Z.land_spec, Z.bits_0. unfold SSTATUS_SPP. rewrite Z.shiftl_1_l, Z.pow2_bits_eqb by done.
  destruct (decide (n = 8)) as [-> |]; [by rewrite Z.clearbit_eq|]. by rewrite (proj2 (Z.eqb_neq 8 n)), andb_false_r by done.
Qed.

Lemma cause_ecall d s1 i p h v s' p' :
  cur s1 = Some i → procs s1 !! i = Some p → p_killed p = 0 → held s1 = [] → page_ok (p_trapframe p) →
  r_scause (State.csr s1) = SCAUSE_ECALL →
  lookup_call (s32 (load64 (ram s1) (p_trapframe p + TF_A 7))) syscalls = Some h →
  h (s1 <| ram := store64 (ram s1) (p_trapframe p + TF_EPC) (u64 (load64 (ram s1) (p_trapframe p + TF_EPC) + 4)) |>
        <| State.csr ::= λ c, c <| r_sstatus ::= λ x, Z.lor x SSTATUS_SIE |> |>) = Ok v s' →
  procs s' !! i = Some p' → p_trapframe p' = p_trapframe p →
  usertrap_cause i d s1 = Ok 0 (s' <| ram := store64 (ram s') (p_trapframe p + TF_A 0) v |>).
Proof.
  intros Hc Hp Hk Hh Htf Hcause Hcall Hv Hp' Htf'. set (tf := p_trapframe p) in *. unfold usertrap_cause, getcsr.
  assert (∀ off, 0 ≤ off ≤ 280 → phys_ok (tf + off) 8 = true) as Hph by (intros; by apply frame_phys).
  rewrite bind_gets, Hcause. change (SCAUSE_ECALL =? SCAUSE_ECALL) with true. cbv beta iota.
  erewrite bind_ok by (apply killed_ok with (p := p); [by rewrite Hh; apply not_elem_of_nil|done]). rewrite Hk. cbn [Z.eqb negb].
  rewrite bind_ret. erewrite bind_ok by (apply getp_ok; exact Hp). fold tf.
  erewrite bind_ok by (apply ld64_ok, Hph; unfold TF_EPC; lia). erewrite bind_ok by (apply st64_ok, Hph; unfold TF_EPC; lia).
  unfold intr_on, updcsr. rewrite bind_modify. unfold syscall.
  erewrite bind_ok; [reflexivity|]. erewrite bind_ok by (apply curproc_ok; by rsimpl). erewrite bind_ok by (apply getp_ok; rsimpl; exact Hp). fold tf.
  erewrite bind_ok by (apply ld64_ok, Hph; unfold TF_A; lia). rsimpl. rewrite ldn_stn_ne by (unfold TF_EPC, TF_A; lia). rewrite Hcall.
  erewrite bind_ok by exact Hv. erewrite bind_ok by (apply getp_ok; exact Hp'). rewrite Htf'. apply st64_ok, Hph. unfold TF_A. lia.
Qed.

Lemma frame_slots_range r off : (r, off) ∈ frame_slots → 40 ≤ off ≤ 280 ∧ (if decide (r = A0) then off = 112 else off + 8 ≤ 112 ∨ 120 ≤ off).
Proof.
  intros Hin. destruct (decide (r = A0)) as [-> |Hne]; revert Hin.
  - assert (∀ r off, (r, off) ∈ frame_slots → r = A0 → 40 ≤ off ≤ 280 ∧ off = 112) as Hq; [|intros Hin; by apply (Hq A0)].
    apply (slots_range (P := λ p, p.1 = A0 → 40 ≤ p.2 ≤ 280 ∧ p.2 = 112)). by vm_compute.
  - revert Hne. assert (∀ r off, (r, off) ∈ frame_slots → r ≠ A0 → 40 ≤ off ≤ 280 ∧ (off + 8 ≤ 112 ∨ 120 ≤ off)) as Hq; [|intros ? ?; by apply (Hq r)].
    apply (slots_range (P := λ p, p.1 ≠ A0 → 40 ≤ p.2 ≤ 280 ∧ (p.2 + 8 ≤ 112 ∨ 120 ≤ p.2))). by vm_compute.
Qed.

(** The state in which [usertrap] looks at the cause. *)
Definition at_cause (y : machine) (s : kst) (tf : Z) : kst :=
  (enter y s) <| State.csr ::= λ c, c <| r_stvec := kernelvec |> |> <| ram := store64 (x_mem y) (tf + TF_EPC) (x_csr y SEPC) |>.

(** A cause that has been dealt with, the process still to run. *)
Record handled (s : kst) (i : nat) (p : proc) (T : aspace) (kroot : Z) (K : aspace) : Prop := {
  hd_proc : cur s = Some i ∧ procs s !! i = Some p ∧ p_killed p = 0;
  hd_locks : held s = [];
  hd_tables : both (p_pagetable p) T (p_trapframe p) kroot K (ram s);
  hd_csr : r_satp (State.csr s) = MAKE_SATP kroot
}.

Lemma usertrap_return d y s i p s3 p' T' kroot K :
  cur s = Some i → procs s !! i = Some p → page_ok (p_trapframe p) → Z.land (x_csr y SSTATUS) SSTATUS_SPP = 0 →
  usertrap_cause i d (at_cause y s (p_trapframe p)) = Ok 0 s3 → handled s3 i p' T' kroot K →
  ∃ s2, usertrap d (enter y s) = Ok (MAKE_SATP (p_pagetable p')) s2 ∧
    ram s2 = prepared_mem (ram s3) (p_trapframe p') (MAKE_SATP kroot) (u64 (p_kstack p' + PGSIZE)) (hartid s3) ∧
    r_stvec (State.csr s2) = u64 (TRAMPOLINE + (uservec - trampoline)) ∧ r_satp (State.csr s2) = MAKE_SATP kroot ∧
    Z.testbit (r_sstatus (State.csr s2)) 8 = false ∧ r_sepc (State.csr s2) = load64 (ram s2) (p_trapframe p' + TF_EPC) ∧
    s2 = s3 <| ram := ram s2 |> <| State.csr := State.csr s2 |>.
Proof.
  intros Hc Hp Htf Hspp Hcause [(Rc & Rp & Rk) Rl Rb Rs]. set (tf := p_trapframe p) in *. unfold usertrap, getcsr.
  rewrite bind_gets. assert (r_sstatus (State.csr (enter y s)) = x_csr y SSTATUS ∧ r_sepc (State.csr (enter y s)) = x_csr y SEPC) as [-> ->]
    by (unfold enter; by rsimpl).
  rewrite Hspp. cbn [Z.eqb negb]. unfold updcsr. rewrite bind_modify. erewrite bind_ok by (apply curproc_ok; unfold enter; by rsimpl).
  erewrite bind_ok by (apply getp_ok; unfold enter; rsimpl; exact Hp). fold tf.
  erewrite bind_ok by (apply st64_ok, frame_phys; [done|unfold TF_EPC; lia]).
  assert (ram ((enter y s) <| State.csr ::= λ c, c <| r_stvec := kernelvec |> |>) = x_mem y) as -> by (unfold enter; by rsimpl).
  erewrite bind_ok by exact Hcause.
  erewrite bind_ok by (apply killed_ok with (p := p'); [by rewrite Rl; apply not_elem_of_nil|done]). rewrite Rk. cbn [Z.eqb negb].
  rewrite !bind_ret. destruct (prepare_return_ok s3 i p' Rc Rp (ut_page _ _ _ _ (proj1 Rb))) as (s2 & E2 & M2 & V2 & S2 & T2 & P2 & F2).
  erewrite bind_ok by exact E2. erewrite bind_ok by (apply getp_ok; rewrite F2; rsimpl; exact Rp).
  exists s2. rewrite <- Rs. split_and!; [reflexivity|exact M2|exact V2|exact S2| |exact P2|exact F2].
  rewrite T2. unfold user_sstatus. rewrite Z.lor_spec, Z.land_spec, Z.lnot_spec by done. by rewrite andb_false_r.
Qed.

(** From the cause that has been dealt with to the process. *)
Lemma back_to_user d y s i p s3 p' T' kroot K :
  uservec = trampoline → x_reg y RA = TRAMPOLINE + csize uservec_code →
  cur s = Some i → procs s !! i = Some p → page_ok (p_trapframe p) → Z.land (x_csr y SSTATUS) SSTATUS_SPP = 0 →
  usertrap_cause i d (at_cause y s (p_trapframe p)) = Ok 0 s3 → handled s3 i p' T' kroot K →
  ∃ s2, usertrap d (enter y s) = Ok (MAKE_SATP (p_pagetable p')) s2 ∧ s2 = s3 <| ram := ram s2 |> <| State.csr := State.csr s2 |> ∧
    (∀ a, a < p_trapframe p' ∨ p_trapframe p' + 40 ≤ a → ldb (ram s2) a = ldb (ram s3) a) ∧
    ∀ z, leaving y (MAKE_SATP (p_pagetable p')) s2 z →
    ∃ w, run tramp_code trampoline (length userret_code) z = Some w ∧ user_ready w s2 i p' T' kroot K ∧
      x_pc w = load64 (ram s3) (p_trapframe p' + TF_EPC) ∧
      ∀ r off, (r, off) ∈ frame_slots → x_reg w r = load64 (ram s3) (p_trapframe p' + off).
Proof.
  intros Huv Hra Hc Hp Htf Hspp Hcause R.
  destruct (usertrap_return _ _ _ _ _ _ _ _ _ _ Hc Hp Htf Hspp Hcause R) as (s2 & E2 & M2 & V2 & S2 & P2 & C2 & Fr2).
  destruct R as [(Rc & Rp & Rk) Rl Rb Rs]. set (tf := p_trapframe p') in *.
  exists s2. split; [exact E2|]. split; [exact Fr2|]. split; [intros a Ha; by rewrite M2, prepared_outside by lia|]. intros z [Zpc Zmd Zm Za (Zs & Ze & Zst & Zv)].
  assert (both (p_pagetable p') T' tf kroot K (ram s2)) as Hb2 by (rewrite M2; by apply prepared_both).
  destruct (userret_run tramp_fits (p_pagetable p') T' tf kroot K z) as (w & Ew & Wm & Wpc & Wmd & Wc & Wr);
    [by rewrite Zm|by rewrite Zs, S2|done|done|by rewrite Zpc|]. rewrite Zst, P2 in Wmd.
  assert (∀ r off, (r, off) ∈ frame_slots → x_reg w r = load64 (ram s3) (tf + off)) as Hregs.
  { intros r off Hin. rewrite (Wr r off Hin), Zm, M2. apply prepared_other. pose proof (frame_slots_range r off Hin). lia. }
  assert (x_pc w = load64 (ram s3) (tf + TF_EPC)) as Hpcw by (rewrite Wpc, Ze, C2, M2; apply prepared_other; by left).
  exists w. split; [exact Ew|]. split; [|split; [exact Hpcw|exact Hregs]].
  - split.
    + by rewrite Wm, Zm.
    + exact Hb2.
    + rewrite Fr2. by rsimpl.
    + rewrite Fr2. by rsimpl.
    + intros r Hr. destruct (frame_slots_all r Hr) as [off Hin]. rewrite (Hregs r off Hin). apply (ldn_range 8).
    + split; [done|]. rewrite Hpcw. apply (ldn_range 8).
    + rewrite Wc. split; [by rewrite fn_lookup_insert_ne, fn_lookup_insert by done|].
      rewrite !fn_lookup_insert_ne, Zv, V2, Huv, Z.sub_diag, Z.add_0_r by done. by vm_compute.
    + assert (hartid s2 = hartid s3) as -> by (rewrite Fr2; by rsimpl). rewrite M2. apply prepared_ready.
      by apply page_ok_bound, (rep_root_ok (ram s2) kroot K), Hb2.
Qed.

(** The trap frame when the handler is called. *)
Lemma at_call_frame y s tf off :
  off = TF_EPC ∨ 40 ≤ off →
  load64 (ram (at_call y s tf)) (tf + off) = if decide (off = TF_EPC) then u64 (x_csr y SEPC + 4) else load64 (x_mem y) (tf + off).
Proof.
  intros Ho. unfold at_call, enter. rsimpl. case_decide as Hd.
  - subst off. rewrite ldn_stn_eq. apply Z.mod_small, u64_range.
  - unfold TF_EPC in *. by rewrite !ldn_stn_ne by lia.
Qed.

Lemma at_call_both y s root T tf kroot K : both root T tf kroot K (x_mem y) → both root T tf kroot K (ram (at_call y s tf)).
Proof. intros Hb. unfold at_call, enter. rsimpl. repeat apply both_store; [exact Hb|apply (bool_decide_unpack _); by vm_compute..]. Qed.

Lemma returned_load s i p kroot K s' p' T' off :
  returned s i p kroot K s' p' T' → 0 ≤ off ≤ 280 → load64 (ram s') (p_trapframe p + off) = load64 (ram s) (p_trapframe p + off).
Proof. intros R Ho. apply ldn_ext. intros b Hb. apply (rt_frame _ _ _ _ _ _ _ _ R). unfold TF_SIZE. lia. Qed.

(** The CSRs the kernel finds. *)
Lemma trap_csrs cause tval x y kroot :
  x_mode x = User → x_csr y = <[SATP := MAKE_SATP kroot]> (<[SSCRATCH := x_reg x A0]> (x_csr (take_trap cause tval x))) →
  x_csr y SCAUSE = cause ∧ x_csr y SEPC = x_pc x ∧ Z.land (x_csr y SSTATUS) SSTATUS_SPP = 0 ∧ x_csr y SATP = MAKE_SATP kroot ∧ x_csr y STVAL = tval.
Proof.
  intros Hm Yc. destruct (take_trap_fields cause tval x) as (_ & _ & _ & _ & _ & Eepc & Ec & Et).
  rewrite Yc, !fn_lookup_insert, !fn_lookup_insert_ne by done. split_and!; [done|done|by apply user_trap_spp|done|done].
Qed.

Lemma at_cause_ecall d y s i p h v s' p' :
  cur s = Some i → procs s !! i = Some p → p_killed p = 0 → held s = [] → page_ok (p_trapframe p) →
  x_csr y SCAUSE = SCAUSE_ECALL → 0 ≤ x_csr y SEPC < 2 ^ 64 →
  lookup_call (s32 (load64 (x_mem y) (p_trapframe p + TF_A 7))) syscalls = Some h →
  h (at_call y s (p_trapframe p)) = Ok v s' → procs s' !! i = Some p' → p_trapframe p' = p_trapframe p →
  usertrap_cause i d (at_cause y s (p_trapframe p)) = Ok 0 (s' <| ram := store64 (ram s') (p_trapframe p + TF_A 0) v |>).
Proof.
  intros Hc Hp Hk Hh Htf Hcause Hepc Hcall Hv Hp' Htf'. set (tf := p_trapframe p) in *.
  assert (ram (at_cause y s tf) = store64 (x_mem y) (tf + TF_EPC) (x_csr y SEPC)) as M1 by (unfold at_cause; by rsimpl).
  apply (cause_ecall d _ i p h v s' p'); try (unfold at_cause, enter; rsimpl; done).
  - fold tf. rewrite M1, ldn_stn_ne by (unfold TF_EPC, TF_A; lia). exact Hcall.
  - fold tf. rewrite M1, ldn_stn_eq, (Z.mod_small (x_csr y SEPC)), <- Hv by done. reflexivity.
Qed.

End Ecall.

(** C3: A system call from its instruction to its result: the trap, the
    trampoline, [usertrap], the handler and the way back compose.  If the
    handler, which finds the arguments in the trap frame,
    returns to its process, the process continues in user mode after
    the [ecall] with the handler's value in [a0] and all other registers as
    they were, memory is as the handler left it but for the trap frame, and the
    process is ready for its next trap. *)
Theorem syscall_roundtrip `{Layout, !LayoutOk, Wakeups, BlockDev, Uninit, DiskIntr, Asm} x s i p T kroot K d h :
  csize tramp_code ≤ PGSIZE → uservec = trampoline → user_ready x s i p T kroot K →
  lookup_call (s32 (x_reg x A7)) syscalls = Some h →
  ∃ y, run tramp_code trampoline (length uservec_code) (take_trap SCAUSE_ECALL 0 x) = Some y ∧ x_pc y = u64 usertrap_addr ∧
    (∀ r off, (r, off) ∈ frame_slots → load64 (ram (at_call y s (p_trapframe p))) (p_trapframe p + off) = x_reg x r) ∧
    both (p_pagetable p) T (p_trapframe p) kroot K (ram (at_call y s (p_trapframe p))) ∧
    ∀ v s' p' T', h (at_call y s (p_trapframe p)) = Ok v s' → returned (at_call y s (p_trapframe p)) i p kroot K s' p' T' →
    ∃ s2, usertrap d (enter y s) = Ok (MAKE_SATP (p_pagetable p')) s2 ∧ s2 = s' <| ram := ram s2 |> <| State.csr := State.csr s2 |> ∧
    ∀ z, leaving y (MAKE_SATP (p_pagetable p')) s2 z →
    ∃ w, run tramp_code trampoline (length userret_code) z = Some w ∧ user_ready w s2 i p' T' kroot K ∧
      x_pc w = u64 (x_pc x + 4) ∧ (∀ r, r ≠ ZERO → x_reg w r = if decide (r = A0) then u64 v else x_reg x r) ∧
      ∀ a, a < p_trapframe p ∨ p_trapframe p + TF_SIZE ≤ a → ldb (x_mem w) a = ldb (ram s') a.
Proof.
  intros Hfit Huv U Hcall. pose proof U as [Um Ub (Uc & Up & Uk) Ul Ur [Umd Upc] [Us Uv] [F1 F2 F3 F4]]. set (tf := p_trapframe p) in *.
  destruct (trap_entry Hfit SCAUSE_ECALL 0 x (p_pagetable p) T tf kroot K) as (y & E & _ & Ypc & _ & _ & Yra & Yc & Ysl & _ & Yb);
    [by rewrite Um|done|done|done|by rewrite Um|].
  destruct (trap_csrs SCAUSE_ECALL 0 x y kroot Umd Yc) as (Y1 & Y2 & Y3 & Y4 & _).
  exists y. split; [exact E|]. split; [by rewrite Ypc, Um|].
  split; [intros r off Hin; rewrite at_call_frame, decide_False by (pose proof (frame_slots_range r off Hin); unfold TF_EPC; lia); by apply Ysl|].
  split; [apply at_call_both, Yb|]. intros v s' p' T' Hv R. pose proof (ut_page _ _ _ _ (proj1 Ub)) as Htf.
  pose proof R as [(Rc & Rp & Rk) Rtf Rl Rb Rf Rs]. fold tf in Rtf, Rb, Rf.
  destruct (back_to_user Hfit d y s i p (s' <| ram := store64 (ram s') (tf + TF_A 0) v |>) p' T' kroot K)
    as (s2 & E2 & Fr2 & Wo & Hz); [done|done|done|done|done|done|..].
  { apply at_cause_ecall with (h := h) (p' := p'); try done; [by rewrite Y2|].
    change (p_trapframe p + TF_A 7) with (tf + 168). by rewrite (Ysl A7 168) by (apply (bool_decide_unpack _); by vm_compute). }
  { split; rsimpl; [done|done| |].
    - rewrite Rtf. apply both_store; [exact Rb|apply (bool_decide_unpack _); by vm_compute].
    - rewrite Rs. unfold at_call, enter. by rsimpl. }
  exists s2. split; [exact E2|]. split; [rewrite Fr2 at 1; kst_eq s'|]. intros z Lz.
  destruct (Hz z Lz) as (w & Ew & Uw & Wpc & Wr). rewrite Rtf in Wpc, Wr, Wo. revert Wpc Wr Wo. rsimpl. intros Wpc Wr Wo.
  exists w. split; [exact Ew|]. split; [exact Uw|]. split_and!.
  - rewrite Wpc, ldn_stn_ne, (returned_load _ _ _ _ _ _ _ _ _ R), at_call_frame by (unfold TF_EPC, TF_A; lia). by rewrite decide_True, Y2.
  - intros r Hr. destruct (frame_slots_all r Hr) as [off Hin]. destruct (frame_slots_range r off Hin) as [Ho Ha].
    rewrite (Wr r off Hin). case_decide; [rewrite Ha; apply ldn_stn_eq|]. unfold TF_A.
    rewrite ldn_stn_ne, (returned_load _ _ _ _ _ _ _ _ _ R), at_call_frame, decide_False by (unfold TF_EPC; lia). by apply Ysl.
  - intros a Ha. unfold TF_SIZE, TF_A in *. by rewrite (ur_mem _ _ _ _ _ _ _ Uw), Wo, ldb_stn_ne by lia.
Qed.

Section Witnesses.
Local Existing Instance qemu_layout.
Local Existing Instance qemu_layout_ok.
#[local] Instance ecall_asm : Asm := { isize _ := 4; isize_pos _ := eq_refl }.
#[local] Instance ecall_wakeups : Wakeups := 0%nat.
#[local] Instance ecall_disk : BlockDev := ram_disk.
#[local] Instance ecall_uninit : Uninit := { uninit_name := []; uninit_pad := []; uninit_stat := [] }.
#[local] Instance ecall_disk_intr : DiskIntr := ret tt.

(** Process 5 asks for its number. *)
Definition asking (root tf : Z) : proc := proc0 <| p_state := RUNNING |> <| p_pid := 5 |> <| p_pagetable := root |> <| p_trapframe := tf |>.
Definition asking_kernel (root tf : Z) (m : memory) : kst :=
  kst0 <| ram := m |> <| procs := [asking root tf] |> <| cur := Some 0%nat |>.
Definition asking_hart (root : Z) (m : memory) : machine :=
  mkMachine (<[A7 := 11]> (λ _, 7)) (<[SATP := MAKE_SATP root]> (<[STVEC := TRAMPOLINE]> (λ _, 0))) User 4096 m.

Lemma asking_ready : ∃ root tf T m, user_ready (asking_hart root m) (asking_kernel root tf m) 0 (asking root tf) T root T.
Proof.
  destruct child_tables as (m & root & T & tf & Hb). exists root, tf, T, (prepared_mem m tf (MAKE_SATP root) (u64 (p_kstack (asking root tf) + PGSIZE)) 0).
  pose proof (page_ok_bound _ (rep_root_ok _ _ _ (ut_rep _ _ _ _ (proj1 Hb)))) as [Hr _].
  pose proof (prepared_ready m tf root (asking root tf) 0 Hr) as Hf.
  pose proof (prepared_both _ _ _ _ _ m (MAKE_SATP root) (u64 (p_kstack (asking root tf) + PGSIZE)) 0 Hb) as Hb'. clear Hb. revert Hb' Hf.
  generalize (prepared_mem m tf (MAKE_SATP root) (u64 (p_kstack (asking root tf) + PGSIZE)) 0). intros m' Hb' Hf.
  split; unfold asking_kernel; rsimpl; try exact Hb'; try reflexivity.
  - by split_and!.
  - intros []; by vm_compute.
  - split; [reflexivity|]. by vm_compute.
  - split; reflexivity.
  - exact Hf.
Qed.

Lemma getpid_returns y s p tf kroot K T :
  cur s = Some 0%nat → procs s = [p] → p_killed p = 0 → held s = [] → p_trapframe p = tf →
  both (p_pagetable p) T tf kroot K (ram (at_call y s tf)) →
  sys_getpid (at_call y s tf) = Ok (p_pid p) (at_call y s tf) ∧ returned (at_call y s tf) 0 p kroot K (at_call y s tf) p T.
Proof.
  intros Hc Hp Hk Hh Ht Hb. assert (cur (at_call y s tf) = Some 0%nat ∧ procs (at_call y s tf) = [p] ∧ held (at_call y s tf) = []) as (C1 & C2 & C3)
    by (unfold at_call, enter; by rsimpl).
  generalize dependent (at_call y s tf). intros s1 Hb C1 C2 C3. split.
  - unfold sys_getpid. erewrite bind_ok by (by apply curproc_ok). by erewrite bind_ok by (apply getp_ok; by rewrite C2).
  - split; rewrite ?Ht; [by rewrite C1, C2|done|done|exact Hb|done|done].
Qed.

Lemma syscall_roundtrip_witness :
  ∃ root m y z w, run tramp_code trampoline (length uservec_code) (take_trap SCAUSE_ECALL 0 (asking_hart root m)) = Some y ∧
    run tramp_code trampoline (length userret_code) z = Some w ∧ x_mode w = User ∧ x_pc w = 4100 ∧ x_reg w A0 = 5 ∧ x_reg w A7 = 11.
Proof.
  destruct asking_ready as (root & tf & T & m & U).
  destruct (syscall_roundtrip (asking_hart root m) (asking_kernel root tf m) 0 (asking root tf) T root T (mkDev 0 true []) sys_getpid
    tramp_fits_four (eq_refl : @uservec qemu_layout = @trampoline qemu_layout) U eq_refl) as (y & E & _ & _ & Hb & Hz).
  destruct (getpid_returns y (asking_kernel root tf m) (asking root tf) tf root T T) as [Hv R]; [reflexivity..|exact Hb|].
  destruct (Hz _ _ _ _ Hv R) as (s2 & _ & _ & Hw).
  set (z := mkMachine (<[A0 := MAKE_SATP root]> (λ _, 0)) (<[SATP := r_satp (State.csr s2)]> (<[SEPC := r_sepc (State.csr s2)]>
    (<[SSTATUS := r_sstatus (State.csr s2)]> (<[STVEC := r_stvec (State.csr s2)]> (λ _, 0))))) Supervisor (x_reg y RA) (ram s2)).
  destruct (Hw z) as (w & Ew & Uw & Hpc & Hr & _); [split; [reflexivity..|]; split_and!; reflexivity|].
  exists root, m, y, z, w. split; [exact E|]. split; [exact Ew|]. split; [apply (ur_user _ _ _ _ _ _ _ Uw)|].
  split; [rewrite Hpc; reflexivity|]. split; [rewrite (Hr A0) by discriminate; reflexivity|rewrite (Hr A7) by discriminate; reflexivity].
Defined.

End Witnesses.
