(* ===== verification/Fault.v ===== *)
(** * A page fault from the instruction and back

    The composition of the hart's address translation, [trampoline.S],
    [usertrap] and [vmfault]: a load or store to a page of the process that has
    not been allocated yet faults, and after the trap the same instruction runs
    again with all registers as they were, the access now allowed and memory
    looking as it did. *)

From Stdlib Require Import ZArith Lia.
From S2P Require Import Prelude Params CString State Kalloc Process Vm VmRep VmMap Uvm Copy Space Bytes Sleeplock Bio BioRep Cache Log Fs Console File Lifecycle Freewalk Fork Machine Asm Exec Sysarg Sysproc Sysfile Syscall Trap Ecall.
From stdpp Require Import base gmap strings numbers functions list.

Open Scope Z_scope.

Section Fault.
Context `{Layout, !LayoutOk, Wakeups, BlockDev, Uninit, DiskIntr, Asm}.

(** Memory that differs outside the address space and the free list. *)
Lemma uvm_wf_frame s s' root T fl :
  uvm_wf s root T fl → (∀ q, own T fl q → same_page (ram s) (ram s') q) → freelist s' = freelist s → Lkmem ∉ held s' →
  uvm_wf s' root T fl.
Proof.
  intros [[Hk HT Hd Hlk] Hf Hi Hu] Hm Hfl Hh. split; [split|..]; try done.
  - eapply kmem_wf_frame; [exact Hk|done|]. intros p Hp. apply Hm. by right.
  - eapply pt_rep_frame; [exact HT|]. intros a Ha. apply Hm. left. by left.
Qed.

(** [vmfault] with four free pages. *)
Lemma vmfault_enough s root T fl sz va rd :
  uvm_wf s root T fl → cur_as s root sz → sz ≤ TRAPFRAME → 0 ≤ va < sz → va mod 4096 = 0 →
  leaf T !! (va / 4096) = None → (3 < length fl)%nat → ∃ r s', vmfault root va rd s = Ok r s' ∧ r ≠ 0.
Proof.
  intros Hw (i & pr & Hc & Hp & Hpt & Hpsz) Hmax Hva Hal Hnone Hlen. unfold vmfault.
  assert (0 ≤ va < MAXVA) as Hvm by (change MAXVA with (TRAPFRAME + 8192); lia).
  erewrite bind_ok by (by apply curproc_ok). erewrite bind_ok by (by apply getp_ok). rewrite Hpsz, Hpt.
  replace (va >=? sz) with false by lia.
  assert (PGROUNDDOWN va = va) as -> by (rewrite PGROUNDDOWN_eq; pose proof (Z.div_mod va 4096); lia).
  erewrite bind_ok by (apply (ismapped_ok _ T); [apply Hw|done]). rewrite bool_decide_false by (rewrite Hnone; by intros [? ?]).
  destruct fl as [|mem fl]; [cbn in Hlen; lia|].
  destruct (fault_page _ _ _ _ _ Hw) as (s1 & Hr1 & Hw1 & Hpp & Hnin & Hnt & Hnf & Hz & Hs1 & Hsame1).
  rewrite (alloc_tail _ (λ mem, r <- mappages root va PGSIZE mem FAULT_PERM ;;
     if negb (r =? 0) then kfree mem ;;; ret 0 else ret mem) _ _ _ Hr1 (page_ok_nonzero _ Hpp)).
  pose proof (page_ok_bound _ Hpp) as [Hpb _].
  destruct (mappages_ok s1 root T fl va PGSIZE mem FAULT_PERM) as (r & s2 & T2 & fl2 & k & Hr2 & Hv2 & Hst2 & Hl2 & Hg2 & Hcase); try done.
  { apply Hw1. }
  { lia. }
  { change MAXVA with (TRAPFRAME + 8192). unfold PGSIZE. lia. }
  { lia. }
  { unfold PGSIZE. lia. }
  { intros w Hrange. rewrite vpn_next in Hrange. by replace w with (va / 4096) by lia. }
  erewrite bind_ok by exact Hr2. destruct Hcase as [[-> _]|(-> & _ & ->)].
  - exists mem, s2. split; [done|]. by apply page_ok_nonzero.
  - exfalso. destruct (vs_used _ _ _ _ _ _ Hst2) as (used & Hfl & Ht). rewrite app_nil_r in Hfl. subst used.
    pose proof (kw_nodup _ _ (vm_kmem _ _ _ _ (uv_vm _ _ _ _ Hw1))) as Hnd.
    change (PGSIZE / PGSIZE) with 1 in Hg2. destruct Hg2 as [Hsub Hnew]. set (v := va / 4096) in *.
    assert ((length fl ≤ 2)%nat); [|cbn in Hlen; lia].
    transitivity (length (omap (λ x, tabs T2 !! x) [(1, v / 2 ^ 18); (0, v / 2 ^ 9)])).
    + apply submseteq_length, NoDup_submseteq; [done|]. intros a Ha. destruct (proj2 (Ht a) (or_intror Ha)) as [x Hx].
      apply list_elem_of_omap. exists x. split; [|done]. destruct (Hnew x) as [[b Hb]|(w & Hw' & Hc')]; [by eexists| |].
      * exfalso. pose proof (lookup_weaken _ _ _ _ Hb Hsub) as Hb2. rewrite Hx in Hb2. injection Hb2 as <-.
        apply (vm_disj _ _ _ _ (uv_vm _ _ _ _ Hw1) a); [by eexists|done].
      * assert (w = v) as -> by lia. destruct Hc' as [-> | ->]; [left|right; left].
    + cbn. repeat case_match; cbn; lia.
Qed.

(** [vmfault] works on the page of the address. *)
Lemma vmfault_down s root sz va rd :
  cur_as s root sz → 0 ≤ va < sz → vmfault root va rd s = vmfault root (va / 4096 * 4096) rd s.
Proof.
  intros (i & pr & Hc & Hp & _ & Hpsz) Hva. unfold vmfault. pose proof (Z.div_mod va 4096 ltac:(done)). pose proof (Z.mod_pos_bound va 4096 eq_refl).
  erewrite bind_ok by (by apply curproc_ok). erewrite bind_ok by (by apply getp_ok). rewrite Hpsz.
  erewrite (bind_ok curproc) by (by apply curproc_ok). erewrite (bind_ok (getp i)) by (by apply getp_ok). rewrite Hpsz.
  replace (va >=? sz) with false by lia. replace (va / 4096 * 4096 >=? sz) with false by lia.
  by rewrite !PGROUNDDOWN_eq, Z.div_mul by done.
Qed.

(** The fault is repaired: a zeroed page is mapped, the rest of the address
    space and other pages are as they were. *)
Lemma vmfault_repairs s root T fl sz va rd :
  uvm_wf s root T fl → cur_as s root sz → sz ≤ TRAPFRAME → 0 ≤ va < sz → leaf T !! (va / 4096) = None → (3 < length fl)%nat →
  ∃ r s' T' fl', vmfault root va rd s = Ok r s' ∧ r ≠ 0 ∧ uvm_wf s' root T' fl' ∧ uvm_step s T fl s' T' fl' ∧
    (∀ w, uview (ram s') T' sz w = uview (ram s) T sz w) ∧ page_ok r ∧ leaf T' = <[va / 4096 := pte_of r FAULT_PERM]> (leaf T).
Proof.
  intros Hw Hc Hsz Hva Hnone Hlen. rewrite (vmfault_down _ _ _ _ _ Hc Hva).
  pose proof (Z.div_mod va 4096 ltac:(done)). pose proof (Z.mod_pos_bound va 4096 eq_refl). set (v := va / 4096) in *.
  assert (v * 4096 / 4096 = v ∧ v * 4096 mod 4096 = 0) as [Ev Em] by (rewrite Z.div_mul, Z.mod_mul; done).
  destruct (vmfault_enough s root T fl sz (v * 4096) rd) as (r & s' & E & Hr); try done; [lia|by rewrite Ev|].
  destruct (vmfault_ok s root T fl sz (v * 4096) rd) as (r' & s'' & T' & fl' & E' & Hw' & Hst & Hu & Hcase); try done.
  { change MAXVA with (TRAPFRAME + 8192). lia. }
  { by rewrite Ev. }
  rewrite E in E'. injection E' as <- <-. rewrite Ev in Hcase. destruct Hcase as [[-> _]|(_ & Hp & Hl)]; [done|].
  exists r, s', T', fl'. by split_and!.
Qed.

(** What the hart reports for the access. *)
Definition fault_cause (a : access) : Z := match a with Load => SCAUSE_LOAD | Store => SCAUSE_STORE | Fetch => 12 end.

Lemma cause_fault d s i p a va r s' :
  cur s = Some i → procs s !! i = Some p → a ≠ Fetch → r_scause (State.csr s) = fault_cause a → r_stval (State.csr s) = va →
  vmfault (p_pagetable p) va (fault_cause a =? SCAUSE_LOAD) s = Ok r s' → r ≠ 0 →
  usertrap_cause i d s = Ok 0 s'.
Proof.
  intros Hc Hp Ha Hcause Hval E Hr. unfold usertrap_cause, devintr, getcsr. rewrite bind_gets, Hcause, Hval.
  replace (fault_cause a =? SCAUSE_ECALL) with false by (by destruct a).
  erewrite bind_ok.
  2: { rewrite bind_gets, Hcause. replace (fault_cause a =? SCAUSE_EXTERNAL) with false by (by destruct a).
       replace (fault_cause a =? SCAUSE_TIMER) with false by (by destruct a). reflexivity. }
  cbn [Z.eqb negb]. erewrite bind_ok by (apply getp_ok; exact Hp).
  replace ((fault_cause a =? SCAUSE_STORE) || (fault_cause a =? SCAUSE_LOAD)) with true by (by destruct a).
  erewrite bind_ok by exact E. replace (r =? 0) with false by lia. by rewrite bind_ret.
Qed.

(** Writes to the trap frame leave the other pages alone. *)
Lemma frame_same m m' tf p :
  tf mod PGSIZE = 0 → p mod PGSIZE = 0 → p ≠ tf → (∀ a, a < tf ∨ tf + 288 ≤ a → ldb m' a = ldb m a) → same_page m m' p.
Proof.
  intros Ht Hp Hne Hm a Ha. symmetry. apply Hm. unfold PGSIZE in *.
  pose proof (Z.div_mod tf 4096). pose proof (Z.div_mod p 4096). assert (p / 4096 ≠ tf / 4096) by lia. lia.
Qed.

(** The state in which the fault is found to be the process's own. *)
Lemma faulting y s i p T fl :
  uvm_wf s (p_pagetable p) T fl → cur s = Some i → procs s !! i = Some p → held s = [] → page_ok (p_trapframe p) →
  ¬ own T fl (p_trapframe p) → (∀ a, a < p_trapframe p + 40 ∨ p_trapframe p + 288 ≤ a → ldb (x_mem y) a = ldb (ram s) a) →
  let s1 := at_cause y s (p_trapframe p) in
  uvm_wf s1 (p_pagetable p) T fl ∧ cur_as s1 (p_pagetable p) (p_sz p) ∧
  (∀ q, q mod PGSIZE = 0 → q ≠ p_trapframe p → same_page (ram s) (ram s1) q).
Proof.
  intros Hw Hc Hp Hh Htf Hno Hm. cbv zeta. set (tf := p_trapframe p) in *.
  assert (∀ q, q mod PGSIZE = 0 → q ≠ tf → same_page (ram s) (ram (at_cause y s tf)) q) as Hs.
  { intros q Hq Hne. apply (frame_same _ _ tf); [apply Htf|done..|]. intros a Ha. unfold at_cause. rsimpl.
    rewrite ldb_stn_ne by (unfold TF_EPC; lia). apply Hm. lia. }
  split_and!; [|exists i, p; unfold at_cause, enter; by rsimpl|done].
  eapply uvm_wf_frame; [exact Hw| |unfold at_cause, enter; by rsimpl|unfold at_cause, enter; rsimpl; rewrite Hh; apply not_elem_of_nil].
  intros q Hq. apply Hs; [by apply (own_page _ _ _ _ _ Hw)|]. intros ->. by apply Hno.
Qed.

(** The repaired state goes back to the process. *)
Lemma repaired s s1 s3 i p T T3 fl fl3 kroot K r va :
  cur s1 = Some i ∧ procs s1 !! i = Some p ∧ p_killed p = 0 → held s1 = [] → r_satp (State.csr s1) = MAKE_SATP kroot →
  uvm_step s1 T fl s3 T3 fl3 → uvm_wf s3 (p_pagetable p) T3 fl3 → both (p_pagetable p) T (p_trapframe p) kroot K (ram s) →
  (∀ q, q mod PGSIZE = 0 → q ≠ p_trapframe p → same_page (ram s) (ram s1) q) →
  (∀ q, q = p_trapframe p ∨ is_table K q → ¬ own T fl q) → leaf T3 = <[va / 4096 := pte_of r FAULT_PERM]> (leaf T) → va / 4096 < UVPN →
  handled s3 i p T3 kroot K ∧ same_page (ram s1) (ram s3) (p_trapframe p) ∧ ¬ own T3 fl3 (p_trapframe p).
Proof.
  intros Hp Hh Hs [Sf Sfl St Sfr Sm] Hw3 [[Ur Up Uo Uf Ut] [Kr Ko Kt]] Hs1 Hno Hl Hv. set (tf := p_trapframe p) in *.
  assert (¬ own T3 fl3 tf) as Hno3.
  { intros [[Ht|Hf]|Hin]; apply (Hno tf (or_introl eq_refl)).
    - destruct (St _ Ht); [by left; left|by right].
    - destruct (Sfr _ Hf); [by left; right|by right].
    - right. by apply Sfl. }
  assert (∀ q, q mod PGSIZE = 0 → ¬ own T fl q → same_page (ram s1) (ram s3) q) as Hsm.
  { intros q Hq Hn. apply Sm; [done|..]; intros Hc; apply Hn; [left; by left|left; by right|by right]. }
  split_and!; [|apply Hsm; [apply Up|apply Hno; by left]|exact Hno3].
  split; [rewrite Sf; by rsimpl|rewrite Sf; by rsimpl| |rewrite Sf; by rsimpl]. split; split.
  - apply Hw3.
  - done.
  - intros Ht. apply Hno3. left. by left.
  - rewrite Hl, lookup_insert_ne by lia. done.
  - rewrite Hl, lookup_insert_ne by (unfold UVPN in *; lia). done.
  - eapply pt_rep_frame; [exact Kr|]. intros q Hq. assert (page_ok q) as [Hal _] by (by apply (pr_page _ _ _ Kr)).
    intros b Hb. rewrite (Hs1 q Hal) by (try done; intros ->; done). apply (Hsm q); [done|apply Hno; by right|done].
  - done.
  - done.
Qed.

(** The access to the new page. *)
Lemma fault_access m c root T sz va a r :
  pt_rep m root T → c SATP = MAKE_SATP root → a ≠ Fetch → 0 ≤ va < MAXVA → page_ok r →
  leaf T !! (va / 4096) = Some (pte_of r FAULT_PERM) → uview m T sz va = Some 0 →
  ∃ pa, translate m c User a va = Some pa ∧ ldb m pa = 0.
Proof.
  intros HT Hs Ha Hva Hr Hl Hu. pose proof (page_ok_bound _ Hr) as [Hb _].
  rewrite (translate_rep _ _ _ _ root T), Hl, leaf_valid_of by done. unfold may_access.
  rewrite !has_pte_at by (done || by destruct a). exists (PTE2PA (pte_of r FAULT_PERM) + va mod 4096). split; [by destruct a|].
  unfold uview in Hu. rewrite Hl, has_pte_at in Hu by done. by injection Hu.
Qed.

End Fault.

(** C6: A load or store to a page of the process that has not been allocated
    yet is invisible to it.  The hart cannot translate the address; the trap,
    [usertrap] and [vmfault] run to the end (three pages beside the new one
    are enough for the tables), and the process is back at the same
    instruction with all its registers, its memory reads as it did, and the
    access is now allowed and finds 0. *)
Theorem page_fault_transparent `{Layout, !LayoutOk, Wakeups, BlockDev, Uninit, DiskIntr, Asm} x s i p T kroot K fl d a va :
  csize tramp_code ≤ PGSIZE → uservec = trampoline → user_ready x s i p T kroot K →
  uvm_wf s (p_pagetable p) T fl → (3 < length fl)%nat → (∀ q, q = p_trapframe p ∨ is_table K q → ¬ own T fl q) →
  a ≠ Fetch → 0 ≤ va < p_sz p → p_sz p ≤ TRAPFRAME → leaf T !! (va / 4096) = None →
  translate (x_mem x) (x_csr x) (x_mode x) a va = None ∧
  ∃ y, run tramp_code trampoline (length uservec_code) (take_trap (fault_cause a) va x) = Some y ∧ x_pc y = u64 usertrap_addr ∧
  ∃ s2 T' fl', usertrap d (enter y s) = Ok (MAKE_SATP (p_pagetable p)) s2 ∧
    uvm_wf s2 (p_pagetable p) T' fl' ∧ (∀ w, uview (ram s2) T' (p_sz p) w = uview (ram s) T (p_sz p) w) ∧
  ∀ z, leaving y (MAKE_SATP (p_pagetable p)) s2 z →
  ∃ w, run tramp_code trampoline (length userret_code) z = Some w ∧ user_ready w s2 i p T' kroot K ∧
    x_pc w = x_pc x ∧ (∀ r, r ≠ ZERO → x_reg w r = x_reg x r) ∧
    ∃ pa, translate (x_mem w) (x_csr w) (x_mode w) a va = Some pa ∧ ldb (x_mem w) pa = 0.
Proof.
  intros Hfit Huv U Hw Hlen Hno Ha Hva Hsz Hnone. pose proof U as [Um Ub (Uc & Up & Uk) Ul Ur [Umd Upc] [Us Uv] [F1 F2 F3 F4]].
  assert (0 ≤ va < MAXVA) as Hvm by (change MAXVA with (TRAPFRAME + 8192); lia).
  split. { rewrite (translate_rep _ _ _ _ (p_pagetable p) T), Hnone; [done|rewrite Um; apply Hw|by rewrite Umd|done|done]. }
  set (tf := p_trapframe p) in *.
  destruct (trap_entry Hfit (fault_cause a) va x (p_pagetable p) T tf kroot K) as (y & E & _ & Ypc & _ & _ & Yra & Yc & Ysl & Yo & Yb);
    [by rewrite Um|done|done|done|by rewrite Um|]. rewrite Um in Ypc, Yo.
  destruct (trap_csrs (fault_cause a) va x y kroot Umd Yc) as (Y1 & Y2 & Y3 & Y4 & Y5).
  exists y. split; [exact E|]. split; [by rewrite Ypc|]. pose proof (ut_page _ _ _ _ (proj1 Ub)) as Htf.
  destruct (faulting y s i p T fl Hw Uc Up Ul Htf (Hno _ (or_introl eq_refl)) Yo) as (Hw1 & Hc1 & Hs1). fold tf in Hw1, Hc1, Hs1.
  destruct (vmfault_repairs _ _ _ _ _ va (fault_cause a =? SCAUSE_LOAD) Hw1 Hc1 Hsz Hva Hnone Hlen)
    as (r & s3 & T3 & fl3 & E3 & Hr & Hw3 & St3 & Hu3 & Hpr & Hl3).
  assert (va / 4096 < UVPN) as Hv by (apply uvpn_lt; lia).
  assert (cur (at_cause y s tf) = Some i ∧ procs (at_cause y s tf) !! i = Some p ∧ p_killed p = 0 ∧ held (at_cause y s tf) = [] ∧
    r_satp (State.csr (at_cause y s tf)) = MAKE_SATP kroot ∧ r_scause (State.csr (at_cause y s tf)) = fault_cause a ∧
    r_stval (State.csr (at_cause y s tf)) = va) as (C1 & C2 & C3 & C4 & C5 & C6 & C7) by (unfold at_cause, enter; by rsimpl).
  destruct (repaired s (at_cause y s tf) s3 i p T T3 fl fl3 kroot K r va) as (Hd & Hsf & Hno3); try done.
  destruct (back_to_user Hfit d y s i p s3 p T3 kroot K Huv Yra Uc Up Htf Y3 (cause_fault d _ i p a va r s3 C1 C2 Ha C6 C7 E3 Hr) Hd) as (s2 & E2 & Fr2 & Wo & Hz).
  assert (∀ q, own T3 fl3 q → same_page (ram s3) (ram s2) q) as Hs2.
  { intros q Hq. pose proof (own_page _ _ _ _ _ Hw3 Hq) as [Hal _]. apply (frame_same _ _ tf); [apply Htf|done|by intros ->|].
    intros b Hb. apply Wo. fold tf. lia. }
  assert (∀ w, uview (ram s2) T3 (p_sz p) w = uview (ram s) T (p_sz p) w) as Hview.
  { intros w. rewrite (uview_kept s3 s2 _ _ _ _ _ Hw3), Hu3 by (intros q Hq; apply Hs2; left; by right).
    apply (uview_kept s (at_cause y s tf) _ _ _ _ _ Hw). intros q Hq. assert (own T fl q) as Hown by (left; by right).
    apply Hs1; [by apply (own_page _ _ _ _ _ Hw)|]. intros ->. by apply (Hno tf (or_introl eq_refl)). }
  exists s2, T3, fl3. split; [exact E2|]. split; [|split; [exact Hview|]].
  { eapply uvm_wf_frame; [exact Hw3|exact Hs2|rewrite Fr2; by rsimpl|]. rewrite Fr2. rsimpl. rewrite (hd_locks _ _ _ _ _ _ Hd). apply not_elem_of_nil. }
  intros z Lz. destruct (Hz z Lz) as (w & Ew & Uw & Wpc & Wr). fold tf in Wpc, Wr. exists w. split; [exact Ew|]. split; [exact Uw|].
  assert (∀ off, 0 ≤ off ≤ 280 → load64 (ram s3) (tf + off) = load64 (ram (at_cause y s tf)) (tf + off)) as Hld.
  { intros off Ho. apply ldn_ext. intros b Hb. symmetry. apply Hsf. unfold PGSIZE. fold tf. lia. }
  assert (ram (at_cause y s tf) = store64 (x_mem y) (tf + TF_EPC) (x_csr y SEPC)) as M1 by (unfold at_cause; by rsimpl). rewrite M1 in Hld.
  split; [|split].
  - rewrite Wpc, Hld, ldn_stn_eq, Y2 by (unfold TF_EPC; lia). by apply Z.mod_small.
  - intros q Hq. destruct (frame_slots_all q Hq) as [off Hin]. destruct (frame_slots_range q off Hin) as [Ho _].
    rewrite (Wr q off Hin), Hld, ldn_stn_ne by (unfold TF_EPC; lia). by apply Ysl.
  - destruct Uw as [Wm Wb _ _ _ [-> _] [Ws _] _]. rewrite Wm.
    apply (fault_access _ _ (p_pagetable p) T3 (p_sz p) va a r); [apply Wb|done..|by rewrite Hl3, lookup_insert_eq|].
    rewrite Hview. unfold uview. rewrite Hnone. pose proof (Z.div_mod va 4096). pose proof (Z.mod_pos_bound va 4096).
    by replace (va / 4096 * 4096 <? p_sz p) with true by lia.
Qed.

Section Witnesses.
Local Existing Instance qemu_layout.
Local Existing Instance qemu_layout_ok.
#[local] Instance fault_asm : Asm := { isize _ := 4; isize_pos _ := eq_refl }.
#[local] Instance fault_wakeups : Wakeups := 0%nat.
#[local] Instance fault_disk : BlockDev := ram_disk.
#[local] Instance fault_uninit : Uninit := { uninit_name := []; uninit_pad := []; uninit_stat := [] }.
#[local] Instance fault_disk_intr : DiskIntr := ret tt.

(** A process of 10000 bytes, none of them allocated. *)
Definition lazy_frame : Z := 0x80031000.
Definition lazy_proc (root : Z) : proc :=
  proc0 <| p_state := RUNNING |> <| p_pid := 5 |> <| p_sz := 10000 |> <| p_pagetable := root |> <| p_trapframe := lazy_frame |>.
Definition lazy_state (root : Z) (m : memory) (f : Z) : kst :=
  kst0 <| ram := m |> <| freelist := f |> <| procs := [lazy_proc root] |> <| cur := Some 0%nat |>.
Definition lazy_start : kst := lazy_state 0 (ram (spare ∅)) (freelist (spare ∅)).
Definition lazy_hart (root : Z) (m : memory) : machine :=
  mkMachine (λ _, 7) (<[SATP := MAKE_SATP root]> (<[STVEC := TRAMPOLINE]> (λ _, 0))) User 4096 m.

Fixpoint chain_longer (n : nat) (m : memory) (r : Z) : bool :=
  match n with O => true | S n' => negb (r =? 0) && chain_longer n' m (load64 m r) end.

Lemma chain_longer_ok n m r l : chain m r l → chain_longer n m r = true → (n ≤ length l)%nat.
Proof.
  revert r l. induction n as [|n IH]; intros r l Hl Hn; [lia|]. apply andb_prop in Hn as [Hr Hn].
  destruct l as [|p l]; cbn in Hl; [by rewrite Hl in Hr|]. destruct Hl as [-> Hl]. cbn. specialize (IH _ _ Hl Hn). lia.
Qed.

(** Two page tables are made: the first stands for the kernel's. *)
Lemma lazy_runs :
  match proc_pagetable 0 lazy_start with
  | Ok k s1 => negb (k =? 0) && match proc_pagetable 0 s1 with
      Ok r s2 => negb (r =? 0) && chain_longer 4 (ram s2) (freelist s2) | _ => false end
  | _ => false
  end = true.
Proof. by vm_compute. Qed.

Lemma lazy_fields : held lazy_start = [] ∧ procs lazy_start = [lazy_proc 0].
Proof. unfold lazy_start, lazy_state. rsimpl. split; reflexivity. Qed.

Lemma made_space s p fl :
  kmem_wf s fl → held s = [] → procs s = [p] → p_trapframe p = lazy_frame →
  match proc_pagetable 0 s with Ok r _ => negb (r =? 0) | _ => false end = true →
  ∃ r s' T fl', proc_pagetable 0 s = Ok r s' ∧ s' = s <| ram := ram s' |> <| freelist := freelist s' |> ∧
    (∀ q, q mod PGSIZE = 0 → q ∉ fl → same_page (ram s) (ram s') q) ∧ uvm_wf s' r T fl' ∧ process_as T 0 ∧ (∀ q, own T fl' q ↔ q ∈ fl) ∧
    leaf T !! UVPN = Some (pte_of lazy_frame (Z.lor PTE_R PTE_W)) ∧ leaf T !! (UVPN + 1) = Some (pte_of trampoline (Z.lor PTE_R PTE_X)).
Proof.
  intros Hk Hh Hp Htf Hr.
  destruct (proc_pagetable_ok 0 p s fl) as (r & s' & fl' & E & Hs & Hm & Hc); [done|rewrite Hh; apply not_elem_of_nil|by rewrite Hp|rewrite Htf; by vm_compute|].
  rewrite E in Hr. destruct Hc as [[-> _]|(T & Hw & Hpa & Ho & L1 & L2)]; [discriminate Hr|]. rewrite Htf in L1.
  exists r, s', T, fl'. split; [exact E|]. split_and!; assumption.
Qed.

Lemma lazy_tables : ∃ kroot K root T fl m f,
  (3 < length fl)%nat ∧ uvm_wf (lazy_state root m f) root T fl ∧ both root T lazy_frame kroot K m ∧ process_as T 0 ∧
  ∀ q, q = lazy_frame ∨ is_table K q → ¬ own T fl q.
Proof.
  assert (lazy_frame ∉ fork_pages) as Hnf by (apply (bool_decide_unpack _); by vm_compute).
  assert (page_ok lazy_frame) as Hpf by (by vm_compute).
  assert (kmem_wf lazy_start fork_pages) as Hk0.
  { destruct (vm_kmem _ _ _ _ (uv_vm _ _ _ _ (tw_1 _ _ _ _ _ _ fork_demo_two))) as [K1 K2 K3].
    change (kmem_wf lazy_start fork_pages). split; [|exact K2|exact K3]. unfold lazy_start, lazy_state. rsimpl. exact K1. }
  pose proof lazy_runs as Hr. pose proof lazy_fields as [Hh0 Hp0].
  revert Hk0 Hr Hh0 Hp0. generalize lazy_start. intros s0 Hk0 Hr Hh0 Hp0.
  destruct (made_space s0 (lazy_proc 0) fork_pages) as (kroot & s1 & K & fl1 & E1 & F1 & M1 & W1 & _ & O1 & _ & L1); try done.
  { destruct (proc_pagetable 0 s0); try discriminate Hr. by apply andb_prop in Hr as [? _]. }
  rewrite E1 in Hr. apply andb_prop in Hr as [_ Hr].
  assert (lazy_frame ∉ fl1) as Hnf1 by (intros Hin; apply Hnf, O1; by right).
  destruct (made_space s1 (lazy_proc 0) fl1) as (root & s2 & T & fl2 & E2 & F2 & M2 & W2 & P2 & O2 & L2 & L3); try done.
  { apply W1. }
  { rewrite F1. by rsimpl. }
  { rewrite F1. by rsimpl. }
  { destruct (proc_pagetable 0 s1); try discriminate Hr. by apply andb_prop in Hr as [? _]. }
  rewrite E2 in Hr. apply andb_prop in Hr as [_ Hr].
  exists kroot, K, root, T, fl2, (ram s2), (freelist s2).
  assert (∀ q, is_table K q → q ∉ fl1) as Hkt by apply W1.
  split; [apply (chain_longer_ok 4 (ram s2) (freelist s2)); [apply W2|exact Hr]|]. split_and!.
  - eapply uvm_wf_frame; [exact W2|by intros ???|done|]. unfold lazy_state. rsimpl. apply not_elem_of_nil.
  - split; split; try done.
    + apply W2.
    + intros Ht. apply Hnf1, O2. left. by left.
    + eapply pt_rep_frame; [apply W1|]. intros q Hq. apply M2; [|by apply Hkt]. by apply (own_page _ _ _ _ _ W1); left; left.
    + intros Ht. apply Hnf, O1. left. by left.
  - done.
  - intros q [-> |Hq]; rewrite O2; [done|by apply Hkt].
Qed.

Lemma lazy_ready : ∃ kroot K root T fl m f,
  user_ready (lazy_hart root m) (lazy_state root m f) 0 (lazy_proc root) T kroot K ∧
  uvm_wf (lazy_state root m f) root T fl ∧ (3 < length fl)%nat ∧
  (∀ q, q = lazy_frame ∨ is_table K q → ¬ own T fl q) ∧ leaf T !! (5000 / 4096) = None.
Proof.
  destruct lazy_tables as (kroot & K & root & T & fl & m & f & Hlen & Hw & Hb & Hpa & Hno).
  pose proof (page_ok_bound _ (rep_root_ok _ _ _ (kt_rep _ _ _ _ (proj2 Hb)))) as [Hr _].
  set (ksp := u64 (p_kstack (lazy_proc root) + PGSIZE)).
  exists kroot, K, root, T, fl, (prepared_mem m lazy_frame (MAKE_SATP kroot) ksp 0), f.
  pose proof (prepared_ready m lazy_frame kroot (lazy_proc root) 0 Hr) as Hf. fold ksp in Hf.
  pose proof (prepared_both _ _ _ _ _ m (MAKE_SATP kroot) ksp 0 Hb) as Hb'.
  assert (uvm_wf (lazy_state root (prepared_mem m lazy_frame (MAKE_SATP kroot) ksp 0) f) root T fl) as Hw'.
  { eapply uvm_wf_frame; [exact Hw| |reflexivity|unfold lazy_state; rsimpl; apply not_elem_of_nil]. intros q Hq.
    apply (frame_same _ _ lazy_frame); [reflexivity|apply (own_page _ _ _ _ _ Hw Hq)|intros ->; by apply (Hno lazy_frame (or_introl eq_refl))|].
    intros a Ha. unfold lazy_state. rsimpl. apply prepared_outside. lia. }
  clear Hw Hb. clearbody ksp. revert Hb' Hf Hw'. generalize (prepared_mem m lazy_frame (MAKE_SATP kroot) ksp 0). intros m' Hb' Hf Hw'.
  split; [|split; [exact Hw'|split; [exact Hlen|split; [exact Hno|apply (process_0 T _ Hpa); by vm_compute]]]].
  split; unfold lazy_state; rsimpl; try exact Hb'; try reflexivity; try exact Hf.
  - by split_and!.
  - intros []; by vm_compute.
  - split; [reflexivity|]. by vm_compute.
  - split; reflexivity.
Qed.

(** A store to address 5000 of that process. *)
Lemma page_fault_transparent_witness :
  ∃ root m y z w pa, translate m (x_csr (lazy_hart root m)) User Store 5000 = None ∧
    run tramp_code trampoline (length uservec_code) (take_trap SCAUSE_STORE 5000 (lazy_hart root m)) = Some y ∧
    run tramp_code trampoline (length userret_code) z = Some w ∧ x_mode w = User ∧ x_pc w = 4096 ∧ x_reg w A0 = 7 ∧
    translate (x_mem w) (x_csr w) (x_mode w) Store 5000 = Some pa ∧ ldb (x_mem w) pa = 0.
Proof.
  destruct lazy_ready as (kroot & K & root & T & fl & m & f & U & Hw & Hlen & Hno & Hnone).
  destruct (page_fault_transparent (lazy_hart root m) (lazy_state root m f) 0 (lazy_proc root) T kroot K fl (mkDev 0 true []) Store 5000
    tramp_fits_four (eq_refl : @uservec qemu_layout = @trampoline qemu_layout) U Hw Hlen Hno)
    as (Hn & y & E & _ & s2 & T' & fl' & _ & _ & _ & Hz); [discriminate|by vm_compute|by vm_compute|exact Hnone|].
  set (z := mkMachine (<[A0 := MAKE_SATP root]> (λ _, 0)) (<[SATP := r_satp (State.csr s2)]> (<[SEPC := r_sepc (State.csr s2)]>
    (<[SSTATUS := r_sstatus (State.csr s2)]> (<[STVEC := r_stvec (State.csr s2)]> (λ _, 0))))) Supervisor (x_reg y RA) (ram s2)).
  destruct (Hz z) as (w & Ew & Uw & Hpc & Hr & pa & Hpa & H0); [split; [reflexivity..|]; split_and!; reflexivity|].
  exists root, m, y, z, w, pa. split; [exact Hn|]. split; [exact E|]. split; [exact Ew|]. split; [apply (ur_user _ _ _ _ _ _ _ Uw)|].
  split; [exact Hpc|]. split; [rewrite (Hr A0) by discriminate; reflexivity|]. split; [exact Hpa|exact H0].
Defined.

End Witnesses.
