(* ===== verification/Limits.v ===== *)
(** * The usage limit, and system calls with bad arguments

    What a timer interrupt does to the process it interrupts in user space,
    that a process with a usage limit is killed within a bounded number of
    timer interrupts and then never returns to user space ([clockintr] and
    [usertrap] of [kernel/trap.c], [kexit] of [kernel/proc.c]), and what the
    system-call layer does with an unknown call or file descriptor. *)

From Stdlib Require Import ZArith Lia.
From S2P Require Import Prelude Params CString State Process Vm Bytes Sleeplock Bio BioRep Cache Log Fs Console File Lifecycle Exec Sysarg Sysproc Sysfile Syscall Trap.
From stdpp Require Import base gmap strings numbers list.

Open Scope Z_scope.

(** The process after a timer interrupt has been charged to it. *)
Definition tick_cpu (p : proc) : proc := p <| p_cpu_ticks := u64 (p_cpu_ticks p + 1) |>.
Definition mark_over (p : proc) : proc := if over_limit p then p <| p_killed := 1 |> else p.
Definition ticked (p : proc) : proc := (mark_over (charge_tick (tick_cpu p))) <| p_state := RUNNABLE |>.

Section Limits.
Context `{HL : Layout, HW : Wakeups, HB : BlockDev, HU : Uninit, HD : DiskIntr}.

(** Process [i] is trapped from user space, on this hart. *)
Record user_trap (i : nat) (p : proc) (s : kst) : Prop := {
  ut_cur : cur s = Some i;
  ut_held : held s = [];
  ut_len : length (procs s) = NPROC;
  ut_proc : procs s !! i = Some p;
  ut_state : p_state p = RUNNING;
  ut_frame : phys_ok (p_trapframe p + TF_EPC) 8 = true;
  ut_spp : Z.land (r_sstatus (csr s)) SSTATUS_SPP = 0
}.

Lemma wake_self i p chan (l : list proc) :
  l !! i = Some p → imap (wake chan (Some i)) l !! i = Some p.
Proof. intros Hp. rewrite list_lookup_imap, Hp. cbn. unfold wake. by rewrite bool_decide_true. Qed.

(** The first part of [clockintr], on the hart that keeps the time, changes
    nothing of the process it runs in. *)
Lemma clockintr_ok i p s :
  user_trap i p s →
  ∃ s', clockintr s = Ok tt s' ∧ cur s' = Some i ∧ held s' = [] ∧ length (procs s') = NPROC ∧
    procs s' !! i = Some (tick_cpu p).
Proof.
  intros [Hc Hh Hlen Hp Hst _ _]. unfold clockintr. kstep.
  set (m := when hartid s =? 0 do _).
  assert (∃ s1, m s = Ok tt s1 ∧ cur s1 = Some i ∧ held s1 = [] ∧ length (procs s1) = NPROC ∧ procs s1 !! i = Some p)
    as (s1 & E & Hc1 & Hh1 & Hl1 & Hp1); [|clearbody m].
  { unfold m. destruct (hartid s =? 0); [|by exists s].
    erewrite bind_ok by (apply acquire_ok; rewrite Hh; apply not_elem_of_nil). kstep.
    erewrite bind_ok by (apply wakeup_ok; split; rsimpl; [done|rewrite Hh; by intros j ?%list_elem_of_singleton]).
    rsimpl. kstep. rewrite Hc. kstep. erewrite release_top; [|by rsimpl|rewrite Hh; apply not_elem_of_nil].
    eexists. split; [done|]. rsimpl. rewrite Hc, length_imap. split_and!; [done|done|done|by apply wake_self]. }
  erewrite bind_ok by exact E. unfold myproc. kstep. rewrite Hc1. erewrite bind_ok; cycle 1.
  { erewrite bind_ok by (by apply getp_ok). unfold is_state. rewrite bool_decide_true by done.
    by apply (updp_ok i _ p). }
  eexists. split; [done|]. rsimpl. rewrite length_insert. split_and!; [done..|].
  apply list_lookup_insert_eq. by eapply lookup_lt_Some.
Qed.

Lemma updp_at i f p s :
  procs s !! i = Some p → ∃ s', updp i f s = Ok tt s' ∧ s' = s <| procs := <[i := f p]> (procs s) |> ∧ procs s' !! i = Some (f p).
Proof.
  intros Hp. eexists. split; [by apply updp_ok|]. split; [done|]. rsimpl. apply list_lookup_insert_eq. by eapply lookup_lt_Some.
Qed.

Lemma yield_ok i p s :
  cur s = Some i → held s = [] → procs s !! i = Some p →
  ∃ s' k, yield s = Swtch s' k ∧ procs s' !! i = Some (p <| p_state := RUNNABLE |>) ∧ cur s' = Some i.
Proof.
  intros Hc Hh Hp. unfold yield, curproc, myproc. rewrite (bind_ok _ _ s i s) by (kstep; by rewrite Hc).
  erewrite bind_ok by (apply acquire_ok; rewrite Hh; apply not_elem_of_nil).
  destruct (updp_at i (λ p, p <| p_state := RUNNABLE |>) p (s <| held := Lproc i :: held s |>))
    as (s1 & E1 & Hs1 & Hp1); [by rsimpl|]. erewrite bind_ok by exact E1. clear E1.
  assert (sched s1 = Swtch s1 (λ s', Ok tt s')) as E.
  { unfold sched, curproc, myproc. rewrite (bind_ok _ _ s1 i s1) by (kstep; rewrite Hs1; rsimpl; by rewrite Hc).
    kstep. replace (held s1) with [Lproc i] by (rewrite Hs1; rsimpl; by rewrite Hh).
    unfold holding. rewrite bool_decide_true by (rewrite Hs1; rsimpl; left). cbn [negb]. kstep.
    replace (held s1) with [Lproc i] by (rewrite Hs1; rsimpl; by rewrite Hh). cbn [length Nat.eqb negb].
    erewrite bind_ok by (apply getp_ok; exact Hp1). unfold is_state. rewrite bool_decide_false by (rsimpl; done). done. }
  unfold bind. rewrite E. cbn. eexists _, _. split; [done|]. split; [done|]. rewrite Hs1. by rsimpl.
Qed.

Lemma account_tick_ok i p s :
  cur s = Some i → held s = [] → procs s !! i = Some p →
  ∃ s' k, account_tick i s = Swtch s' k ∧ procs s' !! i = Some ((mark_over (charge_tick p)) <| p_state := RUNNABLE |>).
Proof.
  intros Hc Hh Hp. unfold account_tick.
  erewrite bind_ok by (apply acquire_ok; rewrite Hh; apply not_elem_of_nil).
  destruct (updp_at i charge_tick p (s <| held := Lproc i :: held s |>)) as (s1 & E1 & Hs1 & Hp1); [by rsimpl|].
  erewrite bind_ok by exact E1. erewrite bind_ok by (apply getp_ok; exact Hp1). clear E1.
  set (m := when over_limit (charge_tick p) do _).
  assert (∃ s2, m s1 = Ok tt s2 ∧ cur s2 = Some i ∧ held s2 = [Lproc i] ∧ procs s2 !! i = Some (mark_over (charge_tick p)))
    as (s2 & E2 & Hc2 & Hh2 & Hp2); [|clearbody m].
  { unfold m, mark_over. assert (cur s1 = Some i ∧ held s1 = [Lproc i]) as [? ?] by (rewrite Hs1; rsimpl; by rewrite Hh).
    destruct (over_limit (charge_tick p)); [|by exists s1]. unfold printk. kstep.
    destruct (updp_at i (λ p, p <| p_killed := 1 |>) (charge_tick p)
                (s1 <| printed ::= List.cons ("process %d (%s) exceeded cpu limit (%d ticks)",
                         p_pid (charge_tick p) :: s32 (p_cpu_ticks_limit (charge_tick p)) :: p_name (charge_tick p)) |>))
      as (s2 & E2 & -> & Hp2); [by rsimpl|]. eexists. split; [exact E2|]. by rsimpl. }
  erewrite bind_ok by exact E2.
  erewrite bind_ok by (eapply release_top; [exact Hh2|apply not_elem_of_nil]).
  destruct (yield_ok i (mark_over (charge_tick p)) (s2 <| held := [] |>)) as (s3 & k & E3 & Hp3 & _); [by rsimpl..|].
  by exists s3, k.
Qed.

(** ** A timer interrupt from user space *)

(** Up to the check of [killed], [usertrap] of a timer interrupt is
    [clockintr]. *)
Lemma usertrap_timer i p d s :
  user_trap i p s → r_scause (csr s) = SCAUSE_TIMER →
  ∃ s1, cur s1 = Some i ∧ held s1 = [] ∧ procs s1 !! i = Some (tick_cpu p) ∧
    usertrap d s =
      ((when negb (p_killed p =? 0) do kexit (-1)) ;;;
       account_tick i ;;; prepare_return ;;; p <- getp i ;; ret (MAKE_SATP (p_pagetable p))) s1.
Proof.
  intros Hut Hcause. pose proof Hut as [Hc Hh Hlen Hp Hst Hf Hspp].
  unfold usertrap, getcsr, updcsr. kstep. rewrite Hspp. cbn [Z.eqb negb]. kstep.
  unfold curproc, myproc. erewrite bind_ok by (kstep; by rewrite Hc).
  erewrite bind_ok by (by apply getp_ok). erewrite bind_ok by (by apply st64_ok). rsimpl.
  set (s0 := _ <| ram := _ |>). assert (user_trap i p s0 ∧ csr s0 = (csr s) <| r_stvec := kernelvec |>) as [Hut0 Hcsr].
  { split; [split|]; unfold s0; rsimpl; done. }
  clearbody s0. destruct (clockintr_ok i p s0 Hut0) as (s1 & E & Hc1 & Hh1 & Hl1 & Hp1).
  assert (usertrap_cause i d s0 = Ok 2 s1) as Ecause.
  { unfold usertrap_cause, getcsr. kstep. rewrite Hcsr. rsimpl. rewrite Hcause. cbn [Z.eqb Pos.eqb SCAUSE_TIMER SCAUSE_ECALL].
    unfold devintr, getcsr. erewrite bind_ok; [|kstep; rewrite Hcsr; rsimpl; rewrite Hcause; cbn [Z.eqb Pos.eqb SCAUSE_TIMER SCAUSE_EXTERNAL];
      erewrite bind_ok by exact E; reflexivity]. reflexivity. }
  exists s1. split_and!; [done..|]. erewrite bind_ok by exact Ecause.
  erewrite bind_ok by (apply (killed_ok i (tick_cpu p)); [rewrite Hh1; apply not_elem_of_nil|done]).
  unfold tick_cpu. rsimpl. reflexivity.
Qed.

(** A process that is not killed is charged and gives up the CPU. *)
Lemma usertrap_tick i p d s :
  user_trap i p s → r_scause (csr s) = SCAUSE_TIMER → p_killed p = 0 →
  ∃ s' k, usertrap d s = Swtch s' k ∧ procs s' !! i = Some (ticked p).
Proof.
  intros Hut Hcause Hk. destruct (usertrap_timer i p d s Hut Hcause) as (s1 & Hc & Hh & Hp & ->).
  rewrite Hk. cbn [Z.eqb negb]. kstep.
  destruct (account_tick_ok i (tick_cpu p) s1 Hc Hh Hp) as (s2 & k & E & Hp2).
  unfold bind at 1. rewrite E. cbn [bind_res]. by eexists _, _.
Qed.

(** ** kexit does not return *)

Lemma panic_never {A} m (s : kst) (a : A) s' : ¬ finishes (panic m s) a s'.
Proof. by inversion 1. Qed.

(** Past the next call of a routine that finishes. *)
Ltac fin_step Hf :=
  match type of Hf with finishes (bind _ _ _) _ _ => apply finishes_bind in Hf as (? & ? & _ & Hf) end.

Lemma kexit_never status s a s' : ¬ finishes (kexit status s) a s'.
Proof.
  unfold kexit. intros Hf. do 2 fin_step Hf. destruct (bool_decide _); [exact (panic_never _ _ _ _ Hf)|].
  repeat fin_step Hf. exact (panic_never _ _ _ _ Hf).
Qed.

Lemma usertrap_killed_never i p d s r s' :
  user_trap i p s → r_scause (csr s) = SCAUSE_TIMER ∨ r_scause (csr s) = SCAUSE_ECALL → p_killed p ≠ 0 →
  ¬ finishes (usertrap d s) r s'.
Proof.
  intros Hut [Hcause|Hcause] Hk Hf.
  - destruct (usertrap_timer i p d s Hut Hcause) as (s1 & _ & _ & _ & E). rewrite E in Hf. clear E.
    rewrite (proj2 (Z.eqb_neq _ _) Hk) in Hf. apply finishes_bind in Hf as (? & ? & Hf & _). exact (kexit_never _ _ _ _ Hf).
  - destruct Hut as [Hc Hh Hlen Hp Hst Hfr Hspp]. unfold usertrap, getcsr, updcsr in Hf. revert Hf. kstep.
    rewrite Hspp. cbn [Z.eqb negb]. kstep. unfold curproc, myproc. erewrite bind_ok by (kstep; by rewrite Hc).
    erewrite bind_ok by (by apply getp_ok). erewrite bind_ok by (by apply st64_ok). intros Hf.
    apply finishes_bind in Hf as (? & ? & Hf & _). revert Hf. unfold usertrap_cause, getcsr. kstep.
    rewrite Hcause. cbn [Z.eqb Pos.eqb SCAUSE_ECALL].
    erewrite bind_ok by (apply (killed_ok i p); rsimpl; [rewrite Hh; apply not_elem_of_nil|done]).
    rewrite (proj2 (Z.eqb_neq _ _) Hk). intros Hf. apply finishes_bind in Hf as (? & ? & Hf & _). exact (kexit_never _ _ _ _ Hf).
Qed.

(** ** A process over its usage limit *)

(** Traps of process [i]: [run k] is the state at the [k]-th, a timer
    interrupt.  As long as the process is not killed, whatever runs between
    two traps leaves its tick count, its limit and its [killed] flag as the
    trap left them. *)
Record timer_run (i : nat) (d : nat → devices) (run : nat → kst) (p : nat → proc) : Prop := {
  tr_trap : ∀ k, user_trap i (p k) (run k) ∧ r_scause (csr (run k)) = SCAUSE_TIMER;
  tr_next : ∀ k s' κ q, p_killed (p k) = 0 → usertrap (d k) (run k) = Swtch s' κ → procs s' !! i = Some q →
    p_cpu_ticks (p (S k)) = p_cpu_ticks q ∧ p_cpu_ticks_limit (p (S k)) = p_cpu_ticks_limit q ∧
    p_killed (p (S k)) = p_killed q
}.

Lemma ticked_limit p : p_cpu_ticks_limit (ticked p) = p_cpu_ticks_limit p.
Proof. unfold ticked, mark_over. destruct (over_limit _); unfold charge_tick, tick_cpu; by rsimpl. Qed.

Lemma ticked_fields p :
  0 ≤ p_cpu_ticks p < 2 ^ 64 - 1 → 0 < p_cpu_ticks_limit p →
  p_cpu_ticks (ticked p) = p_cpu_ticks p + 1 ∧
  p_killed (ticked p) = if p_cpu_ticks_limit p <? p_cpu_ticks p + 1 then 1 else p_killed p.
Proof.
  intros Hc Hl. unfold ticked, mark_over, over_limit, charge_tick, tick_cpu. rsimpl. rewrite u64_small by lia.
  replace (p_cpu_ticks_limit p >? 0) with true by lia. rewrite Z.gtb_ltb. cbn [andb]. destruct (_ <? _); rsimpl; done.
Qed.

Lemma timer_run_step i d run p k L :
  timer_run i d run p → p_killed (p k) = 0 → 0 ≤ p_cpu_ticks (p k) < 2 ^ 64 - 1 → 0 < L → p_cpu_ticks_limit (p k) = L →
  p_cpu_ticks (p (S k)) = p_cpu_ticks (p k) + 1 ∧ p_cpu_ticks_limit (p (S k)) = L ∧
  (p_cpu_ticks (p k) + 1 ≤ L → p_killed (p (S k)) = 0) ∧ (L < p_cpu_ticks (p k) + 1 → p_killed (p (S k)) = 1).
Proof.
  intros [Ht Hn] Hk Hc Hl Hlim. destruct (Ht k) as [Hut Hcause].
  destruct (usertrap_tick i (p k) (d k) (run k) Hut Hcause Hk) as (s' & κ & E & Hq).
  destruct (Hn k s' κ _ Hk E Hq) as (-> & -> & ->). rewrite ticked_limit.
  destruct (ticked_fields (p k) Hc ltac:(lia)) as [-> ->]. rewrite Hlim, Hk.
  split_and!; [done..| |]; intros; [by rewrite (proj2 (Z.ltb_ge _ _)) by lia|by rewrite (proj2 (Z.ltb_lt _ _)) by lia].
Qed.

(** C23: A process with a usage limit that keeps being interrupted by the timer
    in user space is stopped: after at most as many timer interrupts as it has
    ticks left, and one more, its [killed] flag is set, and the trap it is in
    then never returns to user space. *)
Theorem usage_limit_stops i d run p :
  timer_run i d run p →
  0 < p_cpu_ticks_limit (p 0%nat) < 2 ^ 63 → 0 ≤ p_cpu_ticks (p 0%nat) < 2 ^ 63 →
  ∃ k, Z.of_nat k ≤ Z.max 0 (p_cpu_ticks_limit (p 0%nat) - p_cpu_ticks (p 0%nat)) + 1 ∧
    p_killed (p k) ≠ 0 ∧ ∀ r s', ¬ finishes (usertrap (d k) (run k)) r s'.
Proof.
  intros Hrun. remember (p_cpu_ticks_limit (p 0%nat)) as L eqn:El. remember (p_cpu_ticks (p 0%nat)) as c eqn:Hc. intros Hlr Hcr.
  assert (∀ k, p_killed (p k) ≠ 0 → ∀ r s', ¬ finishes (usertrap (d k) (run k)) r s') as Hend.
  { intros k Hk r s'. destruct (tr_trap _ _ _ _ Hrun k) as [Hut Hcause]. by eapply usertrap_killed_never; [exact Hut|left|]. }
  assert (∀ k, (∃ j, (j <= k)%nat ∧ p_killed (p j) ≠ 0) ∨
    (p_killed (p k) = 0 ∧ p_cpu_ticks (p k) = c + Z.of_nat k ∧ p_cpu_ticks_limit (p k) = L ∧ (k = 0%nat ∨ c + Z.of_nat k ≤ L))) as Hall.
  { induction k as [|k [(j & Hj & Hk)|(Hk & Hck & Hlk & Hle)]].
    - destruct (decide (p_killed (p 0%nat) = 0)); [right|left; by exists 0%nat]. split_and!; [done|lia|done|by left].
    - left. exists j. split; [lia|done].
    - destruct (timer_run_step i d run p k L Hrun Hk ltac:(lia) ltac:(lia) Hlk) as (Hc' & Hl' & Hlow & Hhigh).
      destruct (Z.le_gt_cases (p_cpu_ticks (p k) + 1) L) as [Hle'|Hgt].
      + right. split_and!; [by apply Hlow|lia|done|right; lia].
      + left. exists (S k). split; [lia|]. rewrite Hhigh by lia. done. }
  destruct (Hall (Z.to_nat (Z.max 0 (L - c) + 1))) as [(j & Hj & Hk)|(_ & _ & _ & [H0|Hle])]; [|lia|lia].
  exists j. split_and!; [lia|done|by apply Hend].
Qed.

(** ** Bad system calls *)

(** The argument registers of the current process can be read. *)
Record args_ok (i : nat) (p : proc) (s : kst) : Prop := {
  ao_cur : cur s = Some i;
  ao_proc : procs s !! i = Some p;
  ao_frame : ∀ n, 0 ≤ n ≤ 7 → phys_ok (p_trapframe p + TF_A n) 8 = true
}.
Definition arg (p : proc) (s : kst) (n : Z) : Z := load64 (ram s) (p_trapframe p + TF_A n).

Lemma argraw_ok i p s n : args_ok i p s → 0 ≤ n ≤ 5 → argraw n s = Ok (arg p s n) s.
Proof.
  intros [Hc Hp Hf] Hn. unfold argraw. erewrite bind_ok by (by apply curproc_ok).
  erewrite bind_ok by (by apply getp_ok). replace ((0 <=? n) && (n <=? 5)) with true by lia.
  apply ld64_ok, Hf. lia.
Qed.

Lemma argint_ok i p s n : args_ok i p s → 0 ≤ n ≤ 5 → argint n s = Ok (s32 (arg p s n)) s.
Proof. intros Ha Hn. unfold argint. by erewrite bind_ok by (by eapply argraw_ok). Qed.

(** The first argument does not name an open file. *)
Definition bad_fd (p : proc) (s : kst) : Prop :=
  ∀ fd f, s32 (arg p s 0) = Z.of_nat fd → p_ofile p !! fd ≠ Some (Some f).

Lemma argfd_bad i p s : args_ok i p s → length (p_ofile p) = NOFILE → bad_fd p s → argfd 0 s = Ok None s.
Proof.
  intros Ha Hlen Hbad. unfold argfd. erewrite bind_ok by (eapply argint_ok; [done|lia]).
  destruct ((s32 (arg p s 0) <? 0) || (s32 (arg p s 0) >=? Z.of_nat NOFILE)) eqn:E; [done|].
  apply orb_false_iff in E as [E1 E2]. destruct Ha as [Hc Hp _].
  erewrite bind_ok by (by apply curproc_ok). erewrite bind_ok by (by apply getp_ok).
  destruct (lookup_lt_is_Some_2 (p_ofile p) (Z.to_nat (s32 (arg p s 0)))) as [o Ho]; [lia|].
  kstep. destruct o as [f|]; [|done]. by destruct (Hbad (Z.to_nat (s32 (arg p s 0))) f ltac:(lia)).
Qed.

(** [read], [write], [close], [dup] and [fstat] with a descriptor that is
    negative, at least [NOFILE], or closed return -1 and change nothing. *)
Theorem bad_fd_rejected i p s h :
  args_ok i p s → length (p_ofile p) = NOFILE → bad_fd p s →
  h ∈ [sys_read; sys_write; sys_close; sys_dup; sys_fstat uninit_stat] → h s = Ok (-1) s.
Proof.
  intros Ha Hlen Hbad Hh. pose proof (argfd_bad i p s Ha Hlen Hbad) as E.
  repeat (apply elem_of_cons in Hh as [->|Hh]); [| | | | |by apply not_elem_of_nil in Hh].
  - unfold sys_read, argaddr. do 2 (erewrite bind_ok by (first [eapply argint_ok|eapply argraw_ok]; [done|lia])). by erewrite bind_ok by exact E.
  - unfold sys_write, argaddr. do 2 (erewrite bind_ok by (first [eapply argint_ok|eapply argraw_ok]; [done|lia])). by erewrite bind_ok by exact E.
  - unfold sys_close. by erewrite bind_ok by exact E.
  - unfold sys_dup. by erewrite bind_ok by exact E.
  - unfold sys_fstat, argaddr. erewrite bind_ok by (eapply argraw_ok; [done|lia]). by erewrite bind_ok by exact E.
Qed.

(** The calls of the table. *)
Lemma lookup_call_known num : is_Some (lookup_call num syscalls) ↔ 1 ≤ num ≤ 28.
Proof.
  assert (∀ l : list (sysno * KM Z), is_Some (lookup_call num l) ↔ num ∈ sys_number <$> l.*1) as H.
  { induction l as [|[k h] l IH]; cbn; [rewrite is_Some_alt; by rewrite elem_of_nil|].
    rewrite elem_of_cons. destruct (Z.eqb_spec num k) as [->|Hne]; [split; [by left|eauto]|]. rewrite IH. naive_solver. }
  rewrite H. change (sys_number <$> syscalls.*1) with (seqZ 1 28). rewrite elem_of_seqZ. lia.
Qed.

(** A system-call number that is not in the table is reported, [a0] gets -1,
    and nothing else changes. *)
Theorem syscall_unknown i p s :
  args_ok i p s → ¬ 1 ≤ s32 (arg p s 7) ≤ 28 →
  syscall s = Ok tt (s <| printed ::= List.cons ("%d %s: unknown sys call %d", p_pid p :: s32 (arg p s 7) :: p_name p) |>
                       <| ram ::= λ m, store64 m (p_trapframe p + TF_A 0) (-1) |>).
Proof.
  intros [Hc Hp Hf] Hn. unfold syscall. erewrite bind_ok by (by apply curproc_ok). erewrite bind_ok by (by apply getp_ok).
  erewrite bind_ok by (apply ld64_ok, Hf; lia). fold (arg p s 7). rewrite <- lookup_call_known in Hn.
  destruct (lookup_call _ _); [by destruct Hn; eauto|]. unfold printk. kstep. unfold st64. by rewrite Hf by lia.
Qed.

End Limits.

(** ** A process limited to two ticks *)

Definition limited_proc (k : nat) : proc :=
  proc0 <| p_state := RUNNING |> <| p_trapframe := 0x87000000 |> <| p_cpu_ticks := Z.of_nat k |>
    <| p_cpu_ticks_limit := 2 |> <| p_killed := if (2 <? Z.of_nat k) then 1 else 0 |>.
Definition limited_run (k : nat) : kst :=
  kst0 <| cur := Some 0%nat |> <| procs ::= <[0%nat := limited_proc k]> |>
    <| csr := mkCsrs 0 0 SCAUSE_TIMER 0 0 0 0 0 |>.

#[local] Instance limit_layout : Layout := Build_Layout 0x80020000 0x80010000 0x80009000 0 0 0 0 0.
#[local] Instance limit_wakeups : Wakeups := 0%nat.
#[local] Instance limit_disk : BlockDev := ram_disk.
#[local] Instance limit_uninit : Uninit := Build_Uninit [] [] [].
#[local] Instance limit_intr : DiskIntr := ret tt.

Lemma limited_run_ok d : timer_run 0 d limited_run limited_proc.
Proof.
  assert (∀ k, user_trap 0 (limited_proc k) (limited_run k) ∧ r_scause (csr (limited_run k)) = SCAUSE_TIMER) as Htrap
    by (intros k; split; [split; reflexivity|reflexivity]).
  split; [exact Htrap|]. intros k s' κ q Hk E Hq. destruct (Htrap k) as [Hut Hc].
  destruct (usertrap_tick 0 (limited_proc k) (d k) (limited_run k) Hut Hc Hk) as (s1 & κ1 & E1 & Hq1).
  rewrite E1 in E. injection E as <- _. rewrite Hq1 in Hq. injection Hq as <-. clear E1 Hq1 Htrap Hut Hc.
  assert (Z.of_nat k ≤ 2) as Hle by (unfold limited_proc in Hk; revert Hk; rsimpl; destruct (Z.ltb_spec 2 (Z.of_nat k)); [done|lia]).
  rewrite ticked_limit. destruct (ticked_fields (limited_proc k)) as [-> ->]; unfold limited_proc; rsimpl; [lia|lia|].
  rewrite (proj2 (Z.ltb_ge 2 (Z.of_nat k))) by lia. split_and!; [lia|done|]. by replace (Z.of_nat (S k)) with (Z.of_nat k + 1) by lia.
Qed.

Lemma usage_limit_stops_witness :
  ∃ k, Z.of_nat k ≤ 3 ∧ p_killed (limited_proc k) ≠ 0 ∧
    ∀ r s', ¬ finishes (usertrap (mkDev 0 true []) (limited_run k)) r s'.
Proof.
  destruct (usage_limit_stops 0 (λ _, mkDev 0 true []) limited_run limited_proc (limited_run_ok _)) as (k & Hk & H);
    [vm_compute; auto|vm_compute; split; [discriminate|reflexivity]|].
  exists k. split; [exact Hk|exact H].
Defined.

(** The registers of [limited_run 0] are zero, and no file is open. *)
Lemma limited_args : args_ok 0 (limited_proc 0) (limited_run 0).
Proof.
  split; [reflexivity..|]. intros n Hn. unfold phys_ok, limited_proc, TF_A. rsimpl.
  unfold KERNBASE, PHYSTOP, KERNBASE. apply andb_true_iff. split; apply Z.leb_le; lia.
Qed.

Lemma bad_fd_rejected_witness : sys_read (limited_run 0) = Ok (-1) (limited_run 0).
Proof.
  apply (bad_fd_rejected 0 (limited_proc 0)); [exact limited_args|reflexivity| |left].
  intros fd f H. change (s32 (arg (limited_proc 0) (limited_run 0) 0)) with 0 in H.
  replace fd with 0%nat by lia. discriminate.
Defined.

Lemma syscall_unknown_witness :
  ∃ s', syscall (limited_run 0) = Ok tt s' ∧ load64 (ram s') (0x87000000 + TF_A 0) = 2 ^ 64 - 1.
Proof.
  eexists. split; [apply (syscall_unknown 0 (limited_proc 0)); [exact limited_args|vm_compute; intros [H _]; by apply H]|].
  vm_compute. reflexivity.
Defined.

(** ** kill(0)

    Free slots have pid 0, so [kill(0)] finds one and sets its [killed] flag,
    which [allocproc] does not reset: the next process is killed from birth. *)
Definition free_page (k : Z) : Z := 0x87000000 + k * PGSIZE.
Definition spare_pages : kst :=
  kst0 <| freelist := free_page 1 |>
    <| ram := store64 (store64 (store64 (store64 ∅ (free_page 4) 0) (free_page 3) (free_page 4))
                (free_page 2) (free_page 3)) (free_page 1) (free_page 2) |>.

Definition born_killed : option (Z * Z * Z) :=
  match kkill 0 spare_pages with
  | Ok r s =>
      match allocproc s with
      | Ok (Some i) s' => match procs s' !! i with Some p => Some (r, p_pid p, p_killed p) | None => None end
      | _ => None
      end
  | _ => None
  end.

Lemma kill_zero_kills_next : born_killed = Some (0, 1, 1).
Proof. vm_compute. reflexivity. Qed.
