(* ===== verification/Wf.v ===== *)
(** * Well-formed process tables

    The fields of [struct proc] stay in the ranges of their C types, and in
    the ranges the scheduler and the system calls rely on, through every
    routine of the kernel that a trap or the scheduler can reach.  [Keeps m]
    says so of a routine: at each point where it stops or switches to the
    scheduler the table is well formed, if it is so when the routine starts
    and whenever it is resumed. *)

From Stdlib Require Import ZArith Lia.
From S2P Require Import Prelude Params CString State Kalloc Process Sched Vm Bytes Pipe Sleeplock Bio BioRep Cache Log Fs Dir Console File Lifecycle Exec Sysarg Sysproc Sysfile Syscall Trap Limits.
From stdpp Require Import base gmap strings numbers list.

Open Scope Z_scope.

Definition int32 (z : Z) : Prop := - 2 ^ 31 ≤ z < 2 ^ 31.
Definition uint32 (z : Z) : Prop := 0 ≤ z < 2 ^ 32.
Definition uint64 (z : Z) : Prop := 0 ≤ z < 2 ^ 64.

Record proc_wf (p : proc) : Prop := {
  pw_mode : p_power_mode p = POWER_NORMAL ∨ p_power_mode p = POWER_ECO;
  pw_budget : 0 ≤ p_cpu_budget p < 2 ^ 31;
  pw_used : int32 (p_ticks_used p);
  pw_total : int32 (p_ticks_total p);
  pw_window : uint32 (p_budget_window_start p);
  pw_eco : 0 ≤ p_eco_skip_counter p < ECO_SKIP_INTERVAL;
  pw_killed : p_killed p = 0 ∨ p_killed p = 1;
  pw_cpu : uint64 (p_cpu_ticks p);
  pw_limit : uint64 (p_cpu_ticks_limit p);
  pw_count : uint64 (p_sched_count p);
  pw_writes : uint64 (p_disk_writes p);
  pw_ofile : length (p_ofile p) = NOFILE;
  pw_name : length (p_name p) = 16%nat;
  pw_free : p_state p = UNUSED → p_pid p = 0
}.

Record kst_wf (s : kst) : Prop := {
  kw_len : length (procs s) = NPROC;
  kw_procs : Forall proc_wf (procs s);
  kw_ticks : uint32 (ticks s)
}.

(** ** The judgement and its rules *)

Fixpoint safe {A} (Q : A → Prop) (r : res kst A) : Prop :=
  match r with
  | Ok a s => kst_wf s ∧ Q a
  | Swtch s k => kst_wf s ∧ ∀ s', kst_wf s' → safe Q (k s')
  | Panic _ | Fault | OutOfFuel => True
  end.

Definition Keeps {A} (m : KM A) (Q : A → Prop) : Prop := ∀ s, kst_wf s → safe Q (m s).
Definition any {A} (_ : A) : Prop := True.

Lemma safe_bind {A B} (r : res kst A) (f : A → KM B) (Q : A → Prop) (R : B → Prop) :
  safe Q r → (∀ a, Q a → Keeps (f a) R) → safe R (bind_res r f).
Proof.
  intros Hr Hf. induction r as [a s|m| |s k IH|]; cbn in *; try done.
  - destruct Hr as [Hs Ha]. by apply Hf.
  - destruct Hr as [Hs Hk]. split; [done|]. intros s' Hs'. by apply IH, Hk.
Qed.

Lemma keeps_bind {A B} (m : KM A) (f : A → KM B) Q R :
  Keeps m Q → (∀ a, Q a → Keeps (f a) R) → Keeps (bind m f) R.
Proof. intros Hm Hf s Hs. unfold bind. eapply safe_bind; [by apply Hm|done]. Qed.

Lemma keeps_weaken {A} (m : KM A) (Q R : A → Prop) : Keeps m Q → (∀ a, Q a → R a) → Keeps m R.
Proof.
  intros Hm HQ s Hs. specialize (Hm s Hs). induction (m s) as [a s'|msg| |s' k IH|]; cbn in *; try done.
  - naive_solver.
  - destruct Hm as [Hs' Hk]. split; [done|]. intros s2 Hs2. by apply IH, Hk.
Qed.

Lemma keeps_ret {A} (a : A) (Q : A → Prop) : Q a → Keeps (ret a) Q.
Proof. by intros Ha s Hs. Qed.
Lemma keeps_panic {A} msg (Q : A → Prop) : Keeps (panic msg) Q.
Proof. by intros s Hs. Qed.
Lemma keeps_fault {A} (Q : A → Prop) : Keeps fault Q.
Proof. by intros s Hs. Qed.
Lemma keeps_nofuel {A} (Q : A → Prop) : Keeps nofuel Q.
Proof. by intros s Hs. Qed.
Lemma keeps_gets {A} (f : kst → A) : Keeps (gets f) any.
Proof. by intros s Hs. Qed.
Lemma keeps_ticks : Keeps (gets ticks) uint32.
Proof. intros s Hs. split; [done|apply Hs]. Qed.
Lemma keeps_in_range {A} (o : option A) : Keeps (in_range o) (λ a, o = Some a).
Proof. intros s Hs. by destruct o. Qed.
Lemma keeps_swtch : Keeps swtch any.
Proof. intros s Hs. by split. Qed.

Lemma kst_wf_same s s' : procs s' = procs s → ticks s' = ticks s → kst_wf s → kst_wf s'.
Proof. intros Hp Ht []. split; congruence. Qed.

Lemma keeps_modify f :
  (∀ s, procs (f s) = procs s ∧ ticks (f s) = ticks s) → Keeps (modify f) any.
Proof. intros Hf s Hs. split; [|done]. by eapply kst_wf_same; [apply Hf..|]. Qed.

(** A primitive that stops or returns with the table untouched. *)
Lemma keeps_local {A} (m : KM A) :
  (∀ s, match m s with
        | Ok _ s' => procs s' = procs s ∧ ticks s' = ticks s
        | Swtch _ _ => False
        | _ => True
        end) → Keeps m any.
Proof.
  intros Hm s Hs. specialize (Hm s). destruct (m s); try done. split; [|done]. by eapply kst_wf_same; [apply Hm..|].
Qed.

Lemma keeps_getp i : Keeps (getp i) proc_wf.
Proof.
  intros s Hs. unfold getp. destruct (procs s !! i) as [p|] eqn:E; [|done]. split; [done|].
  by eapply Forall_lookup_1; [apply kw_procs|].
Qed.

Lemma keeps_putp i p : proc_wf p → Keeps (putp i p) any.
Proof.
  intros Hp s [Hl Hf Ht]. split; [|done]. split; rsimpl; [by rewrite length_insert|by apply Forall_insert|done].
Qed.

Lemma keeps_updp i f : (∀ p, proc_wf p → proc_wf (f p)) → Keeps (updp i f) any.
Proof. intros Hf. eapply keeps_bind; [apply keeps_getp|]. intros p Hp. by apply keeps_putp, Hf. Qed.

Lemma keeps_for_each {A} l (body : nat → KM (option A)) :
  (∀ i, Keeps (body i) any) → Keeps (for_each l body) any.
Proof.
  intros Hb. induction l as [|i l IH]; cbn; [by apply keeps_ret|].
  eapply keeps_bind; [apply Hb|]. intros [a|] _; [by apply keeps_ret|done].
Qed.

(** ** Automation

    [keeps] goes through a routine: calls are closed by the [keeps] database
    or unfolded, conditions are split.  [wf_update] is left with updates of a
    process it cannot do. *)
Create HintDb keeps.
#[export] Hint Resolve keeps_panic keeps_fault keeps_nofuel keeps_in_range keeps_ticks keeps_getp keeps_swtch : keeps.

Definition s32_int32 : ∀ z, int32 (s32 z) := s32_range.
Definition u32_uint32 : ∀ z, uint32 (u32 z) := u32_range.
Definition u64_uint64 : ∀ z, uint64 (u64 z) := u64_range.
#[export] Hint Resolve s32_int32 u32_uint32 u64_uint64 : keeps.

(** [safestrcpy] does not change the size of the array. *)
Lemma put_length s i c s' : put s i c = Some s' → length s' = length s.
Proof. unfold put. case_decide; intros; simplify_eq. apply length_insert. Qed.

Lemma safestrcpy_length s t n s' : safestrcpy s t n = Some s' → length s' = length s.
Proof.
  unfold safestrcpy. destruct (n <=? 0); [congruence|]. generalize (Z.to_nat (n - 1)) 0%nat. intros k. revert s.
  induction k as [|k IH]; intros s i; cbn; [apply put_length|]. intros H.
  apply bind_Some in H as (c & Hc & H). apply bind_Some in H as (s1 & H1 & H). apply put_length in H1. rewrite <- H1. destruct (c =? 0); [by eapply put_length|by eapply IH].
Qed.

Ltac wf_update :=
  let p := fresh "p" in
  let Hp := fresh "Hp" in
  intros p Hp; cbv beta; autounfold with keeps; repeat match goal with H : proc_wf _ |- _ => destruct H end;
  split; rsimpl; rewrite ?length_insert; try done; auto with keeps;
  try match goal with H : _ |- length ?x = _ => rewrite (safestrcpy_length _ _ _ x H); done end.

#[export] Hint Unfold init_proc clear_proc inherit charge_tick dispatch : keeps.

(** The rules for the primitives that are not hints. *)
Ltac keeps_prim :=
  lazymatch goal with
  | |- Keeps (ret ?a) _ => apply (keeps_ret a any); exact I
  | |- Keeps (gets _) _ => first [apply keeps_ticks | apply keeps_gets]
  | |- Keeps (modify _) _ => apply keeps_modify; intros ?; cbv beta; rsimpl; done
  | |- Keeps (updp _ _) _ => apply keeps_updp; wf_update
  | |- Keeps (for_each _ _) _ => apply keeps_for_each; intros ?
  end.

Ltac head_of t := lazymatch t with ?f _ => head_of f | _ => t end.

(** The first call of a sequence by a rule that says something of its result. *)
Ltac keeps_call := cbv beta zeta; first [keeps_prim | solve [eauto with keeps]].

Ltac keeps_step :=
  cbv beta zeta;
  lazymatch goal with
  | |- Keeps (bind _ _) _ =>
      first [eapply keeps_bind; [keeps_call|intros ? ?] | apply (keeps_bind _ _ any); [|intros ? _]];
      try match goal with H : any _ |- _ => clear H end
  | |- Keeps (if ?b then _ else _) _ => destruct b eqn:?
  | |- Keeps (match ?x with _ => _ end) _ => destruct x eqn:?
  | |- Keeps ?m _ =>
      first
        [ keeps_prim
        | solve [eauto with keeps]
        | solve [eapply keeps_weaken; [eauto with keeps; fail|done]]
        | let h := head_of m in unfold h ]
  end.

Ltac keeps := repeat keeps_step.

(** ** Locks, memory, sleeping *)

Ltac keeps_prim_local :=
  apply keeps_local; intros ?; cbv beta delta [acquire release ld64 st64 kmemset kmemmove kwrite kread
    getpipe sl_get getb getblock geti getf];
  repeat match goal with
         | |- context [match ?x with _ => _ end] =>
             lazymatch x with context [match _ with _ => _ end] => fail | _ => destruct x; rsimpl end
         end; try done.

Lemma keeps_acquire l : Keeps (acquire l) any.
Proof. keeps_prim_local. Qed.
Lemma keeps_release l : Keeps (release l) any.
Proof. keeps_prim_local. Qed.
Lemma keeps_ld64 a : Keeps (ld64 a) any.
Proof. keeps_prim_local. Qed.
Lemma keeps_st64 a v : Keeps (st64 a v) any.
Proof. keeps_prim_local. Qed.
Lemma keeps_kmemset a c n : Keeps (kmemset a c n) any.
Proof. keeps_prim_local. Qed.
Lemma keeps_kmemmove a b n : Keeps (kmemmove a b n) any.
Proof. keeps_prim_local. Qed.
Lemma keeps_kwrite a l : Keeps (kwrite a l) any.
Proof. keeps_prim_local. Qed.
Lemma keeps_kread a n : Keeps (kread a n) any.
Proof. keeps_prim_local. Qed.
Lemma keeps_getpipe pi : Keeps (getpipe pi) any.
Proof. keeps_prim_local. Qed.
Lemma keeps_sl_get lk : Keeps (sl_get lk) any.
Proof. keeps_prim_local. Qed.
Lemma keeps_sl_put lk v : Keeps (sl_put lk v) any.
Proof. apply keeps_modify. intros s. destruct lk; cbn; by rsimpl. Qed.
Lemma keeps_getb i : Keeps (getb i) any.
Proof. keeps_prim_local. Qed.
Lemma keeps_getblock i : Keeps (getblock i) any.
Proof. keeps_prim_local. Qed.
Lemma keeps_geti i : Keeps (geti i) any.
Proof. keeps_prim_local. Qed.
Lemma keeps_getf i : Keeps (getf i) any.
Proof. keeps_prim_local. Qed.
#[export] Hint Resolve keeps_acquire keeps_release keeps_ld64 keeps_st64 keeps_kmemset keeps_kmemmove keeps_kwrite
  keeps_kread keeps_getpipe keeps_sl_get keeps_sl_put keeps_getb keeps_getblock keeps_geti keeps_getf : keeps.

Lemma keeps_sleep chan lk : Keeps (sleep chan lk) any.
Proof. keeps. Qed.
Lemma keeps_wakeup chan : Keeps (wakeup chan) any.
Proof. keeps. Qed.
Lemma keeps_yield : Keeps yield any.
Proof. keeps. Qed.
Lemma keeps_kalloc : Keeps kalloc any.
Proof. keeps. Qed.
Lemma keeps_kfree `{Layout} pa : Keeps (kfree pa) any.
Proof. keeps. Qed.
Lemma keeps_killed i : Keeps (killed i) any.
Proof. keeps. Qed.
Lemma keeps_curproc : Keeps curproc any.
Proof. keeps. Qed.
#[export] Hint Resolve keeps_sleep keeps_wakeup keeps_yield keeps_kalloc keeps_kfree keeps_killed keeps_curproc : keeps.

(** [keeps_ind f]: a loop [f], by induction on its first argument. *)
Tactic Notation "keeps_ind" reference(f) :=
  let n := fresh "n" in
  let IH := fresh "IH" in
  intros n; induction n as [|? IH]; intros; cbn [f]; keeps.

(** ** Page tables and user memory *)
Section Memory.
Context `{HL : Layout}.

Lemma keeps_walk_from : ∀ level pagetable va alloc, Keeps (walk_from level pagetable va alloc) any.
Proof. keeps_ind walk_from. Qed.
#[local] Hint Resolve keeps_walk_from : keeps.
Lemma keeps_walk pagetable va alloc : Keeps (walk pagetable va alloc) any.
Proof. keeps. Qed.
#[local] Hint Resolve keeps_walk : keeps.
Lemma keeps_mappages_loop : ∀ n pagetable a last pa perm, Keeps (mappages_loop n pagetable a last pa perm) any.
Proof. keeps_ind mappages_loop. Qed.
#[local] Hint Resolve keeps_mappages_loop : keeps.
Lemma keeps_mappages pagetable va size pa perm : Keeps (mappages pagetable va size pa perm) any.
Proof. keeps. Qed.
#[local] Hint Resolve keeps_mappages : keeps.
Lemma keeps_uvmunmap_loop : ∀ n pagetable a stop do_free, Keeps (uvmunmap_loop n pagetable a stop do_free) any.
Proof. keeps_ind uvmunmap_loop. Qed.
#[local] Hint Resolve keeps_uvmunmap_loop : keeps.
Lemma keeps_uvmdealloc pagetable oldsz newsz : Keeps (uvmdealloc pagetable oldsz newsz) any.
Proof. keeps. Qed.
#[local] Hint Resolve keeps_uvmdealloc : keeps.
Lemma keeps_uvmalloc_loop : ∀ n pagetable a oldsz newsz xperm, Keeps (uvmalloc_loop n pagetable a oldsz newsz xperm) any.
Proof. keeps_ind uvmalloc_loop. Qed.
#[local] Hint Resolve keeps_uvmalloc_loop : keeps.
Lemma keeps_freewalk_entries rec : (∀ a, Keeps (rec a) any) → ∀ n pagetable i, Keeps (freewalk_entries n rec pagetable i) any.
Proof. intros Hrec. keeps_ind freewalk_entries. Qed.
#[local] Hint Resolve keeps_freewalk_entries : keeps.
Lemma keeps_freewalk : ∀ n pagetable, Keeps (freewalk n pagetable) any.
Proof. keeps_ind freewalk. Qed.
#[local] Hint Resolve keeps_freewalk : keeps.
Lemma keeps_uvmcopy_loop : ∀ n old new i sz, Keeps (uvmcopy_loop n old new i sz) any.
Proof. keeps_ind uvmcopy_loop. Qed.
#[local] Hint Resolve keeps_uvmcopy_loop : keeps.
Lemma keeps_vmfault pagetable va read : Keeps (vmfault pagetable va read) any.
Proof. keeps. Qed.
#[local] Hint Resolve keeps_vmfault : keeps.
Lemma keeps_copyout_loop : ∀ n pagetable dstva src, Keeps (copyout_loop n pagetable dstva src) any.
Proof. keeps_ind copyout_loop. Qed.
#[local] Hint Resolve keeps_copyout_loop : keeps.
Lemma keeps_copyin_loop : ∀ n pagetable srcva len dst, Keeps (copyin_loop n pagetable srcva len dst) any.
Proof. keeps_ind copyin_loop. Qed.
#[local] Hint Resolve keeps_copyin_loop : keeps.
Lemma keeps_copyout pagetable dstva src : Keeps (copyout pagetable dstva src) any.
Proof. apply keeps_copyout_loop. Qed.
Lemma keeps_copyin pagetable srcva len : Keeps (copyin pagetable srcva len) any.
Proof. apply keeps_copyin_loop. Qed.
Lemma keeps_copyinstr_bytes : ∀ n p dst, Keeps (copyinstr_bytes n p dst) any.
Proof. keeps_ind copyinstr_bytes. Qed.
#[local] Hint Resolve keeps_copyinstr_bytes : keeps.
Lemma keeps_copyinstr_loop : ∀ n pagetable srcva max dst, Keeps (copyinstr_loop n pagetable srcva max dst) any.
Proof. keeps_ind copyinstr_loop. Qed.

End Memory.
#[export] Hint Resolve keeps_walk keeps_mappages keeps_uvmunmap_loop keeps_uvmdealloc keeps_uvmalloc_loop keeps_freewalk
  keeps_uvmcopy_loop keeps_vmfault keeps_copyout keeps_copyin keeps_copyinstr_loop : keeps.

(** ** The file system, pipes and the console *)

(** The disk driver's operations keep the table well formed. *)
Class DriverKeeps `{BlockDev, DiskIntr} : Prop := {
  keeps_disk_rw b w : Keeps (virtio_disk_rw b w) any;
  keeps_disk_intr : Keeps virtio_disk_intr any
}.

Section Files.
Context `{HL : Layout, HW : Wakeups, HB : BlockDev, HD : DiskIntr, HK : !DriverKeeps}.
#[local] Hint Resolve keeps_disk_rw keeps_disk_intr : keeps.

Lemma keeps_acquiresleep_wait : ∀ n lk, Keeps (acquiresleep_wait n lk) any.
Proof. keeps_ind acquiresleep_wait. Qed.
#[local] Hint Resolve keeps_acquiresleep_wait : keeps.
Lemma keeps_bget_scan : ∀ n dev blockno b, Keeps (bget_scan n dev blockno b) any.
Proof. keeps_ind bget_scan. Qed.
Lemma keeps_bget_lru : ∀ n b, Keeps (bget_lru n b) any.
Proof. keeps_ind bget_lru. Qed.
#[local] Hint Resolve keeps_bget_scan keeps_bget_lru : keeps.
Lemma keeps_bread dev blockno : Keeps (bread dev blockno) any.
Proof. keeps. Qed.
Lemma keeps_bwrite b : Keeps (bwrite b) any.
Proof. keeps. Qed.
Lemma keeps_brelse b : Keeps (brelse b) any.
Proof. keeps. Qed.
#[local] Hint Resolve keeps_bread keeps_bwrite keeps_brelse : keeps.
Lemma keeps_begin_op_wait : ∀ n, Keeps (begin_op_wait n) any.
Proof. keeps_ind begin_op_wait. Qed.
#[local] Hint Resolve keeps_begin_op_wait : keeps.
Lemma keeps_begin_op : Keeps begin_op any.
Proof. keeps. Qed.
Lemma keeps_install_trans r : Keeps (install_trans r) any.
Proof. keeps. Qed.
#[local] Hint Resolve keeps_install_trans : keeps.
Lemma keeps_write_head : Keeps write_head any.
Proof. keeps. Qed.
#[local] Hint Resolve keeps_write_head : keeps.
Lemma keeps_end_op : Keeps end_op any.
Proof. keeps. Qed.
Lemma keeps_log_write b : Keeps (log_write b) any.
Proof. keeps. Qed.
#[local] Hint Resolve keeps_begin_op keeps_end_op keeps_log_write : keeps.
Lemma keeps_either_copyout d l : Keeps (either_copyout d l) any.
Proof. keeps. Qed.
Lemma keeps_either_copyin src n : Keeps (either_copyin src n) any.
Proof. keeps. Qed.
#[local] Hint Resolve keeps_either_copyout keeps_either_copyin : keeps.
Lemma keeps_balloc_loop : ∀ n dev b, Keeps (balloc_loop n dev b) any.
Proof. keeps_ind balloc_loop. Qed.
#[local] Hint Resolve keeps_balloc_loop : keeps.
Lemma keeps_balloc dev : Keeps (balloc dev) any.
Proof. keeps. Qed.
Lemma keeps_bfree dev b : Keeps (bfree dev b) any.
Proof. keeps. Qed.
Lemma keeps_iget dev inum : Keeps (iget dev inum) any.
Proof. keeps. Qed.
Lemma keeps_iupdate ip : Keeps (iupdate ip) any.
Proof. keeps. Qed.
#[local] Hint Resolve keeps_balloc keeps_bfree keeps_iget keeps_iupdate : keeps.
Lemma keeps_ilock ip : Keeps (ilock ip) any.
Proof. keeps. Qed.
Lemma keeps_iunlock ip : Keeps (iunlock ip) any.
Proof. keeps. Qed.
Lemma keeps_bmap ip bn : Keeps (bmap ip bn) any.
Proof. keeps. Qed.
Lemma keeps_itrunc ip : Keeps (itrunc ip) any.
Proof. keeps. Qed.
#[local] Hint Resolve keeps_ilock keeps_iunlock keeps_bmap keeps_itrunc : keeps.
Lemma keeps_iput ip : Keeps (iput ip) any.
Proof. keeps. Qed.
Lemma keeps_ialloc dev ty : Keeps (ialloc dev ty) any.
Proof. keeps. Qed.
#[local] Hint Resolve keeps_iput keeps_ialloc : keeps.
Lemma keeps_readi_loop : ∀ k ip d off n tot acc, Keeps (readi_loop k ip d off n tot acc) any.
Proof. keeps_ind readi_loop. Qed.
Lemma keeps_writei_loop : ∀ k ip src off n tot, Keeps (writei_loop k ip src off n tot) any.
Proof. keeps_ind writei_loop. Qed.
#[local] Hint Resolve keeps_readi_loop keeps_writei_loop : keeps.
Lemma keeps_readi ip d off n : Keeps (readi ip d off n) any.
Proof. keeps. Qed.
Lemma keeps_writei ip src off n : Keeps (writei ip src off n) any.
Proof. keeps. Qed.
#[local] Hint Resolve keeps_readi keeps_writei : keeps.
Lemma keeps_dirlookup_loop : ∀ n dp name off, Keeps (dirlookup_loop n dp name off) any.
Proof. keeps_ind dirlookup_loop. Qed.
#[local] Hint Resolve keeps_dirlookup_loop : keeps.
Lemma keeps_dirlookup dp name : Keeps (dirlookup dp name) any.
Proof. keeps. Qed.
Lemma keeps_empty_dirent : ∀ n dp off de, Keeps (empty_dirent n dp off de) any.
Proof. keeps_ind empty_dirent. Qed.
#[local] Hint Resolve keeps_dirlookup keeps_empty_dirent : keeps.
Lemma keeps_dirlink dp name inum : Keeps (dirlink dp name inum) any.
Proof. keeps. Qed.
Lemma keeps_namex_loop : ∀ n ip path parent name, Keeps (namex_loop n ip path parent name) any.
Proof. keeps_ind namex_loop. Qed.
#[local] Hint Resolve keeps_dirlink keeps_namex_loop : keeps.
Lemma keeps_namex path parent name : Keeps (namex path parent name) any.
Proof. keeps. Qed.
#[local] Hint Resolve keeps_namex : keeps.

Lemma keeps_pipewrite_loop : ∀ k pi pr addr n i, Keeps (pipewrite_loop k pi pr addr n i) any.
Proof. keeps_ind pipewrite_loop. Qed.
Lemma keeps_piperead_wait : ∀ k pi pr, Keeps (piperead_wait k pi pr) any.
Proof. keeps_ind piperead_wait. Qed.
Lemma keeps_piperead_copy : ∀ k pi pr addr i, Keeps (piperead_copy k pi pr addr i) any.
Proof. keeps_ind piperead_copy. Qed.
#[local] Hint Resolve keeps_pipewrite_loop keeps_piperead_wait keeps_piperead_copy : keeps.
Lemma keeps_uart_wait : ∀ k, Keeps (uart_wait k) any.
Proof. keeps_ind uart_wait. Qed.
#[local] Hint Resolve keeps_uart_wait : keeps.
Lemma keeps_uartwrite_loop : ∀ l, Keeps (uartwrite_loop l) any.
Proof. keeps_ind uartwrite_loop. Qed.
Lemma keeps_kill_line : ∀ k, Keeps (kill_line k) any.
Proof. keeps_ind kill_line. Qed.
#[local] Hint Resolve keeps_uartwrite_loop keeps_kill_line : keeps.
Lemma keeps_consoleintr c : Keeps (consoleintr c) any.
Proof. keeps. Qed.
#[local] Hint Resolve keeps_consoleintr : keeps.
Lemma keeps_uart_input : ∀ l, Keeps (uart_input l) any.
Proof. keeps_ind uart_input. Qed.
Lemma keeps_consolewrite_loop : ∀ k src n i, Keeps (consolewrite_loop k src n i) any.
Proof. keeps_ind consolewrite_loop. Qed.
Lemma keeps_consoleread_wait : ∀ k p, Keeps (consoleread_wait k p) any.
Proof. keeps_ind consoleread_wait. Qed.
#[local] Hint Resolve keeps_uart_input keeps_consolewrite_loop keeps_consoleread_wait : keeps.
Lemma keeps_consoleread_loop : ∀ k d n acc, Keeps (consoleread_loop k d n acc) any.
Proof. keeps_ind consoleread_loop. Qed.
#[local] Hint Resolve keeps_consoleread_loop : keeps.
Lemma keeps_filedup f : Keeps (filedup f) any.
Proof. keeps. Qed.
Lemma keeps_fileclose f : Keeps (fileclose f) any.
Proof. keeps. Qed.
Lemma keeps_filewrite_loop : ∀ k f ip addr n i, Keeps (filewrite_loop k f ip addr n i) any.
Proof. keeps_ind filewrite_loop. Qed.
#[local] Hint Resolve keeps_filedup keeps_fileclose keeps_filewrite_loop : keeps.

(** ** Processes *)

Lemma keeps_proc_pagetable i : Keeps (proc_pagetable i) any.
Proof. keeps. Qed.
Lemma keeps_proc_freepagetable pagetable sz : Keeps (proc_freepagetable pagetable sz) any.
Proof. keeps. Qed.
#[local] Hint Resolve keeps_proc_pagetable keeps_proc_freepagetable : keeps.
Lemma keeps_freeproc i : Keeps (freeproc i) any.
Proof. keeps. Qed.
#[local] Hint Resolve keeps_freeproc : keeps.
Lemma keeps_allocproc : Keeps allocproc any.
Proof. keeps. Qed.
#[local] Hint Resolve keeps_allocproc : keeps.

Lemma keeps_kfork : Keeps kfork any.
Proof. keeps. Qed.
Lemma keeps_kexit status : Keeps (kexit status) any.
Proof. keeps. Qed.
Lemma keeps_wait_scan : ∀ l me addr havekids, Keeps (wait_scan l me addr havekids) any.
Proof. keeps_ind wait_scan. Qed.
#[local] Hint Resolve keeps_kfork keeps_kexit keeps_wait_scan : keeps.
Lemma keeps_kwait_loop : ∀ k me addr, Keeps (kwait_loop k me addr) any.
Proof. keeps_ind kwait_loop. Qed.
#[local] Hint Resolve keeps_kwait_loop : keeps.

Lemma keeps_loadseg_loop : ∀ k pagetable va ip offset sz i, Keeps (loadseg_loop k pagetable va ip offset sz i) any.
Proof. keeps_ind loadseg_loop. Qed.
#[local] Hint Resolve keeps_loadseg_loop : keeps.
Lemma keeps_load_segments : ∀ k pagetable ip path off sz, Keeps (load_segments k pagetable ip path off sz) any.
Proof. keeps_ind load_segments. Qed.
Lemma keeps_push_args pagetable stackbase : ∀ argv sp ustack, Keeps (push_args pagetable stackbase sp argv ustack) any.
Proof. keeps_ind push_args. Qed.
#[local] Hint Resolve keeps_load_segments keeps_push_args : keeps.
Lemma keeps_kexec path argv : Keeps (kexec path argv) any.
Proof. keeps. Qed.
#[local] Hint Resolve keeps_kexec : keeps.

(** ** System calls *)
Context `{HU : Uninit}.

Lemma keeps_argraw n : Keeps (argraw n) any.
Proof. keeps. Qed.
#[local] Hint Resolve keeps_argraw : keeps.
Lemma keeps_argint n : Keeps (argint n) int32.
Proof. eapply keeps_bind; [apply keeps_argraw|]. intros v _. apply keeps_ret, s32_range. Qed.
#[local] Hint Resolve keeps_argint : keeps.
Lemma keeps_argstr n max : Keeps (argstr n max) any.
Proof. keeps. Qed.
Lemma keeps_argfd n : Keeps (argfd n) any.
Proof. keeps. Qed.
#[local] Hint Resolve keeps_argstr keeps_argfd : keeps.

Lemma keeps_setpowermode pid mode : Keeps (setpowermode_pid pid mode) any.
Proof.
  unfold setpowermode_pid. destruct (_ && _) eqn:E; [keeps|].
  assert (mode = POWER_NORMAL ∨ mode = POWER_ECO) by (unfold POWER_NORMAL, POWER_ECO in *; lia). keeps.
Qed.
Lemma keeps_setcpulimit pid limit : int32 limit → Keeps (setcpulimit_pid pid limit) any.
Proof.
  intros [_ Hl]. unfold setcpulimit_pid. destruct (Z.ltb_spec limit 0); [keeps|].
  assert (0 ≤ limit < 2 ^ 31) by lia. keeps.
Qed.
#[local] Hint Resolve keeps_setpowermode keeps_setcpulimit : keeps.
Lemma limit_uint64 n : int32 n → uint64 (if n <? 0 then 0 else n).
Proof. unfold int32, uint64. destruct (Z.ltb_spec n 0); lia. Qed.
#[local] Hint Resolve limit_uint64 : keeps.

Lemma keeps_pause_loop : ∀ k i ticks0 n, Keeps (pause_loop k i ticks0 n) any.
Proof. keeps_ind pause_loop. Qed.
Lemma keeps_proccost_loop : ∀ l uaddr max count name pad, Keeps (proccost_loop l uaddr max count name pad) any.
Proof. keeps_ind proccost_loop. Qed.
Lemma keeps_count_free : ∀ k r n, Keeps (count_free k r n) any.
Proof. keeps_ind count_free. Qed.
#[local] Hint Resolve keeps_pause_loop keeps_proccost_loop keeps_count_free : keeps.

Lemma keeps_fdalloc f : Keeps (fdalloc f) any.
Proof. keeps. Qed.
Lemma keeps_isdirempty_loop : ∀ k dp off, Keeps (isdirempty_loop k dp off) any.
Proof. keeps_ind isdirempty_loop. Qed.
#[local] Hint Resolve keeps_fdalloc keeps_isdirempty_loop : keeps.
Lemma keeps_create path type major minor : Keeps (create path type major minor) any.
Proof. keeps. Qed.
Lemma keeps_exec_args : ∀ k uargv i argv, Keeps (exec_args k uargv i argv) any.
Proof. keeps_ind exec_args. Qed.
Lemma keeps_free_args : ∀ argv, Keeps (free_args argv) any.
Proof. keeps_ind free_args. Qed.
#[local] Hint Resolve keeps_create keeps_exec_args keeps_free_args : keeps.

Lemma keeps_handlers : Forall (λ kh, Keeps (kh.2 : KM Z) any) syscalls.
Proof. unfold syscalls. repeat (constructor; [cbn [snd]; keeps|]). constructor. Qed.

Lemma keeps_syscall : Keeps syscall any.
Proof.
  assert (∀ num h, lookup_call num syscalls = Some h → Keeps h any) as Hh.
  { intros num h. pose proof keeps_handlers as HF. induction HF as [|[k h'] l Hk HF IH]; cbn; [done|].
    destruct (num =? k); [by intros [= <-]|done]. }
  keeps.
Qed.
#[local] Hint Resolve keeps_syscall : keeps.

(** ** Traps and the scheduler *)

Lemma keeps_tick : Keeps (modify (λ s, s <| ticks ::= λ n, u32 (n + 1) |>)) any.
Proof. intros s []. split; [|done]. split; rsimpl; [done|done|apply u32_range]. Qed.
Lemma keeps_clockintr : Keeps clockintr any.
Proof.
  eapply keeps_bind; [apply keeps_gets|]. intros h _. eapply (keeps_bind _ _ any); [|intros [] _; keeps].
  destruct (h =? 0); [|keeps]. eapply keeps_bind; [apply keeps_acquire|]. intros [] _.
  eapply keeps_bind; [apply keeps_tick|]. intros [] _. keeps.
Qed.
#[local] Hint Resolve keeps_clockintr : keeps.
Lemma keeps_usertrap d : Keeps (usertrap d) any.
Proof. keeps. Qed.
Lemma keeps_kerneltrap d : Keeps (kerneltrap d) any.
Proof. keeps. Qed.
Lemma keeps_forkret : Keeps forkret any.
Proof. keeps. Qed.
Lemma keeps_userinit : Keeps userinit any.
Proof. keeps. Qed.

Lemma consider_wf now p : uint32 now → proc_wf p → proc_wf (consider now p).2.
Proof.
  intros Hn Hp. assert (∀ q, proc_wf q → proc_wf (q <| p_budget_window_start := now |> <| p_ticks_used := 0 |>)) as Hw by wf_update.
  assert (∀ q, proc_wf q → proc_wf (q <| p_eco_skip_counter := 0 |>)) as He by wf_update.
  unfold consider. set (q := if CPU_BUDGET_WINDOW_TICKS <=? _ then _ else p).
  assert (proc_wf q) as Hq by (unfold q; destruct (_ <=? _); auto). clearbody q.
  assert (∀ (b : bool) r, proc_wf r → proc_wf (if b && (p_power_mode r =? POWER_ECO)
    then (let p := r <| p_eco_skip_counter := s32 (p_eco_skip_counter r + 1) |> in
          if p_eco_skip_counter p <? ECO_SKIP_INTERVAL then (false, p) else (true, p <| p_eco_skip_counter := 0 |>))
    else (b, r)).2) as Hlast.
  { intros b r Hr. destruct (b && _); [|done]. cbv zeta. rsimpl. pose proof (pw_eco _ Hr). rewrite s32_small by (unfold ECO_SKIP_INTERVAL in *; lia).
    destruct (Z.ltb_spec (p_eco_skip_counter r + 1) ECO_SKIP_INTERVAL); cbn [snd].
    - destruct Hr. split; rsimpl; try done. lia.
    - destruct Hr. split; rsimpl; done. }
  destruct (0 <? p_cpu_budget p); by apply Hlast.
Qed.

Lemma keeps_scheduler run n : (∀ i, Keeps (run i) any) → Keeps (scheduler run n) any.
Proof.
  intros Hrun. assert (∀ now found i, uint32 now → Keeps (scheduler_slot run now found i) any) as Hslot.
  { intros now found i Hn. unfold scheduler_slot. keeps_step. eapply keeps_bind; [apply keeps_getp|]. intros p Hp.
    destruct (is_state RUNNABLE p); [|keeps]. pose proof (consider_wf now p Hn Hp) as Hc.
    destruct (consider now p) as [can_run p1]. eapply keeps_bind; [by apply keeps_putp|]. intros [] _. keeps. }
  assert (∀ l now found, uint32 now → Keeps (scheduler_scan run now found l) any) as Hscan.
  { keeps_ind scheduler_scan. }
  unfold scheduler. keeps_step. induction n as [|n IH]; cbn [scheduler_rounds]; keeps.
Qed.

Lemma proc0_wf : proc_wf proc0.
Proof. split; first [done|by left]. Qed.


End Files.

#[local] Instance wf_layout : Layout := Build_Layout 0x80020000 0x80010000 0x80009000 0 0 0 0 0.
#[local] Instance wf_wakeups : Wakeups := 0%nat.
#[local] Instance wf_disk : BlockDev := ram_disk.
#[local] Instance wf_uninit : Uninit := Build_Uninit [] [] [].
#[local] Instance wf_intr : DiskIntr := ret tt.

Lemma ram_disk_keeps : DriverKeeps.
Proof. split; [intros b w; change (Keeps (ram_disk b w) any)|change (Keeps (ret tt) any)]; keeps. Qed.

Lemma limited_run_wf : kst_wf (limited_run 0).
Proof.
  split; [done| |done]. apply Forall_insert; [by apply Forall_replicate, proc0_wf|]. split; first [done|by left].
Qed.

