(* ===== verification/Virtio.v ===== *)
(** * kernel/virtio_disk.c: the disk driver

    The driver's state [vdisk] is kept beside the kernel state.  Addresses the
    driver gives to the device are symbolic ([dma]).  The device is not part
    of the program: the values its registers read are the class [Mmio], and
    what it does to a request it has been told about is the class [Device].
    The theorem [virtio_request_completes] shows that a request goes through
    the driver, the device, the interrupt handler and the driver again with
    the effect the buffer cache relies on ([BlockDevOk] of [Bio.v]). *)

From Stdlib Require Import ZArith Lia.
From S2P Require Import Prelude Params State Kalloc Process Sched Bytes Sleeplock Bio BioRep Cache Limits.
From stdpp Require Import base gmap strings numbers list.

Open Scope Z_scope.

(** ** virtio.h *)
Definition NUM : nat := 8.
Definition VRING_DESC_F_NEXT : Z := 1.
Definition VRING_DESC_F_WRITE : Z := 2.
Definition VIRTIO_BLK_T_IN : Z := 0.
Definition VIRTIO_BLK_T_OUT : Z := 1.

Inductive vreg : Type :=
  | VIRTIO_MMIO_MAGIC_VALUE
  | VIRTIO_MMIO_VERSION
  | VIRTIO_MMIO_DEVICE_ID
  | VIRTIO_MMIO_VENDOR_ID
  | VIRTIO_MMIO_DEVICE_FEATURES
  | VIRTIO_MMIO_DRIVER_FEATURES
  | VIRTIO_MMIO_QUEUE_SEL
  | VIRTIO_MMIO_QUEUE_NUM_MAX
  | VIRTIO_MMIO_QUEUE_NUM
  | VIRTIO_MMIO_QUEUE_READY
  | VIRTIO_MMIO_QUEUE_NOTIFY
  | VIRTIO_MMIO_INTERRUPT_STATUS
  | VIRTIO_MMIO_INTERRUPT_ACK
  | VIRTIO_MMIO_STATUS
  | VIRTIO_MMIO_QUEUE_DESC_LOW
  | VIRTIO_MMIO_QUEUE_DESC_HIGH
  | VIRTIO_MMIO_DRIVER_DESC_LOW
  | VIRTIO_MMIO_DRIVER_DESC_HIGH
  | VIRTIO_MMIO_DEVICE_DESC_LOW
  | VIRTIO_MMIO_DEVICE_DESC_HIGH.
Definition vreg_offset (r : vreg) : Z :=
  match r with
  | VIRTIO_MMIO_MAGIC_VALUE => 0x000
  | VIRTIO_MMIO_VERSION => 0x004
  | VIRTIO_MMIO_DEVICE_ID => 0x008
  | VIRTIO_MMIO_VENDOR_ID => 0x00c
  | VIRTIO_MMIO_DEVICE_FEATURES => 0x010
  | VIRTIO_MMIO_DRIVER_FEATURES => 0x020
  | VIRTIO_MMIO_QUEUE_SEL => 0x030
  | VIRTIO_MMIO_QUEUE_NUM_MAX => 0x034
  | VIRTIO_MMIO_QUEUE_NUM => 0x038
  | VIRTIO_MMIO_QUEUE_READY => 0x044
  | VIRTIO_MMIO_QUEUE_NOTIFY => 0x050
  | VIRTIO_MMIO_INTERRUPT_STATUS => 0x060
  | VIRTIO_MMIO_INTERRUPT_ACK => 0x064
  | VIRTIO_MMIO_STATUS => 0x070
  | VIRTIO_MMIO_QUEUE_DESC_LOW => 0x080
  | VIRTIO_MMIO_QUEUE_DESC_HIGH => 0x084
  | VIRTIO_MMIO_DRIVER_DESC_LOW => 0x090
  | VIRTIO_MMIO_DRIVER_DESC_HIGH => 0x094
  | VIRTIO_MMIO_DEVICE_DESC_LOW => 0x0a0
  | VIRTIO_MMIO_DEVICE_DESC_HIGH => 0x0a4
  end.
Coercion vreg_offset : vreg >-> Z.

Definition VIRTIO_CONFIG_S_ACKNOWLEDGE : Z := 1.
Definition VIRTIO_CONFIG_S_DRIVER : Z := 2.
Definition VIRTIO_CONFIG_S_DRIVER_OK : Z := 4.
Definition VIRTIO_CONFIG_S_FEATURES_OK : Z := 8.

(** The feature bits the driver turns off. *)
Definition VIRTIO_FEATURES_OFF : list Z := [5; 7; 11; 12; 27; 29; 28].

(** What the driver lets the device access. *)
Inductive dma : Type :=
| DNull
| DReq (i : nat)       (** [&disk.ops[i]] *)
| DData (b : nat)      (** [b->data] *)
| DStatus (i : nat).   (** [&disk.info[i].status] *)

Record virtq_desc : Type := mkDesc { d_addr : dma; d_len : Z; d_flags : Z; d_next : Z }.
#[export] Instance virtq_desc_eta : Eta virtq_desc := λ d, mkDesc (d_addr d) (d_len d) (d_flags d) (d_next d).
Definition desc0 : virtq_desc := mkDesc DNull 0 0 0.

Record virtio_blk_req : Type := mkReq { r_type : Z; r_reserved : Z; r_sector : Z }.
Definition req0 : virtio_blk_req := mkReq 0 0 0.

(** [struct disk], with the memory its pointers lead to. *)
Record vdisk : Type := mkVdisk {
  v_desc : list virtq_desc;
  v_avail_idx : Z;
  v_avail : list Z;             (** [avail->ring] *)
  v_dev_idx : Z;                (** [used->idx] *)
  v_used : list Z;              (** the ids of [used->ring] *)
  v_free : list Z;
  v_used_idx : Z;
  v_info : list (option nat);   (** [info[].b] *)
  v_status : list Z;            (** [info[].status] *)
  v_ops : list virtio_blk_req;
  v_mmio : list (Z * Z)         (** register writes, last first *)
}.
#[export] Instance vdisk_eta : Eta vdisk := λ v,
  mkVdisk (v_desc v) (v_avail_idx v) (v_avail v) (v_dev_idx v) (v_used v) (v_free v) (v_used_idx v) (v_info v)
    (v_status v) (v_ops v) (v_mmio v).
Definition vdisk0 : vdisk :=
  mkVdisk (replicate NUM desc0) 0 (replicate NUM 0) 0 (replicate NUM 0) (replicate NUM 0) 0 (replicate NUM None)
    (replicate NUM 0) (replicate NUM req0) [].

Record vst : Type := mkVst { ks : kst; vd : vdisk }.
#[export] Instance vst_eta : Eta vst := λ s, mkVst (ks s) (vd s).

Abbreviation VM := (K vst).

(** A kernel routine, the driver's state beside it. *)
Fixpoint lift_res {A} (r : res kst A) (v : vdisk) : res vst A :=
  match r with
  | Ok a s => Ok a (mkVst s v)
  | Panic m => Panic m
  | Fault => Fault
  | Swtch s k => Swtch (mkVst s v) (λ s', lift_res (k (ks s')) (vd s'))
  | OutOfFuel => OutOfFuel
  end.
Definition lift {A} (m : KM A) : VM A := λ s, lift_res (m (ks s)) (vd s).

Definition getv : VM vdisk := gets vd.
Definition updv (f : vdisk → vdisk) : VM unit := modify (λ s, s <| vd ::= f |>).

(** The value a register reads. *)
Class Mmio := mmio_read : vdisk → Z → Z.

Definition mmio_write (r v : Z) : VM unit := updv (λ d, d <| v_mmio ::= List.cons (r, v) |>).

Section Driver.
Context `{Layout, Wakeups, Mmio}.

Definition read_reg (r : Z) : VM Z := v <- getv ;; ret (mmio_read v r).

Definition clear_feature (f b : Z) : Z := Z.land f (u64 (Z.lnot (s32 (Z.shiftl 1 b)))).

Definition virtio_disk_init : VM unit :=
  magic <- read_reg VIRTIO_MMIO_MAGIC_VALUE ;;
  version <- read_reg VIRTIO_MMIO_VERSION ;;
  id <- read_reg VIRTIO_MMIO_DEVICE_ID ;;
  vendor <- read_reg VIRTIO_MMIO_VENDOR_ID ;;
  if negb (magic =? 0x74726976) || negb (version =? 2) || negb (id =? 2) || negb (vendor =? 0x554d4551)
  then panic "could not find virtio disk"
  else
    let status := 0 in
    mmio_write VIRTIO_MMIO_STATUS status ;;;
    let status := Z.lor status VIRTIO_CONFIG_S_ACKNOWLEDGE in
    mmio_write VIRTIO_MMIO_STATUS status ;;;
    let status := Z.lor status VIRTIO_CONFIG_S_DRIVER in
    mmio_write VIRTIO_MMIO_STATUS status ;;;
    features <- read_reg VIRTIO_MMIO_DEVICE_FEATURES ;;
    mmio_write VIRTIO_MMIO_DRIVER_FEATURES (u32 (foldl clear_feature features VIRTIO_FEATURES_OFF)) ;;;
    let status := Z.lor status VIRTIO_CONFIG_S_FEATURES_OK in
    mmio_write VIRTIO_MMIO_STATUS status ;;;
    status <- read_reg VIRTIO_MMIO_STATUS ;;
    if Z.land status VIRTIO_CONFIG_S_FEATURES_OK =? 0 then panic "virtio disk FEATURES_OK unset"
    else
      mmio_write VIRTIO_MMIO_QUEUE_SEL 0 ;;;
      ready <- read_reg VIRTIO_MMIO_QUEUE_READY ;;
      if negb (ready =? 0) then panic "virtio disk should not be ready"
      else
        max <- read_reg VIRTIO_MMIO_QUEUE_NUM_MAX ;;
        if max =? 0 then panic "virtio disk has no queue 0"
        else if max <? Z.of_nat NUM then panic "virtio disk max queue too short"
        else
          desc <- lift kalloc ;;
          avail <- lift kalloc ;;
          used <- lift kalloc ;;
          if (desc =? 0) || (avail =? 0) || (used =? 0) then panic "virtio disk kalloc"
          else
            lift (kmemset desc 0 PGSIZE) ;;;
            lift (kmemset avail 0 PGSIZE) ;;;
            lift (kmemset used 0 PGSIZE) ;;;
            updv (λ v, v <| v_desc := replicate NUM desc0 |> <| v_avail_idx := 0 |> <| v_avail := replicate NUM 0 |>
                         <| v_dev_idx := 0 |> <| v_used := replicate NUM 0 |>) ;;;
            mmio_write VIRTIO_MMIO_QUEUE_NUM (Z.of_nat NUM) ;;;
            mmio_write VIRTIO_MMIO_QUEUE_DESC_LOW (u32 desc) ;;;
            mmio_write VIRTIO_MMIO_QUEUE_DESC_HIGH (u32 (Z.shiftr desc 32)) ;;;
            mmio_write VIRTIO_MMIO_DRIVER_DESC_LOW (u32 avail) ;;;
            mmio_write VIRTIO_MMIO_DRIVER_DESC_HIGH (u32 (Z.shiftr avail 32)) ;;;
            mmio_write VIRTIO_MMIO_DEVICE_DESC_LOW (u32 used) ;;;
            mmio_write VIRTIO_MMIO_DEVICE_DESC_HIGH (u32 (Z.shiftr used 32)) ;;;
            mmio_write VIRTIO_MMIO_QUEUE_READY 1 ;;;
            updv (λ v, v <| v_free := replicate NUM 1 |>) ;;;
            mmio_write VIRTIO_MMIO_STATUS (Z.lor status VIRTIO_CONFIG_S_DRIVER_OK).

(** ** Descriptors *)

Definition get_desc (i : nat) : VM virtq_desc := v <- getv ;; in_range (v_desc v !! i).
Definition put_desc (i : nat) (d : virtq_desc) : VM unit :=
  get_desc i ;;; updv (λ v, v <| v_desc ::= <[i := d]> |>).
Definition set_free (i : nat) (x : Z) : VM unit := updv (λ v, v <| v_free ::= <[i := x]> |>).

(** The descriptor's index, or -1. *)
Definition alloc_desc : VM Z :=
  r <- for_each (seq 0 NUM) (λ i,
    v <- getv ;;
    f <- in_range (v_free v !! i) ;;
    if negb (f =? 0) then set_free i 0 ;;; ret (Some (Z.of_nat i)) else ret None) ;;
  ret (default (-1) r).

Definition free_desc (i : Z) : VM unit :=
  if i >=? Z.of_nat NUM then panic "free_desc 1"
  else
    v <- getv ;;
    f <- in_range (v_free v !! Z.to_nat i) ;;
    if negb (f =? 0) then panic "free_desc 2"
    else
      put_desc (Z.to_nat i) desc0 ;;;
      set_free (Z.to_nat i) 1 ;;;
      lift (wakeup ChDisk).

(** A chain has no more than [NUM] descriptors unless it is a cycle, which
    [free_desc] refuses: a chain is freed within [NUM + 1] steps. *)
Fixpoint free_chain (fuel : nat) (i : Z) : VM unit :=
  match fuel with
  | O => nofuel
  | S fuel' =>
      d <- get_desc (Z.to_nat i) ;;
      free_desc i ;;;
      if negb (Z.land (d_flags d) VRING_DESC_F_NEXT =? 0) then free_chain fuel' (d_next d) else ret tt
  end.

(** The three indices, or [None] for -1. *)
Definition alloc3_desc : VM (option (Z * Z * Z)) :=
  i0 <- alloc_desc ;;
  if i0 <? 0 then ret None
  else
    i1 <- alloc_desc ;;
    if i1 <? 0 then free_desc i0 ;;; ret None
    else
      i2 <- alloc_desc ;;
      if i2 <? 0 then free_desc i0 ;;; free_desc i1 ;;; ret None
      else ret (Some (i0, i1, i2)).

(** [while(1){ if(alloc3_desc(idx) == 0) break; sleep(&disk.free[0], ...); }] *)
Fixpoint wait_desc (fuel : nat) : VM (Z * Z * Z) :=
  o <- alloc3_desc ;;
  match o with
  | Some idx => ret idx
  | None => match fuel with O => nofuel | S fuel' => lift (sleep ChDisk Lvdisk) ;;; wait_desc fuel' end
  end.

(** [while(b->disk == 1) sleep(b, &disk.vdisk_lock)] *)
Fixpoint wait_done (fuel : nat) (b : nat) : VM unit :=
  x <- lift (getb b) ;;
  if b_disk x =? 1 then
    match fuel with O => nofuel | S fuel' => lift (sleep (ChBuf b) Lvdisk) ;;; wait_done fuel' b end
  else ret tt.

(** The request header, the three descriptors and the entry of the ring. *)
Definition format_request (b : nat) (write : bool) (sector : Z) (idx : Z * Z * Z) : VM unit :=
  let '(i0, i1, i2) := idx in
  let h := Z.to_nat i0 in
  updv (λ v, v <| v_ops ::= <[h := mkReq (if write then VIRTIO_BLK_T_OUT else VIRTIO_BLK_T_IN) 0 sector]> |>) ;;;
  put_desc h (mkDesc (DReq h) 16 VRING_DESC_F_NEXT i1) ;;;
  put_desc (Z.to_nat i1)
    (mkDesc (DData b) BSIZE (Z.lor (if write then 0 else VRING_DESC_F_WRITE) VRING_DESC_F_NEXT) i2) ;;;
  updv (λ v, v <| v_status ::= <[h := 0xff]> |>) ;;;
  put_desc (Z.to_nat i2) (mkDesc (DStatus h) 1 VRING_DESC_F_WRITE 0) ;;;
  lift (updb b (λ x, x <| b_disk := 1 |>)) ;;;
  updv (λ v, v <| v_info ::= <[h := Some b]> |>) ;;;
  updv (λ v, v <| v_avail ::= <[Z.to_nat (v_avail_idx v mod Z.of_nat NUM) := i0]> |>) ;;;
  updv (λ v, v <| v_avail_idx ::= λ n, u16 (n + 1) |>) ;;;
  mmio_write VIRTIO_MMIO_QUEUE_NOTIFY 0.

Definition virtio_disk_rw (b : nat) (write : bool) : VM unit :=
  x <- lift (getb b) ;;
  let sector := u32 (b_blockno x * (BSIZE / 512)) in
  lift (acquire Lvdisk) ;;;
  idx <- wait_desc wakeups ;;
  format_request b write sector idx ;;;
  wait_done wakeups b ;;;
  updv (λ v, v <| v_info ::= <[Z.to_nat idx.1.1 := None]> |>) ;;;
  free_chain (S NUM) idx.1.1 ;;;
  lift (release Lvdisk).

(** [while(disk.used_idx != disk.used->idx)]; the device is at most [fuel]
    entries ahead. *)
Fixpoint used_loop (fuel : nat) : VM unit :=
  v <- getv ;;
  if v_used_idx v =? v_dev_idx v then ret tt
  else match fuel with
       | O => nofuel
       | S fuel' =>
           id <- in_range (v_used v !! Z.to_nat (v_used_idx v mod Z.of_nat NUM)) ;;
           st <- in_range (v_status v !! Z.to_nat id) ;;
           if negb (st =? 0) then panic "virtio_disk_intr status"
           else
             o <- in_range (v_info v !! Z.to_nat id) ;;
             b <- in_range o ;;
             lift (updb b (λ x, x <| b_disk := 0 |>)) ;;;
             lift (wakeup (ChBuf b)) ;;;
             updv (λ v, v <| v_used_idx ::= λ n, u16 (n + 1) |>) ;;;
             used_loop fuel'
       end.

Definition virtio_disk_intr : VM unit :=
  lift (acquire Lvdisk) ;;;
  st <- read_reg VIRTIO_MMIO_INTERRUPT_STATUS ;;
  mmio_write VIRTIO_MMIO_INTERRUPT_ACK (Z.land st 3) ;;;
  v <- getv ;;
  used_loop (Z.to_nat (u16 (v_dev_idx v - v_used_idx v))) ;;;
  lift (release Lvdisk).

End Driver.

(** ** Running driver code *)

Lemma lift_ok {A} (m : KM A) s v a s' : m s = Ok a s' → lift m (mkVst s v) = Ok a (mkVst s' v).
Proof. intros E. unfold lift. cbn. by rewrite E. Qed.

Lemma lift_swtch {A} (m : KM A) s v s' k :
  m s = Swtch s' k → lift m (mkVst s v) = Swtch (mkVst s' v) (λ s', lift_res (k (ks s')) (vd s')).
Proof. intros E. unfold lift. cbn. by rewrite E. Qed.

Lemma updv_ok f s v : updv f (mkVst s v) = Ok tt (mkVst s (f v)).
Proof. unfold updv, modify. f_equal. Qed.

Lemma get_desc_ok i d s v : v_desc v !! i = Some d → get_desc i (mkVst s v) = Ok d (mkVst s v).
Proof. intros E. unfold get_desc, getv. rewrite bind_gets. cbn. by rewrite E. Qed.

Lemma put_desc_ok i d s v :
  (i < length (v_desc v))%nat → put_desc i d (mkVst s v) = Ok tt (mkVst s (v <| v_desc := <[i := d]> (v_desc v) |>)).
Proof.
  intros Hi. destruct (lookup_lt_is_Some_2 _ _ Hi) as [d' Hd]. unfold put_desc.
  erewrite bind_ok by (by apply get_desc_ok). by rewrite updv_ok.
Qed.

(** ** Allocation of descriptors *)

Definition usable (f : Z) : bool := negb (f =? 0).

Lemma alloc_scan s v l k :
  (∀ j x, l !! j = Some x → v_free v !! (k + j)%nat = Some x) →
  for_each (seq k (length l)) (λ i,
    v <- getv ;;
    f <- in_range (v_free v !! i) ;;
    if negb (f =? 0) then set_free i 0 ;;; ret (Some (Z.of_nat i)) else ret None) (mkVst s v) =
  match find_from usable l k with
  | Some i => Ok (Some (Z.of_nat i)) (mkVst s (v <| v_free := <[i := 0]> (v_free v) |>))
  | None => Ok None (mkVst s v)
  end.
Proof.
  revert k. induction l as [|x l IH]; intros k Hl; [done|]. cbn [length seq for_each find_from].
  assert (v_free v !! k = Some x) as Hx by (specialize (Hl 0%nat x eq_refl); by rewrite Nat.add_0_r in Hl).
  unfold usable at 1. destruct (negb (x =? 0)) eqn:E.
  - erewrite bind_ok; cycle 1.
    { unfold getv. rewrite bind_gets. cbn [vd]. rewrite Hx. cbn [in_range]. rewrite bind_ret, E.
      unfold set_free. erewrite bind_ok by apply updv_ok. reflexivity. }
    done.
  - erewrite bind_ok; [|unfold getv; rewrite bind_gets; cbn [vd]; rewrite Hx; cbn [in_range]; by rewrite bind_ret, E].
    apply IH. intros j y Hj. replace (S k + j)%nat with (k + S j)%nat by lia. by apply Hl.
Qed.

Lemma alloc_desc_ok s v :
  length (v_free v) = NUM →
  alloc_desc (mkVst s v) =
    match find_first usable (v_free v) with
    | Some i => Ok (Z.of_nat i) (mkVst s (v <| v_free := <[i := 0]> (v_free v) |>))
    | None => Ok (-1) (mkVst s v)
    end.
Proof.
  intros Hl. unfold alloc_desc. rewrite <- Hl. unfold bind at 1. rewrite (alloc_scan s v (v_free v) 0) by done.
  unfold find_first. by destruct (find_from _ _ _).
Qed.

(** A descriptor is freed: the waiters for descriptors are woken. *)
Definition wake_disk (s : kst) : kst := s <| procs := imap (wake ChDisk (cur s)) (procs s) |>.

Lemma free_desc_ok i s v :
  (i < NUM)%nat → v_free v !! i = Some 0 → length (v_desc v) = NUM → table_free s →
  free_desc (Z.of_nat i) (mkVst s v) =
    Ok tt (mkVst (wake_disk s) (v <| v_desc := <[i := desc0]> (v_desc v) |> <| v_free := <[i := 1]> (v_free v) |>)).
Proof.
  intros Hi Hf Hd Ht. unfold free_desc. replace (Z.of_nat i >=? Z.of_nat NUM) with false by lia.
  unfold getv. rewrite bind_gets. cbn [vd]. rewrite Nat2Z.id, Hf. cbn [in_range]. rewrite bind_ret. cbn [Z.eqb negb].
  erewrite bind_ok by (apply put_desc_ok; lia). unfold set_free. erewrite bind_ok by apply updv_ok.
  erewrite lift_ok by (by apply wakeup_ok). rsimpl. done.
Qed.

Record vdisk_ok (v : vdisk) : Prop := {
  vo_desc : length (v_desc v) = NUM;
  vo_avail : length (v_avail v) = NUM;
  vo_used : length (v_used v) = NUM;
  vo_free : length (v_free v) = NUM;
  vo_info : length (v_info v) = NUM;
  vo_status : length (v_status v) = NUM;
  vo_ops : length (v_ops v) = NUM;
  vo_flags : Forall (λ f, f = 0 ∨ f = 1) (v_free v);
  vo_aidx : 0 ≤ v_avail_idx v < 2 ^ 16;
  vo_didx : 0 ≤ v_dev_idx v < 2 ^ 16
}.

Lemma find_usable f i :
  Forall (λ f, f = 0 ∨ f = 1) f → find_first usable f = Some i → f !! i = Some 1.
Proof.
  intros HF Hi. apply find_first_Some in Hi as (x & Hx & Hu & _).
  destruct (Forall_lookup_1 _ _ _ _ HF Hx) as [->| ->]; done.
Qed.

Definition free_count (v : vdisk) : nat := length (filter (λ f, f ≠ 0) (v_free v)).

Lemma count_take f i :
  f !! i = Some 1 → length (filter (λ f, f ≠ 0) f) = S (length (filter (λ f, f ≠ 0) (<[i := 0]> f))).
Proof.
  intros Hi. pose proof (lookup_lt_Some _ _ _ Hi).
  rewrite <- (take_drop_middle f i 1 Hi) at 1. rewrite insert_take_drop by done.
  rewrite !filter_app, !length_app, !filter_cons. rewrite decide_True, decide_False by (try done; lia). cbn. lia.
Qed.

Lemma count_none f : find_first usable f = None → length (filter (λ f, f ≠ 0) f) = 0%nat.
Proof.
  rewrite find_first_None. intros Hn. induction f as [|x f IH]; [done|]. rewrite filter_cons.
  pose proof (Hn 0%nat x eq_refl) as H0. unfold usable in H0.
  rewrite decide_False by (intros H1; apply H1; lia). apply IH. intros j y Hj. exact (Hn (S j) y Hj).
Qed.

Lemma table_free_wake s : table_free s → table_free (wake_disk s).
Proof. intros [Hl Hf]. unfold wake_disk. split; rsimpl; [by rewrite length_imap|done]. Qed.

Lemma flags_take f i : Forall (λ f, f = 0 ∨ f = 1) f → Forall (λ f, f = 0 ∨ f = 1) (<[i := 0]> f).
Proof. intros. apply Forall_insert; [done|by left]. Qed.

Lemma nat_not_neg (n : nat) : (Z.of_nat n <? 0) = false.
Proof. apply Z.ltb_ge. lia. Qed.

Lemma give_back (f : list Z) i : f !! i = Some 1 → <[i := 1]> (<[i := 0]> f) = f.
Proof. intros Hi. rewrite list_insert_insert_eq. by apply list_insert_id. Qed.

Lemma give_back2 (f : list Z) i j :
  i ≠ j → f !! i = Some 1 → f !! j = Some 1 → <[j := 1]> (<[i := 1]> (<[j := 0]> (<[i := 0]> f))) = f.
Proof.
  intros Hne Hi Hj. rewrite (list_insert_insert_ne _ j i) by done.
  rewrite give_back; [by apply give_back|]. by rewrite list_lookup_insert_ne.
Qed.

Lemma alloc_desc_some s v i :
  length (v_free v) = NUM → find_first usable (v_free v) = Some i →
  alloc_desc (mkVst s v) = Ok (Z.of_nat i) (mkVst s (v <| v_free := <[i := 0]> (v_free v) |>)).
Proof. intros Hl Hi. by rewrite alloc_desc_ok, Hi. Qed.

Lemma alloc_desc_none s v :
  length (v_free v) = NUM → find_first usable (v_free v) = None → alloc_desc (mkVst s v) = Ok (-1) (mkVst s v).
Proof. intros Hl Hi. by rewrite alloc_desc_ok, Hi. Qed.

Lemma alloc3_ok s v :
  vdisk_ok v → table_free s →
  (∃ i0 i1 i2 : nat,
     alloc3_desc (mkVst s v) =
       Ok (Some (Z.of_nat i0, Z.of_nat i1, Z.of_nat i2))
          (mkVst s (v <| v_free := <[i2 := 0]> (<[i1 := 0]> (<[i0 := 0]> (v_free v))) |>)) ∧
     i0 ≠ i1 ∧ i0 ≠ i2 ∧ i1 ≠ i2 ∧ v_free v !! i0 = Some 1 ∧ v_free v !! i1 = Some 1 ∧ v_free v !! i2 = Some 1) ∨
  ((free_count v < 3)%nat ∧ ∃ s' v', alloc3_desc (mkVst s v) = Ok None (mkVst s' v') ∧ v_free v' = v_free v ∧
     v_info v' = v_info v ∧ v_avail v' = v_avail v ∧ held s' = held s ∧ bufs s' = bufs s ∧ disk s' = disk s).
Proof.
  intros [] Ht. unfold alloc3_desc, free_count.
  destruct (find_first usable (v_free v)) as [i0|] eqn:E0; cycle 1.
  { right. apply count_none in E0 as Hc. split; [lia|]. erewrite bind_ok by (by apply alloc_desc_none). by eexists _, _. }
  erewrite bind_ok by (by apply alloc_desc_some). rewrite (nat_not_neg i0).
  apply find_usable in E0 as H0; [|done]. pose proof (lookup_lt_Some _ _ _ H0) as L0. rewrite (count_take _ i0) by done.
  set (f1 := <[i0 := 0]> (v_free v)). assert (f1 !! i0 = Some 0) as H00 by (by apply list_lookup_insert_eq).
  assert (length f1 = NUM) as Lf1 by (unfold f1; by rewrite length_insert).
  destruct (find_first usable f1) as [i1|] eqn:E1; cycle 1.
  { right. apply count_none in E1 as Hc. split; [lia|]. erewrite bind_ok by (apply alloc_desc_none; rsimpl; done).
    cbn [Z.ltb Z.compare]. erewrite bind_ok by (apply free_desc_ok; rsimpl; done || lia).
    eexists _, _. split; [done|]. unfold wake_disk. rsimpl. split_and!; [by apply give_back|done..]. }
  erewrite bind_ok by (apply alloc_desc_some; rsimpl; done). rewrite (nat_not_neg i1).
  apply find_usable in E1 as H1'; [|by apply flags_take].
  assert (i0 ≠ i1) as N01 by (intros <-; congruence). pose proof H1' as H1. unfold f1 in H1. rewrite list_lookup_insert_ne in H1 by done.
  pose proof (lookup_lt_Some _ _ _ H1) as L1. rewrite (count_take f1 i1) by done. rsimpl.
  set (f2 := <[i1 := 0]> f1). assert (f2 !! i1 = Some 0) as H11 by (apply list_lookup_insert_eq; lia).
  assert (f2 !! i0 = Some 0) as H10 by (unfold f2; by rewrite list_lookup_insert_ne).
  assert (length f2 = NUM) as Lf2 by (unfold f2, f1; by rewrite !length_insert).
  destruct (find_first usable f2) as [i2|] eqn:E2; cycle 1.
  { right. apply count_none in E2 as Hc. split; [lia|]. erewrite bind_ok by (apply alloc_desc_none; rsimpl; done).
    cbn [Z.ltb Z.compare]. erewrite bind_ok by (apply free_desc_ok; rsimpl; done || lia). rsimpl.
    erewrite bind_ok by (apply free_desc_ok; rsimpl; [lia|by rewrite list_lookup_insert_ne|by rewrite length_insert|by apply table_free_wake]).
    eexists _, _. split; [done|]. unfold wake_disk. rsimpl. split_and!; [by apply give_back2|done..]. }
  left. exists i0, i1, i2. erewrite bind_ok by (apply alloc_desc_some; rsimpl; done). rewrite (nat_not_neg i2).
  apply find_usable in E2 as H2; [|by apply flags_take, flags_take].
  assert (i0 ≠ i2 ∧ i1 ≠ i2) as [N02 N12] by (split; intros <-; congruence).
  unfold f2, f1 in H2. rewrite !list_lookup_insert_ne in H2 by done. split_and!; done.
Qed.

(** [alloc3_desc] takes three different free descriptors, or none: with
    fewer than three it gives back what it took and leaves the same
    descriptors free. *)
Theorem alloc3_desc_correct s v :
  vdisk_ok v → table_free s →
  (∃ i0 i1 i2 : nat,
     alloc3_desc (mkVst s v) =
       Ok (Some (Z.of_nat i0, Z.of_nat i1, Z.of_nat i2))
          (mkVst s (v <| v_free := <[i2 := 0]> (<[i1 := 0]> (<[i0 := 0]> (v_free v))) |>)) ∧
     i0 ≠ i1 ∧ i0 ≠ i2 ∧ i1 ≠ i2 ∧ v_free v !! i0 = Some 1 ∧ v_free v !! i1 = Some 1 ∧ v_free v !! i2 = Some 1) ∨
  ((free_count v < 3)%nat ∧ ∃ s' v', alloc3_desc (mkVst s v) = Ok None (mkVst s' v') ∧ v_free v' = v_free v ∧
     v_info v' = v_info v ∧ v_avail v' = v_avail v ∧ held s' = held s ∧ bufs s' = bufs s ∧ disk s' = disk s).
Proof. apply alloc3_ok. Qed.

(** ** A request *)

(** The request of buffer [b] in the chain [i0], [i1], [i2]. *)
Record chained (desc : list virtq_desc) (i0 i1 i2 b : nat) (write : bool) : Prop := {
  ch_d0 : desc !! i0 = Some (mkDesc (DReq i0) 16 VRING_DESC_F_NEXT (Z.of_nat i1));
  ch_d1 : desc !! i1 =
    Some (mkDesc (DData b) BSIZE (Z.lor (if write then 0 else VRING_DESC_F_WRITE) VRING_DESC_F_NEXT) (Z.of_nat i2));
  ch_d2 : desc !! i2 = Some (mkDesc (DStatus i0) 1 VRING_DESC_F_WRITE 0)
}.
Record requested (v : vdisk) (i0 i1 i2 b : nat) (write : bool) (sector : Z) : Prop := {
  rq_req : v_ops v !! i0 = Some (mkReq (if write then VIRTIO_BLK_T_OUT else VIRTIO_BLK_T_IN) 0 sector);
  rq_chain : chained (v_desc v) i0 i1 i2 b write;
  rq_info : v_info v !! i0 = Some (Some b);
  rq_ring : v_avail v !! Z.to_nat (u16 (v_avail_idx v - 1) mod Z.of_nat NUM) = Some (Z.of_nat i0)
}.

(** What a device does with such a request, of the block at [2 * n]: the
    transfer, the status byte, the entry of the used ring. *)
Definition transfer (b : nat) (x : buf) (write : bool) (n : Z) (s : kst) : kst :=
  if write then s <| disk := <[n := b_data x]> (disk s) |> <| disk_trace := (n, b_data x) :: disk_trace s |>
  else s <| bufs := <[b := x <| b_data := dblock (disk s) n |>]> (bufs s) |>.
Definition answer (i0 : nat) (v : vdisk) : vdisk :=
  v <| v_status := <[i0 := 0]> (v_status v) |>
    <| v_used := <[Z.to_nat (v_dev_idx v mod Z.of_nat NUM) := Z.of_nat i0]> (v_used v) |>
    <| v_dev_idx := u16 (v_dev_idx v + 1) |>.

(** [complete i s]: the device has served the chain that starts at [i]. *)
Class Device := complete : nat → vst → vst.
Class DeviceOk `{Device} : Prop :=
  complete_ok s v i0 i1 i2 b x write n :
    requested v i0 i1 i2 b write (2 * n) → bufs s !! b = Some x →
    complete i0 (mkVst s v) = mkVst (transfer b x write n s) (answer i0 v).

Section Request.
Context `{HL : Layout, HW : Wakeups, HM : Mmio}.

Lemma format_request_ok s v (i0 i1 i2 b : nat) x write sector :
  vdisk_ok v → i0 ≠ i1 → i0 ≠ i2 → i1 ≠ i2 → (i0 < NUM)%nat → (i1 < NUM)%nat → (i2 < NUM)%nat → bufs s !! b = Some x →
  ∃ v', format_request b write sector (Z.of_nat i0, Z.of_nat i1, Z.of_nat i2) (mkVst s v) =
      Ok tt (mkVst (s <| bufs := <[b := x <| b_disk := 1 |>]> (bufs s) |>) v') ∧
    requested v' i0 i1 i2 b write sector ∧ v_free v' = v_free v ∧ v_used_idx v' = v_used_idx v ∧ v_dev_idx v' = v_dev_idx v ∧
    v_used v' = v_used v ∧ length (v_status v') = NUM ∧ v_avail_idx v' = u16 (v_avail_idx v + 1) ∧
    length (v_desc v') = NUM ∧ length (v_info v') = NUM ∧ length (v_ops v') = NUM ∧ length (v_avail v') = NUM ∧
    (∀ j, j ≠ i0 → j ≠ i1 → j ≠ i2 → v_desc v' !! j = v_desc v !! j) ∧ (∀ j, j ≠ i0 → v_info v' !! j = v_info v !! j).
Proof.
  intros [] N01 N02 N12 L0 L1 L2 Hx. unfold format_request. rewrite !Nat2Z.id.
  erewrite bind_ok by apply updv_ok.
  erewrite bind_ok by (apply put_desc_ok; rsimpl; lia). erewrite bind_ok by (apply put_desc_ok; rsimpl; rewrite length_insert; lia).
  erewrite bind_ok by apply updv_ok. erewrite bind_ok by (apply put_desc_ok; rsimpl; rewrite !length_insert; lia).
  erewrite bind_ok by (apply lift_ok; by apply updb_ok). do 3 erewrite bind_ok by apply updv_ok.
  unfold mmio_write. rewrite updv_ok. eexists. split; [done|]. rsimpl.
  assert (∀ n, u16 (u16 (n + 1) - 1) = u16 n) as Hu.
  { intros n. unfold u16. rewrite Zminus_mod_idemp_l. f_equal. lia. }
  split; [split; [|split| |]; rsimpl|].
  - by rewrite list_lookup_insert_eq by lia.
  - rewrite !list_lookup_insert_ne by done. by rewrite list_lookup_insert_eq by lia.
  - rewrite !list_lookup_insert_ne by done. by rewrite list_lookup_insert_eq by (rewrite length_insert; lia).
  - by rewrite list_lookup_insert_eq by (rewrite !length_insert; lia).
  - by rewrite list_lookup_insert_eq by lia.
  - rewrite Hu. unfold u16. rewrite (Z.mod_small (v_avail_idx v) (2 ^ 16)) by lia. apply list_lookup_insert_eq.
    pose proof (Z.mod_pos_bound (v_avail_idx v) (Z.of_nat NUM) ltac:(done)). lia.
  - rewrite !length_insert. split_and!; try done; intros; by rewrite !list_lookup_insert_ne.
Qed.

Lemma free_chain_ok s v (i0 i1 i2 b : nat) write :
  chained (v_desc v) i0 i1 i2 b write → i0 ≠ i1 → i0 ≠ i2 → i1 ≠ i2 → (i0 < NUM)%nat → (i1 < NUM)%nat → (i2 < NUM)%nat →
  length (v_desc v) = NUM → v_free v !! i0 = Some 0 → v_free v !! i1 = Some 0 → v_free v !! i2 = Some 0 → table_free s →
  ∃ v', free_chain (S NUM) (Z.of_nat i0) (mkVst s v) = Ok tt (mkVst (wake_disk (wake_disk (wake_disk s))) v') ∧
    v' = v <| v_desc := <[i2 := desc0]> (<[i1 := desc0]> (<[i0 := desc0]> (v_desc v))) |>
           <| v_free := <[i2 := 1]> (<[i1 := 1]> (<[i0 := 1]> (v_free v))) |>.
Proof.
  intros [D0 D1 D2] N01 N02 N12 L0 L1 L2 Hd F0 F1 F2 Ht.
  unfold NUM at 1. cbn [free_chain]. rewrite Nat2Z.id.
  erewrite bind_ok by (by apply get_desc_ok). erewrite bind_ok by (by apply free_desc_ok).
  replace (negb (Z.land (d_flags _) VRING_DESC_F_NEXT =? 0)) with true by reflexivity. cbn [d_next]. rewrite Nat2Z.id.
  erewrite bind_ok by (apply get_desc_ok; rsimpl; rewrite list_lookup_insert_ne by done; exact D1).
  erewrite bind_ok by (apply free_desc_ok; rsimpl; rewrite ?length_insert, ?list_lookup_insert_ne by done; try done; by apply table_free_wake).
  replace (negb (Z.land (d_flags _) VRING_DESC_F_NEXT =? 0)) with true by (destruct write; reflexivity). cbn [d_next]. rewrite Nat2Z.id. rsimpl.
  erewrite bind_ok by (apply get_desc_ok; rsimpl; rewrite !list_lookup_insert_ne by done; exact D2).
  erewrite bind_ok by (apply free_desc_ok; rsimpl; rewrite ?length_insert, ?list_lookup_insert_ne by done; try done; by apply table_free_wake, table_free_wake).
  replace (negb (Z.land (d_flags _) VRING_DESC_F_NEXT =? 0)) with false by reflexivity. rsimpl.
  eexists. split; [reflexivity|]. destruct v. reflexivity.
Qed.

(** The interrupt that announces the request. *)
Lemma intr_ok s v (i0 b : nat) x :
  held s = [] → length (procs s) = NPROC → bufs s !! b = Some x → 0 ≤ v_used_idx v < 2 ^ 16 →
  v_dev_idx v = u16 (v_used_idx v + 1) → v_used v !! Z.to_nat (v_used_idx v mod Z.of_nat NUM) = Some (Z.of_nat i0) →
  v_status v !! i0 = Some 0 → v_info v !! i0 = Some (Some b) →
  ∃ w, virtio_disk_intr (mkVst s v) =
    Ok tt (mkVst (s <| bufs := <[b := x <| b_disk := 0 |>]> (bufs s) |>
                    <| procs := imap (wake (ChBuf b) (cur s)) (procs s) |>)
                 (v <| v_mmio := w |> <| v_used_idx := u16 (v_used_idx v + 1) |>)).
Proof.
  intros Hh Hl Hx Hu Hd Hid Hst Hinfo. unfold virtio_disk_intr.
  erewrite bind_ok by (apply lift_ok, acquire_ok; rewrite Hh; apply not_elem_of_nil).
  unfold read_reg, getv. erewrite bind_ok by reflexivity. unfold mmio_write. erewrite bind_ok by apply updv_ok.
  rewrite bind_gets. cbn [vd]. rsimpl. rewrite Hd.
  replace (u16 (u16 (v_used_idx v + 1) - v_used_idx v)) with 1.
  2:{ unfold u16. rewrite Zminus_mod_idemp_l. by replace (v_used_idx v + 1 - v_used_idx v) with 1 by lia. }
  assert (u16 (v_used_idx v + 1) ≠ v_used_idx v) as Hne.
  { unfold u16. destruct (Z.eq_dec (v_used_idx v) (2 ^ 16 - 1)) as [->|]; [done|]. rewrite Z.mod_small by lia. lia. }
  change (Z.to_nat 1) with 1%nat. cbn [used_loop]. unfold getv. erewrite bind_ok; cycle 1.
  { rewrite bind_gets. cbn [vd]. rsimpl. rewrite Hd, (proj2 (Z.eqb_neq _ _)) by congruence. rewrite Hid. cbn [in_range]. rewrite bind_ret.
    rewrite Nat2Z.id, Hst. cbn [in_range]. rewrite bind_ret. cbn [Z.eqb negb]. rewrite Hinfo. cbn [in_range]. rewrite bind_ret. cbn [in_range]. rewrite bind_ret.
    erewrite bind_ok by (apply lift_ok, updb_ok; by rsimpl).
    erewrite bind_ok by (apply lift_ok, wakeup_ok; split; rsimpl; [done|rewrite Hh; by intros j ?%list_elem_of_singleton]).
    erewrite bind_ok by apply updv_ok. rewrite bind_gets. cbn [vd]. rsimpl. rewrite Hd, Z.eqb_refl. reflexivity. }
  rsimpl. erewrite lift_ok by (apply release_top; [rsimpl; reflexivity|rewrite Hh; apply not_elem_of_nil]).
  exists ((vreg_offset VIRTIO_MMIO_INTERRUPT_ACK, Z.land (mmio_read v VIRTIO_MMIO_INTERRUPT_STATUS) 3) :: v_mmio v).
  f_equal.
Qed.

(** Waiting for the interrupt. *)
Lemma wait_done_ok n s v i p (b : nat) x :
  cur s = Some i → held s = [Lvdisk] → procs s !! i = Some p → bufs s !! b = Some x → b_disk x = 1 →
  ∃ k, wait_done (S n) b (mkVst s v) =
      Swtch (mkVst (s <| procs := <[i := p <| p_chan := ChBuf b |> <| p_state := SLEEPING |>]> (procs s) |> <| held := [Lproc i] |>) v) k ∧
    ∀ s' v' p' x', cur s' = Some i → held s' = [Lproc i] → procs s' !! i = Some p' → bufs s' !! b = Some x' → b_disk x' = 0 →
      k (mkVst s' v') = Ok tt (mkVst (s' <| procs := <[i := p' <| p_chan := ChNull |>]> (procs s') |> <| held := [Lvdisk] |>) v').
Proof.
  intros Hc Hh Hp Hx Hd. cbn [wait_done]. erewrite bind_ok by (apply lift_ok; by apply getb_ok). rewrite Hd. cbn [Z.eqb Pos.eqb].
  destruct (sleep_ok s i p (ChBuf b) Lvdisk Hc Hh ltac:(done) Hp) as (k & E & Hk).
  unfold bind at 1. erewrite lift_swtch by exact E. cbn [bind_res]. eexists. split; [reflexivity|].
  intros s' v' p' x' Hc' Hh' Hp' Hx' Hd'. cbn [ks vd]. rewrite (Hk s' p') by done. cbn [lift_res bind_res].
  destruct n; cbn [wait_done]; (erewrite bind_ok by (apply lift_ok, getb_ok; by rsimpl)); by rewrite Hd'.
Qed.

(** The last part of [virtio_disk_rw]. *)
Lemma finish_ok s v (i0 i1 i2 b : nat) write :
  chained (v_desc v) i0 i1 i2 b write → i0 ≠ i1 → i0 ≠ i2 → i1 ≠ i2 → (i0 < NUM)%nat → (i1 < NUM)%nat → (i2 < NUM)%nat →
  length (v_desc v) = NUM → v_free v !! i0 = Some 0 → v_free v !! i1 = Some 0 → v_free v !! i2 = Some 0 →
  held s = [Lvdisk] → length (procs s) = NPROC →
  ∃ s' v', (updv (λ v, v <| v_info ::= <[Z.to_nat (Z.of_nat i0) := None]> |>) ;;;
            free_chain (S NUM) (Z.of_nat i0) ;;; lift (release Lvdisk)) (mkVst s v) = Ok tt (mkVst s' v') ∧
    bufs s' = bufs s ∧ disk s' = disk s ∧ held s' = [] ∧
    v_free v' = <[i2 := 1]> (<[i1 := 1]> (<[i0 := 1]> (v_free v))).
Proof.
  intros Hch N01 N02 N12 L0 L1 L2 Hd F0 F1 F2 Hh Hl. erewrite bind_ok by apply updv_ok.
  assert (table_free s) as Ht by (split; [done|rewrite Hh; by intros j ?%list_elem_of_singleton]).
  edestruct (free_chain_ok s (v <| v_info ::= <[Z.to_nat (Z.of_nat i0) := None]> |>) i0 i1 i2 b write) as (v2 & E & ->);
    rsimpl; try done.
  erewrite bind_ok by exact E. rsimpl.
  erewrite lift_ok by (apply release_top; [unfold wake_disk; rsimpl; exact Hh|apply not_elem_of_nil]).
  eexists _, _. split; [done|]. unfold wake_disk. by rsimpl.
Qed.

Lemma give_back3 (f : list Z) i0 i1 i2 :
  i0 ≠ i1 → i0 ≠ i2 → i1 ≠ i2 → f !! i0 = Some 1 → f !! i1 = Some 1 → f !! i2 = Some 1 →
  <[i2 := 1]> (<[i1 := 1]> (<[i0 := 1]> (<[i2 := 0]> (<[i1 := 0]> (<[i0 := 0]> f))))) = f.
Proof.
  intros N01 N02 N12 H0 H1 H2. rewrite (list_insert_insert_ne _ i0 i2), (list_insert_insert_ne _ i1 i2) by done.
  rewrite (list_insert_insert_ne _ i0 i1), (give_back f i0) by done. rewrite give_back by (by rewrite ?list_lookup_insert_ne).
  by rewrite give_back.
Qed.

(** The first part: the chain is published and the process sleeps. *)
Lemma start_ok s v i p (b : nat) x write :
  cur s = Some i → held s = [] → length (procs s) = NPROC → procs s !! i = Some p → bufs s !! b = Some x →
  0 ≤ b_blockno x < 2 ^ 31 → vdisk_ok v → (3 <= free_count v)%nat → (0 < wakeups)%nat →
  ∃ (i0 i1 i2 : nat) v1 k, virtio_disk_rw b write (mkVst s v) =
      Swtch (mkVst (s <| bufs := <[b := x <| b_disk := 1 |>]> (bufs s) |>
                      <| procs := <[i := p <| p_chan := ChBuf b |> <| p_state := SLEEPING |>]> (procs s) |> <| held := [Lproc i] |>) v1) k ∧
    i0 ≠ i1 ∧ i0 ≠ i2 ∧ i1 ≠ i2 ∧ v_free v !! i0 = Some 1 ∧ v_free v !! i1 = Some 1 ∧ v_free v !! i2 = Some 1 ∧
    requested v1 i0 i1 i2 b write (2 * b_blockno x) ∧ v_free v1 = <[i2 := 0]> (<[i1 := 0]> (<[i0 := 0]> (v_free v))) ∧
    v_used_idx v1 = v_used_idx v ∧ v_dev_idx v1 = v_dev_idx v ∧ v_avail_idx v1 = u16 (v_avail_idx v + 1) ∧
    length (v_used v1) = NUM ∧ length (v_status v1) = NUM ∧ length (v_desc v1) = NUM ∧
    ∀ s' v' p' x', cur s' = Some i → held s' = [Lproc i] → procs s' !! i = Some p' → bufs s' !! b = Some x' → b_disk x' = 0 →
      k (mkVst s' v') =
        (updv (λ v, v <| v_info ::= <[Z.to_nat (Z.of_nat i0) := None]> |>) ;;;
         free_chain (S NUM) (Z.of_nat i0) ;;; lift (release Lvdisk))
          (mkVst (s' <| procs := <[i := p' <| p_chan := ChNull |>]> (procs s') |> <| held := [Lvdisk] |>) v').
Proof.
  intros Hc Hh Hl Hp Hx Hb Hv Hfree Hw. unfold virtio_disk_rw. destruct wakeups as [|n] eqn:Ew; [lia|].
  erewrite bind_ok by (by apply lift_ok, getb_ok).
  erewrite bind_ok by (apply lift_ok, acquire_ok; rewrite Hh; apply not_elem_of_nil). rewrite Hh.
  set (sl := s <| held := [Lvdisk] |>).
  assert (table_free sl) as Ht by (unfold sl; split; rsimpl; [done|by intros j ?%list_elem_of_singleton]).
  destruct (alloc3_ok sl v Hv Ht) as [(i0 & i1 & i2 & E3 & N01 & N02 & N12 & F0 & F1 & F2)|[? _]]; [|lia].
  erewrite bind_ok by (cbn [wait_desc]; erewrite bind_ok by exact E3; reflexivity). clear E3.
  set (vf := v <| v_free := _ |>). destruct Hv as [].
  assert (vdisk_ok vf) as Hvf.
  { unfold vf. split; rsimpl; rewrite ?length_insert; try done. by do 3 apply flags_take. }
  apply lookup_lt_Some in F0 as L0, F1 as L1, F2 as L2. rewrite vo_free0 in L0, L1, L2.
  destruct (format_request_ok sl vf i0 i1 i2 b x write (u32 (b_blockno x * (BSIZE / 512))))
    as (v1 & Ef & Hreq & Hfr & Hui & Hdi & Hus & Hst & Hai & Hde & _ & _ & _ & _); try (done || by unfold sl; rsimpl).
  rewrite u32_small in Hreq by (change (BSIZE / 512) with 2; lia). change (BSIZE / 512) with 2 in Hreq.
  erewrite bind_ok by exact Ef. clear Ef.
  destruct (wait_done_ok n (sl <| bufs := <[b := x <| b_disk := 1 |>]> (bufs sl) |>) v1 i p b (x <| b_disk := 1 |>))
    as (k & Ek & Hk); [unfold sl; by rsimpl..|unfold sl; rsimpl; apply list_lookup_insert_eq; by eapply lookup_lt_Some|by rsimpl|].
  unfold bind at 1. rewrite Ek. cbn [bind_res]. exists i0, i1, i2, v1. eexists.
  split; [f_equal; f_equal; unfold sl; kst_eq s|].
  rewrite Z.mul_comm in Hreq. revert Hfr Hui Hdi Hus Hai. unfold vf. rsimpl. intros Hfr Hui Hdi Hus Hai.
  split_and!; try done; try congruence.
  intros s' v' p' x' Hc' Hh' Hp' Hx' Hd'. rewrite (Hk s' v' p' x') by done. reflexivity.
Qed.

Context `{HD : Device, HDO : !DeviceOk}.

(** What [BlockDevOk] promises of the transfer of buffer [b]. *)
Definition transferred (b : nat) (x : buf) (write : bool) (s s' : kst) : Prop :=
  if write then bufs s' = bufs s ∧ disk s' = <[b_blockno x := b_data x]> (disk s)
  else bufs s' = <[b := x <| b_data := dblock (disk s) (b_blockno x) |>]> (bufs s) ∧ disk s' = disk s.

(** The interrupt after the device has served the chain. *)
Lemma served_ok s v (i0 i1 i2 b : nat) x write n :
  requested v i0 i1 i2 b write (2 * n) → held s = [] → length (procs s) = NPROC → bufs s !! b = Some x →
  0 ≤ v_dev_idx v < 2 ^ 16 → v_used_idx v = v_dev_idx v → length (v_used v) = NUM → (i0 < length (v_status v))%nat →
  ∃ s2 v2, virtio_disk_intr (complete i0 (mkVst s v)) = Ok tt (mkVst s2 v2) ∧
    procs s2 = imap (wake (ChBuf b) (cur s)) (procs s) ∧
    bufs s2 = <[b := (if write then x else x <| b_data := dblock (disk s) n |>) <| b_disk := 0 |>]> (bufs s) ∧
    disk s2 = (if write then <[n := b_data x]> (disk s) else disk s) ∧
    v_desc v2 = v_desc v ∧ v_free v2 = v_free v.
Proof.
  intros Hreq Hh Hl Hx Hd Hu Lu Ls. erewrite complete_ok by done. pose proof (lookup_lt_Some _ _ _ Hx) as Lb.
  pose proof (Z.mod_pos_bound (v_dev_idx v) (Z.of_nat NUM) ltac:(done)) as Hm.
  edestruct (intr_ok (transfer b x write n s) (answer i0 v) i0 b (if write then x else x <| b_data := dblock (disk s) n |>)) as (w & E);
    [..|eexists _, _; split; [exact E|]]; unfold transfer, answer; rsimpl.
  1-2: by destruct write; rsimpl.
  - destruct write; rsimpl; [done|by apply list_lookup_insert_eq].
  - lia.
  - by rewrite Hu.
  - rewrite Hu. apply list_lookup_insert_eq. lia.
  - by apply list_lookup_insert_eq.
  - apply (rq_info _ _ _ _ _ _ _ Hreq).
  - split_and!; try done; destruct write; rsimpl; try done. by rewrite list_insert_insert_eq.
Qed.

(** C20: A request completes.  Called by a running process with three
    descriptors free and no completion pending, [virtio_disk_rw] publishes a
    well-formed chain and sleeps; once the device has served the chain,
    [virtio_disk_intr] makes the process runnable; and resumed with the buffers
    and the disk as the interrupt left them, [virtio_disk_rw] returns with the
    transfer done as the buffer cache relies on, its lock released and the same
    descriptors free as before. *)
Theorem virtio_request_completes s v i p (b : nat) x write :
  cur s = Some i → held s = [] → length (procs s) = NPROC → procs s !! i = Some p →
  bufs s !! b = Some x → b_disk x = 0 → 0 ≤ b_blockno x < 2 ^ 31 →
  vdisk_ok v → (3 <= free_count v)%nat → v_used_idx v = v_dev_idx v → (0 < wakeups)%nat →
  ∃ s1 v1 k h,
    virtio_disk_rw b write (mkVst s v) = Swtch (mkVst s1 v1) k ∧
    procs s1 !! i = Some (p <| p_chan := ChBuf b |> <| p_state := SLEEPING |>) ∧
    v_avail_idx v1 = u16 (v_avail_idx v + 1) ∧
    v_avail v1 !! Z.to_nat (v_avail_idx v mod Z.of_nat NUM) = Some (Z.of_nat h) ∧
    ∃ s2 v2,
      virtio_disk_intr (complete h (mkVst (s1 <| held := [] |> <| cur := None |>) v1)) = Ok tt (mkVst s2 v2) ∧
      procs s2 !! i = Some (p <| p_chan := ChBuf b |> <| p_state := RUNNABLE |>) ∧
      ∀ s3 p3, cur s3 = Some i → held s3 = [Lproc i] → length (procs s3) = NPROC → procs s3 !! i = Some p3 →
        bufs s3 = bufs s2 → disk s3 = disk s2 →
        ∃ s4 v4, k (mkVst s3 v2) = Ok tt (mkVst s4 v4) ∧ transferred b x write s s4 ∧ held s4 = [] ∧ v_free v4 = v_free v.
Proof.
  intros Hc Hh Hl Hp Hx Hd0 Hb Hv Hfree Hui Hw.
  destruct (start_ok s v i p b x write Hc Hh Hl Hp Hx Hb Hv Hfree Hw)
    as (i0 & i1 & i2 & v1 & k & E & N01 & N02 & N12 & F0 & F1 & F2 & Hreq & Hfr & Hu1 & Hd1 & Ha1 & Lu & Ls & Lde & Hk).
  set (s1 := s <| bufs := _ |> <| procs := _ |> <| held := _ |>) in *.
  pose proof (lookup_lt_Some _ _ _ Hp) as Li. pose proof (lookup_lt_Some _ _ _ Hx) as Lb.
  apply lookup_lt_Some in F0 as L0, F1 as L1, F2 as L2. destruct Hv as []. rewrite vo_free0 in L0, L1, L2.
  exists s1, v1, k, i0. split; [exact E|]. clear E. split; [unfold s1; rsimpl; by apply list_lookup_insert_eq|]. split; [done|].
  split.
  { pose proof (rq_ring _ _ _ _ _ _ _ Hreq) as Hr. rewrite Ha1 in Hr. unfold u16 in Hr. rewrite Zminus_mod_idemp_l in Hr.
    replace (v_avail_idx v + 1 - 1) with (v_avail_idx v) in Hr by lia. by rewrite (Z.mod_small (v_avail_idx v) (2 ^ 16)) in Hr by lia. }
  assert (bufs s1 !! b = Some (x <| b_disk := 1 |>)) as Hx1 by (unfold s1; rsimpl; by apply list_lookup_insert_eq).
  destruct (served_ok (s1 <| held := [] |> <| cur := None |>) v1 i0 i1 i2 b (x <| b_disk := 1 |>) write (b_blockno x) Hreq)
    as (s2 & v2 & E2 & Hp2 & Hb2 & Hd2 & Hde2 & Hfr2); try (rsimpl; done || congruence || lia).
  { unfold s1. rsimpl. by rewrite length_insert. }
  exists s2, v2. split; [exact E2|]. clear E2. split.
  { rewrite Hp2. unfold s1. rsimpl. rewrite list_lookup_imap, list_lookup_insert_eq by done. cbn. f_equal.
    unfold wake, is_state. rsimpl. rewrite (bool_decide_false (None = Some i)), !bool_decide_true by done. by destruct p. }
  intros s3 p3 Hc3 Hh3 Hl3 Hp3 Hb3 Hd3.
  assert (bufs s2 = <[b := if write then x else x <| b_data := dblock (disk s) (b_blockno x) |>]> (bufs s)) as Hbs.
  { rewrite Hb2. unfold s1. rsimpl. rewrite list_insert_insert_eq. f_equal.
    destruct write; destruct x; cbn in Hd0; subst; reflexivity. }
  assert (bufs s3 !! b = Some (if write then x else x <| b_data := dblock (disk s) (b_blockno x) |>)) as Hx3
    by (rewrite Hb3, Hbs; by apply list_lookup_insert_eq).
  rewrite (Hk s3 v2 p3 _ Hc3 Hh3 Hp3 Hx3) by (destruct write; by rsimpl).
  destruct (finish_ok (s3 <| procs := <[i := p3 <| p_chan := ChNull |>]> (procs s3) |> <| held := [Lvdisk] |>) v2 i0 i1 i2 b write)
    as (s4 & v4 & E4 & Hb4 & Hd4 & Hh4 & Hf4); try (rsimpl; done || rewrite ?Hde2; done).
  1: rewrite Hde2; apply (rq_chain _ _ _ _ _ _ _ Hreq).
  1-3: rewrite Hfr2, Hfr; rewrite ?(list_lookup_insert_ne _ i2) by done; rewrite ?(list_lookup_insert_ne _ i1) by done;
    apply list_lookup_insert_eq; rewrite ?length_insert; lia.
  1: rsimpl; by rewrite length_insert.
  exists s4, v4. split; [exact E4|]. clear E4. revert Hb4 Hd4. rsimpl. intros Hb4 Hd4. split_and!; [|done|].
  - unfold transferred. rewrite Hb4, Hd4, Hb3, Hd3, Hbs, Hd2. unfold s1. rsimpl. destruct write; [|done].
    by rewrite list_insert_id.
  - rewrite Hf4, Hfr2, Hfr. by apply give_back3.
Qed.

End Request.

(** ** A device that serves at once *)

Definition served_device (i : nat) (s : vst) : vst :=
  match v_ops (vd s) !! i, v_desc (vd s) !! i with
  | Some r, Some d0 =>
      match v_desc (vd s) !! Z.to_nat (d_next d0) with
      | Some (mkDesc (DData b) _ _ _) =>
          match bufs (ks s) !! b with
          | Some x => mkVst (transfer b x (r_type r =? VIRTIO_BLK_T_OUT) (r_sector r / 2) (ks s)) (answer i (vd s))
          | None => s
          end
      | _ => s
      end
  | _, _ => s
  end.

#[local] Instance demo_device : Device := served_device.
#[local] Instance demo_device_ok : DeviceOk.
Proof.
  intros s v i0 i1 i2 b x write n [Hr [H0 H1 H2] _ _] Hx. unfold complete, demo_device, served_device. cbn [ks vd].
  rewrite Hr, H0. cbn [d_next]. rewrite Nat2Z.id, H1, Hx. cbn [r_type r_sector].
  rewrite Z.mul_comm, Z.div_mul by done. by destruct write.
Qed.
#[local] Instance demo_layout : Layout := Build_Layout 0x80020000 0x80010000 0x80009000 0 0 0 0 0.
#[local] Instance demo_wakeups : Wakeups := 1%nat.
#[local] Instance demo_mmio : Mmio := λ _ _, 1.

Definition disk_boot : kst :=
  kst0 <| cur := Some 0%nat |> <| procs ::= <[0%nat := limited_proc 0]> |> <| disk := {[ 7 := [1; 2; 3] ]} |>
    <| bufs ::= <[0%nat := buf0 <| b_blockno := 7 |>]> |>.
Definition vdisk_boot : vdisk := vdisk0 <| v_free := replicate NUM 1 |>.

Lemma vdisk_boot_ok : vdisk_ok vdisk_boot.
Proof. split; try done. by apply Forall_replicate; right. Qed.

Lemma virtio_request_completes_witness :
  ∃ s1 v1 k h s2 v2 s3 s4 v4,
    virtio_disk_rw 0 false (mkVst disk_boot vdisk_boot) = Swtch (mkVst s1 v1) k ∧
    virtio_disk_intr (complete h (mkVst (s1 <| held := [] |> <| cur := None |>) v1)) = Ok tt (mkVst s2 v2) ∧
    k (mkVst s3 v2) = Ok tt (mkVst s4 v4) ∧ bufs s4 !! 0%nat = Some (buf0 <| b_blockno := 7 |> <| b_data := [1; 2; 3] |>).
Proof.
  destruct (virtio_request_completes disk_boot vdisk_boot 0 (limited_proc 0) 0 (buf0 <| b_blockno := 7 |>) false
              eq_refl eq_refl eq_refl eq_refl eq_refl eq_refl ltac:(split; [discriminate|reflexivity]) vdisk_boot_ok
              ltac:(vm_compute; lia) eq_refl ltac:(vm_compute; lia))
    as (s1 & v1 & k & h & E & _ & _ & _ & s2 & v2 & E2 & _ & Hk).
  destruct (Hk (disk_boot <| held := [Lproc 0] |> <| bufs := bufs s2 |> <| disk := disk s2 |>) (limited_proc 0))
    as (s4 & v4 & E4 & [Hb _] & _); [rsimpl; reflexivity..|].
  eexists s1, v1, k, h, s2, v2, _, s4, v4. split; [exact E|]. split; [exact E2|]. split; [exact E4|].
  clear - Hb. rewrite Hb. reflexivity.
Defined.

Lemma alloc3_desc_correct_witness :
  ∃ i0 i1 i2 : nat, (∃ s', alloc3_desc (mkVst kst0 vdisk_boot) = Ok (Some (Z.of_nat i0, Z.of_nat i1, Z.of_nat i2)) s') ∧
    i0 ≠ i1 ∧ i0 ≠ i2 ∧ i1 ≠ i2.
Proof.
  destruct (alloc3_desc_correct kst0 vdisk_boot vdisk_boot_ok) as [(i0 & i1 & i2 & E & N01 & N02 & N12 & _)|[H _]].
  - split; [reflexivity|]. intros i. apply not_elem_of_nil.
  - exists i0, i1, i2. split; [eexists; exact E|]. split; [exact N01|]. split; [exact N02|exact N12].
  - exfalso. vm_compute in H. lia.
Defined.
