(* ===== verification/Boot.v ===== *)
(** * Bringing the kernel up ([main.c], [plic.c], [uartinit] and [consoleinit])

    [main] of hart 0 calls every initialiser in order; the others wait for it
    and then set up themselves.  The interrupt controller and the UART are the
    devices their manuals describe: registers of the PLIC by address, and the
    16550's registers with the divisor latch behind bit 7 of LCR.  The theorem
    is that from the state the image is loaded in the initialisers all succeed
    and compose: the first process is ready to run, the kernel's page table is
    in force and the disk and the UART can interrupt. *)

From Stdlib Require Import ZArith Lia.
From S2P Require Import Prelude Params CString State Spinlock Kalloc Process Sched Vm VmRep VmMap Uvm Copy Space Bytes Sleeplock Bio BioRep Cache Log Fs FsRep FsDir Dir Console File Lifecycle Freewalk Fork Machine Kvm Syscall Trap Virtio.
From stdpp Require Import base gmap strings numbers functions list.

Open Scope Z_scope.

(** ** The devices *)

(** Registers of the 16550 the driver sets up. *)
Record uart : Type := mkUart { u_ier : Z; u_fcr : Z; u_lcr : Z; u_dll : Z; u_dlm : Z }.
#[export] Instance uart_eta : Eta uart := λ u, mkUart (u_ier u) (u_fcr u) (u_lcr u) (u_dll u) (u_dlm u).

Definition IER : Z := 1.
Definition IER_RX_ENABLE : Z := Z.shiftl 1 0.
Definition IER_TX_ENABLE : Z := Z.shiftl 1 1.
Definition FCR : Z := 2.
Definition FCR_FIFO_ENABLE : Z := Z.shiftl 1 0.
Definition FCR_FIFO_CLEAR : Z := Z.shiftl 3 1.
Definition LCR : Z := 3.
Definition LCR_EIGHT_BITS : Z := Z.shiftl 3 0.
Definition LCR_BAUD_LATCH : Z := Z.shiftl 1 7.

(** A write of a byte to a register; while bit 7 of LCR is set, registers 0 and 1
    are the divisor. *)
Definition uart_write (reg v : Z) (u : uart) : uart :=
  let dlab := Z.testbit (u_lcr u) 7 in
  if reg =? 0 then (if dlab then u <| u_dll := u8 v |> else u)
  else if reg =? IER then (if dlab then u <| u_dlm := u8 v |> else u <| u_ier := u8 v |>)
  else if reg =? FCR then u <| u_fcr := u8 v |>
  else if reg =? LCR then u <| u_lcr := u8 v |>
  else u.

(** The registers of the PLIC. *)
Definition plic_reg (m : gmap Z Z) (a : Z) : Z := default 0 (m !! a).

Definition PLIC_SENABLE (hart : Z) : Z := PLIC + 0x2080 + hart * 0x100.
Definition PLIC_SPRIORITY (hart : Z) : Z := PLIC + 0x201000 + hart * 0x2000.
Definition PLIC_SCLAIM (hart : Z) : Z := PLIC + 0x201004 + hart * 0x2000.

(** Interrupt [irq] reaches supervisor mode of a hart: it is enabled for it, and
    its priority is above the hart's threshold. *)
Definition plic_delivers (m : gmap Z Z) (hart irq : Z) : bool :=
  Z.testbit (plic_reg m (PLIC_SENABLE hart)) irq && (plic_reg m (PLIC_SPRIORITY hart) <? plic_reg m (PLIC + irq * 4)).

(** The interrupt a claim returns: of the highest priority, and then the one
    with the lowest number. *)
Fixpoint plic_best (m : gmap Z Z) (hart : Z) (pending : list Z) : Z :=
  match pending with
  | [] => 0
  | irq :: l =>
      let best := plic_best m hart l in
      if plic_delivers m hart irq &&
         ((best =? 0) || (plic_reg m (PLIC + best * 4) <? plic_reg m (PLIC + irq * 4)) ||
          (plic_reg m (PLIC + best * 4) =? plic_reg m (PLIC + irq * 4)) && (irq <? best))
      then irq else best
  end.

(** ** The machine at boot *)

Record bst : Type := mkBst {
  b_v : vst;                  (** the kernel and the disk driver *)
  b_uart : uart;
  b_plic : gmap Z Z;
  b_pending : list Z;         (** the interrupts waiting in the PLIC *)
  b_serving : list Z;         (** claimed and not complete *)
  b_devsw : bool;             (** [devsw[CONSOLE]] names [consoleread] and [consolewrite] *)
  b_started : Z
}.
#[export] Instance bst_eta : Eta bst := λ s, mkBst (b_v s) (b_uart s) (b_plic s) (b_pending s) (b_serving s) (b_devsw s) (b_started s).

Abbreviation BM := (K bst).

(** A routine of the kernel or the driver, the rest beside it. *)
Fixpoint liftv_res {A} (r : res vst A) (b : bst) : res bst A :=
  match r with
  | Ok a s => Ok a (b <| b_v := s |>)
  | Panic m => Panic m
  | Fault => Fault
  | Swtch s k => Swtch (b <| b_v := s |>) (λ b', liftv_res (k (b_v b')) b')
  | OutOfFuel => OutOfFuel
  end.
Definition liftv {A} (m : VM A) : BM A := λ b, liftv_res (m (b_v b)) b.
Definition liftk {A} (m : KM A) : BM A := liftv (lift m).

Definition WriteReg (reg v : Z) : BM unit := modify (λ b, b <| b_uart ::= uart_write reg v |>).
Definition plic_write (a v : Z) : BM unit := modify (λ b, b <| b_plic ::= <[a := u32 v]> |>).
Definition cpuid : BM Z := liftk (gets hartid).

Definition uartinit : BM unit :=
  WriteReg IER 0x00 ;;;
  WriteReg LCR LCR_BAUD_LATCH ;;;
  WriteReg 0 0x03 ;;;
  WriteReg 1 0x00 ;;;
  WriteReg LCR LCR_EIGHT_BITS ;;;
  WriteReg FCR (Z.lor FCR_FIFO_ENABLE FCR_FIFO_CLEAR) ;;;
  WriteReg IER (Z.lor IER_TX_ENABLE IER_RX_ENABLE).

Definition consoleinit : BM unit := uartinit ;;; modify (λ b, b <| b_devsw := true |>).

Definition plicinit : BM unit :=
  plic_write (PLIC + UART0_IRQ * 4) 1 ;;;
  plic_write (PLIC + VIRTIO0_IRQ * 4) 1.

Definition plicinithart : BM unit :=
  hart <- cpuid ;;
  plic_write (PLIC_SENABLE hart) (Z.lor (Z.shiftl 1 UART0_IRQ) (Z.shiftl 1 VIRTIO0_IRQ)) ;;;
  plic_write (PLIC_SPRIORITY hart) 0.

(** A read of the claim register takes the interrupt; a write to it ends it. *)
Definition plic_claim : BM Z :=
  hart <- cpuid ;;
  b <- gets id ;;
  let irq := plic_best (b_plic b) hart (b_pending b) in
  (when negb (irq =? 0) do modify (λ b, b <| b_pending ::= filter (λ i, i ≠ irq) |> <| b_serving ::= List.cons irq |>)) ;;;
  ret (s32 irq).

Definition plic_complete (irq : Z) : BM unit :=
  hart <- cpuid ;;
  modify (λ b, b <| b_serving ::= filter (λ i, i ≠ u32 irq) |>).

Section Main.
Context `{Layout, Wakeups, BlockDev, Mmio}.

(** [while(started == 0) ;] *)
Fixpoint wait_started (fuel : nat) : BM unit :=
  s <- gets b_started ;;
  if s =? 0 then match fuel with O => nofuel | S fuel' => wait_started fuel' end else ret tt.

(** [main] up to the call of [scheduler]; [initlock] has no effect on the view
    of locks used here, so [printfinit], [trapinit] and [fileinit] do nothing. *)
Definition main (fuel : nat) : BM unit :=
  h <- cpuid ;;
  if h =? 0 then
    consoleinit ;;;
    liftk (printk EmptyString []) ;;;
    liftk (printk "xv6 kernel is booting" []) ;;;
    liftk (printk EmptyString []) ;;;
    liftk kinit ;;;
    liftk kvminit ;;;
    liftk kvminithart ;;;
    liftk procinit ;;;
    liftk trapinithart ;;;
    plicinit ;;;
    plicinithart ;;;
    liftk binit ;;;
    liftk iinit ;;;
    liftv virtio_disk_init ;;;
    liftk userinit ;;;
    modify (λ b, b <| b_started := 1 |>)
  else
    wait_started fuel ;;;
    h <- cpuid ;;
    liftk (printk "hart %d starting" [h]) ;;;
    liftk kvminithart ;;;
    liftk trapinithart ;;;
    plicinithart.

End Main.

(** ** Running the parts *)

Section Steps.
Context (v : vdisk) (u : uart) (p : gmap Z Z) (pe se : list Z) (d : bool) (st : Z).

Lemma liftk_at {A} (m : KM A) k a k' :
  m k = Ok a k' → liftk m (mkBst (mkVst k v) u p pe se d st) = Ok a (mkBst (mkVst k' v) u p pe se d st).
Proof. intros E. unfold liftk, liftv, lift. cbn [b_v ks vd]. rewrite E. with_strategy transparent [setf] done. Qed.

Lemma liftv_at {A} (m : VM A) k a k' v' :
  m (mkVst k v) = Ok a (mkVst k' v') → liftv m (mkBst (mkVst k v) u p pe se d st) = Ok a (mkBst (mkVst k' v') u p pe se d st).
Proof. intros E. unfold liftv. cbn [b_v]. rewrite E. with_strategy transparent [setf] done. Qed.

Lemma plic_write_at k a x :
  plic_write a x (mkBst (mkVst k v) u p pe se d st) = Ok tt (mkBst (mkVst k v) u (<[a := u32 x]> p) pe se d st).
Proof. unfold plic_write, modify. with_strategy transparent [setf] done. Qed.

Lemma cpuid_at k : cpuid (mkBst (mkVst k v) u p pe se d st) = Ok (hartid k) (mkBst (mkVst k v) u p pe se d st).
Proof. by apply liftk_at. Qed.

(** The UART: 8 bits at 38400 baud ([115200 / 3]), FIFOs on, both interrupts. *)
Definition uart_ready (u : uart) : uart := mkUart 3 7 3 3 0.

Lemma consoleinit_at k :
  consoleinit (mkBst (mkVst k v) u p pe se d st) = Ok tt (mkBst (mkVst k v) (uart_ready u) p pe se true st).
Proof. destruct u. unfold consoleinit, uartinit, WriteReg, modify, bind. with_strategy transparent [setf] (vm_compute; reflexivity). Qed.

End Steps.

(** After both routines the PLIC delivers the two interrupts the kernel knows. *)
Definition plic_set (hart : Z) (p : gmap Z Z) : gmap Z Z :=
  <[PLIC_SPRIORITY hart := 0]> (<[PLIC_SENABLE hart := 1026]> (<[PLIC + 4 := 1]> (<[PLIC + 40 := 1]> p))).

Lemma plic_set_delivers hart p irq :
  0 ≤ hart < 8 → 0 ≤ irq < 54 → plic_delivers (plic_set hart p) hart irq = (irq =? UART0_IRQ) || (irq =? VIRTIO0_IRQ).
Proof.
  intros Hh Hi. unfold plic_delivers, plic_reg, plic_set, PLIC_SPRIORITY, PLIC_SENABLE, PLIC, UART0_IRQ, VIRTIO0_IRQ.
  rewrite lookup_insert_eq, lookup_insert_ne, lookup_insert_eq by lia. cbn [from_option id].
  destruct (decide (irq = 10)) as [-> |]; [by rewrite !lookup_insert_ne, lookup_insert_eq by lia|].
  destruct (decide (irq = 1)) as [-> |]; [by rewrite !lookup_insert_ne, lookup_insert_eq by lia|].
  replace (irq =? 10) with false by lia. replace (irq =? 1) with false by lia. cbn [orb].
  assert (Z.testbit 1026 irq = false) as ->; [|done].
  change 1026 with (Z.lor (2 ^ 10) (2 ^ 1)). rewrite Z.lor_spec, !Z.pow2_bits_eqb by lia. lia.
Qed.

(** ** The disk driver *)

(** What the device's registers read, from the virtio specification: who it is,
    the features the driver asked for accepted, and a queue that is not in use
    yet and long enough. *)
Class MmioOk `{Mmio} : Prop := {
  mo_magic v : mmio_read v VIRTIO_MMIO_MAGIC_VALUE = 0x74726976;
  mo_version v : mmio_read v VIRTIO_MMIO_VERSION = 2;
  mo_id v : mmio_read v VIRTIO_MMIO_DEVICE_ID = 2;
  mo_vendor v : mmio_read v VIRTIO_MMIO_VENDOR_ID = 0x554d4551;
  mo_status v x l : v_mmio v = (vreg_offset VIRTIO_MMIO_STATUS, x) :: l → mmio_read v VIRTIO_MMIO_STATUS = x;
  mo_ready v : vreg_offset VIRTIO_MMIO_QUEUE_READY ∉ (v_mmio v).*1 → mmio_read v VIRTIO_MMIO_QUEUE_READY = 0;
  mo_max v : 8 ≤ mmio_read v VIRTIO_MMIO_QUEUE_NUM_MAX
}.

Section DiskInit.
Context `{Layout, !LayoutOk, Wakeups, Mmio, !MmioOk}.

Lemma read_reg_at r k v : read_reg r (mkVst k v) = Ok (mmio_read v r) (mkVst k v).
Proof. done. Qed.
Lemma mmio_write_at r x k v : mmio_write r x (mkVst k v) = Ok tt (mkVst k (v <| v_mmio ::= List.cons (r, x) |>)).
Proof. unfold mmio_write, updv, modify. with_strategy transparent [setf] done. Qed.
(** Three pages are taken and cleared. *)
Lemma disk_pages k a b c fl :
  kmem_wf k (a :: b :: c :: fl) → Lkmem ∉ held k →
  ∃ k1 k2 k3 m4 m5 m6, kalloc k = Ok a k1 ∧ kalloc k1 = Ok b k2 ∧ kalloc k2 = Ok c k3 ∧ a ≠ 0 ∧ b ≠ 0 ∧ c ≠ 0 ∧
    kmemset a 0 PGSIZE k3 = Ok tt (k3 <| ram := m4 |>) ∧ kmemset b 0 PGSIZE (k3 <| ram := m4 |>) = Ok tt (k3 <| ram := m5 |>) ∧
    kmemset c 0 PGSIZE (k3 <| ram := m5 |>) = Ok tt (k3 <| ram := m6 |>) ∧ kmem_wf (k3 <| ram := m6 |>) fl ∧
    k3 = k <| ram := ram k3 |> <| freelist := freelist k3 |> ∧
    ∀ q, q mod PGSIZE = 0 → q ∉ [a; b; c] → same_page (ram k) m6 q.
Proof.
  intros Hk Hl. pose proof (kw_pages _ _ Hk) as Hp. rewrite !Forall_cons in Hp. destruct Hp as (Ha & Hb & Hc & _).
  pose proof (kw_nodup _ _ Hk) as Hnd. rewrite !NoDup_cons in Hnd. destruct Hnd as (Na & Nb & Nc & _).
  destruct (kalloc_page k a _ Hk Hl) as (k1 & E1 & H1' & S1 & M1).
  destruct (kalloc_page k1 b _ H1') as (k2 & E2 & H2' & S2 & M2); [rewrite S1; by rsimpl|].
  destruct (kalloc_page k2 c _ H2') as (k3 & E3 & H3' & S3 & M3); [rewrite S2, S1; by rsimpl|].
  pose proof (page_ok_nonzero _ Ha). pose proof (page_ok_nonzero _ Hb). pose proof (page_ok_nonzero _ Hc).
  assert (∀ x m, page_ok x → kmemset x 0 PGSIZE (k3 <| ram := m |>) = Ok tt (k3 <| ram := memset m x 0 PGSIZE |>)) as Hset.
  { intros x m Hx. rewrite kmemset_ok by (apply page_ok_phys0; [done|unfold PGSIZE; lia]). rsimpl. clear. apply f_equal. kst_eq k3. }
  assert (∀ q, q mod PGSIZE = 0 → q ∉ [a; b; c] →
    same_page (ram k3) (memset (memset (memset (ram k3) a 0 PGSIZE) b 0 PGSIZE) c 0 PGSIZE) q) as Hm.
  { intros q Hq Hn. assert (a ≠ q ∧ b ≠ q ∧ c ≠ q) as (Qa & Qb & Qc) by set_solver.
    eapply same_page_trans; [apply (same_page_memset _ a); [apply Ha|done|done]|].
    eapply same_page_trans; [apply (same_page_memset _ b); [apply Hb|done|done]|]. apply same_page_memset; [apply Hc|done|done]. }
  exists k1, k2, k3, (memset (ram k3) a 0 PGSIZE), (memset (memset (ram k3) a 0 PGSIZE) b 0 PGSIZE),
    (memset (memset (memset (ram k3) a 0 PGSIZE) b 0 PGSIZE) c 0 PGSIZE). split_and!; [done|done|done|lia|lia|lia|apply kmemset_ok, page_ok_phys0; [done|unfold PGSIZE; lia]| | | | |].
  - by apply Hset.
  - by apply Hset.
  - eapply kmem_wf_frame; [exact H3'|by rsimpl|]. rsimpl. intros q Hq. apply Hm; [apply (proj1 (Forall_forall _ _) (kw_pages _ _ H3') q Hq)|].
    set_solver.
  - rewrite S3, S2, S1. rsimpl. kst_eq k.
  - intros q Hq Hn. assert (q ≠ a ∧ q ≠ b ∧ q ≠ c) as (Qa & Qb & Qc) by set_solver.
    eapply same_page_trans; [by apply M1|]. eapply same_page_trans; [by apply M2|]. eapply same_page_trans; [by apply M3|]. by apply Hm.
Qed.

Lemma virtio_disk_init_ok k a b c fl :
  kmem_wf k (a :: b :: c :: fl) → Lkmem ∉ held k →
  ∃ k' v', virtio_disk_init (mkVst k vdisk0) = Ok tt (mkVst k' v') ∧ kmem_wf k' fl ∧
    k' = k <| ram := ram k' |> <| freelist := freelist k' |> ∧
    (∀ q, q mod PGSIZE = 0 → q ∉ [a; b; c] → same_page (ram k) (ram k') q) ∧
    vdisk_ok v' ∧ free_count v' = NUM ∧
    head (v_mmio v') = Some (vreg_offset VIRTIO_MMIO_STATUS, 15).
Proof.
  intros Hk Hl. destruct (disk_pages k a b c fl Hk Hl) as (k1 & k2 & k3 & m4 & m5 & m6 & E1 & E2 & E3 & Na & Nb & Nc & E4 & E5 & E6 & Hk' & Hs & Hm).
  unfold virtio_disk_init.
  rewrite (bind_ok _ _ _ _ _ (read_reg_at _ _ _)), (bind_ok _ _ _ _ _ (read_reg_at _ _ _)), (bind_ok _ _ _ _ _ (read_reg_at _ _ _)),
    (bind_ok _ _ _ _ _ (read_reg_at _ _ _)), mo_magic, mo_version, mo_id, mo_vendor. cbn [Z.eqb Pos.eqb negb orb]. cbv zeta.
  do 3 (erewrite bind_ok by apply mmio_write_at). erewrite bind_ok by apply read_reg_at. do 2 (erewrite bind_ok by apply mmio_write_at).
  set (v1 := _ <| v_mmio ::= _ |>). erewrite bind_ok by apply read_reg_at. erewrite mo_status by (unfold v1; rsimpl; reflexivity).
  change (Z.land _ VIRTIO_CONFIG_S_FEATURES_OK) with 8. cbn [Z.eqb]. erewrite bind_ok by apply mmio_write_at.
  set (v2 := _ <| v_mmio ::= _ |>). erewrite bind_ok by apply read_reg_at.
  rewrite mo_ready by (unfold v2, v1; rsimpl; set_solver). cbn [Z.eqb negb]. erewrite bind_ok by apply read_reg_at.
  pose proof (mo_max v2) as Hmax. replace (mmio_read v2 VIRTIO_MMIO_QUEUE_NUM_MAX =? 0) with false by lia.
  change (Z.of_nat NUM) with 8. rewrite (proj2 (Z.ltb_ge _ 8)) by done.
  rewrite (bind_ok _ _ _ _ _ (lift_ok _ _ _ _ _ E1)), (bind_ok _ _ _ _ _ (lift_ok _ _ _ _ _ E2)), (bind_ok _ _ _ _ _ (lift_ok _ _ _ _ _ E3)).
  rewrite (proj2 (Z.eqb_neq a 0)), (proj2 (Z.eqb_neq b 0)), (proj2 (Z.eqb_neq c 0)) by done. cbn [orb].
  rewrite (bind_ok _ _ _ _ _ (lift_ok _ _ _ _ _ E4)), (bind_ok _ _ _ _ _ (lift_ok _ _ _ _ _ E5)), (bind_ok _ _ _ _ _ (lift_ok _ _ _ _ _ E6)).
  erewrite bind_ok by apply updv_ok. do 8 (erewrite bind_ok by apply mmio_write_at). erewrite bind_ok by apply updv_ok.
  eexists (k3 <| ram := m6 |>), _. split; [apply mmio_write_at|]. rsimpl.
  split_and!; [done|rewrite Hs; rsimpl; kst_eq k|done| |by unfold free_count; rsimpl|reflexivity].
  split; unfold v2, v1; rsimpl; try done. by apply Forall_replicate; right.
Qed.

End DiskInit.

(** ** The first process *)

Section Init.
Context `{Layout, !LayoutOk, Wakeups, BlockDev}.

Lemma iinit_run s : itable s = replicate NINODE inode0 → iinit s = Ok tt s.
Proof. intros Hi. destruct s. cbn in Hi. subst. vm_compute. reflexivity. Qed.

(** The process table [procinit] leaves. *)
Definition boot_procs : list proc := (λ i : nat, proc0 <| p_kstack := KSTACK (Z.of_nat i) |>) <$> seq 0 NPROC.

Lemma procinit_run s : procs s = replicate NPROC proc0 → procinit s = Ok tt (s <| procs := boot_procs |>).
Proof. intros Hp. destruct s. cbn in Hp. subst. with_strategy transparent [setf] (vm_compute; reflexivity). Qed.

Lemma boot_procs_clean i q : boot_procs !! i = Some q → clean q ∧ p_state q = UNUSED ∧ p_kstack q = KSTACK (Z.of_nat i).
Proof.
  intros (j & -> & Hj)%list_lookup_fmap_Some_1. apply lookup_seq in Hj as [-> _]. rsimpl. split; [|done].
  split; [|by rsimpl..]. with_strategy transparent [setf] reflexivity.
Qed.

(** The root directory at boot takes the first entry of the inode table. *)
Lemma namei_root s :
  Litable ∉ held s → itable s = replicate NINODE inode0 →
  namei [SLASH; 0] s = Ok (Some 0%nat) (s <| itable := <[0%nat := fresh_entry ROOTDEV ROOTINO inode0]> (itable s) |>).
Proof.
  intros Hl Hi. assert (iget ROOTDEV ROOTINO s = Ok 0%nat (s <| itable := <[0%nat := fresh_entry ROOTDEV ROOTINO inode0]> (itable s) |>)) as E.
  { rewrite iget_ok by done. rewrite Hi. done. }
  unfold namei, namex. erewrite bind_ok; [|erewrite bind_ok by reflexivity; change (SLASH =? SLASH) with true; erewrite bind_ok by exact E; reflexivity].
  reflexivity.
Qed.

(** [userinit] with enough memory. *)
Lemma userinit_ok s fl :
  kmem_wf s fl → (4 < length fl)%nat → procs s = boot_procs → held s = [] → itable s = replicate NINODE inode0 →
  ∃ i q tf root T fl' s', userinit s = Ok tt s' ∧ boot_procs !! i = Some q ∧
    s' = (making s i ((new_proc (nextpid s) tf root q) <| p_cwd := Some 0%nat |> <| p_state := RUNNABLE |>) [] (ftable s)
      (<[0%nat := fresh_entry ROOTDEV ROOTINO inode0]> (itable s)) (ram s') (freelist s')) <| initproc := Some i |> ∧
    uvm_wf s' root T fl' ∧ process_as T 0 ∧ page_ok tf ∧ ¬ own T fl' tf ∧
    leaf T !! UVPN = Some (pte_of tf (Z.lor PTE_R PTE_W)) ∧ leaf T !! (UVPN + 1) = Some (pte_of trampoline (Z.lor PTE_R PTE_X)) ∧
    (∀ a, a = tf ∨ own T fl' a ↔ a ∈ fl) ∧ (∀ a, a mod PGSIZE = 0 → a ∉ fl → same_page (ram s) (ram s') a).
Proof.
  intros Hk Hlen Hp Hh Hi. destruct (allocproc_ok s fl Hk) as (o & s1 & E1 & Ho); [by rewrite Hp|done| |].
  { intros i q Hq _. rewrite Hp in Hq. by apply boot_procs_clean in Hq as [? _]. }
  unfold userinit. erewrite bind_ok by exact E1. clear E1. destruct o as [i|].
  2: { destruct Ho as [_ [Hn|?]]; [|lia]. rewrite find_first_None in Hn. rewrite Hp in Hn. by specialize (Hn 0%nat _ eq_refl). }
  destruct Ho as (q & tf & root & T & fl' & [[Hq Hun] Hs1 Hw Hpa [Htf Hno] [Hl1 Hl2] Hown Hm]).
  pose proof (lookup_lt_Some _ _ _ Hq) as Hlt. apply at_slot_making in Hs1. set (q1 := new_proc (nextpid s) tf root q) in *.
  rewrite bind_modify. set (sI := s <| initproc := Some i |>).
  assert (s1 <| initproc := Some i |> = making sI i q1 [Lproc i] (ftable s) (itable s) (ram s1) (freelist s1)) as ->
    by (rewrite Hs1 at 1; unfold making, sI; kst_eq s).
  assert (∀ q h it m f, (making s i q h (ftable s) it m f) <| initproc := Some i |> = making sI i q h (ftable s) it m f) as EI
    by (intros; unfold making, sI; kst_eq s).
  erewrite bind_in_range by reflexivity. erewrite bind_ok by (apply namei_root; unfold making; rsimpl; [set_solver|done]).
  assert (∀ q h it it' m f, (making sI i q h (ftable s) it m f) <| itable := it' |> = making sI i q h (ftable s) it' m f) as ->
    by (intros; unfold making; kst_eq s).
  assert ((i < length (procs sI))%nat) as HltI by (unfold sI; by rsimpl).
  erewrite bind_ok by (by apply making_updp). erewrite bind_ok by (by apply making_updp).
  rewrite making_release by (done || apply not_elem_of_nil). rewrite <- EI.
  assert (∀ q h ft m f, itable (making sI i q h ft (itable s) m f) = itable s) as -> by (intros; unfold making; by rsimpl).
  eexists i, q, tf, root, T, fl', _. split; [reflexivity|]. split; [by rewrite <- Hp|].
  fold q1. set (q2 := q1 <| p_cwd := _ |> <| p_state := _ |>). clearbody q2. clear EI. split; [unfold making; clear; kst_eq s|]. split; [|split; [exact Hpa|split; [exact Htf|split; [exact Hno|split; [exact Hl1|split; [exact Hl2|split; [exact Hown|]]]]]]].
  - eapply uvm_wf_ext; [exact Hw|by unfold making; rsimpl..|]. unfold making. rsimpl. apply not_elem_of_nil.
  - intros a Ha Hn. unfold making. rsimpl. by apply Hm.
Qed.

End Init.

(** ** The kernel after [main] *)

Section Booted.
Context `{Layout, !LayoutOk, Wakeups, BlockDev, Mmio, !MmioOk}.

(** The first process of [k], in slot [i] with address space [T]. *)
Record first_process (k : kst) (i : nat) (p : proc) (T : aspace) (fl : list Z) : Prop := {
  fp_init : initproc k = Some i ∧ procs k !! i = Some p;
  fp_run : p_state p = RUNNABLE ∧ p_pid p = 1 ∧ p_sz p = 0 ∧ p_cwd p = Some 0%nat;
  fp_start : p_context p = fresh_context forkret_addr (KSTACK (Z.of_nat i) + PGSIZE);
  fp_alone : ∀ j q, j ≠ i → procs k !! j = Some q → p_state q = UNUSED;
  fp_root : ∃ x, itable k !! 0%nat = Some x ∧ i_dev x = ROOTDEV ∧ i_inum x = ROOTINO ∧ i_ref x = 1 ∧ i_valid x = 0;
  fp_space : uvm_wf k (p_pagetable p) T fl ∧ process_as T 0;
  fp_frame : page_ok (p_trapframe p) ∧ ¬ own T fl (p_trapframe p) ∧
    leaf T !! UVPN = Some (pte_of (p_trapframe p) (Z.lor PTE_R PTE_W)) ∧
    leaf T !! (UVPN + 1) = Some (pte_of trampoline (Z.lor PTE_R PTE_X))
}.

(** What hart [h] has set up for itself. *)
Record hart_up (h : Z) (b : bst) : Prop := {
  hu_satp : r_satp (State.csr (ks (b_v b))) = MAKE_SATP (kernel_pagetable (ks (b_v b)));
  hu_stvec : r_stvec (State.csr (ks (b_v b))) = kernelvec;
  hu_plic : ∀ irq, 0 ≤ irq < 54 → plic_delivers (b_plic b) h irq = (irq =? UART0_IRQ) || (irq =? VIRTIO0_IRQ)
}.

Record booted (b : bst) : Prop := {
  bo_locks : held (ks (b_v b)) = [];
  bo_hart : hart_up 0 b;
  bo_space : ∃ ps, length ps = NPROC ∧ NoDup ps ∧
    ∀ c, c SATP = MAKE_SATP (kernel_pagetable (ks (b_v b))) → kernel_space (ram (ks (b_v b))) c ps;
  bo_uart : b_uart b = mkUart 3 7 3 3 0 ∧ b_devsw b = true;
  bo_cache : bcache_wf (ks (b_v b)) boot_order;
  bo_disk : vdisk_ok (vd (b_v b)) ∧ free_count (vd (b_v b)) = NUM ∧
    head (v_mmio (vd (b_v b))) = Some (vreg_offset VIRTIO_MMIO_STATUS, 15);
  bo_first : ∃ i p T fl, first_process (ks (b_v b)) i p T fl;
  bo_started : b_started b = 1
}.

(** The kernel's static variables when the image is loaded. *)
Record loaded (k : kst) : Prop := {
  ld_locks : held k = [];
  ld_hart : hartid k = 0;
  ld_free : freelist k = 0;
  ld_procs : procs k = replicate NPROC proc0 ∧ nextpid k = 1;
  ld_inodes : itable k = replicate NINODE inode0;
  ld_bufs : bufs k = replicate (S NBUF) buf0
}.

(** Memory, paging, processes and the trap vector. *)
Definition kernel_parts : KM unit := kinit ;;; kvminit ;;; kvminithart ;;; procinit ;;; trapinithart.

(** The state they, [binit] and [iinit] leave, [fl] being the pages still free. *)
Record parts_ready (k : kst) (root : Z) (K : aspace) (ps fl : list Z) : Prop := {
  pa_locks : held k = [] ∧ hartid k = 0;
  pa_tables : procs k = boot_procs ∧ nextpid k = 1 ∧ itable k = replicate NINODE inode0 ∧ bufs k = boot_bufs;
  pa_csr : r_satp (State.csr k) = MAKE_SATP root ∧ r_stvec (State.csr k) = kernelvec ∧ kernel_pagetable k = root;
  pa_mem : vm_state k root K fl ∧ (7 < length fl)%nat;
  pa_map : ∀ v, leaf K !! v = kernel_leaf ps v;
  pa_stacks : length ps = NPROC ∧ NoDup ps ∧ Forall page_ok ps
}.

Lemma kernel_parts_ok k :
  loaded k → kend + 176 * PGSIZE ≤ PHYSTOP →
  ∃ k' root K ps fl, kernel_parts k = Ok tt k' ∧ hartid k' = 0 ∧ binit k' = Ok tt (k' <| bufs := boot_bufs |>) ∧
    iinit (k' <| bufs := boot_bufs |>) = Ok tt (k' <| bufs := boot_bufs |>) ∧ parts_ready (k' <| bufs := boot_bufs |>) root K ps fl.
Proof.
  intros [Hh Hid Hf [Hp Hn] Hi Hb] Hroom.
  assert (kmem_wf k []) as Hw by (split; [by rewrite Hf|apply NoDup_nil_2|apply Forall_nil_2]).
  destruct (kinit_pages k 175 Hw) as (k1 & fl0 & E1 & Hw1 & Hs1 & Hlen & _); [rewrite Hh; apply not_elem_of_nil|exact Hroom|].
  assert (held k1 = [] ∧ hartid k1 = 0 ∧ procs k1 = replicate NPROC proc0 ∧ nextpid k1 = 1 ∧ itable k1 = replicate NINODE inode0 ∧
    bufs k1 = replicate (S NBUF) buf0) as (Hh1 & Hid1 & Hp1 & Hn1 & Hi1 & Hb1) by (rewrite Hs1; rsimpl; done).
  destruct (kvmmake_ok k1 fl0 (kw_nodup _ _ Hw1)) as (root & k2 & K & fl & ps & E2 & B & Hl & HK);
    [lia|done|rewrite Hh1; apply not_elem_of_nil|].
  pose proof (building_count k1 fl0 (kw_nodup _ _ Hw1) k2 root K fl ps B) as Hcnt.
  destruct B as [[Hk2 HT Hd Hlk] Hs2 _ [Hnd Hpo] _ _].
  assert (held k2 = [] ∧ hartid k2 = 0 ∧ procs k2 = replicate NPROC proc0 ∧ nextpid k2 = 1 ∧ itable k2 = replicate NINODE inode0 ∧
    bufs k2 = replicate (S NBUF) buf0) as (Hh2 & Hid2 & Hp2 & Hn2 & Hi2 & Hb2) by (rewrite Hs2; rsimpl; done).
  clear Hs2 Hs1. unfold kernel_parts. erewrite bind_ok by exact E1. unfold kvminit.
  erewrite bind_ok by (by erewrite bind_ok by exact E2). unfold kvminithart. erewrite bind_ok by (by kstep).
  erewrite bind_ok by (apply procinit_run; by rsimpl). unfold trapinithart, updcsr, modify.
  eexists _, root, K, ps, fl. split; [reflexivity|]. split; [by rsimpl|]. split; [apply binit_run; by rsimpl|].
  split; [apply iinit_run; by rsimpl|]. split; rsimpl; try done.
  split; [|lia]. split; rsimpl; [by eapply kmem_wf_frame; [exact Hk2|by rsimpl|done]|done|done|done].
Qed.

(** Printing leaves the rest alone. *)
Lemma loaded_printed k f : loaded k → loaded (k <| printed ::= f |>).
Proof. intros []. by split; rsimpl. Qed.

(** The kernel's page table is not touched by changes of free pages. *)
Lemma parts_space k root K ps fl m c :
  parts_ready k root K ps fl → (∀ q, q mod PGSIZE = 0 → q ∉ fl → same_page (ram k) m q) → c SATP = MAKE_SATP root → kernel_space m c ps.
Proof.
  intros [_ _ _ [[_ HT Hd _] _] HK (Hl & _ & Hpo)] Hm Hc. apply (kernel_space_ok m c root K); [|done..].
  eapply pt_rep_frame; [exact HT|]. intros a Ha. apply Hm; [apply (pr_page _ _ _ HT a Ha)|by apply Hd].
Qed.

Lemma disk_and_init k root K ps fl :
  parts_ready k root K ps fl →
  ∃ k1 v1 k2, virtio_disk_init (mkVst k vdisk0) = Ok tt (mkVst k1 v1) ∧ userinit k1 = Ok tt k2 ∧
    vdisk_ok v1 ∧ free_count v1 = NUM ∧ head (v_mmio v1) = Some (vreg_offset VIRTIO_MMIO_STATUS, 15) ∧
    held k2 = [] ∧ bufs k2 = boot_bufs ∧ State.csr k2 = State.csr k ∧ kernel_pagetable k2 = root ∧
    (∀ q, q mod PGSIZE = 0 → q ∉ fl → same_page (ram k) (ram k2) q) ∧ ∃ i p T fl', first_process k2 i p T fl'.
Proof.
  intros [[Hh _] (Hp & Hn & Hi & Hb) (_ & _ & Hkp) [[Hk HT Hd Hlk] Hlen] _ _].
  destruct fl as [|a [|b [|c fl]]]; [cbn in Hlen; lia..|].
  destruct (virtio_disk_init_ok k a b c fl Hk Hlk) as (k1 & v1 & E1 & Hk1 & Hs1 & Hm1 & Hv1 & Hf1 & Hst).
  assert (held k1 = [] ∧ procs k1 = boot_procs ∧ nextpid k1 = 1 ∧ itable k1 = replicate NINODE inode0 ∧ bufs k1 = boot_bufs ∧
    State.csr k1 = State.csr k ∧ kernel_pagetable k1 = root) as (Hh1 & Hp1 & Hn1 & Hi1 & Hb1 & Hc1 & Hr1) by (rewrite Hs1; rsimpl; done).
  clear Hs1. destruct (userinit_ok k1 fl Hk1 ltac:(cbn in Hlen; lia) Hp1 Hh1 Hi1)
    as (i & q & tf & pt & T & fl' & k2 & E2 & Hq & Hs2 & Hw & Hpa & Htf & Hno & Hl1 & Hl2 & _ & Hm2).
  exists k1, v1, k2. pose proof (boot_procs_clean i q Hq) as (Hcl & Hun & Hks).
  set (p := (new_proc (nextpid k1) tf pt q) <| p_cwd := Some 0%nat |> <| p_state := RUNNABLE |>) in *.
  assert (procs k2 = <[i := p]> boot_procs ∧ initproc k2 = Some i ∧ held k2 = [] ∧ bufs k2 = boot_bufs ∧
    State.csr k2 = State.csr k ∧ kernel_pagetable k2 = root ∧
    itable k2 = <[0%nat := fresh_entry ROOTDEV ROOTINO inode0]> (replicate NINODE inode0)) as (P2 & I2 & H2' & B2 & C2 & R2 & T2)
    by (rewrite Hs2; unfold making; rsimpl; rewrite ?Hp1, ?Hi1; done).
  clear Hs2. split_and!; try done.
  - intros x Hx Hn'. rewrite !elem_of_cons in Hn'. eapply same_page_trans; [apply Hm1|apply Hm2]; [done| |done|tauto].
    rewrite !elem_of_cons, elem_of_nil. tauto.
  - exists i, p, T, fl'. pose proof (lookup_lt_Some _ _ _ Hq) as Hlt.
    assert (p_state p = RUNNABLE ∧ p_pid p = 1 ∧ p_sz p = p_sz q ∧ p_cwd p = Some 0%nat ∧ p_pagetable p = pt ∧ p_trapframe p = tf ∧
      p_context p = fresh_context forkret_addr (u64 (p_kstack q + PGSIZE))) as (Q1 & Q2 & Q3 & Q4 & Q5 & Q6 & Q7)
      by (unfold p, new_proc, init_proc; rsimpl; by rewrite Hn1).
    split.
    + split; [done|]. rewrite P2. by apply list_lookup_insert_eq.
    + split_and!; [done|done| |done]. rewrite Q3, <- (cl_clear _ Hcl). unfold clear_proc. by rsimpl.
    + rewrite Q7, Hks. f_equal. apply u64_small. destruct (kstack_vpn i) as [-> Hr]; [exact Hlt|]. unfold PGSIZE. lia.
    + intros j q' Hne Hq'. rewrite P2, list_lookup_insert_ne in Hq' by done. by apply boot_procs_clean in Hq' as (_ & ? & _).
    + exists (fresh_entry ROOTDEV ROOTINO inode0). split; [by rewrite T2|]. unfold fresh_entry. by rsimpl.
    + by rewrite Q5.
    + by rewrite Q6.
Qed.

Lemma plicinit_at v u p pe se d st k :
  plicinit (mkBst (mkVst k v) u p pe se d st) = Ok tt (mkBst (mkVst k v) u (<[PLIC + 4 := 1]> (<[PLIC + 40 := 1]> p)) pe se d st).
Proof. unfold plicinit. erewrite bind_ok by apply plic_write_at. apply plic_write_at. Qed.

Lemma plicinithart_at v u p pe se d st k :
  plicinithart (mkBst (mkVst k v) u p pe se d st) =
    Ok tt (mkBst (mkVst k v) u (<[PLIC_SPRIORITY (hartid k) := 0]> (<[PLIC_SENABLE (hartid k) := 1026]> p)) pe se d st).
Proof.
  unfold plicinithart. erewrite bind_ok by apply cpuid_at. erewrite bind_ok by apply plic_write_at. apply plic_write_at.
Qed.

End Booted.

(** C7: [main] on hart 0 brings the kernel up: from the state the image is loaded
    in, with any contents of memory and a disk that answers as the virtio
    specification says, every initialiser succeeds.  When the scheduler is
    called no lock is held, the kernel runs on its own page table with its trap
    vector set, the PLIC delivers exactly the UART's and the disk's interrupts,
    the buffer cache is well formed, the disk driver has all its descriptors and
    the first process is ready to run, alone, with the root directory as its
    current one and an address space that maps the trampoline and its trap
    frame. *)
Theorem main_boots `{Layout, !LayoutOk, Wakeups, BlockDev, Mmio, !MmioOk} fuel k u p pe se d :
  loaded k → kend + 176 * PGSIZE ≤ PHYSTOP →
  ∃ b, main fuel (mkBst (mkVst k vdisk0) u p pe se d 0) = Ok tt b ∧ booted b.
Proof.
  intros Hl Hroom. unfold main. erewrite bind_ok by apply cpuid_at. rewrite (ld_hart _ Hl). cbn [Z.eqb].
  erewrite bind_ok by apply consoleinit_at. do 3 (erewrite bind_ok by (by apply liftk_at)).
  match goal with |- context [mkVst ?x vdisk0] => destruct (kernel_parts_ok x) as (k6 & root & K & ps & fl & E & Hid & E6 & E7 & R) end;
    [by repeat apply loaded_printed|exact Hroom|]. unfold kernel_parts in E.
  apply bind_inv_ok in E as ([] & k2 & E1 & E). erewrite bind_ok by (apply liftk_at; exact E1).
  apply bind_inv_ok in E as ([] & k3 & E2 & E). erewrite bind_ok by (apply liftk_at; exact E2).
  apply bind_inv_ok in E as ([] & k4 & E3 & E). erewrite bind_ok by (apply liftk_at; exact E3).
  apply bind_inv_ok in E as ([] & k5 & E4 & E). erewrite bind_ok by (apply liftk_at; exact E4).
  erewrite bind_ok by (apply liftk_at; exact E). erewrite bind_ok by apply plicinit_at. erewrite bind_ok by apply plicinithart_at.
  erewrite bind_ok by (apply liftk_at; exact E6). erewrite bind_ok by (apply liftk_at; exact E7).
  destruct (disk_and_init _ root K ps fl R) as (k8 & v8 & k9 & E8 & E9 & Hv & Hf & Hst & Hh & Hb & Hc & Hr & Hm & Hfirst).
  erewrite bind_ok by (apply liftv_at; exact E8). erewrite bind_ok by (apply liftk_at; exact E9).
  rewrite Hid. fold (plic_set 0 p). eexists. split; [reflexivity|]. pose proof R as [_ _ (Rs & Rv & _) _ _ (Hps & Hnd & _)].
  set (b := _ <| b_started := 1 |>). assert (b = mkBst (mkVst k9 v8) (mkUart 3 7 3 3 0) (plic_set 0 p) pe se true 1) as -> by reflexivity.
  split; cbn [b_v b_uart b_plic b_devsw b_started ks vd].
  - exact Hh.
  - split; cbn [b_v b_plic ks]; [by rewrite Hc, Hr|by rewrite Hc|]. intros irq Hi. by apply plic_set_delivers.
  - exists ps. split_and!; [done|done|]. intros c Hcs. eapply (parts_space _ root K ps fl); [exact R|exact Hm|by rewrite Hcs, Hr].
  - split; reflexivity.
  - by apply boot_wf.
  - split; [exact Hv|]. split; [exact Hf|exact Hst].
  - exact Hfirst.
  - reflexivity.
Qed.

(** The other harts, once the first has started: each sets up itself. *)
Lemma secondary_boots `{Layout, Wakeups, BlockDev, Mmio} fuel k v u p pe se d h :
  hartid k = h → 0 < h < 8 →
  ∃ b, main fuel (mkBst (mkVst k v) u (<[PLIC + 4 := 1]> (<[PLIC + 40 := 1]> p)) pe se d 1) = Ok tt b ∧ hart_up h b ∧
    procs (ks (b_v b)) = procs k ∧ ram (ks (b_v b)) = ram k.
Proof.
  intros Hid Hh. unfold main. erewrite bind_ok by apply cpuid_at. rewrite Hid. replace (h =? 0) with false by lia.
  erewrite bind_ok by (by destruct fuel). erewrite bind_ok by apply cpuid_at. erewrite bind_ok by (by apply liftk_at).
  erewrite bind_ok by (apply liftk_at; unfold kvminithart; by kstep). erewrite bind_ok by (by apply liftk_at).
  rewrite plicinithart_at. rsimpl. rewrite Hid. eexists. split; [reflexivity|]. fold (plic_set h p).
  split; [split; cbn [b_v b_plic ks]; rsimpl; [done|done|]|cbn [b_v ks]; by rsimpl]. intros irq Hi. by apply plic_set_delivers; [lia|].
Qed.

Section Witnesses.
Local Existing Instance qemu_layout.
Local Existing Instance qemu_layout_ok.
#[local] Instance boot_wakeups : Wakeups := 0%nat.
#[local] Instance boot_disk : BlockDev := ram_disk.

(** A disk: its identity, the status last written, a queue of 1024 entries. *)
#[local] Instance qemu_disk : Mmio := λ v r,
  if r =? VIRTIO_MMIO_MAGIC_VALUE then 0x74726976
  else if (r =? VIRTIO_MMIO_VERSION) || (r =? VIRTIO_MMIO_DEVICE_ID) then 2
  else if r =? VIRTIO_MMIO_VENDOR_ID then 0x554d4551
  else if r =? VIRTIO_MMIO_STATUS then match v_mmio v with (_, x) :: _ => x | [] => 0 end
  else if r =? VIRTIO_MMIO_QUEUE_NUM_MAX then 1024
  else 0.
#[local] Instance qemu_disk_ok : MmioOk.
Proof. split; try done. intros v x l E. unfold mmio_read, qemu_disk. cbn. by rewrite E. Qed.

Lemma main_boots_witness : ∃ b, main 0 (mkBst (mkVst kst0 vdisk0) (mkUart 0 0 0 0 0) ∅ [] [] false 0) = Ok tt b ∧ booted b.
Proof.
  apply (main_boots 0 kst0 (mkUart 0 0 0 0 0) ∅ [] [] false); [split; try reflexivity; split; reflexivity|vm_compute; discriminate].
Defined.

End Witnesses.
