(* ===== verification/Printf.v ===== *)
(** * Formatted output of the kernel ([kernel/printf.c])

    The characters [printf] passes to [consputc], for a format and its
    arguments.  An argument is the 64-bit register slot it is passed in, or a
    string (a null pointer is [None]).  Strings are lists of their bytes before
    the NUL. *)

From Stdlib Require Import ZArith Lia.
From S2P Require Import Prelude State Console.
From stdpp Require Import base gmap strings numbers list.

Open Scope Z_scope.

Definition s64 (x : Z) : Z := (x + 2 ^ 63) mod 2 ^ 64 - 2 ^ 63.

(** [digits[]]; the routines below take the table as an argument, since
    [user/printf.c] has another one. *)
Definition digits (d : Z) : Z := if d <? 10 then 48 + d else 87 + d.
Definition MINUS : Z := 45.
Definition PERCENT : Z := 37.

(** [do { buf[i++] = digits[x % base]; } while((x /= base) != 0)]; 64 rounds
    are enough for any [x] below 2^64. *)
Fixpoint digit_loop (dg : Z → Z) (fuel : nat) (base x : Z) : list Z :=
  match fuel with
  | O => []
  | S fuel' =>
      dg (x mod base) :: (if x / base =? 0 then [] else digit_loop dg fuel' base (x / base))
  end.

(** The contents of [buf] when the digits are done: least significant first. *)
Definition int_buf (dg : Z → Z) (xx base : Z) (sign : bool) : list Z :=
  let neg := sign && (xx <? 0) in
  digit_loop dg 64 base (u64 (if neg then - xx else xx)) ++ (if neg then [MINUS] else []).

(** [char buf[20]]: [None] when more would be stored. *)
Definition printint (dg : Z → Z) (xx base : Z) (sign : bool) : option (list Z) :=
  let buf := int_buf dg xx base sign in
  if (length buf <=? 20)%nat then Some (reverse buf) else None.

(** [for(i = 0; i < 16; i++, x <<= 4) consputc(digits[x >> 60])] *)
Fixpoint ptr_digits (dg : Z → Z) (n : nat) (x : Z) : list Z :=
  match n with
  | O => []
  | S n' => dg (Z.shiftr x 60) :: ptr_digits dg n' (u64 (Z.shiftl x 4))
  end.
Definition printptr (dg : Z → Z) (x : Z) : list Z := 48 :: 120 :: ptr_digits dg 16 x.

(** An argument, and the reads of [va_arg]; [None] for an argument that is
    missing or of the wrong kind. *)
Inductive varg : Type := VInt (x : Z) | VStr (s : option (list Z)).

Definition NULLSTR : list Z := [40; 110; 117; 108; 108; 41].

(** One conversion: what it prints, and how many more characters of the format
    it uses. *)
Inductive conv : Type :=
| CInt (conv : Z → Z) (base : Z) (sign : bool) (skip : nat)
| CPtr | CChar | CStr | CPercent | CUnknown.

Definition is_l (c : Z) : bool := c =? 108.

(** The chain of tests on [c0], [c1] and [c2]. *)
Definition conversion (c0 c1 c2 : Z) : conv :=
  if c0 =? 100 then CInt s32 10 true 0
  else if is_l c0 && (c1 =? 100) then CInt s64 10 true 1
  else if is_l c0 && is_l c1 && (c2 =? 100) then CInt s64 10 true 2
  else if c0 =? 117 then CInt u32 10 false 0
  else if is_l c0 && (c1 =? 117) then CInt s64 10 false 1
  else if is_l c0 && is_l c1 && (c2 =? 117) then CInt s64 10 false 2
  else if c0 =? 120 then CInt u32 16 false 0
  else if is_l c0 && (c1 =? 120) then CInt s64 16 false 1
  else if is_l c0 && is_l c1 && (c2 =? 120) then CInt s64 16 false 2
  else if c0 =? 112 then CPtr
  else if c0 =? 99 then CChar
  else if c0 =? 115 then CStr
  else if c0 =? PERCENT then CPercent
  else CUnknown.

(** The output of a conversion with the arguments left and the characters of
    the format to skip. *)
Definition convert (dg : Z → Z) (c0 : Z) (cv : conv) (ap : list varg) : option (list Z * list varg * nat) :=
  match cv, ap with
  | CInt f base sign skip, VInt x :: ap' =>
      match printint dg (f x) base sign with Some out => Some (out, ap', skip) | None => None end
  | CPtr, VInt x :: ap' => Some (printptr dg (u64 x), ap', 0%nat)
  | CChar, VInt x :: ap' => Some ([u32 x], ap', 0%nat)
  | CStr, VStr s :: ap' => Some (default NULLSTR s, ap', 0%nat)
  | CPercent, _ => Some ([PERCENT], ap, 0%nat)
  | CUnknown, _ => Some ([PERCENT; c0], ap, 0%nat)
  | _, _ => None
  end.

(** The loop over the format; [fmt] is what is left of it, and each round uses
    at least one character. *)
Fixpoint printf_loop (dg : Z → Z) (fuel : nat) (fmt : list Z) (ap : list varg) : option (list Z) :=
  match fuel, fmt with
  | _, [] => Some []
  | O, _ => None
  | S fuel', cx :: fmt1 =>
      if negb (cx =? PERCENT) then cons cx <$> printf_loop dg fuel' fmt1 ap
      else match fmt1 with
      | [] => Some []
      | c0 :: fmt2 =>
          let c1 := default 0 (fmt2 !! 0%nat) in
          let c2 := if c1 =? 0 then 0 else default 0 (fmt2 !! 1%nat) in
          match convert dg c0 (conversion c0 c1 c2) ap with
          | Some (out, ap', skip) => app out <$> printf_loop dg fuel' (drop skip fmt2) ap'
          | None => None
          end
      end
  end.

Definition format (dg : Z → Z) (fmt : list Z) (ap : list varg) : option (list Z) :=
  printf_loop dg (length fmt) fmt ap.

Fixpoint emit (l : list Z) : KM unit :=
  match l with [] => ret tt | c :: l' => consputc c ;;; emit l' end.

(** [printf] when the kernel is not panicking. *)
Definition printf (fmt : list Z) (ap : list varg) : KM Z :=
  acquire Lpr ;;;
  out <- in_range (format digits fmt ap) ;;
  emit out ;;;
  release Lpr ;;;
  ret 0.

(** ** Numbers are printed in full, and read back *)

(** The value of a digit character, and of a text in a base. *)
Definition digit_value (c : Z) : Z := if c <? 58 then c - 48 else c - 87.
Definition number (base : Z) (l : list Z) : Z := foldl (λ n c, n * base + digit_value c) 0 l.
Definition read_int (base : Z) (l : list Z) : Z :=
  match l with
  | c :: l' => if c =? MINUS then - number base l' else number base l
  | [] => 0
  end.

Lemma digit_value_digits d : 0 ≤ d < 16 → digit_value (digits d) = d.
Proof.
  intros. unfold digit_value, digits. destruct (Z.ltb_spec d 10).
  - rewrite (proj2 (Z.ltb_lt _ _)); lia.
  - rewrite (proj2 (Z.ltb_ge _ _)); lia.
Qed.

Lemma digits_not_minus d : 0 ≤ d → digits d ≠ MINUS.
Proof. unfold digits, MINUS. destruct (Z.ltb_spec d 10); lia. Qed.

Lemma number_snoc base l c : number base (l ++ [c]) = number base l * base + digit_value c.
Proof. unfold number. by rewrite foldl_app. Qed.

Lemma digit_loop_number fuel base x :
  2 ≤ base ≤ 16 → 0 ≤ x < base ^ Z.of_nat fuel → number base (reverse (digit_loop digits fuel base x)) = x.
Proof.
  intros Hb. revert x. induction fuel as [|fuel IH]; intros x Hx; [simpl in *; unfold number; simpl; lia|].
  rewrite Nat2Z.inj_succ, Z.pow_succ_r in Hx by lia. cbn [digit_loop].
  pose proof (Z.mod_pos_bound x base ltac:(lia)). pose proof (Z.div_mod x base ltac:(lia)).
  destruct (Z.eqb_spec (x / base) 0) as [E|E].
  - rewrite reverse_singleton. unfold number. simpl. rewrite digit_value_digits by lia. lia.
  - rewrite reverse_cons, number_snoc, IH, digit_value_digits; [lia|lia|].
    split; [apply Z.div_pos; lia|apply Z.div_lt_upper_bound; lia].
Qed.

Lemma digit_loop_length fuel base x k :
  2 ≤ base → 0 ≤ x < base ^ Z.of_nat k → (0 < k)%nat → (length (digit_loop digits fuel base x) ≤ k)%nat.
Proof.
  intros Hb. revert fuel x. induction k as [|k IH]; intros fuel x Hx Hk; [lia|].
  destruct fuel as [|fuel]; simpl; [lia|].
  destruct (Z.eqb_spec (x / base) 0) as [E|E]; simpl; [lia|].
  rewrite Nat2Z.inj_succ, Z.pow_succ_r in Hx by lia.
  assert (0 ≤ x / base < base ^ Z.of_nat k) as Hx'
    by (split; [apply Z.div_pos; lia|apply Z.div_lt_upper_bound; lia]).
  destruct k as [|k]; [simpl in Hx'; lia|]. specialize (IH fuel (x / base) Hx'). lia.
Qed.

Lemma digit_loop_head fuel base x : (0 < fuel)%nat → 2 ≤ base →  0 ≤ x →
  ∃ d l, reverse (digit_loop digits fuel base x) = d :: l ∧ d ≠ MINUS.
Proof.
  intros Hf Hb. revert x. induction fuel as [|fuel IH]; intros x Hx; [lia|]. cbn [digit_loop].
  pose proof (Z.mod_pos_bound x base ltac:(lia)).
  destruct (Z.eqb_spec (x / base) 0).
  - eexists _, []. split; [done|]. apply digits_not_minus. lia.
  - rewrite reverse_cons. destruct fuel; [eexists _, []; split; [done|]; apply digits_not_minus; lia|].
    destruct (IH ltac:(lia) (x / base)) as (d & l & -> & ?); [apply Z.div_pos; lia|].
    by eexists d, _.
Qed.

Lemma pow10_64 : 2 ^ 64 < 10 ^ Z.of_nat 20.
Proof. done. Qed.

(** [printint] never overruns its 20-byte buffer, for signed and unsigned
    64-bit values in base 10 and 16, and what it prints is the number: read
    back, it gives the value (modulo 2^64 when printed unsigned). *)
Theorem printint_roundtrip xx base sign :
  - 2 ^ 63 ≤ xx < 2 ^ 63 → base = 10 ∨ base = 16 →
  ∃ out, printint digits xx base sign = Some out ∧
    read_int base out = (if sign then xx else u64 xx).
Proof.
  intros Hxx Hbase. unfold printint, int_buf.
  set (neg := sign && (xx <? 0)). set (x := u64 (if neg then - xx else xx)).
  assert (0 ≤ x < 2 ^ 64) as Hx by (apply Z.mod_pos_bound; lia).
  assert (2 ≤ base ≤ 16) as Hb by lia.
  assert (x < base ^ Z.of_nat 64) as Hfit
    by (destruct Hbase; subst base; [change (10 ^ Z.of_nat 64) with (10 ^ Z.of_nat 20 * 10 ^ 44)|change (16 ^ Z.of_nat 64) with (2 ^ 64 * 2 ^ 192)]; lia).
  assert (length (digit_loop digits 64 base x) ≤ (if neg then 19 else 20))%nat as Hlen.
  { apply digit_loop_length; [lia| |destruct neg; lia]. split; [lia|].
    destruct neg eqn:En; [|destruct Hbase; subst base; [change (10 ^ Z.of_nat 20) with 100000000000000000000|change (16 ^ Z.of_nat 20) with (2 ^ 80)]; lia].
    subst neg. apply andb_true_iff in En as [_ En%Z.ltb_lt]. unfold x. rewrite u64_small by lia.
    destruct Hbase; subst base; [change (10 ^ Z.of_nat 19) with 10000000000000000000|change (16 ^ Z.of_nat 19) with (2 ^ 76)]; lia. }
  destruct (digit_loop_head 64 base x) as (d & l & El & Hd); [lia|lia|lia|].
  pose proof (digit_loop_number 64 base x Hb ltac:(lia)) as Hnum.
  set (ds := digit_loop digits 64 base x) in *. clearbody ds.
  rewrite (proj2 (Nat.leb_le _ _)) by (rewrite length_app; destruct neg; simpl; lia).
  eexists. split; [reflexivity|]. destruct neg eqn:En.
  - rewrite reverse_app, reverse_singleton. cbn [app read_int]. rewrite Z.eqb_refl, Hnum.
    subst neg. apply andb_true_iff in En as [-> En%Z.ltb_lt]. unfold x. rewrite u64_small; lia.
  - rewrite app_nil_r, El in *. unfold read_int. rewrite (proj2 (Z.eqb_neq d MINUS)), Hnum by done.
    unfold x. destruct sign; [|done]. subst neg. simpl in En. apply Z.ltb_ge in En. apply u64_small. lia.
Qed.

Lemma printint_roundtrip_witness :
  ∃ out, printint digits (- 2 ^ 63) 10 true = Some out ∧ read_int 10 out = - 2 ^ 63.
Proof. apply (printint_roundtrip (- 2 ^ 63) 10 true); [lia|by left]. Defined.
