(* ===== verification/Uprintf.v ===== *)
(** * Formatted output of user programs ([user/printf.c])

    The bytes written to the descriptor.  The program walks the format with a
    state variable where the kernel's [printf] looks ahead; the theorem is that
    both print the same. *)

From Stdlib Require Import ZArith Lia.
From S2P Require Import Prelude Printf.
From stdpp Require Import base gmap strings numbers list.

Open Scope Z_scope.

(** [digits[]] of this file: upper case. *)
Definition user_digits (d : Z) : Z := if d <? 10 then 48 + d else 55 + d.

Section Uprintf.
Context (dg : Z → Z).

(** [write(fd, &c, 1)] *)
Definition putc (c : Z) : list Z := [u8 c].
Definition putcs (l : list Z) : list Z := concat (putc <$> l).

(** The digits, least significant first. *)
Fixpoint udigit_loop (fuel : nat) (base x : Z) : list Z :=
  match fuel with
  | O => []
  | S fuel' =>
      let rest := x / base in
      dg (x mod base) :: (if rest =? 0 then [] else udigit_loop fuel' base rest)
  end.

(** [None] when [buf[20]] would overflow. *)
Definition uprintint (xx base : Z) (sgn : bool) : option (list Z) :=
  let '(neg, x) := if sgn && (xx <? 0) then (true, u64 (- xx)) else (false, u64 xx) in
  let buf := udigit_loop 64 base x in
  let buf := if (neg : bool) then buf ++ [MINUS] else buf in
  if (length buf <=? 20)%nat then Some (putcs (reverse buf)) else None.

Fixpoint uptr_digits (n : nat) (x : Z) : list Z :=
  match n with
  | O => []
  | S n' => putc (dg (Z.shiftr x 60)) ++ uptr_digits n' (u64 (Z.shiftl x 4))
  end.
Definition uprintptr (x : Z) : list Z := putc 48 ++ putc 120 ++ uptr_digits 16 x.

(** [va_arg] followed by the printing of an integer. *)
Definition va_int (f : Z → Z) (base : Z) (sgn : bool) (skip : nat) (ap : list varg) : option (list Z * list varg * nat) :=
  match ap with
  | VInt x :: ap' =>
      match uprintint (f x) base sgn with Some out => Some (out, ap', skip) | None => None end
  | _ => None
  end.

(** The conversion at [c0], in state ['%']: what it writes, the arguments
    left and the characters skipped. *)
Definition uconvert (c0 c1 c2 : Z) (ap : list varg) : option (list Z * list varg * nat) :=
  if c0 =? 100 then va_int s32 10 true 0 ap
  else if is_l c0 && (c1 =? 100) then va_int s64 10 true 1 ap
  else if is_l c0 && is_l c1 && (c2 =? 100) then va_int s64 10 true 2 ap
  else if c0 =? 117 then va_int u32 10 false 0 ap
  else if is_l c0 && (c1 =? 117) then va_int s64 10 false 1 ap
  else if is_l c0 && is_l c1 && (c2 =? 117) then va_int s64 10 false 2 ap
  else if c0 =? 120 then va_int u32 16 false 0 ap
  else if is_l c0 && (c1 =? 120) then va_int s64 16 false 1 ap
  else if is_l c0 && is_l c1 && (c2 =? 120) then va_int s64 16 false 2 ap
  else if c0 =? 112 then
    match ap with VInt x :: ap' => Some (uprintptr (u64 x), ap', 0%nat) | _ => None end
  else if c0 =? 99 then
    match ap with VInt x :: ap' => Some (putc (u32 x), ap', 0%nat) | _ => None end
  else if c0 =? 115 then
    match ap with VStr s :: ap' => Some (putcs (default NULLSTR s), ap', 0%nat) | _ => None end
  else if c0 =? PERCENT then Some (putc PERCENT, ap, 0%nat)
  else Some (putc PERCENT ++ putc c0, ap, 0%nat).

(** The loop over the format in state [percent]. *)
Fixpoint vprintf_loop (fuel : nat) (fmt : list Z) (percent : bool) (ap : list varg) : option (list Z) :=
  match fuel, fmt with
  | _, [] => Some []
  | O, _ => None
  | S fuel', c0 :: fmt' =>
      if negb percent then
        if c0 =? PERCENT then vprintf_loop fuel' fmt' true ap
        else app (putc c0) <$> vprintf_loop fuel' fmt' false ap
      else
        let c1 := default 0 (fmt' !! 0%nat) in
        let c2 := if c1 =? 0 then 0 else default 0 (fmt' !! 1%nat) in
        match uconvert c0 c1 c2 ap with
        | Some (out, ap', skip) => app out <$> vprintf_loop fuel' (drop skip fmt') false ap'
        | None => None
        end
  end.

Definition vprintf (fmt : list Z) (ap : list varg) : option (list Z) :=
  vprintf_loop (length fmt) fmt false ap.

(** ** It prints what the kernel's [printf] prints *)

Lemma putcs_fmap l : putcs l = u8 <$> l.
Proof. induction l as [|c l IH]; [done|]. change (u8 c :: putcs l = u8 c :: (u8 <$> l)). by rewrite IH. Qed.

Lemma udigit_loop_eq fuel base x : udigit_loop fuel base x = digit_loop dg fuel base x.
Proof. revert x. induction fuel as [|fuel IH]; intros x; simpl; [done|]. by rewrite IH. Qed.

Lemma uprintint_eq xx base sgn : uprintint xx base sgn = option_map (fmap u8) (printint dg xx base sgn).
Proof.
  unfold uprintint, printint, int_buf. destruct (sgn && (xx <? 0)); rewrite udigit_loop_eq.
  - set (ds := digit_loop _ _ _ _ ++ _). destruct (length ds <=? 20)%nat; simpl; [by rewrite putcs_fmap|done].
  - rewrite app_nil_r. set (ds := digit_loop _ _ _ _).
    destruct (length ds <=? 20)%nat; simpl; [by rewrite putcs_fmap|done].
Qed.

Lemma uprintptr_eq x : uprintptr x = u8 <$> printptr dg x.
Proof. reflexivity. Qed.

Lemma va_int_eq f base sgn skip c0 ap :
  va_int f base sgn skip ap =
  option_map (λ '(out, ap', k), (u8 <$> out, ap', k)) (convert dg c0 (CInt f base sgn skip) ap).
Proof.
  destruct ap as [|[x|s] ap]; simpl; try done.
  rewrite uprintint_eq. by destruct (printint dg (f x) base sgn).
Qed.

Lemma uconvert_eq c0 c1 c2 ap :
  uconvert c0 c1 c2 ap =
  option_map (λ '(out, ap', k), (u8 <$> out, ap', k)) (convert dg c0 (conversion c0 c1 c2) ap).
Proof.
  unfold uconvert, conversion.
  repeat (match goal with |- context [if ?b then _ else _] => destruct b end;
          [first [apply va_int_eq
                 |by destruct ap as [|[?|?] ?]; simpl; rewrite ?uprintptr_eq, ?putcs_fmap]|]).
  done.
Qed.

Lemma drop_length_le {A} k (l : list A) : (length (drop k l) ≤ length l)%nat.
Proof. rewrite length_drop. lia. Qed.

Lemma vprintf_loop_eq fuel fuel' fmt ap :
  (length fmt ≤ fuel)%nat → (length fmt ≤ fuel')%nat →
  vprintf_loop fuel fmt false ap = option_map (fmap u8) (printf_loop dg fuel' fmt ap).
Proof.
  revert fuel fuel' ap. induction fmt as [fmt IH] using (induction_ltof1 _ (@length Z)).
  unfold ltof in IH. intros fuel fuel' ap Hf Hf'.
  destruct fmt as [|cx fmt1]; [by destruct fuel, fuel'|].
  destruct fuel as [|fuel]; [simpl in Hf; lia|]. destruct fuel' as [|fuel']; [simpl in Hf'; lia|].
  cbn [vprintf_loop printf_loop negb]. simpl in Hf, Hf', IH. destruct (cx =? PERCENT); cbn [negb].
  - destruct fmt1 as [|c0 fmt2]; [by destruct fuel|]. destruct fuel as [|fuel]; [simpl in Hf; lia|].
    cbn [vprintf_loop negb]. rewrite uconvert_eq.
    destruct (convert dg c0 _ ap) as [[[out ap'] k]|]; simpl; [|done].
    pose proof (drop_length_le k fmt2). simpl in Hf, Hf'.
    rewrite (IH (drop k fmt2) ltac:(simpl; lia) fuel fuel') by lia.
    destruct (printf_loop dg fuel' _ _); simpl; [by rewrite fmap_app|done].
  - rewrite (IH fmt1 ltac:(lia) fuel fuel') by lia. by destruct (printf_loop dg fuel' fmt1 ap).
Qed.

End Uprintf.

(** for every format and every list of arguments, [vprintf] of the user
    library writes byte for byte what the kernel's [printf] sends to the
    console, given the same digit table: the two scanners of the format are
    equivalent. *)
Theorem vprintf_printf_equiv dg fmt ap : vprintf dg fmt ap = option_map (fmap u8) (format dg fmt ap).
Proof. apply vprintf_loop_eq; done. Qed.
