(* ===== verification/Ulib.v ===== *)
(** * The user library ([user/ulib.c])

    The string functions and [atoi].  A C string is the list of its bytes
    before the NUL. *)

From Stdlib Require Import ZArith Lia Ascii String.
From S2P Require Import Prelude Printf.
From stdpp Require Import base numbers list.

Open Scope Z_scope.

(** The bytes of a string literal. *)
Definition bytes_of (s : string) : list Z := (λ c, Z.of_N (N_of_ascii c)) <$> list_ascii_of_string s.

(** The array [s] after [strcpy(s, t)]; [None] when it does not fit. *)
Definition strcpy (s t : list Z) : option (list Z) :=
  if (length t <? length s)%nat then Some (t ++ [0] ++ drop (S (length t)) s) else None.

Fixpoint strcmp (p q : list Z) : Z :=
  match p, q with
  | [], [] => 0
  | [], y :: _ => 0 - u8 y
  | x :: _, [] => u8 x - 0
  | x :: p', y :: q' => if x =? y then strcmp p' q' else u8 x - u8 y
  end.

(** The rest of the string from the first [c], if it has one before the NUL. *)
Fixpoint strchr (s : list Z) (c : Z) : option (list Z) :=
  match s with
  | [] => None
  | x :: s' => if x =? c then Some s else strchr s' c
  end.

Definition is_digit (c : Z) : bool := (48 <=? c) && (c <=? 57).

(** The loop of [atoi]; [n] is an [int]. *)
Fixpoint atoi_loop (n : Z) (s : list Z) : Z :=
  match s with
  | [] => n
  | c :: s' => if is_digit c then atoi_loop (s32 (n * 10 + c - 48)) s' else n
  end.
Definition atoi (s : list Z) : Z := atoi_loop 0 s.

(** [gets(buf, max)]: the line read and the input left; every [read] of one
    byte returns the next byte or reports the end. *)
Fixpoint ugets (room : nat) (input : list Z) : list Z * list Z :=
  match room, input with
  | O, _ => ([], input)
  | _, [] => ([], [])
  | S room', c :: input' =>
      if (c =? 10) || (c =? 13) then ([c], input')
      else let '(l, rest) := ugets room' input' in (c :: l, rest)
  end.
(** At most [max - 1] characters, as a C string. *)
Definition gets_line (max : Z) (input : list Z) : list Z * list Z :=
  ugets (Z.to_nat (max - 1)) input.

(** ** strcmp decides equality *)

Lemma strcmp_eq p q : Forall (λ x, 0 < x < 256) p → Forall (λ x, 0 < x < 256) q → strcmp p q = 0 ↔ p = q.
Proof.
  revert q. induction p as [|x p IH]; intros [|y q] Hp Hq; simpl; try done.
  - apply Forall_cons_1 in Hq as [Hy _]. unfold u8. rewrite Z.mod_small by lia. split; [lia|done].
  - apply Forall_cons_1 in Hp as [Hx _]. unfold u8. rewrite Z.mod_small by lia. split; [lia|done].
  - apply Forall_cons_1 in Hp as [Hx Hp]. apply Forall_cons_1 in Hq as [Hy Hq].
    destruct (Z.eqb_spec x y) as [->|Hn].
    + rewrite IH by done. naive_solver.
    + unfold u8. rewrite !Z.mod_small by lia. split; [lia|naive_solver].
Qed.

(** ** atoi reads what printf prints *)

Lemma is_digit_digits d : 0 ≤ d < 10 → is_digit (digits d) = true ∧ digits d - 48 = d.
Proof.
  intros. unfold is_digit, digits. rewrite (proj2 (Z.ltb_lt d 10)) by lia. split; [|lia].
  apply andb_true_iff. split; apply Z.leb_le; lia.
Qed.

Lemma atoi_loop_app n l t :
  Forall (λ c, is_digit c = true) l → atoi_loop n (l ++ t) = atoi_loop (atoi_loop n l) t.
Proof.
  intros Hl. revert n. induction Hl as [|c l Hc Hl IH]; intros n; simpl; [done|]. by rewrite Hc.
Qed.

Lemma digit_loop_digits fuel x :
  0 ≤ x → Forall (λ c, is_digit c = true) (digit_loop digits fuel 10 x).
Proof.
  revert x. induction fuel as [|fuel IH]; intros x Hx; simpl; [done|].
  pose proof (Z.mod_pos_bound x 10 ltac:(lia)). constructor; [by apply is_digit_digits|].
  destruct (x / 10 =? 0); [done|]. apply IH, Z.div_pos; lia.
Qed.

Lemma atoi_digits fuel x :
  0 ≤ x < 10 ^ Z.of_nat fuel → x < 2 ^ 31 → atoi_loop 0 (reverse (digit_loop digits fuel 10 x)) = x.
Proof.
  revert x. induction fuel as [|fuel IH]; intros x Hx Hs; [simpl in *; lia|].
  rewrite Nat2Z.inj_succ, Z.pow_succ_r in Hx by lia. cbn [digit_loop].
  pose proof (Z.mod_pos_bound x 10 ltac:(lia)) as Hm. pose proof (Z.div_mod x 10 ltac:(lia)).
  destruct (is_digit_digits (x mod 10)) as [Hd Hv]; [lia|].
  rewrite reverse_cons, atoi_loop_app
    by (apply Forall_reverse; destruct (x / 10 =? 0); [done|apply digit_loop_digits, Z.div_pos; lia]).
  replace (atoi_loop 0 _) with (x / 10).
  - simpl. rewrite Hd. replace (x / 10 * 10 + digits (x mod 10) - 48) with x by lia.
    apply s32_small. lia.
  - destruct (Z.eqb_spec (x / 10) 0) as [->|]; [done|]. symmetry.
    apply IH; [split; [apply Z.div_pos; lia|apply Z.div_lt_upper_bound; lia]|].
    apply Z.div_lt_upper_bound; lia.
Qed.

(** [atoi] inverts the decimal output of [printf] on non-negative [int]s,
    whatever non-digit text follows the number. *)
Theorem atoi_printint x rest :
  0 ≤ x < 2 ^ 31 → (∀ c, head rest = Some c → is_digit c = false) →
  ∃ out, printint digits x 10 true = Some out ∧ atoi (out ++ rest) = x.
Proof.
  intros Hx Hrest. unfold printint, int_buf.
  rewrite (proj2 (Z.ltb_ge x 0)), andb_false_r, app_nil_r by lia. rewrite u64_small by lia.
  assert (length (digit_loop digits 64 10 x) ≤ 20)%nat as Hlen
    by (apply digit_loop_length; [lia|change (10 ^ Z.of_nat 20) with 100000000000000000000; lia|lia]).
  pose proof (atoi_digits 64 x) as Hat. pose proof (digit_loop_digits 64 x ltac:(lia)) as Hds.
  change (10 ^ Z.of_nat 64) with (10 ^ 20 * 10 ^ 44) in Hat.
  set (ds := digit_loop digits 64 10 x) in *. clearbody ds.
  rewrite (proj2 (Nat.leb_le _ _)) by done. eexists. split; [reflexivity|].
  unfold atoi. rewrite atoi_loop_app, Hat by (lia || by apply Forall_reverse).
  destruct rest as [|c rest]; [done|]. simpl. by rewrite (Hrest c eq_refl).
Qed.

Lemma atoi_printint_witness :
  ∃ out, printint digits 2026 10 true = Some out ∧ atoi (out ++ [32; 52]) = 2026.
Proof. apply (atoi_printint 2026 [32; 52]); [lia|]. intros c [= <-]. reflexivity. Defined.

(** A sign is not a digit: a negative number reads as 0. *)
Lemma atoi_minus s : atoi (MINUS :: s) = 0.
Proof. done. Qed.
