(* ===== verification/Proccost.v ===== *)
(** * The proccost, powerctl and usagectl programs ([user/proccost.c],
    [user/powerctl.c], [user/usagectl.c])

    The sort and the table of [proccost], and what [powerctl] and [usagectl]
    ask of the kernel for given arguments. *)

From Stdlib Require Import ZArith Lia Permutation Sorted String.
From S2P Require Import Prelude Printf Ulib.
From stdpp Require Import base numbers list sorting.

Open Scope Z_scope.

(** ** user.h: [struct proccostinfo] *)
Record proccostinfo : Type := mkInfo {
  info_pid : Z; info_name : list Z; info_cpu : Z; info_sched : Z; info_disk : Z; info_cost : Z
}.
#[export] Instance proccostinfo_inhabited : Inhabited proccostinfo := populate (mkInfo 0 [] 0 0 0 0).

Definition MAX_PROCS : Z := 64.

Definition cost_at (info : list proccostinfo) (i : nat) : Z := info_cost (info !!! i).

(** [for(j = i + 1; j < n; j++)], [k] rounds from [j] on. *)
Fixpoint max_scan (info : list proccostinfo) (k j max_idx : nat) : nat :=
  match k with
  | O => max_idx
  | S k' => max_scan info k' (S j) (if cost_at info j >? cost_at info max_idx then j else max_idx)
  end.

Definition swap (info : list proccostinfo) (i m : nat) : list proccostinfo :=
  <[m := info !!! i]> (<[i := info !!! m]> info).

(** The outer loop, [k] rounds from [i] on. *)
Fixpoint sort_loop (k i n : nat) (info : list proccostinfo) : list proccostinfo :=
  match k with
  | O => info
  | S k' =>
      let m := max_scan info (n - S i) (S i) i in
      sort_loop k' (S i) n (if (m =? i)%nat then info else swap info i m)
  end.

Definition sort_by_cost (info : list proccostinfo) (n : nat) : list proccostinfo := sort_loop n 0 n info.

(** *** The table *)

Definition SPACE : Z := 32.
Definition spaces (n : Z) : list Z := replicate (Z.to_nat n) SPACE.

(** [do ... while(x != 0 && i < 32)], least significant digit first. *)
Fixpoint dec_digits (room : nat) (x : Z) : list Z :=
  match room with
  | O => []
  | S room' => 48 + x mod 10 :: (if x / 10 =? 0 then [] else dec_digits room' (x / 10))
  end.

Definition print_uint64_padded (x width : Z) : list Z :=
  let buf := dec_digits 32 x in
  spaces (width - Z.of_nat (length buf)) ++ reverse buf.

Definition print_name_padded (name : list Z) (width : Z) : list Z :=
  let len := Z.min (Z.of_nat (length name)) width in
  take (Z.to_nat len) name ++ spaces (width - len).

Definition print_row (x : proccostinfo) : list Z :=
  print_uint64_padded (u64 (info_pid x)) 4 ++ spaces 2 ++ print_name_padded (info_name x) 14 ++ spaces 2 ++
  print_uint64_padded (info_cpu x) 10 ++ spaces 2 ++ print_uint64_padded (info_sched x) 12 ++ spaces 2 ++
  print_uint64_padded (info_disk x) 12 ++ spaces 2 ++ print_uint64_padded (info_cost x) 10 ++ [10].

Definition header : list Z :=
  bytes_of "PID " ++ spaces 1 ++ bytes_of "  NAME" ++ spaces 10 ++ bytes_of "  CPU_TICKS" ++ spaces 1 ++
  bytes_of "  SCHED_COUNT" ++ spaces 1 ++ bytes_of "  DISK_WRITES" ++ spaces 1 ++ bytes_of "  COST" ++ [10].

(** [rows_to_print]: the first argument, if there is one. *)
Definition rows_to_print (arg : option (list Z)) : Z :=
  match arg with
  | None => 10
  | Some a =>
      if strcmp a (bytes_of "all") =? 0 then MAX_PROCS
      else let r := atoi a in if r <=? 0 then 10 else r
  end.

(** [main], given the result [n] of the system call and the array it filled:
    the output and the exit status. *)
Definition proccost_main (arg : option (list Z)) (n : Z) (info : list proccostinfo) : list Z * Z :=
  if n <? 0 then (bytes_of "proccost: syscall failed" ++ [10], 1)
  else
    let n := Z.min n MAX_PROCS in
    let info := sort_by_cost info (Z.to_nat n) in
    let n := Z.min (rows_to_print arg) n in
    (header ++ concat (print_row <$> take (Z.to_nat n) info), 0).

(** ** powerctl and usagectl *)

(** The system call a run makes, or the error it reports without one. *)
Inductive request : Type :=
| SetPowerMode (pid mode : Z)
| SetCpuLimit (pid limit : Z)
| GetCpuTicks (pid : Z)
| SetUsageLimit (pid max : Z)
| Usage
| InvalidPid
| InvalidLimit.

(** [argv] without the program's name. *)
Definition powerctl (argv : list (list Z)) : request :=
  match argv with
  | a1 :: a2 :: rest =>
      let pid := atoi a1 in
      if pid <=? 0 then InvalidPid
      else if strcmp a2 (bytes_of "normal") =? 0 then SetPowerMode pid 0
      else if strcmp a2 (bytes_of "eco") =? 0 then SetPowerMode pid 1
      else if strcmp a2 (bytes_of "limit") =? 0 then
        match rest with
        | [] => Usage
        | a3 :: _ => let limit := atoi a3 in if limit <? 0 then InvalidLimit else SetCpuLimit pid limit
        end
      else if strcmp a2 (bytes_of "stats") =? 0 then GetCpuTicks pid
      else Usage
  | _ => Usage
  end.

Definition usagectl (argv : list (list Z)) : request :=
  match argv with
  | [a1; a2] => SetUsageLimit (atoi a1) (atoi a2)
  | _ => Usage
  end.

(** A negative limit is not rejected: it becomes 0, which lifts the limit. *)
Lemma powerctl_negative_limit a1 l rest :
  0 < atoi a1 → powerctl (a1 :: bytes_of "limit" :: (MINUS :: l) :: rest) = SetCpuLimit (atoi a1) 0.
Proof. intros. unfold powerctl. by rewrite (proj2 (Z.leb_gt _ _)). Qed.

(** ** The sort is correct *)

Lemma max_scan_spec info k j m :
  let m' := max_scan info k j m in
  (m' = m ∨ j ≤ m' < j + k)%nat ∧ cost_at info m ≤ cost_at info m' ∧
  ∀ q, (j ≤ q < j + k)%nat → cost_at info q ≤ cost_at info m'.
Proof.
  revert j m. induction k as [|k IH]; intros j m; simpl; [split_and!; [by left|lia|lia]|].
  specialize (IH (S j) (if cost_at info j >? cost_at info m then j else m)) as (Hr & Hm & Hq).
  set (m' := max_scan _ _ _ _) in *.
  destruct (Z.gtb_spec (cost_at info j) (cost_at info m)).
  - split_and!; [lia|lia|]. intros q Hq'. destruct (decide (q = j)) as [->|]; [lia|apply Hq; lia].
  - split_and!; [lia|lia|]. intros q Hq'. destruct (decide (q = j)) as [->|]; [lia|apply Hq; lia].
Qed.

Lemma lookup_total_middle {A} `{Inhabited A} (l1 l2 : list A) x : (l1 ++ x :: l2) !!! length l1 = x.
Proof. by rewrite list_lookup_total_alt, list_lookup_middle. Qed.

Lemma insert_middle {A} (l1 l2 : list A) x y : <[length l1 := y]> (l1 ++ x :: l2) = l1 ++ y :: l2.
Proof. rewrite <- (Nat.add_0_r (length l1)) at 1. by rewrite insert_app_r. Qed.

(** One round moves a maximal element to the front of the unsorted part. *)
Lemma select_round pre a t rest :
  let i := length pre in
  let info := pre ++ (a :: t) ++ rest in
  let m := max_scan info (length t) (S i) i in
  ∃ x t', (if (m =? i)%nat then info else swap info i m) = pre ++ (x :: t') ++ rest ∧
    a :: t ≡ₚ x :: t' ∧ Forall (λ y, info_cost y ≤ info_cost x) t'.
Proof.
  intros i info m.
  destruct (max_scan_spec info (length t) (S i) i) as (Hr & Hm & Hq). fold m in Hr, Hm, Hq.
  assert (info !!! i = a) as Ea by apply lookup_total_middle.
  assert (∀ q y, t !! q = Some y → info_cost y ≤ cost_at info m) as Hmax.
  { intros q y Ey. pose proof (lookup_lt_Some _ _ _ Ey).
    replace (info_cost y) with (cost_at info (S i + q)); [apply Hq; lia|].
    unfold cost_at. f_equal. apply list_lookup_total_correct. unfold info, i.
    rewrite lookup_app_r by lia. replace (S (length pre) + q - length pre)%nat with (S q) by lia.
    simpl. by rewrite lookup_app_l. }
  destruct (Nat.eqb_spec m i) as [E|E].
  - exists a, t. split_and!; [done|done|]. apply Forall_lookup. intros q y Ey.
    specialize (Hmax q y Ey). unfold cost_at in Hmax. by rewrite E, Ea in Hmax.
  - destruct (lookup_lt_is_Some_2 t (m - S i)) as [x Ex]; [lia|].
    pose proof (take_drop_middle t _ _ Ex) as Et. set (t1 := take (m - S i) t) in *.
    set (t2 := drop (S (m - S i)) t) in *.
    assert (length t1 = (m - S i)%nat) as El by (apply length_take_le; lia).
    assert (info = (pre ++ a :: t1) ++ x :: t2 ++ rest) as Ei
      by (unfold info; rewrite <- Et; cbn [app]; by rewrite <- !app_assoc).
    assert (length (pre ++ a :: t1) = m) as Em by (rewrite length_app; simpl; lia).
    assert (info !!! m = x) as Exm by (rewrite Ei, <- Em; apply lookup_total_middle).
    exists x, (t1 ++ a :: t2). split_and!.
    + unfold swap. rewrite Ea, Exm. unfold info at 1, i. cbn [app]. rewrite insert_middle.
      rewrite <- Et, <- app_assoc. cbn [app].
      replace (pre ++ x :: t1 ++ x :: t2 ++ rest) with ((pre ++ x :: t1) ++ x :: t2 ++ rest)
        by by rewrite <- app_assoc.
      replace m with (length (pre ++ x :: t1)) by (rewrite length_app in *; simpl in *; lia).
      rewrite insert_middle, <- !app_assoc. done.
    + rewrite <- Et. rewrite <- !Permutation_middle. apply perm_swap.
    + unfold cost_at in Hmax, Hm. rewrite Exm in Hmax, Hm. rewrite Ea in Hm.
      rewrite <- Et in Hmax. apply Forall_app. split; [|constructor; [done|]];
        apply Forall_lookup; intros q y Ey.
      * apply (Hmax q). by apply lookup_app_l_Some.
      * apply (Hmax (length t1 + S q)%nat). rewrite lookup_app_r by lia.
        by replace (length t1 + S q - length t1)%nat with (S q) by lia.
Qed.

Definition costlier (x y : proccostinfo) : Prop := info_cost y ≤ info_cost x.

Lemma sort_loop_spec k pre suf rest :
  length suf = k →
  ∃ s, sort_loop k (length pre) (length pre + k) (pre ++ suf ++ rest) = pre ++ s ++ rest ∧
    s ≡ₚ suf ∧ StronglySorted costlier s.
Proof.
  revert pre suf. induction k as [|k IH]; intros pre suf Hlen.
  - destruct suf; [|done]. exists []. split_and!; [done|done|constructor].
  - destruct suf as [|a t]; [done|]. injection Hlen as Hlen. cbn [sort_loop].
    replace (length pre + S k - S (length pre))%nat with (length t) by lia.
    destruct (select_round pre a t rest) as (x & t' & -> & Hp & Hx).
    destruct (IH (pre ++ [x]) t') as (s & E & Hs & Hsort).
    { apply Permutation_length in Hp. simpl in Hp. lia. }
    rewrite length_app in E. simpl in E.
    exists (x :: s). split_and!.
    + rewrite <- !app_assoc in E. simpl in E. etrans; [|exact E]. cbn [app]. f_equal; lia.
    + by rewrite Hp, Hs.
    + constructor; [done|]. unfold costlier. by rewrite Hs.
Qed.

(** [sort_by_cost] rearranges the first [n] entries into descending order
    of cost and leaves the rest of the array alone. *)
Theorem sort_by_cost_correct info n :
  (n ≤ length info)%nat →
  ∃ s, sort_by_cost info n = s ++ drop n info ∧ s ≡ₚ take n info ∧ StronglySorted costlier s.
Proof.
  intros Hn. destruct (sort_loop_spec n [] (take n info) (drop n info)) as (s & E & Hp & Hs).
  - by apply length_take_le.
  - exists s. split_and!; [|done|done]. cbn [app length Nat.add] in E. rewrite take_drop in E. exact E.
Qed.

Lemma sort_by_cost_witness :
  let info := [mkInfo 1 [] 3 0 0 3; mkInfo 2 [] 1 0 1 6; mkInfo 3 [] 5 0 0 5; mkInfo 0 [] 0 0 0 9] in
  (3 ≤ length info)%nat ∧
  ∃ s, sort_by_cost info 3 = s ++ drop 3 info ∧ s ≡ₚ take 3 info ∧ StronglySorted costlier s.
Proof. split; [simpl; lia|]. apply sort_by_cost_correct. simpl; lia. Defined.
