(* ===== verification/Grep.v ===== *)
(** * The grep program ([user/grep.c])

    The pattern matcher against the language of the pattern, and the line
    buffering of [grep] against the lines of its input.

    A C string is the list of its bytes before the NUL; a pointer into it is
    the rest of the list. *)

From Stdlib Require Import ZArith Lia.
From S2P Require Import Prelude.
From stdpp Require Import base list numbers.

Open Scope Z_scope.

Definition CARET : Z := 94.
Definition STAR : Z := 42.
Definition DOLLAR : Z := 36.
Definition ANY : Z := 46.
Definition NL : Z := 10.

(** ** The matcher *)

(** [matchhere re] is passed as [mh]. *)
Fixpoint matchstar (c : Z) (mh : list Z → bool) (text : list Z) : bool :=
  mh text ||
  match text with
  | [] => false
  | x :: text' => ((x =? c) || (c =? ANY)) && matchstar c mh text'
  end.

Fixpoint matchhere (re text : list Z) : bool :=
  match re with
  | [] => true
  | c :: re1 =>
      let single :=
        if (c =? DOLLAR) && bool_decide (re1 = []) then bool_decide (text = [])
        else match text with
             | [] => false
             | x :: text' => ((c =? ANY) || (c =? x)) && matchhere re1 text'
             end in
      match re1 with
      | d :: re2 => if d =? STAR then matchstar c (matchhere re2) text else single
      | [] => single
      end
  end.

(** The [do] loop over the suffixes of the text, the empty one included. *)
Fixpoint match_from (re text : list Z) : bool :=
  matchhere re text || match text with [] => false | _ :: text' => match_from re text' end.

(** [match] of the source; the name is a keyword of Rocq. *)
Definition match_re (re text : list Z) : bool :=
  match re with
  | c :: re' => if c =? CARET then matchhere re' text else match_from re text
  | [] => match_from re text
  end.

(** ** The loop over the input

    [read] is the system call: it returns at most as many bytes as asked for,
    and none only at the end of the input or when none are asked for.  The
    input left and how many bytes each call delivers are its state. *)
Record instream : Type := mkIn { in_left : list Z; in_sizes : list nat }.
Definition read_size (s : instream) (k : nat) : nat :=
  Nat.min k (S (default 0%nat (head (in_sizes s)))).
Definition read (s : instream) (k : nat) : list Z * instream :=
  let n := read_size s k in
  (take n (in_left s), mkIn (drop n (in_left s)) (tail (in_sizes s))).

(** [sizeof(buf)] *)
Definition BUFSIZE : nat := 1024.

(** The text up to the next newline and what follows it; [None] when
    [strchr] finds none before the NUL. *)
Fixpoint split_nl (p : list Z) : option (list Z * list Z) :=
  match p with
  | [] => None
  | c :: p' =>
      if c =? 0 then None
      else if c =? NL then Some ([], p')
      else match split_nl p' with Some (l, r) => Some (c :: l, r) | None => None end
  end.

(** The inner loop: what is written, and the part of the buffer after the
    last newline; each line takes at least one byte of the buffer. *)
Fixpoint grep_lines (fuel : nat) (pattern p : list Z) : list Z * list Z :=
  match fuel with
  | O => ([], p)
  | S fuel' =>
      match split_nl p with
      | None => ([], p)
      | Some (line, rest) =>
          let '(out, left_over) := grep_lines fuel' pattern rest in
          ((if match_re pattern line then line ++ [NL] else []) ++ out, left_over)
      end
  end.

(** [buf] holds the [m] bytes kept; every [read] that returns something
    shortens the input. *)
Fixpoint grep_loop (fuel : nat) (pattern buf : list Z) (fd : instream) : list Z :=
  match fuel with
  | O => []
  | S fuel' =>
      let '(bytes, fd') := read fd (BUFSIZE - length buf - 1) in
      match bytes with
      | [] => []
      | _ =>
          let '(out, left_over) := grep_lines BUFSIZE pattern (buf ++ bytes) in
          out ++ grep_loop fuel' pattern left_over fd'
      end
  end.

Definition grep (pattern : list Z) (fd : instream) : list Z :=
  grep_loop (S (length (in_left fd))) pattern [] fd.

(** ** What a pattern means

    A pattern is a sequence of items, anchored at the end when its last
    character is a dollar sign that no star follows. *)
Inductive item : Type := One (c : Z) | Many (c : Z) | Eol.

Fixpoint items (re : list Z) : list item :=
  match re with
  | [] => []
  | c :: re1 =>
      let single := if (c =? DOLLAR) && bool_decide (re1 = []) then [Eol] else One c :: items re1 in
      match re1 with
      | d :: re2 => if d =? STAR then Many c :: items re2 else single
      | [] => single
      end
  end.

(** The characters an item's letter stands for. *)
Definition accepts (c x : Z) : Prop := c = ANY ∨ x = c.

(** [lang its u v]: the text [u ++ v] starts with [u] that the items match,
    and [v] is what follows. *)
Inductive lang : list item → list Z → list Z → Prop :=
| lang_nil v : lang [] [] v
| lang_one c x its u v : accepts c x → lang its u v → lang (One c :: its) (x :: u) v
| lang_many c xs its u v : Forall (accepts c) xs → lang its u v → lang (Many c :: its) (xs ++ u) v
| lang_eol its u : lang its u [] → lang (Eol :: its) u [].
#[export] Hint Constructors lang : core.

Definition anchored (re : list Z) : bool := match re with c :: _ => c =? CARET | [] => false end.
Definition body (re : list Z) : list Z := if anchored re then tail re else re.

(** The text contains (at its start, if the pattern is anchored) a match. *)
Definition matches (re text : list Z) : Prop :=
  ∃ a u v, text = a ++ u ++ v ∧ (anchored re = true → a = []) ∧ lang (items (body re)) u v.

(** ** The matcher decides it *)

Lemma matchstar_spec c mh (P : list Z → Prop) :
  (∀ t, mh t = true ↔ P t) →
  ∀ text, matchstar c mh text = true ↔ ∃ xs t, text = xs ++ t ∧ Forall (accepts c) xs ∧ P t.
Proof.
  intros Hmh. induction text as [|x text IH]; simpl.
  - rewrite orb_true_iff, Hmh. split; [intros [?|?]; [by exists [], []|done]|].
    intros (xs & t & E & _ & ?). symmetry in E. apply app_nil in E as [-> ->]. by left.
  - rewrite orb_true_iff, andb_true_iff, orb_true_iff, !Z.eqb_eq, Hmh, IH. split.
    + intros [?|[Hx (xs & t & -> & ? & ?)]]; [by exists [], (x :: text)|].
      exists (x :: xs), t. split_and!; [done| |done]. constructor; [|done]. red. naive_solver.
    + intros (xs & t & E & Hxs & Ht). destruct xs as [|y xs]; simplify_eq/=; [by left|].
      apply Forall_cons_1 in Hxs as [Hy Hxs]. right. split; [red in Hy; naive_solver|].
      by exists xs, t.
Qed.

Lemma lang_one_iff c its t :
  (∃ u v, t = u ++ v ∧ lang (One c :: its) u v) ↔
  ∃ x t', t = x :: t' ∧ accepts c x ∧ ∃ u v, t' = u ++ v ∧ lang its u v.
Proof.
  split.
  - intros (u & v & -> & Hl). inversion Hl; subst. eexists _, _. split_and!; naive_solver.
  - intros (x & t' & -> & Hx & u & v & -> & Hl). exists (x :: u), v. naive_solver.
Qed.

Lemma lang_many_iff c its t :
  (∃ u v, t = u ++ v ∧ lang (Many c :: its) u v) ↔
  ∃ xs t', t = xs ++ t' ∧ Forall (accepts c) xs ∧ ∃ u v, t' = u ++ v ∧ lang its u v.
Proof.
  split.
  - intros (u & v & -> & Hl). inversion Hl; subst. eexists _, _. rewrite <- app_assoc. naive_solver.
  - intros (xs & t' & -> & Hx & u & v & -> & Hl). exists (xs ++ u), v. rewrite <- app_assoc. naive_solver.
Qed.

Lemma lang_eol_iff t : (∃ u v, t = u ++ v ∧ lang [Eol] u v) ↔ t = [].
Proof.
  split.
  - intros (u & v & -> & Hl). inversion Hl as [| | |? ? H]; subst. by inversion H.
  - intros ->. exists [], []. auto.
Qed.

Lemma single_spec c re1 (IH : ∀ text, matchhere re1 text = true ↔ ∃ u v, text = u ++ v ∧ lang (items re1) u v) text :
  (if (c =? DOLLAR) && bool_decide (re1 = []) then bool_decide (text = [])
   else match text with
        | [] => false
        | x :: text' => ((c =? ANY) || (c =? x)) && matchhere re1 text'
        end) = true ↔
  ∃ u v, text = u ++ v ∧
    lang (if (c =? DOLLAR) && bool_decide (re1 = []) then [Eol] else One c :: items re1) u v.
Proof.
  destruct ((c =? DOLLAR) && bool_decide (re1 = [])).
  - by rewrite lang_eol_iff, bool_decide_eq_true.
  - rewrite lang_one_iff. destruct text as [|x text]; [naive_solver|].
    rewrite andb_true_iff, orb_true_iff, !Z.eqb_eq, IH. unfold accepts. naive_solver.
Qed.

Lemma matchhere_spec re : ∀ text,
  matchhere re text = true ↔ ∃ u v, text = u ++ v ∧ lang (items re) u v.
Proof.
  induction re as [re IH] using (induction_ltof1 _ (@length Z)). unfold ltof in IH. intros text.
  destruct re as [|c re1]; [split; [exists [], text; auto|done]|].
  destruct re1 as [|d re2]; [apply (single_spec c []), IH; simpl; lia|].
  cbn [matchhere items]. destruct (d =? STAR) eqn:Ed.
  - rewrite lang_many_iff. apply (matchstar_spec c _ (λ t, ∃ u v, t = u ++ v ∧ lang (items re2) u v)).
    apply IH. simpl; lia.
  - apply (single_spec c (d :: re2)), IH. simpl; lia.
Qed.

Lemma match_from_spec re text :
  match_from re text = true ↔ ∃ a t, text = a ++ t ∧ matchhere re t = true.
Proof.
  induction text as [|x text IH]; simpl; rewrite orb_true_iff.
  - split; [intros [?|?]; [by exists [], []|done]|].
    intros (a & t & E & ?). symmetry in E. apply app_nil in E as [-> ->]. by left.
  - rewrite IH. split.
    + intros [?|(a & t & -> & ?)]; [by exists [], (x :: text)|by exists (x :: a), t].
    + intros ([|y a] & t & E & ?); simplify_eq/=; [by left|right; eauto].
Qed.

(** C38: grep's matcher, with its nested loops and recursion, accepts a text
    exactly when the text contains a string of the pattern's language (at its
    start when the pattern begins with a caret, up to its end when it ends in
    a dollar sign). *)
Theorem match_re_correct re text : match_re re text = true ↔ matches re text.
Proof.
  unfold match_re, matches, body, anchored. destruct re as [|c re].
  - rewrite match_from_spec. setoid_rewrite matchhere_spec. split.
    + intros (a & t & -> & u & v & -> & ?). by exists a, u, v.
    + intros (a & u & v & -> & _ & ?). exists a, (u ++ v). naive_solver.
  - destruct (c =? CARET) eqn:E; cbn [tail].
    + rewrite matchhere_spec. split; [intros (u & v & -> & ?); by exists [], u, v|].
      intros (a & u & v & -> & Ha & ?). rewrite Ha by done. by exists u, v.
    + rewrite match_from_spec. setoid_rewrite matchhere_spec. split.
      * intros (a & t & -> & u & v & -> & ?). by exists a, u, v.
      * intros (a & u & v & -> & _ & ?). exists a, (u ++ v). naive_solver.
Qed.

(** ** The lines of the input *)

(** The complete lines of [t], the first one continuing [cur]. *)
Fixpoint lines (cur t : list Z) : list (list Z) :=
  match t with
  | [] => []
  | c :: t' => if c =? NL then cur :: lines [] t' else lines (cur ++ [c]) t'
  end.

(** The lines that match, each with its newline. *)
Definition select (pattern : list Z) (ls : list (list Z)) : list Z :=
  concat ((λ l, if match_re pattern l then l ++ [NL] else []) <$> ls).

Lemma lines_app cur l t : NL ∉ l → lines cur (l ++ t) = lines (cur ++ l) t.
Proof.
  revert cur. induction l as [|c l IH]; intros cur Hl; simpl; [by rewrite app_nil_r|].
  apply not_elem_of_cons in Hl as [Hc Hl].
  rewrite (proj2 (Z.eqb_neq c NL)) by done. rewrite IH by done. by rewrite <- app_assoc.
Qed.

Lemma lines_line l t : NL ∉ l → lines [] (l ++ NL :: t) = l :: lines [] t.
Proof. intros. by rewrite lines_app. Qed.

Lemma lines_nl_free l : NL ∉ l → lines [] l = [].
Proof. intros. rewrite <- (app_nil_r l), lines_app by done. done. Qed.

Lemma lines_head_length cur t l ls : lines cur t = l :: ls → (length cur ≤ length l)%nat.
Proof.
  revert cur. induction t as [|c t IH]; intros cur; simpl; [done|].
  destruct (c =? NL); [intros [= -> _]; done|]. intros E. apply IH in E.
  rewrite length_app in E. lia.
Qed.

Lemma split_nl_some p l r : split_nl p = Some (l, r) → p = l ++ NL :: r ∧ NL ∉ l.
Proof.
  revert l r. induction p as [|c p IH]; intros l r; simpl; [done|].
  destruct (c =? 0); [done|]. destruct (c =? NL) eqn:E.
  - intros [= <- <-]. apply Z.eqb_eq in E as ->. split; [done|apply not_elem_of_nil].
  - destruct (split_nl p) as [[l' r']|]; [|done]. intros [= <- <-].
    destruct (IH l' r' eq_refl) as [-> ?]. apply Z.eqb_neq in E. split; [done|].
    by apply not_elem_of_cons.
Qed.

Lemma split_nl_none p : 0 ∉ p → split_nl p = None → NL ∉ p.
Proof.
  induction p as [|c p IH]; intros Hp; simpl; [intros _; apply not_elem_of_nil|].
  apply not_elem_of_cons in Hp as [Hc Hp]. rewrite (proj2 (Z.eqb_neq c 0)) by done.
  destruct (c =? NL) eqn:E; [done|]. apply Z.eqb_neq in E.
  destruct (split_nl p) as [[? ?]|]; [done|]. intros _. apply not_elem_of_cons. naive_solver.
Qed.

Lemma grep_lines_spec fuel pattern p :
  (length p < fuel)%nat → 0 ∉ p →
  ∃ ls lo, grep_lines fuel pattern p = (select pattern ls, lo) ∧ NL ∉ lo ∧ 0 ∉ lo ∧
    (length lo ≤ length p)%nat ∧ ∀ t, lines [] (p ++ t) = ls ++ lines [] (lo ++ t).
Proof.
  revert p. induction fuel as [|fuel IH]; intros p Hf Hp; [lia|]. simpl.
  destruct (split_nl p) as [[l r]|] eqn:E.
  - apply split_nl_some in E as [-> Hl]. rewrite length_app in Hf. simpl in Hf.
    apply not_elem_of_app in Hp as [_ Hp]. apply not_elem_of_cons in Hp as [_ Hp].
    destruct (IH r) as (ls & lo & -> & ? & ? & ? & Hls); [lia|done|].
    exists (l :: ls), lo. rewrite length_app. simpl. split_and!; try done; [lia|].
    intros t. rewrite <- app_assoc. simpl. by rewrite lines_line, Hls.
  - exists [], p. split_and!; [done|by apply split_nl_none|done|done|done].
Qed.

Lemma read_app fd k bytes fd' :
  read fd k = (bytes, fd') →
  in_left fd = bytes ++ in_left fd' ∧ (length bytes ≤ k)%nat ∧
  (bytes = [] → k = 0%nat ∨ in_left fd = []).
Proof.
  unfold read. intros [= <- <-]. cbn [in_left]. rewrite take_drop, length_take.
  unfold read_size. split_and!; [done|lia|].
  destruct k; [by left|]. destruct (in_left fd); [by right|done].
Qed.

Lemma grep_loop_spec fuel pattern buf fd :
  (length (in_left fd) < fuel)%nat → NL ∉ buf → (length buf < BUFSIZE)%nat → 0 ∉ buf ++ in_left fd →
  Forall (λ l, length l < BUFSIZE - 1)%nat (lines [] (buf ++ in_left fd)) →
  grep_loop fuel pattern buf fd = select pattern (lines [] (buf ++ in_left fd)).
Proof.
  revert buf fd. induction fuel as [|fuel IH]; intros buf fd Hf Hnl Hlen H0 Hls; [lia|].
  cbn [grep_loop]. destruct (read fd _) as [bytes fd'] eqn:E.
  apply read_app in E as (El & Hb & Hemp). rewrite El in *.
  destruct bytes as [|b bytes].
  - destruct Hemp as [Hk|Hk]; [done| |].
    + simpl in *. rewrite lines_app in * by done. simpl in *.
      destruct (lines buf (in_left fd')) as [|l ls] eqn:El'; [done|].
      apply lines_head_length in El'. apply Forall_cons_1 in Hls as [Hl _]. unfold BUFSIZE in *. lia.
    + rewrite Hk, app_nil_r. by rewrite lines_nl_free.
  - set (bs := b :: bytes) in *. rewrite (assoc_L app) in *.
    apply not_elem_of_app in H0 as [H0 H0'].
    destruct (grep_lines_spec BUFSIZE pattern (buf ++ bs)) as (ls & lo & -> & ? & ? & Hlo & Hspec);
      [rewrite length_app; lia|done|].
    rewrite Hspec in Hls |- *. apply Forall_app in Hls as [_ Hls]. rewrite length_app in *.
    unfold select at 2. rewrite fmap_app, concat_app. f_equal.
    apply IH; try done; [subst bs; simpl in *; lia|lia|]. by apply not_elem_of_app.
Qed.

(** however [read] splits its input, grep writes exactly the lines that
    match, in order, if the input has no NUL and no line of more than 1022
    characters. *)
Theorem grep_correct pattern fd :
  0 ∉ in_left fd → Forall (λ l, length l < BUFSIZE - 1)%nat (lines [] (in_left fd)) →
  grep pattern fd = select pattern (lines [] (in_left fd)).
Proof.
  intros. apply (grep_loop_spec _ _ [] fd); simpl; [lia|apply not_elem_of_nil|unfold BUFSIZE; lia|done|done].
Qed.

Lemma grep_correct_witness :
  grep [97; 42; 98] (mkIn [97; 98; 10; 99; 10; 98; 10] [1; 0; 3]%nat)
  = select [97; 42; 98] (lines [] [97; 98; 10; 99; 10; 98; 10]).
Proof.
  apply (grep_correct [97; 42; 98] (mkIn [97; 98; 10; 99; 10; 98; 10] [1; 0; 3]%nat)); cbn [in_left].
  - rewrite !not_elem_of_cons. split_and!; try done. apply not_elem_of_nil.
  - repeat constructor.
Defined.

Lemma grep_loop_long fuel pattern buf l rest sizes :
  NL ∉ buf ++ l → 0 ∉ buf ++ l → (length buf + length l = BUFSIZE - 1)%nat →
  grep_loop fuel pattern buf (mkIn (l ++ rest) sizes) = [].
Proof.
  revert buf l sizes. induction fuel as [|fuel IH]; intros buf l sizes Hnl H0 Hlen; [done|].
  cbn [grep_loop]. unfold read. cbn [in_left in_sizes].
  set (n := read_size _ _).
  assert (n ≤ length l)%nat as Hn by (unfold n, read_size; lia).
  rewrite take_app_le, drop_app_le by done. destruct (take n l) as [|b bs] eqn:E; [done|].
  assert (buf ++ l = (buf ++ b :: bs) ++ drop n l) as Es by by rewrite <- E, <- app_assoc, take_drop.
  rewrite Es in Hnl, H0. pose proof Hnl as [Hnl1 _]%not_elem_of_app. pose proof H0 as [H01 _]%not_elem_of_app.
  assert (split_nl (buf ++ b :: bs) = None) as Hs.
  { destruct (split_nl _) as [[? ?]|] eqn:E'; [|done]. apply split_nl_some in E' as [E' _].
    rewrite E' in Hnl1. apply not_elem_of_app in Hnl1 as [_ Hnl1]. by apply not_elem_of_cons in Hnl1 as [? _]. }
  unfold grep_lines, BUFSIZE. rewrite Hs. apply IH; [done|done|].
  apply (f_equal length) in Es. rewrite !length_app in *. lia.
Qed.

(** A line of 1023 characters or more ends the search: nothing is written for
    it or for what follows. *)
Lemma grep_long_line pattern l rest sizes :
  NL ∉ l → 0 ∉ l → length l = (BUFSIZE - 1)%nat → grep pattern (mkIn (l ++ rest) sizes) = [].
Proof. intros. by apply grep_loop_long. Qed.
