(* ===== verification/Sh.v ===== *)
(** * The parser of the shell ([user/sh.c])

    The command line is the list [s] of its bytes, without the NUL; the
    pointer [*ps] the functions pass around is the state of the monad, an
    index into [s], and [es] is its length.  A word of a command is the pair
    of indices ([q], [eq]) the C code stores.  [malloc] is taken to succeed.

    The theorems: the parser always returns a command or a syntax error, and
    after [nulterminate] every word reads as exactly the characters of its
    token; and every command of the grammar is parsed back from its text. *)

From Stdlib Require Import ZArith Lia.
From S2P Require Import Prelude Params CString Ulib.
From stdpp Require Import base gmap strings numbers list.

Open Scope Z_scope.

Definition MAXARGS : nat := 10.
Definition whitespace : list Z := [32; 9; 13; 10; 11].
Definition symbols : list Z := [60; 124; 62; 38; 59; 40; 41].

Definition LT : Z := 60.
Definition PIPE : Z := 124.
Definition GT : Z := 62.
Definition AMP : Z := 38.
Definition SEMI : Z := 59.
Definition LPAREN : Z := 40.
Definition RPAREN : Z := 41.
(** What [gettoken] returns for a word and for [>>]. *)
Definition WORD : Z := 97.
Definition PLUS : Z := 43.

Record redir : Type := mkRedir { rd_file : nat; rd_efile : nat; rd_mode : Z; rd_fd : Z }.

Inductive cmd : Type :=
| Exec (argv : list (nat * nat))
| Redir (c : cmd) (r : redir)
| Pipe (l r : cmd)
| List (l r : cmd)
| Back (c : cmd).

Definition in_set (set : list Z) (c : Z) : bool := match strchr set c with Some _ => true | None => false end.
Definition is_white : Z → bool := in_set whitespace.
Definition in_word (c : Z) : bool := negb (in_set whitespace c) && negb (in_set symbols c).

Section Parser.
Context (s : list Z).

(** [*p]; the byte at [es] is the NUL. *)
Definition char_at (i : nat) : Z := default 0 (s !! i).
Definition es : nat := length s.

(** [while(s < es && p( *s )) s++] *)
Fixpoint skip (p : Z → bool) (n i : nat) : nat :=
  match n with
  | O => i
  | S n' => if p (char_at i) then skip p n' (S i) else i
  end.
Definition skip_white (i : nat) : nat := skip is_white (es - i) i.

(** The token at [i] and its end. *)
Definition token_at (i : nat) : Z * nat :=
  let c := char_at i in
  if c =? 0 then (0, i)
  else if in_set [PIPE; LPAREN; RPAREN; SEMI; AMP; LT] c then (c, S i)
  else if c =? GT then (if char_at (S i) =? GT then (PLUS, S (S i)) else (GT, S i))
  else (WORD, skip in_word (es - i) i).

Definition gettoken : K nat (Z * nat * nat) :=
  i <- gets id ;;
  let q := skip_white i in
  let '(tok, eq) := token_at q in
  modify (λ _, skip_white eq) ;;;
  ret (tok, q, eq).

Definition peek (toks : list Z) : K nat bool :=
  i <- gets id ;;
  let i := skip_white i in
  modify (λ _, i) ;;;
  ret (negb (char_at i =? 0) && in_set toks (char_at i)).

(** The redirections [parseredirs] finds, in order. *)
Fixpoint redirs (n : nat) : K nat (list redir) :=
  b <- peek [LT; GT] ;;
  if (b : bool) then
    match n with
    | O => nofuel
    | S n' =>
        t <- gettoken ;;
        u <- gettoken ;;
        let '(tok, q, eq) := u in
        if negb (tok =? WORD) then panic "missing file for redirection"
        else
          rs <- redirs n' ;;
          ret (if t.1.1 =? LT then mkRedir q eq O_RDONLY 0 :: rs
               else if t.1.1 =? GT then mkRedir q eq (Z.lor (Z.lor O_WRONLY O_CREATE) O_TRUNC) 1 :: rs
               else if t.1.1 =? PLUS then mkRedir q eq (Z.lor O_WRONLY O_CREATE) 1 :: rs
               else rs)
    end
  else ret [].

Definition parseredirs (c : cmd) : K nat cmd := rs <- redirs (S es) ;; ret (foldl Redir c rs).

(** The loop of [parseexec]: [argv] are the words so far, [rs] the redirections
    around the command. *)
Fixpoint exec_loop (n : nat) (argv : list (nat * nat)) (rs : list redir) : K nat cmd :=
  b <- peek [PIPE; RPAREN; AMP; SEMI] ;;
  if (b : bool) then ret (foldl Redir (Exec argv) rs)
  else match n with
       | O => nofuel
       | S n' =>
           u <- gettoken ;;
           let '(tok, q, eq) := u in
           if tok =? 0 then ret (foldl Redir (Exec argv) rs)
           else if negb (tok =? WORD) then panic "syntax"
           else
             let argv := argv ++ [(q, eq)] in
             if (MAXARGS <=? length argv)%nat then panic "too many args"
             else more <- redirs (S es) ;; exec_loop n' argv (rs ++ more)
       end.

(** [while(peek(ps, es, "&")){ gettoken(...); cmd = backcmd(cmd); }] *)
Fixpoint backs (n : nat) (c : cmd) : K nat cmd :=
  b <- peek [AMP] ;;
  if (b : bool) then
    match n with O => nofuel | S n' => gettoken ;;; backs n' (Back c) end
  else ret c.

Fixpoint parseline (n : nat) : K nat cmd :=
  match n with
  | O => nofuel
  | S n' =>
      c <- parsepipe n' ;;
      c <- backs (S es) c ;;
      b <- peek [SEMI] ;;
      if (b : bool) then gettoken ;;; r <- parseline n' ;; ret (List c r) else ret c
  end
with parsepipe (n : nat) : K nat cmd :=
  match n with
  | O => nofuel
  | S n' =>
      c <- parseexec n' ;;
      b <- peek [PIPE] ;;
      if (b : bool) then gettoken ;;; r <- parsepipe n' ;; ret (Pipe c r) else ret c
  end
with parseexec (n : nat) : K nat cmd :=
  match n with
  | O => nofuel
  | S n' =>
      b <- peek [LPAREN] ;;
      if (b : bool) then parseblock n'
      else rs <- redirs (S es) ;; exec_loop (S es) [] rs
  end
with parseblock (n : nat) : K nat cmd :=
  match n with
  | O => nofuel
  | S n' =>
      b <- peek [LPAREN] ;;
      if negb b then panic "parseblock"
      else
        gettoken ;;;
        c <- parseline n' ;;
        b <- peek [RPAREN] ;;
        if negb b then panic "syntax - missing )" else gettoken ;;; parseredirs c
  end.

(** [parsecmd] before [nulterminate], at index 0; four calls for each character
    are enough. *)
Definition parse : K nat cmd :=
  c <- parseline (4 * es + 4) ;;
  peek [] ;;;
  i <- gets id ;;
  if negb (i =? es)%nat then panic "syntax" else ret c.

End Parser.

(** ** nulterminate *)

Definition cut (buf : list Z) (i : nat) : list Z := <[i := 0]> buf.

Fixpoint nulterminate (c : cmd) (buf : list Z) : list Z :=
  match c with
  | Exec argv => foldl (λ b w, cut b w.2) buf argv
  | Redir c r => cut (nulterminate c buf) (rd_efile r)
  | Pipe l r | List l r => nulterminate r (nulterminate l buf)
  | Back c => nulterminate c buf
  end.

(** [parsecmd]: the command and the line as [nulterminate] leaves it. *)
Definition parsecmd (s : list Z) : res nat (cmd * list Z) :=
  (c <- parse s ;; ret (c, nulterminate c (s ++ [0]))) 0%nat.

(** ** Every line is parsed or refused *)

(** The words of a command. *)
Fixpoint words (c : cmd) : list (nat * nat) :=
  match c with
  | Exec argv => argv
  | Redir c r => words c ++ [(rd_file r, rd_efile r)]
  | Pipe l r | List l r => words l ++ words r
  | Back c => words c
  end.

Section Total.
Context (s : list Z) (Hs : Forall (λ c, c ≠ 0) s).

(** A word is a longest sequence of word characters. *)
Record word_ok (w : nat * nat) : Prop := {
  wo_range : (w.1 < w.2 ≤ es s)%nat;
  wo_in : ∀ k, (w.1 ≤ k < w.2)%nat → in_word (char_at s k) = true;
  wo_end : in_word (char_at s w.2) = false ∨ w.2 = es s
}.

Lemma char_at_0 i : char_at s i = 0 ↔ (es s ≤ i)%nat.
Proof.
  unfold char_at, es. destruct (s !! i) as [c|] eqn:E; cbn.
  - pose proof (lookup_lt_Some _ _ _ E). pose proof (Forall_lookup_1 _ _ _ _ Hs E). cbn in *. lia.
  - apply lookup_ge_None in E. lia.
Qed.

Lemma skip_spec p i :
  (i ≤ es s)%nat →
  (i ≤ skip s p (es s - i) i ≤ es s)%nat ∧ (∀ k, (i ≤ k < skip s p (es s - i) i)%nat → p (char_at s k) = true) ∧
  ((skip s p (es s - i) i < es s)%nat → p (char_at s (skip s p (es s - i) i)) = false).
Proof.
  intros Hi. remember (es s - i)%nat as n eqn:Hn. revert i Hi Hn. induction n as [|n IH]; intros i Hi Hn; cbn [skip].
  - split_and!; lia.
  - destruct (p (char_at s i)) eqn:E.
    + destruct (IH (S i)) as (H1 & H2 & H3); [lia|lia|]. split; [lia|]. split; [|done].
      intros k Hk. destruct (decide (k = i)) as [->|]; [done|]. apply H2. lia.
    + split; [lia|]. split; [lia|done].
Qed.

Definition goodQ {A} (Q : A → Prop) (i : nat) (r : res nat A) : Prop :=
  match r with
  | Ok a i' => (i ≤ i' ≤ es s)%nat ∧ Q a
  | Panic _ => True
  | _ => False
  end.

Lemma good_bind {A B} (m : K nat A) (f : A → K nat B) Q R i :
  goodQ Q i (m i) → (∀ a i', (i ≤ i' ≤ es s)%nat → Q a → m i = Ok a i' → goodQ R i (f a i')) → goodQ R i (bind m f i).
Proof. unfold bind, goodQ. destruct (m i) as [a i'| | | |]; cbn; try done. intros [Hi Ha] Hf. by apply Hf. Qed.

Lemma good_from {A} (Q : A → Prop) i i' r : (i ≤ i')%nat → goodQ Q i' r → goodQ Q i r.
Proof. intros Hi. unfold goodQ. destruct r; try done. intros [? ?]. split; [lia|done]. Qed.

(** What [gettoken] returns. *)
Record got (i : nat) (t : Z * nat * nat) (i' : nat) : Prop := {
  gt_q : (i ≤ t.1.2 ≤ t.2)%nat ∧ (t.2 ≤ i' ≤ es s)%nat;
  gt_end : t.1.1 = 0 ↔ t.1.2 = es s;
  gt_more : t.1.1 ≠ 0 → (t.1.2 < t.2)%nat;
  gt_word : t.1.1 = WORD → word_ok (t.1.2, t.2)
}.

Lemma in_set_true l c : in_set l c = true ↔ c ∈ l.
Proof.
  unfold in_set. induction l as [|x l IH]; cbn; [by rewrite elem_of_nil|]. rewrite elem_of_cons.
  destruct (Z.eqb_spec x c) as [->|]; [naive_solver|]. rewrite IH. naive_solver.
Qed.

Lemma in_symbols c : in_set [PIPE; LPAREN; RPAREN; SEMI; AMP; LT] c = false → c ≠ GT → in_set symbols c = false.
Proof.
  rewrite <- !not_true_iff_false, !in_set_true. intros Hn Hg Hc. apply Hn. revert Hc. unfold symbols.
  rewrite !elem_of_cons. fold LT PIPE GT AMP SEMI LPAREN RPAREN. naive_solver.
Qed.

(** A token that starts inside the line. *)
Lemma token_more q :
  (q < es s)%nat → is_white (char_at s q) = false →
  ∃ tok e, token_at s q = (tok, e) ∧ (q < e ≤ es s)%nat ∧ tok ≠ 0 ∧ (tok = WORD → word_ok (q, e)).
Proof.
  intros Hq Hw. pose proof (char_at_0 q) as H0. unfold token_at. destruct (Z.eqb_spec (char_at s q) 0) as [E0|E0]; [lia|].
  destruct (in_set _ (char_at s q)) eqn:Es.
  { exists (char_at s q), (S q). split_and!; [done|lia|lia|done|]. intros Ew. by rewrite Ew in Es. }
  destruct (Z.eqb_spec (char_at s q) GT) as [Eg|Eg].
  { destruct (Z.eqb_spec (char_at s (S q)) GT) as [Eg2|Eg2]; [exists PLUS, (S (S q))|exists GT, (S q)].
    - pose proof (char_at_0 (S q)). unfold GT in *. split_and!; done || lia.
    - split_and!; done || lia. }
  destruct (skip_spec in_word q ltac:(lia)) as (Hr & Hin & Hend).
  assert (in_word (char_at s q) = true) as Hc.
  { unfold in_word. fold is_white. by rewrite Hw, (in_symbols _ Es Eg). }
  exists WORD, (skip s in_word (es s - q) q). set (e := skip s in_word (es s - q) q) in *.
  assert (q ≠ e) by (intros <-; rewrite Hend in Hc; done || lia).
  split_and!; try done; try lia. intros _. split; cbn; [lia|done|].
  destruct (decide (e = es s)); [by right|left; apply Hend; lia].
Qed.

Lemma gettoken_got i : (i ≤ es s)%nat → ∃ t i', gettoken s i = Ok t i' ∧ got i t i'.
Proof.
  intros Hi. unfold gettoken. rewrite bind_gets. cbn [id]. unfold id.
  destruct (skip_spec is_white i Hi) as (Hq & _ & Hw). fold (skip_white s i) in Hq, Hw. set (q := skip_white s i) in *. clearbody q.
  assert (∃ tok e, token_at s q = (tok, e) ∧ (q ≤ e ≤ es s)%nat ∧ (tok = 0 ↔ q = es s) ∧ (tok ≠ 0 → (q < e)%nat) ∧
    (tok = WORD → word_ok (q, e))) as (tok & e & E & He & H0 & Hm & Hword).
  { destruct (decide (q = es s)) as [->|Hne].
    - exists 0, (es s). unfold token_at. rewrite (proj2 (char_at_0 (es s))) by lia. split_and!; done || lia.
    - destruct (token_more q) as (tok & e & E & He & H0 & Hword); [lia|by apply Hw; lia|].
      exists tok, e. split_and!; try done; try lia. }
  rewrite E. rewrite bind_modify. destruct (skip_spec is_white e ltac:(lia)) as (He' & _).
  eexists _, _. split; [done|]. split; cbn; try done. unfold skip_white. lia.
Qed.

(** What [peek] returns: after a positive answer the next token is there. *)
Lemma peek_got toks i :
  (i ≤ es s)%nat →
  ∃ b i', peek s toks i = Ok b i' ∧ (i ≤ i' ≤ es s)%nat ∧ (b = true → (i' < es s)%nat ∧ is_white (char_at s i') = false).
Proof.
  intros Hi. unfold peek. rewrite bind_gets, bind_modify. unfold id.
  destruct (skip_spec is_white i Hi) as (Hq & _ & Hw). fold (skip_white s i) in Hq, Hw.
  eexists _, _. split; [done|]. split; [done|]. intros [H0 _]%andb_true_iff. pose proof (char_at_0 (skip_white s i)).
  assert (skip_white s i < es s)%nat by lia. split; [done|by apply Hw].
Qed.

(** After a positive [peek] the next token is not empty. *)
Lemma gettoken_next i :
  (i < es s)%nat → is_white (char_at s i) = false → ∃ t i', gettoken s i = Ok t i' ∧ got i t i' ∧ (i < i')%nat.
Proof.
  intros Hi Hw. destruct (gettoken_got i) as (t & i' & E & G); [lia|]. exists t, i'. split; [done|]. split; [done|].
  destruct G as [Hq He Hm _]. destruct (decide (t.1.1 = 0)) as [E0|Hne]; [|pose proof (Hm Hne); lia].
  rewrite He in E0. lia.
Qed.

Definition redir_ok (r : redir) : Prop := word_ok (rd_file r, rd_efile r).

(** A test for a token that is consumed. *)
Lemma good_if {A} (R : A → Prop) toks (f g : K nat A) i :
  (i ≤ es s)%nat → (∀ i', (i < i' ≤ es s)%nat → goodQ R i' (f i')) → (∀ i', (i ≤ i' ≤ es s)%nat → goodQ R i' (g i')) →
  goodQ R i ((b <- peek s toks ;; if (b : bool) then gettoken s ;;; f else g) i).
Proof.
  intros Hi Hf Hg. destruct (peek_got toks i Hi) as (b & i1 & E1 & Hi1 & Hb). erewrite bind_ok by exact E1.
  destruct b; [|apply (good_from _ _ i1); [lia|by apply Hg]]. destruct (Hb eq_refl) as [Hlt Hw].
  destruct (gettoken_next i1 Hlt Hw) as (t & i2 & E2 & G2 & Hi2). erewrite bind_ok by exact E2. destruct G2.
  apply (good_from _ _ i2); [lia|]. apply Hf. lia.
Qed.

Lemma redirs_good n i : (i ≤ es s)%nat → (es s < i + n)%nat → goodQ (Forall redir_ok) i (redirs s n i).
Proof.
  revert i. induction n as [|n IH]; intros i Hi Hn; [lia|]. cbn [redirs].
  destruct (peek_got [LT; GT] i Hi) as (b & i1 & E1 & Hi1 & Hb). erewrite bind_ok by exact E1.
  destruct b; [|split; [lia|constructor]]. destruct (Hb eq_refl) as [Hlt Hw].
  destruct (gettoken_next i1 Hlt Hw) as (t & i2 & E2 & _ & Hi2). erewrite bind_ok by exact E2.
  destruct (gettoken_got i2) as ([[tok q] e] & i3 & E3 & G3); [|erewrite bind_ok by exact E3].
  { destruct (gettoken_got i1) as (t' & i2' & E2' & G2); [lia|]. rewrite E2 in E2'. injection E2' as <- <-. destruct G2. lia. }
  destruct G3 as [Hq _ _ Hword]. cbn [fst snd] in *. destruct (Z.eqb_spec tok WORD) as [Ew|]; [|done]. cbn [negb].
  eapply (good_from _ _ i3); [lia|]. eapply good_bind; [apply IH; lia|]. intros rs i4 Hi4 Hrs _.
  split; [lia|]. repeat case_match; try done; constructor; try done; by apply Hword.
Qed.

Definition cmd_ok (c : cmd) : Prop := Forall word_ok (words c).

Lemma redir_cmd_ok c rs : cmd_ok c → Forall redir_ok rs → cmd_ok (foldl Redir c rs).
Proof.
  revert c. induction rs as [|r rs IH]; intros c Hc Hr; [done|]. cbn. apply Forall_cons_1 in Hr as [Hr Hrs].
  apply IH; [|done]. unfold cmd_ok. cbn. by apply Forall_app_2; [|constructor].
Qed.

Lemma exec_loop_good n argv rs i :
  (i ≤ es s)%nat → (es s < i + n)%nat → Forall word_ok argv → Forall redir_ok rs → goodQ cmd_ok i (exec_loop s n argv rs i).
Proof.
  revert i argv rs. induction n as [|n IH]; intros i argv rs Hi Hn Ha Hr; [lia|]. cbn [exec_loop].
  destruct (peek_got [PIPE; RPAREN; AMP; SEMI] i Hi) as (b & i1 & E1 & Hi1 & _). erewrite bind_ok by exact E1.
  destruct b; [split; [lia|by apply redir_cmd_ok]|].
  destruct (gettoken_got i1) as ([[tok q] e] & i2 & E2 & G2); [lia|]. erewrite bind_ok by exact E2.
  destruct G2 as [Hq _ Hm Hword]. cbn [fst snd] in *. destruct (Z.eqb_spec tok 0) as [E0|E0]; [split; [lia|by apply redir_cmd_ok]|].
  destruct (Z.eqb_spec tok WORD) as [Ew|]; [|done]. cbn [negb]. destruct (MAXARGS <=? _)%nat; [done|].
  eapply (good_from _ _ i2); [lia|]. eapply good_bind; [apply redirs_good; lia|]. intros more i3 Hi3 Hmore _.
  apply (good_from _ _ i3); [lia|]. apply IH; [lia| |by apply Forall_app_2; [|constructor; [apply Hword|]]|by apply Forall_app_2].
  pose proof (Hm E0). lia.
Qed.

Lemma backs_good n c i : (i ≤ es s)%nat → (es s < i + n)%nat → cmd_ok c → goodQ cmd_ok i (backs s n c i).
Proof.
  revert i c. induction n as [|n IH]; intros i c Hi Hn Hc; [lia|]. cbn [backs].
  apply good_if; [done| |intros i' Hi'; split; [lia|done]]. intros i' Hi'. apply IH; done || lia.
Qed.

(** The four mutually recursive parsers, by induction on the fuel. *)
Lemma parsers_good n :
  (∀ i, (i ≤ es s)%nat → (4 * (es s - i) + 4 ≤ n)%nat → goodQ cmd_ok i (parseline s n i)) ∧
  (∀ i, (i ≤ es s)%nat → (4 * (es s - i) + 3 ≤ n)%nat → goodQ cmd_ok i (parsepipe s n i)) ∧
  (∀ i, (i ≤ es s)%nat → (4 * (es s - i) + 2 ≤ n)%nat → goodQ cmd_ok i (parseexec s n i)) ∧
  (∀ i, (i ≤ es s)%nat → (4 * (es s - i) + 1 ≤ n)%nat → goodQ cmd_ok i (parseblock s n i)).
Proof.
  induction n as [|n (IHl & IHp & IHe & IHb)]; [split_and!; intros; lia|]. split_and!; intros i Hi Hn.
  - cbn [parseline]. eapply good_bind; [apply IHp; lia|]. intros c i1 Hi1 Hc _. apply (good_from _ _ i1); [lia|].
    eapply good_bind; [apply backs_good; lia || done|]. intros c2 i2 Hi2 Hc2 _. apply (good_from _ _ i2); [lia|].
    apply good_if; [lia| |intros i' Hi'; split; [lia|done]]. intros i' Hi'. eapply good_bind; [apply IHl; lia|]. intros r i5 Hi5 Hr _.
    split; [lia|]. by apply Forall_app_2.
  - cbn [parsepipe]. eapply good_bind; [apply IHe; lia|]. intros c i1 Hi1 Hc _. apply (good_from _ _ i1); [lia|].
    apply good_if; [lia| |intros i' Hi'; split; [lia|done]]. intros i' Hi'. eapply good_bind; [apply IHp; lia|]. intros r i5 Hi5 Hr _.
    split; [lia|]. by apply Forall_app_2.
  - cbn [parseexec]. destruct (peek_got [LPAREN] i Hi) as (b & i1 & E1 & Hi1 & _). erewrite bind_ok by exact E1.
    apply (good_from _ _ i1); [lia|]. destruct b; [apply IHb; lia|].
    eapply good_bind; [apply redirs_good; lia|]. intros rs i2 Hi2 Hrs _. apply (good_from _ _ i2); [lia|].
    apply exec_loop_good; done || lia.
  - cbn [parseblock]. destruct (peek_got [LPAREN] i Hi) as (b & i1 & E1 & Hi1 & Hb). erewrite bind_ok by exact E1.
    destruct b; [|done]. cbn [negb]. destruct (Hb eq_refl) as [Hlt Hw].
    destruct (gettoken_next i1 Hlt Hw) as (t & i2 & E2 & G2 & Hi2). erewrite bind_ok by exact E2. destruct G2.
    apply (good_from _ _ i2); [lia|]. eapply good_bind; [apply IHl; lia|]. intros c i3 Hi3 Hc _.
    destruct (peek_got [RPAREN] i3) as (b & i4 & E4 & Hi4 & Hb4); [lia|]. erewrite bind_ok by exact E4.
    destruct b; [|done]. cbn [negb]. destruct (Hb4 eq_refl) as [Hlt4 Hw4].
    destruct (gettoken_next i4 Hlt4 Hw4) as (t5 & i5 & E5 & G5 & Hi5). erewrite bind_ok by exact E5. destruct G5.
    apply (good_from _ _ i5); [lia|]. unfold parseredirs. eapply good_bind; [apply redirs_good; lia|].
    intros rs i6 Hi6 Hrs _. split; [lia|by apply redir_cmd_ok].
Qed.

Lemma parse_good : goodQ cmd_ok 0 (parse s 0%nat).
Proof.
  unfold parse. eapply good_bind; [apply (parsers_good (4 * es s + 4)); lia|]. intros c i Hi Hc _.
  destruct (peek_got [] i) as (b & i1 & E1 & Hi1 & _); [lia|]. erewrite bind_ok by exact E1. rewrite bind_gets. unfold id.
  destruct (i1 =? es s)%nat; [split; [lia|done]|done].
Qed.

(** ** The words after nulterminate *)

(** The NUL-terminated string at [q] of a buffer. *)
Definition string_at (buf : list Z) (q : nat) : list Z := cstr (drop q buf).
(** The characters of a word in the line. *)
Definition text (w : nat * nat) : list Z := take (w.2 - w.1) (drop w.1 s).

(** A buffer whose word characters are those of the line. *)
Definition agrees (buf : list Z) : Prop :=
  length buf = S (es s) ∧ ∀ k, in_word (char_at s k) = true → (k < es s)%nat → buf !! k = s !! k.

Lemma agrees_cut buf w : agrees buf → word_ok w → agrees (cut buf w.2) ∧ cut buf w.2 !! w.2 = Some 0.
Proof.
  intros [Hl Ha] [Hr _ He]. unfold cut. split; [split|].
  - by rewrite length_insert.
  - intros k Hk Hlt. rewrite list_lookup_insert_ne; [by apply Ha|]. intros <-. destruct He as [He|He]; [congruence|lia].
  - apply list_lookup_insert_eq. lia.
Qed.

Lemma cut_keeps buf i k : buf !! k = Some 0 → cut buf i !! k = Some 0.
Proof.
  intros Hk. unfold cut. destruct (decide (i = k)) as [->|]; [|by rewrite list_lookup_insert_ne].
  apply list_lookup_insert_eq. by eapply lookup_lt_Some.
Qed.

(** What a sequence of cuts at the words [ws] leaves. *)
Definition cuts_ok (ws : list (nat * nat)) (buf buf' : list Z) : Prop :=
  agrees buf' ∧ (∀ w, w ∈ ws → buf' !! w.2 = Some 0) ∧ (∀ k, buf !! k = Some 0 → buf' !! k = Some 0).

Lemma cuts_app ws1 ws2 b0 b1 b2 : cuts_ok ws1 b0 b1 → cuts_ok ws2 b1 b2 → cuts_ok (ws1 ++ ws2) b0 b2.
Proof.
  intros (_ & H1 & K1) (A2 & H2 & K2). split; [done|]. split; [|auto]. intros w [Hw|Hw]%elem_of_app; auto.
Qed.

Lemma cuts_one w buf : agrees buf → word_ok w → cuts_ok [w] buf (cut buf w.2).
Proof.
  intros Ha Hw. destruct (agrees_cut buf w Ha Hw) as [Ha' H0]. split; [done|]. split.
  - intros w' ->%list_elem_of_singleton. done.
  - intros k. apply cut_keeps.
Qed.

Lemma nulterminate_ok c buf : agrees buf → cmd_ok c → cuts_ok (words c) buf (nulterminate c buf).
Proof.
  revert buf. induction c as [argv|c IH r|l IHl r IHr|l IHl r IHr|c IH]; intros buf Ha Hc; unfold cmd_ok in Hc; cbn [words] in Hc |- *.
  - cbn [nulterminate]. revert buf Ha. induction Hc as [|w argv Hw Hc IH]; intros buf Ha.
    + split; [done|]. split; [by intros w Hw%elem_of_nil|done].
    + cbn [foldl]. apply (cuts_app [w] argv buf (cut buf w.2)); [by apply cuts_one|]. apply IH. by apply agrees_cut.
  - apply Forall_app in Hc as [Hc Hr]. rewrite Forall_singleton in Hr. cbn [nulterminate].
    eapply cuts_app; [by apply IH|]. apply (cuts_one (rd_file r, rd_efile r)); [by apply IH|done].
  - apply Forall_app in Hc as [Hl Hr]. eapply cuts_app; [by apply IHl|]. apply IHr; [by apply IHl|done].
  - apply Forall_app in Hc as [Hl Hr]. eapply cuts_app; [by apply IHl|]. apply IHr; [by apply IHl|done].
  - by apply IH.
Qed.

Lemma agrees_line : agrees (s ++ [0]).
Proof.
  split; [rewrite length_app; cbn; unfold es; lia|]. intros k _ Hk. by apply lookup_app_l.
Qed.

Lemma word_string buf w : agrees buf → word_ok w → buf !! w.2 = Some 0 → string_at buf w.1 = text w.
Proof.
  intros [Hl Ha] [Hr Hin _] H0. unfold string_at, text.
  assert (drop w.1 buf = take (w.2 - w.1) (drop w.1 s) ++ 0 :: drop (S w.2) buf) as ->.
  - rewrite <- (take_drop (w.2 - w.1) (drop w.1 buf)) at 1. f_equal.
    + apply list_eq. intros k. destruct (decide (k < w.2 - w.1)%nat); [|by rewrite !lookup_take_ge by lia].
      rewrite !lookup_take_lt, !lookup_drop by lia. apply Ha; [apply Hin; lia|lia].
    + rewrite drop_drop. replace (w.1 + (w.2 - w.1))%nat with w.2 by lia. by apply drop_S.
  - apply cstr_app_nul. apply Forall_take, Forall_drop, Hs.
Qed.

(** The words of a parsed command, in the line as [nulterminate] leaves it. *)
Lemma parse_words c i :
  parse s 0%nat = Ok c i → ∀ w, w ∈ words c → word_ok w ∧ string_at (nulterminate c (s ++ [0])) w.1 = text w.
Proof.
  intros E w Hw. pose proof parse_good as Hg. rewrite E in Hg. destruct Hg as [_ Hc].
  destruct (nulterminate_ok c (s ++ [0]) agrees_line Hc) as (Ha & H0 & _).
  pose proof (proj1 (Forall_forall _ _) Hc w Hw) as Hword. split; [done|]. by apply word_string; [..|apply H0].
Qed.

End Total.

(** On every command line the parser stops, with a command or a syntax
    error.  Every word of the command is a longest sequence of word characters
    of the line, and read as a string after [nulterminate] it is exactly those
    characters: no NUL is written into another word. *)
Theorem parsecmd_words s :
  Forall (λ c, c ≠ 0) s →
  match parsecmd s with
  | Ok (c, buf) _ => ∀ w, w ∈ words c → word_ok s w ∧ string_at buf w.1 = text s w
  | Panic _ => True
  | _ => False
  end.
Proof.
  intros Hs. unfold parsecmd, bind. pose proof (parse_good s Hs) as Hg. destruct (parse s 0%nat) as [c i| | | |] eqn:E; try done.
  exact (parse_words s Hs c i E).
Qed.

Definition sample : list Z := bytes_of "(echo a b;ls -l)>>x | wc".

Lemma parsecmd_words_witness :
  match parsecmd sample with
  | Ok (c, buf) _ => (∀ w, w ∈ words c → word_ok sample w ∧ string_at buf w.1 = text sample w) ∧
      (λ w, string_at buf w.1) <$> words c = bytes_of <$> ["echo"; "a"; "b"; "ls"; "-l"; "x"; "wc"]
  | _ => False
  end.
Proof.
  pose proof (parsecmd_words sample ltac:(repeat constructor; done)) as H.
  let r := eval vm_compute in (parsecmd sample) in assert (parsecmd sample = r) as E by (vm_compute; reflexivity).
  rewrite E in H |- *. split; [exact H|vm_compute; reflexivity].
Defined.

(** ** A grammar of command lines *)

Inductive token : Type := TWord (w : list Z) | TSym (c : Z) | TAppend.
Definition tok_text (t : token) : list Z := match t with TWord w => w | TSym c => [c] | TAppend => [GT; GT] end.
Definition tok_kind (t : token) : Z := match t with TWord _ => WORD | TSym c => c | TAppend => PLUS end.
(** A spelling of a sequence of tokens: the white space after each. *)
Definition spelling : Type := list (token * list Z).
Definition spell (us : spelling) : list Z := concat ((λ u, tok_text u.1 ++ u.2) <$> us).

Definition word_chars (w : list Z) : Prop := w ≠ [] ∧ Forall (λ c, c ≠ 0 ∧ in_word c = true) w.
Definition tok_ok (t : token) : Prop :=
  match t with TWord w => word_chars w | TSym c => c ∈ symbols | TAppend => True end.

(** The first character of a token. *)
Definition first_char (t : token) : Z := match t with TWord w => default 0 (head w) | TSym c => c | TAppend => GT end.

(** White space may be left out where two tokens do not run together: a word
    ends before a symbol, and [>] before anything but another [>]. *)
Definition apart (t : token) (us : spelling) : Prop :=
  match us with
  | [] => True
  | (t', _) :: _ =>
      match t with
      | TWord _ => first_char t' ∈ symbols
      | TSym c => c = GT → first_char t' ≠ GT
      | TAppend => True
      end
  end.
Fixpoint seps_ok (us : spelling) : Prop :=
  match us with
  | [] => True
  | (t, w) :: us' => Forall (λ c, c ∈ whitespace) w ∧ (w = [] → apart t us') ∧ seps_ok us'
  end.

Inductive redir_op : Type := RIn | ROut | RAppend.
Definition op_token (o : redir_op) : token := match o with RIn => TSym LT | ROut => TSym GT | RAppend => TAppend end.
Definition op_mode (o : redir_op) : Z :=
  match o with
  | RIn => O_RDONLY
  | ROut => Z.lor (Z.lor O_WRONLY O_CREATE) O_TRUNC
  | RAppend => Z.lor O_WRONLY O_CREATE
  end.
Definition op_fd (o : redir_op) : Z := match o with RIn => 0 | _ => 1 end.

(** A simple command is words with redirections before, between and after
    them. *)
Definition redirections : Type := list (redir_op * list Z).
Inductive line : Type :=
| LEnd (p : pipeline) (n : nat)             (** [p & ... &] *)
| LSeq (p : pipeline) (n : nat) (l : line)  (** [p & ... & ; l] *)
with pipeline : Type :=
| POne (u : command)
| PPipe (u : command) (p : pipeline)
with command : Type :=
| Simple (rs : redirections) (args : list (list Z * redirections))
| Block (l : line) (rs : redirections).

Scheme line_mut := Induction for line Sort Prop
with pipeline_mut := Induction for pipeline Sort Prop
with command_mut := Induction for command Sort Prop.

Definition redir_tokens (rs : redirections) : list token := concat ((λ r, [op_token r.1; TWord r.2]) <$> rs).
Definition arg_tokens (args : list (list Z * redirections)) : list token :=
  concat ((λ a, TWord a.1 :: redir_tokens a.2) <$> args).

Fixpoint line_tokens (l : line) : list token :=
  match l with
  | LEnd p n => pipe_tokens p ++ replicate n (TSym AMP)
  | LSeq p n l => pipe_tokens p ++ replicate n (TSym AMP) ++ TSym SEMI :: line_tokens l
  end
with pipe_tokens (p : pipeline) : list token :=
  match p with
  | POne u => command_tokens u
  | PPipe u p => command_tokens u ++ TSym PIPE :: pipe_tokens p
  end
with command_tokens (u : command) : list token :=
  match u with
  | Simple rs args => redir_tokens rs ++ arg_tokens args
  | Block l rs => TSym LPAREN :: line_tokens l ++ TSym RPAREN :: redir_tokens rs
  end.

(** What a command means: its words as strings. *)
Inductive tree : Type :=
| TExec (argv : list (list Z))
| TRedir (t : tree) (file : list Z) (mode fd : Z)
| TPipe (l r : tree)
| TList (l r : tree)
| TBack (t : tree).

Definition redirected (t : tree) (rs : redirections) : tree :=
  foldl (λ t r, TRedir t r.2 (op_mode r.1) (op_fd r.1)) t rs.

Fixpoint line_tree (l : line) : tree :=
  match l with
  | LEnd p n => Nat.iter n TBack (pipe_tree p)
  | LSeq p n l => TList (Nat.iter n TBack (pipe_tree p)) (line_tree l)
  end
with pipe_tree (p : pipeline) : tree :=
  match p with
  | POne u => command_tree u
  | PPipe u p => TPipe (command_tree u) (pipe_tree p)
  end
with command_tree (u : command) : tree :=
  match u with
  | Simple rs args => redirected (TExec args.*1) (rs ++ concat args.*2)
  | Block l rs => redirected (line_tree l) rs
  end.

(** Words are words, and a command has fewer than [MAXARGS]. *)
Definition redirs_wf (rs : redirections) : Prop := Forall (λ r, word_chars r.2) rs.
Fixpoint line_wf (l : line) : Prop :=
  match l with
  | LEnd p _ => pipe_wf p
  | LSeq p _ l => pipe_wf p ∧ line_wf l
  end
with pipe_wf (p : pipeline) : Prop :=
  match p with
  | POne u => command_wf u
  | PPipe u p => command_wf u ∧ pipe_wf p
  end
with command_wf (u : command) : Prop :=
  match u with
  | Simple rs args =>
      redirs_wf rs ∧ (length args < MAXARGS)%nat ∧ Forall (λ a, word_chars a.1 ∧ redirs_wf a.2) args
  | Block l rs => line_wf l ∧ redirs_wf rs
  end.

(** The strings a parsed command refers to. *)
Fixpoint read_cmd (s : list Z) (c : cmd) : tree :=
  match c with
  | Exec argv => TExec (text s <$> argv)
  | Redir c r => TRedir (read_cmd s c) (text s (rd_file r, rd_efile r)) (rd_mode r) (rd_fd r)
  | Pipe l r => TPipe (read_cmd s l) (read_cmd s r)
  | List l r => TList (read_cmd s l) (read_cmd s r)
  | Back c => TBack (read_cmd s c)
  end.

(** ** The parser inverts printing *)
Section Print.
Context (s : list Z) (Hs : Forall (λ c, c ≠ 0) s).
Context (us : spelling) (Es : s = spell us) (Hus : Forall tok_ok us.*1) (Hsep : seps_ok us).

(** [i] is the start of the tokens [ts] that end the line. *)
Definition before (i : nat) (ts : list token) : Prop := ∃ a b, us = a ++ b ∧ i = length (spell a) ∧ b.*1 = ts.

Lemma spell_app a b : spell (a ++ b) = spell a ++ spell b.
Proof. unfold spell. by rewrite fmap_app, concat_app. Qed.

Lemma spell_cons t w b : spell ((t, w) :: b) = tok_text t ++ w ++ spell b.
Proof. unfold spell. cbn. by rewrite <- app_assoc. Qed.

Lemma before_es i ts : before i ts → (i ≤ es s)%nat.
Proof. intros (a & b & E & -> & _). unfold es. rewrite Es, E, spell_app, length_app. lia. Qed.

Lemma before_ok i ts : before i ts → Forall tok_ok ts.
Proof. intros (a & b & E & _ & <-). rewrite E, fmap_app in Hus. by apply Forall_app in Hus as [_ ?]. Qed.

Lemma seps_app a b : seps_ok (a ++ b) → seps_ok b.
Proof. induction a as [|[t w] a IH]; cbn; [done|]. intros (_ & _ & ?). auto. Qed.

Lemma spell_char a b k : us = a ++ b → char_at s (length (spell a) + k) = default 0 (spell b !! k).
Proof. intros E. unfold char_at. by rewrite Es, E, spell_app, lookup_app_r, Nat.add_comm, Nat.add_sub by lia. Qed.

Lemma before_nil i : before i [] → i = es s.
Proof.
  intros (a & b & E & -> & Hb). apply fmap_nil_inv in Hb as ->. unfold es. by rewrite Es, E, app_nil_r.
Qed.

Lemma skip_eq p i j :
  (i ≤ j ≤ es s)%nat → (∀ k, (i ≤ k < j)%nat → p (char_at s k) = true) → (j = es s ∨ p (char_at s j) = false) →
  skip s p (es s - i) i = j.
Proof.
  intros Hij Hp Hj. destruct (skip_spec s p i ltac:(lia)) as (Hr & H1 & H2). set (m := skip s p (es s - i) i) in *.
  destruct (Nat.lt_trichotomy m j) as [Hlt|[?|Hgt]]; [|done|].
  - rewrite Hp in H2 by lia. specialize (H2 ltac:(lia)). done.
  - destruct Hj as [?|Hj]; [lia|]. rewrite H1 in Hj by lia. done.
Qed.

Lemma in_word_nonwhite c : in_word c = true → is_white c = false ∧ in_set symbols c = false.
Proof. unfold in_word, is_white. intros [H1 H2]%andb_true_iff. by rewrite negb_true_iff in H1, H2. Qed.

Lemma symbols_nonwhite c : c ∈ symbols → is_white c = false ∧ c ≠ 0.
Proof.
  assert (Forall (λ c, is_white c = false ∧ c ≠ 0) symbols) as HF by (repeat constructor; done).
  by intros Hc; apply (proj1 (Forall_forall _ _) HF).
Qed.

Lemma first_char_ok t : tok_ok t → tok_text t !! 0%nat = Some (first_char t) ∧ is_white (first_char t) = false ∧ first_char t ≠ 0.
Proof.
  destruct t as [w|c|]; cbn.
  - intros [Hne Hw]. destruct w as [|c w]; [done|]. apply Forall_cons_1 in Hw as [[H0 Hc] _]. cbn.
    split; [done|]. split; [by apply in_word_nonwhite|done].
  - intros Hc. split; [done|]. by apply symbols_nonwhite.
  - done.
Qed.

Lemma before_first i t ts : before i (t :: ts) → char_at s i = first_char t ∧ (i < es s)%nat.
Proof.
  intros Hb. pose proof (before_ok i _ Hb) as Ht. apply Forall_cons_1 in Ht as [Ht _].
  destruct (first_char_ok t Ht) as (H0 & _ & Hne). destruct Hb as (a & [|[t' w] b] & E & -> & Hb); [done|]. injection Hb as -> Hb.
  pose proof (spell_char a _ 0 E) as Hc. rewrite Nat.add_0_r, spell_cons, lookup_app_l in Hc by (by eapply lookup_lt_Some).
  rewrite H0 in Hc. split; [done|]. pose proof (char_at_0 s Hs (length (spell a))) as H. rewrite Hc in H. cbn in H. lia.
Qed.

(** White space has been skipped. *)
Lemma before_stop i ts : before i ts → i = es s ∨ is_white (char_at s i) = false.
Proof.
  intros Hb. destruct ts as [|t ts]; [left; by apply before_nil|right]. destruct (before_first i t ts Hb) as [-> _].
  apply before_ok, Forall_cons_1 in Hb as [Ht _]. by apply first_char_ok.
Qed.

Lemma before_skip i ts : before i ts → skip_white s i = i.
Proof. intros Hb. pose proof (before_es i ts Hb). apply skip_eq; [lia|lia|]. by eapply before_stop. Qed.

Lemma peek_tok toks i ts :
  before i ts → peek s toks i = Ok (match ts with [] => false | t :: _ => in_set toks (first_char t) end) i.
Proof.
  intros Hb. unfold peek. rewrite bind_gets, bind_modify. unfold id. rewrite (before_skip i ts Hb). unfold ret. f_equal.
  destruct ts as [|t ts].
  - rewrite (before_nil i Hb), (proj2 (char_at_0 s Hs (es s))) by done. done.
  - destruct (before_first i t ts Hb) as [-> _]. apply before_ok, Forall_cons_1 in Hb as [Ht _].
    rewrite (proj2 (Z.eqb_neq _ _)); [done|]. by apply first_char_ok.
Qed.

Lemma peek_cons toks i t ts : before i (t :: ts) → peek s toks i = Ok (in_set toks (first_char t)) i.
Proof. exact (peek_tok toks i (t :: ts)). Qed.

(** After a token: the start of the next one, the white space between, and the
    character that ends the token. *)
Lemma before_next i t ts :
  before i (t :: ts) →
  ∃ i', before i' ts ∧ (i + length (tok_text t) ≤ i')%nat ∧
    (∀ k, (i + length (tok_text t) ≤ k < i')%nat → is_white (char_at s k) = true) ∧
    ((i + length (tok_text t))%nat = es s ∨ is_white (char_at s (i + length (tok_text t))) = true ∨
     match t with
     | TWord _ => char_at s (i + length (tok_text t)) ∈ symbols
     | TSym c => c = GT → char_at s (i + length (tok_text t)) ≠ GT
     | TAppend => True
     end).
Proof.
  intros (a & [|[t' w] b] & E & -> & Hb); [done|]. injection Hb as -> Hb.
  assert (us = (a ++ [(t, w)]) ++ b) as E' by (by rewrite <- app_assoc).
  pose proof Hsep as Hw. rewrite E in Hw. apply seps_app in Hw as (Hw & Hap & _).
  assert (length (spell (a ++ [(t, w)])) = length (spell a) + length (tok_text t) + length w)%nat as Hl.
  { rewrite spell_app, spell_cons, !length_app. cbn. lia. }
  assert (∀ k, (k < length w)%nat → is_white (char_at s (length (spell a) + length (tok_text t) + k)) = true) as Hwh.
  { intros k Hk. rewrite <- Nat.add_assoc, (spell_char a _ _ E), spell_cons, lookup_app_r, Nat.add_comm, Nat.add_sub by lia.
    rewrite lookup_app_l by done. destruct (lookup_lt_is_Some_2 w k Hk) as [x Hx]. rewrite Hx. cbn. apply in_set_true.
    by apply (Forall_lookup_1 _ _ _ _ Hw Hx). }
  exists (length (spell (a ++ [(t, w)]))). split; [by exists (a ++ [(t, w)]), b|]. rewrite Hl. split; [lia|]. split.
  - intros k Hk. replace k with (length (spell a) + length (tok_text t) + (k - length (spell a) - length (tok_text t)))%nat by lia.
    apply Hwh. lia.
  - destruct w as [|c w]; [|right; left; specialize (Hwh 0%nat); rewrite Nat.add_0_r in Hwh; apply Hwh; cbn; lia].
    assert (before (length (spell a) + length (tok_text t)) ts) as Hn.
    { exists (a ++ [(t, [])]), b. rewrite Hl. cbn. split_and!; [done|lia|done]. }
    specialize (Hap eq_refl). destruct b as [|[t1 w1] b]; [left; subst ts; by apply before_nil|right; right].
    subst ts. destruct (before_first _ t1 _ Hn) as [-> _]. by destruct t.
Qed.

Lemma symbol_in c : c ∈ symbols → c ≠ GT → in_set [PIPE; LPAREN; RPAREN; SEMI; AMP; LT] c = true.
Proof.
  rewrite in_set_true. unfold symbols. rewrite !elem_of_cons. fold LT PIPE GT AMP SEMI LPAREN RPAREN. naive_solver.
Qed.

Lemma word_not_symbol c : in_word c = true → in_set [PIPE; LPAREN; RPAREN; SEMI; AMP; LT] c = false ∧ c ≠ GT.
Proof.
  intros [_ Hc]%in_word_nonwhite. rewrite <- not_true_iff_false, in_set_true in *. unfold symbols in Hc.
  rewrite !elem_of_cons in Hc. fold LT PIPE GT AMP SEMI LPAREN RPAREN in Hc. split; [|naive_solver].
  rewrite !elem_of_cons. naive_solver.
Qed.

Lemma token_at_tok i t ts : before i (t :: ts) → token_at s i = (tok_kind t, (i + length (tok_text t))%nat).
Proof.
  intros Hb. destruct (before_first i t ts Hb) as [Hf Hlt]. destruct (before_next i t ts Hb) as (i' & Hn & Hi' & _ & Hend).
  pose proof (before_es _ _ Hn) as Hes. pose proof (before_ok _ _ Hb) as Ht. apply Forall_cons_1 in Ht as [Ht _].
  destruct (first_char_ok t Ht) as (_ & _ & Hne). unfold token_at. rewrite Hf, (proj2 (Z.eqb_neq _ _) Hne).
  destruct t as [w|c|]; cbn [tok_kind tok_text first_char length] in *.
  - destruct Ht as [Hw0 Hw]. destruct w as [|c w]; [done|]. pose proof Hw as Hw'. apply Forall_cons_1 in Hw' as [[_ Hc] _].
    change (default 0 (head (c :: w))) with c. destruct (word_not_symbol c Hc) as [-> Hg]. rewrite (proj2 (Z.eqb_neq _ _) Hg). f_equal.
    apply skip_eq; [lia| |].
    + intros k Hk. destruct Hb as (a & [|[t' wh] b] & E & -> & Hb); [done|]. injection Hb as -> Hb.
      replace k with (length (spell a) + (k - length (spell a)))%nat by lia. rewrite (spell_char a _ _ E), spell_cons.
      rewrite lookup_app_l by (cbn [tok_text]; lia). destruct (lookup_lt_is_Some_2 (c :: w) (k - length (spell a))) as [x Hx]; [lia|].
      cbn [tok_text]. rewrite Hx. by apply (Forall_lookup_1 _ _ _ _ Hw Hx).
    + destruct Hend as [->|[Hwh|Hsy]]; [by left|right..]; unfold in_word; apply andb_false_iff.
      * left. unfold is_white in Hwh. by rewrite Hwh.
      * right. apply in_set_true in Hsy. by rewrite Hsy.
  - destruct (decide (c = GT)) as [->|Hg].
    + change (in_set _ GT) with false. rewrite Z.eqb_refl. replace (char_at s (S i) =? GT) with false; [f_equal; lia|].
      symmetry. apply Z.eqb_neq. rewrite Nat.add_1_r in Hend. destruct Hend as [->|[Hwh|Hsy]]; [|by intros E; rewrite E in Hwh|by apply Hsy].
      by rewrite (proj2 (char_at_0 s Hs (es s))).
    + rewrite symbol_in by done. f_equal. lia.
  - assert (char_at s (S i) = GT) as ->.
    { destruct Hb as (a & [|[t' wh] b] & E & -> & Hb); [done|]. injection Hb as -> Hb.
      by rewrite <- Nat.add_1_r, (spell_char a _ _ E), spell_cons. }
    change (in_set _ GT) with false. rewrite !Z.eqb_refl. f_equal. lia.
Qed.

Lemma gettoken_tok i t ts :
  before i (t :: ts) →
  ∃ i', gettoken s i = Ok (tok_kind t, i, (i + length (tok_text t))%nat) i' ∧ before i' ts ∧ (i < i')%nat.
Proof.
  intros Hb. destruct (before_next i t ts Hb) as (i' & Hn & Hle & Hwh & _). exists i'.
  pose proof (before_ok _ _ Hb) as Ht. apply Forall_cons_1 in Ht as [Ht _].
  destruct (first_char_ok t Ht) as (H0 & _ & _). apply lookup_lt_Some in H0. split; [|split; [done|lia]].
  unfold gettoken. rewrite bind_gets. unfold id. rewrite (before_skip i _ Hb).
  rewrite (token_at_tok i t ts Hb), bind_modify. unfold ret. f_equal. pose proof (before_es _ _ Hn).
  apply skip_eq; [lia|done|]. by eapply before_stop.
Qed.

Lemma gettoken_end i : before i [] → gettoken s i = Ok (0, i, i) i.
Proof.
  intros Hb. pose proof (before_nil i Hb) as ->. unfold gettoken. rewrite bind_gets. unfold id.
  rewrite (before_skip _ _ Hb). unfold token_at. rewrite (proj2 (char_at_0 s Hs (es s))) by done. cbn [Z.eqb].
  rewrite bind_modify. unfold ret. by rewrite (before_skip _ _ Hb).
Qed.

Lemma text_tok i w ts : before i (TWord w :: ts) → text s (i, (i + length w)%nat) = w.
Proof.
  intros (a & [|[t' wh] b] & E & -> & Hb); [done|]. injection Hb as -> Hb. unfold text. cbn [fst snd].
  rewrite Es, E, spell_app, drop_app_length, spell_cons. cbn [tok_text].
  rewrite Nat.add_comm, Nat.add_sub. apply take_app_length.
Qed.

(** Fewer tokens are left further on. *)
Lemma before_le i i' a ts : before i (a ++ ts) → before i' ts → (i ≤ i')%nat.
Proof.
  intros (u1 & u2 & E & -> & H2) (v1 & v2 & E' & -> & H2').
  apply (f_equal length) in H2, H2'. rewrite length_fmap in H2, H2'. rewrite length_app in H2.
  rewrite E in E'. apply (f_equal (take (length v1))) in E' as Ev. rewrite take_app_length in Ev.
  pose proof (f_equal length E') as Hl. rewrite !length_app in Hl.
  rewrite <- Ev, take_app_ge, spell_app, length_app by lia. lia.
Qed.

(** The rest starts with a token whose first character is in [set], if any. *)
Definition starts (set : list Z) (ts : list token) : Prop := match ts with [] => True | t :: _ => first_char t ∈ set end.

Lemma peek_no toks set i ts :
  before i ts → starts set ts → (∀ c, c ∈ set → in_set toks c = false) → peek s toks i = Ok false i.
Proof. intros Hb Hst Hno. rewrite (peek_tok toks i ts Hb). destruct ts as [|t ts]; [done|]. by rewrite Hno. Qed.

Definition rd_read (r : redir) : list Z * Z * Z := (text s (rd_file r, rd_efile r), rd_mode r, rd_fd r).
Definition op_read (r : redir_op * list Z) : list Z * Z * Z := (r.2, op_mode r.1, op_fd r.1).

Definition NO_REDIR : list Z := [PIPE; AMP; SEMI; RPAREN].

Lemma redirs_tok rs n i ts :
  before i (redir_tokens rs ++ ts) → (∀ t ts', ts = t :: ts' → in_set [LT; GT] (first_char t) = false) → (es s < i + n)%nat →
  ∃ rl i', redirs s n i = Ok rl i' ∧ before i' ts ∧ rd_read <$> rl = op_read <$> rs.
Proof.
  revert n i. induction rs as [|[o w] rs IH]; intros n i Hb Hno Hn.
  - change (redir_tokens [] ++ ts) with ts in Hb. exists [], i. split; [|done]. destruct n; cbn [redirs]; (erewrite bind_ok by (by apply peek_tok));
      destruct ts as [|t ts]; try done; by rewrite (Hno t ts eq_refl).
  - destruct n as [|n]; [pose proof (before_es _ _ Hb); lia|]. cbn [redirs].
    change (redir_tokens ((o, w) :: rs) ++ ts) with (op_token o :: TWord w :: redir_tokens rs ++ ts) in Hb.
    erewrite bind_ok by exact (peek_cons _ _ _ _ Hb). replace (in_set [LT; GT] (first_char (op_token o))) with true by (by destruct o). cbv iota.
    destruct (gettoken_tok i _ _ Hb) as (i1 & E1 & Hb1 & Hi1). erewrite bind_ok by exact E1.
    destruct (gettoken_tok _ _ _ Hb1) as (i2 & E2 & Hb2 & Hi2). erewrite bind_ok by exact E2. cbn [tok_kind]. rewrite Z.eqb_refl. cbn [negb].
    destruct (IH n _ Hb2 Hno) as (rl & i' & E3 & Hb3 & Hrd); [lia|]. erewrite bind_ok by exact E3.
    eexists _, i'. split; [reflexivity|]. split; [done|].
    pose proof (text_tok _ _ _ Hb1) as Ht. cbn [fst snd tok_text] in *.
    destruct o; cbn; rewrite Hrd; unfold rd_read, op_read; cbn [rd_file rd_efile rd_mode rd_fd fst snd op_mode op_fd]; by rewrite Ht.
Qed.

Definition tredir (t : tree) (r : list Z * Z * Z) : tree := TRedir t r.1.1 r.1.2 r.2.

Lemma read_redirs c rl : read_cmd s (foldl Redir c rl) = foldl tredir (read_cmd s c) (rd_read <$> rl).
Proof. revert c. induction rl as [|r rl IH]; intros c; [done|]. cbn. by rewrite IH. Qed.

Lemma redirected_read t rs : redirected t rs = foldl tredir t (op_read <$> rs).
Proof. unfold redirected. revert t. induction rs as [|r rs IH]; intros t; [done|]. cbn. by rewrite IH. Qed.

Lemma word_first w : tok_ok (TWord w) → ∀ set, (∀ c, c ∈ set → c ∈ symbols) → in_set set (first_char (TWord w)) = false.
Proof.
  intros [Hne Hw] set Hset. destruct w as [|c w]; [done|]. apply Forall_cons_1 in Hw as [[_ Hc] _].
  cbn [first_char]. change (default 0 (head (c :: w))) with c. apply in_word_nonwhite in Hc as [_ Hc].
  apply not_true_iff_false. rewrite <- not_true_iff_false, in_set_true in Hc. rewrite in_set_true. auto.
Qed.

Lemma arg_first args ts :
  Forall tok_ok (arg_tokens args ++ ts) → starts NO_REDIR ts → ∀ t ts', arg_tokens args ++ ts = t :: ts' →
  in_set [LT; GT] (first_char t) = false ∧ in_set [LPAREN] (first_char t) = false.
Proof.
  intros Hok Hst t ts' E. destruct args as [|[w rs] args].
  - change (arg_tokens [] ++ ts) with ts in E. rewrite E in Hst. cbn in Hst.
    assert (Forall (λ c, in_set [LT; GT] c = false ∧ in_set [LPAREN] c = false) NO_REDIR) as HF by (repeat constructor).
    by apply (proj1 (Forall_forall _ _) HF).
  - injection E as <- _. apply Forall_cons_1 in Hok as [Hw _].
    split; apply word_first; try done; intros c; unfold symbols; rewrite !elem_of_cons, elem_of_nil; naive_solver.
Qed.

Lemma exec_loop_tok args n i argv rl ts :
  before i (arg_tokens args ++ ts) → starts NO_REDIR ts → (length argv + length args < MAXARGS)%nat → (es s < i + n)%nat →
  ∃ c i', exec_loop s n argv rl i = Ok c i' ∧ before i' ts ∧
    read_cmd s c = foldl tredir (TExec ((text s <$> argv) ++ args.*1)) ((rd_read <$> rl) ++ (op_read <$> concat args.*2)).
Proof.
  revert n i argv rl. induction args as [|[w rs] args IH]; intros n i argv rl Hb Hst Hlen Hn;
    (destruct n as [|n]; [pose proof (before_es _ _ Hb); lia|]); cbn [exec_loop].
  - change (arg_tokens [] ++ ts) with ts in Hb. erewrite bind_ok by (by apply peek_tok).
    exists (foldl Redir (Exec argv) rl), i. split; [|split; [done|]].
    + destruct ts as [|t ts]; [erewrite bind_ok by (by apply gettoken_end); done|].
      replace (in_set [PIPE; RPAREN; AMP; SEMI] (first_char t)) with true; [done|].
      symmetry. apply in_set_true. revert Hst. cbn. unfold NO_REDIR. rewrite !elem_of_cons. naive_solver.
    + rewrite read_redirs. cbn. by rewrite !app_nil_r.
  - change (arg_tokens ((w, rs) :: args) ++ ts) with (TWord w :: (redir_tokens rs ++ arg_tokens args) ++ ts) in Hb.
    rewrite <- app_assoc in Hb. assert (tok_ok (TWord w) ∧ Forall tok_ok (arg_tokens args ++ ts)) as [Hw Hok].
    { pose proof (before_ok _ _ Hb) as Hok. apply Forall_cons_1 in Hok as [? Hok]. by apply Forall_app in Hok as [_ ?]. }
    erewrite bind_ok by exact (peek_cons _ _ _ _ Hb).
    replace (in_set [PIPE; RPAREN; AMP; SEMI] (first_char (TWord w))) with false by (symmetry; apply word_first; [done|set_solver]).
    destruct (gettoken_tok i _ _ Hb) as (i1 & E1 & Hb1 & Hi1). erewrite bind_ok by exact E1. cbn [tok_kind tok_text] in *.
    replace (WORD =? 0) with false by done. rewrite Z.eqb_refl. cbn [negb]. cbn [length] in Hlen.
    replace (MAXARGS <=? length (argv ++ [(i, (i + length w)%nat)]))%nat with false
      by (symmetry; apply Nat.leb_gt; rewrite length_app; cbn [length]; lia).
    destruct (redirs_tok rs (S (es s)) _ _ Hb1) as (more & i2 & E2 & Hb2 & Hm); [|lia|].
    { intros t ts' E. by apply (arg_first args ts Hok Hst t ts' E). }
    erewrite bind_ok by exact E2. pose proof (before_le _ _ _ _ Hb1 Hb2) as Hle.
    destruct (IH n i2 (argv ++ [(i, (i + length w)%nat)]) (rl ++ more) Hb2 Hst) as (c & i' & E3 & Hb3 & Hc);
      [rewrite length_app; cbn [length]; lia|lia|].
    exists c, i'. split; [done|]. split; [done|]. rewrite Hc, !fmap_app, Hm, <- !app_assoc. cbn.
    pose proof (text_tok _ _ _ Hb) as Ht. unfold text in Ht. cbn in Ht. by rewrite Ht, fmap_app.
Qed.

Lemma backs_tok k n i c ts :
  before i (replicate k (TSym AMP) ++ ts) → (∀ t ts', ts = t :: ts' → in_set [AMP] (first_char t) = false) → (es s < i + n)%nat →
  ∃ c' i', backs s n c i = Ok c' i' ∧ before i' ts ∧ read_cmd s c' = Nat.iter k TBack (read_cmd s c).
Proof.
  revert n i c. induction k as [|k IH]; intros n i c Hb Hno Hn; (destruct n as [|n]; [pose proof (before_es _ _ Hb); lia|]); cbn [backs].
  - cbn [replicate app] in Hb. erewrite bind_ok by (by apply peek_tok). exists c, i. split; [|done].
    destruct ts as [|t ts]; [done|]. by rewrite (Hno t ts eq_refl).
  - cbn [replicate app] in Hb. erewrite bind_ok by exact (peek_cons _ _ _ _ Hb).
    replace (in_set [AMP] (first_char (TSym AMP))) with true by done. cbv iota.
    destruct (gettoken_tok i _ _ Hb) as (i1 & E1 & Hb1 & Hi1). erewrite bind_ok by exact E1.
    destruct (IH n _ (Back c) Hb1 Hno) as (c' & i' & E & Hb' & Hc); [lia|]. exists c', i'. split; [done|]. split; [done|].
    rewrite Hc. cbn [read_cmd]. symmetry. apply Nat.iter_succ_r.
Qed.

(** The parser at the text of a line, a pipeline or a command, with enough fuel. *)
Definition parses (p : nat → K nat cmd) (extra : nat) (toks : list token) (wf : Prop) (t : tree) (follow : list Z) : Prop :=
  ∀ n i ts, wf → before i (toks ++ ts) → starts follow ts → (4 * (es s - i) + extra ≤ n)%nat →
  ∃ c i', p n i = Ok c i' ∧ before i' ts ∧ read_cmd s c = t.

Lemma simple_parses rs args :
  parses (parseexec s) 2 (command_tokens (Simple rs args)) (command_wf (Simple rs args)) (command_tree (Simple rs args)) NO_REDIR.
Proof.
  intros n i ts (_ & Hlen & _) Hb Hst Hn. destruct n as [|n]; [lia|]. cbn [parseexec command_tokens] in *. rewrite <- app_assoc in Hb.
  assert (peek s [LPAREN] i = Ok false i) as E.
  { rewrite (peek_tok _ _ _ Hb). destruct rs as [|[o w] rs]; [|by destruct o].
    destruct (arg_tokens args ++ ts) as [|t ts'] eqn:Eat; [done|]. pose proof (before_ok _ _ Hb) as Hok.
    change (redir_tokens [] ++ t :: ts') with (t :: ts') in *. rewrite <- Eat in Hok. cbv iota. by rewrite (proj2 (arg_first args ts Hok Hst t ts' Eat)). }
  erewrite bind_ok by exact E. assert (Forall tok_ok (arg_tokens args ++ ts)) as Hok.
  { pose proof (before_ok _ _ Hb) as Hok. by apply Forall_app in Hok as [_ ?]. }
  destruct (redirs_tok rs (S (es s)) i _ Hb) as (rl & i1 & E1 & Hb1 & Hrl); [|lia|].
  { intros t ts' Et. by apply (arg_first args ts Hok Hst t ts' Et). }
  erewrite bind_ok by exact E1.
  destruct (exec_loop_tok args (S (es s)) i1 [] rl ts Hb1 Hst) as (c & i' & E2 & Hb2 & Hc); [cbn; lia|lia|].
  exists c, i'. split; [done|]. split; [done|]. rewrite Hc, Hrl, <- fmap_app. cbn. by rewrite redirected_read.
Qed.

Lemma block_parses l rs :
  parses (parseline s) 4 (line_tokens l) (line_wf l) (line_tree l) [RPAREN] →
  parses (parseexec s) 2 (command_tokens (Block l rs)) (command_wf (Block l rs)) (command_tree (Block l rs)) NO_REDIR.
Proof.
  intros IH n i ts [Hl _] Hb Hst Hn. destruct n as [|[|n]]; [lia..|]. cbn [parseexec parseblock command_tokens] in *.
  cbn [app] in Hb. rewrite <- app_assoc in Hb. cbn [app] in Hb.
  pose proof (peek_cons [LPAREN] _ _ _ Hb) as E. change (in_set [LPAREN] _) with true in E.
  erewrite bind_ok by exact E. cbv iota. erewrite bind_ok by exact E. cbn [negb].
  destruct (gettoken_tok _ _ _ Hb) as (i1 & E1 & Hb1 & Hlt). erewrite bind_ok by exact E1.
  destruct (IH n _ _ Hl Hb1) as (c & i2 & E2 & Hb2 & Hc); [cbn; by constructor|pose proof (before_es _ _ Hb1); lia|].
  erewrite bind_ok by exact E2. erewrite bind_ok by exact (peek_cons _ _ _ _ Hb2). change (in_set [RPAREN] _) with true. cbn [negb].
  destruct (gettoken_tok _ _ _ Hb2) as (i3 & E3 & Hb3 & Hi3). erewrite bind_ok by exact E3.
  destruct (redirs_tok rs (S (es s)) _ _ Hb3) as (rl & i4 & E4 & Hb4 & Hrl); [|lia|].
  { intros t ts' Et. apply (arg_first [] ts) with (ts' := ts'); [|done|done]. by apply before_ok, Forall_app in Hb3 as [_ ?]. }
  unfold parseredirs. erewrite bind_ok by exact E4. eexists _, i4. split; [reflexivity|]. split; [done|].
  cbn [command_tree]. by rewrite read_redirs, Hrl, Hc, redirected_read.
Qed.

Lemma one_parses u :
  parses (parseexec s) 2 (command_tokens u) (command_wf u) (command_tree u) NO_REDIR →
  parses (parsepipe s) 3 (pipe_tokens (POne u)) (pipe_wf (POne u)) (pipe_tree (POne u)) [RPAREN; AMP; SEMI].
Proof.
  intros IH n i ts Hu Hb Hst Hn. destruct n as [|n]; [lia|]. cbn [parsepipe pipe_tokens] in *.
  destruct (IH n i ts Hu Hb) as (c & i1 & E1 & Hb1 & Hc); [|lia|].
  { destruct ts as [|t ts]; [done|]. revert Hst. cbn. unfold NO_REDIR. rewrite !elem_of_cons. naive_solver. }
  erewrite bind_ok by exact E1. assert (peek s [PIPE] i1 = Ok false i1) as E2.
  { apply (peek_no _ _ _ _ Hb1 Hst). intros x. rewrite !elem_of_cons, elem_of_nil. by intros [->|[->|[->|[]]]]. }
  erewrite bind_ok by exact E2. by exists c, i1.
Qed.

Lemma pipe_parses u p :
  parses (parseexec s) 2 (command_tokens u) (command_wf u) (command_tree u) NO_REDIR →
  parses (parsepipe s) 3 (pipe_tokens p) (pipe_wf p) (pipe_tree p) [RPAREN; AMP; SEMI] →
  parses (parsepipe s) 3 (pipe_tokens (PPipe u p)) (pipe_wf (PPipe u p)) (pipe_tree (PPipe u p)) [RPAREN; AMP; SEMI].
Proof.
  intros IHu IHp n i ts [Hu Hp] Hb Hst Hn. destruct n as [|n]; [lia|]. cbn [parsepipe pipe_tokens] in *.
  rewrite <- app_assoc in Hb. cbn [app] in Hb. destruct (IHu n i _ Hu Hb) as (c & i1 & E1 & Hb1 & Hc); [by constructor|lia|].
  erewrite bind_ok by exact E1. erewrite bind_ok by exact (peek_cons _ _ _ _ Hb1). change (in_set [PIPE] _) with true. cbv iota.
  pose proof (before_le _ _ _ _ Hb Hb1) as Hle.
  destruct (gettoken_tok _ _ _ Hb1) as (i2 & E2 & Hb2 & Hlt). erewrite bind_ok by exact E2.
  destruct (IHp n _ _ Hp Hb2 Hst) as (r & i3 & E3 & Hb3 & Hr); [pose proof (before_es _ _ Hb2); lia|].
  erewrite bind_ok by exact E3. eexists _, i3. split; [reflexivity|]. split; [done|]. cbn. by rewrite Hc, Hr.
Qed.

(** A pipeline and the [&]s after it. *)
Lemma pipe_backs p k n i ts :
  parses (parsepipe s) 3 (pipe_tokens p) (pipe_wf p) (pipe_tree p) [RPAREN; AMP; SEMI] →
  pipe_wf p → before i (pipe_tokens p ++ replicate k (TSym AMP) ++ ts) → starts [RPAREN; SEMI] ts → (4 * (es s - i) + 3 ≤ n)%nat →
  ∃ c c' i1 i', parsepipe s n i = Ok c i1 ∧ backs s (S (es s)) c i1 = Ok c' i' ∧ before i' ts ∧
    (i ≤ i')%nat ∧ read_cmd s c' = Nat.iter k TBack (pipe_tree p).
Proof.
  intros IH Hp Hb Hst Hn. destruct (IH n i _ Hp Hb) as (c & i1 & E1 & Hb1 & Hc); [|done|].
  { destruct k as [|k]; [|by constructor; constructor]. destruct ts as [|t ts]; [done|]. revert Hst. cbn. rewrite !elem_of_cons. naive_solver. }
  destruct (backs_tok k (S (es s)) i1 c ts Hb1) as (c' & i' & E2 & Hb2 & Hc'); [|lia|].
  { intros t ts' ->. revert Hst. cbn. rewrite !elem_of_cons, elem_of_nil. by intros [->|[->|[]]]. }
  exists c, c', i1, i'. split_and!; try done; [|by rewrite Hc', Hc].
  rewrite app_assoc in Hb. by apply (before_le _ _ _ _ Hb Hb2).
Qed.

Lemma end_parses p k :
  parses (parsepipe s) 3 (pipe_tokens p) (pipe_wf p) (pipe_tree p) [RPAREN; AMP; SEMI] →
  parses (parseline s) 4 (line_tokens (LEnd p k)) (line_wf (LEnd p k)) (line_tree (LEnd p k)) [RPAREN].
Proof.
  intros IH n i ts Hp Hb Hst Hn. destruct n as [|n]; [lia|]. cbn [parseline line_tokens line_wf] in *. rewrite <- app_assoc in Hb.
  destruct (pipe_backs p k n i ts IH Hp Hb) as (c & c' & i1 & i' & E1 & E2 & Hb2 & _ & Hc); [|lia|].
  { destruct ts as [|t ts]; [done|]. revert Hst. cbn. rewrite !elem_of_cons. naive_solver. }
  erewrite bind_ok by exact E1. erewrite bind_ok by exact E2. assert (peek s [SEMI] i' = Ok false i') as E3.
  { apply (peek_no _ _ _ _ Hb2 Hst). by intros x ->%list_elem_of_singleton. }
  erewrite bind_ok by exact E3. by exists c', i'.
Qed.

Lemma seq_parses p k l :
  parses (parsepipe s) 3 (pipe_tokens p) (pipe_wf p) (pipe_tree p) [RPAREN; AMP; SEMI] →
  parses (parseline s) 4 (line_tokens l) (line_wf l) (line_tree l) [RPAREN] →
  parses (parseline s) 4 (line_tokens (LSeq p k l)) (line_wf (LSeq p k l)) (line_tree (LSeq p k l)) [RPAREN].
Proof.
  intros IHp IHl n i ts [Hp Hl] Hb Hst Hn. destruct n as [|n]; [lia|]. cbn [parseline line_tokens] in *.
  rewrite <- !app_assoc in Hb. cbn [app] in Hb.
  destruct (pipe_backs p k n i _ IHp Hp Hb) as (c & c' & i1 & i' & E1 & E2 & Hb2 & Hle & Hc); [by constructor; constructor|lia|].
  erewrite bind_ok by exact E1. erewrite bind_ok by exact E2.
  erewrite bind_ok by exact (peek_cons _ _ _ _ Hb2). change (in_set [SEMI] _) with true. cbv iota.
  destruct (gettoken_tok _ _ _ Hb2) as (i3 & E3 & Hb3 & Hlt). erewrite bind_ok by exact E3.
  destruct (IHl n _ _ Hl Hb3 Hst) as (r & i4 & E4 & Hb4 & Hr); [pose proof (before_es _ _ Hb3); lia|].
  erewrite bind_ok by exact E4. eexists _, i4. split; [reflexivity|]. split; [done|]. cbn. by rewrite Hc, Hr.
Qed.

Lemma line_parses l : parses (parseline s) 4 (line_tokens l) (line_wf l) (line_tree l) [RPAREN].
Proof.
  apply (line_mut (λ l, parses (parseline s) 4 (line_tokens l) (line_wf l) (line_tree l) [RPAREN])
    (λ p, parses (parsepipe s) 3 (pipe_tokens p) (pipe_wf p) (pipe_tree p) [RPAREN; AMP; SEMI])
    (λ u, parses (parseexec s) 2 (command_tokens u) (command_wf u) (command_tree u) NO_REDIR));
    eauto using end_parses, seq_parses, one_parses, pipe_parses, simple_parses, block_parses.
Qed.

End Print.

Lemma redir_tokens_ok rs : redirs_wf rs → Forall tok_ok (redir_tokens rs).
Proof.
  unfold redirs_wf, redir_tokens. induction 1 as [|[o w] rs Hw _ IH]; [constructor|].
  cbn. constructor; [destruct o; cbn; unfold symbols; set_solver|by constructor].
Qed.

Lemma arg_tokens_ok args : Forall (λ a, word_chars a.1 ∧ redirs_wf a.2) args → Forall tok_ok (arg_tokens args).
Proof.
  unfold arg_tokens. induction 1 as [|[w rs] args [Hw Hrs] _ IH]; [constructor|].
  cbn. constructor; [done|]. apply Forall_app_2; [by apply redir_tokens_ok|done].
Qed.

Lemma symbol_ok c : in_set symbols c = true → tok_ok (TSym c).
Proof. apply in_set_true. Qed.

Lemma line_tokens_ok l : line_wf l → Forall tok_ok (line_tokens l).
Proof.
  apply (line_mut (λ l, line_wf l → Forall tok_ok (line_tokens l)) (λ p, pipe_wf p → Forall tok_ok (pipe_tokens p))
    (λ u, command_wf u → Forall tok_ok (command_tokens u))); cbn; intros;
    repeat match goal with H : _ ∧ _ |- _ => destruct H end;
    repeat first [apply Forall_app_2 | apply Forall_cons_2 | apply Forall_replicate | by apply symbol_ok];
    auto using redir_tokens_ok, arg_tokens_ok.
Qed.

Lemma spell_no_nul us : Forall tok_ok us.*1 → seps_ok us → Forall (λ c, c ≠ 0) (spell us).
Proof.
  induction us as [|[t w] us IH]; [constructor|]. cbn. intros Ht (Hw & _ & Hsep). apply Forall_cons_1 in Ht as [Ht Hts].
  change (spell ((t, w) :: us)) with ((tok_text t ++ w) ++ spell us). apply Forall_app_2; [apply Forall_app_2|auto].
  - destruct t as [w'|c|]; cbn in *; [|constructor; [by apply symbols_nonwhite|done]|by repeat constructor].
    eapply Forall_impl; [apply Ht|]. by intros c [? _].
  - eapply Forall_impl; [exact Hw|]. intros c Hc ->. revert Hc. unfold whitespace. rewrite !elem_of_cons, elem_of_nil. naive_solver.
Qed.

(** The tree of a command in memory: each word is the C string its pointer
    points at. *)
Fixpoint cmd_strings (buf : list Z) (c : cmd) : tree :=
  match c with
  | Exec argv => TExec ((λ w, string_at buf w.1) <$> argv)
  | Redir c r => TRedir (cmd_strings buf c) (string_at buf (rd_file r)) (rd_mode r) (rd_fd r)
  | Pipe l r => TPipe (cmd_strings buf l) (cmd_strings buf r)
  | List l r => TList (cmd_strings buf l) (cmd_strings buf r)
  | Back c => TBack (cmd_strings buf c)
  end.

Lemma cmd_strings_read s buf c :
  (∀ w, w ∈ words c → string_at buf w.1 = text s w) → cmd_strings buf c = read_cmd s c.
Proof.
  induction c as [argv|c IH r|l IHl r IHr|l IHl r IHr|c IH]; cbn; intros Hw; f_equal; auto.
  - apply list_fmap_ext. intros k w Hk. apply Hw. by eapply list_elem_of_lookup_2.
  - apply IH. intros w Hin. apply Hw, elem_of_app. by left.
  - apply (Hw (rd_file r, rd_efile r)), elem_of_app. right. by apply list_elem_of_singleton.
  - apply IHl. intros w Hin. apply Hw, elem_of_app. by left.
  - apply IHr. intros w Hin. apply Hw, elem_of_app. by right.
  - apply IHl. intros w Hin. apply Hw, elem_of_app. by left.
  - apply IHr. intros w Hin. apply Hw, elem_of_app. by right.
Qed.

(** The parser at a line of the grammar. *)
Lemma spelling_parsed l us (s := spell us) :
  line_wf l → us.*1 = line_tokens l → seps_ok us →
  Forall (λ c, c ≠ 0) s ∧
  ∃ c, parseline s (4 * es s + 4) 0%nat = Ok c (es s) ∧ peek s [] (es s) = Ok false (es s) ∧ read_cmd s c = line_tree l.
Proof.
  intros Hl Hus Hsep. pose proof (line_tokens_ok l Hl) as Hok. rewrite <- Hus in Hok.
  pose proof (spell_no_nul us Hok Hsep) as Hs. fold s in Hs. split; [done|].
  assert (before us 0 (line_tokens l ++ [])) as Hb by (exists [], us; by rewrite app_nil_r).
  destruct (line_parses s Hs us eq_refl Hok Hsep l (4 * es s + 4)%nat 0%nat [] Hl Hb I) as (c & i & E & Hb' & Hc); [lia|].
  pose proof (before_nil s us eq_refl i Hb') as ->.
  exists c. split_and!; [done| |done]. exact (peek_tok s Hs us eq_refl Hok [] _ _ Hb').
Qed.

Lemma spelling_strings l us c (s := spell us) :
  parse s 0%nat = Ok c (es s) → Forall (λ c, c ≠ 0) s → read_cmd s c = line_tree l →
  cmd_strings (nulterminate c (s ++ [0])) c = line_tree l.
Proof.
  intros Ep Hs Hc. rewrite <- Hc. apply cmd_strings_read. intros w Hw. by apply (parse_words s Hs c (es s) Ep w Hw).
Qed.

Lemma spelling_parse l us (s := spell us) :
  line_wf l → us.*1 = line_tokens l → seps_ok us →
  ∃ c, parse s 0%nat = Ok c (es s) ∧ cmd_strings (nulterminate c (s ++ [0])) c = line_tree l.
Proof.
  intros Hl Hus Hsep. destruct (spelling_parsed l us Hl Hus Hsep) as (Hs & c & E & Ep & Hc). fold s in Hs, E, Ep, Hc.
  assert (parse s 0%nat = Ok c (es s)) as Epa.
  { unfold parse. erewrite bind_ok by exact E. erewrite bind_ok by exact Ep. rewrite bind_gets. unfold id. by rewrite Nat.eqb_refl. }
  exists c. split; [done|]. by apply spelling_strings.
Qed.

(** C39: Every spelling of a command line of the grammar (lists, background
    commands, pipelines, parenthesised blocks, redirections anywhere among the
    words; any white space between the tokens, or none where they do not run
    together) is parsed, and the tree built, its words read as C strings after
    [nulterminate], is the tree of the line. *)
Theorem parsecmd_roundtrip l us :
  line_wf l → us.*1 = line_tokens l → seps_ok us →
  ∃ c buf i, parsecmd (spell us) = Ok (c, buf) i ∧ cmd_strings buf c = line_tree l.
Proof.
  intros Hl Hus Hsep. destruct (spelling_parse l us Hl Hus Hsep) as (c & Ep & Hc).
  eexists c, _, _. split; [|exact Hc]. unfold parsecmd. by erewrite bind_ok by exact Ep.
Qed.

(** [(echo a> x)|wc&; ls], with its newline. *)
Definition sample_grammar : line :=
  LSeq (PPipe (Block (LEnd (POne (Simple [] [(bytes_of "echo", []); (bytes_of "a", [(ROut, bytes_of "x")])])) 0) [])
              (POne (Simple [] [(bytes_of "wc", [])]))) 1
       (LEnd (POne (Simple [] [(bytes_of "ls", [])])) 0).

Definition sample_spelling : spelling :=
  zip (line_tokens sample_grammar) [[]; [32]; []; [32]; []; []; []; []; []; [32]; [10]].

Lemma parsecmd_roundtrip_witness :
  spell sample_spelling = bytes_of "(echo a> x)|wc&; ls" ++ [10] ∧
  ∃ c buf i, parsecmd (spell sample_spelling) = Ok (c, buf) i ∧ cmd_strings buf c = line_tree sample_grammar.
Proof.
  split; [vm_compute; reflexivity|]. apply parsecmd_roundtrip; [|vm_compute; reflexivity|].
  - cbn. unfold redirs_wf, word_chars, MAXARGS. repeat (split || constructor || done); cbn; lia.
  - cbn. unfold whitespace, symbols. repeat (split || constructor || done || intros _).
Defined.
