(* ===== verification/Uprog.v ===== *)
(** * User programs and the system calls they make ([user/user.h])

    A program is a tree of system calls: [Call c k] makes the call [c] and goes
    on with [k] from the value it returns and what the kernel stored through
    its pointer argument.  The tree of a program is finite between two loop
    heads; a loop is a [Goto] to a point of the program, whose code is [body].

    [accept] says which answers the kernel can give, by the table of open files
    of the process, with the rule of [fdalloc] in [kernel/sysfile.c] that a new
    descriptor is the lowest free one.  On it there are three views of a
    program: [life], the run of one process; [runs], the processes a program
    forks, as a tree; and [step], processes that take turns in any order.  The
    theorems: every interleaved execution is a tree of runs, and processes that
    wait for their children never block each other for ever. *)

From Stdlib Require Import ZArith Lia.
From S2P Require Import Prelude Params Printf Uprintf Ulib.
From stdpp Require Import base gmap strings numbers list.

Open Scope Z_scope.

(** ** The calls of [user.h] *)
Inductive call : Type :=
| CFork
| CWait
| CPipe
| CWrite (fd : Z) (b : list Z)
| CRead (fd n : Z)
| CClose (fd : Z)
| CKill (pid : Z)
| CExec (path : list Z) (argv : list (list Z))
| COpen (path : list Z) (mode : Z)
| CMknod (path : list Z) (major minor : Z)
| CUnlink (path : list Z)
| CFstat (fd : Z)
| CLink (old new : list Z)
| CMkdir (path : list Z)
| CChdir (path : list Z)
| CDup (fd : Z)
| CGetpid
| CPause (n : Z)
| CUptime
| CSetpowermode (pid mode : Z)
| CSetcpulimit (pid limit : Z)
| CGetcputicks (pid : Z)
| CGetsyshealth
| CSetusagelimit (pid max_ticks : Z)
| CGetusagestats (pid : Z).

#[export] Instance call_eq_dec : EqDecision call.
Proof. solve_decision. Defined.

(** The value returned, and what was stored through a pointer: the bytes of
    [read], the descriptors of [pipe], the fields of a structure. *)
Definition answer : Type := Z * list Z.

Inductive prog (X : Type) : Type :=
| Call (c : call) (k : answer → prog X)
| Exit (status : Z)
| Goto (x : X).
Arguments Call {X} c k.
Arguments Exit {X} status.
Arguments Goto {X} x.

(** Code that yields a value, in continuation-passing style. *)
Definition U (X A : Type) : Type := (A → prog X) → prog X.

Section Code.
Context {X : Type}.
#[global] Instance U_ret : MRet (U X) := λ A a k, k a.
#[global] Instance U_bind : MBind (U X) := λ A B f m k, m (λ a, f a k).

Definition sys (c : call) : U X answer := λ k, Call c k.
Definition sysz (c : call) : U X Z := λ k, Call c (λ a, k a.1).
Definition exit {A} (status : Z) : U X A := λ _, Exit status.
Definition goto {A} (x : X) : U X A := λ _, Goto x.

(** [write(fd, &c, 1)] for each byte, as [putc] of [user/printf.c]. *)
Fixpoint emit (fd : Z) (bs : list Z) : U X unit :=
  match bs with
  | [] => mret tt
  | c :: bs' => sysz (CWrite fd [c]) ;; emit fd bs'
  end.
Definition fprintf (fd : Z) (fmt : list Z) (ap : list varg) : U X unit :=
  emit fd (default [] (vprintf user_digits fmt ap)).
Definition printf (fmt : list Z) (ap : list varg) : U X unit := fprintf 1 fmt ap.
End Code.

(** A string argument of [printf], and a format that ends the line. *)
Definition str (s : list Z) : varg := VStr (Some s).
Definition ln (fmt : string) : list Z := bytes_of fmt ++ [10].

(** ** The answers of the kernel *)

(** What a descriptor refers to. *)
Inductive obj : Type :=
| OFile (path : list Z) (mode : Z)
| OPipeR (id : nat)
| OPipeW (id : nat)
| OGiven (n : nat).
#[export] Instance obj_eq_dec : EqDecision obj.
Proof. solve_decision. Defined.

(** [p->ofile] *)
Notation fds := (list (option obj)).

Definition file_at (t : fds) (fd : Z) : option obj := if fd <? 0 then None else mjoin (t !! Z.to_nat fd).
Definition lowest (t : fds) : option nat := fst <$> list_find (λ o, o = None) t.

(** The table after the call, if the kernel can give this answer; [id] names
    the pipe a call makes. *)
Definition accept (id : nat) (t : fds) (c : call) (a : answer) : option fds :=
  let '(z, out) := a in
  match c with
  | CFork | CWait => if (-1 <=? z) && bool_decide (out = []) then Some t else None
  | CExec _ _ => if (z =? -1) && bool_decide (out = []) then Some t else None
  | CClose fd =>
      match file_at t fd with
      | Some _ => if z =? 0 then Some (<[Z.to_nat fd := None]> t) else None
      | None => if z =? -1 then Some t else None
      end
  | CDup fd =>
      match file_at t fd, lowest t with
      | Some o, Some n => if z =? Z.of_nat n then Some (<[n := Some o]> t) else None
      | _, _ => if z =? -1 then Some t else None
      end
  | COpen path mode =>
      if z =? -1 then Some t
      else match lowest t with
           | Some n => if z =? Z.of_nat n then Some (<[n := Some (OFile path mode)]> t) else None
           | None => None
           end
  | CPipe =>
      if z =? -1 then Some t
      else match lowest t with
           | Some r =>
               let t := <[r := Some (OPipeR id)]> t in
               match lowest t with
               | Some w =>
                   if (z =? 0) && bool_decide (out = [Z.of_nat r; Z.of_nat w])
                   then Some (<[w := Some (OPipeW id)]> t) else None
               | None => None
               end
           | None => None
           end
  | CRead fd n =>
      if (z =? -1) && bool_decide (out = []) then Some t
      else if bool_decide (is_Some (file_at t fd)) && (z <=? n) && (Z.of_nat (length out) =? z) then Some t
      else None
  | CWrite fd b =>
      if z =? -1 then Some t
      else if bool_decide (is_Some (file_at t fd)) && (0 <=? z) && (z <=? Z.of_nat (length b)) then Some t
      else None
  | _ => Some t
  end.

(** ** The run of one process *)

Inductive ending : Type := Exited (status : Z) | Execed (path : list Z) (argv : list (list Z)).

Section Runs.
Context {X : Type} (body : X → prog X).

Definition unroll (p : prog X) : prog X := match p with Goto x => body x | _ => p end.

(** The calls a process makes when the kernel gives the answers [l], with what
    ends the run: an exit, or an [exec] that succeeds; [None] if the answers
    are not the ones of a complete run. *)
Fixpoint life (t : fds) (l : list answer) (p : prog X) : option (list (call * answer) * ending) :=
  match unroll p with
  | Exit z => match l with [] => Some ([], Exited z) | _ => None end
  | Call c k =>
      match l, c with
      | [], CExec path argv => Some ([], Execed path argv)
      | [], _ => None
      | a :: l', _ =>
          match accept 0 t c a with
          | Some t' => match life t' l' (k a) with Some (tr, e) => Some ((c, a) :: tr, e) | None => None end
          | None => None
          end
      end
  | Goto _ => None
  end.

(** The calls a process makes on the answers [l], as far as they last, and what
    it goes on with. *)
Fixpoint trail (l : list answer) (p : prog X) : list (call * answer) * prog X :=
  match l with
  | [] => ([], p)
  | a :: l' =>
      match unroll p with
      | Call c k => let '(tr, q) := trail l' (k a) in ((c, a) :: tr, q)
      | q => ([], q)
      end
  end.

Lemma life_call t t' a l c k tr e :
  accept 0 t c a = Some t' → life t' l (k a) = Some (tr, e) → life t (a :: l) (Call c k) = Some ((c, a) :: tr, e).
Proof. intros Ha Hl. cbn. by rewrite Ha, Hl. Qed.

Lemma life_goto t l x c k : body x = Call c k → life t l (Goto x) = life t l (body x).
Proof. intros E. rewrite E. destruct l; cbn; by rewrite E. Qed.

Lemma life_exit t z : life t [] (Exit z) = Some ([], Exited z).
Proof. done. Qed.

(** What was written to a descriptor. *)
Definition written (fd : Z) (tr : list (call * answer)) : list Z :=
  concat ((λ ca, match ca.1 with CWrite fd' b => if fd' =? fd then take (Z.to_nat ca.2.1) b else [] | _ => [] end) <$> tr).

Lemma life_emit fd bs t l k tr e :
  is_Some (file_at t fd) → life t l (k tt) = Some (tr, e) →
  ∃ tr', life t (replicate (length bs) (1, []) ++ l) (emit fd bs k) = Some (tr', e) ∧
    ∀ fd', written fd' tr' = (if fd =? fd' then bs else []) ++ written fd' tr.
Proof.
  intros Hfd Hl. induction bs as [|c bs IH]; [exists tr; split; [done|]; intros fd'; by destruct (fd =? fd')|].
  destruct IH as (tr' & E & Hw). eexists. split.
  - apply (life_call t t); [|exact E]. cbn. by rewrite bool_decide_eq_true_2.
  - intros fd'. unfold written in *. cbn. rewrite Hw. by destruct (fd =? fd').
Qed.

(** ** The processes a program makes *)

(** What is seen of a process: the program an [exec] starts with its open
    files, a pipe made, a [wait] with the files open, and a failure of
    [fork], [pipe], [open] or [exec]. *)
Inductive event : Type :=
| Started (path : list Z) (argv : list (list Z)) (t : fds)
| Piped (id : nat)
| Waited (t : fds)
| Failed.

Definition seen (id : nat) (t : fds) (c : call) (z : Z) : list event :=
  match c with
  | CFork | COpen _ _ | CExec _ _ => if z =? -1 then [Failed] else []
  | CPipe => if z =? -1 then [Failed] else [Piped id]
  | CWait => [Waited t]
  | _ => []
  end.

(** The events of a process and of all it forks: the child's before the
    parent's, whatever the order in time. *)
Inductive runs : prog X → fds → list event → Prop :=
| runs_exit z t : runs (Exit z) t []
| runs_goto x t js : runs (body x) t js → runs (Goto x) t js
| runs_exec path argv k t : runs (Call (CExec path argv) k) t [Started path argv t]
| runs_fork k q t j1 j2 :
    0 < q → runs (k (0, [])) t j1 → runs (k (q, [])) t j2 → runs (Call CFork k) t (j1 ++ j2)
| runs_call id c k a t t' js :
    (c = CFork → a.1 = -1) → accept id t c a = Some t' → runs (k a) t' js →
    runs (Call c k) t (seen id t c a.1 ++ js).
#[local] Hint Constructors runs : core.

(** ** Processes that take turns *)

Inductive status : Type :=
| Running (p : prog X)
| Loaded (path : list Z) (argv : list (list Z))  (* runs the program it has loaded *)
| Zombie
| Reaped.

Record uproc : Type := mkProc { u_status : status; u_fds : fds; u_parent : option nat }.

(** The process with pid [i + 1] is the [i]-th; pids are not used again. *)

Definition pid (i : nat) : Z := Z.of_nat i + 1.

Definition finished (p : uproc) : Prop := match u_status p with Running _ | Loaded _ _ => False | _ => True end.
Definition settled (p : uproc) : Prop := match u_status p with Running _ => False | _ => True end.

Definition with_status (st : status) (p : uproc) : uproc := mkProc st (u_fds p) (u_parent p).
(** [reparent]: the children of [i] go to the first process. *)
Definition adopt (i : nat) (p : uproc) : uproc :=
  mkProc (u_status p) (u_fds p) (if decide (u_parent p = Some i) then Some 0%nat else u_parent p).
Definition child_of (s : list uproc) (i j : nat) : bool :=
  match s !! j with
  | Some p => bool_decide (u_parent p = Some i) && negb (match u_status p with Reaped => true | _ => false end)
  | None => false
  end.

Inductive step : list uproc → list event → list uproc → Prop :=
| step_goto s i x t q :
    s !! i = Some (mkProc (Running (Goto x)) t q) →
    step s [] (<[i := mkProc (Running (body x)) t q]> s)
| step_call s i id c k a t t' q :
    s !! i = Some (mkProc (Running (Call c k)) t q) → c ≠ CFork → c ≠ CWait →
    accept id t c a = Some t' →
    step s (seen id t c a.1) (<[i := mkProc (Running (k a)) t' q]> s)
| step_exec s i path argv k t q :
    s !! i = Some (mkProc (Running (Call (CExec path argv) k)) t q) →
    step s [Started path argv t] (<[i := mkProc (Loaded path argv) t q]> s)
| step_fork s i k t q :
    s !! i = Some (mkProc (Running (Call CFork k)) t q) →
    step s [] (<[i := mkProc (Running (k (pid (length s), []))) t q]> s ++ [mkProc (Running (k (0, []))) t (Some i)])
| step_fork_fail s i k t q :
    s !! i = Some (mkProc (Running (Call CFork k)) t q) →
    step s [Failed] (<[i := mkProc (Running (k (-1, []))) t q]> s)
| step_wait s i j k t q p :
    s !! i = Some (mkProc (Running (Call CWait k)) t q) →
    s !! j = Some p → u_status p = Zombie → child_of s i j = true →
    step s [Waited t] (<[j := with_status Reaped p]> (<[i := mkProc (Running (k (pid j, []))) t q]> s))
| step_wait_none s i k t q :
    s !! i = Some (mkProc (Running (Call CWait k)) t q) → (∀ j, child_of s i j = false) →
    step s [Waited t] (<[i := mkProc (Running (k (-1, []))) t q]> s)
| step_exit s i z t q :
    s !! i = Some (mkProc (Running (Exit z)) t q) → i ≠ 0%nat →
    step s [] (<[i := mkProc Zombie ((λ _, None) <$> t) q]> (adopt i <$> s))
| step_loaded s i path argv t q :
    s !! i = Some (mkProc (Loaded path argv) t q) → i ≠ 0%nat →
    step s [] (<[i := mkProc Zombie ((λ _, None) <$> t) q]> (adopt i <$> s)).

Inductive steps : nat → list uproc → list event → list uproc → Prop :=
| steps_nil s : steps 0 s [] s
| steps_cons n s1 tr1 s2 tr2 s3 : step s1 tr1 s2 → steps n s2 tr2 s3 → steps (S n) s1 (tr1 ++ tr2) s3.

(** ** Every interleaving is a tree of runs *)

(** The events still to come from a process. *)
Definition owes (p : uproc) (js : list event) : Prop :=
  match u_status p with Running c => runs c (u_fds p) js | _ => js = [] end.

Lemma concat_insert {A} i (x y z : list A) J :
  J !! i = Some x → y ≡ₚ z ++ x → concat (<[i := y]> J) ≡ₚ z ++ concat J.
Proof.
  revert i. induction J as [|w J IH]; intros [|i] Hi Hy; simplify_eq/=.
  - by rewrite Hy, app_assoc.
  - rewrite (IH i Hi Hy), !app_assoc. f_equiv. apply Permutation_app_comm.
Qed.

(** A step of process [i] that leaves what the others owe. *)
Lemma owes_step (s1 s2 : list uproc) i p ev J :
  length s1 = length s2 → s1 !! i = Some p →
  (∀ p' js, s2 !! i = Some p' → owes p' js → owes p (ev ++ js)) →
  (∀ j a b js, j ≠ i → s1 !! j = Some a → s2 !! j = Some b → owes b js → owes a js) →
  Forall2 owes s2 J → ∃ J', Forall2 owes s1 J' ∧ concat J' ≡ₚ ev ++ concat J.
Proof.
  intros Hlen Hi Hp Hj HJ.
  destruct (lookup_lt_is_Some_2 s2 i) as [p' Hi']; [rewrite <- Hlen; by eapply lookup_lt_Some|].
  destruct (Forall2_lookup_l _ _ _ _ _ HJ Hi') as (js & HJi & Hjs).
  exists (<[i := ev ++ js]> J). split; [|by apply (concat_insert _ js)].
  pose proof (lookup_lt_Some _ _ _ HJi). pose proof (Forall2_length _ _ _ HJ). apply Forall2_same_length_lookup_2.
  - rewrite length_insert. lia.
  - intros j a js' Ha Hl. destruct (decide (j = i)) as [->|].
    + rewrite list_lookup_insert_eq in Hl by done. simplify_eq. by eapply Hp.
    + rewrite list_lookup_insert_ne in Hl by done.
      destruct (Forall2_lookup_r _ _ _ _ _ HJ Hl) as (b & Hb & ?). by eapply Hj.
Qed.

(** The others owe the same. *)
Lemma insert_others (s : list uproc) i p' j a b js :
  j ≠ i → s !! j = Some a → <[i := p']> s !! j = Some b → owes b js → owes a js.
Proof. intros ? ? Hb. rewrite list_lookup_insert_ne in Hb by done. by simplify_eq. Qed.

Lemma owes_insert (s : list uproc) i p p' ev J :
  s !! i = Some p → (∀ js, owes p' js → owes p (ev ++ js)) →
  Forall2 owes (<[i := p']> s) J → ∃ J', Forall2 owes s J' ∧ concat J' ≡ₚ ev ++ concat J.
Proof.
  intros Hi Hp. apply (owes_step s _ i p); [by rewrite length_insert|done| |].
  - intros p1 js H1. rewrite list_lookup_insert_eq in H1 by (by eapply lookup_lt_Some). simplify_eq. apply Hp.
  - intros j a b js Hj Ha. by apply (insert_others s i p' j a b js).
Qed.

Lemma owes_adopt i p js : owes (adopt i p) js ↔ owes p js.
Proof. done. Qed.

Lemma owes_exit (s : list uproc) i p p' J :
  s !! i = Some p → (∀ js, owes p' js → owes p js) →
  Forall2 owes (<[i := p']> (adopt i <$> s)) J → ∃ J', Forall2 owes s J' ∧ concat J' ≡ₚ concat J.
Proof.
  intros Hi Hp. apply (owes_step s _ i p []); [by rewrite length_insert, length_fmap|done| |].
  - intros p1 js H1. rewrite list_lookup_insert_eq in H1 by (rewrite length_fmap; by eapply lookup_lt_Some).
    simplify_eq. apply Hp.
  - intros j a b js Hj Ha Hb. rewrite list_lookup_insert_ne, list_lookup_fmap, Ha in Hb by done.
    simplify_eq/=. apply owes_adopt.
Qed.

Lemma owes_fork (s : list uproc) i p p' ch J :
  s !! i = Some p → (∀ j1 j2, owes ch j1 → owes p' j2 → owes p (j1 ++ j2)) →
  Forall2 owes (<[i := p']> s ++ [ch]) J → ∃ J', Forall2 owes s J' ∧ concat J' ≡ₚ concat J.
Proof.
  intros Hi Hp HJ. apply Forall2_app_inv_l in HJ as (J1 & J2 & H1 & H2 & ->).
  apply Forall2_cons_inv_l in H2 as (j1 & J3 & Hj1 & H2 & ->). apply Forall2_nil_inv_l in H2 as ->.
  destruct (owes_insert s i p p' j1 J1 Hi) as (J' & ? & E); [intros js; by apply Hp|done|].
  exists J'. split; [done|]. rewrite E, concat_app. cbn. rewrite app_nil_r. apply Permutation_app_comm.
Qed.

(** The process and, for [wait], the child it reaps. *)
Lemma owes_reap (s : list uproc) i j p p' c ev J :
  s !! i = Some p → s !! j = Some c → i ≠ j → u_status c = Zombie → (∀ js, owes p' js → owes p (ev ++ js)) →
  Forall2 owes (<[j := with_status Reaped c]> (<[i := p']> s)) J →
  ∃ J', Forall2 owes s J' ∧ concat J' ≡ₚ ev ++ concat J.
Proof.
  intros Hi Hj Hne Hc Hp. apply (owes_step s _ i p); [by rewrite !length_insert|done| |].
  - intros p1 js H1. rewrite list_lookup_insert_ne, list_lookup_insert_eq in H1 by (done || by eapply lookup_lt_Some).
    simplify_eq. apply Hp.
  - intros j' a b js Hj' Ha Hb. destruct (decide (j' = j)) as [->|].
    + rewrite list_lookup_insert_eq in Hb by (rewrite length_insert; by eapply lookup_lt_Some).
      simplify_eq/=. unfold owes. by rewrite Hc.
    + rewrite list_lookup_insert_ne in Hb by done. by eapply (insert_others s i p' j' a b js).
Qed.

Lemma step_owes s ev s' J :
  step s ev s' → Forall2 owes s' J → ∃ J', Forall2 owes s J' ∧ concat J' ≡ₚ ev ++ concat J.
Proof.
  intros Hs. destruct Hs as
    [s i x t q Hi|s i id c k a t t' q Hi Hf Hw Ha|s i path argv k t q Hi|s i k t q Hi|s i k t q Hi
    |s i j k t q p Hi Hj Hz Hij|s i k t q Hi Hn|s i z t q Hi Hn|s i path argv t q Hi Hn].
  - apply (owes_insert _ _ _ _ _ _ Hi). intros js Hjs. by constructor.
  - apply (owes_insert _ _ _ _ _ _ Hi). intros js Hjs. by eapply runs_call.
  - apply (owes_insert _ _ _ _ _ _ Hi). intros js ->. constructor.
  - apply (owes_fork _ _ _ _ _ _ Hi). intros j1 j2 H1 H2. eapply runs_fork; [|exact H1|exact H2]. unfold pid. lia.
  - apply (owes_insert _ _ _ _ _ _ Hi). intros js Hjs. by apply (runs_call 0 CFork k (-1, []) t t js).
  - apply (owes_reap _ _ _ _ _ _ _ _ Hi Hj); [by intros ->; simplify_eq|done|]. intros js Hjs.
    apply (runs_call 0 CWait k (pid j, []) t t js); [done| |done]. cbn. by rewrite (proj2 (Z.leb_le _ _)) by (unfold pid; lia).
  - apply (owes_insert _ _ _ _ _ _ Hi). intros js Hjs. by apply (runs_call 0 CWait k (-1, []) t t js).
  - apply (owes_exit _ _ _ _ _ Hi). intros js ->. constructor.
  - by apply (owes_exit _ _ _ _ _ Hi).
Qed.

(** The events of an execution that leaves no program of this code running
    are those of the trees of runs of the processes it started from, in some
    order. *)
Lemma steps_runs n s tr s' :
  steps n s tr s' → Forall settled s' → ∃ J, Forall2 owes s J ∧ tr ≡ₚ concat J.
Proof.
  induction 1 as [s|n s1 tr1 s2 tr2 s3 Hs _ IH]; intros Hd.
  - exists (replicate (length s) []). split.
    + apply Forall2_replicate_r; [done|]. eapply Forall_impl; [exact Hd|]. intros [[] ? ?]; by cbn.
    + by induction (length s).
  - destruct (IH Hd) as (J & HJ & E). destruct (step_owes _ _ _ _ Hs HJ) as (J' & HJ' & E').
    exists J'. split; [done|]. by rewrite E', E.
Qed.

(** ** What a run says of its first call *)

Lemma runs_call_inv c k t js :
  c ≠ CFork → runs (Call c k) t js →
  (∃ path argv, c = CExec path argv ∧ js = [Started path argv t]) ∨
  ∃ id a t' js', accept id t c a = Some t' ∧ runs (k a) t' js' ∧ js = seen id t c a.1 ++ js'.
Proof. intros ? H. inversion H; simplify_eq; [left; eauto|right; eauto 10]. Qed.

Lemma runs_fork_inv k t js :
  runs (Call CFork k) t js →
  (∃ q j1 j2, 0 < q ∧ runs (k (0, [])) t j1 ∧ runs (k (q, [])) t j2 ∧ js = j1 ++ j2) ∨
  ∃ js', runs (k (-1, [])) t js' ∧ js = Failed :: js'.
Proof.
  intros H. inversion H as [| | | |id c k' [z out] ? t' js' Hz Ha Hr]; simplify_eq; [left; eauto 10|right].
  specialize (Hz eq_refl). cbn in *. subst z. cbn in Ha. case_bool_decide; simplify_eq/=. eauto.
Qed.

Lemma runs_exit_inv z t js : runs (Exit z) t js → js = [].
Proof. by inversion 1. Qed.

Lemma runs_write_inv fd b k t js : runs (Call (CWrite fd b) k) t js → ∃ a, runs (k a) t js.
Proof.
  intros H. apply runs_call_inv in H as [(? & ? & ? & _)|(id & [z out] & t' & js' & Ha & Hr & ->)]; [done| |done].
  cbn in Ha. exists (z, out). repeat case_match; by simplify_eq.
Qed.

Lemma runs_emit_inv fd bs k t js : runs (emit fd bs k) t js → runs (k tt) t js.
Proof.
  revert k. induction bs as [|c bs IH]; intros k H; [done|].
  apply runs_write_inv in H as (a & H). by apply IH.
Qed.

Lemma runs_close_inv fd o k t js :
  file_at t fd = Some o → runs (sysz (CClose fd) k) t js → runs (k 0) (<[Z.to_nat fd := None]> t) js.
Proof.
  intros Ho H. apply runs_call_inv in H as [(? & ? & ? & _)|(id & [z out] & t' & js' & Ha & Hr & ->)]; [done| |done].
  cbn in Ha. rewrite Ho in Ha. case_match eqn:Ez; simplify_eq. apply Z.eqb_eq in Ez as ->. done.
Qed.

Lemma runs_dup_inv fd o n k t js :
  file_at t fd = Some o → lowest t = Some n → runs (sysz (CDup fd) k) t js →
  runs (k (Z.of_nat n)) (<[n := Some o]> t) js.
Proof.
  intros Ho Hn H. apply runs_call_inv in H as [(? & ? & ? & _)|(id & [z out] & t' & js' & Ha & Hr & ->)]; [done| |done].
  cbn in Ha. rewrite Ho, Hn in Ha. case_match eqn:Ez; simplify_eq. apply Z.eqb_eq in Ez as ->. done.
Qed.

Lemma runs_open_inv path mode n k t js :
  lowest t = Some n → runs (sysz (COpen path mode) k) t js →
  runs (k (Z.of_nat n)) (<[n := Some (OFile path mode)]> t) js ∨
  ∃ js', runs (k (-1)) t js' ∧ js = Failed :: js'.
Proof.
  intros Hn H. apply runs_call_inv in H as [(? & ? & ? & _)|(id & [z out] & t' & js' & Ha & Hr & ->)]; [done| |done].
  cbn in Ha |- *. rewrite Hn in Ha. case_match eqn:Em; simplify_eq.
  - apply Z.eqb_eq in Em as ->. right. eauto.
  - case_match eqn:Ez; simplify_eq. apply Z.eqb_eq in Ez as ->. by left.
Qed.

Lemma runs_pipe_inv r w k t js :
  lowest t = Some r → (∀ o, lowest (<[r := Some o]> t) = Some w) → runs (sys CPipe k) t js →
  (∃ id js', runs (k (0, [Z.of_nat r; Z.of_nat w])) (<[w := Some (OPipeW id)]> (<[r := Some (OPipeR id)]> t)) js' ∧
             js = Piped id :: js') ∨
  ∃ out js', runs (k (-1, out)) t js' ∧ js = Failed :: js'.
Proof.
  intros Hr Hw H. apply runs_call_inv in H as [(? & ? & ? & _)|(id & [z out] & t' & js' & Ha & Hk & ->)]; [done| |done].
  cbn in Ha |- *. rewrite Hr, Hw in Ha. case_match eqn:Em; simplify_eq.
  - apply Z.eqb_eq in Em as ->. right. eauto.
  - case_match eqn:Ez; simplify_eq. apply andb_true_iff in Ez as [Ez Eo].
    apply Z.eqb_eq in Ez as ->. apply bool_decide_eq_true in Eo as ->. left. eauto.
Qed.

Lemma runs_wait_inv k t js : runs (sysz CWait k) t js → ∃ z js', runs (k z) t js' ∧ js = Waited t :: js'.
Proof.
  intros H. apply runs_call_inv in H as [(? & ? & ? & _)|(id & [z out] & t' & js' & Ha & Hk & ->)]; [done| |done].
  cbn in Ha |- *. case_match; simplify_eq. eauto.
Qed.

(** ** Waiting processes do not block each other *)

Lemma accept_total t c : c ≠ CFork → c ≠ CWait → ∃ a t', accept 0 t c a = Some t'.
Proof.
  intros ? ?. destruct c; try done; try by (eexists (-1, []), _; cbn; done).
  - destruct (file_at t fd) as [o|] eqn:E.
    + by eexists (0, []), _; cbn; rewrite E.
    + by eexists (-1, []), _; cbn; rewrite E.
  - destruct (file_at t fd) as [o|] eqn:E, (lowest t) as [n|] eqn:En.
    + by eexists (Z.of_nat n, []), _; cbn; rewrite E, En, Z.eqb_refl.
    + by eexists (-1, []), _; cbn; rewrite E, En.
    + by eexists (-1, []), _; cbn; rewrite E.
    + by eexists (-1, []), _; cbn; rewrite E.
Qed.

(** A process is younger than its parent. *)
Definition parents_ok (s : list uproc) : Prop :=
  ∀ j p i, s !! j = Some p → u_parent p = Some i → (i < j)%nat.

Lemma parents_insert s i p p' :
  s !! i = Some p → u_parent p' = u_parent p → parents_ok s → parents_ok (<[i := p']> s).
Proof.
  intros Hi Hp Hs j a q Ha Hq. apply list_lookup_insert_Some in Ha as [(-> & -> & _)|(_ & Ha)]; [|by eapply Hs].
  rewrite Hp in Hq. by eapply Hs.
Qed.
Lemma parents_exit s i p p' :
  s !! i = Some p → u_parent p' = u_parent p → parents_ok s → parents_ok (<[i := p']> (adopt i <$> s)).
Proof.
  intros Hi Hp Hs j a q Ha Hq. apply list_lookup_insert_Some in Ha as [(-> & -> & _)|(_ & Ha)].
  - rewrite Hp in Hq. by eapply Hs.
  - rewrite list_lookup_fmap in Ha. destruct (s !! j) as [b|] eqn:E; simplify_eq/=.
    case_decide as Hd; simplify_eq; [pose proof (Hs j b i E Hd); lia|by eapply Hs].
Qed.

Lemma step_parents s ev s' : step s ev s' → parents_ok s → parents_ok s'.
Proof.
  destruct 1 as [| | |s i k t q Hi| |s i j k t q p Hi Hj Hz _| |s i z t q Hi _|s i path argv t q Hi _]; intros Hs.
  1-3, 5, 7: by eapply parents_insert.
  - intros j a p Ha Hp. apply lookup_app_Some in Ha as [Ha|[Hl Ha]].
    + by refine (parents_insert s i _ _ Hi _ Hs j a p Ha Hp).
    + apply list_lookup_singleton_Some in Ha as [? <-]. simplify_eq/=. rewrite length_insert in *.
      apply lookup_lt_Some in Hi. lia.
  - eapply (parents_insert _ j p); [|done|by eapply parents_insert].
    rewrite list_lookup_insert_ne; [done|]. intros ->. by simplify_eq.
  - by apply (parents_exit s i _ _ Hi).
  - by apply (parents_exit s i _ _ Hi).
Qed.

Lemma steps_parents n s tr s' : steps n s tr s' → parents_ok s → parents_ok s'.
Proof. induction 1; [done|]. eauto using step_parents. Qed.

(** A process that has not finished can go on, or waits for a younger one that
    has not finished. *)
Lemma progress s i p :
  parents_ok s → s !! i = Some p → i ≠ 0%nat → ¬ finished p →
  (∃ ev s', step s ev s') ∨ ∃ j q, s !! j = Some q ∧ (i < j)%nat ∧ ¬ finished q.
Proof.
  intros Hs Hi H0 Hp. destruct p as [[c|path argv| |] t q]; try by destruct Hp.
  2: { left. by eexists _, _; eapply step_loaded. }
  destruct c as [c k|z|x].
  2,3: left; by eexists _, _; eauto using step_exit, step_goto.
  destruct (decide (c = CFork)) as [->|]; [left; by eexists _, _; eapply step_fork|].
  destruct (decide (c = CWait)) as [->|].
  2: { destruct (accept_total t c) as (a & t' & Ha); [done|done|]. left. by eexists _, _; eapply step_call. }
  destruct (list_find (λ j, child_of s i j = true) (seq 0 (length s))) as [[j' j]|] eqn:E.
  - apply list_find_Some in E as (_ & Hj & _). pose proof Hj as Hc. unfold child_of in Hc.
    destruct (s !! j) as [b|] eqn:Ej; [|done]. apply andb_true_iff in Hc as [Hc Hr]. apply bool_decide_eq_true in Hc.
    destruct (u_status b) eqn:Eb; [right|right|left|done].
    1,2: exists j, b; unfold finished; rewrite Eb; naive_solver.
    by eexists _, _; eapply step_wait.
  - left. eexists _, _. eapply step_wait_none; [done|]. intros j. apply list_find_None in E.
    destruct (child_of s i j) eqn:Ej; [|done]. exfalso. eapply (proj1 (Forall_forall _ _) E j); [|done].
    apply elem_of_seq. unfold child_of in Ej. destruct (s !! j) eqn:El; [|done]. apply lookup_lt_Some in El. lia.
Qed.

Lemma no_deadlock s i p :
  parents_ok s → s !! i = Some p → i ≠ 0%nat → ¬ finished p → ∃ ev s', step s ev s'.
Proof.
  intros Hs. remember (length s - i)%nat as n eqn:Hn. revert i p Hn.
  induction (lt_wf n) as [n _ IH]. intros i p Hn Hi H0 Hp.
  destruct (progress s i p Hs Hi H0 Hp) as [|(j & q & Hj & Hij & Hq)]; [done|].
  pose proof (lookup_lt_Some _ _ _ Hj). eapply (IH (length s - j)%nat); [lia|done|done|lia|done].
Qed.

(** ** Programs that take a bounded number of steps *)

(** The steps of a process and of its children. *)
Inductive bounded : nat → prog X → Prop :=
| bounded_exit n z : bounded (S n) (Exit z)
| bounded_call n c k : c ≠ CFork → (∀ a, bounded n (k a)) → bounded (S n) (Call c k)
| bounded_fork n m k :
    (∀ q, 0 < q → bounded n (k (q, []))) → bounded n (k (-1, [])) → bounded m (k (0, [])) →
    bounded (S (n + m)) (Call CFork k).

Definition within (p : uproc) (n : nat) : Prop :=
  match u_status p with Running c => bounded n c | Loaded _ _ => (0 < n)%nat | _ => True end.

Lemma bounded_pos n p : bounded n p → (0 < n)%nat.
Proof. destruct 1; lia. Qed.

Lemma bounded_mono n m p : bounded n p → (n ≤ m)%nat → bounded m p.
Proof.
  intros H. revert m. induction H as [n z|n c k Hc _ IH|n l k _ IH1 _ IH2 _ IH3]; intros m Hm.
  - destruct m; [lia|constructor].
  - destruct m as [|m]; [lia|]. constructor; [done|]. intros a. apply IH. lia.
  - destruct m as [|m]; [lia|]. replace m with (m - l + l)%nat by lia. constructor; [intros q Hq; apply IH1; [done|lia]|apply IH2; lia|by apply IH3].
Qed.

Lemma bounded_emit n fd bs k : bounded n (k tt) → bounded (length bs + n) (emit fd bs k).
Proof. intros H. induction bs as [|c bs IH]; [done|]. by constructor. Qed.

Lemma sum_list_insert i n m (N : list nat) :
  N !! i = Some n → (sum_list (<[i := m]> N) + n = sum_list N + m)%nat.
Proof. revert i. induction N as [|x N IH]; intros [|i] Hi; simplify_eq/=; [lia|]. specialize (IH i Hi). lia. Qed.

(** A step of process [i] that costs it, and leaves the others. *)
Lemma within_step (s1 s2 : list uproc) i p n m N :
  length s1 = length s2 → s1 !! i = Some p → N !! i = Some n → (m < n)%nat →
  (∀ p', s2 !! i = Some p' → within p' m) →
  (∀ j a b l, j ≠ i → s1 !! j = Some a → s2 !! j = Some b → within a l → within b l) →
  Forall2 within s1 N → Forall2 within s2 (<[i := m]> N) ∧ (sum_list (<[i := m]> N) < sum_list N)%nat.
Proof.
  intros Hlen Hi HN Hm Hp Hj Hs. split; [|pose proof (sum_list_insert i n m N HN); lia].
  pose proof (lookup_lt_Some _ _ _ HN). pose proof (Forall2_length _ _ _ Hs).
  apply Forall2_same_length_lookup_2; [rewrite length_insert; lia|]. intros j b l Hb Hl.
  destruct (decide (j = i)) as [->|].
  - rewrite list_lookup_insert_eq in Hl by done. simplify_eq. by apply Hp.
  - rewrite list_lookup_insert_ne in Hl by done. destruct (Forall2_lookup_r _ _ _ _ _ Hs Hl) as (a & Ha & ?).
    by eapply Hj.
Qed.

Lemma within_insert s i p p' n m N :
  s !! i = Some p → N !! i = Some n → (m < n)%nat → within p' m → Forall2 within s N →
  Forall2 within (<[i := p']> s) (<[i := m]> N) ∧ (sum_list (<[i := m]> N) < sum_list N)%nat.
Proof.
  intros Hi HN Hm Hp Hs. eapply (within_step s _ i p); eauto; [by rewrite length_insert| |].
  - intros p1 H1. rewrite list_lookup_insert_eq in H1 by (by eapply lookup_lt_Some). by simplify_eq.
  - intros j a b l Hj Ha Hb. rewrite list_lookup_insert_ne in Hb by done. by simplify_eq.
Qed.

Lemma within_exit s i p p' n N :
  s !! i = Some p → N !! i = Some n → (0 < n)%nat → finished p' → Forall2 within s N →
  ∃ N', Forall2 within (<[i := p']> (adopt i <$> s)) N' ∧ (sum_list N' < sum_list N)%nat.
Proof.
  intros Hi HN Hn Hp Hs. exists (<[i := 0%nat]> N).
  eapply (within_step s _ i p n 0); eauto; [by rewrite length_insert, length_fmap| |].
  - intros p1 H1. rewrite list_lookup_insert_eq in H1 by (rewrite length_fmap; by eapply lookup_lt_Some).
    simplify_eq. red. red in Hp. by destruct (u_status p1).
  - intros j a b l Hj Ha Hb. rewrite list_lookup_insert_ne, list_lookup_fmap, Ha in Hb by done. by simplify_eq/=.
Qed.

Lemma within_reap s i j p p' c n m N :
  s !! i = Some p → s !! j = Some c → i ≠ j → N !! i = Some n → (m < n)%nat → within p' m → Forall2 within s N →
  ∃ N', Forall2 within (<[j := with_status Reaped c]> (<[i := p']> s)) N' ∧ (sum_list N' < sum_list N)%nat.
Proof.
  intros Hi Hj Hne HN Hm Hp Hs. exists (<[i := m]> N). eapply (within_step s _ i p); eauto; [by rewrite !length_insert| |].
  - intros p1 H1. rewrite list_lookup_insert_ne, list_lookup_insert_eq in H1 by (done || by eapply lookup_lt_Some).
    by simplify_eq.
  - intros j' a b l Hj' Ha Hb. destruct (decide (j' = j)) as [->|].
    + rewrite list_lookup_insert_eq in Hb by (rewrite length_insert; by eapply lookup_lt_Some). by simplify_eq.
    + rewrite !list_lookup_insert_ne in Hb by done. by simplify_eq.
Qed.

Lemma within_fork s i p p' ch n m l N :
  s !! i = Some p → N !! i = Some n → (m + l < n)%nat → within p' m → within ch l → Forall2 within s N →
  ∃ N', Forall2 within (<[i := p']> s ++ [ch]) N' ∧ (sum_list N' < sum_list N)%nat.
Proof.
  intros Hi HN Hm Hp Hc Hs. exists (<[i := m]> N ++ [l]). split.
  - apply Forall2_app; [|by repeat constructor]. eapply (within_insert s i p p' n m); eauto. lia.
  - rewrite sum_list_with_app. cbn. pose proof (sum_list_insert i n m N HN). lia.
Qed.

Lemma step_within s ev s' N :
  step s ev s' → Forall2 within s N → ∃ N', Forall2 within s' N' ∧ (sum_list N' < sum_list N)%nat.
Proof.
  intros Hst Hs.
  assert (∀ i p, s !! i = Some p → ∃ n, N !! i = Some n ∧ within p n) as HN.
  { intros i p Hi. by destruct (Forall2_lookup_l _ _ _ _ _ Hs Hi) as (n & ? & ?); exists n. }
  destruct Hst as
    [s i x t q Hi|s i id c k a t t' q Hi Hf Hw Ha|s i path argv k t q Hi|s i k t q Hi|s i k t q Hi
    |s i j k t q p Hi Hj Hz Hij|s i k t q Hi Hn|s i z t q Hi Hn|s i path argv t q Hi Hn];
    destruct (HN _ _ Hi) as (n & HNi & Hb); cbn in Hb.
  1: by inversion Hb.
  1-7: inversion Hb as [|n' ? ? ? Hk|n1 n2 ? Hk Hk1 Hk0]; simplify_eq; try done.
  - eexists. eapply (within_insert s i _ _ (S n') n'); eauto. apply Hk.
  - eexists. eapply (within_insert s i _ _ (S n') n'); eauto. apply (bounded_pos _ _ (Hk (0, []))).
  - eapply (within_fork s i _ _ _ _ n1 n2); [done|done|lia|apply Hk; unfold pid; lia|done|done].
  - eexists. eapply (within_insert s i _ _ _ n1); eauto. lia.
  - eapply (within_reap s i j _ _ _ _ n'); [done|done|by intros ->; simplify_eq|done|lia|apply Hk|done].
  - eexists. eapply (within_insert s i _ _ _ n'); eauto. apply Hk.
  - eapply (within_exit s i); [done|done|lia|done|done].
  - by eapply (within_exit s i).
Qed.

(** No execution takes more steps than the processes it starts from may. *)
Lemma steps_bounded n s tr s' N : steps n s tr s' → Forall2 within s N → (n ≤ sum_list N)%nat.
Proof.
  intros Hs. revert N. induction Hs as [s|n s1 tr1 s2 tr2 s3 Hs _ IH]; intros N HN; [lia|].
  destruct (step_within _ _ _ _ Hs HN) as (N' & HN' & ?). specialize (IH N' HN'). lia.
Qed.

(** ** Executing a schedule *)

(** A turn of process [i]: [None] for what needs no answer ([fork] and [exec]
    then succeed), [Some (id, a)] for an answer, with the child for [wait]. *)
Definition turn (s : list uproc) (i : nat) (m : option (nat * answer)) : option (list event * list uproc) :=
  match s !! i with
  | Some (mkProc (Running (Goto x)) t q) => Some ([], <[i := mkProc (Running (body x)) t q]> s)
  | Some (mkProc (Running (Call c k)) t q) =>
      match c, m with
      | CFork, None =>
          Some ([], <[i := mkProc (Running (k (pid (length s), []))) t q]> s ++ [mkProc (Running (k (0, []))) t (Some i)])
      | CFork, Some _ => Some ([Failed], <[i := mkProc (Running (k (-1, []))) t q]> s)
      | CExec path argv, None => Some ([Started path argv t], <[i := mkProc (Loaded path argv) t q]> s)
      | CWait, Some (j, _) =>
          match s !! j with
          | Some (mkProc Zombie t' q' as p) =>
              if child_of s i j
              then Some ([Waited t], <[j := with_status Reaped p]> (<[i := mkProc (Running (k (pid j, []))) t q]> s))
              else None
          | _ => None
          end
      | CWait, None => None
      | _, Some (id, a) =>
          match accept id t c a with
          | Some t' => Some (seen id t c a.1, <[i := mkProc (Running (k a)) t' q]> s)
          | None => None
          end
      | _, None => None
      end
  | Some (mkProc (Running (Exit _) | Loaded _ _) t q) =>
      if (i =? 0)%nat then None else Some ([], <[i := mkProc Zombie ((λ _, None) <$> t) q]> (adopt i <$> s))
  | _ => None
  end.

Fixpoint turns (l : list (nat * option (nat * answer))) (s : list uproc) : option (list event * list uproc) :=
  match l with
  | [] => Some ([], s)
  | (i, m) :: l' =>
      match turn s i m with
      | Some (ev, s') => match turns l' s' with Some (tr, s'') => Some (ev ++ tr, s'') | None => None end
      | None => None
      end
  end.

Lemma turn_step s i m ev s' : turn s i m = Some (ev, s') → step s ev s'.
Proof.
  unfold turn. destruct (s !! i) as [[[[c k|z|x]|path argv| |] t q]|] eqn:Hi; try done.
  2,4: destruct (Nat.eqb_spec i 0); [done|]; intros [= <- <-].
  2: by eapply step_exit.
  2: by eapply step_loaded.
  2: intros [= <- <-]; by constructor.
  destruct (decide (c = CFork)) as [->|Hf].
  { destruct m; intros [= <- <-]; [by apply step_fork_fail|by apply step_fork]. }
  destruct (decide (c = CWait)) as [->|Hw].
  { destruct m as [[j a]|]; [|done]. destruct (s !! j) as [[[] t' q']|] eqn:Hj; try done.
    destruct (child_of s i j) eqn:Hc; intros [= <- <-]. by eapply step_wait. }
  destruct m as [[id a]|].
  - intros H. destruct (accept id t c a) as [t'|] eqn:Ha; destruct c; simplify_eq; by eapply step_call.
  - destruct c; try done. intros [= <- <-]. by eapply step_exec.
Qed.

Lemma turns_steps l s tr s' : turns l s = Some (tr, s') → steps (length l) s tr s'.
Proof.
  revert s tr. induction l as [|[i m] l IH]; intros s tr; cbn; [intros [= <- <-]; constructor|].
  destruct (turn s i m) as [[ev s1]|] eqn:E; [|done]. destruct (turns l s1) as [[tr1 s2]|] eqn:E1; [|done].
  intros [= <- <-]. econstructor; [by eapply turn_step|]. by apply IH.
Qed.

End Runs.
