(* ===== verification/Shrun.v ===== *)
(** * The shell runs commands ([user/sh.c])

    [runcmd], [getcmd] and [main] of the shell as user programs.  A command is
    the tree of the parser with its words as strings.

    The theorems: whatever the order in which the processes of a command take
    their turns, the programs started are those of the command, each with the
    open files its redirections and pipes say and no other, the processes that
    wait hold no end of a pipe, and the command ends if its programs do. *)

From Stdlib Require Import ZArith Lia.
From S2P Require Import Prelude Params CString Printf Uprintf Ulib Sh Uprog.
From stdpp Require Import base gmap strings numbers list.

Open Scope Z_scope.
#[local] Opaque vprintf.

(** The heads of the two loops of [main]. *)
Inductive sh_point : Type := ShConsole | ShLoop.

Section Shell.
Notation U := (U sh_point).

Definition panic (s : string) : U unit := fprintf 2 (ln "%s") [str (bytes_of s)] ;; exit 1.

Definition fork1 : U Z :=
  pid ← sysz CFork;
  (if pid =? -1 then panic "fork" else mret tt) ;;
  mret pid.

(** It never returns; the [exit(0)] after the switch is the last line. *)
Fixpoint runcmd (c : tree) : U unit :=
  (match c with
   | TExec argv =>
       match argv with
       | [] => exit 1
       | arg0 :: _ => sysz (CExec arg0 argv) ;; fprintf 2 (ln "exec %s failed") [str arg0]
       end
   | TRedir c file mode fd =>
       sysz (CClose fd) ;;
       r ← sysz (COpen file mode);
       (if r <? 0 then fprintf 2 (ln "open %s failed") [str file] ;; exit 1 else mret tt) ;;
       runcmd c
   | TList l r =>
       q ← fork1;
       (if q =? 0 then runcmd l else mret tt) ;;
       sysz CWait ;;
       runcmd r
   | TPipe l r =>
       a ← sys CPipe;
       (if a.1 <? 0 then panic "pipe" else mret tt) ;;
       let p0 := nth 0 a.2 0 in
       let p1 := nth 1 a.2 0 in
       q ← fork1;
       (if q =? 0 then
          sysz (CClose 1) ;; sysz (CDup p1) ;; sysz (CClose p0) ;; sysz (CClose p1) ;; runcmd l
        else mret tt) ;;
       q ← fork1;
       (if q =? 0 then
          sysz (CClose 0) ;; sysz (CDup p0) ;; sysz (CClose p0) ;; sysz (CClose p1) ;; runcmd r
        else mret tt) ;;
       sysz (CClose p0) ;;
       sysz (CClose p1) ;;
       sysz CWait ;;
       sysz CWait ;;
       mret tt
   | TBack c =>
       q ← fork1;
       (if q =? 0 then runcmd c else mret tt) ;;
       mret tt
   end) ;;
  exit 0.

(** [gets(buf, max)] of [user/ulib.c], [n] characters at most. *)
Fixpoint gets (n : nat) : U (list Z) :=
  match n with
  | O => mret []
  | S n' =>
      a ← sys (CRead 0 1);
      if a.1 <? 1 then mret []
      else
        let c := nth 0 a.2 0 in
        if (c =? 10) || (c =? 13) then mret [c]
        else l ← gets n'; mret (c :: l)
  end.

Definition NBUF : nat := 100.

(** The C string read; it is empty at the end of the input. *)
Definition getcmd : U (list Z) :=
  sysz (CWrite 2 (bytes_of "$ ")) ;;
  buf ← gets (NBUF - 1);
  mret (cstr buf).

Fixpoint skip_blanks (s : list Z) : list Z :=
  match s with
  | c :: s' => if (c =? 32) || (c =? 9) then skip_blanks s' else s
  | [] => []
  end.

Definition is_cd (s : list Z) : bool := bool_decide (take 3 s = bytes_of "cd ").
(** [cmd[strlen(cmd)-1] = 0], then [cmd+3]. *)
Definition cd_arg (s : list Z) : list Z := drop 3 (take (length s - 1) s).

(** [runcmd(parsecmd(cmd))], in the child. *)
Definition child (s : list Z) : U unit :=
  match (c <- parseline s (4 * es s + 4) ;; peek s [] ;;; ret c) 0%nat with
  | Ok c i =>
      if negb (i =? es s)%nat then fprintf 2 (ln "leftovers: %s") [str (drop i s)] ;; panic "syntax"
      else runcmd (cmd_strings (nulterminate c (s ++ [0])) c)
  | Panic msg => panic msg
  | _ => exit 1
  end.

(** The loop body of [main] after [getcmd]. *)
Definition obey (buf : list Z) : U Z :=
  match buf with
  | [] => exit 0
  | _ =>
      let cmd := skip_blanks buf in
      if nth 0 cmd 0 =? 10 then goto ShLoop
      else if is_cd cmd then
        z ← sysz (CChdir (cd_arg cmd));
        (if z <? 0 then fprintf 2 (ln "cannot cd %s") [str (cd_arg cmd)] else mret tt) ;;
        goto ShLoop
      else
        q ← fork1;
        (if q =? 0 then child cmd else mret tt) ;;
        sysz CWait ;;
        goto ShLoop
  end.

Definition sh_body (x : sh_point) : prog sh_point :=
  match x with
  | ShConsole =>
      (fd ← sysz (COpen (bytes_of "console") O_RDWR);
       if fd >=? 0 then
         if fd >=? 3 then sysz (CClose fd) ;; goto ShLoop else goto ShConsole
       else goto ShLoop) Exit
  | ShLoop => (buf ← getcmd; obey buf) Exit
  end.

Definition sh_main : prog sh_point := Goto ShConsole.

End Shell.

(** ** What a command means *)

(** The standard files are open, nothing else. *)
Definition std (t : fds) : Prop := ∃ a b c, t = Some a :: Some b :: Some c :: replicate (NOFILE - 3) None.

(** The redirections are of standard files, as the parser makes them. *)
Fixpoint fds_ok (c : tree) : Prop :=
  match c with
  | TExec _ => True
  | TRedir c _ _ fd => (fd = 0 ∨ fd = 1) ∧ fds_ok c
  | TPipe l r | TList l r => fds_ok l ∧ fds_ok r
  | TBack c => fds_ok c
  end.

(** [wired c t js]: run with the open files [t], the command [c] starts its
    programs, with their open files, as [js] says.  A failure of the kernel to
    make a process or a pipe or to open a file ends a part of it. *)
Inductive wired : tree → fds → list event → Prop :=
| w_empty t : wired (TExec []) t []
| w_exec a l t : wired (TExec (a :: l)) t [Started a (a :: l) t]
| w_exec_fail a l t : wired (TExec (a :: l)) t [Failed]
| w_redir c file mode fd t js :
    wired c (<[Z.to_nat fd := Some (OFile file mode)]> t) js → wired (TRedir c file mode fd) t js
| w_redir_fail c file mode fd t : wired (TRedir c file mode fd) t [Failed]
| w_list l r t j1 j2 : wired l t j1 → wired r t j2 → wired (TList l r) t (j1 ++ Waited t :: j2)
| w_list_fail l r t : wired (TList l r) t [Failed]
| w_pipe l r t id j1 j2 :
    wired l (<[1%nat := Some (OPipeW id)]> t) j1 → wired r (<[0%nat := Some (OPipeR id)]> t) j2 →
    wired (TPipe l r) t (Piped id :: j1 ++ j2 ++ [Waited t; Waited t])
| w_pipe_fail l r t : wired (TPipe l r) t [Failed]
| w_pipe_fork_l l r t id : wired (TPipe l r) t [Piped id; Failed]
| w_pipe_fork_r l r t id j1 :
    wired l (<[1%nat := Some (OPipeW id)]> t) j1 → wired (TPipe l r) t (Piped id :: j1 ++ [Failed])
| w_back c t js : wired c t js → wired (TBack c) t js
| w_back_fail c t : wired (TBack c) t [Failed].
#[export] Hint Constructors wired : wired.

Section Wired.
Notation runs := (runs sh_body).

Lemma panic_inv s k t js : runs (panic s k) t js → js = [].
Proof. intros H. apply runs_emit_inv in H. by apply runs_exit_inv in H. Qed.

(** [if(fork1() == 0) ch; rest] *)
Lemma fork1_inv (ch rest : U sh_point unit) k t js :
  runs ((q ← fork1; (if q =? 0 then ch else mret tt) ;; rest) k) t js →
  (∃ j1 j2, runs (ch (λ _, rest k)) t j1 ∧ runs (rest k) t j2 ∧ js = j1 ++ j2) ∨ js = [Failed].
Proof.
  intros H. apply runs_fork_inv in H as [(q & j1 & j2 & Hq & H1 & H2 & ->)|(js' & H & ->)].
  - left. exists j1, j2. cbn [fst] in H2. destruct (Z.eqb_spec q (-1)); [lia|].
    unfold mbind, U_bind, mret, U_ret in H2. by destruct (Z.eqb_spec q 0); [lia|].
  - right. f_equal. by apply panic_inv in H.
Qed.

Lemma std_insert t fd o : std t → (fd < 3)%nat → std (<[fd := Some o]> t).
Proof. intros (a & b & c & ->) ?. destruct fd as [|[|[|fd]]]; [..|lia]; by eexists _, _, _. Qed.

(** [close(fd); open(...)] puts the file at [fd]. *)
Lemma redirect_inv fd file mode k t js :
  std t → fd = 0 ∨ fd = 1 →
  runs (sysz (CClose fd) (λ _, sysz (COpen file mode) k)) t js →
  runs (k fd) (<[Z.to_nat fd := Some (OFile file mode)]> t) js ∨
  ∃ t' js', runs (k (-1)) t' js' ∧ js = Failed :: js'.
Proof.
  intros (a & b & c & ->) [-> | ->] H; eapply runs_close_inv in H; try done;
    (eapply runs_open_inv in H; [|reflexivity]); destruct H as [H|H]; [by left|naive_solver|by left|naive_solver].
Qed.

(** The table after [pipe(p)]. *)
Definition piped (id : nat) (t : fds) : fds := <[4%nat := Some (OPipeW id)]> (<[3%nat := Some (OPipeR id)]> t).

(** [close(fd); dup(p); close(p[0]); close(p[1])] puts the end of the pipe at
    [fd] and keeps no other. *)
Lemma child_end_inv (right : bool) id k t js :
  std t →
  runs (sysz (CClose (if right then 0 else 1)) (λ _, sysz (CDup (if right then 3 else 4)) (λ _,
        sysz (CClose 3) (λ _, sysz (CClose 4) k)))) (piped id t) js →
  runs (k 0) (if right then <[0%nat := Some (OPipeR id)]> t else <[1%nat := Some (OPipeW id)]> t) js.
Proof.
  intros (a & b & c & ->) H. destruct right; cbn in H.
  all: do 4 (first [eapply runs_close_inv in H; [|reflexivity]|eapply runs_dup_inv in H; [|reflexivity|reflexivity]]).
  all: exact H.
Qed.

Lemma pipe_inv k t js :
  std t → runs (sys CPipe k) t js →
  (∃ id js', runs (k (0, [3; 4])) (piped id t) js' ∧ js = Piped id :: js') ∨
  ∃ out js', runs (k (-1, out)) t js' ∧ js = Failed :: js'.
Proof. intros (a & b & c & ->). by apply (runs_pipe_inv _ 3 4). Qed.

Lemma parent_end_inv id k t js :
  std t → runs (sysz (CClose 3) (λ _, sysz (CClose 4) k)) (piped id t) js → runs (k 0) t js.
Proof. intros (a & b & c & ->) H. do 2 (eapply runs_close_inv in H; [|reflexivity]). exact H. Qed.

Lemma runcmd_wired c : ∀ t k js, fds_ok c → std t → runs (runcmd c k) t js → wired c t js.
Proof.
  induction c as [argv|c IH file mode fd|l IHl r IHr|l IHl r IHr|c IH]; intros t k js Hc Ht H.
  - destruct argv as [|a argv]; [apply runs_exit_inv in H as ->; constructor|].
    apply runs_call_inv in H as [(? & ? & ? & ->)|(id & [z out] & t' & js' & Ha & Hr & ->)]; [simplify_eq; constructor| |done].
    cbn in Ha. case_match eqn:E; simplify_eq. apply andb_true_iff in E as [Ez _]. apply Z.eqb_eq in Ez as ->.
    apply runs_emit_inv, runs_exit_inv in Hr as ->. constructor.
  - destruct Hc as [Hfd Hc]. apply redirect_inv in H as [H|(t' & js' & H & ->)]; [..|done|done].
    + rewrite (proj2 (Z.ltb_ge fd 0)) in H by lia. constructor. eapply IH, H; [done|]. apply std_insert; [done|lia].
    + apply runs_emit_inv, runs_exit_inv in H as ->. apply w_redir_fail.
  - destruct Hc as [Hl Hr]. apply pipe_inv in H as [(id & js' & H & ->)|(out & js' & H & ->)]; [| |done].
    2: { apply panic_inv in H as ->. constructor. }
    apply fork1_inv in H as [(j1 & j2 & H1 & H2 & ->)| ->]; [|constructor].
    apply (child_end_inv false) in H1; [|done]. apply IHl in H1; [|done|by apply std_insert; [|lia]].
    apply fork1_inv in H2 as [(j3 & j4 & H3 & H4 & ->)| ->]; [|by constructor].
    apply (child_end_inv true) in H3; [|done]. apply IHr in H3; [|done|by apply std_insert; [|lia]].
    apply parent_end_inv in H4; [|done].
    apply runs_wait_inv in H4 as (z & js & H4 & ->). apply runs_wait_inv in H4 as (z' & js' & H4 & ->).
    apply runs_exit_inv in H4 as ->. by constructor.
  - destruct Hc as [Hl Hr]. apply fork1_inv in H as [(j1 & j2 & H1 & H2 & ->)| ->]; [|constructor].
    apply runs_wait_inv in H2 as (z & js & H2 & ->). constructor; [by eapply IHl|by eapply IHr].
  - apply (fork1_inv (runcmd c) (mret tt)) in H as [(j1 & j2 & H1 & H2 & ->)| ->]; [|apply w_back_fail].
    apply runs_exit_inv in H2 as ->. rewrite app_nil_r. constructor. by eapply IH.
Qed.

End Wired.

(** No program started and no process that waits has a file open but its
    three standard files. *)
Definition tables (js : list event) : list fds :=
  omap (λ e, match e with Started _ _ t | Waited t => Some t | _ => None end) js.

Lemma wired_std c t js : wired c t js → fds_ok c → std t → Forall std (tables js).
Proof.
  assert (∀ a b, tables (a ++ b) = tables a ++ tables b) as Happ by (intros; apply omap_app).
  assert (∀ o t, std t → std (<[0%nat := Some o]> t) ∧ std (<[1%nat := Some o]> t)) as Hs.
  { intros o t' Ht. split; apply std_insert; done || lia. }
  induction 1; cbn [fds_ok]; intros Hc Ht; cbn [app]; rewrite ?Happ, ?Forall_app; cbn; rewrite ?Happ, ?Forall_app; cbn;
    rewrite ?Forall_cons, ?Forall_nil; try destruct Hc as [[-> | ->] Hc]; naive_solver.
Qed.

(** ** A command takes a bounded number of steps *)

Lemma panic_bounded s : ∃ n, ∀ k, bounded n (panic s k).
Proof. eexists. intros k. apply bounded_emit, (bounded_exit 0). Qed.

Lemma fork1_bounded n m (ch rest : U sh_point unit) k :
  bounded n (ch (λ _, rest k)) → bounded m (rest k) →
  bounded (S (m + length (ln "fork") + 1 + n)) ((q ← fork1; (if q =? 0 then ch else mret tt) ;; rest) k).
Proof.
  intros Hch Hrest. apply bounded_fork; [intros q Hq|..]; cbn [fst].
  - destruct (Z.eqb_spec q (-1)); [lia|]. unfold mbind, U_bind, mret, U_ret. destruct (Z.eqb_spec q 0); [lia|].
    eapply bounded_mono; [done|lia].
  - eapply bounded_mono; [apply bounded_emit, (bounded_exit 0)|].
    change (default [] _) with (ln "fork"). lia.
  - done.
Qed.

Lemma fprintf_bounded fd fmt ap : ∃ m, ∀ n k, bounded n (k tt) → bounded (m + n) (@fprintf sh_point fd fmt ap k).
Proof. eexists. intros n k. apply bounded_emit. Qed.

Lemma runcmd_bounded c : ∃ n, ∀ k, bounded n (runcmd c k).
Proof.
  induction c as [argv|c [n IH] file mode fd|l [n IHl] r [m IHr]|l [n IHl] r [m IHr]|c [n IH]].
  - destruct argv as [|a argv]; [exists 1%nat; intros k; constructor|].
    destruct (fprintf_bounded 2 (ln "exec %s failed") [str a]) as [m Hm]. exists (S (m + 1)). intros k.
    apply bounded_call; [done|]. intros _. apply Hm. constructor.
  - destruct (fprintf_bounded 2 (ln "open %s failed") [str file]) as [m Hm]. exists (S (S (m + 1 + n))). intros k.
    apply bounded_call; [done|]. intros _. apply bounded_call; [done|]. intros [z ?]. cbn [fst].
    unfold mbind, U_bind. destruct (z <? 0).
    + eapply bounded_mono; [apply (Hm 1%nat); constructor|lia].
    + eapply bounded_mono; [apply IH|lia].
  - destruct (panic_bounded "pipe") as [m' Hp]. eexists (S (m' + _)). intros k.
    apply bounded_call; [done|]. intros [z out]. cbn [fst snd]. unfold mbind at 1, U_bind at 1. destruct (z <? 0).
    + eapply bounded_mono; [apply Hp|lia].
    + eapply bounded_mono; [|apply Nat.le_add_l]. apply fork1_bounded; [|apply fork1_bounded].
      all: do 4 (apply bounded_call; [done|intros _]).
      all: apply IHl || apply IHr || apply (bounded_exit 0).
  - eexists. intros k. apply fork1_bounded; [apply IHl|]. apply bounded_call; [done|]. intros _. apply IHr.
  - eexists. intros k. apply (fork1_bounded n 1 (runcmd c) (mret tt)); [apply IH|constructor].
Qed.

(** ** Running a command *)

(** The shell's child with the first process; what the latter does is not
    followed. *)
Definition started (c : tree) (t : fds) : list (@uproc sh_point) :=
  [mkProc (Loaded (bytes_of "/init") []) t None; mkProc (Running (runcmd c (λ _, Exit 0))) t (Some 0%nat)].

(** C17: However the processes of a command take turns, once no process runs the
    shell's code the programs started, the pipes made and the files each has
    open are, in some order, those of the command: the two sides of a pipe
    share one, a redirection puts the file in place of the standard one, and
    no process started or waiting has another file open. *)
Theorem runcmd_correct c t n tr s :
  fds_ok c → std t → steps sh_body n (started c t) tr s → Forall settled s →
  ∃ js, tr ≡ₚ js ∧ wired c t js ∧ Forall std (tables js).
Proof.
  intros Hc Ht Hs Hd. destruct (steps_runs _ _ _ _ _ Hs Hd) as (J & HJ & E).
  apply Forall2_cons_inv_l in HJ as (j0 & J1 & H0 & HJ & ->). apply Forall2_cons_inv_l in HJ as (js & J2 & H1 & HJ & ->).
  apply Forall2_nil_inv_l in HJ as ->. red in H0. cbn in H0, H1. subst j0.
  apply runcmd_wired in H1; [|done|done]. exists js. split_and!; [|done|by eapply wired_std].
  rewrite E. cbn. by rewrite app_nil_r.
Qed.


(** [cat < f | wc], the right side first. *)
Definition demo_cmd : tree := TPipe (TRedir (TExec [bytes_of "cat"]) (bytes_of "f") O_RDONLY 0) (TExec [bytes_of "wc"]).
Definition demo_fds : fds := Some (OGiven 0) :: Some (OGiven 1) :: Some (OGiven 2) :: replicate (NOFILE - 3) None.
Definition says (i : nat) (z : Z) : nat * option (nat * answer) := (i, Some (0%nat, (z, []))).
Definition moves (i : nat) : nat * option (nat * answer) := (i, None).
Definition reaps (i j : nat) : nat * option (nat * answer) := (i, Some (j, (0, []))).
Definition demo_turns : list (nat * option (nat * answer)) :=
  [(1%nat, Some (7%nat, (0, [3; 4]))); moves 1; moves 1;
   says 3 0; says 3 0; says 3 0; says 3 0; moves 3;
   says 2 0; says 2 1; says 1 0; says 1 0; says 2 0; says 2 0; says 2 0; says 2 0; moves 2;
   moves 2; reaps 1 2; moves 3; reaps 1 3; moves 1].
Definition demo_end : option (list event * list uproc) := turns sh_body demo_turns (started demo_cmd demo_fds).

Definition demo_right : fds := <[0%nat := Some (OPipeR 7)]> demo_fds.
Definition demo_left : fds := <[0%nat := Some (OFile (bytes_of "f") O_RDONLY)]> (<[1%nat := Some (OPipeW 7)]> demo_fds).
Definition demo_events : list event :=
  [Piped 7; Started (bytes_of "wc") [bytes_of "wc"] demo_right; Started (bytes_of "cat") [bytes_of "cat"] demo_left;
   Waited demo_fds; Waited demo_fds].

Lemma demo_runs : ∃ s, demo_end = Some (demo_events, s) ∧ Forall settled s.
Proof. eexists. split; [vm_compute; reflexivity|]. repeat constructor. Qed.

Lemma runcmd_correct_witness : ∃ js, demo_events ≡ₚ js ∧ wired demo_cmd demo_fds js ∧ Forall std (tables js).
Proof.
  destruct demo_runs as (s & E & Hs). apply turns_steps in E.
  refine (runcmd_correct demo_cmd demo_fds _ _ s _ _ E Hs); [by cbn; auto|by eexists _, _, _].
Defined.

(** ** From the prompt to the command *)

(** The program after the kernel has given these answers. *)
Fixpoint feed {X} (l : list answer) (p : prog X) : prog X :=
  match l, p with
  | a :: l', Call c k => feed l' (k a)
  | _, _ => p
  end.

(** The answers to the [read]s of a line typed. *)
Definition typed (s : list Z) : list answer := (λ c, (1, [c])) <$> s.

Lemma gets_feed s n k :
  10 ∉ s → 13 ∉ s → (length s < n)%nat → feed (typed (s ++ [10])) (gets n k) = k (s ++ [10]).
Proof.
  revert n k. induction s as [|c s IH]; intros [|n] k H10 H13 Hn; cbn in Hn; try lia; [done|].
  apply not_elem_of_cons in H10 as [Hc H10], H13 as [Hc' H13].
  transitivity (feed (typed (s ++ [10]))
    ((if (c =? 10) || (c =? 13) then mret [c] else (l ← gets n; mret (c :: l))) k)); [done|].
  rewrite (proj2 (Z.eqb_neq c 10)), (proj2 (Z.eqb_neq c 13)) by done.
  change (feed (typed (s ++ [10])) (gets n (λ l, k (c :: l))) = k (c :: s ++ [10])). rewrite IH by (done || lia). done.
Qed.

Lemma cstr_id s : Forall (λ c, c ≠ 0) s → cstr s = s.
Proof. induction 1 as [|c s Hc _ IH]; [done|]. cbn -[Z.eqb]. by rewrite (proj2 (Z.eqb_neq c 0)), IH by done. Qed.

Lemma child_spelling l us k :
  line_wf l → us.*1 = line_tokens l → seps_ok us → child (spell us) k = runcmd (line_tree l) k.
Proof.
  intros Hl Hus Hsep. destruct (spelling_parsed l us Hl Hus Hsep) as (Hs & c & E & Ep & Hc).
  destruct (spelling_parse l us Hl Hus Hsep) as (c' & Ep' & Hc').
  unfold child. erewrite bind_ok by exact E. erewrite bind_ok by exact Ep. cbn [ret]. rewrite Nat.eqb_refl. cbn [negb].
  f_equal. enough (c = c') as -> by done. revert Ep'. unfold parse.
  erewrite bind_ok by exact E. erewrite bind_ok by exact Ep. rewrite bind_gets. unfold id. rewrite Nat.eqb_refl. by intros [= ->].
Qed.

Lemma spell_first us t w us' : us = (t, w) :: us' → tok_ok t → ∃ c s', spell us = c :: s' ∧ is_white c = false.
Proof.
  intros -> Ht. destruct (first_char_ok t Ht) as (H0 & Hw & _).
  change (spell ((t, w) :: us')) with ((tok_text t ++ w) ++ spell us'). destruct (tok_text t) as [|c l]; [done|].
  cbn in H0. simplify_eq. eauto.
Qed.

Lemma redirected_fds t rs : fds_ok t → fds_ok (redirected t rs).
Proof.
  unfold redirected. revert t. induction rs as [|[o w] rs IH]; intros t Ht; [done|].
  apply IH. split; [destruct o; auto|done].
Qed.

Lemma iter_back_fds n t : fds_ok t → fds_ok (Nat.iter n TBack t).
Proof. intros Ht. by induction n. Qed.

Lemma line_fds l : fds_ok (line_tree l).
Proof.
  apply (line_mut (λ l, fds_ok (line_tree l)) (λ p, fds_ok (pipe_tree p)) (λ u, fds_ok (command_tree u))); cbn;
    auto using redirected_fds, iter_back_fds. intros. by apply redirected_fds.
Qed.

(** What is not blank and not [cd] is a command. *)
Lemma obey_command s c s' :
  s = c :: s' → is_white c = false → is_cd s = false →
  obey s = (q ← fork1; (if q =? 0 then child s else mret tt) ;; sysz CWait ;; goto ShLoop).
Proof.
  intros -> Hw Hcd. unfold obey. assert (skip_blanks (c :: s') = c :: s') as ->.
  { cbn [skip_blanks]. destruct (Z.eqb_spec c 32) as [->|]; [done|]. by destruct (Z.eqb_spec c 9) as [->|]. }
  cbn [nth]. destruct (Z.eqb_spec c 10) as [->|_]; [done|]. by rewrite Hcd.
Qed.

(** C36: At the prompt, when a line of the grammar is typed (in any spelling that
    ends with the newline and fits the buffer), the shell forks; the child is
    the command of that line, whose redirections are of standard files, and the
    parent waits and comes back to the prompt. *)
Theorem sh_main_line l us s z :
  line_wf l → line_tokens l ≠ [] → us.*1 = line_tokens l → seps_ok us →
  spell us = s ++ [10] → 10 ∉ s → 13 ∉ s → (length s < NBUF - 1)%nat → is_cd (spell us) = false →
  ∃ k, feed ((z, []) :: typed (spell us)) (sh_body ShLoop) = Call CFork k ∧
    fds_ok (line_tree l) ∧ (∃ k', k (0, []) = runcmd (line_tree l) k') ∧
    ∀ q, 0 < q → k (q, []) = Call CWait (λ _, Goto ShLoop).
Proof.
  intros Hl Hne Hus Hsep Hsp H10 H13 Hlen Hcd.
  destruct (spelling_parsed l us Hl Hus Hsep) as (Hnul & _). pose proof (line_tokens_ok l Hl) as Hok.
  destruct us as [|[t w] us']; [by destruct (line_tokens l)|]. rewrite <- Hus in Hok. apply Forall_cons_1 in Hok as [Ht _].
  destruct (spell_first _ t w us' eq_refl Ht) as (c & s' & Ec & Hw). set (us := (t, w) :: us') in *.
  pose proof (gets_feed s (NBUF - 1)) as Hg. rewrite <- Hsp in Hg.
  change (feed _ _) with (feed (typed (spell us)) (gets (NBUF - 1) (λ buf, obey (cstr buf) Exit))).
  rewrite Hg, cstr_id, (obey_command _ c s' Ec Hw Hcd) by done.
  eexists. split; [reflexivity|]. split; [apply line_fds|]. split.
  - eexists. exact (child_spelling l us _ Hl Hus Hsep).
  - intros q Hq. cbn [fst]. destruct (Z.eqb_spec q (-1)); [lia|]. unfold mbind, U_bind, mret, U_ret.
    by destruct (Z.eqb_spec q 0); [lia|].
Qed.

Lemma sh_main_line_witness :
  ∃ k, feed ((2, []) :: typed (spell sample_spelling)) (sh_body ShLoop) = Call CFork k ∧
    fds_ok (line_tree sample_grammar) ∧ (∃ k', k (0, []) = runcmd (line_tree sample_grammar) k') ∧
    ∀ q, 0 < q → k (q, []) = Call CWait (λ _, Goto ShLoop).
Proof.
  apply (sh_main_line sample_grammar sample_spelling (bytes_of "(echo a> x)|wc&; ls"));
    [|done|vm_compute; reflexivity| |vm_compute; reflexivity|..|vm_compute; reflexivity].
  - cbn. unfold redirs_wf, word_chars, MAXARGS. repeat (split || constructor || done); cbn; lia.
  - cbn. unfold whitespace, symbols. repeat (split || constructor || done || intros _).
  - apply (bool_decide_eq_true_1 _). vm_compute. reflexivity.
  - apply (bool_decide_eq_true_1 _). vm_compute. reflexivity.
  - cbn. lia.
Defined.

(** ** [cd] *)

(** The directory is the rest of the line without its last character, the
    newline; a line that ends without one, at the end of the input or of the
    buffer, loses a letter. *)
Lemma cd_arg_chop path c : cd_arg (bytes_of "cd " ++ path ++ [c]) = path.
Proof.
  unfold cd_arg. rewrite !length_app. change (length (bytes_of "cd ")) with 3%nat. cbn [length].
  rewrite app_assoc, take_app_length' by (rewrite length_app; cbn; lia). done.
Qed.

Lemma cd_at_eof :
  ∃ k, feed ((2, []) :: typed (bytes_of "cd ab") ++ [(0, [])]) (sh_body ShLoop) = Call (CChdir (bytes_of "a")) k.
Proof. eexists. vm_compute. reflexivity. Qed.
