(* ===== verification/Utils.v ===== *)
(** * Short user programs

    The programs of [user/] that are loops over their arguments and their
    input, as trees of system calls: [cat], [wc], [echo], [rm], [mkdir], [ln],
    [kill] and [init].  [args] are the arguments after [argv[0]].

    The theorems: [cat] copies its files, [wc] counts lines, words and
    characters, however the reads are cut; [init] always has one shell. *)

From Stdlib Require Import ZArith Lia.
From S2P Require Import Prelude Params CString Printf Uprintf Ulib Uprog.
From stdpp Require Import base gmap strings numbers list.

Open Scope Z_scope.
#[local] Opaque vprintf.

(** ** [user/cat.c] *)

Inductive cat_point : Type := CatStdin | CatFile (fd : Z) (rest : list (list Z)).

Definition IOBUF : Z := 512.

(** One round of the loop of [cat(fd)], whose head is [x]. *)
Definition cat (x : cat_point) (fd : Z) : U cat_point unit :=
  a ← sys (CRead fd IOBUF);
  let n := a.1 in
  if n >? 0 then
    w ← sysz (CWrite 1 (take (Z.to_nat n) a.2));
    if negb (w =? n) then fprintf 2 (ln "cat: write error") [] ;; exit 1 else goto x
  else if n <? 0 then fprintf 2 (ln "cat: read error") [] ;; exit 1
  else mret tt.

Definition cat_files (rest : list (list Z)) : U cat_point unit :=
  match rest with
  | [] => exit 0
  | f :: rest' =>
      fd ← sysz (COpen f O_RDONLY);
      if fd <? 0 then fprintf 2 (ln "cat: cannot open %s") [str f] ;; exit 1
      else goto (CatFile fd rest')
  end.

Definition cat_body (x : cat_point) : prog cat_point :=
  match x with
  | CatStdin => (cat x 0 ;; exit 0) (λ _ : unit, Exit 0)
  | CatFile fd rest => (cat x fd ;; sysz (CClose fd) ;; cat_files rest) (λ _, Exit 0)
  end.

Definition cat_main (args : list (list Z)) : prog cat_point :=
  match args with
  | [] => Goto CatStdin
  | _ => cat_files args (λ _, Exit 0)
  end.

(** ** [user/wc.c] *)

(** [l], [w], [c] and [inword]. *)
Record wc_counts : Type := mkCounts { wc_l : Z; wc_w : Z; wc_c : Z; wc_in : bool }.

Definition wc_char (s : wc_counts) (x : Z) : wc_counts :=
  let l := if x =? 10 then s32 (wc_l s + 1) else wc_l s in
  match strchr [32; 13; 9; 10; 11] x with
  | Some _ => mkCounts l (wc_w s) (s32 (wc_c s + 1)) false
  | None => mkCounts l (if wc_in s then wc_w s else s32 (wc_w s + 1)) (s32 (wc_c s + 1)) true
  end.

Inductive wc_point : Type :=
| WcStdin (s : wc_counts)
| WcFile (fd : Z) (name : list Z) (s : wc_counts) (rest : list (list Z)).

Definition wc0 : wc_counts := mkCounts 0 0 0 false.

(** One round of the loop of [wc(fd, name)], whose head with counts [s'] is
    [x s']. *)
Definition wc (x : wc_counts → wc_point) (fd : Z) (name : list Z) (s : wc_counts) : U wc_point unit :=
  a ← sys (CRead fd IOBUF);
  let n := a.1 in
  if n >? 0 then goto (x (foldl wc_char s (take (Z.to_nat n) a.2)))
  else
    (if n <? 0 then printf (ln "wc: read error") [] ;; exit 1 else mret tt) ;;
    printf (ln "%d %d %d %s") [VInt (wc_l s); VInt (wc_w s); VInt (wc_c s); str name].

Definition wc_files (rest : list (list Z)) : U wc_point unit :=
  match rest with
  | [] => exit 0
  | f :: rest' =>
      fd ← sysz (COpen f O_RDONLY);
      if fd <? 0 then printf (ln "wc: cannot open %s") [str f] ;; exit 1
      else goto (WcFile fd f wc0 rest')
  end.

Definition wc_body (x : wc_point) : prog wc_point :=
  match x with
  | WcStdin s => (wc WcStdin 0 [] s ;; exit 0) (λ _ : unit, Exit 0)
  | WcFile fd name s rest =>
      (wc (λ s, WcFile fd name s rest) fd name s ;; sysz (CClose fd) ;; wc_files rest) (λ _, Exit 0)
  end.

Definition wc_main (args : list (list Z)) : prog wc_point :=
  match args with
  | [] => Goto (WcStdin wc0)
  | _ => wc_files args (λ _, Exit 0)
  end.

(** ** [user/echo.c], [user/rm.c], [user/mkdir.c], [user/ln.c], [user/kill.c]

    Programs without a loop head. *)

Definition straight (x : Empty_set) : prog Empty_set := match x with end.
Notation SU := (U Empty_set).

Fixpoint echo_loop (args : list (list Z)) : SU unit :=
  match args with
  | [] => exit 0
  | a :: rest =>
      sysz (CWrite 1 a) ;;
      sysz (CWrite 1 (match rest with [] => [10] | _ => [32] end)) ;;
      echo_loop rest
  end.
Definition echo_main (args : list (list Z)) : prog Empty_set := echo_loop args (λ _, Exit 0).

Fixpoint rm_loop (args : list (list Z)) : SU unit :=
  match args with
  | [] => exit 0
  | a :: rest =>
      z ← sysz (CUnlink a);
      if z <? 0 then fprintf 2 (ln "rm: %s failed to delete") [str a] ;; exit 0 else rm_loop rest
  end.
Definition rm_main (args : list (list Z)) : prog Empty_set :=
  match args with
  | [] => (fprintf 2 (ln "Usage: rm files...") [] ;; exit 1) (λ _ : unit, Exit 0)
  | _ => rm_loop args (λ _, Exit 0)
  end.

Fixpoint mkdir_loop (args : list (list Z)) : SU unit :=
  match args with
  | [] => exit 0
  | a :: rest =>
      z ← sysz (CMkdir a);
      if z <? 0 then fprintf 2 (ln "mkdir: %s failed to create") [str a] ;; exit 0 else mkdir_loop rest
  end.
Definition mkdir_main (args : list (list Z)) : prog Empty_set :=
  match args with
  | [] => (fprintf 2 (ln "Usage: mkdir files...") [] ;; exit 1) (λ _ : unit, Exit 0)
  | _ => mkdir_loop args (λ _, Exit 0)
  end.

Definition ln_main (args : list (list Z)) : prog Empty_set :=
  match args with
  | [old; new] =>
      (z ← sysz (CLink old new);
       (if z <? 0 then fprintf 2 (ln "link %s %s: failed") [str old; str new] else mret tt) ;;
       exit 0) (λ _ : unit, Exit 0)
  | _ => (fprintf 2 (ln "Usage: ln old new") [] ;; exit 1) (λ _ : unit, Exit 0)
  end.

Fixpoint kill_loop (args : list (list Z)) : SU unit :=
  match args with
  | [] => exit 0
  | a :: rest => sysz (CKill (atoi a)) ;; kill_loop rest
  end.
Definition kill_main (args : list (list Z)) : prog Empty_set :=
  match args with
  | [] => (fprintf 2 (ln "usage: kill pid...") [] ;; exit 1) (λ _ : unit, Exit 0)
  | _ => kill_loop args (λ _, Exit 0)
  end.

(** ** [user/init.c] *)

(** The heads of its two loops. *)
Inductive init_point : Type := InitLoop | InitWait (pid : Z).

Definition CONSOLE_MAJOR : Z := 1.

Definition init_main : prog init_point :=
  (fd ← sysz (COpen (bytes_of "console") O_RDWR);
   (if fd <? 0 then
      sysz (CMknod (bytes_of "console") CONSOLE_MAJOR 0) ;;
      sysz (COpen (bytes_of "console") O_RDWR)
    else mret 0) ;;
   sysz (CDup 0) ;;
   sysz (CDup 0) ;;
   goto InitLoop) (λ _ : unit, Exit 0).

Definition init_body (x : init_point) : prog init_point :=
  match x with
  | InitLoop =>
      (printf (ln "init: starting sh") [] ;;
       pid ← sysz CFork;
       if pid <? 0 then printf (ln "init: fork failed") [] ;; exit 1
       else if pid =? 0 then
         sysz (CExec (bytes_of "sh") [bytes_of "sh"]) ;;
         printf (ln "init: exec sh failed") [] ;;
         exit 1
       else goto (InitWait pid)) (λ _ : unit, Exit 0)
  | InitWait pid =>
      (wpid ← sysz CWait;
       if wpid =? pid then goto InitLoop
       else if wpid <? 0 then printf (ln "init: wait returned an error") [] ;; exit 1
       else goto (InitWait pid)) (λ _ : unit, Exit 0)
  end.

(** ** [cat] copies its input *)

(** A descriptor table with the standard files open and room for more. *)
Definition roomy (t : fds) : Prop :=
  is_Some (file_at t 0) ∧ is_Some (file_at t 1) ∧ is_Some (file_at t 2) ∧ t !! 3%nat = Some None.

(** The answers to the reads of a file in pieces and to the writes of [cat]. *)
Definition cat_answers (cs : list (list Z)) : list answer :=
  concat ((λ c, [(Z.of_nat (length c), c); (Z.of_nat (length c), [])]) <$> cs) ++ [(0, [])].

(** The pieces [read] cuts a file into. *)
Definition pieces (cs : list (list Z)) : Prop := Forall (λ c, 0 < Z.of_nat (length c) ≤ IOBUF) cs.

Lemma read_piece t fd c :
  is_Some (file_at t fd) → 0 < Z.of_nat (length c) ≤ IOBUF → accept 0 t (CRead fd IOBUF) (Z.of_nat (length c), c) = Some t.
Proof.
  intros Hfd Hc. unfold accept. destruct (Z.eqb_spec (Z.of_nat (length c)) (-1)); [lia|]. cbn [andb].
  rewrite bool_decide_eq_true_2 by done. rewrite (proj2 (Z.leb_le _ _)) by lia. by rewrite Z.eqb_refl.
Qed.

Lemma read_end t fd : is_Some (file_at t fd) → accept 0 t (CRead fd IOBUF) (0, []) = Some t.
Proof. intros Hfd. unfold accept. cbn. by rewrite bool_decide_eq_true_2. Qed.

Lemma write_whole t fd b :
  is_Some (file_at t fd) → accept 0 t (CWrite fd b) (Z.of_nat (length b), []) = Some t.
Proof.
  intros Hfd. unfold accept. destruct (Z.eqb_spec (Z.of_nat (length b)) (-1)); [lia|].
  rewrite bool_decide_eq_true_2 by done. rewrite (proj2 (Z.leb_le 0 _)), (proj2 (Z.leb_le _ (Z.of_nat (length b)))) by lia. done.
Qed.

Lemma cat_loop x fd after t cs l tr e :
  cat_body x = cat x fd (λ _, after) → is_Some (file_at t fd) → is_Some (file_at t 1) → pieces cs →
  life cat_body t l after = Some (tr, e) →
  ∃ tr', life cat_body t (cat_answers cs ++ l) (Goto x) = Some (tr', e) ∧ written 1 tr' = concat cs ++ written 1 tr.
Proof.
  intros Ex Hfd H1 Hcs Hl. unfold cat_answers. induction Hcs as [|c cs Hc _ IH].
  - exists ((CRead fd IOBUF, (0, [])) :: tr). split; [|done]. cbn [fmap list_fmap concat app]. rewrite (life_goto _ _ _ _ _ _ Ex), Ex.
    eapply life_call; [by apply read_end|]. exact Hl.
  - destruct IH as (tr' & E & Hw). eexists. split.
    + cbn [fmap list_fmap concat app]. rewrite (life_goto _ _ _ _ _ _ Ex), Ex.
      eapply life_call; [by apply read_piece|]. cbn [fst snd]. rewrite (proj2 (Z.gtb_lt _ _)) by lia.
      rewrite Nat2Z.id, take_ge by done. eapply life_call; [by apply write_whole|]. cbn [fst].
      rewrite Z.eqb_refl. cbn [negb]. exact E.
    + cbn. rewrite Nat2Z.id, take_ge, <- app_assoc by done. f_equal. exact Hw.
Qed.

(** [open] gives the descriptor 3 and [close] takes it back. *)
Lemma roomy_lowest t : roomy t → lowest t = Some 3%nat.
Proof.
  intros ([o0 H0] & [o1 H1] & [o2 H2] & H3). destruct t as [|[] [|[] [|[] [|[] t]]]]; cbn in *; try done; simplify_eq.
Qed.

Lemma open_roomy t path mode :
  roomy t → accept 0 t (COpen path mode) (3, []) = Some (<[3%nat := Some (OFile path mode)]> t).
Proof. intros Ht. cbn. by rewrite (roomy_lowest t Ht). Qed.

Lemma close_roomy t o : roomy t → accept 0 (<[3%nat := Some o]> t) (CClose 3) (0, []) = Some t.
Proof.
  intros Ht. pose proof (proj2 (proj2 (proj2 Ht))) as H3. pose proof (lookup_lt_Some _ _ _ H3). unfold accept, file_at.
  cbn [Z.ltb]. change (Z.to_nat 3) with 3%nat. rewrite list_lookup_insert_eq by done. cbn. f_equal.
  rewrite list_insert_insert_eq. by apply list_insert_id.
Qed.

Lemma roomy_file t o fd : roomy t → fd ∈ [0; 1; 2; 3] → is_Some (file_at (<[3%nat := Some o]> t) fd).
Proof.
  intros (H0 & H1 & H2 & H3) Hfd. pose proof (lookup_lt_Some _ _ _ H3).
  rewrite !elem_of_cons, elem_of_nil in Hfd. unfold file_at in *.
  destruct Hfd as [->|[->|[->|[->|[]]]]]; cbn [Z.ltb Z.compare] in *.
  1-3: by rewrite list_lookup_insert_ne.
  change (Z.to_nat 3) with 3%nat. rewrite list_lookup_insert_eq by done. by eexists.
Qed.

(** The answers to the files in turn. *)
Definition cat_all (fs : list (list Z * list (list Z))) : list answer :=
  concat ((λ f, (3, []) :: cat_answers f.2 ++ [(0, [])]) <$> fs).

Lemma cat_files_copies t fs :
  roomy t → Forall (λ f, pieces f.2) fs →
  ∃ tr, life cat_body t (cat_all fs) (cat_files fs.*1 (λ _, Exit 0)) = Some (tr, Exited 0) ∧
    written 1 tr = concat (@concat Z <$> fs.*2).
Proof.
  intros Ht. induction 1 as [|[f cs] fs Hcs _ IH]; [by exists []|]. destruct IH as (tr & E & Hw).
  set (t' := <[3%nat := Some (OFile f O_RDONLY)]> t).
  destruct (cat_loop (CatFile 3 fs.*1) 3 (Call (CClose 3) (λ _, cat_files fs.*1 (λ _, Exit 0))) t' cs ((0, []) :: cat_all fs)
    ((CClose 3, (0, [])) :: tr) (Exited 0)) as (tr' & E' & Hw').
  - done.
  - apply roomy_file; [done|set_solver].
  - apply roomy_file; [done|set_solver].
  - done.
  - eapply life_call; [by apply close_roomy|]. exact E.
  - exists ((COpen f O_RDONLY, (3, [])) :: tr'). split; [|transitivity (written 1 tr'); [done|by rewrite Hw'; cbn; f_equal]].
    unfold cat_all. cbn [fmap list_fmap concat fst snd app]. rewrite <- app_assoc.
    eapply life_call; [by apply open_roomy|]. exact E'.
Qed.

(** [cat] writes to its output the contents of its files one after another,
    or its input when it has no argument, however the reads are cut, and exits
    with 0. *)
Theorem cat_correct t fs cs :
  roomy t → Forall (λ f, pieces f.2) fs → pieces cs →
  (∃ tr, life cat_body t (cat_answers cs) (cat_main []) = Some (tr, Exited 0) ∧ written 1 tr = concat cs) ∧
  (fs ≠ [] → ∃ tr, life cat_body t (cat_all fs) (cat_main fs.*1) = Some (tr, Exited 0) ∧
    written 1 tr = concat (@concat Z <$> fs.*2)).
Proof.
  intros Ht Hfs Hcs. split.
  - destruct (cat_loop CatStdin 0 (Exit 0) t cs [] [] (Exited 0)) as (tr & E & Hw); try done; [apply Ht..|].
    rewrite app_nil_r in E, Hw. by exists tr.
  - intros Hne. destruct (cat_files_copies t fs Ht Hfs) as (tr & E & Hw). exists tr. split; [|done].
    destruct fs; [done|]. exact E.
Qed.

Definition util_fds : fds := Some (OGiven 0) :: Some (OGiven 1) :: Some (OGiven 2) :: replicate 13 None.
Definition two_files : list (list Z * list (list Z)) :=
  [(bytes_of "a", [bytes_of "one "; bytes_of "t"]); (bytes_of "b", [bytes_of "wo"])].

Lemma cat_correct_witness :
  ∃ tr, life cat_body util_fds (cat_all two_files) (cat_main two_files.*1) = Some (tr, Exited 0) ∧
    written 1 tr = bytes_of "one two".
Proof.
  refine (proj2 (cat_correct util_fds two_files [] _ _ _) _); [|repeat constructor; done..|done].
  repeat split; by eexists.
Defined.

(** ** [wc] counts *)

Definition wc_white (x : Z) : bool := match strchr [32; 13; 9; 10; 11] x with Some _ => true | None => false end.

(** The fields of a text between white space, empty ones included. *)
Fixpoint fields (s : list Z) : list (list Z) :=
  match s with
  | [] => [[]]
  | x :: s' =>
      if wc_white x then [] :: fields s'
      else match fields s' with f :: fs => (x :: f) :: fs | [] => [[x]] end
  end.
Definition count_words (s : list Z) : Z := Z.of_nat (length (filter (λ f, f ≠ []) (fields s))).
Definition count_lines (s : list Z) : Z := Z.of_nat (length (filter (λ x, x = 10) s)).

(** The words that start in [s], when a word is being read before it or not. *)
Fixpoint word_starts (inword : bool) (s : list Z) : Z :=
  match s with
  | [] => 0
  | x :: s' => if wc_white x then word_starts false s' else (if inword then 0 else 1) + word_starts true s'
  end.

Lemma fields_cons s : ∃ f fs, fields s = f :: fs.
Proof. induction s as [|x s (f & fs & E)]; [by eexists _, _|]. cbn. rewrite E. destruct (wc_white x); by eexists _, _. Qed.

Lemma word_starts_fields s :
  word_starts false s = count_words s ∧
  word_starts true s = count_words s - (match fields s with [] :: _ => 0 | _ => 1 end).
Proof.
  unfold count_words. induction s as [|x s [IH1 IH2]]; [done|]. destruct (fields_cons s) as (f & fs & E).
  cbn [word_starts fields]. destruct (wc_white x).
  - rewrite filter_cons_False by auto. rewrite IH1. lia.
  - rewrite E in *. rewrite filter_cons_True by done. rewrite filter_cons in IH2. rewrite IH2.
    destruct f; case_decide; cbn [length]; try done; lia.
Qed.

Lemma word_starts_bound b s : 0 ≤ word_starts b s ≤ Z.of_nat (length s).
Proof. revert b. induction s as [|x s IH]; intros b; [done|]. cbn [word_starts length]. pose proof (IH true). pose proof (IH false). repeat case_match; lia. Qed.

(** Whether a word is being read after [s]. *)
Definition ends_in_word (b : bool) (s : list Z) : bool := foldl (λ _ x, negb (wc_white x)) b s.

Lemma wc_fold s st :
  0 ≤ wc_l st ≤ wc_c st → 0 ≤ wc_w st ≤ wc_c st → wc_c st + Z.of_nat (length s) < 2 ^ 31 →
  foldl wc_char st s =
    mkCounts (wc_l st + count_lines s) (wc_w st + word_starts (wc_in st) s) (wc_c st + Z.of_nat (length s))
      (ends_in_word (wc_in st) s).
Proof.
  revert st. induction s as [|x s IH]; intros [l w c b] Hl Hw Hc; cbn [wc_l wc_w wc_c wc_in length] in *.
  - unfold count_lines. cbn. f_equal; lia.
  - cbn [foldl]. assert (wc_char (mkCounts l w c b) x =
      mkCounts (if x =? 10 then l + 1 else l) (if wc_white x then w else if b then w else w + 1) (c + 1) (negb (wc_white x))) as ->.
    { unfold wc_char, wc_white. cbn [wc_l wc_w wc_c wc_in]. rewrite !s32_small by lia. by destruct (strchr _ x). }
    rewrite IH; cbn [wc_l wc_w wc_c wc_in]; [|repeat case_match; lia..|lia].
    unfold count_lines. rewrite filter_cons. cbn [word_starts]. unfold ends_in_word. cbn [foldl].
    f_equal; [|by destruct (wc_white x), b; cbn [negb]; lia|lia].
    destruct (Z.eqb_spec x 10); case_decide; cbn [length]; try done; lia.
Qed.

(** The line printed for some counts, and for a text. *)
Definition count_line (name : list Z) (l w c : Z) : list Z :=
  default [] (vprintf user_digits (ln "%d %d %d %s") [VInt l; VInt w; VInt c; str name]).
Definition wc_line (name s : list Z) : list Z :=
  count_line name (count_lines s) (count_words s) (Z.of_nat (length s)).

Definition wc_answers (name : list Z) (cs : list (list Z)) : list answer :=
  ((λ c, (Z.of_nat (length c), c)) <$> cs) ++ (0, []) :: replicate (length (wc_line name (concat cs))) (1, []).

Lemma wc_loop x fd name after t cs st l tr e :
  (∀ st, wc_body (x st) = wc x fd name st (λ _, after)) → is_Some (file_at t fd) → is_Some (file_at t 1) → pieces cs →
  life wc_body t l after = Some (tr, e) →
  let s := foldl wc_char st (concat cs) in
  let line := count_line name (wc_l s) (wc_w s) (wc_c s) in
  ∃ tr', life wc_body t (((λ c, (Z.of_nat (length c), c)) <$> cs) ++ (0, []) :: replicate (length line) (1, []) ++ l)
           (Goto (x st)) = Some (tr', e) ∧ written 1 tr' = line ++ written 1 tr.
Proof.
  intros Ex Hfd H1 Hcs Hl. revert st. induction Hcs as [|c cs Hc _ IH]; intros st s line.
  - destruct (life_emit wc_body 1 line t l (λ _, after) tr e H1 Hl) as (tr' & E & Hw).
    exists ((CRead fd IOBUF, (0, [])) :: tr'). split; [|transitivity (written 1 tr'); [done|apply Hw]].
    cbn [fmap list_fmap app]. rewrite (life_goto _ _ _ _ _ _ (Ex st)), Ex. eapply life_call; [by apply read_end|]. exact E.
  - destruct (IH (foldl wc_char st c)) as (tr' & E & Hw). rewrite <- foldl_app in E, Hw.
    exists ((CRead fd IOBUF, (Z.of_nat (length c), c)) :: tr'). split; [|transitivity (written 1 tr'); [done|apply Hw]].
    cbn [fmap list_fmap app]. rewrite (life_goto _ _ _ _ _ _ (Ex st)), Ex. eapply life_call; [by apply read_piece|].
    cbn [fst snd]. rewrite (proj2 (Z.gtb_lt _ _)) by lia. rewrite Nat2Z.id, take_ge by done. exact E.
Qed.

(** From the start of a file the line is the one of its text. *)
Lemma wc_counts_text name s :
  Z.of_nat (length s) < 2 ^ 31 →
  let st := foldl wc_char wc0 s in count_line name (wc_l st) (wc_w st) (wc_c st) = wc_line name s.
Proof.
  intros Hs st. unfold st. rewrite wc_fold by done. cbn [wc_l wc_w wc_c wc_in wc0]. rewrite !Z.add_0_l.
  by rewrite (proj1 (word_starts_fields s)).
Qed.

Definition wc_all (fs : list (list Z * list (list Z))) : list answer :=
  concat ((λ f, (3, []) :: wc_answers f.1 f.2 ++ [(0, [])]) <$> fs).

(** The files are cut in pieces and are shorter than 2 GB. *)
Definition wc_input (f : list Z * list (list Z)) : Prop := pieces f.2 ∧ Z.of_nat (length (concat f.2)) < 2 ^ 31.

Lemma wc_file x fd name after t cs l tr e :
  (∀ st, wc_body (x st) = wc x fd name st (λ _, after)) → is_Some (file_at t fd) → is_Some (file_at t 1) →
  wc_input (name, cs) → life wc_body t l after = Some (tr, e) →
  ∃ tr', life wc_body t (wc_answers name cs ++ l) (Goto (x wc0)) = Some (tr', e) ∧
    written 1 tr' = wc_line name (concat cs) ++ written 1 tr.
Proof.
  intros Ex Hfd H1 [Hcs Hlen] Hl. destruct (wc_loop x fd name after t cs wc0 l tr e Ex Hfd H1 Hcs Hl) as (tr' & E & Hw).
  cbv zeta in E, Hw. rewrite wc_counts_text in E, Hw by done. exists tr'. split; [|done].
  unfold wc_answers. by rewrite <- app_assoc.
Qed.

Lemma wc_files_counts t fs :
  roomy t → Forall wc_input fs →
  ∃ tr, life wc_body t (wc_all fs) (wc_files fs.*1 (λ _, Exit 0)) = Some (tr, Exited 0) ∧
    written 1 tr = concat ((λ f, wc_line f.1 (concat f.2)) <$> fs).
Proof.
  intros Ht. induction 1 as [|[f cs] fs Hf _ IH]; [by exists []|]. destruct IH as (tr & E & Hw).
  set (t' := <[3%nat := Some (OFile f O_RDONLY)]> t).
  destruct (wc_file (λ s, WcFile 3 f s fs.*1) 3 f (Call (CClose 3) (λ _, wc_files fs.*1 (λ _, Exit 0))) t' cs
    ((0, []) :: wc_all fs) ((CClose 3, (0, [])) :: tr) (Exited 0)) as (tr' & E' & Hw'); try done.
  - apply roomy_file; [done|set_solver].
  - apply roomy_file; [done|set_solver].
  - eapply life_call; [by apply close_roomy|]. exact E.
  - exists ((COpen f O_RDONLY, (3, [])) :: tr'). split; [|transitivity (written 1 tr'); [done|by rewrite Hw'; cbn; f_equal]].
    unfold wc_all. cbn [fmap list_fmap concat fst snd app]. rewrite <- app_assoc.
    eapply life_call; [by apply open_roomy|]. exact E'.
Qed.

(** [wc] prints for each file, or for its input when it has no argument,
    the number of its newlines, of its fields between white space that are not
    empty, and of its characters, with its name, however the reads are cut, and
    exits with 0. *)
Theorem wc_correct t fs cs :
  roomy t → Forall wc_input fs → wc_input ([], cs) →
  (∃ tr, life wc_body t (wc_answers [] cs) (wc_main []) = Some (tr, Exited 0) ∧ written 1 tr = wc_line [] (concat cs)) ∧
  (fs ≠ [] → ∃ tr, life wc_body t (wc_all fs) (wc_main fs.*1) = Some (tr, Exited 0) ∧
    written 1 tr = concat ((λ f, wc_line f.1 (concat f.2)) <$> fs)).
Proof.
  intros Ht Hfs Hcs. split.
  - destruct (wc_file WcStdin 0 [] (Exit 0) t cs [] [] (Exited 0)) as (tr & E & Hw); try done; [apply Ht..|].
    rewrite app_nil_r in E, Hw. by exists tr.
  - intros Hne. destruct (wc_files_counts t fs Ht Hfs) as (tr & E & Hw). exists tr. split; [|done].
    destruct fs; [done|]. exact E.
Qed.

Lemma wc_correct_witness :
  ∃ tr, life wc_body util_fds (wc_all [(bytes_of "f", [bytes_of "to be "; ln "or"; bytes_of " not"])])
          (wc_main [bytes_of "f"]) = Some (tr, Exited 0) ∧
    written 1 tr = ln "1 4 13 f".
Proof.
  destruct (wc_correct util_fds [(bytes_of "f", [bytes_of "to be "; ln "or"; bytes_of " not"])] []) as [_ H].
  - repeat split; by eexists.
  - repeat constructor; done.
  - repeat constructor; done.
  - destruct H as (tr & E & Hw); [done|]. exists tr. split; [exact E|]. rewrite Hw. vm_compute. reflexivity.
Defined.

(** ** [echo] *)

(** Arguments with a space between them and a newline at the end. *)
Fixpoint echo_text (args : list (list Z)) : list Z :=
  match args with
  | [] => []
  | [a] => a ++ [10]
  | a :: rest => a ++ 32 :: echo_text rest
  end.

Lemma echo_correct t args :
  is_Some (file_at t 1) →
  ∃ tr, life straight t (concat ((λ a, [(Z.of_nat (length a), []); (1, [])]) <$> args)) (echo_main args) = Some (tr, Exited 0) ∧
    written 1 tr = echo_text args.
Proof.
  intros H1. unfold echo_main. induction args as [|a args (tr & E & Hw)]; [by exists []|].
  eexists. split.
  - cbn [fmap list_fmap concat app echo_loop]. eapply life_call; [by apply write_whole|].
    eapply (life_call _ t t); [|exact E]. by destruct args; apply (write_whole t 1 [_]).
  - unfold written in *. cbn. rewrite Nat2Z.id, take_ge, Hw by done. by destruct args.
Qed.

(** ** [init] keeps one shell *)

(** A trace is watched with the pid of the shell that runs, if one does: a
    shell is started only when none runs, and is over when [wait] returns its
    pid. *)
Fixpoint one_shell (sh : option Z) (tr : list (call * answer)) : bool :=
  match tr with
  | [] => true
  | (CFork, (z, _)) :: tr' => bool_decide (sh = None) && one_shell (if z >? 0 then Some z else None) tr'
  | (CWait, (z, _)) :: tr' => bool_decide (is_Some sh) && one_shell (if bool_decide (sh = Some z) then None else sh) tr'
  | (CKill _, _) :: _ => false
  | _ :: tr' => one_shell sh tr'
  end.

(** [watched n sh p]: the next [n] calls of [p] keep to it. *)
Definition watched (n : nat) (sh : option Z) (p : prog init_point) : Prop :=
  ∀ l, (length l ≤ n)%nat → one_shell sh (trail init_body l p).1 = true.

Lemma watched_0 sh p : watched 0 sh p.
Proof. intros [|]; cbn; [done|lia]. Qed.

Lemma watched_exit n sh z : watched n sh (Exit z).
Proof. by intros [|]. Qed.

Lemma watched_call n sh c k :
  match c with CFork | CWait | CKill _ => False | _ => True end → (∀ a, watched n sh (k a)) → watched (S n) sh (Call c k).
Proof.
  intros Hc Hk [|a l] Hl; [done|]. cbn [trail unroll]. specialize (Hk a l ltac:(cbn in Hl; lia)).
  destruct (trail init_body l (k a)) as [tr q]. cbn [fst] in *. by destruct c.
Qed.

Lemma watched_le n m sh p : watched m sh p → (n ≤ m)%nat → watched n sh p.
Proof. intros H Hn l Hl. apply H. lia. Qed.

Lemma watched_emit n sh fd bs k : watched n sh (k tt) → watched n sh (emit fd bs k).
Proof.
  intros H. destruct n as [|n]; [apply watched_0|]. revert n H. induction bs as [|c bs IH]; intros n H; [done|].
  apply watched_call; [done|]. intros a. destruct n as [|n]; [apply watched_0|]. apply IH. eapply watched_le; [done|lia].
Qed.

Lemma watched_goto n sh x : watched n sh (init_body x) → watched n sh (Goto x).
Proof. intros H [|a l] Hl; [done|]. specialize (H (a :: l) Hl). by destruct x. Qed.

Lemma watched_fork n k :
  (∀ z out, watched n (if z >? 0 then Some z else None) (k (z, out))) → watched (S n) None (Call CFork k).
Proof.
  intros Hk [|[z out] l] Hl; [done|]. cbn [trail unroll]. specialize (Hk z out l ltac:(cbn in Hl; lia)).
  destruct (trail init_body l (k (z, out))) as [tr q]. cbn [fst one_shell] in *. by rewrite bool_decide_eq_true_2.
Qed.

Lemma watched_wait n pid k :
  (∀ z out, watched n (if bool_decide (Some pid = Some z) then None else Some pid) (k (z, out))) →
  watched (S n) (Some pid) (Call CWait k).
Proof.
  intros Hk [|[z out] l] Hl; [done|]. cbn [trail unroll]. specialize (Hk z out l ltac:(cbn in Hl; lia)).
  destruct (trail init_body l (k (z, out))) as [tr q]. cbn [fst one_shell] in *. by rewrite bool_decide_eq_true_2.
Qed.

Lemma init_watched n : watched n None (Goto InitLoop) ∧ ∀ pid, 0 < pid → watched n (Some pid) (Goto (InitWait pid)).
Proof.
  induction n as [|n [IH1 IH2]]; [split; intros; apply watched_0|]. split; [|intros pid Hpid]; apply watched_goto.
  - apply watched_emit, watched_fork. intros z out. cbn [fst]. rewrite Z.gtb_ltb.
    destruct (Z.ltb_spec z 0) as [Hz|Hz]; [|destruct (Z.eqb_spec z 0) as [->|Hz0]].
    + apply watched_emit, watched_exit.
    + destruct n as [|n]; [apply watched_0|]. apply watched_call; [done|]. intros _. apply watched_emit, watched_exit.
    + rewrite (proj2 (Z.ltb_lt 0 z)) by lia. apply IH2. lia.
  - apply watched_wait. intros z out. cbn [fst]. destruct (Z.eqb_spec z pid) as [->|Hne].
    + by rewrite bool_decide_eq_true_2.
    + rewrite bool_decide_eq_false_2 by naive_solver. destruct (z <? 0); [apply watched_emit, watched_exit|by apply IH2].
Qed.

(** Whatever the kernel answers, and however many orphans [wait] returns,
    [init] starts a shell only when none is running: after it has forked one,
    it forks again only once [wait] has returned that shell's pid. *)
Theorem init_correct l : one_shell None (trail init_body l init_main).1 = true.
Proof.
  assert (∀ n, watched n None (Goto InitLoop)) as HI by (intros n; apply init_watched).
  enough (watched (length l) None init_main) as H by (by apply H).
  generalize (length l). intros n.
  assert (∀ n, watched n None (Call (CDup 0) (λ _, Call (CDup 0) (λ _, Goto InitLoop)))) as HD.
  { intros [|[|n']]; repeat (apply watched_0 || (apply watched_call; [done|intros _]) || apply HI). }
  destruct n as [|n]; [apply watched_0|]. apply watched_call; [done|]. intros [z out]. cbn [fst].
  unfold mbind, U_bind. destruct (z <? 0); [|apply HD].
  destruct n as [|[|n]]; repeat (apply watched_0 || apply HD || (apply watched_call; [done|intros _])).
Qed.
