(* ===== verification/Tools.v ===== *)
(** * The power and usage tools as programs ([user/powerctl.c],
    [user/usagectl.c], [user/usagestat.c], [user/syshealth.c],
    [user/powerdemo.c], [user/writer.c])

    The decisions of [powerctl] and [usagectl] are the functions of
    Proccost.v; here are the programs with their messages.  The theorems: the
    programs make the system call of the decision and no other, and exit with
    0 exactly when it succeeds; [powerdemo] leaves no child behind; [writer]
    makes the writes it was asked for. *)

From Stdlib Require Import ZArith Lia.
From S2P Require Import Prelude Params Printf Uprintf Ulib Proccost Uprog Utils.
From stdpp Require Import base gmap strings numbers list.

Open Scope Z_scope.
#[local] Opaque vprintf.

(** ** powerctl *)

Definition powerctl_usage : SU unit :=
  fprintf 2 (ln "usage:") [] ;;
  fprintf 2 (ln "  powerctl <pid> <normal|eco>") [] ;;
  fprintf 2 (ln "  powerctl <pid> limit <ticks_per_window>") [] ;;
  fprintf 2 (ln "  powerctl <pid> stats") [].

(** [if(c < 0){ fprintf(efd, err, eap); exit(1); } printf(msg, ap); exit(0);] *)
Definition report (c : call) (efd : Z) (err : list Z) (eap : list varg) (msg : list Z) (ap : Z → list varg) : SU unit :=
  z ← sysz c;
  (if z <? 0 then fprintf efd err eap ;; exit 1 else mret tt) ;;
  printf msg (ap z) ;;
  exit 0.

Definition powerctl_main (args : list (list Z)) : prog Empty_set :=
  match args with
  | a1 :: a2 :: rest =>
      (let pid := atoi a1 in
       (if pid <=? 0 then fprintf 2 (ln "powerctl: invalid pid '%s'") [str a1] ;; exit 1 else mret tt) ;;
       if strcmp a2 (bytes_of "normal") =? 0 then
         report (CSetpowermode pid 0) 2 (ln "powerctl: setpowermode failed for pid %d") [VInt pid]
           (ln "pid %d power mode set to normal") (λ _, [VInt pid])
       else if strcmp a2 (bytes_of "eco") =? 0 then
         report (CSetpowermode pid 1) 2 (ln "powerctl: setpowermode failed for pid %d") [VInt pid]
           (ln "pid %d power mode set to eco") (λ _, [VInt pid])
       else if strcmp a2 (bytes_of "limit") =? 0 then
         match rest with
         | [] => powerctl_usage ;; exit 1
         | a3 :: _ =>
             let limit := atoi a3 in
             (if limit <? 0 then fprintf 2 (ln "powerctl: limit must be >= 0") [] ;; exit 1 else mret tt) ;;
             report (CSetcpulimit pid limit) 2 (ln "powerctl: setcpulimit failed for pid %d") [VInt pid]
               (ln "pid %d cpu limit set to %d ticks/window") (λ _, [VInt pid; VInt limit])
         end
       else if strcmp a2 (bytes_of "stats") =? 0 then
         report (CGetcputicks pid) 2 (ln "powerctl: failed to query stats for pid %d") [VInt pid]
           (ln "pid %d cpu ticks total=%d") (λ ticks, [VInt pid; VInt ticks])
       else powerctl_usage ;; exit 1) (λ _, Exit 0)
  | _ => (powerctl_usage ;; exit 1) (λ _ : unit, Exit 0)
  end.

(** ** usagectl and usagestat; [return] from [main] is [exit] in [start] of
    [user/ulib.c] *)

(** The arrow of the message, as the compiler encodes it. *)
Definition ARROW : list Z := [226; 134; 146].

Definition usagectl_main (args : list (list Z)) : prog Empty_set :=
  match args with
  | [a1; a2] =>
      (let pid := atoi a1 in
       let max := atoi a2 in
       report (CSetusagelimit pid max) 1 (ln "Error: invalid PID or failed to set limit") []
         (bytes_of "Limit set: PID %d " ++ ARROW ++ ln " %d ticks") (λ _, [VInt pid; VInt max])) (λ _, Exit 0)
  | _ => (printf (ln "usage: usagectl <pid> <max_ticks>") [] ;; exit 1) (λ _ : unit, Exit 0)
  end.

(** The fields of [struct usagestats] are what the call stores. *)
Definition usagestat_main (args : list (list Z)) : prog Empty_set :=
  match args with
  | [a1] =>
      (let pid := atoi a1 in
       a ← sys (CGetusagestats pid);
       (if a.1 <? 0 then printf (ln "Process not found") [] ;; exit 1 else mret tt) ;;
       printf (ln "PID: %d | CPU Ticks: %lu | Limit: %lu") [VInt pid; VInt (nth 0 a.2 0); VInt (nth 1 a.2 0)] ;;
       exit 0) (λ _ : unit, Exit 0)
  | _ => (printf (ln "usage: usagestat <pid>") [] ;; exit 1) (λ _ : unit, Exit 0)
  end.

(** ** syshealth *)

(** The fields of [struct syshealth], in order. *)
Definition syshealth_main (args : list (list Z)) : prog Empty_set :=
  (let verbose := match args with a1 :: _ => strcmp a1 (bytes_of "-v") =? 0 | [] => false end in
   a ← sys CGetsyshealth;
   (if a.1 <? 0 then fprintf 2 (ln "syshealth: syscall failed") [] ;; exit 1 else mret tt) ;;
   let f i := VInt (nth i a.2 0) in
   (if (verbose : bool) then
      printf (ln "=== xv6 System Health Report ===") [] ;;
      printf (ln "Uptime (ticks)      : %d") [f 0%nat] ;;
      printf (ln "Active CPU ticks    : %d") [f 1%nat] ;;
      printf (ln "Idle CPU ticks      : %d") [f 2%nat] ;;
      printf (ln "Context switches    : %d") [f 3%nat] ;;
      printf (ln "Procs (run/ready)   : %d") [f 4%nat] ;;
      printf (ln "Procs (total)       : %d") [f 5%nat] ;;
      printf (ln "Free pages          : %d") [f 6%nat] ;;
      printf (ln "Free memory (KB)    : %d") [VInt (nth 6 a.2 0 * 4)] ;;
      printf (ln "================================") []
    else
      printf (ln "uptime=%d active=%d idle=%d ctxsw=%d run=%d total=%d free_pages=%d")
        [f 0%nat; f 1%nat; f 2%nat; f 3%nat; f 4%nat; f 5%nat; f 6%nat]) ;;
   exit 0) (λ _ : unit, Exit 0).

(** ** powerdemo *)

Inductive demo_point : Type := Burn.
(** [burn_cpu] never returns.  The two [getcputicks] of one [printf] are made
    from left to right. *)
Definition demo_body (x : demo_point) : prog demo_point := Goto x.

Definition powerdemo_main : prog demo_point :=
  (normal ← sysz CFork;
   (if normal <? 0 then fprintf 2 (ln "powerdemo: fork failed for normal process") [] ;; exit 1 else mret tt) ;;
   (if normal =? 0 then goto Burn else mret tt) ;;
   eco ← sysz CFork;
   (if eco <? 0 then
      fprintf 2 (ln "powerdemo: fork failed for eco process") [] ;;
      sysz (CKill normal) ;; sysz CWait ;; exit 1
    else mret tt) ;;
   (if eco =? 0 then goto Burn else mret tt) ;;
   sysz (CPause 5) ;;
   z ← sysz (CSetpowermode eco 1);
   bad ← (if z <? 0 then mret true else y ← sysz (CSetcpulimit eco 3); mret (y <? 0));
   (if (bad : bool) then
      fprintf 2 (ln "powerdemo: failed to configure throttling for pid %d") [VInt eco] ;;
      sysz (CKill normal) ;; sysz (CKill eco) ;; sysz CWait ;; sysz CWait ;; exit 1
    else mret tt) ;;
   printf (ln "powerdemo: normal pid=%d, eco pid=%d (eco + budget=3 ticks/window)") [VInt normal; VInt eco] ;;
   sysz (CPause 60) ;;
   n ← sysz (CGetcputicks normal);
   m ← sysz (CGetcputicks eco);
   printf (ln "powerdemo result: normal_ticks=%d eco_ticks=%d") [VInt n; VInt m] ;;
   sysz (CKill normal) ;; sysz (CKill eco) ;; sysz CWait ;; sysz CWait ;; exit 0) (λ _ : unit, Exit 0).

(** ** writer *)

Definition writer_file : list Z := bytes_of "writer.log".

Fixpoint positive_loop (n : Z) (s : list Z) : Z :=
  match s with
  | [] => if n <=? 0 then -1 else n
  | c :: s' => if (c <? 48) || (c >? 57) then -1 else positive_loop (s32 (n * 10 + (c - 48))) s'
  end.
(** [s] is not the null pointer. *)
Definition parse_positive_int (s : list Z) : Z := match s with [] => -1 | _ => positive_loop 0 s end.

Inductive writer_point : Type := WriterLoop (max_iters iter : Z).

Definition writer_buf : list Z := (λ i, 65 + i mod 26) <$> seqZ 0 128.

(** The inner loop, [n] rounds. *)
Fixpoint writer_writes (n : nat) (fd : Z) : U writer_point unit :=
  match n with
  | O => mret tt
  | S n' =>
      z ← sysz (CWrite fd writer_buf);
      if z <? 0 then printf (ln "writer: write error on %s") [str writer_file] ;; sysz (CClose fd) ;; exit 1
      else writer_writes n' fd
  end.

Definition writer_iteration (max_iters iter : Z) : prog writer_point :=
  (fd ← sysz (COpen writer_file (Z.lor O_CREATE O_WRONLY));
   (if fd <? 0 then printf (ln "writer: failed to open %s") [str writer_file] ;; exit 1 else mret tt) ;;
   writer_writes 8 fd ;;
   sysz (CClose fd) ;;
   goto (WriterLoop max_iters (s32 (iter + 1)))) (λ _ : unit, Exit 0).

Definition writer_body (x : writer_point) : prog writer_point :=
  let '(WriterLoop max_iters iter) := x in
  if (max_iters >? 0) && (iter >=? max_iters) then Exit 0 else writer_iteration max_iters iter.

Definition writer_main (args : list (list Z)) : prog writer_point :=
  match args with
  | [] => Goto (WriterLoop (-1) 0)
  | a :: _ =>
      let max_iters := parse_positive_int a in
      if max_iters <? 0 then (printf (ln "writer: invalid limit '%s'") [str a] ;; exit 1) (λ _ : unit, Exit 0)
      else Goto (WriterLoop max_iters 0)
  end.

(** ** What the tools ask of the kernel *)

(** The calls other than writes. *)
Definition is_write (c : call) : bool := match c with CWrite _ _ => true | _ => false end.
Definition asked (tr : list (call * answer)) : list (call * answer) := filter (λ ca, is_write ca.1 = false) tr.

Definition request_call (r : request) : option call :=
  match r with
  | SetPowerMode pid mode => Some (CSetpowermode pid mode)
  | SetCpuLimit pid limit => Some (CSetcpulimit pid limit)
  | GetCpuTicks pid => Some (CGetcputicks pid)
  | SetUsageLimit pid max => Some (CSetusagelimit pid max)
  | Usage | InvalidPid | InvalidLimit => None
  end.

(** The run makes the call, if any, and its success is the exit status. *)
Definition answers_request (c : option call) (tr : list (call * answer)) (e : ending) : Prop :=
  match c with
  | Some c => ∃ a, asked tr = [(c, a)] ∧ e = Exited (if a.1 <? 0 then 1 else 0)
  | None => asked tr = [] ∧ e = Exited 1
  end.

Section Asks.
Context {X : Type} (body : X → prog X).
Notation life := (life body).

Lemma life_call_inv t l c k tr e :
  match c with CExec _ _ => False | _ => True end → life t l (Call c k) = Some (tr, e) →
  ∃ a t' l' tr', accept 0 t c a = Some t' ∧ life t' l' (k a) = Some (tr', e) ∧ tr = (c, a) :: tr'.
Proof.
  intros Hc. destruct l as [|a l]; cbn; [by destruct c|]. destruct (accept 0 t c a) as [t'|] eqn:Ha; [|by destruct c].
  destruct (life t' l (k a)) as [[tr' e']|] eqn:E; [|by destruct c]. intros H. exists a, t', l, tr'. destruct c; by simplify_eq.
Qed.

Lemma life_ask_inv t l c k tr e :
  match c with CExec _ _ | CWrite _ _ => False | _ => True end → life t l (Call c k) = Some (tr, e) →
  ∃ a t' l' tr', accept 0 t c a = Some t' ∧ life t' l' (k a) = Some (tr', e) ∧ asked tr = (c, a) :: asked tr'.
Proof.
  intros Hc H. apply life_call_inv in H as (a & t' & l' & tr' & Ha & H & ->); [|by destruct c].
  exists a, t', l', tr'. split_and!; [done|done|]. apply filter_cons_True. by destruct c.
Qed.

Lemma life_emit_inv fd bs t l k tr e :
  life t l (emit fd bs k) = Some (tr, e) → ∃ t' l' tr', life t' l' (k tt) = Some (tr', e) ∧ asked tr = asked tr'.
Proof.
  revert t l tr. induction bs as [|c bs IH]; intros t l tr H; [by eexists _, _, _|].
  apply life_call_inv in H as (a & t' & l' & tr' & _ & H & ->); [|done]. by apply IH in H.
Qed.

Lemma life_exit_inv t l z tr e : life t l (Exit z) = Some (tr, e) → tr = [] ∧ e = Exited z.
Proof. destruct l; cbn; naive_solver. Qed.

(** A message, then [exit(z)]. *)
Lemma life_message_inv fd bs t l k z tr e :
  (∀ u, k u = Exit z) → life t l (emit fd bs k) = Some (tr, e) → asked tr = [] ∧ e = Exited z.
Proof.
  intros Hk H. apply life_emit_inv in H as (t' & l' & tr' & H & ->). rewrite Hk in H.
  by apply life_exit_inv in H as [-> ->].
Qed.

End Asks.

Section Tools.
Notation life := (life straight).

Lemma report_inv c efd err eap msg ap k t l tr e :
  match c with CExec _ _ | CWrite _ _ => False | _ => True end →
  life t l (report c efd err eap msg ap k) = Some (tr, e) → answers_request (Some c) tr e.
Proof.
  intros Hc H. apply life_ask_inv in H as (a & t' & l' & tr' & _ & H & E); [|done]. exists a. rewrite E. clear E.
  unfold mbind, U_bind in H. destruct (a.1 <? 0).
  - by apply (life_message_inv _ _ _ _ _ _ 1) in H as [-> ->].
  - by apply (life_message_inv _ _ _ _ _ _ 0) in H as [-> ->].
Qed.

Lemma usage_inv k t l tr e : life t l ((powerctl_usage ;; exit 1) (k : unit → prog Empty_set)) = Some (tr, e) → answers_request None tr e.
Proof.
  intros H. unfold answers_request. do 3 (apply life_emit_inv in H as (? & ? & ? & H & E); rewrite E; clear E).
  by apply (life_message_inv _ _ _ _ _ _ 1) in H.
Qed.

End Tools.

(** [powerctl] makes the one system call its arguments say, or none when
    they are wrong; it exits with 0 exactly when the call was made and
    succeeded. *)
Theorem powerctl_correct args t l tr e :
  life straight t l (powerctl_main args) = Some (tr, e) → answers_request (request_call (powerctl args)) tr e.
Proof.
  unfold powerctl_main, powerctl. destruct args as [|a1 [|a2 rest]]; [apply usage_inv..|]. cbv zeta.
  unfold mbind at 1, U_bind at 1. destruct (atoi a1 <=? 0); [by apply life_message_inv|].
  change (mret tt) with (λ k : unit → prog Empty_set, k tt). cbv beta.
  destruct (strcmp a2 (bytes_of "normal") =? 0); [by apply report_inv|].
  destruct (strcmp a2 (bytes_of "eco") =? 0); [by apply report_inv|].
  destruct (strcmp a2 (bytes_of "limit") =? 0).
  - destruct rest as [|a3 rest]; [apply usage_inv|]. unfold mbind at 1, U_bind at 1.
    destruct (atoi a3 <? 0); [by apply life_message_inv|by apply report_inv].
  - destruct (strcmp a2 (bytes_of "stats") =? 0); [by apply report_inv|apply usage_inv].
Qed.

Lemma powerctl_correct_witness :
  ∃ tr, life straight util_fds ((0, []) :: replicate 28 (1, [])) (powerctl_main [bytes_of "7"; bytes_of "eco"]) = Some (tr, Exited 0) ∧
    answers_request (Some (CSetpowermode 7 1)) tr (Exited 0).
Proof.
  eexists. split; [vm_compute; reflexivity|].
  refine (powerctl_correct [bytes_of "7"; bytes_of "eco"] util_fds ((0, []) :: replicate 28 (1, [])) _ _ _).
  vm_compute. reflexivity.
Defined.

(** The same for [usagectl]. *)
Lemma usagectl_correct args t l tr e :
  life straight t l (usagectl_main args) = Some (tr, e) → answers_request (request_call (usagectl args)) tr e.
Proof.
  unfold usagectl_main, usagectl. destruct args as [|a1 [|a2 [|a3 args]]]; cbn [request_call]; [| |apply report_inv; done|].
  all: by apply life_message_inv.
Qed.

(** ** [powerdemo] leaves no child behind *)

Definition forked (tr : list (call * answer)) : list Z :=
  omap (λ ca, match ca.1 with CFork => if ca.2.1 >? 0 then Some ca.2.1 else None | _ => None end) tr.
Definition killed (tr : list (call * answer)) : list Z :=
  omap (λ ca, match ca.1 with CKill pid => Some pid | _ => None end) tr.
Definition waits (tr : list (call * answer)) : nat := length (filter (λ ca, ca.1 = CWait) tr).

Lemma counted_cons c a tr :
  forked ((c, a) :: tr) = (match c with CFork => if a.1 >? 0 then [a.1] else [] | _ => [] end) ++ forked tr ∧
  killed ((c, a) :: tr) = (match c with CKill pid => [pid] | _ => [] end) ++ killed tr ∧
  waits ((c, a) :: tr) = ((match c with CWait => 1 | _ => 0 end) + waits tr)%nat.
Proof.
  split_and!; [destruct c; try done; cbn; by destruct (a.1 >? 0)|by destruct c|].
  unfold waits. rewrite filter_cons. destruct c; case_decide; done.
Qed.
(** Counts in a trace whose first calls are known. *)
Ltac count := repeat match goal with
  | |- context [forked ((?c, ?a) :: ?tr)] => rewrite (proj1 (counted_cons c a tr))
  | |- context [killed ((?c, ?a) :: ?tr)] => rewrite (proj1 (proj2 (counted_cons c a tr)))
  | |- context [waits ((?c, ?a) :: ?tr)] => rewrite (proj2 (proj2 (counted_cons c a tr)))
  end; cbn [fst app].

(** What a run is left with does not depend on what it prints. *)
Lemma counted_asked tr :
  forked (asked tr) = forked tr ∧ killed (asked tr) = killed tr ∧ waits (asked tr) = waits tr.
Proof.
  unfold asked, forked, killed, waits. induction tr as [|[c a] tr (IH1 & IH2 & IH3)]; [done|].
  destruct (is_write c) eqn:E.
  - rewrite filter_cons_False by (cbn; congruence). by destruct c.
  - rewrite filter_cons_True by done. split_and!; [cbn; by rewrite IH1|cbn; by rewrite IH2|].
    rewrite !filter_cons. case_decide; cbn [length]; auto.
Qed.

Lemma burns t l tr e : life demo_body t l (Goto Burn) = Some (tr, e) → False.
Proof. by destruct l. Qed.

(** The next call that is not a write, and the next message. *)
Ltac next_ask H z :=
  let E := fresh "E" in
  apply life_ask_inv in H as ([z ?] & ? & ? & ? & _ & H & E); [|done]; rewrite E; clear E;
  cbn [fst] in H; unfold mbind, U_bind, mret, U_ret in H.
Ltac next_message H :=
  let E := fresh "E" in apply life_emit_inv in H as (? & ? & ? & H & E); rewrite E; clear E.
Ltac over H := apply life_exit_inv in H as [-> ->].

(** The end of the two runs that have both children. *)
Lemma powerdemo_end normal eco status k t l tr e :
  life demo_body t l ((sysz (CKill normal) ;; sysz (CKill eco) ;; sysz CWait ;; sysz CWait ;; exit status) (k : unit → prog demo_point)) =
    Some (tr, e) →
  killed (asked tr) = [normal; eco] ∧ forked (asked tr) = [] ∧ waits (asked tr) = 2%nat ∧ e = Exited status.
Proof. intros H. next_ask H a. next_ask H b. next_ask H c. next_ask H d. over H. done. Qed.

(** Every process [powerdemo] forks it kills, and it waits once for each,
    whatever fails. *)
Theorem powerdemo_correct t l tr e :
  life demo_body t l powerdemo_main = Some (tr, e) →
  killed tr = forked tr ∧ waits tr = length (forked tr) ∧ (e = Exited 0 ∨ e = Exited 1).
Proof.
  destruct (counted_asked tr) as (<- & <- & <-). intros H. next_ask H normal.
  destruct (Z.ltb_spec normal 0) as [Hn|Hn].
  { next_message H. over H. cbn. rewrite Z.gtb_ltb, (proj2 (Z.ltb_ge 0 normal)) by lia. auto. }
  destruct (Z.eqb_spec normal 0) as [->|Hn0]; [by apply burns in H|].
  assert ((normal >? 0) = true) as Gn by (apply Z.gtb_lt; lia).
  next_ask H eco. destruct (Z.ltb_spec eco 0) as [He|He].
  { next_message H. next_ask H a. next_ask H b. over H. cbn. rewrite Gn, Z.gtb_ltb, (proj2 (Z.ltb_ge 0 eco)) by lia. auto. }
  destruct (Z.eqb_spec eco 0) as [->|He0]; [by apply burns in H|].
  assert ((eco >? 0) = true) as Ge by (apply Z.gtb_lt; lia).
  next_ask H a. next_ask H z. destruct (z <? 0).
  2: next_ask H y; destruct (y <? 0).
  1, 2: next_message H; apply powerdemo_end in H as (K & F & W & ->); count; rewrite Gn, Ge, K, F, W; auto.
  next_message H. next_ask H b. next_ask H c. next_ask H d. next_message H.
  apply powerdemo_end in H as (K & F & W & ->). count. rewrite Gn, Ge, K, F, W. auto.
Qed.

(** ** [writer] makes the writes it was asked for *)

(** The answers to one iteration when every call succeeds. *)
Definition writer_round : list answer := (3, []) :: replicate 8 (128, []) ++ [(0, [])].

Lemma writer_writes_run n fd t l k tr e :
  is_Some (file_at t fd) → life writer_body t l (k tt) = Some (tr, e) →
  ∃ tr', life writer_body t (replicate n (128, []) ++ l) (writer_writes n fd k) = Some (tr', e) ∧
    written fd tr' = concat (replicate n writer_buf) ++ written fd tr.
Proof.
  intros Hfd Hl. induction n as [|n (tr' & E & Hw)]; [by exists tr|].
  exists ((CWrite fd writer_buf, (128, [])) :: tr'). split.
  - cbn [replicate app]. eapply life_call; [by apply (write_whole t fd writer_buf)|]. exact E.
  - change (written fd ((CWrite fd writer_buf, (128, [])) :: tr'))
      with ((if fd =? fd then take (Z.to_nat 128) writer_buf else []) ++ written fd tr').
    rewrite Z.eqb_refl, Hw. change (take _ writer_buf) with writer_buf. cbn [replicate concat]. by rewrite <- app_assoc.
Qed.

Lemma writer_loop m n t :
  roomy t → 0 < m < 2 ^ 31 → (n ≤ Z.to_nat m)%nat →
  ∃ tr, life writer_body t (concat (replicate n writer_round)) (Goto (WriterLoop m (m - Z.of_nat n))) = Some (tr, Exited 0) ∧
    written 3 tr = concat (replicate (8 * n) writer_buf).
Proof.
  intros Ht Hm. induction n as [|n IH]; intros Hn.
  - exists []. split; [|done]. cbn. rewrite (proj2 (Z.gtb_lt m 0)), Z.geb_leb, (proj2 (Z.leb_le m _)) by lia. done.
  - destruct IH as (tr & E & Hw); [lia|]. set (o := OFile writer_file (Z.lor O_CREATE O_WRONLY)).
    set (rest := Call (CClose 3) (λ _, Goto (WriterLoop m (s32 (m - Z.of_nat (S n) + 1))))).
    assert (life writer_body (<[3%nat := Some o]> t) ((0, []) :: concat (replicate n writer_round)) rest =
      Some ((CClose 3, (0, [])) :: tr, Exited 0)) as Er.
    { eapply life_call; [by apply close_roomy|]. rewrite s32_small by lia.
      by replace (m - Z.of_nat (S n) + 1) with (m - Z.of_nat n) by lia. }
    destruct (writer_writes_run 8 3 (<[3%nat := Some o]> t) _ (λ _, rest) _ _ (roomy_file t o 3 Ht ltac:(set_solver)) Er) as (tr' & E' & Hw').
    exists ((COpen writer_file (Z.lor O_CREATE O_WRONLY), (3, [])) :: tr'). split.
    + cbn [replicate concat]. unfold writer_round. cbn [app]. rewrite <- app_assoc.
      assert (writer_body (WriterLoop m (m - Z.of_nat (S n))) = writer_iteration m (m - Z.of_nat (S n))) as Eb.
      { unfold writer_body. by rewrite Z.geb_leb, (proj2 (Z.leb_gt m _)), andb_false_r by lia. }
      rewrite (life_goto _ _ _ _ _ _ Eb), Eb.
      eapply life_call; [by apply open_roomy|]. exact E'.
    + transitivity (written 3 tr'); [done|]. rewrite Hw'. change (written 3 ((CClose 3, (0, [])) :: tr)) with (written 3 tr).
      rewrite Hw, <- concat_app, <- replicate_add. f_equal. f_equal. lia.
Qed.

(** Asked for a number of iterations, [writer] makes exactly eight writes of
    its buffer for each and exits with 0, when no call fails. *)
Theorem writer_correct arg t :
  roomy t → 0 < parse_positive_int arg < 2 ^ 31 →
  ∃ tr, life writer_body t (concat (replicate (Z.to_nat (parse_positive_int arg)) writer_round)) (writer_main [arg]) =
      Some (tr, Exited 0) ∧
    written 3 tr = concat (replicate (8 * Z.to_nat (parse_positive_int arg)) writer_buf).
Proof.
  intros Ht Hm. destruct (writer_loop (parse_positive_int arg) (Z.to_nat (parse_positive_int arg)) t Ht Hm) as (tr & E & Hw); [lia|].
  exists tr. split; [|done]. rewrite Z2Nat.id, Z.sub_diag in E by lia. unfold writer_main.
  by rewrite (proj2 (Z.ltb_ge _ 0)) by lia.
Qed.

Lemma writer_correct_witness :
  ∃ tr, life writer_body util_fds (concat (replicate 3 writer_round)) (writer_main [bytes_of "3"]) = Some (tr, Exited 0) ∧
    written 3 tr = concat (replicate 24 writer_buf).
Proof.
  apply (writer_correct (bytes_of "3") util_fds); [|vm_compute; split; reflexivity]. repeat split; by eexists.
Defined.

(** Digits beyond the range of an [int] are not an error: the value wraps. *)
Lemma parse_positive_wraps : parse_positive_int (bytes_of "4294967299") = 3.
Proof. vm_compute. reflexivity. Qed.
