(* ===== verification/Mkfs.v ===== *)
(** * The file system image builder ([mkfs/mkfs.c])

    [mkfs] runs on the build host.  Its state is the image file, a list of
    blocks, and the counters [freeinode] and [freeblock].  A [struct dinode] is
    its 64 bytes; [xint] and [xshort] are those of a little-endian host, where
    the superblock is used without conversion as the source does.  Strings of
    the host are lists of characters without the NUL.  A failed [assert] and
    [die] end the program.

    What the build hands to [mkfs] is the class [Host]: what [open] and the
    calls of [read] until end of file give for a path. *)

From Stdlib Require Import ZArith Lia.
From S2P Require Import Prelude Params CString State Bytes Fs.
From stdpp Require Import base gmap strings numbers list.

Open Scope Z_scope.

Record mkst : Type := mkMk { image : list (list Z); freeinode : Z; freeblock : Z }.
#[export] Instance mkst_eta : Eta mkst := λ m, mkMk (image m) (freeinode m) (freeblock m).

Abbreviation MK := (K mkst).

Class Host := host_file : list Z → option (list (list Z)).

(** ** The layout of the image *)

Definition NINODES : Z := 200.
Definition nbitmap : Z := FSSIZE / BPB + 1.
Definition ninodeblocks : Z := NINODES / IPB + 1.
Definition nlog : Z := LOGBLOCKS + 1.
Definition nmeta : Z := 2 + nlog + ninodeblocks + nbitmap.
Definition nblocks : Z := FSSIZE - nmeta.

Definition xshort (x : Z) : Z := le_decode [x; Z.shiftr x 8].
Definition xint (x : Z) : Z := le_decode [x; Z.shiftr x 8; Z.shiftr x 16; Z.shiftr x 24].

(** [sb] as [main] fills it. *)
Definition mksb : superblock :=
  mkSb FSMAGIC (xint FSSIZE) (xint nblocks) (xint NINODES) (xint nlog) (xint 2) (xint (2 + nlog)) (xint (2 + nlog + ninodeblocks)).

Definition sb_bytes (sb : superblock) : list Z :=
  [sb_magic sb; sb_size sb; sb_nblocks sb; sb_ninodes sb; sb_nlog sb; sb_logstart sb; sb_inodestart sb; sb_bmapstart sb] ≫= le_encode 4.

Definition zeroes : list Z := replicate (Z.to_nat BSIZE) 0.

Definition die {A} (msg : string) : MK A := panic msg.
Definition assert_ (b : bool) : MK unit := if b then ret tt else panic "assert".

(** The sector [lseek] goes to: its byte offset is a [uint]. *)
Definition seek (sec : Z) : nat := Z.to_nat (u32 (sec * BSIZE) / BSIZE).

(** Writing past the end of the file leaves a hole of zeros. *)
Definition wsect (sec : Z) (buf : list Z) : MK unit :=
  modify (λ m, m <| image := <[seek sec := buf]> (image m ++ replicate (S (seek sec) - length (image m)) zeroes) |>).

Definition rsect (sec : Z) : MK (list Z) :=
  img <- gets image ;;
  match img !! seek sec with
  | Some buf => ret buf
  | None => die "read"
  end.

(** ** Inodes *)

Definition winode (inum : Z) (ip : list Z) : MK unit :=
  let bn := IBLOCK inum mksb in
  buf <- rsect bn ;;
  wsect bn (splice buf (DI_OFF inum) ip).

Definition rinode (inum : Z) : MK (list Z) :=
  let bn := IBLOCK inum mksb in
  buf <- rsect bn ;;
  ret (take (Z.to_nat DINODE_SIZE) (drop (DI_OFF inum) buf)).

Definition ialloc (type : Z) : MK Z :=
  inum <- gets freeinode ;;
  modify (λ m, m <| freeinode := u32 (inum + 1) |>) ;;;
  let din := replicate (Z.to_nat DINODE_SIZE) 0 in
  let din := put16 din 0 (xshort type) in
  let din := put16 din 6 (xshort 1) in
  let din := put32 din 8 (xint 0) in
  winode inum din ;;;
  ret inum.

(** [buf[i/8] = buf[i/8] | (0x1 << (i%8))] for the first [used] blocks *)
Definition balloc (used : Z) : MK unit :=
  assert_ (used <? BPB) ;;;
  wsect (sb_bmapstart mksb) (fold_left set_bit (seq 0 (Z.to_nat used)) zeroes).

(** [din.addrs[k]] *)
Definition get_addr (din : list Z) (k : Z) : Z := xint (get32 din (12 + 4 * Z.to_nat k)).
Definition put_addr (din : list Z) (k v : Z) : list Z := put32 din (12 + 4 * Z.to_nat k) (xint v).

(** [freeblock++] *)
Definition next_block : MK Z :=
  b <- gets freeblock ;;
  modify (λ m, m <| freeblock := u32 (b + 1) |>) ;;;
  ret b.

(** The block [x] of block [fbn] of the file, allocated if there is none. *)
Definition file_block (din : list Z) (fbn : Z) : MK (list Z * Z) :=
  if fbn <? NDIRECT then
    din <- (if get_addr din fbn =? 0 then b <- next_block ;; ret (put_addr din fbn b) else ret din) ;;
    ret (din, get_addr din fbn)
  else
    din <- (if get_addr din NDIRECT =? 0 then b <- next_block ;; ret (put_addr din NDIRECT b) else ret din) ;;
    indirect <- rsect (get_addr din NDIRECT) ;;
    let k := (4 * Z.to_nat (fbn - NDIRECT))%nat in
    indirect <- (if get32 indirect k =? 0 then
                   b <- next_block ;;
                   let indirect := put32 indirect k (xint b) in
                   wsect (get_addr din NDIRECT) indirect ;;;
                   ret indirect
                 else ret indirect) ;;
    ret (din, xint (get32 indirect k)).

(** [while(n > 0)]; [p] are the bytes still to append. *)
Fixpoint iappend_loop (fuel : nat) (din : list Z) (off : Z) (p : list Z) : MK (list Z * Z) :=
  match p with
  | [] => ret (din, off)
  | _ :: _ =>
      match fuel with
      | O => nofuel
      | S fuel' =>
          let fbn := off / BSIZE in
          assert_ (fbn <? MAXFILE) ;;;
          r <- file_block din fbn ;;
          let '(din, x) := r in
          let n1 := Z.to_nat (Z.min (Z.of_nat (length p)) ((fbn + 1) * BSIZE - off)) in
          buf <- rsect x ;;
          wsect x (splice buf (Z.to_nat (off - fbn * BSIZE)) (take n1 p)) ;;;
          iappend_loop fuel' din (u32 (off + Z.of_nat n1)) (drop n1 p)
      end
  end.

Definition iappend (inum : Z) (p : list Z) : MK unit :=
  din <- rinode inum ;;
  let off := xint (get32 din 8) in
  r <- iappend_loop (length p) din off p ;;
  let '(din, off) := r in
  winode inum (put32 din 8 (xint off)).

(** ** main *)

(** A [struct dirent]: [strncpy] pads the name with NULs. *)
Definition strncpy_name (name : list Z) : list Z := take 14 (name ++ replicate 14 0).
Definition dirent (inum : Z) (name : list Z) : list Z := le_encode 2 (xshort inum) ++ strncpy_name name.

Definition DOT : Z := 46.
Definition USER_SLASH : list Z := [117; 115; 101; 114; 47].
Definition UNDERSCORE : Z := 95.

(** The path without ["user/"], and the name the file gets. *)
Definition shortname (arg : list Z) : list Z := if bool_decide (take 5 arg = USER_SLASH) then drop 5 arg else arg.
Definition fs_name (arg : list Z) : list Z :=
  match shortname arg with
  | c :: name => if c =? UNDERSCORE then name else c :: name
  | [] => []
  end.

(** [while((cc = read(fd, buf, sizeof(buf))) > 0) iappend(inum, buf, cc)] *)
Fixpoint append_all (inum : Z) (chunks : list (list Z)) : MK unit :=
  match chunks with
  | [] => ret tt
  | c :: chunks' => iappend inum c ;;; append_all inum chunks'
  end.

Section Main.
Context `{Host}.

Definition add_file (rootino : Z) (arg : list Z) : MK unit :=
  assert_ (negb (bool_decide (47 ∈ shortname arg))) ;;;
  match host_file arg with
  | None => die "open"
  | Some chunks =>
      assert_ (Z.of_nat (length (fs_name arg)) <=? DIRSIZ) ;;;
      inum <- ialloc T_FILE ;;
      iappend rootino (dirent inum (fs_name arg)) ;;;
      append_all inum chunks
  end.

Fixpoint add_files (rootino : Z) (args : list (list Z)) : MK unit :=
  match args with
  | [] => ret tt
  | arg :: args' => add_file rootino arg ;;; add_files rootino args'
  end.

(** [for(i = 0; i < FSSIZE; i++) wsect(i, zeroes)] *)
Fixpoint wzeroes (n : nat) (i : Z) : MK unit :=
  match n with
  | O => ret tt
  | S n' => wsect i zeroes ;;; wzeroes n' (i + 1)
  end.

(** [main], from the truncated image file on; [args] are [argv[2]] on. *)
Definition main (args : list (list Z)) : MK unit :=
  modify (λ m, m <| freeblock := nmeta |>) ;;;
  wzeroes (Z.to_nat FSSIZE) 0 ;;;
  wsect 1 (splice zeroes 0 (sb_bytes mksb)) ;;;
  rootino <- ialloc T_DIR ;;
  assert_ (rootino =? ROOTINO) ;;;
  iappend rootino (dirent rootino [DOT]) ;;;
  iappend rootino (dirent rootino [DOT; DOT]) ;;;
  add_files rootino args ;;;
  din <- rinode rootino ;;
  let off := xint (get32 din 8) in
  let off := u32 ((off / BSIZE + 1) * BSIZE) in
  winode rootino (put32 din 8 (xint off)) ;;;
  used <- gets freeblock ;;
  balloc (s32 used).

End Main.

(** The program starts with an empty image; [freeinode] is initialised to 1. *)
Definition mk0 : mkst := mkMk [] 1 0.
