(* ===== verification/MkfsRep.v ===== *)
(** * The files of an image under construction

    What [mkfs] has built so far is a list of files, each with its inode, the
    blocks it has and its contents ([mfile]).  The blocks of all files are
    distinct, lie between the metadata and [freeblock], and hold the contents;
    the blocks from [freeblock] on are zero.  [iappend] appends to one file and
    keeps the others. *)

From Stdlib Require Import ZArith Lia.
From S2P Require Import Prelude Params CString State Bytes Fs Mkfs.
From stdpp Require Import base gmap strings numbers list.

Open Scope Z_scope.

(** ** Blocks and fields *)

Definition blkof (img : list (list Z)) (n : Z) : list Z := default zeroes (img !! Z.to_nat n).
Definition put_block (img : list (list Z)) (n : Z) (b : list Z) : list (list Z) := <[Z.to_nat n := b]> img.

Record img_ok (img : list (list Z)) : Prop := {
  im_len : length img = Z.to_nat FSSIZE;
  im_full : Forall (λ b, length b = Z.to_nat BSIZE) img
}.

Lemma length_zeroes : length zeroes = Z.to_nat BSIZE.
Proof. apply length_replicate. Qed.

Lemma blkof_len img n : img_ok img → length (blkof img n) = Z.to_nat BSIZE.
Proof.
  intros [_ Hf]. unfold blkof. destruct (img !! Z.to_nat n) as [b|] eqn:E; [|apply length_zeroes].
  by apply (proj1 (Forall_lookup _ _) Hf _ _ E).
Qed.

Lemma blkof_put img n b m :
  img_ok img → 0 ≤ n < FSSIZE → 0 ≤ m → blkof (put_block img n b) m = if decide (m = n) then b else blkof img m.
Proof.
  intros [Hl _] Hn Hm. unfold blkof, put_block. destruct (decide (m = n)) as [->|Hne].
  - by rewrite list_lookup_insert_eq by (rewrite Hl; lia).
  - by rewrite list_lookup_insert_ne by lia.
Qed.

Lemma img_ok_put img n b : img_ok img → length b = Z.to_nat BSIZE → img_ok (put_block img n b).
Proof. intros [Hl Hf] Hb. split; [by unfold put_block; rewrite length_insert|]. by apply Forall_insert. Qed.

Lemma seek_id sec : 0 ≤ sec < FSSIZE → seek sec = Z.to_nat sec.
Proof. unfold seek, FSSIZE, BSIZE, u32. intros Hs. by rewrite Z.mod_small, Z.div_mul by lia. Qed.

Lemma wsect_ok sec buf m :
  img_ok (image m) → 0 ≤ sec < FSSIZE → wsect sec buf m = Ok tt (m <| image := put_block (image m) sec buf |>).
Proof.
  intros [Hl _] Hs. unfold wsect, modify, put_block. rewrite seek_id by done. f_equal.
  replace (S (Z.to_nat sec) - length (image m))%nat with 0%nat by lia. by rewrite app_nil_r.
Qed.

Lemma rsect_ok sec m : img_ok (image m) → 0 ≤ sec < FSSIZE → rsect sec m = Ok (blkof (image m) sec) m.
Proof.
  intros [Hl _] Hs. unfold rsect. rewrite bind_gets, seek_id by done. unfold blkof.
  by destruct (lookup_lt_is_Some_2 (image m) (Z.to_nat sec)) as [b ->]; [lia|].
Qed.

Lemma bget_range n l off : 0 ≤ bget_n n l off < 2 ^ (8 * Z.of_nat n).
Proof.
  unfold bget_n. pose proof (le_decode_range (take n (drop off l))) as Hr. split; [lia|].
  eapply Z.lt_le_trans; [apply Hr|]. apply Z.pow_le_mono_r; [lia|]. rewrite length_take. lia.
Qed.

Lemma u8_shift x a : 0 ≤ a → u8 (Z.shiftr x a) = x / 2 ^ a mod 256.
Proof. intros. unfold u8. by rewrite Z.shiftr_div_pow2. Qed.

Lemma le_decode_bytes n v : le_decode ((λ k, Z.shiftr v (8 * Z.of_nat k)) <$> seq 0 n) = v mod 2 ^ (8 * Z.of_nat n).
Proof.
  rewrite <- le_decode_encode. revert v. induction n as [|n IH]; intros v; [done|].
  cbn [seq fmap list_fmap le_encode le_decode]. rewrite Z.shiftr_0_r. f_equal; [unfold u8; by rewrite Zmod_mod|]. f_equal.
  rewrite <- IH. f_equal. rewrite <- fmap_S_seq, <- list_fmap_compose. apply list_fmap_ext. intros _ k _. cbn.
  rewrite <- Z.shiftr_div_pow2, Z.shiftr_shiftr by lia. f_equal. lia.
Qed.

(** On a little-endian host the conversions are the identity. *)
Lemma xint_id x : 0 ≤ x < 2 ^ 32 → xint x = x.
Proof.
  intros Hx. rewrite <- (Z.mod_small x (2 ^ 32)) at 2 by done. rewrite <- (le_decode_bytes 4 x : _ = x mod 2 ^ 32).
  unfold xint. by rewrite <- (Z.shiftr_0_r x) at 1.
Qed.

Lemma xshort_id x : 0 ≤ x < 2 ^ 16 → xshort x = x.
Proof.
  intros Hx. rewrite <- (Z.mod_small x (2 ^ 16)) at 2 by done. rewrite <- (le_decode_bytes 2 x : _ = x mod 2 ^ 16).
  unfold xshort. by rewrite <- (Z.shiftr_0_r x) at 1.
Qed.

(** ** Files *)

(** A file under construction: its [struct dinode], the number of blocks it
    has, and its bytes. *)
Record mfile : Type := mkF { m_din : list Z; m_n : Z; m_data : list Z }.

Definition daddr (din : list Z) (k : Z) : Z := get32 din (12 + 4 * Z.to_nat k).
Definition ientry (img : list (list Z)) (din : list Z) (bn : Z) : Z :=
  get32 (blkof img (daddr din NDIRECT)) (4 * Z.to_nat (bn - NDIRECT)).
(** The block of block [bn] of the file. *)
Definition iaddr (img : list (list Z)) (din : list Z) (bn : Z) : Z :=
  if bn <? NDIRECT then daddr din bn else ientry img din bn.

(** The blocks of a file of [n] blocks: slot [-1] is the indirect block. *)
Definition slot (img : list (list Z)) (din : list Z) (u : Z) : Z :=
  if u =? -1 then daddr din NDIRECT else iaddr img din u.
Definition valid (n u : Z) : Prop := 0 ≤ u < n ∨ (u = -1 ∧ NDIRECT < n).

Record file_inv (img : list (list Z)) (fb : Z) (f : mfile) : Prop := {
  fi_din : length (m_din f) = Z.to_nat DINODE_SIZE;
  fi_n : 0 ≤ m_n f ≤ MAXFILE;
  fi_len : Z.of_nat (length (m_data f)) ≤ m_n f * BSIZE;
  fi_slot : ∀ u, valid (m_n f) u → nmeta ≤ slot img (m_din f) u < fb;
  fi_none : ∀ k, m_n f ≤ k ≤ NDIRECT → daddr (m_din f) k = 0;
  fi_ind : NDIRECT < m_n f → ∀ k, m_n f ≤ k < MAXFILE → ientry img (m_din f) k = 0;
  fi_data : ∀ k, 0 ≤ k < m_n f * BSIZE →
    default 0 (blkof img (iaddr img (m_din f) (k / BSIZE)) !! Z.to_nat (k mod BSIZE)) = default 0 (m_data f !! Z.to_nat k)
}.

Record files_inv (img : list (list Z)) (fb : Z) (F : list mfile) : Prop := {
  fs_img : img_ok img;
  fs_fb : nmeta ≤ fb ≤ FSSIZE;
  fs_file : ∀ i f, F !! i = Some f → file_inv img fb f;
  fs_inj : ∀ i j f g u v, F !! i = Some f → F !! j = Some g → valid (m_n f) u → valid (m_n g) v →
    slot img (m_din f) u = slot img (m_din g) v → i = j ∧ u = v;
  fs_fresh : ∀ b, fb ≤ b < FSSIZE → blkof img b = zeroes
}.

Lemma daddr_range din k : 0 ≤ daddr din k < 2 ^ 32.
Proof. apply bget_range. Qed.

Lemma get_addr_eq din k : get_addr din k = daddr din k.
Proof. apply xint_id, daddr_range. Qed.

(** A file whose blocks are not written to. *)
Lemma slot_frame img img' din n u :
  (NDIRECT < n → blkof img' (daddr din NDIRECT) = blkof img (daddr din NDIRECT)) → valid n u → slot img' din u = slot img din u.
Proof.
  intros Hi Hv. unfold slot, iaddr. destruct (Z.eqb_spec u (-1)); [done|]. destruct (Z.ltb_spec u NDIRECT); [done|].
  unfold ientry. rewrite Hi; [done|]. destruct Hv; lia.
Qed.

Lemma file_frame img img' fb fb' f :
  file_inv img fb f → fb ≤ fb' → (∀ u, valid (m_n f) u → blkof img' (slot img (m_din f) u) = blkof img (slot img (m_din f) u)) →
  file_inv img' fb' f.
Proof.
  intros [Hd Hn Hl Hs Hz Hi Hb] Hfb Hsame.
  assert (NDIRECT < m_n f → blkof img' (daddr (m_din f) NDIRECT) = blkof img (daddr (m_din f) NDIRECT)) as Hind
    by (intros Hlt; apply (Hsame (-1)); right; done).
  split; try done.
  - intros u Hu. rewrite (slot_frame img img' _ (m_n f)) by done. specialize (Hs u Hu). lia.
  - intros Hlt k Hk. unfold ientry. rewrite Hind by done. by apply Hi.
  - intros k Hk. assert (valid (m_n f) (k / BSIZE)) as Hv.
    { left. split; [apply Z.div_pos; [lia|done]|]. apply Z.div_lt_upper_bound; [done|lia]. }
    assert (slot img (m_din f) (k / BSIZE) = iaddr img (m_din f) (k / BSIZE) ∧ slot img' (m_din f) (k / BSIZE) = iaddr img' (m_din f) (k / BSIZE)) as [E E'].
    { unfold slot. destruct (Z.eqb_spec (k / BSIZE) (-1)) as [E|]; [|done]. destruct Hv; [lia|]. pose proof (Z.div_pos k BSIZE ltac:(lia) ltac:(done)). lia. }
    rewrite <- E', (slot_frame img img' _ (m_n f)), Hsame, E by done. by apply Hb.
Qed.

(** One file changes: it keeps its blocks, new ones come from the fresh part,
    and the blocks of the others are not written to. *)
Lemma files_update img fb F img' fb' i f f' :
  files_inv img fb F → F !! i = Some f → img_ok img' → fb ≤ fb' ≤ FSSIZE → file_inv img' fb' f' →
  (∀ j g u, j ≠ i → F !! j = Some g → valid (m_n g) u → blkof img' (slot img (m_din g) u) = blkof img (slot img (m_din g) u)) →
  (∀ u, valid (m_n f') u → (valid (m_n f) u ∧ slot img' (m_din f') u = slot img (m_din f) u) ∨ fb ≤ slot img' (m_din f') u) →
  (∀ u v, valid (m_n f') u → valid (m_n f') v → slot img' (m_din f') u = slot img' (m_din f') v → u = v) →
  (∀ b, fb' ≤ b < FSSIZE → blkof img' b = zeroes) →
  files_inv img' fb' (<[i := f']> F).
Proof.
  intros [Him Hfb Hf Hinj Hfr] Hi Him' Hfb' Hf' Hsame Hold Hself Hfr'. pose proof (lookup_lt_Some _ _ _ Hi) as Hlt.
  assert (∀ j g u, j ≠ i → F !! j = Some g → valid (m_n g) u → slot img' (m_din g) u = slot img (m_din g) u) as Hsl.
  { intros j g u Hne Hg Hu. apply (slot_frame img img' _ (m_n g)); [|done]. intros Hind. apply (Hsame j g (-1)); [done|done|by right]. }
  assert (∀ j g u v, j ≠ i → F !! j = Some g → valid (m_n f') u → valid (m_n g) v → slot img' (m_din f') u ≠ slot img' (m_din g) v) as Hx.
  { intros j g u v Hne Hg Hu Hv. rewrite (Hsl j g v) by done. destruct (Hold u Hu) as [[Hu' ->]|Hge].
    - intros E. destruct (Hinj i j f g u v); done.
    - pose proof (fi_slot _ _ _ (Hf j g Hg) v Hv). lia. }
  split; [done|lia| | |done].
  - intros j g Hg. apply list_lookup_insert_Some in Hg as [(-> & -> & _)|[Hne Hg]]; [done|].
    apply (file_frame img img' fb); [by apply (Hf j)|lia|]. intros u Hu. by apply (Hsame j).
  - intros j k g h u v Hg Hh Hu Hv. apply list_lookup_insert_Some in Hg as [(-> & -> & _)|[Hne Hg]];
      apply list_lookup_insert_Some in Hh as [(-> & -> & _)|[Hne' Hh]]; intros E.
    + split; [done|]. by apply Hself.
    + exfalso. by apply (Hx k h u v).
    + exfalso. by apply (Hx j g v u).
    + rewrite (Hsl j), (Hsl k) in E by done. by apply (Hinj j k g h u v).
Qed.

Lemma daddr_put din k v k' :
  length din = Z.to_nat DINODE_SIZE → 0 ≤ k ≤ NDIRECT → 0 ≤ k' ≤ NDIRECT → 0 ≤ v < 2 ^ 32 →
  daddr (put_addr din k v) k' = if decide (k' = k) then v else daddr din k'.
Proof.
  unfold NDIRECT, daddr, put_addr. intros Hl Hk Hk' Hv. rewrite xint_id by done.
  assert (12 + 4 * Z.to_nat k + 4 ≤ length din)%nat by (rewrite Hl; unfold DINODE_SIZE; lia).
  destruct (decide (k' = k)) as [->|Hne]; [rewrite bget_bput_eq by done; by apply Z.mod_small|]. apply bget_bput_ne; [done|lia].
Qed.

Lemma length_put_addr din k v :
  length din = Z.to_nat DINODE_SIZE → 0 ≤ k ≤ NDIRECT → length (put_addr din k v) = length din.
Proof. unfold NDIRECT. intros Hl Hk. apply length_bput. rewrite Hl. unfold DINODE_SIZE. lia. Qed.

(** Reading a block of zeros, past the end of the contents. *)
Lemma past_end (data : list Z) n k :
  Z.of_nat (length data) ≤ n * BSIZE → 0 ≤ k → n ≤ k / BSIZE →
  default 0 (zeroes !! Z.to_nat (k mod BSIZE)) = default 0 (data !! Z.to_nat k).
Proof.
  intros Hl Hk Hn. assert (Z.of_nat (length data) ≤ k) by (unfold BSIZE in *; pose proof (Z.mul_div_le k 1024 ltac:(done)); lia).
  rewrite (lookup_ge_None_2 data) by lia.
  unfold zeroes. destruct (replicate _ 0 !! _) as [x|] eqn:E; [|done]. by apply lookup_replicate in E as [-> _].
Qed.

Lemma block_in n k : 0 ≤ k < (n + 1) * BSIZE → k / BSIZE = n ∨ 0 ≤ k / BSIZE < n ∧ 0 ≤ k < n * BSIZE.
Proof.
  unfold BSIZE. intros Hk. pose proof (Z.div_mod k 1024 ltac:(done)). pose proof (Z.mod_pos_bound k 1024 ltac:(done)). lia.
Qed.

(** ** A new direct block *)
Lemma extend_direct img fb F i f :
  files_inv img fb F → F !! i = Some f → m_n f < NDIRECT → fb + 1 ≤ FSSIZE →
  files_inv img (fb + 1) (<[i := mkF (put_addr (m_din f) (m_n f) fb) (m_n f + 1) (m_data f)]> F).
Proof.
  intros HF Hi Hn Hfb. pose proof (fs_fb _ _ _ HF) as Hfr. pose proof (fs_file _ _ _ HF i f Hi) as [Hd Hnn Hl Hs Hz _ Hb].
  assert (0 ≤ fb < 2 ^ 32) as H32 by (unfold nmeta, FSSIZE in *; change (2 + nlog + ninodeblocks + nbitmap) with 47 in *; lia).
  set (din := put_addr _ _ _). set (f' := mkF din (m_n f + 1) (m_data f)).
  assert (∀ u, valid (m_n f + 1) u → 0 ≤ u < NDIRECT ∧ slot img din u = if decide (u = m_n f) then fb else slot img (m_din f) u) as Hsl.
  { intros u [Hu|[_ ?]]; [|lia]. split; [lia|]. unfold slot. rewrite (proj2 (Z.eqb_neq u (-1))) by lia. unfold iaddr.
    rewrite (proj2 (Z.ltb_lt u NDIRECT)) by lia. apply daddr_put; (done || lia). }
  assert (∀ u, valid (m_n f + 1) u → u ≠ m_n f → valid (m_n f) u) as Hv by (intros u [Hu|[_ ?]] Hne; [left; lia|lia]).
  apply (files_update img fb F img (fb + 1) i f f' HF Hi); [apply HF|lia| |done| | |].
  - split; cbn [m_din m_n m_data f'].
    + unfold din. rewrite length_put_addr by (done || lia). done.
    + unfold MAXFILE, NINDIRECT. change (BSIZE / 4) with 256. lia.
    + unfold BSIZE in *. lia.
    + intros u Hu. destruct (Hsl u Hu) as [_ ->]. case_decide; [lia|]. specialize (Hs u ltac:(by apply Hv)). lia.
    + intros k Hk. unfold din. rewrite daddr_put by (done || lia). rewrite decide_False by lia. apply Hz. lia.
    + lia.
    + intros k Hk. destruct (block_in _ _ Hk) as [E|[H1 H2]]; unfold iaddr.
      * rewrite E, (proj2 (Z.ltb_lt _ _)) by done. unfold din. rewrite daddr_put, decide_True by (done || lia).
        rewrite (fs_fresh _ _ _ HF) by lia. apply (past_end _ (m_n f)); lia.
      * rewrite <- (Hb k) by lia. unfold iaddr. rewrite !(proj2 (Z.ltb_lt _ _)) by lia. unfold din.
        rewrite daddr_put, decide_False by (done || lia). done.
  - intros u Hu. change (m_din f') with din. destruct (Hsl u Hu) as [_ ->]. case_decide; [right; lia|left]. split; [by apply Hv|done].
  - intros u v Hu Hv'. change (m_din f') with din. destruct (Hsl u Hu) as [_ ->], (Hsl v Hv') as [_ ->]. cbn [m_n f'] in *. repeat case_decide; subst; [done| | |].
    + specialize (Hs v (Hv v Hv' ltac:(done))). lia.
    + specialize (Hs u (Hv u Hu ltac:(done))). lia.
    + intros E. by apply (fs_inj _ _ _ HF i i f f u v Hi Hi); [apply Hv|apply Hv|].
  - intros b Hb'. apply (fs_fresh _ _ _ HF). lia.
Qed.

Lemma bget_zeroes n o : bget_n n zeroes o = 0.
Proof.
  unfold bget_n, zeroes. rewrite drop_replicate, take_replicate. generalize (n `min` (Z.to_nat BSIZE - o))%nat. intros c.
  by induction c as [|c IH]; [|cbn; rewrite IH].
Qed.

(** ** A new block behind the indirect block, which may be new as well *)
Section ExtendInd.
Context (img : list (list Z)) (fb : Z) (F : list mfile) (i : nat) (f : mfile) (din : list Z) (base : Z).
Context (HF : files_inv img fb F) (Hi : F !! i = Some f) (Hn : NDIRECT ≤ m_n f < MAXFILE) (Hfb : base + 1 ≤ FSSIZE).
Context (Hcase : (NDIRECT < m_n f ∧ din = m_din f ∧ base = fb) ∨
                 (m_n f = NDIRECT ∧ din = put_addr (m_din f) NDIRECT fb ∧ base = fb + 1)).

Let ind := daddr din NDIRECT.
Let entry_off (k : Z) : nat := (4 * Z.to_nat (k - NDIRECT))%nat.
Let img' := put_block img ind (put32 (blkof img ind) (entry_off (m_n f)) base).

Lemma ext_fb : 47 ≤ fb ∧ fb ≤ base ∧ base + 1 ≤ 2000.
Proof using HF Hcase Hfb. pose proof (fs_fb _ _ _ HF) as Hr. change nmeta with 47 in Hr. change FSSIZE with 2000 in *. lia. Qed.

Lemma ext_din : length din = Z.to_nat DINODE_SIZE ∧ (∀ k, 0 ≤ k < NDIRECT → daddr din k = daddr (m_din f) k).
Proof using HF Hi Hcase Hfb.
  pose proof ext_fb. pose proof (fi_din _ _ _ (fs_file _ _ _ HF i f Hi)) as Hd. destruct Hcase as [(_ & -> & _)|(_ & -> & _)]; [done|].
  split; [rewrite length_put_addr by done; done|]. intros k Hk. rewrite daddr_put by (done || lia). by rewrite decide_False by lia.
Qed.

Lemma ext_ind : (NDIRECT < m_n f ∧ ind = slot img (m_din f) (-1) ∧ base = fb) ∨ (m_n f = NDIRECT ∧ ind = fb ∧ base = fb + 1).
Proof using HF Hi Hcase Hfb.
  pose proof ext_fb. pose proof (fi_din _ _ _ (fs_file _ _ _ HF i f Hi)) as Hd. unfold ind.
  destruct Hcase as [(? & -> & ?)|(? & -> & ?)]; [by left|right]. rewrite daddr_put by (done || lia). by rewrite decide_True.
Qed.

Lemma ext_ind_range : 0 ≤ ind < FSSIZE ∧ ind < base.
Proof using HF Hi Hcase Hfb.
  pose proof ext_fb. change FSSIZE with 2000. destruct ext_ind as [(Hlt & -> & E)|(_ & -> & E)]; [|lia].
  pose proof (fi_slot _ _ _ (fs_file _ _ _ HF i f Hi) (-1) ltac:(by right)) as Hr. change nmeta with 47 in Hr. lia.
Qed.

(** The indirect block is not a block of another file, nor a data block. *)
Lemma ext_ind_other j g u : F !! j = Some g → valid (m_n g) u → j ≠ i ∨ u ≠ -1 → slot img (m_din g) u ≠ ind.
Proof using HF Hi Hcase Hfb.
  intros Hg Hu Hne. pose proof (fi_slot _ _ _ (fs_file _ _ _ HF j g Hg) u Hu).
  destruct ext_ind as [(Hlt & -> & _)|(_ & -> & _)]; [|lia]. intros E.
  destruct (fs_inj _ _ _ HF j i g f u (-1) Hg Hi Hu ltac:(by right) E). destruct Hne; congruence.
Qed.

Lemma ext_same j g u : F !! j = Some g → valid (m_n g) u → j ≠ i ∨ u ≠ -1 → blkof img' (slot img (m_din g) u) = blkof img (slot img (m_din g) u).
Proof using HF Hi Hcase Hfb.
  intros Hg Hu Hne. pose proof (fi_slot _ _ _ (fs_file _ _ _ HF j g Hg) u Hu) as Hr. change nmeta with 47 in Hr.
  unfold img'. rewrite blkof_put by (try apply HF; try apply ext_ind_range; lia). rewrite decide_False; [done|]. by apply (ext_ind_other j).
Qed.

Lemma ext_entry k : NDIRECT ≤ k < MAXFILE →
  ientry img' din k = if decide (k = m_n f) then base else if decide (NDIRECT < m_n f) then ientry img (m_din f) k else 0.
Proof using HF Hi Hn Hcase Hfb.
  intros Hk. pose proof ext_fb. pose proof (blkof_len img ind (fs_img _ _ _ HF)) as Hlen. unfold ientry. fold ind.
  unfold img'. rewrite blkof_put by (try apply HF; apply ext_ind_range). rewrite decide_True by done.
  unfold MAXFILE, NINDIRECT in Hk, Hn. change (BSIZE / 4) with 256 in *. unfold NDIRECT, BSIZE in *.
  fold (entry_off k). destruct (decide (k = m_n f)) as [->|Hne].
  - rewrite bget_bput_eq by (rewrite Hlen; unfold entry_off, NDIRECT; lia). apply Z.mod_small. lia.
  - rewrite bget_bput_ne by (try rewrite Hlen; unfold entry_off, NDIRECT; lia).
    destruct ext_ind as [(Hlt & E & _)|(E0 & E & _)].
    + rewrite decide_True by done. unfold ind in E |- *. by rewrite E.
    + rewrite decide_False by (unfold NDIRECT in *; lia). rewrite E, (fs_fresh _ _ _ HF) by (change FSSIZE with 2000; lia).
      apply bget_zeroes.
Qed.

Lemma ext_slot u :
  valid (m_n f + 1) u →
  (u = m_n f ∧ slot img' din u = base) ∨ (valid (m_n f) u ∧ u ≠ m_n f ∧ slot img' din u = slot img (m_din f) u) ∨
  (u = -1 ∧ slot img' din u = fb ∧ base = fb + 1).
Proof using HF Hi Hn Hcase Hfb.
  intros Hu. destruct ext_din as [_ Hdir]. destruct (decide (u = -1)) as [->|H1].
  { change (slot img' din (-1)) with ind. destruct ext_ind as [(Hlt & E & _)|(_ & E & ?)]; [right; left|by right; right].
    split; [by right|]. split; [unfold NDIRECT in *; lia|done]. }
  destruct Hu as [Hu|[? _]]; [|done]. unfold slot. rewrite (proj2 (Z.eqb_neq _ _)) by done. unfold iaddr.
  destruct (Z.ltb_spec u NDIRECT) as [Hlt|Hge].
  - right. left. split; [left; lia|]. split; [lia|]. apply Hdir; lia.
  - rewrite ext_entry by lia. destruct (decide (u = m_n f)) as [->|Hne]; [by left|]. right. left.
    split; [left; lia|]. split; [done|]. by rewrite decide_True by lia.
Qed.

Lemma ext_data k :
  0 ≤ k < (m_n f + 1) * BSIZE →
  default 0 (blkof img' (iaddr img' din (k / BSIZE)) !! Z.to_nat (k mod BSIZE)) = default 0 (m_data f !! Z.to_nat k).
Proof using HF Hi Hn Hcase Hfb.
  intros Hk. pose proof (fs_file _ _ _ HF i f Hi) as [_ _ Hl _ _ _ Hb]. pose proof ext_fb. pose proof ext_ind_range as [Hir Hib].
  destruct (block_in _ _ Hk) as [E|[H1 H2]].
  - rewrite E. unfold iaddr. rewrite (proj2 (Z.ltb_ge _ _)), ext_entry, decide_True by lia.
    unfold img'. rewrite blkof_put by (try apply HF; lia). rewrite decide_False by lia.
    rewrite (fs_fresh _ _ _ HF) by (change FSSIZE with 2000; lia). apply (past_end _ (m_n f)); lia.
  - rewrite <- (Hb k) by lia. assert (valid (m_n f) (k / BSIZE)) as Hv by (by left).
    assert (∀ im d, slot im d (k / BSIZE) = iaddr im d (k / BSIZE)) as Hs by (intros; unfold slot; by rewrite (proj2 (Z.eqb_neq _ _)) by lia).
    destruct (ext_slot (k / BSIZE)) as [(? & _)|[(_ & _ & E)|(? & _)]]; [left; lia|lia| |lia].
    rewrite <- !Hs, E, (ext_same i f) by (done || right; lia). done.
Qed.

Lemma extend_ind : files_inv img' (base + 1) (<[i := mkF din (m_n f + 1) (m_data f)]> F).
Proof using HF Hi Hn Hcase Hfb.
  pose proof (fs_file _ _ _ HF i f Hi) as [Hd Hnn Hl Hs Hz Hin Hb]. pose proof ext_fb as Hr. destruct ext_din as [Hlen Hdir].
  assert (∀ u, valid (m_n f) u → slot img (m_din f) u < fb) as Hlo by (intros u Hu; apply Hs, Hu).
  apply (files_update img fb F img' (base + 1) i f _ HF Hi); [| |split; cbn [m_din m_n m_data]|..].
  - apply img_ok_put; [apply HF|]. rewrite length_bput; [apply blkof_len, HF|]. rewrite blkof_len by apply HF.
    unfold entry_off, MAXFILE, NINDIRECT, BSIZE, NDIRECT in *. change (1024 / 4) with 256 in *. lia.
  - change FSSIZE with 2000. lia.
  - done.
  - unfold MAXFILE, NINDIRECT, BSIZE, NDIRECT in *. change (1024 / 4) with 256 in *. lia.
  - unfold BSIZE in *. lia.
  - intros u Hu. change nmeta with 47. destruct (ext_slot u Hu) as [(_ & ->)|[(Hv & _ & ->)|(_ & -> & _)]]; [lia| |lia].
    specialize (Hs u Hv). change nmeta with 47 in Hs. lia.
  - intros k Hk. lia.
  - intros _ k Hk. rewrite ext_entry, decide_False by lia. case_decide; [apply Hin; lia|done].
  - apply ext_data.
  - intros j g u Hne Hg Hu. apply (ext_same j g u Hg Hu). by left.
  - intros u Hu. cbn [m_din m_n] in *. destruct (ext_slot u Hu) as [(_ & ->)|[(? & _ & ?)|(_ & -> & _)]]; [right; lia|by left|right; lia].
  - intros u v Hu Hv. cbn [m_din m_n] in *.
    destruct (ext_slot u Hu) as [(-> & ->)|[(Hu' & _ & ->)|(-> & -> & Eb)]], (ext_slot v Hv) as [(-> & ->)|[(Hv' & _ & ->)|(-> & -> & Eb')]]; try done;
      try (specialize (Hlo u Hu')); try (specialize (Hlo v Hv')); try lia.
    intros E. by apply (fs_inj _ _ _ HF i i f f u v Hi Hi Hu' Hv').
  - intros b Hb'. destruct ext_ind_range as [? ?]. unfold img'. rewrite blkof_put by (try apply HF; lia). rewrite decide_False by lia. apply (fs_fresh _ _ _ HF). lia.
Qed.

(** The entry the new block gets was empty. *)
Lemma ext_empty : get32 (blkof img ind) (entry_off (m_n f)) = 0.
Proof using HF Hi Hn Hcase Hfb.
  pose proof ext_fb. destruct ext_ind as [(Hlt & E & _)|(_ & E & _)]; rewrite E.
  - change (get32 _ _) with (ientry img (m_din f) (m_n f)). apply (fi_ind _ _ _ (fs_file _ _ _ HF i f Hi)); lia.
  - rewrite (fs_fresh _ _ _ HF) by (change FSSIZE with 2000; lia). apply bget_zeroes.
Qed.

Lemma ext_meta b : 0 ≤ b < nmeta → blkof img' b = blkof img b.
Proof using HF Hi Hcase Hfb.
  intros Hb. pose proof ext_ind_range as [Hr _]. unfold img'. rewrite blkof_put by (try apply HF; lia). rewrite decide_False; [done|].
  pose proof (fs_fb _ _ _ HF). destruct ext_ind as [(Hlt & -> & _)|(_ & -> & _)]; [|lia].
  pose proof (fi_slot _ _ _ (fs_file _ _ _ HF i f Hi) (-1) ltac:(by right)). lia.
Qed.

End ExtendInd.

(** ** Writing the end of the contents *)
Lemma append_block img fb F i f d :
  files_inv img fb F → F !! i = Some f →
  let off := Z.of_nat (length (m_data f)) in let fbn := off / BSIZE in
  fbn < m_n f → off mod BSIZE + Z.of_nat (length d) ≤ BSIZE →
  let x := iaddr img (m_din f) fbn in
  files_inv (put_block img x (splice (blkof img x) (Z.to_nat (off - fbn * BSIZE)) d)) fb
    (<[i := mkF (m_din f) (m_n f) (m_data f ++ d)]> F).
Proof.
  intros HF Hi off fbn Hfbn Hd x. pose proof (fs_file _ _ _ HF i f Hi) as [Hdin Hnn Hl Hs Hz Hin Hb].
  assert (off = fbn * BSIZE + off mod BSIZE ∧ 0 ≤ off mod BSIZE < BSIZE) as [Hoff Hmod].
  { unfold fbn. pose proof (Z.div_mod off BSIZE ltac:(done)). pose proof (Z.mod_pos_bound off BSIZE ltac:(done)). lia. }
  assert (0 ≤ fbn) as Hf0 by (apply Z.div_pos; [lia|done]). assert (valid (m_n f) fbn) as Hv by (left; lia).
  assert (x = slot img (m_din f) fbn) as Hx by (unfold slot; by rewrite (proj2 (Z.eqb_neq _ _)) by lia).
  pose proof (Hs fbn Hv) as Hxr. rewrite <- Hx in Hxr. change nmeta with 47 in Hxr. pose proof (fs_fb _ _ _ HF) as Hfb.
  pose proof (blkof_len img x (fs_img _ _ _ HF)) as Hlen.
  replace (Z.to_nat (off - fbn * BSIZE)) with (Z.to_nat (off mod BSIZE)) by lia.
  assert (Z.to_nat (off mod BSIZE) + length d ≤ length (blkof img x))%nat as Hfit by lia.
  set (img' := put_block _ _ _).
  assert (∀ j g u, F !! j = Some g → valid (m_n g) u → j ≠ i ∨ u ≠ fbn → blkof img' (slot img (m_din g) u) = blkof img (slot img (m_din g) u)) as Hsame.
  { intros j g u Hg Hu Hne. pose proof (fi_slot _ _ _ (fs_file _ _ _ HF j g Hg) u Hu) as Hr. change nmeta with 47 in Hr.
    unfold img'. rewrite blkof_put by (try apply HF; lia). rewrite decide_False; [done|]. rewrite Hx. intros E.
    destruct (fs_inj _ _ _ HF j i g f u fbn Hg Hi Hu Hv E). destruct Hne; congruence. }
  assert (NDIRECT < m_n f → blkof img' (daddr (m_din f) NDIRECT) = blkof img (daddr (m_din f) NDIRECT)) as Hind
    by (intros Hlt; apply (Hsame i f (-1) Hi); [by right|right; lia]).
  assert (∀ u, valid (m_n f) u → slot img' (m_din f) u = slot img (m_din f) u) as Hsl by (intros u Hu; by apply (slot_frame img img' _ (m_n f))).
  apply (files_update img fb F img' fb i f _ HF Hi); [|lia|split; cbn [m_din m_n m_data]|..]; try done.
  - apply img_ok_put; [apply HF|]. by rewrite length_splice.
  - rewrite length_app. unfold BSIZE in *. lia.
  - intros u Hu. rewrite Hsl by done. by apply Hs.
  - intros Hlt k Hk. unfold ientry. rewrite Hind by done. by apply Hin.
  - intros k Hk. set (b := k / BSIZE).
    assert (k = b * BSIZE + k mod BSIZE ∧ 0 ≤ k mod BSIZE < BSIZE) as [Hkb Hkm].
    { unfold b. pose proof (Z.div_mod k BSIZE ltac:(done)). pose proof (Z.mod_pos_bound k BSIZE ltac:(done)). lia. }
    assert (valid (m_n f) b) as Hvb by (left; unfold BSIZE in *; lia).
    assert (∀ im, iaddr im (m_din f) b = slot im (m_din f) b) as Hs' by (intros; unfold slot; by rewrite (proj2 (Z.eqb_neq _ _)) by (destruct Hvb; unfold BSIZE in *; lia)).
    rewrite Hs', Hsl by done. pose proof (Hb k Hk) as Ek. fold b in Ek. rewrite Hs' in Ek. destruct (decide (b = fbn)) as [Eb|Hne].
    + rewrite Eb, <- Hx in *. unfold img'. rewrite blkof_put by (try apply HF; lia). rewrite decide_True, splice_lookup by done.
      fold off in Hl. destruct (decide (Z.to_nat (off mod BSIZE) ≤ Z.to_nat (k mod BSIZE) < Z.to_nat (off mod BSIZE) + length d)%nat) as [Hr|Hr].
      * rewrite lookup_app_r by lia. f_equal. f_equal. lia.
      * rewrite Ek. destruct (decide (k < off)) as [Hk1|Hk1]; [by rewrite lookup_app_l by lia|].
        rewrite (lookup_ge_None_2 (m_data f)) by lia. rewrite (lookup_ge_None_2 (m_data f ++ d)) by (rewrite length_app; lia). done.
    + rewrite (Hsame i f) by (done || by right). rewrite Ek. destruct (decide (k < off)) as [Hk1|Hk1]; [by rewrite lookup_app_l by lia|].
      assert (fbn < b) by (unfold BSIZE in *; lia). rewrite !lookup_ge_None_2; [done|rewrite length_app; unfold BSIZE in *; lia|lia].
  - intros j g u Hne Hg Hu. apply (Hsame j g u Hg Hu). by left.
  - intros u Hu. left. split; [done|]. by apply Hsl.
  - intros u v Hu Hv'. cbn [m_din m_n] in *. rewrite !Hsl by done. intros E. by apply (fs_inj _ _ _ HF i i f f u v).
  - intros b Hb'. unfold img'. rewrite blkof_put by (try apply HF; lia). rewrite decide_False by lia. apply (fs_fresh _ _ _ HF). lia.
Qed.

(** ** [iappend] *)

(** The blocks a file of [n] blocks takes up. *)
Definition cost (n : Z) : Z := n + (if NDIRECT <? n then 1 else 0).

(** Only data blocks and [freeblock] changed. *)
Definition meta_kept (m m' : mkst) : Prop :=
  freeinode m' = freeinode m ∧ ∀ b, 0 ≤ b < nmeta → blkof (image m') b = blkof (image m) b.

Lemma meta_kept_trans m1 m2 m3 : meta_kept m1 m2 → meta_kept m2 m3 → meta_kept m1 m3.
Proof. intros [E1 H1] [E2 H2]. split; [congruence|]. intros b Hb. by rewrite H2, H1. Qed.

Abbreviation mk_inv m F := (files_inv (image m) (freeblock m) F) (only parsing).

Lemma next_block_ok m :
  0 ≤ freeblock m < FSSIZE → next_block m = Ok (freeblock m) (m <| freeblock := freeblock m + 1 |>).
Proof. change FSSIZE with 2000. intros Hb. unfold next_block. rewrite bind_gets, bind_modify. unfold u32. by rewrite Z.mod_small by lia. Qed.

Lemma file_block_old m F i f fbn :
  mk_inv m F → F !! i = Some f → 0 ≤ fbn < m_n f → file_block (m_din f) fbn m = Ok (m_din f, iaddr (image m) (m_din f) fbn) m.
Proof.
  intros HF Hi Hfbn. pose proof (fs_file _ _ _ HF i f Hi) as [Hd Hnn _ Hs _ _ _]. pose proof (fs_fb _ _ _ HF) as Hfb.
  assert (∀ u, valid (m_n f) u → 47 ≤ slot (image m) (m_din f) u < FSSIZE) as Hr.
  { intros u Hu. specialize (Hs u Hu). change nmeta with 47 in Hs. lia. }
  unfold file_block. rewrite !get_addr_eq. pose proof (Hr fbn ltac:(by left)) as Hx. revert Hx. unfold slot, iaddr.
  rewrite (proj2 (Z.eqb_neq fbn (-1))) by lia. destruct (Z.ltb_spec fbn NDIRECT) as [Hlt|Hge]; intros Hx.
  - rewrite (proj2 (Z.eqb_neq _ _)) by lia. rewrite bind_ret. by rewrite get_addr_eq.
  - pose proof (Hr (-1) ltac:(right; lia)) as Hind. change (slot _ _ (-1)) with (daddr (m_din f) NDIRECT) in Hind.
    rewrite (proj2 (Z.eqb_neq _ _)) by lia. rewrite bind_ret, !get_addr_eq.
    erewrite bind_ok by (apply rsect_ok; [apply HF|lia]). fold (ientry (image m) (m_din f) fbn).
    rewrite (proj2 (Z.eqb_neq _ _)) by lia. rewrite bind_ret. fold (ientry (image m) (m_din f) fbn).
    by rewrite xint_id by (change FSSIZE with 2000 in *; lia).
Qed.

Definition extended (m : mkst) (F : list mfile) (i : nat) (f : mfile) (r : res mkst (list Z * Z)) : Prop :=
  ∃ din m', r = Ok (din, iaddr (image m') din (m_n f)) m' ∧ mk_inv m' (<[i := mkF din (m_n f + 1) (m_data f)]> F) ∧
    freeblock m' = freeblock m + (cost (m_n f + 1) - cost (m_n f)) ∧ meta_kept m m' ∧ take 12 din = take 12 (m_din f).

Lemma take_put_addr din k v : length din = Z.to_nat DINODE_SIZE → take 12 (put_addr din k v) = take 12 din.
Proof.
  intros Hl. unfold put_addr, bput_n. rewrite take_app_le by (rewrite length_take, Hl; unfold DINODE_SIZE; lia).
  by rewrite take_take.
Qed.

Lemma file_block_direct m F i f :
  mk_inv m F → F !! i = Some f → m_n f < NDIRECT → freeblock m + 1 ≤ FSSIZE → extended m F i f (file_block (m_din f) (m_n f) m).
Proof.
  intros HF Hi Hn Hfb. pose proof (fs_file _ _ _ HF i f Hi) as [Hd Hnn _ _ Hz _ _]. pose proof (fs_fb _ _ _ HF) as Hr. change nmeta with 47 in Hr.
  unfold file_block. rewrite (proj2 (Z.ltb_lt _ _)), !get_addr_eq, Hz by lia. cbn [Z.eqb].
  erewrite bind_ok by (erewrite bind_ok by (apply next_block_ok; lia); reflexivity).
  exists (put_addr (m_din f) (m_n f) (freeblock m)), (m <| freeblock := freeblock m + 1 |>).
  split; [|split; [rsimpl; by apply extend_direct|]].
  - rewrite get_addr_eq. unfold iaddr. by rewrite (proj2 (Z.ltb_lt _ _)) by lia.
  - split; [rsimpl; unfold cost; rewrite !(proj2 (Z.ltb_ge _ _)) by lia; lia|]. split; [by split|]. by apply take_put_addr.
Qed.

(** The part of [file_block] that reads and fills the indirect block. *)
Lemma indirect_entry m F i f din fb :
  files_inv (image m) fb F → F !! i = Some f → NDIRECT ≤ m_n f < MAXFILE → freeblock m + 1 ≤ FSSIZE →
  (NDIRECT < m_n f ∧ din = m_din f ∧ freeblock m = fb) ∨ (m_n f = NDIRECT ∧ din = put_addr (m_din f) NDIRECT fb ∧ freeblock m = fb + 1) →
  let ind := daddr din NDIRECT in let k := (4 * Z.to_nat (m_n f - NDIRECT))%nat in
  let img' := put_block (image m) ind (put32 (blkof (image m) ind) k (freeblock m)) in
  ∃ m', (indirect <- rsect (get_addr din NDIRECT) ;;
   indirect <- (if get32 indirect k =? 0 then
                  b <- next_block ;;
                  let indirect := put32 indirect k (xint b) in
                  wsect (get_addr din NDIRECT) indirect ;;;
                  ret indirect
                else ret indirect) ;;
   ret (din, xint (get32 indirect k))) m = Ok (din, iaddr (image m') din (m_n f)) m' ∧
  image m' = img' ∧ freeblock m' = freeblock m + 1 ∧ freeinode m' = freeinode m.
Proof.
  intros HF Hi Hn Hfb Hcase ind k img'. pose proof (ext_fb _ _ _ _ _ _ HF Hfb Hcase) as Hr.
  pose proof (ext_ind_range _ _ _ _ _ _ _ HF Hi Hfb Hcase) as [Hir _]. rewrite get_addr_eq. fold ind. fold ind in Hir.
  assert (get32 (blkof (image m) ind) k = 0) as E0 by exact (ext_empty _ _ _ _ _ _ _ HF Hi Hn Hfb Hcase).
  erewrite bind_ok by (apply rsect_ok; [apply HF|done]). rewrite E0. cbn [Z.eqb].
  erewrite bind_ok; [|erewrite bind_ok by (apply next_block_ok; lia); cbv zeta; rewrite xint_id by lia;
    erewrite bind_ok by (apply wsect_ok; [rsimpl; apply HF|done]); reflexivity].
  exists (m <| freeblock := freeblock m + 1 |> <| image := img' |>). rsimpl. fold img'. split; [|done]. unfold ret. f_equal. f_equal.
  unfold iaddr. rewrite (proj2 (Z.ltb_ge _ _)) by lia. rewrite xint_id by apply (bget_range 4). unfold ientry. fold ind.
  unfold img'. rewrite blkof_put by (try apply HF; lia). by rewrite decide_True.
Qed.

Lemma file_block_indirect m F i f :
  mk_inv m F → F !! i = Some f → NDIRECT ≤ m_n f < MAXFILE → freeblock m + (cost (m_n f + 1) - cost (m_n f)) ≤ FSSIZE →
  extended m F i f (file_block (m_din f) (m_n f) m).
Proof.
  intros HF Hi Hn Hfb. pose proof (fs_file _ _ _ HF i f Hi) as [Hd Hnn _ Hs Hz Hin _]. pose proof (fs_fb _ _ _ HF) as Hr. change nmeta with 47 in Hr.
  unfold extended. revert Hfb. unfold cost. unfold file_block. rewrite (proj2 (Z.ltb_ge (m_n f) NDIRECT)), !get_addr_eq by lia.
  rewrite (proj2 (Z.ltb_lt _ (m_n f + 1))) by lia. destruct (Z.ltb_spec NDIRECT (m_n f)) as [Hlt|Hge]; intros Hfb.
  - pose proof (Hs (-1) ltac:(right; lia)) as Hx. change (slot _ _ (-1)) with (daddr (m_din f) NDIRECT) in Hx. change nmeta with 47 in Hx.
    rewrite (proj2 (Z.eqb_neq _ _)) by lia. rewrite bind_ret. assert (freeblock m + 1 ≤ FSSIZE) as Hfb1 by lia.
    destruct (indirect_entry m F i f (m_din f) (freeblock m)) as (m' & E & Ei & Ef & En); [done..|by left|].
    exists (m_din f), m'. split; [exact E|]. rewrite Ef. unfold meta_kept. rewrite Ei.
    split; [by apply (extend_ind _ _ _ _ _ _ _ HF Hi Hn Hfb1); left|]. split; [lia|]. split; [|done].
    split; [done|]. intros b Hb. apply (ext_meta _ _ _ _ _ _ _ HF Hi Hfb1); [by left|done].
  - assert (m_n f = NDIRECT) as En by lia. rewrite Hz by lia. cbn [Z.eqb]. assert (freeblock m + 1 + 1 ≤ FSSIZE) as Hfb1 by lia.
    erewrite bind_ok by (erewrite bind_ok by (apply next_block_ok; lia); reflexivity).
    set (m1 := m <| freeblock := _ |>). assert (freeblock m1 = freeblock m + 1 ∧ image m1 = image m) as [Ef Ei] by (unfold m1; by rsimpl).
    destruct (indirect_entry m1 F i f (put_addr (m_din f) NDIRECT (freeblock m)) (freeblock m)) as (m' & E & Ei' & Ef' & En');
      [by rewrite Ei|done|done|by rewrite Ef|right; by rewrite Ef|]. rewrite Ei, Ef in *.
    exists (put_addr (m_din f) NDIRECT (freeblock m)), m'. split; [exact E|]. rewrite Ef'. unfold meta_kept. rewrite Ei'.
    split; [by apply (extend_ind _ _ _ _ _ _ _ HF Hi Hn Hfb1); right|]. split; [lia|]. split; [|by apply take_put_addr].
    split; [rewrite En'; unfold m1; by rsimpl|]. intros b Hb. apply (ext_meta _ _ _ _ _ _ _ HF Hi Hfb1); [by right|done].
Qed.

(** The blocks of a file of [len] bytes. *)
Definition nb (len : Z) : Z := (len + (BSIZE - 1)) / BSIZE.
Definition flen (l : list Z) : Z := Z.of_nat (length l).

Lemma nb_bounds len : len ≤ nb len * BSIZE < len + BSIZE.
Proof. unfold nb, BSIZE. pose proof (Z.div_mod (len + (1024 - 1)) 1024 ltac:(done)). pose proof (Z.mod_pos_bound (len + (1024 - 1)) 1024 ltac:(done)). lia. Qed.

Lemma cost_mono a b : a ≤ b → cost a ≤ cost b.
Proof. intros Hle. unfold cost. destruct (Z.ltb_spec NDIRECT a), (Z.ltb_spec NDIRECT b); lia. Qed.

(** The block for byte [off], where the file ends at [off]. *)
Lemma file_block_ok m F i f :
  let off := flen (m_data f) in let fbn := off / BSIZE in
  mk_inv m F → F !! i = Some f → m_n f = nb off → fbn < MAXFILE → freeblock m + (cost (fbn + 1) - cost (nb off)) ≤ FSSIZE →
  ∃ din m', file_block (m_din f) fbn m = Ok (din, iaddr (image m') din fbn) m' ∧ mk_inv m' (<[i := mkF din (fbn + 1) (m_data f)]> F) ∧
    freeblock m' = freeblock m + (cost (fbn + 1) - cost (nb off)) ∧ meta_kept m m' ∧ take 12 din = take 12 (m_din f).
Proof.
  intros off fbn HF Hi Hn Hmax Hfb. assert (0 ≤ off) as H0 by (unfold off, flen; lia). pose proof (nb_bounds off) as Hb.
  assert (fbn * BSIZE ≤ off < (fbn + 1) * BSIZE ∧ 0 ≤ fbn) as [Hf ?].
  { unfold fbn, BSIZE. pose proof (Z.div_mod off 1024 ltac:(done)). pose proof (Z.mod_pos_bound off 1024 ltac:(done)). lia. }
  assert (nb off = fbn ∨ nb off = fbn + 1) as [E|E] by (unfold BSIZE in *; lia); rewrite E in *.
  - rewrite <- Hn in *. destruct (Z.lt_ge_cases (m_n f) NDIRECT).
    + apply file_block_direct; [done..|]. revert Hfb. unfold cost. rewrite !(proj2 (Z.ltb_ge _ _)) by lia. lia.
    + by apply file_block_indirect; [..|lia|].
  - exists (m_din f), m. rewrite (file_block_old m F i f) by (done || lia). split; [done|].
    rewrite <- Hn. destruct f as [d n da]. cbn [m_din m_n m_data]. rewrite list_insert_id by done.
    split; [done|]. split; [lia|]. by split.
Qed.

Lemma iappend_loop_S fuel din off p :
  p ≠ [] → iappend_loop (S fuel) din off p =
    (let fbn := off / BSIZE in
     assert_ (fbn <? MAXFILE) ;;;
     r <- file_block din fbn ;;
     let '(din, x) := r in
     let n1 := Z.to_nat (Z.min (flen p) ((fbn + 1) * BSIZE - off)) in
     buf <- rsect x ;;
     wsect x (splice buf (Z.to_nat (off - fbn * BSIZE)) (take n1 p)) ;;;
     iappend_loop fuel din (u32 (off + Z.of_nat n1)) (drop n1 p)).
Proof. by destruct p. Qed.

(** One round of the loop. *)
Lemma iappend_step fuel m F i f p :
  let off := flen (m_data f) in
  mk_inv m F → F !! i = Some f → m_n f = nb off → p ≠ [] → off + flen p ≤ MAXFILE * BSIZE →
  freeblock m + (cost (nb (off + flen p)) - cost (nb off)) ≤ FSSIZE →
  ∃ din m' n1, let d := take (Z.to_nat n1) p in 1 ≤ n1 ≤ flen p ∧ flen d = n1 ∧
    iappend_loop (S fuel) (m_din f) off p m = iappend_loop fuel din (off + n1) (drop (Z.to_nat n1) p) m' ∧
    mk_inv m' (<[i := mkF din (nb (off + n1)) (m_data f ++ d)]> F) ∧
    freeblock m' = freeblock m + (cost (nb (off + n1)) - cost (nb off)) ∧ meta_kept m m' ∧ take 12 din = take 12 (m_din f).
Proof.
  intros off HF Hi Hn Hp Hmax Hfb. assert (1 ≤ flen p) as Hp1 by (unfold flen; destruct p; [done|cbn [length]; lia]).
  assert (0 ≤ off) as H0 by (unfold off, flen; lia). rewrite iappend_loop_S by done. cbv zeta. set (fbn := off / BSIZE).
  assert (fbn * BSIZE ≤ off < (fbn + 1) * BSIZE ∧ 0 ≤ fbn ∧ off - fbn * BSIZE = off mod BSIZE) as (Hf & Hf0 & Emod).
  { unfold fbn, BSIZE. pose proof (Z.div_mod off 1024 ltac:(done)). pose proof (Z.mod_pos_bound off 1024 ltac:(done)). lia. }
  assert (fbn < MAXFILE) as Hfm by (unfold BSIZE in *; lia). rewrite (proj2 (Z.ltb_lt _ _)) by done.
  change (assert_ true) with (ret tt : MK unit). rewrite bind_ret.
  set (n1 := Z.min (flen p) ((fbn + 1) * BSIZE - off)). assert (1 ≤ n1 ≤ flen p ∧ off + n1 ≤ (fbn + 1) * BSIZE) as Hn1 by lia.
  pose proof (nb_bounds (off + flen p)) as Hnb. pose proof (cost_mono (fbn + 1) (nb (off + flen p)) ltac:(unfold BSIZE in *; lia)) as Hcost.
  assert (nb (off + n1) = fbn + 1) as Enb by (pose proof (nb_bounds (off + n1)); unfold BSIZE in *; lia).
  destruct (file_block_ok m F i f HF Hi Hn Hfm ltac:(fold off; fold fbn; lia)) as (din1 & m1 & E1 & HF1 & Efb1 & Hk1 & Ht1). fold off fbn in E1, HF1, Efb1.
  set (f1 := mkF din1 (fbn + 1) (m_data f)) in HF1. set (d := take (Z.to_nat n1) p).
  assert (flen d = n1) as Ed by (unfold flen, d, flen in *; rewrite length_take; lia).
  pose proof (lookup_lt_Some _ _ _ Hi) as Hlt. assert (<[i := f1]> F !! i = Some f1) as Hi1 by (by apply list_lookup_insert_eq).
  pose proof (fi_slot _ _ _ (fs_file _ _ _ HF1 i f1 Hi1) fbn ltac:(left; cbn [m_n f1]; lia)) as Hx.
  unfold slot in Hx. rewrite (proj2 (Z.eqb_neq _ _)) in Hx by lia. cbn [m_din f1] in Hx. pose proof (fs_fb _ _ _ HF1) as Hr1. change nmeta with 47 in Hx.
  pose proof (append_block (image m1) (freeblock m1) _ i f1 d HF1 Hi1) as HF2. cbv zeta in HF2. cbn [m_din m_n m_data f1] in HF2.
  change (Z.of_nat (length (m_data f))) with off in HF2. fold fbn in HF2. rewrite list_insert_insert_eq in HF2.
  specialize (HF2 ltac:(lia) ltac:(change (Z.of_nat (length d)) with (flen d); lia)).
  eexists din1, _, n1. split; [lia|]. split; [done|]. split; [|split; [|split; [|split]]].
  - erewrite bind_ok by exact E1. cbv beta iota. erewrite bind_ok by (apply rsect_ok; [apply HF1|lia]).
    erewrite bind_ok by (apply wsect_ok; [apply HF1|lia]). rewrite Z2Nat.id by lia.
    unfold u32. rewrite Z.mod_small; [reflexivity|]. unfold MAXFILE, NINDIRECT, NDIRECT, BSIZE in *. change (1024 / 4) with 256 in *. lia.
  - rewrite Enb. rsimpl. exact HF2.
  - rsimpl. by rewrite Enb.
  - destruct Hk1 as [Hk1 Hk2]. split; rsimpl; [done|]. intros b Hb. change nmeta with 47 in *.
    rewrite blkof_put by (try apply HF1; lia). rewrite decide_False by lia. by apply Hk2.
  - done.
Qed.

Lemma iappend_loop_ok fuel m F i f p :
  let off := flen (m_data f) in
  mk_inv m F → F !! i = Some f → m_n f = nb off → (length p ≤ fuel)%nat → off + flen p ≤ MAXFILE * BSIZE →
  freeblock m + (cost (nb (off + flen p)) - cost (nb off)) ≤ FSSIZE →
  ∃ din m', iappend_loop fuel (m_din f) off p m = Ok (din, off + flen p) m' ∧
    mk_inv m' (<[i := mkF din (nb (off + flen p)) (m_data f ++ p)]> F) ∧
    freeblock m' = freeblock m + (cost (nb (off + flen p)) - cost (nb off)) ∧ meta_kept m m' ∧ take 12 din = take 12 (m_din f).
Proof.
  revert m F f p. induction fuel as [|fuel IH]; intros m F f p off HF Hi Hn Hlen Hmax Hfb.
  all: destruct (decide (p = [])) as [->|Hp]; [|try (by destruct p; [|cbn [length] in Hlen; lia])].
  1,2: exists (m_din f), m; rewrite app_nil_r, Z.add_0_r, <- Hn, Z.sub_diag, Z.add_0_r; destruct f as [d n da]; cbn [m_din m_n m_data]; rewrite list_insert_id by done; by split_and!.
  destruct (iappend_step fuel m F i f p HF Hi Hn Hp Hmax Hfb) as (din1 & m1 & n1 & Hn1 & Ed & E1 & HF1 & Efb1 & Hk1 & Ht1).
  fold off in E1, HF1, Efb1. rewrite E1. set (f1 := mkF _ _ _) in HF1.
  assert (flen (m_data f1) = off + n1) as Ef1 by (unfold f1, flen in *; cbn [m_data]; rewrite length_app; unfold off, flen; lia).
  assert (flen (drop (Z.to_nat n1) p) = flen p - n1) as Edr by (unfold flen in *; rewrite length_drop; lia).
  pose proof (lookup_lt_Some _ _ _ Hi) as Hlt.
  destruct (IH m1 (<[i := f1]> F) f1 (drop (Z.to_nat n1) p)) as (din2 & m2 & E2 & HF2 & Efb2 & Hk2 & Ht2);
    [done|by apply list_lookup_insert_eq|by rewrite Ef1|unfold flen in *; lia|lia|rewrite Ef1, Edr, Efb1; replace (off + n1 + (flen p - n1)) with (off + flen p) by lia; lia|].
  rewrite Ef1, Edr in *. replace (off + n1 + (flen p - n1)) with (off + flen p) in * by lia.
  exists din2, m2. split; [exact E2|]. rewrite list_insert_insert_eq in HF2. unfold f1 in HF2. cbn [m_data] in HF2.
  rewrite <- app_assoc, take_drop in HF2. split; [exact HF2|]. split; [lia|]. split; [by eapply meta_kept_trans|]. by rewrite Ht2.
Qed.
