(* ===== verification/MkfsImage.v ===== *)
(** * The image [mkfs] builds

    The inodes of the image, and the effect of [ialloc], [iappend] and the
    whole of [main] on the contents of the files.  The last part shows the
    image as the kernel reads it: the superblock, the inodes, the blocks of
    each file and the free map. *)

From Stdlib Require Import ZArith Lia.
From S2P Require Import Prelude Params CString State Process Vm Bytes Sleeplock Bio BioRep Cache Log LogRep Crash Txn Fs FsRep FsAlloc FsInode FsFile Dir FsDir Mkfs MkfsRep.
From stdpp Require Import base gmap strings numbers list.

Open Scope Z_scope.

(** ** Inodes *)

(** The number of inodes the inode blocks have room for. *)
Definition inode_slots : Z := ninodeblocks * IPB.

Definition dbytes (img : list (list Z)) (inum : Z) : list Z :=
  take (Z.to_nat DINODE_SIZE) (drop (DI_OFF inum) (blkof img (IBLOCK inum mksb))).

(** The first 12 bytes of an inode with one link. *)
Definition header (type size : Z) : list Z := le_encode 2 type ++ [0; 0; 0; 0; 1; 0] ++ le_encode 4 size.

Lemma IBLOCK_mksb inum : 0 ≤ inum < inode_slots → IBLOCK inum mksb = inum / 16 + 33 ∧ 33 ≤ inum / 16 + 33 < 46.
Proof.
  change inode_slots with 208. intros Hi. unfold IBLOCK. change (sb_inodestart mksb) with 33. change IPB with 16.
  pose proof (Z.div_mod inum 16 ltac:(done)). pose proof (Z.mod_pos_bound inum 16 ltac:(done)).
  unfold u32. rewrite Z.mod_small; lia.
Qed.

Lemma length_dbytes img inum : img_ok img → length (dbytes img inum) = Z.to_nat DINODE_SIZE.
Proof.
  intros Him. pose proof (DI_OFF_bound inum) as Hb. unfold dbytes. rewrite length_take, length_drop, blkof_len by done.
  unfold DINODE_SIZE, BSIZE in *. lia.
Qed.

Lemma take_drop_splice_eq (l d : list Z) off : (off + length d ≤ length l)%nat → take (length d) (drop off (splice l off d)) = d.
Proof.
  intros Hl. unfold splice. rewrite drop_app_length' by (rewrite length_take; lia). by rewrite take_app_length.
Qed.

Lemma take_drop_splice_ne (l d : list Z) off o n :
  (off + length d ≤ length l)%nat → (o + n ≤ off ∨ off + length d ≤ o)%nat → take n (drop o (splice l off d)) = take n (drop o l).
Proof.
  intros Hl Ho. apply list_eq. intros k. destruct (decide (k < n)%nat) as [Hk|Hk]; [|by rewrite !lookup_take_ge by lia].
  rewrite !lookup_take_lt, !lookup_drop by done. rewrite splice_lookup by done. by rewrite decide_False by lia.
Qed.

Lemma dbytes_ext img img' inum :
  (∀ b, 0 ≤ b < nmeta → blkof img' b = blkof img b) → 0 ≤ inum < 208 → dbytes img' inum = dbytes img inum.
Proof.
  intros Hb Hi. destruct (IBLOCK_mksb inum Hi) as [E Hr]. unfold dbytes. rewrite Hb; [done|]. rewrite E. change nmeta with 47. lia.
Qed.

(** [winode] replaces one inode. *)
Lemma winode_ok m inum din :
  img_ok (image m) → 0 ≤ inum < inode_slots → length din = Z.to_nat DINODE_SIZE →
  ∃ m', winode inum din m = Ok tt m' ∧ img_ok (image m') ∧ freeinode m' = freeinode m ∧ freeblock m' = freeblock m ∧
    (∀ b, 0 ≤ b → ¬ (33 ≤ b < 46) → blkof (image m') b = blkof (image m) b) ∧
    (∀ j, 0 ≤ j < inode_slots → dbytes (image m') j = if decide (j = inum) then din else dbytes (image m) j).
Proof.
  intros Him Hi Hd. destruct (IBLOCK_mksb inum Hi) as [Eb Hb]. pose proof (DI_OFF_bound inum) as Hoff.
  pose proof (blkof_len (image m) (IBLOCK inum mksb) Him) as Hlen.
  assert (DI_OFF inum + length din ≤ length (blkof (image m) (IBLOCK inum mksb)))%nat as Hfit by (rewrite Hlen, Hd; unfold DINODE_SIZE; lia).
  assert (0 ≤ IBLOCK inum mksb < FSSIZE) as Hr by (rewrite Eb; change FSSIZE with 2000; lia).
  eexists. split; [unfold winode; erewrite bind_ok by (by apply rsect_ok); by apply wsect_ok|]. rsimpl.
  split; [by apply img_ok_put; [|rewrite length_splice]|]. split; [done|]. split; [done|]. split.
  - intros b H0 Hn. rewrite blkof_put by done. rewrite decide_False; [done|lia].
  - intros j Hj. destruct (IBLOCK_mksb j Hj) as [Ej Hbj]. unfold dbytes. rewrite blkof_put by (done || lia).
    destruct (decide (IBLOCK j mksb = IBLOCK inum mksb)) as [E|E]; [|by rewrite decide_False by congruence].
    destruct (decide (j = inum)) as [->|Hne]; [rewrite <- Hd; by apply take_drop_splice_eq|].
    rewrite E. apply take_drop_splice_ne; [done|]. rewrite Hd.
    destruct (DI_OFF_apart inum j) as [?|?]; [lia|lia| |unfold DINODE_SIZE; lia..].
    change IPB with 16. pose proof (Z.div_mod inum 16 ltac:(done)). pose proof (Z.div_mod j 16 ltac:(done)). lia.
Qed.

Lemma rinode_ok m inum : img_ok (image m) → 0 ≤ inum < inode_slots → rinode inum m = Ok (dbytes (image m) inum) m.
Proof.
  intros Him Hi. destruct (IBLOCK_mksb inum Hi) as [Eb Hb]. unfold rinode.
  by erewrite bind_ok by (apply rsect_ok; [done|rewrite Eb; change FSSIZE with 2000; lia]).
Qed.

(** ** The invariant *)

(** The files do not depend on the metadata blocks. *)
Lemma files_ext img img' fb F :
  files_inv img fb F → img_ok img' → (∀ b, nmeta ≤ b → blkof img' b = blkof img b) → files_inv img' fb F.
Proof.
  intros [Him Hfb Hf Hinj Hfr] Him' Hb.
  assert (∀ i f u, F !! i = Some f → valid (m_n f) u → blkof img' (slot img (m_din f) u) = blkof img (slot img (m_din f) u)) as Hs
    by (intros i f u Hi Hu; apply Hb, (fi_slot _ _ _ (Hf i f Hi) u Hu)).
  assert (∀ i f u, F !! i = Some f → valid (m_n f) u → slot img' (m_din f) u = slot img (m_din f) u) as Hsl
    by (intros i f u Hi Hu; apply (slot_frame img img' _ (m_n f)); [|done]; intros Hlt; apply (Hs i f (-1) Hi); by right).
  split; [done|done| | |].
  - intros i f Hi. apply (file_frame img img' fb); [by apply (Hf i)|done|]. intros u. by apply (Hs i).
  - intros i j f g u v Hi Hj Hu Hv. rewrite (Hsl i), (Hsl j) by done. by apply Hinj.
  - intros b Hbb. rewrite Hb by lia. by apply Hfr.
Qed.

(** The fields of an inode other than the addresses do not matter, nor zeros at
    the end of the contents. *)
Lemma files_din img fb F i f din data :
  files_inv img fb F → F !! i = Some f → length din = Z.to_nat DINODE_SIZE →
  (∀ k, 0 ≤ k ≤ NDIRECT → daddr din k = daddr (m_din f) k) →
  flen data ≤ m_n f * BSIZE → (∀ k, default 0 (data !! k) = default 0 (m_data f !! k)) →
  files_inv img fb (<[i := mkF din (m_n f) data]> F).
Proof.
  intros HF Hi Hl Hd Hfl Hdata. pose proof (fs_file _ _ _ HF i f Hi) as [Hlen Hn Hdl Hs Hz Hin Hb].
  assert (∀ u, valid (m_n f) u → slot img din u = slot img (m_din f) u) as Hsl.
  { intros u Hu. unfold slot, iaddr, ientry. rewrite !Hd by done. destruct (u =? -1) eqn:E; [done|].
    destruct (Z.ltb_spec u NDIRECT); [|done]. apply Hd. destruct Hu as [?|[-> _]]; [lia|done]. }
  apply (files_update img fb F img fb i f _ HF Hi); [apply HF|pose proof (fs_fb _ _ _ HF); lia|split; cbn [m_din m_n m_data]; try done|done|..].
  - intros u Hu. rewrite Hsl by done. by apply Hs.
  - intros k Hk. rewrite Hd by lia. by apply Hz.
  - intros Hlt k Hk. unfold ientry. rewrite Hd by done. by apply Hin.
  - intros k Hk. rewrite Hdata, <- (Hb k Hk). f_equal. f_equal. f_equal. unfold iaddr, ientry. rewrite (Hd NDIRECT) by done.
    destruct (Z.ltb_spec (k / BSIZE) NDIRECT); [|done]. apply Hd. split; [apply Z.div_pos; [lia|done]|lia].
  - intros u Hu. left. split; [done|]. by apply Hsl.
  - intros u v Hu Hv. cbn [m_din m_n] in *. rewrite !Hsl by done. intros E. by apply (fs_inj _ _ _ HF i i f f u v).
  - apply HF.
Qed.

(** A new file without blocks. *)
Lemma files_snoc img fb F din :
  files_inv img fb F → length din = Z.to_nat DINODE_SIZE → (∀ k, 0 ≤ k ≤ NDIRECT → daddr din k = 0) →
  files_inv img fb (F ++ [mkF din 0 []]).
Proof.
  intros [Him Hfb Hf Hinj Hfr] Hl Hz.
  assert (∀ u, ¬ valid 0 u) as Hno by (intros u [?|[_ ?]]; [lia|by unfold NDIRECT in *]).
  split; [done|done| | |done].
  - intros i f Hi. apply lookup_app_Some in Hi as [Hi|[_ Hi]]; [by apply (Hf i)|].
    apply list_lookup_singleton_Some in Hi as [_ <-]. split; cbn [m_din m_n m_data]; try done.
    + intros u Hu. by apply Hno in Hu.
    + lia.
  - intros i j f g u v Hi Hj Hu Hv E. apply lookup_app_Some in Hi as [Hi|[_ Hi]]; cycle 1.
    { apply list_lookup_singleton_Some in Hi as [_ <-]. by apply Hno in Hu. }
    apply lookup_app_Some in Hj as [Hj|[_ Hj]]; [by apply (Hinj i j f g u v)|].
    apply list_lookup_singleton_Some in Hj as [_ <-]. by apply Hno in Hv.
Qed.

(** A file on the image: its type and its bytes. *)
Abbreviation file := (Z * list Z)%type.

Fixpoint blocks_used (C : list file) : Z :=
  match C with [] => 0 | (_, c) :: C' => cost (nb (flen c)) + blocks_used C' end.

(** The boot block, the log and the free map are zero, and the superblock is
    written. *)
Record static (img : list (list Z)) : Prop := {
  sta_zero : ∀ b, b = 0 ∨ 2 ≤ b < 33 ∨ b = 46 → blkof img b = zeroes;
  sta_sb : blkof img 1 = splice zeroes 0 (sb_bytes mksb)
}.

(** The image holds the files [C], with inode numbers from 1 on. *)
Record holds_with (m : mkst) (C : list file) (F : list mfile) : Prop := {
  hw_files : files_inv (image m) (freeblock m) F;
  hw_data : m_data <$> F = C.*2;
  hw_next : freeinode m = 1 + Z.of_nat (length C);
  hw_room : 1 + Z.of_nat (length C) ≤ NINODES;
  hw_used : freeblock m = nmeta + blocks_used C;
  hw_inode : ∀ i f t c, F !! i = Some f → C !! i = Some (t, c) →
    dbytes (image m) (1 + Z.of_nat i) = m_din f ∧ take 12 (m_din f) = header t (flen c) ∧ m_n f = nb (flen c);
  hw_free : ∀ inum, freeinode m ≤ inum < inode_slots → dbytes (image m) inum = replicate (Z.to_nat DINODE_SIZE) 0;
  hw_static : static (image m)
}.
Definition holds (m : mkst) (C : list file) : Prop := ∃ F, holds_with m C F.

(** ** Headers *)

Lemma length_header t size : length (header t size) = 12%nat.
Proof. done. Qed.

Lemma take_8_header t size : take 8 (header t size) = le_encode 2 t ++ [0; 0; 0; 0; 1; 0].
Proof. done. Qed.

Lemma header_size din t size : take 12 din = header t size → 0 ≤ size < 2 ^ 32 → get32 din 8 = size.
Proof.
  intros Ht Hs. transitivity (get32 (take 12 din) 8).
  - apply bget_ext. intros k Hk. by rewrite lookup_take_lt by lia.
  - rewrite Ht. unfold bget_n, header. cbn [le_encode app drop take]. change [u8 size; _; _; _] with (le_encode 4 size).
    rewrite le_decode_encode. by apply Z.mod_small.
Qed.

Lemma put_size din t size size' :
  (12 ≤ length din)%nat → take 12 din = header t size → take 12 (put32 din 8 size') = header t size'.
Proof.
  intros Hl Ht. unfold bput_n. assert (take 8 din = le_encode 2 t ++ [0; 0; 0; 0; 1; 0]) as ->.
  { rewrite <- (take_8_header t size), <- Ht, take_take. done. }
  unfold header. rewrite <- app_assoc. done.
Qed.

Lemma daddr_put_size din size k :
  length din = Z.to_nat DINODE_SIZE → daddr (put32 din 8 size) k = daddr din k.
Proof. intros Hl. apply bget_bput_ne; [rewrite Hl; unfold DINODE_SIZE; lia|lia]. Qed.

(** The inode [ialloc] writes. *)
Definition new_din (t : Z) : list Z :=
  put32 (put16 (put16 (replicate (Z.to_nat DINODE_SIZE) 0) 0 (xshort t)) 6 (xshort 1)) 8 (xint 0).

Lemma new_din_eq t : 0 ≤ t < 2 ^ 16 → new_din t = header t 0 ++ replicate 52 0.
Proof. intros Ht. unfold new_din. rewrite (xshort_id t) by done. reflexivity. Qed.

Lemma new_din_addr t k : 0 ≤ t < 2 ^ 16 → 0 ≤ k ≤ NDIRECT → daddr (new_din t) k = 0.
Proof.
  intros Ht Hk. rewrite new_din_eq by done. unfold NDIRECT in Hk.
  assert (k = 0 ∨ k = 1 ∨ k = 2 ∨ k = 3 ∨ k = 4 ∨ k = 5 ∨ k = 6 ∨ k = 7 ∨ k = 8 ∨ k = 9 ∨ k = 10 ∨ k = 11 ∨ k = 12) as Hc by lia.
  destruct_or! Hc; subst k; reflexivity.
Qed.

Lemma used_by_app C C' : blocks_used (C ++ C') = blocks_used C + blocks_used C'.
Proof. induction C as [|[t c] C IH]; cbn [blocks_used app]; lia. Qed.

Lemma used_by_insert C i t c c' : C !! i = Some (t, c) → blocks_used (<[i := (t, c')]> C) = blocks_used C + (cost (nb (flen c')) - cost (nb (flen c))).
Proof.
  revert i. induction C as [|[t0 c0] C IH]; intros [|i] Hi; [done..| |]; cbn [lookup list_lookup] in Hi.
  - simplify_eq. change (<[0%nat:=(t, c')]> ((t, c) :: C)) with ((t, c') :: C). cbn [blocks_used]. lia.
  - change (<[S i:=(t, c')]> ((t0, c0) :: C)) with ((t0, c0) :: <[i:=(t, c')]> C). cbn [blocks_used]. rewrite (IH i Hi). lia.
Qed.

(** ** ialloc *)
Lemma ialloc_ok m C t :
  holds m C → 2 + Z.of_nat (length C) ≤ NINODES → 0 ≤ t < 2 ^ 16 →
  ∃ m', ialloc t m = Ok (1 + Z.of_nat (length C)) m' ∧ holds m' (C ++ [(t, [])]).
Proof.
  intros [F [HF Hd Hn Hr Hu Hi Hfr Hst]] Hroom Ht. change NINODES with 200 in Hroom, Hr. change inode_slots with 208 in Hfr.
  assert (length F = length C) as HlF by (rewrite <- (length_fmap m_data F), Hd, length_fmap; done).
  set (m1 := m <| freeinode := 2 + Z.of_nat (length C) |>).
  destruct (winode_ok m1 (1 + Z.of_nat (length C)) (new_din t)) as (m2 & E & Him & Efi & Efb & Hb & Hdb);
    [unfold m1; rsimpl; apply HF|change inode_slots with 208; lia|by rewrite new_din_eq|].
  exists m2. split.
  { unfold ialloc. rewrite bind_gets, bind_modify, Hn. unfold u32. rewrite Z.mod_small by lia.
    replace (1 + Z.of_nat (length C) + 1) with (2 + Z.of_nat (length C)) by lia. fold m1. by erewrite bind_ok by exact E. }
  unfold m1 in Efi, Efb, Hb, Hdb. revert Efi Efb Hb Hdb. rsimpl. intros Efi Efb Hb Hdb. change inode_slots with 208 in Hdb.
  exists (F ++ [mkF (new_din t) 0 []]). split; rewrite ?Efi, ?Efb, ?fmap_app, ?length_app, ?used_by_app; cbn [length blocks_used].
  - apply files_snoc; [|by rewrite new_din_eq|intros k; by apply new_din_addr].
    eapply files_ext; [exact HF|done|]. intros b Hbb. apply Hb; change nmeta with 47 in Hbb; lia.
  - by rewrite Hd.
  - lia.
  - change NINODES with 200. lia.
  - rewrite Hu. change (cost (nb (flen []))) with 0. lia.
  - intros i f ty c Hf Hc. apply lookup_app_Some in Hf as [Hf|[Hge Hf]].
    + pose proof (lookup_lt_Some _ _ _ Hf) as Hlt. rewrite lookup_app_l in Hc by lia. rewrite Hdb by lia. rewrite decide_False by lia. by apply Hi.
    + apply list_lookup_singleton_Some in Hf as [Ei <-]. assert (i = length C) as -> by lia.
      rewrite lookup_app_r, Nat.sub_diag in Hc by lia. cbn in Hc. simplify_eq. rewrite Hdb, decide_True by lia.
      cbn [m_din m_n]. rewrite new_din_eq by done. split_and!; try done.
  - intros inum Hin. change inode_slots with 208 in Hin. rewrite Hdb by lia. rewrite decide_False by lia. apply Hfr. lia.
  - destruct Hst as [Hz Hs]. split; [intros b Hbb; rewrite Hb by lia; by apply Hz|by rewrite Hb by lia].
Qed.

(** ** iappend *)
Lemma iappend_ok m C i t c p :
  holds m C → C !! i = Some (t, c) → flen c + flen p ≤ MAXFILE * BSIZE →
  nmeta + blocks_used (<[i := (t, c ++ p)]> C) ≤ FSSIZE →
  ∃ m', iappend (1 + Z.of_nat i) p m = Ok tt m' ∧ holds m' (<[i := (t, c ++ p)]> C).
Proof.
  intros [F [HF Hd Hn Hr Hu Hi Hfr Hst]] Hc Hmax Htot. change NINODES with 200 in Hr. change inode_slots with 208 in Hfr.
  assert (length F = length C) as HlF by (rewrite <- (length_fmap m_data F), Hd, length_fmap; done).
  pose proof (lookup_lt_Some _ _ _ Hc) as Hlt. destruct (lookup_lt_is_Some_2 F i ltac:(lia)) as [f Hf].
  assert (m_data f = c) as Edata.
  { assert ((m_data <$> F) !! i = C.*2 !! i) as E by (by rewrite Hd). rewrite !list_lookup_fmap, Hf, Hc in E. by injection E. }
  destruct (Hi i f t c Hf Hc) as (Edb & Ehd & Enb). pose proof (fi_din _ _ _ (fs_file _ _ _ HF i f Hf)) as Hdin.
  assert (flen (c ++ p) = flen c + flen p) as Elen by (unfold flen; rewrite length_app; lia).
  assert (0 ≤ flen c ∧ 0 ≤ flen p ∧ flen c + flen p < 2 ^ 32) as (H0 & H1 & H32).
  { unfold flen, MAXFILE, NINDIRECT, NDIRECT, BSIZE in *. change (1024 / 4) with 256 in *. lia. }
  rewrite (used_by_insert C i t c _ Hc), Elen in Htot.
  destruct (iappend_loop_ok (length p) m F i f p) as (din & m1 & E1 & HF1 & Efb1 & [Efi1 Hk1] & Ht1); rewrite ?Edata in *; try done; [lia|].
  pose proof (lookup_lt_Some _ _ _ Hf) as HltF. set (f1 := mkF din _ _) in HF1.
  assert (<[i := f1]> F !! i = Some f1) as Hf1 by (by apply list_lookup_insert_eq).
  pose proof (fi_din _ _ _ (fs_file _ _ _ HF1 i f1 Hf1)) as Hdin1. cbn [m_din f1] in Hdin1.
  assert (length (put32 din 8 (flen c + flen p)) = Z.to_nat DINODE_SIZE) as Hdin2 by (rewrite length_bput; [done|rewrite Hdin1; unfold DINODE_SIZE; lia]).
  destruct (winode_ok m1 (1 + Z.of_nat i) (put32 din 8 (flen c + flen p))) as (m2 & E2 & Him2 & Efi2 & Efb2 & Hb2 & Hdb2);
    [apply HF1|change inode_slots with 208; lia|done|]. change inode_slots with 208 in Hdb2.
  exists m2. split.
  { unfold iappend. erewrite bind_ok by (apply rinode_ok; [apply HF|change inode_slots with 208; lia]).
    rewrite Edb, (header_size _ t (flen c)) by (done || lia). rewrite xint_id by lia. cbv zeta.
    erewrite bind_ok by exact E1. cbv beta iota. rewrite xint_id by lia. exact E2. }
  assert (∀ j, 0 ≤ j < 208 → j ≠ 1 + Z.of_nat i → dbytes (image m2) j = dbytes (image m) j) as Hdb.
  { intros j Hj Hne. rewrite Hdb2, decide_False by lia. by apply dbytes_ext. }
  exists (<[i := mkF (put32 din 8 (flen c + flen p)) (nb (flen c + flen p)) (c ++ p)]> F).
  split; rewrite ?length_insert, ?Efi2, ?Efb2, ?Efi1, ?Efb1; try done.
  - eapply files_ext; [|exact Him2|intros b Hb; apply Hb2; change nmeta with 47 in Hb; lia].
    pose proof (files_din _ _ _ i f1 (put32 din 8 (flen c + flen p)) (c ++ p) HF1 Hf1 Hdin2) as HF2. rewrite list_insert_insert_eq in HF2. cbn [m_din m_n m_data f1] in HF2. rewrite Efb1 in HF2.
    apply HF2; [intros k _; by apply daddr_put_size|rewrite Elen; apply nb_bounds|done].
  - by rewrite !list_fmap_insert, Hd.
  - rewrite (used_by_insert C i t c _ Hc), Elen. lia.
  - intros j g ty d Hg Hd'. destruct (decide (j = i)) as [->|Hne].
    + rewrite list_lookup_insert_eq in Hg by lia. rewrite list_lookup_insert_eq in Hd' by lia. injection Hg as <-. injection Hd' as <- <-. cbn [m_din m_n]. rewrite Hdb2, decide_True, Elen by lia.
      split_and!; [done| |done]. apply (put_size _ _ (flen c)); [rewrite Hdin1; unfold DINODE_SIZE; lia|]. by rewrite Ht1.
    + rewrite list_lookup_insert_ne in Hg by done. rewrite list_lookup_insert_ne in Hd' by done. pose proof (lookup_lt_Some _ _ _ Hg). rewrite Hdb by lia. by apply (Hi j g ty d).
  - intros inum Hin. change inode_slots with 208 in Hin. rewrite Hdb by lia. apply Hfr. lia.
  - destruct Hst as [Hz Hs]. change nmeta with 47 in Hk1.
    split; [intros b Hb; rewrite Hb2, Hk1 by lia; by apply Hz|by rewrite Hb2, Hk1 by lia].
Qed.

(** ** main *)

Lemma nb_mono a b : a ≤ b → nb a ≤ nb b.
Proof. intros Hle. unfold nb. apply Z.div_le_mono; [done|]. lia. Qed.

Lemma flen_app a b : flen (a ++ b) = flen a + flen b.
Proof. unfold flen. rewrite length_app. lia. Qed.

Lemma flen_nonneg l : 0 ≤ flen l.
Proof. unfold flen. lia. Qed.

Lemma used_by_grow C i t c p q :
  C !! i = Some (t, c) → blocks_used (<[i := (t, c ++ p)]> C) ≤ blocks_used (<[i := (t, c ++ p ++ q)]> C).
Proof.
  intros Hi. rewrite !(used_by_insert C i t c _ Hi). rewrite !flen_app. pose proof (flen_nonneg q).
  pose proof (cost_mono _ _ (nb_mono (flen c + flen p) (flen c + (flen p + flen q)) ltac:(lia))). lia.
Qed.

Lemma append_all_ok m C i t c chunks :
  holds m C → C !! i = Some (t, c) → flen c + flen (concat chunks) ≤ MAXFILE * BSIZE →
  nmeta + blocks_used (<[i := (t, c ++ concat chunks)]> C) ≤ FSSIZE →
  ∃ m', append_all (1 + Z.of_nat i) chunks m = Ok tt m' ∧ holds m' (<[i := (t, c ++ concat chunks)]> C).
Proof.
  revert m C c. induction chunks as [|p chunks IH]; intros m C c Hm Hi Hmax Htot; cbn [concat append_all] in *.
  { exists m. split; [done|]. by rewrite app_nil_r, list_insert_id. }
  pose proof (used_by_grow C i t c p (concat chunks) Hi). rewrite flen_app in Hmax. pose proof (flen_nonneg (concat chunks)).
  destruct (iappend_ok m C i t c p Hm Hi) as (m1 & E1 & Hm1); [lia|lia|]. erewrite bind_ok by exact E1.
  pose proof (lookup_lt_Some _ _ _ Hi) as Hlt.
  destruct (IH m1 (<[i := (t, c ++ p)]> C) (c ++ p) Hm1) as (m2 & E2 & Hm2);
    [by apply list_lookup_insert_eq|rewrite flen_app; lia|by rewrite list_insert_insert_eq, <- app_assoc|].
  exists m2. split; [exact E2|]. by rewrite list_insert_insert_eq, <- app_assoc in Hm2.
Qed.

Section Build.
Context `{Host}.

Definition contents (arg : list Z) : list Z := concat (default [] (host_file arg)).

Fixpoint dirents (inum : Z) (args : list (list Z)) : list Z :=
  match args with
  | [] => []
  | arg :: args' => dirent inum (fs_name arg) ++ dirents (inum + 1) args'
  end.

(** The files of the image after [args] have been added to a root directory
    [r] and files [fs]. *)
Definition with_files (r : list Z) (fs : list file) (args : list (list Z)) : list file :=
  (T_DIR, r ++ dirents (2 + Z.of_nat (length fs)) args) :: fs ++ ((λ arg, (T_FILE, contents arg)) <$> args).

(** What [mkfs] asks of a file to add. *)
Record arg_ok (arg : list Z) : Prop := {
  ar_slash : 47 ∉ shortname arg;
  ar_open : is_Some (host_file arg);
  ar_name : flen (fs_name arg) ≤ DIRSIZ;
  ar_size : flen (contents arg) ≤ MAXFILE * BSIZE
}.

Lemma flen_dirent inum name : flen (dirent inum name) = DIRENT_SIZE.
Proof.
  unfold flen, dirent, strncpy_name. rewrite length_app, length_le_encode, length_take, length_app, length_replicate.
  unfold DIRENT_SIZE. lia.
Qed.

Lemma cost_nonneg n : 0 ≤ n → 0 ≤ cost n.
Proof. intros. unfold cost. destruct (_ <? _); lia. Qed.

Lemma nb_nonneg l : 0 ≤ nb (flen l).
Proof. pose proof (nb_bounds (flen l)). pose proof (flen_nonneg l). unfold BSIZE in *. lia. Qed.

Lemma used_by_nonneg C : 0 ≤ blocks_used C.
Proof. induction C as [|[t c] C IH]; cbn [blocks_used]; [done|]. pose proof (cost_nonneg _ (nb_nonneg c)). lia. Qed.

Lemma with_files_cons r fs arg args :
  with_files r fs (arg :: args) =
  with_files (r ++ dirent (2 + Z.of_nat (length fs)) (fs_name arg)) (fs ++ [(T_FILE, contents arg)]) args.
Proof.
  unfold with_files. cbn [dirents fmap list_fmap]. rewrite length_app. cbn [length].
  replace (2 + Z.of_nat (length fs) + 1) with (2 + Z.of_nat (length fs + 1)) by lia. by rewrite <- !app_assoc.
Qed.

Lemma used_by_with_files r fs args :
  cost (nb (flen r)) + blocks_used fs ≤ blocks_used (with_files r fs args).
Proof.
  unfold with_files. cbn [blocks_used]. rewrite used_by_app. pose proof (used_by_nonneg ((λ arg, (T_FILE, contents arg)) <$> args)).
  pose proof (flen_nonneg (dirents (2 + Z.of_nat (length fs)) args)).
  pose proof (cost_mono _ _ (nb_mono (flen r) (flen (r ++ dirents (2 + Z.of_nat (length fs)) args)) ltac:(rewrite flen_app; lia))). lia.
Qed.

Lemma add_file_ok m r fs arg args :
  arg_ok arg → holds m ((T_DIR, r) :: fs) → 3 + Z.of_nat (length fs) ≤ NINODES → flen r + DIRENT_SIZE ≤ MAXFILE * BSIZE →
  nmeta + blocks_used (with_files r fs (arg :: args)) ≤ FSSIZE →
  ∃ m', add_file ROOTINO arg m = Ok tt m' ∧
    holds m' ((T_DIR, r ++ dirent (2 + Z.of_nat (length fs)) (fs_name arg)) :: fs ++ [(T_FILE, contents arg)]).
Proof.
  intros [Hsl [chunks Ho] Hn Hsz] Hm Hroom Hr Htot. set (d := dirent _ _). assert (flen d = DIRENT_SIZE) as Hd by apply flen_dirent.
  assert (contents arg = concat chunks) as Ec by (unfold contents; by rewrite Ho). rewrite Ec in *.
  rewrite with_files_cons in Htot. pose proof (used_by_with_files (r ++ d) (fs ++ [(T_FILE, contents arg)]) args) as Htot'.
  fold d in Htot. rewrite Ec, used_by_app in Htot'. cbn [blocks_used] in Htot'. rewrite Ec in Htot.
  pose proof (cost_nonneg _ (nb_nonneg (concat chunks))).
  unfold add_file. rewrite bool_decide_false by done. change (assert_ (negb false)) with (ret tt : MK unit). rewrite bind_ret, Ho.
  change (Z.of_nat (length (fs_name arg))) with (flen (fs_name arg)). rewrite (proj2 (Z.leb_le _ _)) by done.
  change (assert_ true) with (ret tt : MK unit). rewrite bind_ret.
  destruct (ialloc_ok m _ T_FILE Hm) as (m1 & E1 & Hm1); [cbn [length]; lia|done|]. erewrite bind_ok by exact E1.
  cbn [length app] in Hm1 |- *. replace (1 + Z.of_nat (S (length fs))) with (2 + Z.of_nat (length fs)) by lia. fold d.
  destruct (iappend_ok m1 _ 0 T_DIR r d Hm1) as (m2 & E2 & Hm2); [done|lia|..].
  { change (<[0%nat:=(T_DIR, r ++ d)]> ((T_DIR, r) :: fs ++ [(T_FILE, [])])) with ((T_DIR, r ++ d) :: fs ++ [(T_FILE, @nil Z)]).
    cbn [blocks_used]. rewrite used_by_app. change (blocks_used [(T_FILE, [])]) with 0. lia. }
  change (1 + Z.of_nat 0) with ROOTINO in E2. erewrite bind_ok by exact E2.
  change (<[0%nat:=(T_DIR, r ++ d)]> ((T_DIR, r) :: fs ++ [(T_FILE, [])])) with ((T_DIR, r ++ d) :: fs ++ [(T_FILE, @nil Z)]) in Hm2.
  assert (<[S (length fs) := (T_FILE, [] ++ concat chunks)]> ((T_DIR, r ++ d) :: fs ++ [(T_FILE, [])]) = (T_DIR, r ++ d) :: fs ++ [(T_FILE, concat chunks)]) as Eins.
  { change (<[S (length fs) := (T_FILE, [] ++ concat chunks)]> ((T_DIR, r ++ d) :: fs ++ [(T_FILE, [])]))
      with ((T_DIR, r ++ d) :: <[length fs := (T_FILE, concat chunks)]> (fs ++ [(T_FILE, [])])).
    rewrite insert_app_r_alt by lia. by rewrite Nat.sub_diag. }
  destruct (append_all_ok m2 _ (S (length fs)) T_FILE [] chunks Hm2) as (m3 & E3 & Hm3).
  - change (((T_DIR, r ++ d) :: fs ++ [(T_FILE, [])]) !! S (length fs)) with ((fs ++ [(T_FILE, @nil Z)]) !! length fs).
    by rewrite lookup_app_r, Nat.sub_diag by lia.
  - done.
  - rewrite Eins. cbn [blocks_used]. rewrite used_by_app. cbn [blocks_used]. lia.
  - replace (1 + Z.of_nat (S (length fs))) with (2 + Z.of_nat (length fs)) in E3 by lia. rewrite Eins in Hm3. by exists m3.
Qed.

Lemma add_files_ok m r fs args :
  Forall arg_ok args → holds m ((T_DIR, r) :: fs) → 2 + Z.of_nat (length fs) + Z.of_nat (length args) ≤ NINODES →
  flen r + DIRENT_SIZE * Z.of_nat (length args) ≤ MAXFILE * BSIZE → nmeta + blocks_used (with_files r fs args) ≤ FSSIZE →
  ∃ m', add_files ROOTINO args m = Ok tt m' ∧ holds m' (with_files r fs args).
Proof.
  revert m r fs. induction args as [|arg args IH]; intros m r fs Hargs Hm Hroom Hr Htot.
  { exists m. split; [done|]. unfold with_files. cbn. by rewrite !app_nil_r. }
  apply Forall_cons in Hargs as [Harg Hargs]. cbn [length] in *. unfold DIRENT_SIZE in Hr.
  destruct (add_file_ok m r fs arg args Harg Hm) as (m1 & E1 & Hm1); [lia|unfold DIRENT_SIZE; lia|done|].
  cbn [add_files]. erewrite bind_ok by exact E1. rewrite with_files_cons in *.
  apply IH; [done|done|rewrite length_app; cbn [length]; lia|rewrite flen_app, flen_dirent; unfold DIRENT_SIZE; lia|done].
Qed.

(** [for(i = 0; i < FSSIZE; i++) wsect(i, zeroes)] *)
Lemma wzeroes_ok n i m :
  image m = replicate i zeroes → Z.of_nat (i + n) ≤ FSSIZE →
  wzeroes n (Z.of_nat i) m = Ok tt (m <| image := replicate (i + n) zeroes |>).
Proof.
  revert i m. induction n as [|n IH]; intros i m Hi Hn; cbn [wzeroes].
  { rewrite Nat.add_0_r, <- Hi. unfold ret. f_equal. by destruct m. }
  assert (wsect (Z.of_nat i) zeroes m = Ok tt (m <| image := replicate (S i) zeroes |>)) as E.
  { unfold wsect, modify. rewrite seek_id, Nat2Z.id, Hi, length_replicate by lia.
    replace (S i - i)%nat with 1%nat by lia. rewrite <- replicate_add. replace (i + 1)%nat with (S i) by lia. by rewrite insert_replicate. }
  erewrite bind_ok by exact E. replace (Z.of_nat i + 1) with (Z.of_nat (S i)) by lia.
  rewrite IH by (rsimpl; done || lia). f_equal. by rewrite Nat.add_succ_r.
Qed.

Definition blank : list (list Z) := replicate (Z.to_nat FSSIZE) zeroes.

Lemma blank_ok : img_ok blank.
Proof. split; [apply length_replicate|]. apply Forall_replicate, length_zeroes. Qed.

Lemma blkof_blank b : blkof blank b = zeroes.
Proof. unfold blkof, blank. destruct (replicate _ _ !! _) eqn:E; [|done]. by apply lookup_replicate in E as [-> _]. Qed.

(** The image after the superblock has been written. *)
Lemma init_ok : holds (mkMk (put_block blank 1 (splice zeroes 0 (sb_bytes mksb))) 1 nmeta) [].
Proof.
  pose proof blank_ok as Hb. set (img := put_block _ _ _).
  assert (∀ b, 0 ≤ b → b ≠ 1 → blkof img b = zeroes) as Hz.
  { intros b H0 Hne. unfold img. rewrite blkof_put by done. by rewrite decide_False, blkof_blank. }
  assert (img_ok img) as Him by (by apply img_ok_put).
  exists []. split; cbn [image freeinode freeblock]; try done.
  - split; [done|done|done|done|]. change nmeta with 47. intros b Hb'. apply Hz; lia.
  - intros inum Hi. destruct (IBLOCK_mksb inum ltac:(lia)) as [E Hr]. unfold dbytes. rewrite Hz by lia.
    unfold zeroes. rewrite drop_replicate, take_replicate. f_equal. pose proof (DI_OFF_bound inum). unfold DINODE_SIZE. lia.
  - split; [intros b Hb'; apply Hz; lia|]. unfold img. rewrite blkof_put by done. by rewrite decide_True.
Qed.

(** The root directory is padded with zeros to whole blocks. *)
Lemma pad_root_ok m r fs :
  holds m ((T_DIR, r) :: fs) → flen r mod BSIZE ≠ 0 → flen r ≤ MAXFILE * BSIZE →
  let size := (flen r / BSIZE + 1) * BSIZE in
  ∃ m', (din <- rinode ROOTINO ;;
         let off := xint (get32 din 8) in
         let off := u32 ((off / BSIZE + 1) * BSIZE) in
         winode ROOTINO (put32 din 8 (xint off))) m = Ok tt m' ∧
    holds m' ((T_DIR, r ++ replicate (Z.to_nat (size - flen r)) 0) :: fs).
Proof.
  intros [F [HF Hd Hn Hr Hu Hi Hfr Hst]] Hmod Hmax size. change inode_slots with 208 in Hfr. pose proof (flen_nonneg r) as H0.
  destruct F as [|f F]; [done|]. destruct (Hi 0%nat f T_DIR r eq_refl eq_refl) as (Edb & Ehd & Enb). injection Hd as Edata Hd.
  change (1 + Z.of_nat 0) with ROOTINO in Edb. pose proof (fi_din _ _ _ (fs_file _ _ _ HF 0%nat f eq_refl)) as Hdin.
  pose proof (Z.div_mod (flen r) BSIZE ltac:(done)) as Hdm. pose proof (Z.mod_pos_bound (flen r) BSIZE ltac:(done)) as Hmb.
  assert (flen r < size < 2 ^ 32 ∧ nb (flen r) * BSIZE = size ∧ nb size = nb (flen r)) as (Hs1 & Hs2 & Hs3).
  { pose proof (nb_bounds (flen r)). pose proof (nb_bounds size). unfold size, MAXFILE, NINDIRECT, NDIRECT, BSIZE in *. change (1024 / 4) with 256 in *. lia. }
  assert (length (put32 (m_din f) 8 size) = Z.to_nat DINODE_SIZE) as Hdin2 by (rewrite length_bput; [done|rewrite Hdin; unfold DINODE_SIZE; lia]).
  destruct (winode_ok m ROOTINO (put32 (m_din f) 8 size)) as (m2 & E2 & Him2 & Efi2 & Efb2 & Hb2 & Hdb2);
    [apply HF|done|done|]. change inode_slots with 208 in Hdb2.
  set (r' := r ++ replicate (Z.to_nat (size - flen r)) 0). assert (flen r' = size) as Hr' by (unfold r'; rewrite flen_app; unfold flen at 2; rewrite length_replicate; lia).
  exists m2. split.
  { erewrite bind_ok by (by apply rinode_ok; [apply HF|]). rewrite Edb, (header_size _ T_DIR (flen r)), (xint_id (flen r)) by (done || lia).
    fold size. unfold u32. rewrite Z.mod_small, xint_id by lia. exact E2. }
  exists (mkF (put32 (m_din f) 8 size) (m_n f) r' :: F). split; rewrite ?Efi2, ?Efb2; try done.
  - eapply files_ext; [|exact Him2|intros b Hb; apply Hb2; change nmeta with 47 in Hb; lia].
    apply (files_din _ _ _ 0%nat f (put32 (m_din f) 8 size) r' HF); [done|done|intros k _; by apply daddr_put_size|rewrite Hr', Enb; lia|].
    intros k. rewrite Edata. unfold r'. destruct (decide (k < length r)%nat); [by rewrite lookup_app_l|].
    rewrite lookup_app_r, (lookup_ge_None_2 r) by lia. destruct (replicate _ 0 !! _) eqn:E; [|done]. by apply lookup_replicate in E as [-> _].
  - change (r' :: (m_data <$> F) = r' :: fs.*2). f_equal. exact Hd.
  - cbn [blocks_used] in *. rewrite Hr', Hs3. done.
  - intros j g ty d Hg Hd'. destruct j as [|j].
    + cbn in Hg, Hd'. injection Hg as <-. injection Hd' as <- <-. cbn [m_din m_n]. change (1 + Z.of_nat 0) with ROOTINO. rewrite Hdb2, decide_True, Hr' by done.
      split_and!; [done| |by rewrite Enb, Hs3]. apply (put_size _ _ (flen r)); [rewrite Hdin; unfold DINODE_SIZE; lia|done].
    + pose proof (lookup_lt_Some _ _ _ Hd') as Hlt. cbn [length] in *. change NINODES with 200 in Hr. rewrite Hdb2 by lia. rewrite decide_False by (unfold ROOTINO; lia).
      by apply (Hi (S j) g ty d).
  - intros inum Hin. change inode_slots with 208 in Hin. cbn [length] in Hn. rewrite Hdb2 by lia. rewrite decide_False by (unfold ROOTINO; lia). apply Hfr. lia.
  - destruct Hst as [Hz Hs]. split; [intros b Hb; rewrite Hb2 by lia; by apply Hz|by rewrite Hb2 by lia].
Qed.

(** ** The free map *)

Lemma length_set_bits l d : length (fold_left set_bit l d) = length d.
Proof. revert d. induction l as [|b l IH]; intros d; [done|]. cbn [fold_left]. rewrite IH. unfold set_bit. apply length_alter. Qed.

Lemma bit_used_range a n d b :
  (a + n ≤ 8 * length d)%nat → bit_used (fold_left set_bit (seq a n) d) b = bool_decide (a ≤ b < a + n)%nat || bit_used d b.
Proof.
  revert a d. induction n as [|n IH]; intros a d Hl; cbn [seq fold_left].
  { by rewrite bool_decide_false by lia. }
  assert (a / 8 < length d)%nat as Ha by (apply Nat.Div0.div_lt_upper_bound; lia).
  rewrite IH by (unfold set_bit; rewrite length_alter; lia). rewrite bit_used_set by done.
  destruct (decide (b = a)) as [->|Hne].
  - rewrite orb_true_r. by rewrite bool_decide_true by lia.
  - f_equal. apply bool_decide_ext. lia.
Qed.

Lemma bit_used_zeroes b : bit_used zeroes b = false.
Proof.
  unfold bit_used, zeroes. destruct (replicate _ 0 !! _) as [x|] eqn:E; [apply lookup_replicate in E as [-> _]|]; cbn [default]; by rewrite Z.land_0_l.
Qed.

Definition bitmap (used : Z) : list Z := fold_left set_bit (seq 0 (Z.to_nat used)) zeroes.

Lemma bitmap_bit used b : 0 ≤ used ≤ BPB → bit_used (bitmap used) b = (Z.of_nat b <? used).
Proof.
  intros Hu. unfold bitmap. rewrite bit_used_range, bit_used_zeroes, orb_false_r by (rewrite length_zeroes; unfold BPB, BSIZE in *; lia).
  apply eq_bool_prop_intro. rewrite bool_decide_spec, Is_true_true, Z.ltb_lt. lia.
Qed.

(** The finished image: the files [C], and the free map. *)
Definition built (img : list (list Z)) (C : list file) : Prop :=
  ∃ m, holds m C ∧ img = put_block (image m) 46 (bitmap (freeblock m)).

Definition root_entries : list Z := dirent ROOTINO [DOT] ++ dirent ROOTINO [DOT; DOT].

(** The root directory with its padding, and the files. *)
Definition root_dir (args : list (list Z)) : list Z := root_entries ++ dirents 2 args.
Definition pad (r : list Z) : list Z := r ++ replicate (Z.to_nat ((flen r / BSIZE + 1) * BSIZE - flen r)) 0.
Definition image_files (args : list (list Z)) : list file :=
  (T_DIR, pad (root_dir args)) :: ((λ arg, (T_FILE, contents arg)) <$> args).

Lemma flen_dirents k args : flen (dirents k args) = DIRENT_SIZE * Z.of_nat (length args).
Proof.
  revert k. induction args as [|a args IH]; intros k; [done|]. cbn [dirents length]. rewrite flen_app, flen_dirent, IH. unfold DIRENT_SIZE. lia.
Qed.

Lemma flen_root args : flen (root_dir args) = DIRENT_SIZE * (2 + Z.of_nat (length args)).
Proof. unfold root_dir. rewrite flen_app, flen_dirents. change (flen root_entries) with 32. unfold DIRENT_SIZE. lia. Qed.

Lemma root_mod args : (2 + Z.of_nat (length args)) mod 64 ≠ 0 → flen (root_dir args) mod BSIZE ≠ 0.
Proof.
  rewrite flen_root. unfold DIRENT_SIZE, BSIZE. set (k := 2 + Z.of_nat (length args)).
  pose proof (Z.div_mod k 64 ltac:(done)). pose proof (Z.mod_pos_bound k 64 ltac:(done)).
  pose proof (Z.div_mod (16 * k) 1024 ltac:(done)). pose proof (Z.mod_pos_bound (16 * k) 1024 ltac:(done)). lia.
Qed.

Lemma nb_pad r : flen r mod BSIZE ≠ 0 → nb (flen (pad r)) = nb (flen r).
Proof.
  intros Hmod. unfold pad. rewrite flen_app. set (size := (flen r / BSIZE + 1) * BSIZE).
  unfold flen at 2. rewrite length_replicate. pose proof (nb_bounds (flen r)). pose proof (nb_bounds size).
  pose proof (Z.div_mod (flen r) BSIZE ltac:(done)). pose proof (Z.mod_pos_bound (flen r) BSIZE ltac:(done)).
  replace (flen r + Z.of_nat (Z.to_nat (size - flen r))) with size by (unfold size, BSIZE in *; lia).
  unfold size, BSIZE in *. lia.
Qed.

Lemma main_ok args :
  Forall arg_ok args → 2 + Z.of_nat (length args) ≤ NINODES → (2 + Z.of_nat (length args)) mod 64 ≠ 0 →
  nmeta + blocks_used (with_files root_entries [] args) ≤ FSSIZE →
  ∃ m, main args mk0 = Ok tt m ∧ built (image m) (image_files args).
Proof.
  intros Hargs Hroom Hmod Htot. change NINODES with 200 in Hroom. unfold main. rewrite bind_modify. change (mk0 <| freeblock := nmeta |>) with (mkMk [] 1 nmeta).
  erewrite bind_ok by (by apply (wzeroes_ok (Z.to_nat FSSIZE) 0)).
  change (_ <| image := replicate (0 + Z.to_nat FSSIZE) zeroes |>) with (mkMk blank 1 nmeta).
  erewrite bind_ok by (apply wsect_ok; [apply blank_ok|done]).
  change (_ <| image := _ |>) with (mkMk (put_block blank 1 (splice zeroes 0 (sb_bytes mksb))) 1 nmeta).
  destruct (ialloc_ok _ [] T_DIR init_ok) as (m1 & E1 & Hm1); [done|done|]. erewrite bind_ok by exact E1.
  change (1 + Z.of_nat (length (@nil file))) with ROOTINO. rewrite Z.eqb_refl. change (assert_ true) with (ret tt : MK unit). rewrite bind_ret.
  pose proof (used_by_with_files root_entries [] args) as Htot'. cbn [blocks_used] in Htot'. rewrite Z.add_0_r in Htot'.
  destruct (iappend_ok m1 _ 0 T_DIR [] (dirent ROOTINO [DOT]) Hm1) as (m2 & E2 & Hm2); [done|done|done|].
  change (1 + Z.of_nat 0) with ROOTINO in E2. erewrite bind_ok by exact E2.
  destruct (iappend_ok m2 _ 0 T_DIR (dirent ROOTINO [DOT]) (dirent ROOTINO [DOT; DOT]) Hm2) as (m3 & E3 & Hm3); [done|done|done|].
  change (1 + Z.of_nat 0) with ROOTINO in E3. erewrite bind_ok by exact E3.
  destruct (add_files_ok m3 root_entries [] args Hargs Hm3) as (m4 & E4 & Hm4); [cbn [length]; change NINODES with 200; lia| |done|].
  { change (flen root_entries) with 32. unfold DIRENT_SIZE, MAXFILE, NINDIRECT, NDIRECT, BSIZE. change (1024 / 4) with 256. lia. }
  erewrite bind_ok by exact E4. unfold with_files in Hm4. cbn [length app] in Hm4. change (2 + Z.of_nat 0) with 2 in Hm4. fold (root_dir args) in Hm4.
  pose proof (flen_root args) as Hfl. unfold DIRENT_SIZE in Hfl.
  destruct (pad_root_ok m4 (root_dir args) _ Hm4) as (m5 & E5 & Hm5).
  { by apply root_mod. }
  { rewrite Hfl. unfold MAXFILE, NINDIRECT, NDIRECT, BSIZE. change (1024 / 4) with 256. lia. }
  destruct (bind_inv_ok _ _ _ _ _ E5) as (din & m4' & E5a & E5b). erewrite bind_ok by exact E5a. cbv zeta. erewrite bind_ok by exact E5b.
  rewrite bind_gets. destruct Hm5 as [F5 Hm5]. pose proof (fs_fb _ _ _ (hw_files _ _ _ Hm5)) as Hfb. change nmeta with 47 in Hfb. change FSSIZE with 2000 in Hfb.
  unfold balloc. rewrite s32_small by lia. rewrite (proj2 (Z.ltb_lt _ _)) by (unfold BPB, BSIZE; lia).
  change (assert_ true) with (ret tt : MK unit). rewrite bind_ret.
  erewrite wsect_ok by (apply Hm5 || done). eexists. split; [done|]. exists m5. split; [by exists F5|]. by rsimpl.
Qed.

End Build.
