(* ===== verification/MkfsBoot.v ===== *)
(** * The image as the kernel reads it

    A kernel whose disk is the image [mkfs] wrote, and which has read the
    superblock, sees in the files exactly what was given to [mkfs], through the
    functions of [kernel/fs.c]: [dinode] is what [ilock] loads, [slice] what
    [readi] delivers, [used] what [balloc] tests. *)

From Stdlib Require Import ZArith Lia.
From S2P Require Import Prelude Params CString State Process Vm Bytes Sleeplock Bio BioRep Cache Log LogRep Crash Txn Fs FsRep FsAlloc FsInode FsFile Dir FsDir Mkfs MkfsRep MkfsImage.
From stdpp Require Import base gmap strings numbers list.

Open Scope Z_scope.

(** The blocks of the disk are those of the image, and [readsb] has run. *)
Record boots (img : list (list Z)) (s : kst) : Prop := {
  bt_disk : ∀ n, 0 ≤ n < FSSIZE → blk s n = blkof img n;
  bt_sb : sb s = sb_of (blk s 1)
}.

(** The file system with the files [C], inode numbers from 1 on. *)
Record fs_view (s : kst) (C : list file) : Prop := {
  fv_sb : sb s = mkSb FSMAGIC 2000 1953 200 31 2 33 46;
  fv_log : blk s 2 = zeroes;
  fv_file : ∀ i t c y, C !! i = Some (t, c) → i_dev y = ROOTDEV →
    let x := dinode s (1 + Z.of_nat i) y in
    i_type x = t ∧ i_nlink x = 1 ∧ i_size x = flen c ∧ file_ok s x ∧ slice s x 0 (flen c) = c;
  fv_ifree : ∀ inum y, 1 + Z.of_nat (length C) ≤ inum < sb_ninodes (sb s) → i_type (dinode s inum y) = 0;
  fv_used : ∀ b, 0 ≤ b < FSSIZE → used s b = (b <? nmeta + blocks_used C);
  fv_apart : ∀ i j t u c d y z bn bm, C !! i = Some (t, c) → C !! j = Some (u, d) →
    0 ≤ bn → bn * BSIZE < flen c → 0 ≤ bm → bm * BSIZE < flen d →
    nmeta ≤ addr_of s (dinode s (1 + Z.of_nat i) y) bn < nmeta + blocks_used C ∧
    (addr_of s (dinode s (1 + Z.of_nat i) y) bn = addr_of s (dinode s (1 + Z.of_nat j) z) bm → i = j ∧ bn = bm)
}.

(** ** Inodes *)

Lemma bget_slice n d off o : (o + n ≤ 64)%nat → bget_n n (take 64 (drop off d)) o = bget_n n d (off + o).
Proof.
  intros Ho. unfold bget_n. f_equal. apply list_eq. intros k. destruct (decide (k < n)%nat) as [Hk|Hk]; [|by rewrite !lookup_take_ge by lia].
  rewrite !lookup_take_lt, !lookup_drop by done. rewrite lookup_take_lt, lookup_drop by lia. f_equal. lia.
Qed.

Lemma load_dinode_slice d off y : load_dinode (take 64 (drop off d)) 0 y = load_dinode d off y.
Proof.
  unfold load_dinode, di_type, di_nlink. rewrite !bget_slice by lia. rewrite Nat.add_0_r.
  assert (di_addrs (take 64 (drop off d)) 0 = di_addrs d off) as ->; [|done].
  apply list_fmap_ext. intros j k [-> Hk]%lookup_seq. rewrite bget_slice by lia. f_equal. lia.
Qed.

Lemma header_field din t size n o : take 12 din = header t size → (o + n ≤ 12)%nat → bget_n n din o = bget_n n (header t size) o.
Proof. intros <- Ho. apply bget_ext. intros k Hk. by rewrite lookup_take_lt by lia. Qed.

(** An inode with a header, as [ilock] loads it. *)
Lemma load_header din t size y :
  take 12 din = header t size → 0 ≤ t < 2 ^ 15 → 0 ≤ size < 2 ^ 32 →
  let x := load_dinode din 0 y in i_type x = t ∧ i_nlink x = 1 ∧ i_size x = size ∧ i_addrs x = di_addrs din 0 ∧ i_dev x = i_dev y.
Proof.
  intros Hh Ht Hs. unfold load_dinode, di_type, di_nlink. rsimpl. rewrite !(header_field din t size) by (done || lia). split_and!; try done.
  - unfold bget_n, header. cbn [le_encode app drop take]. change [u8 t; _] with (le_encode 2 t). rewrite le_decode_encode.
    apply s16_mod. lia.
  - rewrite <- (header_field din t size) by (done || lia). by apply (header_size din t).
Qed.

Lemma di_addrs_lookup din k : 0 ≤ k ≤ NDIRECT → di_addrs din 0 !! Z.to_nat k = Some (daddr din k).
Proof.
  unfold NDIRECT. intros Hk. unfold di_addrs. rewrite list_lookup_fmap, lookup_seq_lt by lia. done.
Qed.

Lemma sb_of_mksb : sb_of (splice zeroes 0 (sb_bytes mksb)) = mkSb FSMAGIC 2000 1953 200 31 2 33 46.
Proof. vm_compute. reflexivity. Qed.
Lemma mksb_eq : mksb = mkSb FSMAGIC 2000 1953 200 31 2 33 46.
Proof. vm_compute. reflexivity. Qed.

(** ** The files *)
Section View.
Context (img : list (list Z)) (s : kst) (m : mkst) (C : list file) (F : list mfile).
Context (Hm : holds_with m C F) (Himg : img = put_block (image m) 46 (bitmap (freeblock m))) (Hs : boots img s).
Context (Htypes : ∀ i t c, C !! i = Some (t, c) → 0 ≤ t < 2 ^ 15).

Lemma view_blk b : 0 ≤ b < FSSIZE → b ≠ 46 → blk s b = blkof (image m) b.
Proof using Hm Himg Hs.
  intros Hb Hne. rewrite (bt_disk _ _ Hs), Himg by done. rewrite blkof_put by (try apply Hm; done || lia). by rewrite decide_False.
Qed.

Lemma view_sb : sb s = mksb.
Proof using Hm Himg Hs.
  rewrite (bt_sb _ _ Hs), view_blk, (sta_sb _ (hw_static _ _ _ Hm)) by done. by rewrite sb_of_mksb, mksb_eq.
Qed.

Lemma view_dinode inum y : 0 ≤ inum < 208 → dinode s inum y = load_dinode (dbytes (image m) inum) 0 y.
Proof using Hm Himg Hs.
  intros Hi. destruct (IBLOCK_mksb inum Hi) as [E Hr]. unfold dinode. rewrite view_sb.
  rewrite view_blk by (rewrite E; change FSSIZE with 2000; lia). unfold dbytes. change (Z.to_nat DINODE_SIZE) with 64%nat. by rewrite load_dinode_slice.
Qed.

(** What the kernel knows of file [i]. *)
Lemma view_file i t c y :
  C !! i = Some (t, c) →
  ∃ f, F !! i = Some f ∧ m_data f = c ∧ m_n f = nb (flen c) ∧
    let x := dinode s (1 + Z.of_nat i) y in
    i_type x = t ∧ i_nlink x = 1 ∧ i_size x = flen c ∧ i_addrs x = di_addrs (m_din f) 0 ∧ i_dev x = i_dev y.
Proof using Hm Himg Hs Htypes.
  intros Hc. pose proof (hw_data _ _ _ Hm) as Hd. pose proof (lookup_lt_Some _ _ _ Hc) as Hlt. pose proof (hw_room _ _ _ Hm) as Hroom. change NINODES with 200 in Hroom.
  assert (length F = length C) as HlF by (rewrite <- (length_fmap m_data F), Hd, length_fmap; done).
  destruct (lookup_lt_is_Some_2 F i ltac:(lia)) as [f Hf].
  assert (m_data f = c) as Edata.
  { assert ((m_data <$> F) !! i = C.*2 !! i) as E by (by rewrite Hd). rewrite !list_lookup_fmap, Hf, Hc in E. by injection E. }
  destruct (hw_inode _ _ _ Hm i f t c Hf Hc) as (Edb & Eh & En). exists f. split_and!; [done|done|done|].
  cbv zeta. rewrite view_dinode, Edb by lia. apply load_header; [done|by apply (Htypes i t c)|].
  pose proof (fs_file _ _ _ (hw_files _ _ _ Hm) i f Hf) as [_ Hn Hl _ _ _ _]. rewrite Edata in Hl. unfold flen.
  unfold MAXFILE, NINDIRECT, NDIRECT, BSIZE in *. change (1024 / 4) with 256 in *. lia.
Qed.

Lemma view_addr i f x bn :
  F !! i = Some f → i_addrs x = di_addrs (m_din f) 0 → 0 ≤ bn < m_n f →
  addr_of s x bn = iaddr (image m) (m_din f) bn ∧ 47 ≤ addr_of s x bn < FSSIZE ∧ blk s (addr_of s x bn) = blkof (image m) (addr_of s x bn).
Proof using Hm Himg Hs.
  intros Hf Ha Hbn. pose proof (hw_files _ _ _ Hm) as HF. pose proof (fs_file _ _ _ HF i f Hf) as [_ Hn _ Hsl _ _ _].
  pose proof (fs_fb _ _ _ HF) as Hfb. assert (∀ u, valid (m_n f) u → 47 ≤ slot (image m) (m_din f) u < FSSIZE) as Hr.
  { intros u Hu. specialize (Hsl u Hu). change nmeta with 47 in Hsl. lia. }
  assert (addr_of s x bn = iaddr (image m) (m_din f) bn) as E.
  { unfold addr_of, iaddr, ind_of. rewrite Ha. destruct (Z.ltb_spec bn NDIRECT); [by rewrite di_addrs_lookup by lia|].
    rewrite di_addrs_lookup by done. cbn [default]. specialize (Hr (-1) ltac:(right; lia)). change (slot _ _ (-1)) with (daddr (m_din f) NDIRECT) in Hr.
    unfold id. rewrite view_blk by lia. done. }
  split; [done|]. specialize (Hr bn ltac:(by left)). unfold slot in Hr. rewrite (proj2 (Z.eqb_neq _ _)) in Hr by lia. rewrite E.
  split; [done|]. apply view_blk; lia.
Qed.

Lemma nb_block c bn : bn * BSIZE < flen c ↔ bn < nb (flen c).
Proof. pose proof (nb_bounds (flen c)). unfold BSIZE in *. lia. Qed.

Lemma view_contents i t c y :
  C !! i = Some (t, c) → i_dev y = ROOTDEV → let x := dinode s (1 + Z.of_nat i) y in file_ok s x ∧ slice s x 0 (flen c) = c.
Proof using Hm Himg Hs Htypes.
  intros Hc Hy x. destruct (view_file i t c y Hc) as (f & Hf & Edata & En & _ & _ & Hsz & Ha & Hdev). fold x in Hsz, Ha, Hdev.
  pose proof (hw_files _ _ _ Hm) as HF. pose proof (fs_file _ _ _ HF i f Hf) as [_ Hn Hl Hsl _ _ Hb]. rewrite Edata in Hl, Hb. fold (flen c) in Hl.
  assert (∀ bn, 0 ≤ bn → bn * BSIZE < flen c → 0 ≤ bn < m_n f) as Hin by (intros bn H0 H1; rewrite En; split; [done|by apply nb_block]).
  split; [split|].
  - by rewrite Hdev.
  - rewrite Hsz. split; [apply flen_nonneg|]. unfold MAXFILE, NINDIRECT, NDIRECT, BSIZE in *. change (1024 / 4) with 256 in *. lia.
  - by rewrite Ha.
  - rewrite Hsz. intros Hbig%nb_block. rewrite <- En in Hbig. unfold ind_of. rewrite Ha, di_addrs_lookup by done. cbn [default]. unfold id.
    specialize (Hsl (-1) ltac:(by right)). change (slot _ _ (-1)) with (daddr (m_din f) NDIRECT) in Hsl. change nmeta with 47 in Hsl. lia.
  - rewrite Hsz. intros bn H0 H1. destruct (view_addr i f x bn Hf Ha (Hin bn H0 H1)) as (_ & Hr & _). lia.
  - rewrite Hsz. intros bn H0 H1. destruct (view_addr i f x bn Hf Ha (Hin bn H0 H1)) as (_ & _ & ->). rewrite blkof_len by apply HF. done.
  - apply list_eq. intros k. unfold slice. rewrite list_lookup_fmap. destruct (decide (k < length c)%nat) as [Hk|Hk]; cycle 1.
    { rewrite lookup_seqZ_ge, (lookup_ge_None_2 c) by (unfold flen in *; lia). done. }
    rewrite lookup_seqZ_lt by (unfold flen; lia). cbn [fmap option_fmap option_map]. rewrite Z.add_0_l. unfold fbyte.
    assert (0 ≤ Z.of_nat k / BSIZE < m_n f) as Hbn.
    { apply Hin; [apply Z.div_pos; [lia|done]|]. pose proof (Z.mul_div_le (Z.of_nat k) BSIZE ltac:(done)). unfold flen. lia. }
    destruct (view_addr i f x _ Hf Ha Hbn) as (E & _ & ->). rewrite E, Hb by (unfold flen in *; lia). rewrite Nat2Z.id.
    by destruct (lookup_lt_is_Some_2 c k Hk) as [b ->].
Qed.

Lemma view_used b : 0 ≤ b < FSSIZE → used s b = (b <? nmeta + blocks_used C).
Proof using Hm Himg Hs.
  intros Hb. change FSSIZE with 2000 in Hb. unfold used. rewrite view_sb. unfold BBLOCK, BPB, BSIZE. change (sb_bmapstart mksb) with 46.
  rewrite Z.div_small, Z.mod_small by lia. rewrite (bt_disk _ _ Hs) by done. rewrite Himg, blkof_put by (try apply Hm; done). rewrite decide_True by done.
  pose proof (fs_fb _ _ _ (hw_files _ _ _ Hm)) as Hfb. change nmeta with 47 in Hfb. change FSSIZE with 2000 in Hfb.
  rewrite bitmap_bit by (unfold BPB, BSIZE; lia). rewrite (hw_used _ _ _ Hm), Z2Nat.id by lia. done.
Qed.

Lemma view_ok : fs_view s C.
Proof using Hm Himg Hs Htypes.
  split.
  - by rewrite view_sb, mksb_eq.
  - rewrite view_blk by done. apply (sta_zero _ (hw_static _ _ _ Hm)). lia.
  - intros i t c y Hc Hy. destruct (view_file i t c y Hc) as (f & _ & _ & _ & ? & ? & ? & _). destruct (view_contents i t c y Hc Hy). by split_and!.
  - intros inum y Hi. rewrite view_sb in Hi. change (sb_ninodes mksb) with 200 in Hi. rewrite view_dinode by lia.
    rewrite (hw_free _ _ _ Hm) by (rewrite (hw_next _ _ _ Hm); change inode_slots with 208; lia). unfold load_dinode. by rsimpl.
  - apply view_used.
  - intros i j t u c d y z bn bm Hc Hd H1 H2 H3 H4.
    destruct (view_file i t c y Hc) as (f & Hf & _ & En & _ & _ & _ & Ha & _). destruct (view_file j u d z Hd) as (g & Hg & _ & En' & _ & _ & _ & Ha' & _).
    assert (0 ≤ bn < m_n f) as Hbn by (rewrite En; split; [done|by apply nb_block]). assert (0 ≤ bm < m_n g) as Hbm by (rewrite En'; split; [done|by apply nb_block]).
    destruct (view_addr i f _ bn Hf Ha Hbn) as (-> & _ & _). destruct (view_addr j g _ bm Hg Ha' Hbm) as (-> & _ & _).
    assert (∀ d u, 0 ≤ u → iaddr (image m) d u = slot (image m) d u) as Hsl by (intros; unfold slot; by rewrite (proj2 (Z.eqb_neq _ _)) by lia).
    rewrite !Hsl by lia. rewrite <- (hw_used _ _ _ Hm). split.
    + apply (fi_slot _ _ _ (fs_file _ _ _ (hw_files _ _ _ Hm) i f Hf)). by left.
    + intros E. by apply (fs_inj _ _ _ (hw_files _ _ _ Hm) i j f g bn bm Hf Hg); [left|left|].
Qed.

End View.

(** ** The root directory *)

Section Root.
Context `{Host}.

(** The entries of the root directory: inode number and name. *)
Definition entries (args : list (list Z)) : list (Z * list Z) :=
  (ROOTINO, [DOT]) :: (ROOTINO, [DOT; DOT]) :: imap (λ k arg, (2 + Z.of_nat k, fs_name arg)) args.

Lemma dirents_imap k args :
  dirents k args = concat ((λ e : Z * list Z, dirent e.1 e.2) <$> imap (λ j arg, (k + Z.of_nat j, fs_name arg)) args).
Proof.
  revert k. induction args as [|a args IH]; intros k; [done|]. cbn [dirents]. rewrite imap_cons, fmap_cons. cbn [concat fst snd].
  rewrite Z.add_0_r, IH. do 3 f_equal. apply imap_ext. intros j x _. cbn. f_equal. lia.
Qed.

Lemma root_dir_entries args : root_dir args = concat ((λ e : Z * list Z, dirent e.1 e.2) <$> entries args).
Proof. unfold root_dir, root_entries, entries. rewrite !fmap_cons. cbn [concat fst snd]. by rewrite dirents_imap, <- app_assoc. Qed.

(** Element [j] of a concatenation of lists of [n] elements. *)
Lemma concat_chunk {A} (ls : list (list A)) n j l rest :
  Forall (λ l, length l = n) ls → ls !! j = Some l → take n (drop (n * j) (concat ls ++ rest)) = l.
Proof.
  intros Hall. revert j. induction Hall as [|l0 ls Hl Hall IH]; intros j Hj; [done|]. cbn [concat]. rewrite <- app_assoc.
  destruct j as [|j]; cbn in Hj.
  - injection Hj as <-. rewrite Nat.mul_0_r, drop_0. by apply take_app_length'.
  - rewrite Nat.mul_succ_r, Nat.add_comm, <- drop_drop, drop_app_length' by done. by apply IH.
Qed.

Lemma slice_sub s x c off len :
  slice s x 0 (flen c) = c → 0 ≤ off → 0 ≤ len → off + len ≤ flen c → slice s x off len = take (Z.to_nat len) (drop (Z.to_nat off) c).
Proof.
  intros Hc Ho Hl Hle. rewrite <- Hc at 1. replace (flen c) with (off + (len + (flen c - off - len))) by lia.
  rewrite (slice_app s x 0 off), (slice_app s x _ len) by lia. rewrite drop_app_length' by (by rewrite length_slice).
  rewrite take_app_length' by (by rewrite length_slice). by rewrite Z.add_0_l.
Qed.

(** A directory that holds the root directory of [args]. *)
Record is_root (s : kst) (x : inode) (args : list (list Z)) : Prop := {
  ro_size : i_size x = flen (pad (root_dir args));
  ro_data : slice s x 0 (i_size x) = pad (root_dir args)
}.

Lemma root_size args : flen (pad (root_dir args)) = (flen (root_dir args) / BSIZE + 1) * BSIZE ∧ flen (root_dir args) < flen (pad (root_dir args)).
Proof.
  unfold pad. rewrite flen_app. set (r := root_dir args). pose proof (Z.div_mod (flen r) BSIZE ltac:(done)). pose proof (Z.mod_pos_bound (flen r) BSIZE ltac:(done)).
  assert (∀ n, flen (replicate n 0) = Z.of_nat n) as -> by (intros n; unfold flen; by rewrite length_replicate). unfold BSIZE in *. lia.
Qed.

Lemma length_entries args : length (entries args) = (2 + length args)%nat.
Proof. unfold entries. cbn [length]. by rewrite length_imap. Qed.

(** Entry [j] of the root directory is that of its file; the others are free. *)
Lemma root_entry s x args j inum name :
  is_root s x args → entries args !! j = Some (inum, name) → dent s x (16 * Z.of_nat j) = dirent inum name.
Proof.
  intros [Hsz Hd] Hj. rewrite Hsz in Hd. destruct (root_size args) as [_ Hlt]. pose proof (flen_root args) as Hfl. unfold DIRENT_SIZE in Hfl.
  pose proof (lookup_lt_Some _ _ _ Hj) as Hl. rewrite length_entries in Hl.
  unfold dent. rewrite (slice_sub s x _ _ _ Hd) by (unfold DIRENT_SIZE; lia). unfold pad. rewrite root_dir_entries.
  replace (Z.to_nat (16 * Z.of_nat j)) with (16 * j)%nat by lia. change (Z.to_nat DIRENT_SIZE) with 16%nat.
  apply concat_chunk; [|by rewrite list_lookup_fmap, Hj]. apply Forall_fmap, Forall_forall. intros [i n] _. cbn [compose fst snd].
  pose proof (flen_dirent i n) as Hf. unfold flen, DIRENT_SIZE in Hf. lia.
Qed.

Lemma root_free s x args o :
  is_root s x args → 16 * (2 + Z.of_nat (length args)) ≤ o → o + DIRENT_SIZE ≤ i_size x → de_inum (dent s x o) = 0.
Proof.
  intros [Hsz Hd] Ho Hle. rewrite Hsz in Hd, Hle. pose proof (flen_root args) as Hfl. unfold DIRENT_SIZE in *.
  unfold dent, DIRENT_SIZE. rewrite (slice_sub s x _ _ _ Hd) by lia. unfold pad. rewrite drop_app_ge by (unfold flen in *; lia).
  rewrite drop_replicate, take_replicate. unfold de_inum, bget_n. rewrite drop_0, take_replicate.
  generalize (2 `min` (Z.to_nat 16 `min` (Z.to_nat ((flen (root_dir args) / BSIZE + 1) * BSIZE - flen (root_dir args)) - (Z.to_nat o - length (root_dir args)))))%nat.
  intros n. by induction n as [|n IH]; [|cbn; rewrite IH].
Qed.

(** ** Names *)

Record name_fits (name : list Z) : Prop := {
  nf_chars : Forall (λ c, 0 < c < 256) name;
  nf_len : flen name ≤ DIRSIZ
}.
(** The files of the image have different names, none of them a dot name. *)
Record names_ok (args : list (list Z)) : Prop := {
  nk_fits : Forall (λ arg, name_fits (fs_name arg)) args;
  nk_uniq : NoDup ((entries args).*2)
}.

Lemma strncpy_name_eq name : name_fits name → strncpy_name name = name ++ replicate (14 - length name) 0.
Proof.
  intros [_ Hl]. unfold flen, DIRSIZ in Hl. unfold strncpy_name. rewrite take_app_ge by lia. f_equal. rewrite take_replicate. f_equal. lia.
Qed.

Lemma cstr_name name : name_fits name → take 14 (cstr (strncpy_name name)) = name.
Proof.
  intros Hn. rewrite strncpy_name_eq by done. destruct Hn as [Hc Hl]. unfold flen, DIRSIZ in Hl.
  rewrite cstr_idemp_app by (eapply Forall_impl; [exact Hc|]; intros c ?; cbn in *; lia).
  replace (cstr (replicate _ 0)) with (@nil Z) by (by destruct (14 - length name)%nat). rewrite app_nil_r. apply take_ge. lia.
Qed.

Lemma strncpy_name_ok name : name_fits name → name_ok (strncpy_name name).
Proof.
  intros Hn. rewrite strncpy_name_eq by done. destruct Hn as [Hc Hl]. unfold flen, DIRSIZ in Hl. split.
  - apply Forall_app. split; [eapply Forall_impl; [exact Hc|]; intros c ?; cbn in *; lia|]. by apply Forall_replicate.
  - left. rewrite length_app, length_replicate. unfold DIRSIZ. lia.
Qed.

Lemma de_inum_dirent inum name : 0 ≤ inum < 2 ^ 16 → de_inum (dirent inum name) = inum.
Proof.
  intros Hi. unfold de_inum, dirent, bget_n. rewrite drop_0, take_app_length' by done. rewrite xshort_id, le_decode_encode by done. by apply Z.mod_small.
Qed.

Lemma entries_fit args j inum name :
  names_ok args → Z.of_nat (length args) < 2 ^ 15 → entries args !! j = Some (inum, name) → name_fits name ∧ 1 ≤ inum < 2 ^ 16.
Proof.
  intros [Hf _] Hl Hj. unfold entries in Hj. destruct j as [|[|j]].
  - injection Hj as <- <-. split; [split; [repeat constructor|done]|done].
  - injection Hj as <- <-. split; [split; [repeat constructor|done]|done].
  - change (imap (λ k arg, (2 + Z.of_nat k, fs_name arg)) args !! j = Some (inum, name)) in Hj. rewrite list_lookup_imap in Hj. destruct (args !! j) as [a|] eqn:Ea; [|done]. cbn in Hj. injection Hj as <- <-.
    pose proof (lookup_lt_Some _ _ _ Ea). split; [|lia]. exact (proj1 (Forall_lookup _ _) Hf j a Ea).
Qed.

(** A name is found where its entry is and nowhere else. *)
Lemma root_hit s x args j inum name o :
  names_ok args → Z.of_nat (length args) < 2 ^ 15 → is_root s x args → entries args !! j = Some (inum, name) →
  0 ≤ o → o mod DIRENT_SIZE = 0 → o + DIRENT_SIZE ≤ i_size x → hit s x (strncpy_name name) o ↔ o = 16 * Z.of_nat j.
Proof.
  intros Hn Hl Hr Hj Ho Hm Hle. destruct (entries_fit args j inum name Hn Hl Hj) as [Hfit Hin]. unfold hit, same_name. split.
  - intros [Hnz Hs]. destruct (decide (16 * (2 + Z.of_nat (length args)) ≤ o)) as [?|Hlt]; [by rewrite (root_free s x args o) in Hnz|].
    assert (o = 16 * Z.of_nat (Z.to_nat (o / 16))) as Eo by (unfold DIRENT_SIZE in Hm; pose proof (Z.div_mod o 16 ltac:(done)); lia).
    destruct (lookup_lt_is_Some_2 (entries args) (Z.to_nat (o / 16))) as [[i' n'] Hj']; [rewrite length_entries; lia|].
    rewrite Eo in Hs |- *. rewrite (root_entry s x args _ i' n' Hr Hj') in Hs. change (de_name (dirent i' n')) with (strncpy_name n') in Hs.
    destruct (entries_fit args _ i' n' Hn Hl Hj') as [Hfit' _]. rewrite !cstr_name in Hs by done. subst n'.
    f_equal. f_equal. eapply NoDup_lookup; [apply (nk_uniq _ Hn)|by rewrite list_lookup_fmap, Hj'|by rewrite list_lookup_fmap, Hj].
  - intros ->. rewrite (root_entry s x args j inum name Hr Hj). rewrite de_inum_dirent by lia. split; [lia|done].
Qed.

Lemma root_bytes args : names_ok args → Z.of_nat (length args) < 2 ^ 15 → Forall (λ c, 0 ≤ c < 256) (pad (root_dir args)).
Proof.
  intros Hn Hl. unfold pad. apply Forall_app. split; [|by apply Forall_replicate]. rewrite root_dir_entries. apply Forall_concat, Forall_fmap, Forall_lookup.
  intros j [inum name] Hj. destruct (entries_fit args j inum name Hn Hl Hj) as [Hfit _]. cbn [compose fst snd]. apply Forall_app. split.
  - cbn [le_encode]. repeat constructor; apply u8_range.
  - apply (strncpy_name_ok name Hfit).
Qed.

Lemma root_dir_ok s x args :
  names_ok args → Z.of_nat (length args) < 2 ^ 15 → is_root s x args → file_ok s x → i_type x = T_DIR → dir_ok s x.
Proof.
  intros Hn Hl [Hsz Hd] Hf Ht. split; [done|done| |].
  - rewrite Hsz. destruct (root_size args) as [-> _]. unfold BSIZE, DIRENT_SIZE. replace 1024 with (64 * 16) at 2 by done. rewrite Z.mul_assoc. apply Z_mod_mult.
  - intros k Hk. assert (slice s x 0 (i_size x) !! Z.to_nat k = Some (fbyte s x k)) as Ek.
    { unfold slice. rewrite list_lookup_fmap, lookup_seqZ_lt by lia. cbn. by rewrite Z2Nat.id by lia. }
    rewrite Hd in Ek. exact (proj1 (Forall_lookup _ _) (root_bytes args Hn Hl) _ _ Ek).
Qed.

End Root.

Lemma main_view `{Host} args :
  Forall arg_ok args → 2 + Z.of_nat (length args) ≤ NINODES → (2 + Z.of_nat (length args)) mod 64 ≠ 0 →
  nmeta + blocks_used (image_files args) ≤ FSSIZE →
  ∃ m, main args mk0 = Ok tt m ∧ ∀ s, boots (image m) s → fs_view s (image_files args).
Proof.
  intros Hargs Hroom Hmod Hfit. destruct (main_ok args Hargs Hroom Hmod) as (m & E & m0 & [F Hm] & Himg).
  - change (with_files root_entries [] args) with ((T_DIR, root_dir args) :: ((λ arg, (T_FILE, contents arg)) <$> args)).
    unfold image_files in Hfit. cbn [blocks_used] in *. by rewrite nb_pad in Hfit by (by apply root_mod).
  - exists m. split; [exact E|]. clear E. intros s Hs. apply (view_ok (image m) s m0 _ F); [exact Hm|exact Himg|exact Hs|].
    unfold image_files. generalize (pad (root_dir args)). intros r i t c Hi. apply lookup_cons_Some in Hi as [[_ [= <- _]]|[_ Hi]]; [done|].
    apply list_lookup_fmap_Some in Hi as (a & [= -> ->] & _). done.
Qed.


(** The file system of an image is one in which [dirlookup] finds each file. *)
Lemma view_lookup `{Host, Layout, Wakeups, BlockDev, !BlockDevOk} args i pid st ops s bs dp y k arg :
  fs_view s (image_files args) → names_ok args → 2 + Z.of_nat (length args) ≤ NINODES →
  in_txn s i pid st ops bs ∅ → (length bs < NBUF)%nat → i_dev y = ROOTDEV → itable s !! dp = Some (dinode s ROOTINO y) →
  args !! k = Some arg →
  ∃ s', (∀ b, blk s' b = blk s b) ∧
    dirlookup dp (strncpy_name (fs_name arg)) s = (ip <- iget ROOTDEV (2 + Z.of_nat k) ;; ret (Some (ip, 16 * (2 + Z.of_nat k)))) s'.
Proof.
  intros Hv Hn Hroom Ht Hbs Hy Hx Hk. change NINODES with 200 in Hroom.
  assert (image_files args !! 0%nat = Some (T_DIR, pad (root_dir args))) as HC by reflexivity.
  destruct (fv_file _ _ Hv 0%nat T_DIR (pad (root_dir args)) y HC Hy) as (Hty & _ & Hsz & Hf & Hsl).
  change (1 + Z.of_nat 0) with ROOTINO in *. set (x := dinode s ROOTINO y) in *.
  assert (is_root s x args) as Hr by (split; [exact Hsz|by rewrite Hsz]). assert (Z.of_nat (length args) < 2 ^ 15) as Hl by lia.
  pose proof (root_dir_ok s x args Hn Hl Hr Hf Hty) as Hdir.
  assert (entries args !! (2 + k)%nat = Some (2 + Z.of_nat k, fs_name arg)) as Hj.
  { change (imap (λ k arg, (2 + Z.of_nat k, fs_name arg)) args !! k = Some (2 + Z.of_nat k, fs_name arg)). by rewrite list_lookup_imap, Hk. }
  destruct (entries_fit args _ _ _ Hn Hl Hj) as [Hfit Hin]. pose proof (lookup_lt_Some _ _ _ Hk) as Hlt.
  pose proof (root_size args) as [_ Hbig]. rewrite <- Hsz, flen_root in Hbig. unfold DIRENT_SIZE in Hbig.
  assert (∀ o, 0 ≤ o < i_size x → o mod DIRENT_SIZE = 0 → hit s x (strncpy_name (fs_name arg)) o ↔ o = 16 * (2 + Z.of_nat k)) as Hhit.
  { intros o Ho Hm. replace (2 + Z.of_nat k) with (Z.of_nat (2 + k)) by lia.
    apply (root_hit s x args _ (2 + Z.of_nat k)); try done; [lia|]. apply entry_fits; [done|done|apply Hdir]. }
  assert ((16 * (2 + Z.of_nat k)) mod DIRENT_SIZE = 0) as Hmod by (unfold DIRENT_SIZE; rewrite Z.mul_comm; apply Z_mod_mult).
  destruct (dirlookup_ok i pid st ops s bs dp x _ Ht Hx Hdir (strncpy_name_ok _ Hfit) Hbs) as (s' & _ & Hb & _ & Hres).
  exists s'. split; [done|]. destruct Hres as [(o & Ho & Hom & Hh & _ & ->)|[Hno _]].
  - apply Hhit in Hh; [|done|done]. subst o. replace (16 * (2 + Z.of_nat k)) with (16 * Z.of_nat (2 + k)) by lia.
    rewrite (root_entry s x args _ _ _ Hr Hj), de_inum_dirent by lia. done.
  - exfalso. apply (Hno (16 * (2 + Z.of_nat k))); [lia|done|]. by apply Hhit; [lia|..].
Qed.

(** C34: End to end: a file given to [mkfs] is found by the kernel that runs on
    the image, by its name without [user/] and [_], under the inode number
    [mkfs] gave it, and its contents there are those of the file. *)
Theorem mkfs_lookup_correct `{Host, Layout, Wakeups, BlockDev, !BlockDevOk} args k arg :
  Forall arg_ok args → names_ok args → 2 + Z.of_nat (length args) ≤ NINODES → (2 + Z.of_nat (length args)) mod 64 ≠ 0 →
  nmeta + blocks_used (image_files args) ≤ FSSIZE → args !! k = Some arg →
  ∃ m, main args mk0 = Ok tt m ∧
    ∀ s i pid st ops bs dp y, boots (image m) s → in_txn s i pid st ops bs ∅ → (length bs < NBUF)%nat → i_dev y = ROOTDEV →
      itable s !! dp = Some (dinode s ROOTINO y) →
      (∃ s', (∀ b, blk s' b = blk s b) ∧
        dirlookup dp (strncpy_name (fs_name arg)) s = (ip <- iget ROOTDEV (2 + Z.of_nat k) ;; ret (Some (ip, 16 * (2 + Z.of_nat k)))) s') ∧
      slice s (dinode s (2 + Z.of_nat k) y) 0 (flen (contents arg)) = contents arg.
Proof.
  intros Hargs Hn Hroom Hmod Hfit Hk. destruct (main_view args Hargs Hroom Hmod Hfit) as (m & E & Hv). exists m. split; [exact E|]. clear E.
  intros s i pid st ops bs dp y Hs Ht Hbs Hy Hx. specialize (Hv s Hs). split; [by eapply view_lookup|].
  assert (image_files args !! S k = Some (T_FILE, contents arg)) as Hc.
  { change (((λ arg, (T_FILE, contents arg)) <$> args) !! k = Some (T_FILE, contents arg)). by rewrite list_lookup_fmap, Hk. }
  replace (2 + Z.of_nat k) with (1 + Z.of_nat (S k)) by lia. apply (fv_file _ _ Hv (S k) T_FILE _ y Hc Hy).
Qed.

(** ** An image with one file *)

#[local] Instance demo_host : Host := λ arg,
  if bool_decide (arg = USER_SLASH ++ [UNDERSCORE; 108; 115]) then Some [replicate 1024 7; replicate 200 8] else None.
Definition demo_args : list (list Z) := [USER_SLASH ++ [UNDERSCORE; 108; 115]].

#[local] Instance mkfs_layout : Layout := Build_Layout 0x80020000 0x80010000 0x80009000 0 0 0 0 0.
#[local] Instance mkfs_wakeups : Wakeups := 0%nat.
#[local] Instance mkfs_disk : BlockDev := ram_disk.
#[local] Instance mkfs_disk_ok : BlockDevOk := ram_disk_ok.

Lemma demo_args_ok : Forall arg_ok demo_args ∧ names_ok demo_args.
Proof.
  split; [apply Forall_cons; split; [split|apply Forall_nil_2]|split; [apply Forall_cons; split; [split|apply Forall_nil_2]|]].
  - apply (bool_decide_unpack _). by vm_compute.
  - by eexists.
  - by vm_compute.
  - by vm_compute.
  - repeat constructor.
  - by vm_compute.
  - apply (bool_decide_unpack _). by vm_compute.
Qed.

Lemma demo_args_fit : nmeta + blocks_used (image_files demo_args) ≤ FSSIZE.
Proof. by vm_compute. Qed.

Lemma blk_sb s x n : blk (s <| sb := x |>) n = blk s n.
Proof. unfold blk. by rsimpl. Qed.

(** A kernel that has just booted from an image. *)
Definition booted (img : list (list Z)) (t : list inode) : kst :=
  (fs_disk (map_seqZ 0 img)) <| sb := sb_of (blkof img 1) |> <| itable := t |>.

Lemma booted_ok img t : boots img (booted img t).
Proof.
  assert (∀ n, 0 ≤ n → blk (booted img t) n = blkof img n) as Hb.
  { intros n Hn. unfold booted. rewrite blk_itable, blk_sb, fs_disk_blk. unfold dblock, blkof. by rewrite lookup_map_seqZ_0. }
  split; [intros n [Hn _]; by apply Hb|]. rewrite Hb by done. unfold booted. by rsimpl.
Qed.

Lemma in_txn_sb s i pid st ops bs O x : in_txn s i pid st ops bs O → in_txn (s <| sb := x |>) i pid st ops bs O.
Proof.
  intros [(R & [Hc [] Hg Hp Ha] & HR) Ho]. split; [|by rsimpl]. exists R. split; [|done].
  split; [|by split; rsimpl|done|done|by rsimpl].
  destruct Hc as [[] [l []] ? ? ? ?]. split; [split; by rsimpl|exists l; split; rsimpl; done|rsimpl; done..].
Qed.


Lemma mkfs_lookup_correct_witness :
  ∃ m s s', main demo_args mk0 = Ok tt m ∧ boots (image m) s ∧
    dirlookup 0 (strncpy_name [108; 115]) s = (ip <- iget ROOTDEV 2 ;; ret (Some (ip, 32))) s'.
Proof.
  destruct demo_args_ok as [Ha Hn].
  destruct (mkfs_lookup_correct demo_args 0 (USER_SLASH ++ [UNDERSCORE; 108; 115]) Ha Hn) as (m & E & Hv); [done|done|exact demo_args_fit|done|].
  set (y := inode0 <| i_dev := ROOTDEV |>). set (s := booted (image m) [dinode (booted (image m) []) ROOTINO y]).
  destruct (Hv s 0%nat 1 2 1 [] 0%nat y) as ((s' & _ & El) & _).
  - apply booted_ok.
  - apply in_txn_itable, in_txn_sb, fs_disk_txn.
  - unfold NBUF. cbn [length]. lia.
  - unfold y. by rsimpl.
  - unfold s, booted. rsimpl. unfold dinode. by rewrite !blk_itable.
  - exists m, s, s'. split; [exact E|]. split; [apply booted_ok|exact El].
Defined.

(** ** Two limits [mkfs] does not check *)

(** With 62 files the root directory fills its block.  Rounding its size up
    adds a block that is not allocated; a read of it outside a transaction, as
    [ls] does, has the kernel allocate one and panic. *)
Definition full_host : Host := λ _, Some [].
Definition full_args : list (list Z) := (λ k, [97; 48 + k]) <$> seqZ 0 62.
Definition root_inode (s : kst) : inode := dinode s ROOTINO (inode0 <| i_dev := ROOTDEV |>).
Definition cached (x : inode) (s : kst) : kst :=
  s <| itable := [x] |> <| klog ::= λ l, l <| l_outstanding := 0 |> |>.
Definition read_end (s : kst) : Z * option string :=
  (i_size (root_inode s),
   match @readi _ _ ram_disk 0 ToLocal 1024 16 (cached (root_inode s) s) with Panic msg => Some msg | _ => None end).
Definition read_image (r : res mkst unit) : Z * option string :=
  match r with Ok _ m => read_end (booted (image m) []) | _ => (0, None) end.

Lemma mkfs_62_files : read_image (@main full_host full_args mk0) = (2048, Some "log_write outside of trans"%string).
Proof. vm_compute. reflexivity. Qed.

(** The inode of the 207th file lies in the block of the free map. *)
Lemma mkfs_207_files : IBLOCK 208 mksb = sb_bmapstart mksb.
Proof. vm_compute. reflexivity. Qed.
