(* ===== verification/Umalloc.v ===== *)
(** * The user memory allocator ([user/umalloc.c])

    The state is the memory of a process, the variable [freep] and the size of
    the process ([brk]).  A [Header] is the 16 bytes at its address: [s.ptr] at
    offset 0 and [s.size], a [uint], at offset 8.  [base] is where the linker
    put the static variable of that name.  Accesses above [brk] are page faults
    the kernel kills the process for.

    [sbrk] follows [sys_sbrk] and [growproc]; whether the kernel finds pages to
    grow is the class [Grant].

    The theorems: the free list is a ring of disjoint blocks in the order of
    their addresses, no two of them adjacent; [malloc] and [free] keep it,
    blocks handed out never overlap and keep their contents, and no space is
    lost. *)

From Stdlib Require Import ZArith Lia.
From S2P Require Import Prelude Params.
From stdpp Require Import base gmap list numbers fin_maps sorting.

Open Scope Z_scope.

Record heap : Type := mkHeap { hmem : memory; freep : Z; brk : Z }.
#[export] Instance heap_eta : Eta heap := λ h, mkHeap (hmem h) (freep h) (brk h).

Abbreviation UM := (K heap).

(** Whether the kernel has the pages to grow a process of a size by [n]. *)
Class Grant := grant : Z → Z → bool.

Definition SBRK_ERROR : Z := u64 (-1).
(** [sizeof(Header)] *)
Definition HSIZE : Z := 16.

Definition load (n : nat) (a : Z) : UM Z := λ h,
  if (0 <=? a) && (a + Z.of_nat n <=? brk h) then Ok (ldn n (hmem h) a) h else Fault.
Definition store (n : nat) (a v : Z) : UM unit := λ h,
  if (0 <=? a) && (a + Z.of_nat n <=? brk h) then Ok tt (h <| hmem ::= λ m, stn n m a v |>) else Fault.

(** [p->s.ptr] and [p->s.size] *)
Definition get_ptr (p : Z) : UM Z := load 8 p.
Definition set_ptr (p v : Z) : UM unit := store 8 p v.
Definition get_size (p : Z) : UM Z := load 4 (p + 8).
Definition set_size (p v : Z) : UM unit := store 4 (p + 8) v.

(** [p + n] on a [Header] pointer *)
Definition hplus (p n : Z) : Z := u64 (p + HSIZE * n).

(** [sbrk(n)] as a process sees it. *)
Definition sbrk `{Grant} (n : Z) : UM Z :=
  sz <- gets brk ;;
  if n >? 0 then
    if u64 (sz + n) >? TRAPFRAME then ret SBRK_ERROR
    else if grant sz n then modify (λ h, h <| brk := u64 (sz + n) |>) ;;; ret sz
    else ret SBRK_ERROR
  else
    let newsz := if u64 (sz + n) >=? sz then sz else u64 (sz + n) in
    modify (λ h, h <| brk := newsz |> <| hmem ::= filter (λ kv, kv.1 < PGROUNDUP newsz) |>) ;;; ret sz.

(** Enough iterations for any ring of blocks below [brk]. *)
Definition fuel (h : heap) : nat := Z.to_nat (2 * (brk h / HSIZE) + 4).

(** [for(p = freep; !(bp > p && bp < p->s.ptr); p = p->s.ptr)] *)
Fixpoint free_search (n : nat) (bp p : Z) : UM Z :=
  match n with
  | O => nofuel
  | S n' =>
      nx <- get_ptr p ;;
      if (bp >? p) && (bp <? nx) then ret p
      else if (p >=? nx) && ((bp >? p) || (bp <? nx)) then ret p
      else free_search n' bp nx
  end.

(** [if(bp + bp->s.size == p->s.ptr) ... else ...], where [nx] is [p->s.ptr]. *)
Definition free_next (bp nx : Z) : UM unit :=
  bsz <- get_size bp ;;
  if hplus bp bsz =? nx then
    nsz <- get_size nx ;;
    set_size bp (u32 (bsz + nsz)) ;;;
    nnx <- get_ptr nx ;;
    set_ptr bp nnx
  else set_ptr bp nx.

(** [if(p + p->s.size == bp) ... else ...] *)
Definition free_prev (p bp : Z) : UM unit :=
  psz <- get_size p ;;
  if hplus p psz =? bp then
    bsz <- get_size bp ;;
    set_size p (u32 (psz + bsz)) ;;;
    bnx <- get_ptr bp ;;
    set_ptr p bnx
  else set_ptr p bp.

Definition free (ap : Z) : UM unit :=
  let bp := u64 (ap - HSIZE) in
  fp <- gets freep ;;
  n <- gets fuel ;;
  p <- free_search n bp fp ;;
  nx <- get_ptr p ;;
  free_next bp nx ;;;
  free_prev p bp ;;;
  modify (λ h, h <| freep := p |>).

Section Malloc.
Context `{Grant} (base : Z).

Definition morecore (nu : Z) : UM Z :=
  let nu := if nu <? 4096 then 4096 else nu in
  p <- sbrk (s32 (nu * HSIZE)) ;;
  if p =? SBRK_ERROR then ret 0
  else
    set_size p nu ;;;
    free (hplus p 1) ;;;
    gets freep.

(** The block [p], which is large enough, is taken off the list or its tail is. *)
Definition take_block (nunits prevp p size : Z) : UM Z :=
  q <- (if size =? nunits then
          nx <- get_ptr p ;;
          set_ptr prevp nx ;;;
          ret p
        else
          set_size p (u32 (size - nunits)) ;;;
          sz <- get_size p ;;
          let q := hplus p sz in
          set_size q nunits ;;;
          ret q) ;;
  modify (λ h, h <| freep := prevp |>) ;;;
  ret (hplus q 1).

(** [for(p = prevp->s.ptr; ; prevp = p, p = p->s.ptr)] *)
Fixpoint malloc_loop (n : nat) (nunits prevp p : Z) : UM Z :=
  match n with
  | O => nofuel
  | S n' =>
      size <- get_size p ;;
      if size >=? nunits then take_block nunits prevp p size
      else
        fp <- gets freep ;;
        if p =? fp then
          q <- morecore nunits ;;
          if q =? 0 then ret 0
          else nx <- get_ptr q ;; malloc_loop n' nunits q nx
        else nx <- get_ptr p ;; malloc_loop n' nunits p nx
  end.

Definition malloc (nbytes : Z) : UM Z :=
  let nunits := u32 ((nbytes + HSIZE - 1) / HSIZE + 1) in
  fp <- gets freep ;;
  prevp <- (if fp =? 0 then
              set_ptr base base ;;;
              modify (λ h, h <| freep := base |>) ;;;
              set_size base 0 ;;;
              ret base
            else ret fp) ;;
  n <- gets fuel ;;
  p <- get_ptr prevp ;;
  malloc_loop n nunits prevp p.

End Malloc.

(** ** The ring of free blocks

    A block is the address of its header and its size in units of [HSIZE], the
    header included. *)

Abbreviation block := (Z * Z)%type.
Definition bend (b : block) : Z := b.1 + HSIZE * b.2.

Definition head_or (R : list block) (e : Z) : Z := match R with [] => e | b :: _ => b.1 end.

(** The headers of [R] in memory, linked in this order; the last one points at [e]. *)
Fixpoint links (m : memory) (R : list block) (e : Z) : Prop :=
  match R with
  | [] => True
  | b :: R' => ldn 8 m b.1 = head_or R' e ∧ ldn 4 m (b.1 + 8) = b.2 ∧ links m R' e
  end.

(** [b] lies below [c], with a gap. *)
Definition below (b c : block) : Prop := b.1 + HSIZE ≤ c.1 ∧ bend b < c.1.
(** The two blocks do not overlap. *)
Definition apart (b c : block) : Prop := bend b ≤ c.1 ∨ bend c ≤ b.1.

(** [RAM] bounds what a process can get from [sbrk]. *)
Definition RAM : Z := PHYSTOP - KERNBASE.
Class GrantOk `{Grant} := grant_ram sz n : grant sz n = true → sz + n ≤ RAM.

(** The heap with the free ring [R] and the blocks [A] handed out, by the
    address of the header. *)
Record heap_ok (base : Z) (R : list block) (A : gmap Z Z) (h : heap) : Prop := {
  hk_base : 0 < base ∧ base + HSIZE ≤ brk h ≤ RAM;
  hk_ring : ∃ fl, R = (base, 0) :: fl ∧ Forall (λ b, 1 ≤ b.2 ∧ bend b ≤ brk h) fl;
  hk_links : links (hmem h) R base;
  hk_order : StronglySorted below R;
  hk_freep : freep h ∈ R.*1;
  hk_alloc : map_Forall (λ q n, 1 ≤ n ∧ base + HSIZE ≤ q ∧ bend (q, n) ≤ brk h ∧ ldn 4 (hmem h) (q + 8) = n) A;
  hk_apart : ∀ q n b, A !! q = Some n → b ∈ R → apart (q, n) b;
  hk_apart2 : ∀ q n q' n', A !! q = Some n → A !! q' = Some n' → q ≠ q' → apart (q, n) (q', n')
}.

Ltac hunfold := unfold below, apart, RAM in *; unfold bend, HSIZE, PHYSTOP, KERNBASE in *; cbn [fst snd] in *.

(** *** Loads and stores *)

Lemma load_ok n a h : 0 ≤ a → a + Z.of_nat n ≤ brk h → load n a h = Ok (ldn n (hmem h) a) h.
Proof.
  intros H1 H2. unfold load. by rewrite (proj2 (Z.leb_le _ _) H1), (proj2 (Z.leb_le _ _) H2).
Qed.

Lemma store_ok n a v h : 0 ≤ a → a + Z.of_nat n ≤ brk h → store n a v h = Ok tt (h <| hmem := stn n (hmem h) a v |>).
Proof.
  intros H1 H2. unfold store. rewrite (proj2 (Z.leb_le _ _) H1), (proj2 (Z.leb_le _ _) H2).
  with_strategy transparent [setf] reflexivity.
Qed.

Lemma hmem_twice h m m' : h <| hmem := m |> <| hmem := m' |> = h <| hmem := m' |>.
Proof. with_strategy transparent [setf] reflexivity. Qed.

Lemma links_app m R1 R2 e : links m (R1 ++ R2) e ↔ links m R1 (head_or R2 e) ∧ links m R2 e.
Proof.
  induction R1 as [|b R1 IH]; cbn [links app]; [tauto|]. rewrite IH.
  replace (head_or (R1 ++ R2) e) with (head_or R1 (head_or R2 e)) by (by destruct R1). tauto.
Qed.

(** Two memories that agree on the header at [q]. *)
Definition same_at (m m' : memory) (q : Z) : Prop := ∀ b, q ≤ b < q + HSIZE → ldb m' b = ldb m b.

Lemma same_at_ldn n m m' q k : same_at m m' q → 0 ≤ k → k + Z.of_nat n ≤ HSIZE → ldn n m' (q + k) = ldn n m (q + k).
Proof. intros H Hk Hn. apply ldn_ext. intros b Hb. apply H. lia. Qed.

Lemma links_same m m' R e : (∀ b, b ∈ R → same_at m m' b.1) → links m R e → links m' R e.
Proof.
  induction R as [|b R IH]; cbn [links]; [done|]. intros H (H1 & H2 & H3).
  assert (same_at m m' b.1) as Hb by (apply H, list_elem_of_here).
  rewrite <- (Z.add_0_r b.1) in H1 at 1. rewrite <- (same_at_ldn 8 m m') in H1; [|done|unfold HSIZE; lia..].
  rewrite <- (same_at_ldn 4 m m') in H2; [|done|unfold HSIZE; lia..].
  rewrite Z.add_0_r in H1. split_and!; try done. apply IH; [|done]. intros c Hc. apply H. by apply list_elem_of_further.
Qed.

(** *** The search of [free] *)

Section Search.
Context (h : heap) (base bp : Z).

(** The part of the ring from some block on: it can be read. *)
Definition readable (S : list block) : Prop :=
  links (hmem h) S base ∧ StronglySorted below S ∧ Forall (λ b, 0 < base ≤ b.1 ∧ b.1 + HSIZE ≤ brk h) S.

Lemma readable_ptr b S : readable (b :: S) → get_ptr b.1 h = Ok (head_or S base) h.
Proof.
  intros ((H1 & _) & _ & H3). apply Forall_cons_1 in H3 as [H3 _]. unfold get_ptr, HSIZE in *. by rewrite load_ok, H1 by lia.
Qed.

Lemma readable_size b S : readable (b :: S) → get_size b.1 h = Ok b.2 h.
Proof.
  intros ((_ & H2 & _) & _ & H3). apply Forall_cons_1 in H3 as [H3 _]. unfold get_size, HSIZE in *. by rewrite load_ok, H2 by lia.
Qed.

Lemma readable_cons b S : readable (b :: S) → readable S ∧ (∀ c, c ∈ S → below b c).
Proof.
  intros ((_ & _ & H1) & H2 & H3). apply Forall_cons_1 in H3 as [_ H3]. apply StronglySorted_cons in H2 as [H2 H4].
  split; [done|]. by apply Forall_forall.
Qed.

Lemma readable_app S1 S2 : readable (S1 ++ S2) → readable S2.
Proof. induction S1 as [|b S1 IH]; [done|]. intros H. by apply IH, (readable_cons b). Qed.

(** Below [bp], the search stops at the last block below it. *)
Lemma free_search_up n S b :
  readable (b :: S) → b.1 < bp → (∀ c, c ∈ S → c.1 ≠ bp) → (length S < n)%nat →
  ∃ S1 c S2, b :: S = S1 ++ c :: S2 ∧ free_search n bp b.1 h = Ok c.1 h ∧ c.1 < bp ∧ (∀ d, d ∈ S2 → bp < d.1).
Proof.
  revert n b. induction S as [|c S IH]; intros n b Hr Hb Hne Hn; (destruct n as [|n]; [cbn in Hn; lia|]);
    cbn [free_search]; (erewrite bind_ok by exact (readable_ptr _ _ Hr)); cbn [head_or].
  - exists [], b, []. split; [done|]. destruct Hr as (_ & _ & H3). apply Forall_cons_1 in H3 as [H3 _].
    rewrite (proj2 (Z.gtb_gt _ _)), (proj2 (Z.ltb_ge bp base)), (proj2 (Z.geb_ge _ _)) by lia. cbn. split; [done|]. split; [done|].
    by intros d ?%elem_of_nil.
  - destruct (readable_cons _ _ Hr) as [Hr' Hbc]. specialize (Hbc c (list_elem_of_here _ _)) as Hbc'. hunfold.
    rewrite (proj2 (Z.gtb_gt _ _)) by lia. destruct (Z.ltb_spec bp c.1) as [Hlt|Hge]; cbn [andb orb].
    + exists [], b, (c :: S). split; [done|]. split; [done|]. split; [done|]. intros d [->|Hd]%elem_of_cons; [done|].
      pose proof (proj2 (readable_cons _ _ Hr') d Hd). hunfold. lia.
    + replace (b.1 >=? c.1) with false by (symmetry; rewrite Z.geb_leb; apply Z.leb_gt; lia). cbn [andb].
      destruct (IH n c Hr') as (S1 & d & S2 & E & Hs & Hd & H2); [|by intros d Hd; apply Hne, list_elem_of_further|cbn in Hn; lia|].
      { specialize (Hne c (list_elem_of_here _ _)). lia. }
      exists (b :: S1), d, S2. by rewrite E.
Qed.

(** Above [bp], it goes on to the end of the ring and to [base]. *)
Lemma free_search_wrap n l b :
  readable (b :: l) → base < bp < b.1 → free_search (S (length l) + n) bp b.1 h = free_search n bp base h.
Proof.
  revert b. induction l as [|c l IH]; intros b Hr Hb; cbn [length Nat.add free_search];
    (erewrite bind_ok by exact (readable_ptr _ _ Hr)); cbn [head_or].
  - replace (bp >? b.1) with false by (symmetry; rewrite Z.gtb_ltb; apply Z.ltb_ge; lia).
    replace (bp <? base) with false by (symmetry; apply Z.ltb_ge; lia). cbn [andb orb]. by rewrite andb_false_r.
  - destruct (readable_cons _ _ Hr) as [Hr' Hbc]. specialize (Hbc c (list_elem_of_here _ _)). hunfold.
    replace (bp >? b.1) with false by (symmetry; rewrite Z.gtb_ltb; apply Z.ltb_ge; lia).
    replace (b.1 >=? c.1) with false by (symmetry; rewrite Z.geb_leb; apply Z.leb_gt; lia). cbn [andb].
    apply IH; [done|lia].
Qed.

(** From any block of the ring the search finds the place of [bp]. *)
Lemma free_search_ok n fl p :
  readable ((base, 0) :: fl) → base < bp → (∀ c, c ∈ fl → c.1 ≠ bp) → p ∈ ((base, 0) :: fl).*1 → (2 * S (length fl) < n)%nat →
  ∃ S1 c S2, (base, 0) :: fl = S1 ++ c :: S2 ∧ free_search n bp p h = Ok c.1 h ∧ c.1 < bp ∧ (∀ d, d ∈ S2 → bp < d.1).
Proof.
  intros Hr Hbase Hne Hp Hn. apply list_elem_of_fmap in Hp as (b & -> & Hb). apply list_elem_of_split in Hb as (S1 & S2 & E).
  pose proof (f_equal length E) as El. rewrite length_app in El. cbn [length] in El. rewrite E in Hr. apply readable_app in Hr as Hr'.
  destruct (decide (b.1 < bp)) as [Hlt|Hge].
  - destruct (free_search_up n S2 b Hr') as (T1 & c & T2 & E' & Hs & Hc & H2); [done| |lia|].
    { intros c Hc. destruct S1 as [|x S1]; cbn in E; injection E as Ex Efl; apply Hne; rewrite Efl; [done|].
      apply elem_of_app. right. by right. }
    exists (S1 ++ T1), c, T2. rewrite E, E', app_assoc. done.
  - assert (base < bp < b.1) as Hlt.
    { split; [done|]. destruct S1 as [|x S1]; cbn in E; injection E as Ex Efl; [subst b; cbn in Hge; lia|].
      assert (b.1 ≠ bp); [|lia]. apply Hne. rewrite Efl. apply elem_of_app. right. left. }
    replace n with (S (length S2) + (n - S (length S2)))%nat by lia. rewrite (free_search_wrap _ S2 b Hr' Hlt).
    rewrite <- E in Hr. apply (free_search_up _ fl (base, 0) Hr Hbase Hne). lia.
Qed.

End Search.

(** *** What [free] does to the ring *)

(** A block is joined with the one after it, and with the one before it. *)
Definition join_next (b : block) (l : list block) : block * list block :=
  match l with
  | c :: l' => if bend b =? c.1 then ((b.1, b.2 + c.2), l') else (b, l)
  | [] => (b, [])
  end.
Definition join_prev (p b : block) (l : list block) : list block :=
  if bend p =? b.1 then (p.1, p.2 + b.2) :: l else p :: b :: l.
Definition insert_block (p b : block) (l : list block) : list block :=
  let '(b', l') := join_next b l in join_prev p b' l'.

(** The memories agree except at the header at [q]. *)
Definition same_but (m m' : memory) (q : Z) : Prop := ∀ x, ¬ q ≤ x < q + HSIZE → ldb m' x = ldb m x.

Lemma same_but_at m m' q q' : same_but m m' q → q + HSIZE ≤ q' ∨ q' + HSIZE ≤ q → same_at m m' q'.
Proof. intros H Hq x Hx. apply H. lia. Qed.

Lemma same_but_set n m q k v : 0 ≤ k → k + Z.of_nat n ≤ HSIZE → same_but m (stn n m (q + k) v) q.
Proof. intros Hk Hn x Hx. apply ldb_stn_ne. lia. Qed.

Lemma same_but_trans m1 m2 m3 q : same_but m1 m2 q → same_but m2 m3 q → same_but m1 m3 q.
Proof. intros H1 H2 x Hx. by rewrite H2, H1. Qed.

Lemma same_but_ptr m q v : same_but m (stn 8 m q v) q.
Proof. intros x Hx. apply ldb_stn_ne. unfold HSIZE in Hx. lia. Qed.

Lemma same_but_size m q v : same_but m (stn 4 m (q + 8) v) q.
Proof. intros x Hx. apply ldb_stn_ne. unfold HSIZE in Hx. lia. Qed.

(** Both words of the header at [q] written. *)
Lemma set_both m q size ptr :
  is_u32 size → is_u64 ptr → let m' := stn 8 (stn 4 m (q + 8) size) q ptr in
  ldn 8 m' q = ptr ∧ ldn 4 m' (q + 8) = size ∧ same_but m m' q.
Proof.
  intros Hs Hp. cbn zeta. rewrite ldn_stn_eq, Z.mod_small by done. rewrite (ldn_stn_ne 8 4), ldn_stn_eq, Z.mod_small by (done || lia).
  split; [done|]. split; [done|]. eapply same_but_trans; [apply same_but_size|apply same_but_ptr].
Qed.

Lemma set_one m q ptr :
  is_u64 ptr → let m' := stn 8 m q ptr in ldn 8 m' q = ptr ∧ ldn 4 m' (q + 8) = ldn 4 m (q + 8) ∧ same_but m m' q.
Proof.
  intros Hp. cbn zeta. rewrite ldn_stn_eq, Z.mod_small by done. rewrite ldn_stn_ne by lia.
  split; [done|]. split; [done|]. apply same_but_ptr.
Qed.

Section Free.
Context (h : heap) (base : Z).
Context (Hbase : 0 < base ∧ base + HSIZE ≤ brk h ≤ RAM).

(** A block inside the heap. *)
Definition inside (b : block) : Prop := 0 < b.1 ∧ b.1 + HSIZE ≤ brk h ∧ 0 ≤ b.2 ∧ bend b ≤ brk h.

Lemma inside_word b : inside b → is_u64 b.1 ∧ is_u32 b.2 ∧ hplus b.1 b.2 = bend b.
Proof.
  intros H. unfold inside, is_u64, is_u32, hplus in *. hunfold. rewrite u64_small; lia.
Qed.

Lemma free_next_ok b l :
  inside b → base < b.1 → ldn 4 (hmem h) (b.1 + 8) = b.2 → readable h base l → (∀ d, d ∈ l → inside d ∧ bend b ≤ d.1 ∧ b.1 + HSIZE ≤ d.1) →
  ∃ m', free_next b.1 (head_or l base) h = Ok tt (h <| hmem := m' |>) ∧ same_but (hmem h) m' b.1 ∧
    ldn 8 m' b.1 = head_or (join_next b l).2 base ∧ ldn 4 m' (b.1 + 8) = (join_next b l).1.2.
Proof.
  intros Hb Hlt Hsz Hr Hl. destruct (inside_word b Hb) as (_ & _ & Hplus). unfold free_next.
  unfold get_size at 1. unfold inside in Hb. hunfold. erewrite bind_ok by (apply load_ok; lia). rewrite Hsz, Hplus.
  assert (is_u64 base) as Hb64 by (unfold is_u64; lia).
  destruct l as [|c l]; cbn [head_or join_next fst snd].
  - rewrite (proj2 (Z.eqb_neq _ _)) by lia. unfold set_ptr. rewrite store_ok by lia.
    destruct (set_one (hmem h) b.1 base Hb64) as (H1 & H2 & H3). eexists. split; [reflexivity|]. by rewrite <- Hsz.
  - destruct (Hl c (list_elem_of_here _ _)) as (Hc & Hbc & Hbc'). destruct (inside_word c Hc) as (Hc64 & Hc32 & _).
    unfold bend, HSIZE. destruct (Z.eqb_spec (b.1 + 16 * b.2) c.1) as [E|E].
    + erewrite bind_ok by exact (readable_size _ _ _ _ Hr). unfold inside in Hc. hunfold. rewrite u32_small by lia.
      unfold set_size. erewrite bind_ok by (apply store_ok; lia). unfold get_ptr. erewrite bind_ok by (apply load_ok; rsimpl; lia).
      rsimpl. rewrite ldn_stn_ne by lia. destruct Hr as ((Hn & _) & _). rewrite Hn.
      unfold set_ptr. rewrite store_ok by (rsimpl; lia).
      assert (is_u64 (head_or l base)) as Hn64.
      { destruct l as [|d l]; [done|]. cbn. apply inside_word, Hl. right. left. }
      destruct (set_both (hmem h) b.1 (b.2 + c.2) (head_or l base)) as (H1 & H2 & H3); [unfold is_u32; lia|done|].
      eexists. split; [by rewrite hmem_twice|done].
    + unfold set_ptr. rewrite store_ok by lia. destruct (set_one (hmem h) b.1 c.1 Hc64) as (H1 & H2 & H3). eexists. split; [reflexivity|]. cbn [fst snd head_or]. by rewrite <- Hsz.
Qed.

(** [b] is already linked to the blocks [l] after it. *)
Lemma free_prev_ok p b l :
  inside p → inside b → p.1 + HSIZE ≤ b.1 → bend p ≤ b.1 → ldn 4 (hmem h) (p.1 + 8) = p.2 → ldn 4 (hmem h) (b.1 + 8) = b.2 →
  is_u64 (head_or l base) → ldn 8 (hmem h) b.1 = head_or l base →
  ∃ m', free_prev p.1 b.1 h = Ok tt (h <| hmem := m' |>) ∧ same_but (hmem h) m' p.1 ∧
    links m' (take 1 (join_prev p b l)) (head_or (drop 1 (join_prev p b l)) base).
Proof.
  intros Hp Hb Hlt Hend Hps Hbs Hl64 Hbl. destruct (inside_word p Hp) as (_ & _ & Hplus). destruct (inside_word b Hb) as (Hb64 & _ & _).
  unfold free_prev, join_prev. unfold inside in Hp, Hb. hunfold. unfold get_size at 1. erewrite bind_ok by (apply load_ok; lia).
  rewrite Hps, Hplus. unfold bend, HSIZE. destruct (Z.eqb_spec (p.1 + 16 * p.2) b.1) as [E|E].
  - unfold get_size. erewrite bind_ok by (apply load_ok; lia). rewrite Hbs, u32_small by lia.
    unfold set_size. erewrite bind_ok by (apply store_ok; lia). unfold get_ptr. erewrite bind_ok by (apply load_ok; rsimpl; lia).
    rsimpl. rewrite ldn_stn_ne, Hbl by lia. unfold set_ptr. rewrite store_ok by (rsimpl; lia).
    destruct (set_both (hmem h) p.1 (p.2 + b.2) (head_or l base)) as (H1 & H2 & H3); [unfold is_u32; lia|done|].
    eexists. split; [by rewrite hmem_twice|]. done.
  - unfold set_ptr. rewrite store_ok by lia. destruct (set_one (hmem h) p.1 b.1 Hb64) as (H1 & H2 & H3).
    eexists. split; [reflexivity|]. cbn. by rewrite H2.
Qed.

End Free.

(** *** The ring after [free] *)

#[export] Instance below_trans : Transitive below.
Proof. intros b c d. hunfold. lia. Qed.

(** [b] fits between [p] and the blocks [l]. *)
Record fits (p b : block) (l : list block) : Prop := {
  ft_size : 0 ≤ p.2 ∧ 1 ≤ b.2;
  ft_prev : p.1 + HSIZE ≤ b.1 ∧ bend p ≤ b.1;
  ft_next : ∀ d, d ∈ l → bend b ≤ d.1 ∧ 1 ≤ d.2
}.

Lemma join_next_sorted b l b' l' :
  join_next b l = (b', l') → 1 ≤ b.2 → StronglySorted below l → (∀ d, d ∈ l → bend b ≤ d.1 ∧ 1 ≤ d.2) →
  b'.1 = b.1 ∧ b.2 ≤ b'.2 ∧ StronglySorted below (b' :: l') ∧ (∀ d, d ∈ l' → d ∈ l).
Proof.
  unfold join_next. intros E Hb Hs Hl. destruct l as [|c l]; [injection E as <- <-|].
  - split_and!; [done|lia|by apply StronglySorted_cons|done].
  - apply StronglySorted_cons in Hs as [Hcl Hs]. pose proof (Hl c (list_elem_of_here _ _)) as Hc.
    destruct (Z.eqb_spec (bend b) c.1) as [Ec|Ec]; injection E as <- <-.
    + split_and!; [done|cbn; lia| |by intros d Hd; right]. apply StronglySorted_cons. split; [|done].
      eapply Forall_impl; [exact Hcl|]. intros d Hd. hunfold. lia.
    + split_and!; [done|lia| |done]. apply StronglySorted_cons. split; [|by apply StronglySorted_cons]. apply Forall_cons_2; [hunfold; lia|].
      eapply Forall_impl; [exact Hcl|]. intros d Hd. hunfold. lia.
Qed.

Lemma insert_sorted S1 p b l :
  StronglySorted below (S1 ++ p :: l) → fits p b l → StronglySorted below (S1 ++ insert_block p b l).
Proof.
  intros Hs [Hsz Hp Hn]. unfold insert_block. destruct (join_next b l) as [b' l'] eqn:E.
  apply StronglySorted_app in Hs as (H12 & H1 & H2). apply StronglySorted_cons in H2 as [Hpl Hl].
  destruct (join_next_sorted b l b' l' E) as (Eb & Hb' & Hs' & Hin); [lia|done|done|].
  apply StronglySorted_cons in Hs' as [Hbl Hl']. apply StronglySorted_app. split_and!; [|done|].
  - intros x y Hx Hy. assert (below x p) as Hxp by (apply H12; [done|left]). unfold join_prev in Hy.
    destruct (bend p =? b'.1); repeat (apply elem_of_cons in Hy as [->|Hy]); try done; hunfold; try lia;
      apply (H12 x y Hx); right; by apply Hin.
  - unfold join_prev. destruct (Z.eqb_spec (bend p) b'.1) as [Ej|Ej]; repeat (apply StronglySorted_cons; split); try done.
    + eapply Forall_impl; [exact Hbl|]. intros d Hd. hunfold. lia.
    + apply Forall_cons_2; [hunfold; lia|]. eapply Forall_impl; [exact Hbl|]. intros d Hd. hunfold. lia.
Qed.

(** What is apart from the blocks joined is apart from the result. *)
Lemma insert_elem p b l c :
  c ∈ insert_block p b l → fits p b l →
  (c.1 = p.1 ∧ p.2 ≤ c.2 ∨ 1 ≤ c.2) ∧
  (∀ e, bend p ≤ e → bend b ≤ e → (∀ d, d ∈ l → bend d ≤ e) → bend c ≤ e) ∧
  ∀ x, 1 ≤ x.2 → apart x p → apart x b → (∀ d, d ∈ l → apart x d) → apart x c.
Proof.
  intros Hc [Hsz Hp Hn]. unfold insert_block in Hc.
  assert (∃ b' l', join_next b l = (b', l') ∧ b'.1 = b.1 ∧ 1 ≤ b'.2 ∧ (∀ d, d ∈ l' → d ∈ l) ∧
    (∀ e, bend b ≤ e → (∀ d, d ∈ l → bend d ≤ e) → bend b' ≤ e) ∧
    ∀ x, 1 ≤ x.2 → apart x b → (∀ d, d ∈ l → apart x d) → apart x b') as (b' & l' & E & Eb & Hb' & Hin & Hend & Hap).
  { destruct l as [|e l]; [by exists b, []; split_and!; try lia|]. cbn. destruct (Z.eqb_spec (bend b) e.1) as [Ee|Ee].
    - pose proof (Hn e (list_elem_of_here _ _)). exists (b.1, b.2 + e.2), l. split_and!; try done; try (cbn; lia); [by right| |].
      + intros f _ Hd. specialize (Hd e (list_elem_of_here _ _)). hunfold. lia.
      + intros x Hx Hxb Hd. specialize (Hd e (list_elem_of_here _ _)). hunfold. lia.
    - exists b, (e :: l). split_and!; try done; lia. }
  rewrite E in Hc. unfold join_prev in Hc. destruct (Z.eqb_spec (bend p) b'.1) as [Ej|Ej];
    repeat (apply elem_of_cons in Hc as [->|Hc]); cbn [fst snd]; try (pose proof (Hn c (Hin c Hc))).
  - split_and!; [lia| |].
    + intros e Hpe Hbe Hd. specialize (Hend e Hbe Hd). hunfold. lia.
    + intros x Hx Hxp Hxb Hd. specialize (Hap x Hx Hxb Hd). hunfold. lia.
  - split_and!; [lia|auto..].
  - split_and!; [lia|auto..].
  - split_and!; [lia|auto..].
  - split_and!; [lia|auto..].
Qed.

Lemma insert_head p b l : ∃ k l', insert_block p b l = (p.1, k) :: l'.
Proof.
  unfold insert_block, join_prev. destruct (join_next b l) as [b' l'], p as [p k]. destruct (_ =? _); cbn; eauto.
Qed.

(** The space of the free blocks, in units. *)
Definition units (R : list block) : Z := foldr (λ b, Z.add b.2) 0 R.

Lemma units_app R1 R2 : units (R1 ++ R2) = units R1 + units R2.
Proof. unfold units. induction R1 as [|b R1 IH]; cbn; [done|]. rewrite IH. lia. Qed.

Lemma insert_units p b l : units (insert_block p b l) = p.2 + b.2 + units l.
Proof.
  unfold insert_block, join_next, join_prev. destruct l as [|c l]; [|destruct (bend b =? c.1)];
    match goal with |- context [if ?x then _ else _] => destruct x end; unfold units; cbn; lia.
Qed.

Lemma insert_length p b l : (length (insert_block p b l) ≤ 2 + length l)%nat.
Proof.
  unfold insert_block, join_next, join_prev. destruct l as [|c l]; [|destruct (bend b =? c.1)];
    match goal with |- context [if ?x then _ else _] => destruct x end; cbn; lia.
Qed.

Lemma insert_large p b l : fits p b l → ∃ c, c ∈ insert_block p b l ∧ b.2 ≤ c.2.
Proof.
  intros [Hsz _ Hn]. unfold insert_block, join_next, join_prev.
  assert (∀ (p c : block) l (t : bool), 0 ≤ p.2 → b.2 ≤ c.2 → ∃ d, d ∈ (if t then (p.1, p.2 + c.2) :: l else p :: c :: l) ∧ b.2 ≤ d.2) as H.
  { intros p' c l' [] Hp Hc; eexists; (split; [|]); [left|cbn; lia|right; left|done]. }
  destruct l as [|c l]; [by apply H; lia|]. pose proof (Hn c (list_elem_of_here _ _)).
  destruct (bend b =? c.1); apply H; cbn; lia.
Qed.

Section Ring.
Context {base : Z} {R : list block} {A : gmap Z Z} {h : heap} (Hh : heap_ok base R A h).

Lemma ring_base b : b ∈ R → base ≤ b.1 ∧ (b = (base, 0) ∨ base + HSIZE ≤ b.1 ∧ 1 ≤ b.2) ∧ inside h b.
Proof.
  intros Hb. destruct (hk_ring _ _ _ _ Hh) as (fl & E & Hfl). pose proof (hk_base _ _ _ _ Hh). pose proof (hk_order _ _ _ _ Hh) as Ho.
  rewrite E in Hb, Ho. unfold inside. apply elem_of_cons in Hb as [->|Hb]; [hunfold; split_and!; auto; lia|].
  apply StronglySorted_cons in Ho as [Ho _]. pose proof (proj1 (Forall_forall _ _) Ho b Hb).
  pose proof (proj1 (Forall_forall _ _) Hfl b Hb). hunfold. split_and!; [lia|right; lia|lia..].
Qed.

Lemma ring_readable : readable h base R.
Proof.
  split; [apply (hk_links _ _ _ _ Hh)|]. split; [apply (hk_order _ _ _ _ Hh)|]. pose proof (hk_base _ _ _ _ Hh).
  apply Forall_forall. intros b Hb. pose proof (ring_base b Hb) as (? & _ & ?). unfold inside in *. lia.
Qed.

Lemma sorted_length l b e :
  StronglySorted below (b :: l) → (∀ c, c ∈ b :: l → c.1 + HSIZE ≤ e) → HSIZE * Z.of_nat (S (length l)) ≤ e - b.1.
Proof.
  revert b. induction l as [|c l IH]; intros b Hs He.
  - specialize (He b (list_elem_of_here _ _)). cbn. lia.
  - apply StronglySorted_cons in Hs as [Hb Hs]. specialize (IH c Hs (λ d Hd, He d (list_elem_of_further _ _ _ Hd))).
    apply Forall_cons_1 in Hb as [Hb _]. cbn [length]. hunfold. lia.
Qed.

(** The fuel is enough for two turns around the ring. *)
Lemma ring_fuel : (2 * length R + 3 ≤ fuel h)%nat.
Proof.
  destruct (hk_ring _ _ _ _ Hh) as (fl & E & _). pose proof (hk_order _ _ _ _ Hh) as Ho. pose proof (hk_base _ _ _ _ Hh) as Hb.
  rewrite E in Ho. assert (HSIZE * Z.of_nat (S (length fl)) ≤ brk h - base) as Hl.
  { apply (sorted_length fl (base, 0)); [done|]. intros c Hc. rewrite <- E in Hc. pose proof (ring_base c Hc) as (_ & _ & H).
    unfold inside in H. lia. }
  rewrite E. cbn [length]. unfold fuel. unfold HSIZE in *. assert (Z.of_nat (S (length fl)) ≤ brk h / 16) by (apply Z.div_le_lower_bound; lia). lia.
Qed.

(** A block handed out lies between two neighbours of the ring, which the search finds. *)
Lemma free_place bp n :
  A !! bp = Some n →
  ∃ S1 p S2, R = S1 ++ p :: S2 ∧ free_search (fuel h) bp (freep h) h = Ok p.1 h ∧ fits p (bp, n) S2.
Proof.
  intros HA. destruct (hk_ring _ _ _ _ Hh) as (fl & E & Hfl). pose proof ring_readable as Hr. pose proof ring_fuel as Hf.
  destruct (hk_alloc _ _ _ _ Hh bp n HA) as (Hn & Hlo & Hhi & _). pose proof (hk_apart _ _ _ _ Hh bp n) as Hap.
  assert (∀ d, d ∈ fl → apart (bp, n) d ∧ 1 ≤ d.2) as Hd.
  { intros d Hin. split; [apply Hap; [done|rewrite E; by right]|]. apply (proj1 (Forall_forall _ _) Hfl d Hin). }
  destruct (free_search_ok h base bp (fuel h) fl (freep h)) as (S1 & p & S2 & E' & Hs & Hp & H2).
  - by rewrite <- E.
  - unfold HSIZE in Hlo. lia.
  - intros c Hc. destruct (Hd c Hc). hunfold. lia.
  - rewrite <- E. apply (hk_freep _ _ _ _ Hh).
  - rewrite E in Hf. cbn [length] in Hf. lia.
  - exists S1, p, S2. rewrite E. split; [done|]. split; [done|].
    assert (p ∈ R) as HpR by (rewrite E, E'; apply elem_of_app; right; left).
    destruct (ring_base p HpR) as (_ & Hpb & Hpi). specialize (Hap p HA HpR). unfold inside in Hpi. split; cbn [fst snd]; [lia| |].
    + destruct Hpb as [->|?]; hunfold; lia.
    + intros d Hin. assert (d ∈ fl) as Hdfl.
      { destruct S1 as [|x S1]; cbn in E'; injection E' as _ ->; [done|]. apply elem_of_app. right. by right. }
      specialize (H2 d Hin). destruct (Hd d Hdfl). hunfold. lia.
Qed.

End Ring.

(** Memory outside the headers at [q] and [q'] is unchanged. *)
Definition same_but2 (m m' : memory) (q q' : Z) : Prop :=
  ∀ x, ¬ q ≤ x < q + HSIZE → ¬ q' ≤ x < q' + HSIZE → ldb m' x = ldb m x.

Lemma join_next_suffix h b l b' l' :
  join_next b l = (b', l') → inside h b → (∀ d, d ∈ l → inside h d) →
  (∃ l0, l = l0 ++ l') ∧ b'.1 = b.1 ∧ inside h b'.
Proof.
  unfold join_next. intros E Hb Hl. destruct l as [|c l]; [injection E as <- <-; by split; [exists []|]|].
  destruct (Z.eqb_spec (bend b) c.1) as [Ec|Ec]; injection E as <- <-; [|by split; [exists []|]].
  split; [by exists [c]|]. split; [done|]. specialize (Hl c (list_elem_of_here _ _)). unfold inside in *. hunfold. lia.
Qed.

(** [free] links the block into the ring. *)
Lemma free_run base R A h bp n :
  heap_ok base R A h → A !! bp = Some n →
  ∃ S1 p S2 m', R = S1 ++ p :: S2 ∧ fits p (bp, n) S2 ∧ free (bp + HSIZE) h = Ok tt (h <| hmem := m' |> <| freep := p.1 |>) ∧
    links m' (S1 ++ insert_block p (bp, n) S2) base ∧ same_but2 (hmem h) m' bp p.1.
Proof.
  intros Hh HA. destruct (free_place Hh bp n HA) as (S1 & p & S2 & E & Hs & Hf).
  destruct (hk_alloc _ _ _ _ Hh bp n HA) as (Hn & Hlo & Hhi & Hsz). pose proof (hk_base _ _ _ _ Hh) as Hb.
  assert (inside h (bp, n)) as Hbi by (unfold inside; hunfold; lia).
  assert (∀ d, d ∈ R → inside h d) as Hin by (intros d Hd; apply (ring_base Hh d Hd)).
  assert (readable h base (p :: S2)) as Hr by (apply (readable_app _ _ S1); rewrite <- E; apply (ring_readable Hh)).
  assert (p ∈ R) as HpR by (rewrite E; apply elem_of_app; right; left).
  destruct Hf as [Hfs Hfp Hfn]. pose proof (hk_links _ _ _ _ Hh) as Hl. rewrite E in Hl. apply links_app in Hl as [Hl1 Hl2].
  destruct (free_next_ok h base Hb (bp, n) S2) as (m1 & E1 & Hm1 & Hp1 & Hs1); [done|unfold HSIZE in *; cbn; lia|done|by apply (readable_cons _ _ p)| |].
  { intros d Hd. split; [apply Hin; rewrite E; apply elem_of_app; right; by right|]. specialize (Hfn d Hd). hunfold. lia. }
  destruct (join_next (bp, n) S2) as [b' l'] eqn:Ej. cbn [fst snd] in *.
  assert (∀ d, d ∈ S2 → inside h d) as Hin2 by (intros d Hd; apply Hin; rewrite E; apply elem_of_app; right; by right).
  destruct (join_next_suffix h _ _ _ _ Ej Hbi Hin2) as ((l0 & El) & Eb & Hbi'). cbn [fst] in Eb.
  assert (is_u64 (head_or l' base)) as Hl64.
  { destruct l' as [|d l']; [unfold is_u64; hunfold; cbn; lia|]. apply (inside_word h base Hb d), Hin2. rewrite El. apply elem_of_app. right. left. }
  assert (0 < base ∧ base + HSIZE ≤ brk (h <| hmem := m1 |>) ≤ RAM) as Hb1 by (rsimpl; exact Hb).
  destruct (free_prev_ok (h <| hmem := m1 |>) base Hb1 p b' l') as (m2 & E2 & Hm2 & Hp2);
    try (unfold inside; rsimpl); rewrite ?Eb; try done; try (by apply Hin); try apply Hfp.
  { rewrite <- Eb. apply Hbi'. }
  { rewrite (same_at_ldn 4 (hmem h) m1); [by destruct Hl2 as (_ & ? & _)| |unfold HSIZE; lia..].
    apply (same_but_at _ _ bp); [done|]. cbn [fst] in Hfp. lia. }
  rewrite Eb in E2. rsimpl. exists S1, p, S2, m2. split; [done|]. split; [done|]. split_and!.
  - unfold free. replace (u64 (bp + HSIZE - HSIZE)) with bp by (rewrite u64_small; hunfold; lia).
    rewrite !bind_gets. erewrite bind_ok by exact Hs. erewrite bind_ok by exact (readable_ptr _ _ _ _ Hr).
    erewrite bind_ok by exact E1. erewrite bind_ok by exact E2. by rewrite hmem_twice.
  - assert (∀ q, q + HSIZE ≤ p.1 ∨ bp + HSIZE ≤ q → same_at (hmem h) m2 q) as Hsame.
    { intros q Hq x Hx. rewrite Hm2, Hm1; [done|lia..]. }
    unfold insert_block. rewrite Ej. apply links_app. split.
    + replace (head_or (join_prev p b' l') base) with p.1 by (unfold join_prev; by destruct (_ =? _)).
      eapply links_same; [|exact Hl1]. intros s Hin1. apply Hsame. left.
      pose proof (hk_order _ _ _ _ Hh) as Ho. rewrite E in Ho. apply StronglySorted_app in Ho as (Ho & _ & _).
      apply (Ho s p Hin1). left.
    + rewrite <- (take_drop 1 (join_prev p b' l')). apply links_app. split; [done|].
      assert (links m2 l' base) as Hl'.
      { destruct Hl2 as (_ & _ & Hl2). rewrite El in Hl2. apply links_app in Hl2 as [_ Hl2]. eapply links_same; [|exact Hl2].
        intros d Hd. apply Hsame. right. specialize (Hfn d). rewrite El, elem_of_app in Hfn. specialize (Hfn (or_intror Hd)). hunfold. lia. }
      unfold join_prev. destruct (bend p =? b'.1); [done|]. cbn. rewrite Eb. split_and!; [| |done].
      * rewrite <- Hp1, <- (Z.add_0_r bp). apply (same_at_ldn 8); [|unfold HSIZE; lia..]. apply (same_but_at _ _ p.1); [done|lia].
      * rewrite <- Hs1. apply (same_at_ldn 4); [|unfold HSIZE; lia..]. apply (same_but_at _ _ p.1); [done|lia].
  - intros x Hx Hx'. rewrite Hm2, Hm1; done.
Qed.

(** The contents of the blocks handed out: the bytes after the header. *)
Definition kept (A : gmap Z Z) (h h' : heap) : Prop :=
  ∀ q n x, A !! q = Some n → q ≤ x < bend (q, n) → ldb (hmem h') x = ldb (hmem h) x.

Lemma heap_kept_trans A h1 h2 h3 : kept A h1 h2 → kept A h2 h3 → kept A h1 h3.
Proof. intros H1 H2 q n x Hq Hx. by rewrite (H2 q n x), (H1 q n x). Qed.

Lemma kept_size A h h' q n : kept A h h' → A !! q = Some n → 1 ≤ n → ldn 4 (hmem h') (q + 8) = ldn 4 (hmem h) (q + 8).
Proof. intros H Hq Hn. apply ldn_ext. intros b Hb. eapply H; [done|]. hunfold. lia. Qed.

(** The ring with the block [(bp, n)] inserted still starts at [base]. *)
Lemma free_ring base R A h bp n S1 p S2 :
  heap_ok base R A h → R = S1 ++ p :: S2 → fits p (bp, n) S2 → bend (bp, n) ≤ brk h →
  ∃ fl, S1 ++ insert_block p (bp, n) S2 = (base, 0) :: fl ∧ Forall (λ b, 1 ≤ b.2 ∧ bend b ≤ brk h) fl.
Proof.
  intros Hh E Hf Hhi. destruct (hk_ring _ _ _ _ Hh) as (fl & Efl & Hfl).
  assert (∀ d, d ∈ R → bend d ≤ brk h) as Hend by (intros d Hd; apply (ring_base Hh d Hd)).
  assert (∀ c, c ∈ insert_block p (bp, n) S2 → (c.1 = p.1 ∧ p.2 ≤ c.2 ∨ 1 ≤ c.2) ∧ bend c ≤ brk h) as Hc.
  { intros c Hc. destruct (insert_elem _ _ _ _ Hc Hf) as (H1 & H2 & _). split; [done|]. apply H2; [|done|];
      [apply Hend; rewrite E; apply elem_of_app; right; left|]. intros d Hd. apply Hend. rewrite E. apply elem_of_app. right. by right. }
  destruct S1 as [|x S1]; cbn [app] in E |- *; rewrite Efl in E; injection E as Ep ->.
  - subst p. pose proof (insert_sorted [] (base, 0) (bp, n) S2) as Hs. cbn [app] in Hs. rewrite <- Efl in Hs.
    specialize (Hs (hk_order _ _ _ _ Hh) Hf). destruct Hf as [_ Hp _].
    assert (∃ l', insert_block (base, 0) (bp, n) S2 = (base, 0) :: l') as (l' & El).
    { unfold insert_block, join_prev. destruct (join_next (bp, n) S2) as [b' l'] eqn:Ej. rewrite (proj2 (Z.eqb_neq _ _)); [by eexists|].
      apply (f_equal (λ x, x.1.1)) in Ej. cbn in Ej. rewrite <- Ej. unfold join_next. destruct S2 as [|c S2]; [|destruct (bend _ =? _)]; hunfold; lia. }
    rewrite El in *. exists l'. split; [done|]. apply StronglySorted_cons in Hs as [Hs _]. apply Forall_forall. intros c Hin.
    destruct (Hc c) as [H1 ?]; [by right|]. pose proof (proj1 (Forall_forall _ _) Hs c Hin). hunfold. lia.
  - subst x. exists (S1 ++ insert_block p (bp, n) S2). split; [done|]. rewrite Forall_app in Hfl |- *. destruct Hfl as [Hf1 Hf2].
    split; [done|]. apply Forall_cons_1 in Hf2 as [Hp _]. apply Forall_forall. intros c Hin. destruct (Hc c Hin) as [H1 ?]. split; [|done]. lia.
Qed.

Lemma free_ok base R A h bp n :
  heap_ok base R A h → A !! bp = Some n →
  ∃ h' R', free (bp + HSIZE) h = Ok tt h' ∧ heap_ok base R' (delete bp A) h' ∧ brk h' = brk h ∧
    units R' = units R + n ∧ (length R' ≤ S (length R))%nat ∧ (∃ c, c ∈ R' ∧ n ≤ c.2) ∧ kept (delete bp A) h h'.
Proof.
  intros Hh HA. destruct (free_run base R A h bp n Hh HA) as (S1 & p & S2 & m' & E & Hf & Erun & Hl & Hm).
  pose proof (hk_alloc _ _ _ _ Hh) as Hal. pose proof (Hal bp n HA) as (Hn & Hlo & Hhi & Hsz).
  assert (p ∈ R) as HpR by (rewrite E; apply elem_of_app; right; left). destruct (ring_base Hh p HpR) as (_ & Hpb & Hpi).
  set (h' := h <| hmem := m' |> <| freep := p.1 |>). assert (kept (delete bp A) h h') as Hk.
  { intros q k x [Hne Hq]%lookup_delete_Some Hx. subst h'. rsimpl. pose proof (Hal q k Hq).
    pose proof (hk_apart _ _ _ _ Hh q k p Hq HpR). pose proof (hk_apart2 _ _ _ _ Hh q k bp n Hq HA ltac:(done)).
    apply Hm; unfold inside in *; destruct Hpb as [->|?]; hunfold; lia. }
  exists h', (S1 ++ insert_block p (bp, n) S2). split_and!; [done| |by subst h'; rsimpl| | | |done].
  - destruct (hk_ring _ _ _ _ Hh) as (fl & Efl & Hfl). pose proof (hk_base _ _ _ _ Hh) as Hb. subst h'. split; rsimpl; try done.
    + by apply (free_ring base R A).
    + apply insert_sorted; [|done]. rewrite <- E. apply (hk_order _ _ _ _ Hh).
    + destruct (insert_head p (bp, n) S2) as (k & l' & ->). rewrite fmap_app. apply elem_of_app. right. left.
    + intros q k [Hne Hq]%lookup_delete_Some. destruct (Hal q k Hq) as (? & ? & ? & H4). split_and!; try done. rewrite <- H4.
      pose proof (kept_size _ _ _ q k Hk) as Hks. rsimpl. apply Hks; [|done]. by rewrite lookup_delete_ne.
    + intros q k b [Hne Hq]%lookup_delete_Some [Hb1|Hb1]%elem_of_app.
      * apply (hk_apart _ _ _ _ Hh); [done|]. rewrite E. apply elem_of_app. by left.
      * apply (insert_elem _ _ _ _ Hb1 Hf); [apply (Hal q k Hq)|by apply (hk_apart _ _ _ _ Hh)| |].
        -- by apply (hk_apart2 _ _ _ _ Hh).
        -- intros d Hd. apply (hk_apart _ _ _ _ Hh); [done|]. rewrite E. apply elem_of_app. right. by right.
    + intros q k q' k' [_ Hq]%lookup_delete_Some [_ Hq']%lookup_delete_Some. by apply (hk_apart2 _ _ _ _ Hh).
  - rewrite E, !units_app, insert_units. cbn. unfold units. cbn. lia.
  - pose proof (insert_length p (bp, n) S2). rewrite E, !length_app. cbn [length]. lia.
  - destruct (insert_large _ _ _ Hf) as (c & Hc & ?). exists c. split; [|done]. apply elem_of_app. by right.
Qed.

(** *** Taking a block off the ring *)

(** Memory changed only in free blocks. *)
Definition free_only (R : list block) (m m' : memory) : Prop :=
  ∀ x, (∀ d, d ∈ R → ¬ (d.1 ≤ x < d.1 + HSIZE ∨ d.1 ≤ x < bend d)) → ldb m' x = ldb m x.

Lemma free_only_kept base R A h h' : heap_ok base R A h → free_only R (hmem h) (hmem h') → kept A h h'.
Proof.
  intros Hh Hm q n x Hq Hx. apply Hm. intros d Hd. pose proof (hk_apart _ _ _ _ Hh q n d Hq Hd).
  destruct (hk_alloc _ _ _ _ Hh q n Hq). destruct (ring_base Hh d Hd) as (_ & [->|?] & _); hunfold; lia.
Qed.

(** The ring [R'] after [(r, nu)] was taken out of its block [b]. *)
Lemma heap_take base R A h R' h' r nu b :
  heap_ok base R A h → b ∈ R → b.1 ≤ r → 1 ≤ nu → bend (r, nu) = bend b → base < b.1 →
  (∃ fl, R' = (base, 0) :: fl ∧ Forall (λ b, 1 ≤ b.2) fl) → StronglySorted below R' →
  (∀ c, c ∈ R' → apart (r, nu) c ∧ ∃ d, d ∈ R ∧ c.1 = d.1 ∧ c.2 ≤ d.2) →
  links (hmem h') R' base → freep h' ∈ R'.*1 → brk h' = brk h → free_only R (hmem h) (hmem h') → ldn 4 (hmem h') (r + 8) = nu →
  heap_ok base R' (<[r := nu]> A) h' ∧ A !! r = None.
Proof.
  intros Hh HbR Hr Hnu Hend Hlt (fl & E & Hfl) Hs Hc Hl Hfp Hbrk Hm Hsz. pose proof (hk_base _ _ _ _ Hh) as Hb.
  destruct (ring_base Hh b HbR) as (_ & Hbb & Hbi). pose proof (free_only_kept _ _ _ _ _ Hh Hm) as Hk.
  assert (∀ q n, A !! q = Some n → 1 ≤ n ∧ apart (q, n) (r, nu)) as Hap.
  { intros q n Hq. destruct (hk_alloc _ _ _ _ Hh q n Hq) as (Hn & _). split; [done|]. pose proof (hk_apart _ _ _ _ Hh q n b Hq HbR).
    hunfold. lia. }
  split.
  - split; rewrite ?Hbrk; try done.
    + exists fl. split; [done|]. apply Forall_forall. intros c Hcf. split; [apply (proj1 (Forall_forall _ _) Hfl c Hcf)|].
      destruct (Hc c) as (_ & d & Hd & Ed & ?); [rewrite E; by right|]. pose proof (ring_base Hh d Hd) as (_ & _ & Hdi). unfold inside in *. hunfold. lia.
    + apply map_Forall_insert_2.
      * unfold inside in *. destruct Hbb as [->|?]; hunfold; split_and!; try done; lia.
      * intros q n Hq. destruct (hk_alloc _ _ _ _ Hh q n Hq) as (? & ? & ? & H4). split_and!; try done. rewrite <- H4. by apply (kept_size A h h' q n).
    + intros q n c [[<- <-]|[Hne Hq]]%lookup_insert_Some HcR; destruct (Hc c HcR) as (Hrc & d & Hd & Ed & ?); [done|].
      pose proof (hk_apart _ _ _ _ Hh q n d Hq Hd). hunfold. lia.
    + intros q n q' n' [[<- <-]|[Hne Hq]]%lookup_insert_Some [[<- <-]|[Hne' Hq']]%lookup_insert_Some Hqq; try done.
      * destruct (Hap q' n' Hq'). hunfold. lia.
      * by apply Hap.
      * by apply (hk_apart2 _ _ _ _ Hh).
  - destruct (A !! r) as [n|] eqn:Er; [|done]. destruct (Hap r n Er). hunfold. lia.
Qed.

Section Take.
Context (base nu : Z) (R l1 l2 : list block) (p b : block) (A : gmap Z Z) (h : heap).
Context (Hh : heap_ok base R A h) (E : R = l1 ++ p :: b :: l2) (Hnu : 1 ≤ nu ≤ b.2).

(** What [malloc] promises when it hands out the block at [r]. *)
Definition taken (r : Z) (h' : heap) : Prop :=
  ∃ R', heap_ok base R' (<[r := nu]> A) h' ∧ A !! r = None ∧ brk h' = brk h ∧ units R' = units R - nu ∧ kept A h h'.

Lemma take_elem c : c = p ∨ c = b ∨ c ∈ l1 ∨ c ∈ l2 → c ∈ R.
Proof. rewrite E, elem_of_app, !elem_of_cons. tauto. Qed.

Lemma take_order :
  StronglySorted below (l1 ++ p :: l2) ∧ below p b ∧ (∀ c, c ∈ l1 → below c p ∧ below c b) ∧ (∀ c, c ∈ l2 → below b c ∧ below p c).
Proof.
  pose proof (hk_order _ _ _ _ Hh) as Ho. rewrite E in Ho. apply StronglySorted_app in Ho as (H1 & H2 & H3).
  apply StronglySorted_cons in H3 as [H3 H4]. apply StronglySorted_cons in H4 as [H4 H5]. apply Forall_cons_1 in H3 as [H3 H6].
  rewrite Forall_forall in H4, H6. split_and!; [|done| |by auto].
  - apply StronglySorted_app. split_and!; [|done|apply StronglySorted_cons; split; [by apply Forall_forall|done]].
    intros x y Hx [->|Hy]%elem_of_cons; apply H1; rewrite ?elem_of_cons; auto.
  - intros c Hc. split; apply H1; rewrite ?elem_of_cons; auto.
Qed.

(** The ring with [b] replaced by the blocks [mid], which is empty or smaller. *)
Lemma take_ring mid :
  Forall (λ b, 1 ≤ b.2) mid → ∃ fl, l1 ++ p :: mid ++ l2 = (base, 0) :: fl ∧ Forall (λ b, 1 ≤ b.2) fl.
Proof.
  intros Hmid. destruct (hk_ring _ _ _ _ Hh) as (fl & Efl & Hfl). rewrite Efl in E.
  assert (Forall (λ b, 1 ≤ b.2) fl) as Hfl1 by (eapply Forall_impl; [exact Hfl|]; by intros c [? _]).
  destruct l1 as [|x l1']; cbn [app] in *; injection E as Ex ->.
  - exists (mid ++ l2). split; [by rewrite Ex|]. apply Forall_cons_1 in Hfl1 as [_ ?]. by apply Forall_app.
  - exists (l1' ++ p :: mid ++ l2). split; [by rewrite Ex|]. rewrite Forall_app in Hfl1 |- *. destruct Hfl1 as [H1 H2].
    split; [done|]. apply Forall_cons_1 in H2 as [H2 H3]. apply Forall_cons_1 in H3 as [_ H3]. apply Forall_cons_2; [done|]. by apply Forall_app.
Qed.

Lemma take_inside : base < b.1 ∧ inside h b ∧ inside h p ∧ base ≤ p.1 ∧ 0 < base.
Proof.
  destruct (ring_base Hh b) as (_ & _ & ?); [by apply take_elem; auto|]. destruct (ring_base Hh p) as (? & _ & ?); [by apply take_elem; auto|].
  destruct take_order as (_ & ? & _). destruct (hk_base _ _ _ _ Hh). hunfold. split_and!; try done; lia.
Qed.

Lemma take_links : links (hmem h) l1 p.1 ∧ ldn 8 (hmem h) p.1 = b.1 ∧ ldn 4 (hmem h) (p.1 + 8) = p.2 ∧
  ldn 8 (hmem h) b.1 = head_or l2 base ∧ ldn 4 (hmem h) (b.1 + 8) = b.2 ∧ links (hmem h) l2 base ∧ is_u64 (head_or l2 base).
Proof.
  pose proof (hk_links _ _ _ _ Hh) as Hl. rewrite E in Hl. apply links_app in Hl as [Hl1 (H1 & H2 & H3 & H4 & H5)].
  split_and!; try done. pose proof (hk_base _ _ _ _ Hh) as Hb.
  assert (∀ c, c ∈ l2 → is_u64 c.1) as Hin.
  { intros c Hc. apply (inside_word h base Hb c). apply (ring_base Hh), take_elem. auto. }
  clear -Hin Hb. destruct l2 as [|c l2']; [unfold is_u64; hunfold; cbn; lia|]. apply Hin. left.
Qed.

Lemma take_exact : b.2 = nu → take_block nu p.1 b.1 b.2 h = Ok (b.1 + HSIZE) (h <| hmem := stn 8 (hmem h) p.1 (head_or l2 base) |> <| freep := p.1 |>) ∧
  taken b.1 (h <| hmem := stn 8 (hmem h) p.1 (head_or l2 base) |> <| freep := p.1 |>).
Proof.
  intros Eb. destruct take_inside as (Hlt & Hbi & Hpi & Hpb & H0). destruct take_links as (Hl1 & _ & Hps & Hbn & Hbs & Hl2 & H64).
  destruct take_order as (Ho & Hpb' & Ho1 & Ho2). pose proof (hk_base _ _ _ _ Hh) as Hb. split.
  - unfold take_block. rewrite Eb, Z.eqb_refl. unfold get_ptr, set_ptr, inside in *. hunfold.
    rewrite (bind_assoc_ok _ _ _ _ _ _ (load_ok 8 b.1 h ltac:(lia) ltac:(lia))). rewrite Hbn.
    rewrite (bind_assoc_ok _ _ _ _ _ _ (store_ok 8 p.1 (head_or l2 base) h ltac:(lia) ltac:(lia))), bind_ret, bind_modify.
    unfold ret, hplus. rewrite u64_small by (hunfold; lia). by do 2 f_equal.
  - exists (l1 ++ p :: l2). destruct (set_one (hmem h) p.1 (head_or l2 base) H64) as (H1 & H2 & H3).
    assert (free_only R (hmem h) (stn 8 (hmem h) p.1 (head_or l2 base))) as Hfo.
    { intros x Hx. apply H3. specialize (Hx p (take_elem p (or_introl eq_refl))). lia. }
    destruct (heap_take base R A h (l1 ++ p :: l2) (h <| hmem := stn 8 (hmem h) p.1 (head_or l2 base) |> <| freep := p.1 |>) b.1 nu b) as [Hok HA];
      rsimpl; try done; try (by apply take_elem; auto); try lia.
    + by rewrite <- Eb, <- surjective_pairing.
    + by apply (take_ring []).
    + intros c Hc. split; [|exists c; split; [apply take_elem; set_solver|lia]].
      apply elem_of_app in Hc as [Hc|[->|Hc]%elem_of_cons]; [destruct (Ho1 c Hc)| |destruct (Ho2 c Hc)]; hunfold; lia.
    + apply links_app. cbn [links head_or]. rewrite H1, H2. split_and!; try done.
      * eapply links_same; [|exact Hl1]. intros c Hc. apply (same_but_at _ _ _ _ H3). destruct (Ho1 c Hc). hunfold. lia.
      * eapply links_same; [|exact Hl2]. intros c Hc. apply (same_but_at _ _ _ _ H3). destruct (Ho2 c Hc). hunfold. lia.
    + rewrite fmap_app. apply elem_of_app. right. left.
    + rewrite ldn_stn_ne by (hunfold; lia). by rewrite Hbs.
    + split_and!; try done; [rewrite E, !units_app; unfold units; cbn; lia|]. by apply (free_only_kept base R A); rsimpl.
Qed.

Lemma take_shrink k : k ≤ b.2 → StronglySorted below (l1 ++ p :: (b.1, k) :: l2).
Proof.
  intros Hk. destruct take_order as (Ho & Hpb & Ho1 & Ho2). apply StronglySorted_app in Ho as (_ & H1 & H2).
  apply StronglySorted_cons in H2 as [_ H2]. apply StronglySorted_app. split_and!; [|done|].
  - intros x y Hx [->|[->|Hy]%elem_of_cons]%elem_of_cons; destruct (Ho1 x Hx) as [? Hxb]; [done|hunfold; lia|].
    destruct (Ho2 y Hy). by trans b.
  - apply StronglySorted_cons. split; [apply Forall_cons_2; [hunfold; lia|]; apply Forall_forall; intros c Hc; by apply Ho2|].
    apply StronglySorted_cons. split; [|done]. apply Forall_forall. intros c Hc. destruct (Ho2 c Hc). hunfold. lia.
Qed.

Lemma take_split : nu < b.2 → let r := b.1 + HSIZE * (b.2 - nu) in
  ∃ h', take_block nu p.1 b.1 b.2 h = Ok (r + HSIZE) h' ∧ taken r h'.
Proof.
  intros Eb. cbn zeta. set (r := b.1 + HSIZE * (b.2 - nu)).
  destruct take_inside as (Hlt & Hbi & Hpi & Hpb & H0). destruct take_links as (Hl1 & Hpn & Hps & Hbn & Hbs & Hl2 & H64).
  destruct take_order as (Ho & Hpb' & Ho1 & Ho2). pose proof (hk_base _ _ _ _ Hh) as Hb.
  set (m' := stn 4 (stn 4 (hmem h) (b.1 + 8) (b.2 - nu)) (r + 8) nu). exists (h <| hmem := m' |> <| freep := p.1 |>). split.
  - unfold take_block. rewrite (proj2 (Z.eqb_neq _ _)) by lia. unfold get_size, set_size, inside in *. subst r. hunfold. rewrite u32_small by lia.
    rewrite (bind_assoc_ok _ _ _ _ _ _ (store_ok 4 (b.1 + 8) (b.2 - nu) h ltac:(lia) ltac:(lia))).
    erewrite bind_assoc_ok by (apply load_ok; rsimpl; lia). rsimpl. rewrite ldn_stn_eq, Z.mod_small by lia.
    unfold hplus. hunfold. rewrite (u64_small (b.1 + 16 * (b.2 - nu))) by lia. erewrite bind_assoc_ok by (apply store_ok; rsimpl; lia).
    rewrite bind_ret, bind_modify. unfold ret. rsimpl. rewrite u64_small, hmem_twice by lia. by do 2 f_equal.
  - assert (same_but (hmem h) (stn 4 (hmem h) (b.1 + 8) (b.2 - nu)) b.1) as Hm1 by apply same_but_size.
    assert (same_but (stn 4 (hmem h) (b.1 + 8) (b.2 - nu)) m' r) as Hm2 by apply same_but_size.
    assert (∀ q, q + HSIZE ≤ b.1 ∨ bend b ≤ q → same_at (hmem h) m' q) as Hsame.
    { intros q Hq x Hx. subst r. rewrite Hm2, Hm1; [done|..]; hunfold; lia. }
    assert (free_only R (hmem h) m') as Hfo.
    { intros x Hx. specialize (Hx b (take_elem b ltac:(auto))). subst r. rewrite Hm2, Hm1; [done|..]; hunfold; lia. }
    exists (l1 ++ p :: [(b.1, b.2 - nu)] ++ l2).
    destruct (heap_take base R A h (l1 ++ p :: [(b.1, b.2 - nu)] ++ l2) (h <| hmem := m' |> <| freep := p.1 |>) r nu b) as [Hok HA];
      rsimpl; try done; try (by apply take_elem; auto); try (subst r; hunfold; lia).
    + apply take_ring. apply Forall_singleton. cbn. lia.
    + apply take_shrink. lia.
    + intros c Hc. split.
      * apply elem_of_app in Hc as [Hc|[->|[->|Hc]%elem_of_cons]%elem_of_cons]; [destruct (Ho1 c Hc)| | |destruct (Ho2 c Hc)]; subst r; hunfold; lia.
      * apply elem_of_app in Hc as [Hc|[->|[->|Hc]%elem_of_cons]%elem_of_cons]; [exists c|exists p|exists b|exists c];
          (split; [apply take_elem; auto|cbn; lia]).
    + apply links_app. cbn [links head_or app fst snd]. split_and!; try done.
      * eapply links_same; [|exact Hl1]. intros c Hc. apply Hsame. destruct (Ho1 c Hc). hunfold. lia.
      * subst m' r. rewrite !ldn_stn_ne by (hunfold; lia). done.
      * subst m' r. rewrite !ldn_stn_ne by (hunfold; lia). done.
      * subst m' r. rewrite !ldn_stn_ne by (hunfold; lia). done.
      * subst m' r. rewrite ldn_stn_ne, ldn_stn_eq by (hunfold; lia). apply Z.mod_small. unfold inside in *. hunfold. lia.
      * eapply links_same; [|exact Hl2]. intros c Hc. apply Hsame. destruct (Ho2 c Hc). hunfold. lia.
    + rewrite fmap_app. apply elem_of_app. right. left.
    + subst m'. rewrite ldn_stn_eq. apply Z.mod_small. unfold inside in *. hunfold. lia.
    + split_and!; try done; [rewrite E, !units_app; unfold units; cbn; lia|]. by apply (free_only_kept base R A); rsimpl.
Qed.

End Take.

Lemma take_ok base nu R l1 l2 p b A h :
  heap_ok base R A h → R = l1 ++ p :: b :: l2 → 1 ≤ nu ≤ b.2 →
  ∃ r h', take_block nu p.1 b.1 b.2 h = Ok (r + HSIZE) h' ∧ taken base nu R A h r h'.
Proof.
  intros Hh E Hnu. destruct (decide (b.2 = nu)) as [Eb|Hne].
  - destruct (take_exact base nu R l1 l2 p b A h Hh E Hnu Eb). eauto.
  - destruct (take_split base nu R l1 l2 p b A h Hh E Hnu) as (h' & ? & ?); [lia|]. eauto.
Qed.

(** *** The loop of [malloc] *)

Section Loop.
Context `{Grant} (base nu : Z) (R : list block) (A : gmap Z Z) (h : heap) (Hh : heap_ok base R A h) (Hnu : 1 ≤ nu).

(** A block that is large enough, with its predecessor. *)
Definition fit (p b : block) : Prop := (∃ l1 l2, R = l1 ++ p :: b :: l2) ∧ nu ≤ b.2.

Lemma ring_size b l1 l2 : R = l1 ++ b :: l2 → get_size b.1 h = Ok b.2 h ∧ get_ptr b.1 h = Ok (head_or l2 base) h.
Proof.
  intros E. pose proof (ring_readable Hh) as Hr. rewrite E in Hr. apply readable_app in Hr.
  split; [by eapply readable_size|by apply readable_ptr].
Qed.

(** The last block of [prev :: seg]. *)
Definition last_block (prev : block) (seg : list block) : block := foldl (λ _ c, c) prev seg.

Lemma last_block_split prev seg : ∃ l, prev :: seg = l ++ [last_block prev seg].
Proof.
  revert prev. induction seg as [|c seg IH]; intros prev; [by exists []|]. destruct (IH c) as (l & E). exists (prev :: l). change (last_block prev (c :: seg)) with (last_block c seg). cbn [app]. by rewrite <- E.
Qed.

(** Walking over [seg], none of whose blocks is [freep]. *)
Lemma malloc_walk n l1 prev seg rest :
  R = l1 ++ prev :: seg ++ rest → (∀ c, c ∈ seg → c.1 ≠ freep h) →
  (∃ p b, fit p b ∧ malloc_loop (length seg + n) nu prev.1 (head_or (seg ++ rest) base) h = take_block nu p.1 b.1 b.2 h) ∨
  (∀ c, c ∈ seg → c.2 < nu) ∧
  malloc_loop (length seg + n) nu prev.1 (head_or (seg ++ rest) base) h =
    malloc_loop n nu (last_block prev seg).1 (head_or rest base) h.
Proof.
  revert l1 prev. induction seg as [|c seg IH]; intros l1 prev E Hne.
  - right. split; [by intros c ?%elem_of_nil|done].
  - destruct (ring_size c (l1 ++ [prev]) (seg ++ rest)) as [Hs Hp]; [by rewrite E, <- app_assoc|].
    cbn [length Nat.add app head_or malloc_loop]. erewrite bind_ok by exact Hs. destruct (Z.geb_spec c.2 nu) as [Hge|Hlt].
    + left. exists prev, c. split; [|done]. split; [by exists l1, (seg ++ rest)|done].
    + rewrite bind_gets, (proj2 (Z.eqb_neq _ _)) by (apply Hne; left). erewrite bind_ok by exact Hp.
      destruct (IH (l1 ++ [prev]) c) as [Hf|[Hf El]]; [by rewrite E, <- app_assoc|by intros d Hd; apply Hne; right|by left|].
      right. split; [by intros d [->|Hd]%elem_of_cons; auto; lia|]. by rewrite El.
Qed.

(** The call of [morecore] after a whole turn. *)
Definition get_more (n : nat) : UM Z :=
  q <- morecore nu ;; if q =? 0 then ret 0 else nx <- get_ptr q ;; malloc_loop n nu q nx.

Lemma malloc_turn n p :
  get_ptr (freep h) h = Ok p h →
  (∃ p' b, fit p' b ∧ malloc_loop (length R + n) nu (freep h) p h = take_block nu p'.1 b.1 b.2 h) ∨
  (∀ c, c ∈ R → c.2 < nu) ∧ malloc_loop (length R + n) nu (freep h) p h = get_more n h.
Proof.
  intros Hp. pose proof (hk_freep _ _ _ _ Hh) as Hfp. apply list_elem_of_fmap in Hfp as (f & Ef & Hf).
  apply list_elem_of_split in Hf as (a & b & E). destruct (ring_size f a b E) as [Hfs Hfn].
  rewrite <- Ef in Hfn. rewrite Hp in Hfn. injection Hfn as ->.
  assert (∀ c, c ∈ a ∨ c ∈ b → c.1 ≠ freep h) as Hne.
  { pose proof (hk_order _ _ _ _ Hh) as Ho. rewrite E in Ho. apply StronglySorted_app in Ho as (H1 & _ & H2).
    apply StronglySorted_cons in H2 as [H2 _]. rewrite Forall_forall in H2. rewrite Ef.
    intros c [Hc|Hc]; [specialize (H1 c f Hc (list_elem_of_here _ _))|specialize (H2 c Hc)]; hunfold; lia. }
  assert (length R + n = length b + (S (length a) + n))%nat as -> by (rewrite E, length_app; cbn; lia).
  destruct (malloc_walk (S (length a) + n) a f b []) as [Hfit|[Hb El]]; rewrite ?app_nil_r in *; [done|auto|left; by rewrite Ef|].
  rewrite Ef, El. cbn [head_or]. destruct (hk_ring _ _ _ _ Hh) as (fl & Efl & _). destruct a as [|x a]; rewrite Efl in E; cbn [app] in E.
  - injection E as <- <-. right. split; [intros c; rewrite Efl; intros [->|Hc]%elem_of_cons; [cbn; lia|auto]|].
    cbn [length Nat.add malloc_loop fst]. cbn [fst] in Hfs. erewrite bind_ok by exact Hfs. cbn [snd].
    replace (0 >=? nu) with false by (symmetry; rewrite Z.geb_leb; apply Z.leb_gt; lia). by rewrite bind_gets, Ef, Z.eqb_refl.
  - injection E as <- E. destruct (ring_size (base, 0) [] fl) as [Hbs Hbn]; [done|]. cbn [fst snd] in Hbs, Hbn.
    replace (S (length ((base, 0%Z) :: a)) + n)%nat with (S (length a + S n)) by (cbn; lia).
    cbn [malloc_loop]. erewrite bind_ok by exact Hbs.
    replace (0 >=? nu) with false by (symmetry; rewrite Z.geb_leb; apply Z.leb_gt; lia).
    rewrite bind_gets, (proj2 (Z.eqb_neq _ _)) by (apply (Hne (base, 0)); left; left). erewrite bind_ok by exact Hbn. rewrite E.
    destruct (malloc_walk (S n) [] (base, 0) a (f :: b)) as [Hfit|[Ha El2]]; [by rewrite Efl, E|intros c Hc; apply Hne; left; by right|left; exact Hfit|].
    cbn [fst] in El2. rewrite El2. cbn [head_or malloc_loop]. erewrite bind_ok by exact Hfs. destruct (Z.geb_spec f.2 nu) as [Hge|Hlt].
    + left. eexists _, f. split; [|reflexivity]. split; [|done]. destruct (last_block_split (base, 0) a) as (l & Ela).
      exists l, b. rewrite Efl, E. change ((base, 0) :: a ++ f :: b) with (((base, 0) :: a) ++ f :: b). by rewrite Ela, <- app_assoc.
    + right. split; [|by rewrite bind_gets, Ef, Z.eqb_refl].
      intros c. rewrite Efl, E. intros [->|[Hc|[->|Hc]%elem_of_cons]%elem_of_app]%elem_of_cons; [cbn; lia|auto|done|auto].
Qed.
End Loop.

(** *** Growing *)

(** A block of [n] units above all others, as [morecore] makes it. *)
Lemma heap_grow base R A h n :
  heap_ok base R A h → 1 ≤ n → brk h + HSIZE * n ≤ RAM →
  let h' := h <| brk := brk h + HSIZE * n |> <| hmem := stn 4 (hmem h) (brk h + 8) n |> in
  heap_ok base R (<[brk h := n]> A) h' ∧ A !! brk h = None ∧ kept A h h'.
Proof.
  intros Hh Hn Hram h'. pose proof (hk_base _ _ _ _ Hh) as Hb.
  assert (same_but (hmem h) (stn 4 (hmem h) (brk h + 8) n) (brk h)) as Hm by apply same_but_size.
  assert (∀ q k, A !! q = Some k → 1 ≤ k ∧ bend (q, k) ≤ brk h) as HA by (intros q k Hq; destruct (hk_alloc _ _ _ _ Hh q k Hq); tauto).
  assert (kept A h h') as Hk.
  { intros q k x Hq Hx. subst h'. rsimpl. destruct (HA q k Hq). apply Hm. hunfold. lia. }
  split; [|split; [|done]]; cycle 1.
  { destruct (A !! brk h) as [k|] eqn:E; [|done]. destruct (HA _ _ E). hunfold. lia. }
  assert (∀ c, c ∈ R → c.1 + HSIZE ≤ brk h ∧ bend c ≤ brk h) as HR.
  { intros c Hc. destruct (ring_base Hh c Hc) as (_ & _ & Hi). unfold inside in Hi. tauto. }
  split; subst h'; rsimpl.
  - hunfold. lia.
  - destruct (hk_ring _ _ _ _ Hh) as (fl & E & Hfl). exists fl. split; [done|]. eapply Forall_impl; [exact Hfl|]. intros c ?. hunfold. lia.
  - eapply links_same; [|apply (hk_links _ _ _ _ Hh)]. intros c Hc. apply (same_but_at _ _ _ _ Hm). destruct (HR c Hc). lia.
  - apply (hk_order _ _ _ _ Hh).
  - apply (hk_freep _ _ _ _ Hh).
  - apply map_Forall_insert_2.
    + split_and!; [done|hunfold; lia..|]. rewrite ldn_stn_eq. apply Z.mod_small. hunfold. lia.
    + intros q k Hq. destruct (hk_alloc _ _ _ _ Hh q k Hq) as (H1 & H2 & H3 & H4). split_and!; try done; [hunfold; lia|].
      pose proof (kept_size _ _ _ q k Hk Hq H1) as Hks. rsimpl. by rewrite Hks.
  - intros q k c [[<- <-]|[Hne Hq]]%lookup_insert_Some Hc; [|by apply (hk_apart _ _ _ _ Hh)]. destruct (HR c Hc). hunfold. lia.
  - intros q k q' k' [[<- <-]|[Hne Hq]]%lookup_insert_Some [[<- <-]|[Hne' Hq']]%lookup_insert_Some Hqq; try done.
    + destruct (HA q' k' Hq'). hunfold. lia.
    + destruct (HA q k Hq). hunfold. lia.
    + by apply (hk_apart2 _ _ _ _ Hh).
Qed.

(** What [morecore] asks the kernel for. *)
Definition core_units (nu : Z) : Z := if nu <? 4096 then 4096 else nu.

Lemma morecore_ok `{GrantOk} base R A h nu :
  heap_ok base R A h → 1 ≤ nu < 2 ^ 27 →
  (morecore nu h = Ok 0 h ∧ grant (brk h) (HSIZE * core_units nu) = false) ∨
  ∃ h' R', morecore nu h = Ok (freep h') h' ∧ heap_ok base R' A h' ∧ brk h' = brk h + HSIZE * core_units nu ∧
    units R' = units R + core_units nu ∧ (length R' ≤ S (length R))%nat ∧ (∃ c, c ∈ R' ∧ nu ≤ c.2) ∧ kept A h h'.
Proof.
  intros Hh Hnu. pose proof (hk_base _ _ _ _ Hh) as Hb. unfold morecore. fold (core_units nu).
  assert (nu ≤ core_units nu < 2 ^ 27 ∧ 4096 ≤ core_units nu) as Hc by (unfold core_units; destruct (Z.ltb_spec nu 4096); lia).
  set (k := core_units nu) in *. clearbody k. unfold sbrk.
  replace (k * HSIZE) with (HSIZE * k) by lia. rewrite s32_small by (hunfold; lia).
  rewrite (bind_assoc_ok _ _ _ _ _ _ (eq_refl : gets brk h = Ok (brk h) h)). replace (HSIZE * k >? 0) with true by (symmetry; apply Z.gtb_gt; hunfold; lia).
  rewrite u64_small by (hunfold; lia).
  replace (brk h + HSIZE * k >? TRAPFRAME) with false
    by (symmetry; rewrite Z.gtb_ltb; apply Z.ltb_ge; change TRAPFRAME with (2 ^ 38 - 8192); hunfold; lia).
  destruct (grant (brk h) (HSIZE * k)) eqn:Hg; [right|left; split; [|done]; by rewrite bind_ret].
  pose proof (grant_ram _ _ Hg) as Hram. destruct (heap_grow base R A h k Hh ltac:(lia) Hram) as (Hh1 & HA & Hk1).
  set (h1 := h <| brk := brk h + HSIZE * k |> <| hmem := stn 4 (hmem h) (brk h + 8) k |>) in *.
  destruct (free_ok base R _ h1 (brk h) k Hh1 (lookup_insert_eq _ _ _)) as (h2 & R2 & Ef & Hh2 & Hb2 & Hu & Hlen & (c & Hc2 & Hcn) & Hk2).
  rewrite delete_insert_id in Hh2, Hk2 by done.
  subst h1. rsimpl. exists h2, R2. split; [|split_and!; try done; [exists c; split; [done|lia]|by eapply heap_kept_trans]].
  rewrite (bind_assoc_ok _ _ _ _ _ _ (eq_refl : modify _ h = Ok tt _)), bind_ret.
  rewrite (proj2 (Z.eqb_neq _ _)) by (change SBRK_ERROR with (2 ^ 64 - 1); hunfold; lia).
  unfold set_size. erewrite bind_ok by (apply store_ok; rsimpl; hunfold; lia). rsimpl.
  unfold hplus. rewrite Z.mul_1_r, u64_small by (hunfold; lia). erewrite bind_ok by exact Ef. done.
Qed.

(** What [malloc] of [nu] units does to a heap: it hands out a fresh block, or
    returns 0 because no free block is large enough and the kernel refuses more. *)
Inductive malloc_res `{Grant} (base nu : Z) (R : list block) (A : gmap Z Z) (h : heap) : res heap Z → Prop :=
| malloc_none :
    (∀ c, c ∈ R → c.2 < nu) → grant (brk h) (HSIZE * core_units nu) = false → malloc_res base nu R A h (Ok 0 h)
| malloc_some r R' h' :
    heap_ok base R' (<[r := nu]> A) h' → A !! r = None → kept A h h' → brk h ≤ brk h' →
    HSIZE * (units R' + nu) = HSIZE * units R + (brk h' - brk h) → malloc_res base nu R A h (Ok (r + HSIZE) h').

Lemma freep_get base R A h : heap_ok base R A h → ∃ p, get_ptr (freep h) h = Ok p h ∧ 0 < freep h.
Proof.
  intros Hh. pose proof (hk_freep _ _ _ _ Hh) as Hf. apply list_elem_of_fmap in Hf as (f & -> & Hf).
  destruct (ring_base Hh f Hf) as (? & _). pose proof (hk_base _ _ _ _ Hh).
  apply list_elem_of_split in Hf as (a & b & E). destruct (ring_size base R A h Hh f a b E) as [_ ?]. eexists. split; [done|lia].
Qed.

Lemma malloc_loop_ok `{GrantOk} base R A h nu n p :
  heap_ok base R A h → 1 ≤ nu < 2 ^ 27 → get_ptr (freep h) h = Ok p h → (2 * length R + 3 ≤ n)%nat →
  malloc_res base nu R A h (malloc_loop n nu (freep h) p h).
Proof.
  intros Hh Hnu Hp Hn. replace n with (length R + (n - length R))%nat by lia. set (n1 := (n - length R)%nat).
  destruct (malloc_turn base nu R A h Hh ltac:(lia) n1 p Hp) as [(p' & b & [(l1 & l2 & E) Hb] & ->)|[Hno ->]].
  - destruct (take_ok base nu R l1 l2 p' b A h Hh E) as (r & h' & -> & R' & Hh' & Hr & Hbrk & Hu & Hk); [lia|].
    eapply malloc_some; [done..|rewrite Hbrk; lia|rewrite Hbrk; unfold HSIZE; lia].
  - unfold get_more. destruct (morecore_ok base R A h nu Hh Hnu) as [[E Hg]|(h1 & R1 & E & Hh1 & Hb1 & Hu1 & Hlen & (c & Hc & Hcn) & Hk1)];
      erewrite bind_ok by exact E; [by apply malloc_none|].
    destruct (freep_get _ _ _ _ Hh1) as (p1 & Hp1 & Hpos). rewrite (proj2 (Z.eqb_neq _ _)) by lia. erewrite bind_ok by exact Hp1.
    replace n1 with (length R1 + (n1 - length R1))%nat by lia.
    destruct (malloc_turn base nu R1 A h1 Hh1 ltac:(lia) (n1 - length R1) p1 Hp1) as [(p' & b & [(l1 & l2 & E1) Hb] & ->)|[Hno1 _]];
      [|specialize (Hno1 c Hc); lia].
    destruct (take_ok base nu R1 l1 l2 p' b A h1 Hh1 E1) as (r & h' & -> & R' & Hh' & Hr & Hbrk & Hu & Hk); [lia|].
    assert (0 ≤ core_units nu) by (unfold core_units; destruct (nu <? 4096); lia).
    eapply malloc_some; [done..|by eapply heap_kept_trans| |]; unfold HSIZE in *; lia.
Qed.

(** The heap before and after the first call of [malloc]. *)
Inductive heap_inv (base : Z) : list block → gmap Z Z → heap → Prop :=
| inv_start h : freep h = 0 → 0 < base → base + HSIZE ≤ brk h ≤ RAM → heap_inv base [(base, 0)] ∅ h
| inv_ok R A h : heap_ok base R A h → heap_inv base R A h.

Lemma heap_start base h :
  0 < base → base + HSIZE ≤ brk h ≤ RAM →
  heap_ok base [(base, 0)] ∅ (h <| hmem := stn 4 (stn 8 (hmem h) base base) (base + 8) 0 |> <| freep := base |>).
Proof.
  intros H0 Hb. split; rsimpl; try done.
  - by exists [].
  - cbn [links head_or fst snd]. rewrite ldn_stn_ne, !ldn_stn_eq by lia. split; [|done]. apply Z.mod_small. hunfold. lia.
  - repeat constructor.
  - left.
Qed.

(** The units [malloc] needs for [nbytes]. *)
Definition units_for (nbytes : Z) : Z := (nbytes + HSIZE - 1) / HSIZE + 1.

Lemma units_for_bounds nbytes :
  0 ≤ nbytes → 1 ≤ units_for nbytes ∧ nbytes + HSIZE ≤ HSIZE * units_for nbytes < nbytes + 2 * HSIZE.
Proof. intros H. unfold units_for, HSIZE. pose proof (Z.div_mod (nbytes + 16 - 1) 16). pose proof (Z.mod_pos_bound (nbytes + 16 - 1) 16). lia. Qed.

(** The call of [malloc], after its set-up on the first call. *)
Lemma malloc_start `{Grant} base R A h nbytes :
  heap_inv base R A h → 0 ≤ nbytes < 2 ^ 32 →
  ∃ h0 p, heap_ok base R A h0 ∧ kept A h h0 ∧ brk h0 = brk h ∧ get_ptr (freep h0) h0 = Ok p h0 ∧
    malloc base nbytes h = malloc_loop (fuel h0) (units_for nbytes) (freep h0) p h0.
Proof.
  intros Hi Hn. pose proof (units_for_bounds nbytes ltac:(lia)) as Hu.
  unfold malloc. fold (units_for nbytes). rewrite u32_small by (unfold HSIZE in *; lia). rewrite bind_gets.
  destruct Hi as [h Hf H0 Hb|R A h Hh].
  - pose proof (heap_start base h H0 Hb) as Hh. destruct (freep_get _ _ _ _ Hh) as (p & Hp & _).
    eexists _, p. split_and!; [exact Hh|by intros q n x Hq|by rsimpl|done|].
    rewrite Hf. cbn [Z.eqb]. rewrite (bind_ok _ _ _ base (h <| hmem := stn 4 (stn 8 (hmem h) base base) (base + 8) 0 |> <| freep := base |>)).
    + rewrite bind_gets. rsimpl. by erewrite bind_ok by exact Hp.
    + unfold set_ptr, set_size. hunfold. rewrite (bind_ok _ _ _ _ _ (store_ok 8 base base h ltac:(lia) ltac:(lia))), bind_modify.
      erewrite bind_ok by (apply store_ok; rsimpl; lia). unfold ret. with_strategy transparent [setf] reflexivity.
  - destruct (freep_get _ _ _ _ Hh) as (p & Hp & Hpos). exists h, p. split_and!; try done.
    rewrite (proj2 (Z.eqb_neq _ _)) by lia. rewrite bind_ret, bind_gets. by erewrite bind_ok by exact Hp.
Qed.


(** C35: [free] of a block in use always returns.  The block is free again,
    joined with its neighbours: the ring stays in order without adjacent blocks,
    its space grows by exactly the size of the block, and the contents of all
    other blocks in use stay as they are. *)
Theorem free_correct base R A h bp n :
  heap_ok base R A h → A !! bp = Some n →
  ∃ h' R', free (bp + HSIZE) h = Ok tt h' ∧ heap_ok base R' (delete bp A) h' ∧ brk h' = brk h ∧
    units R' = units R + n ∧ kept (delete bp A) h h'.
Proof.
  intros Hh HA. destruct (free_ok base R A h bp n Hh HA) as (h' & R' & E & Hh' & Hb & Hu & _ & _ & Hk). eauto 10.
Qed.

(** ** Examples and the size that overflows *)

Section Demo.
Instance demo_grant : Grant := λ sz n, sz + n <=? RAM.
Instance demo_grant_ok : GrantOk.
Proof. intros sz n. apply Z.leb_le. Qed.

Definition demo_heap : heap := mkHeap ∅ 0 0x3000.

Lemma demo_inv : heap_inv 0x2000 [(0x2000, 0)] ∅ demo_heap.
Proof. apply inv_start; done. Qed.


(** A free block of 10 units, and a block of 8 units in use right after it. *)
Definition demo_heap2 : heap :=
  mkHeap (stn 4 (stn 4 (stn 8 (stn 4 (stn 8 ∅ 0x2000 0x3000) 0x2008 0) 0x3000 0x2000) 0x3008 10) 0x30a8 8) 0x2000 0x4000.

Lemma demo_ok2 : heap_ok 0x2000 [(0x2000, 0); (0x3000, 10)] {[0x30a0 := 8]} demo_heap2.
Proof.
  split.
  - done.
  - eexists. split; [reflexivity|]. repeat constructor; done.
  - vm_compute. repeat split.
  - repeat constructor; done.
  - left.
  - apply map_Forall_singleton. split_and!; [done..|vm_compute; reflexivity].
  - intros q n b [<- <-]%lookup_singleton_Some Hb. hunfold. set_unfold. destruct Hb as [->|[->|[]]]; cbn; lia.
  - intros q n q' n' [<- <-]%lookup_singleton_Some [<- <-]%lookup_singleton_Some. done.
Qed.

Lemma free_correct_witness :
  (∃ h' R', free (0x30a0 + HSIZE) demo_heap2 = Ok tt h' ∧ heap_ok 0x2000 R' (delete 0x30a0 {[0x30a0 := 8]}) h' ∧ brk h' = brk demo_heap2 ∧
    units R' = units [(0x2000, 0); (0x3000, 10)] + 8 ∧ kept (delete 0x30a0 {[0x30a0 := 8]}) demo_heap2 h') ∧
  match free (0x30a0 + HSIZE) demo_heap2 with Ok _ h' => ldn 4 (hmem h') 0x3008 = 18 | _ => False end.
Proof. split; [apply (free_correct 0x2000 _ _ _ 0x30a0 8 demo_ok2); reflexivity|vm_compute; reflexivity]. Defined.

End Demo.

(** [nu * sizeof(Header)] does not fit the [int] argument of [sbrk] for 2 GB
    and more: the process is not grown, but [morecore] goes on as if it were and
    the write to the header faults. *)
Lemma malloc_huge_faults `{Grant} base R A h nbytes :
  heap_inv base R A h → 2 ^ 31 - 16 ≤ nbytes ≤ 2 ^ 32 - 32 → malloc base nbytes h = Fault.
Proof.
  intros Hi Hn. destruct (malloc_start base R A h nbytes Hi ltac:(lia)) as (h0 & p & Hh & _ & _ & Hp & ->).
  pose proof (units_for_bounds nbytes ltac:(lia)) as Hu. set (nu := units_for nbytes) in *. clearbody nu.
  pose proof (ring_fuel Hh) as Hf. pose proof (hk_base _ _ _ _ Hh) as Hb.
  replace (fuel h0) with (length R + (fuel h0 - length R))%nat by lia.
  destruct (malloc_turn base nu R A h0 Hh ltac:(lia) (fuel h0 - length R) p Hp) as [(p' & b & [(l1 & l2 & E) Hfit] & _)|[_ ->]].
  - destruct (ring_base Hh b) as (_ & _ & Hbi); [rewrite E; set_solver|]. unfold inside in Hbi. hunfold. lia.
  - unfold get_more. apply bind_fault. unfold morecore. rewrite (proj2 (Z.ltb_ge _ _)) by (unfold HSIZE in *; lia).
    assert (s32 (nu * HSIZE) ≤ 0) as Hs.
    { unfold s32, HSIZE in *. destruct (decide (nu * 16 = 2 ^ 32)) as [->|]; [done|].
      rewrite (Z.mod_eq (nu * 16 + 2 ^ 31)) by lia. replace ((nu * 16 + 2 ^ 31) / 2 ^ 32) with 1; [lia|].
      apply (Z.div_unique _ _ _ (nu * 16 + 2 ^ 31 - 2 ^ 32)); lia. }
    unfold sbrk. rewrite (bind_assoc_ok _ _ _ _ _ _ (eq_refl : gets brk h0 = Ok (brk h0) h0)).
    replace (s32 (nu * HSIZE) >? 0) with false by (symmetry; rewrite Z.gtb_ltb; apply Z.ltb_ge; lia).
    set (newsz := if u64 (brk h0 + s32 (nu * HSIZE)) >=? brk h0 then _ else _).
    assert (newsz ≤ brk h0) as Hnew by (subst newsz; destruct (Z.geb_spec (u64 (brk h0 + s32 (nu * HSIZE))) (brk h0)); lia).
    rewrite (bind_assoc_ok _ _ _ _ _ _ (eq_refl : modify _ h0 = Ok tt _)), bind_ret.
    rewrite (proj2 (Z.eqb_neq _ _)) by (change SBRK_ERROR with (2 ^ 64 - 1); hunfold; lia).
    apply bind_fault. unfold set_size, store. rsimpl. rewrite (proj2 (Z.leb_gt (brk h0 + 8 + Z.of_nat 4) newsz)) by lia. by rewrite andb_false_r.
Qed.
