(* ===== verification/Sbrk.v ===== *)
(** * The size of a process: [growproc] and [sbrk] against the heap

    The allocator of [Umalloc.v] runs on the memory of one process and calls
    [sbrk], described there by its effect on that memory.  Here the kernel's
    [sys_sbrk] and [growproc] are shown to have this effect on the address
    space of the process that calls them, for both ways of growing (with pages
    now, or with pages at the first access) and for shrinking. *)

From Stdlib Require Import ZArith Lia.
From S2P Require Import Prelude Params CString State Kalloc Process Vm VmRep VmMap Uvm Copy Space Bytes Sleeplock Bio BioRep Cache Log Fs Console File Lifecycle Exec Sysarg Sysproc Sysfile Syscall Trap Limits Umalloc.
From stdpp Require Import base gmap strings numbers list.

Open Scope Z_scope.

(** The memory of a heap is what an address space of [brk] bytes shows; above
    its last page it was never written. *)
Record sees (m : memory) (T : aspace) (h : heap) : Prop := {
  se_brk : 0 ≤ brk h ≤ TRAPFRAME;
  se_mem : ∀ va b, 0 ≤ va → uview m T (brk h) va = Some b → ldb (hmem h) va = b;
  se_zero : ∀ va, PGROUNDUP (brk h) ≤ va → ldb (hmem h) va = 0
}.

Section Sbrk.
Context `{HL : Layout, HLO : !LayoutOk, HW : Wakeups, HB : BlockDev, HU : Uninit, HD : DiskIntr}.

(** Process [i] runs, and its memory is that of [h]. *)
Record proc_mem (i : nat) (T : aspace) (fl : list Z) (h : heap) (s : kst) : Prop := {
  pm_proc : ∃ p, cur s = Some i ∧ procs s !! i = Some p ∧ p_sz p = brk h ∧ uvm_wf s (p_pagetable p) T fl;
  pm_leaf : process_as T (brk h);
  pm_sees : sees (ram s) T h
}.

Lemma page_of va n : va < n * 4096 ↔ va / 4096 < n.
Proof. pose proof (Z.div_mod va 4096). pose proof (Z.mod_pos_bound va 4096). lia. Qed.

Lemma sees_grow m T m' T' h n :
  sees m T h → 0 ≤ n → brk h + n ≤ TRAPFRAME →
  (∀ w, uview m' T' (brk h + n) w = uview m T (brk h + n) w) → sees m' T' (h <| brk := brk h + n |>).
Proof.
  intros [Hb Hm Hz] Hn Hmax Hv. destruct (PGROUNDUP_pages (brk h)) as (E1 & H1 & _); [lia..|].
  destruct (PGROUNDUP_pages (brk h + n)) as (E2 & H2 & _); [lia..|].
  split; rsimpl; [lia| |intros va Hva; apply Hz; lia].
  intros va b Hva Hb'. rewrite Hv in Hb'. destruct (decide (PGROUNDUP (brk h) ≤ va)) as [Hhi|Hlo].
  - rewrite Hz by done. unfold uview in Hb', Hm. specialize (Hm va).
    destruct (leaf T !! (va / 4096)) as [e|] eqn:El.
    + rewrite <- (Hz va Hhi). by apply Hm.
    + destruct (va / 4096 * 4096 <? brk h + n); congruence.
  - apply Hm; [done|]. unfold uview in *. destruct (leaf T !! (va / 4096)) as [e|]; [done|].
    pose proof (proj1 (page_of va (npages (brk h))) ltac:(lia)). rewrite (proj2 (Z.ltb_lt _ _)) in Hb' by lia. rewrite (proj2 (Z.ltb_lt _ _)) by lia. done.
Qed.

Lemma ldb_cut (m : memory) n va :
  ldb (filter (λ kv, kv.1 < n) m) va = if decide (va < n) then ldb m va else 0.
Proof.
  unfold ldb. rewrite map_lookup_filter. destruct (m !! va) as [x|] eqn:E; cbn; [|by case_decide].
  case_decide; [by rewrite option_guard_True|by rewrite option_guard_False].
Qed.

Lemma sees_shrink m T m' T' h newsz :
  sees m T h → 0 ≤ newsz ≤ brk h → process_as T' newsz →
  (∀ w, w < npages newsz → leaf T' !! w = leaf T !! w) → (∀ sz w, uview m' T' sz w = uview m T' sz w) →
  (∀ v e, leaf T' !! v = Some e → has e PTE_U = true → 0 ≤ v < UVPN) →
  sees m' T' (h <| brk := newsz |> <| hmem ::= filter (λ kv, kv.1 < PGROUNDUP newsz) |>).
Proof.
  intros [Hb Hm Hz] Hn Hbd Hl Hk Hu. destruct (PGROUNDUP_pages newsz) as (E1 & H1 & _); [lia..|].
  split; rsimpl; [lia| |intros va Hva; rewrite ldb_cut, decide_False by lia; done].
  intros va b Hva Hv. rewrite Hk in Hv.
  assert (va / 4096 < npages newsz) as Hin.
  { unfold uview in Hv. destruct (leaf T' !! (va / 4096)) as [e|] eqn:El.
    - destruct (has e PTE_U) eqn:Ee; [|done]. pose proof (Hu _ _ El Ee).
      destruct (decide (va / 4096 < npages newsz)); [done|]. rewrite (process_none _ _ _ Hbd) in El by lia. done.
    - destruct (Z.ltb_spec (va / 4096 * 4096) newsz); [lia|done]. }
  rewrite ldb_cut, decide_True by (rewrite E1; by apply page_of). apply Hm; [done|].
  rewrite (uview_leaf m T T') in Hv by (by apply Hl). unfold uview in *.
  destruct (leaf T !! (va / 4096)); [done|]. rewrite (proj2 (Z.ltb_lt _ _)) by lia.
  destruct (va / 4096 * 4096 <? newsz); congruence.
Qed.

(** [p->sz = sz] at the end of a change of the address space. *)
Lemma resize i p f T fl h s :
  cur s = Some i → procs s !! i = Some p → p_sz (f p) = brk h → uvm_wf s (p_pagetable (f p)) T fl →
  process_as T (brk h) → sees (ram s) T h → ∃ s', updp i f s = Ok tt s' ∧ proc_mem i T fl h s'.
Proof.
  intros Hc Hp Hsz Hw Hb Hs. eexists. split; [by apply (updp_ok i f p)|]. split; [|done|by rsimpl].
  exists (f p). split_and!; [by rsimpl|rsimpl; apply list_lookup_insert_eq; by eapply lookup_lt_Some|done|].
  eapply uvm_wf_eq, Hw; by rsimpl.
Qed.

Lemma move_proc s T fl s' T' fl' : uvm_move s T fl s' T' fl' → cur s' = cur s ∧ procs s' = procs s.
Proof. intros [-> _ _]. by rsimpl. Qed.

Lemma shrink_ok i p T fl h s newsz :
  proc_mem i T fl h s → procs s !! i = Some p → 0 ≤ newsz ≤ brk h →
  ∃ s' T' fl', (sz <- uvmdealloc (p_pagetable p) (p_sz p) newsz ;; updp i (λ p, p <| p_sz := sz |>) ;;; ret 0) s = Ok 0 s' ∧
    proc_mem i T' fl' (h <| brk := newsz |> <| hmem ::= filter (λ kv, kv.1 < PGROUNDUP newsz) |>) s'.
Proof.
  intros [(p' & Hc & Hp & Hsz & Hw) Hb Hs] Hp' Hn. assert (p' = p) as -> by congruence. pose proof (se_brk _ _ _ Hs) as Hmax.
  destruct (uvmdealloc_ok s (p_pagetable p) T fl (p_sz p) newsz) as (s1 & T1 & fl1 & E & Hw1 & Hm & _ & Hl & Hk);
    [done|lia|lia|]. erewrite bind_ok by exact E.
  destruct (move_proc _ _ _ _ _ _ Hm) as [Ec Ep].
  destruct (PGROUNDUP_pages newsz) as (E1 & ? & _); [lia..|]. destruct (PGROUNDUP_pages (brk h)) as (E2 & ? & _); [lia..|].
  assert (process_as T1 newsz) as Hb1.
  { intros w Hw'. rewrite Hl in Hw'. case_decide; [by destruct Hw'|]. apply Hb in Hw'. rewrite Hsz in *. lia. }
  destruct (resize i p (λ p, p <| p_sz := newsz |>) T1 fl1
    (h <| brk := newsz |> <| hmem ::= filter (λ kv, kv.1 < PGROUNDUP newsz) |>) s1) as (s2 & E3 & Hp2); rsimpl;
    [congruence|congruence|done|done|done| |].
  - eapply sees_shrink; [exact Hs|done|done| | |apply Hw1].
    + intros w Hw'. rewrite Hl, decide_False by lia. done.
    + intros sz w. apply uview_ext; [exact Hk|apply Hw1].
  - exists s2, T1, fl1. by erewrite bind_ok by exact E3.
Qed.

Lemma uvmdealloc_min root sz x : uvmdealloc root sz x = uvmdealloc root sz (if x >=? sz then sz else x).
Proof. unfold uvmdealloc. destruct (x >=? sz) eqn:E; [|by rewrite E]. by rewrite Z.geb_leb, Z.leb_refl. Qed.

Lemma sbrk_grow b n h :
  0 < n → 0 ≤ brk h + n ≤ TRAPFRAME →
  @sbrk (λ _ _, b) n h = if b then Ok (brk h) (h <| brk := brk h + n |>) else Ok SBRK_ERROR h.
Proof.
  change TRAPFRAME with (67108862 * 4096). intros Hn Hb. unfold sbrk. kstep. rewrite u64_small by lia.
  rewrite !Z.gtb_ltb, (proj2 (Z.ltb_lt _ _)), (proj2 (Z.ltb_ge _ _)) by (done || change TRAPFRAME with (67108862 * 4096); lia).
  by destruct b.
Qed.

Lemma sbrk_shrink b n h newsz :
  n ≤ 0 → newsz = (if u64 (brk h + n) >=? brk h then brk h else u64 (brk h + n)) →
  @sbrk (λ _ _, b) n h = Ok (brk h) (h <| brk := newsz |> <| hmem ::= filter (λ kv, kv.1 < PGROUNDUP newsz) |>).
Proof. intros Hn ->. unfold sbrk. kstep. by rewrite Z.gtb_ltb, (proj2 (Z.ltb_ge _ _)) by done. Qed.

Lemma sbrk_big b n h : 0 < n → 0 ≤ brk h + n < 2 ^ 64 → TRAPFRAME < brk h + n → @sbrk (λ _ _, b) n h = Ok SBRK_ERROR h.
Proof.
  intros Hn Hr Hb. unfold sbrk. kstep. rewrite u64_small by done.
  by rewrite !Z.gtb_ltb, !(proj2 (Z.ltb_lt _ _)) by done.
Qed.

(** What [growproc] does is what [sbrk] does to the heap, where the kernel
    grants the pages if it finds them. *)
Lemma growproc_ok i T fl h s n :
  proc_mem i T fl h s → - 2 ^ 31 ≤ n < 2 ^ 31 →
  ∃ b r s' T' fl' h', growproc n s = Ok r s' ∧
    @sbrk (λ _ _, b) n h = Ok (if r <? 0 then SBRK_ERROR else brk h) h' ∧ proc_mem i T' fl' h' s' ∧ (r = 0 ∨ r = -1) ∧ (n ≤ 0 → b = true).
Proof.
  intros Hpm Hn. pose proof Hpm as [(p & Hc & Hp & Hsz & Hw) Hb Hs]. pose proof (se_brk _ _ _ Hs) as Hmax.
  change TRAPFRAME with (67108862 * 4096) in Hmax.
  unfold growproc. erewrite bind_ok by (by apply curproc_ok). erewrite bind_ok by (by apply getp_ok). cbv zeta.
  rewrite (Z.gtb_ltb n). destruct (Z.ltb_spec 0 n) as [Hpos|Hneg].
  - rewrite Hsz, u64_small, Z.gtb_ltb by lia. destruct (Z.ltb_spec TRAPFRAME (brk h + n)) as [Hbig|Hfit].
    { exists false, (-1), s, T, fl, h. rewrite sbrk_big by lia. split_and!; auto; lia. }
    destruct (uvmalloc_ok s (p_pagetable p) T fl (brk h) (brk h + n) PTE_W) as (r & s1 & T1 & fl1 & E & Hw1 & Hm & Hcase);
      [done|lia|done|done|done|]. destruct (move_proc _ _ _ _ _ _ Hm) as [Ec Ep]. erewrite bind_ok by exact E.
    destruct Hcase as [(-> & Hb1 & Hv)|(-> & Hb1 & Hv)].
    + rewrite (proj2 (Z.eqb_neq _ _)) by lia.
      destruct (resize i p (λ p, p <| p_sz := brk h + n |>) T1 fl1 (h <| brk := brk h + n |>) s1) as (s2 & E2 & Hp2); rsimpl;
        [congruence|congruence|done|done|done|eapply sees_grow; [exact Hs|lia|done|done]|].
      erewrite bind_ok by exact E2. exists true, 0, s2, T1, fl1, (h <| brk := brk h + n |>). rewrite sbrk_grow by lia. split_and!; auto; lia.
    + exists false, (-1), s1, T1, fl1, h. rewrite sbrk_grow by lia. split_and!; [done..| |auto|lia].
      split; [exists p; split_and!; congruence|done|].
      destruct Hs as [? Hm0 ?]. split; [done| |done]. intros va b0 Hva. rewrite Hv. auto.
  - set (newsz := if u64 (brk h + n) >=? brk h then brk h else u64 (brk h + n)).
    destruct (shrink_ok i p T fl h s newsz) as (s1 & T1 & fl1 & E & Hp1); [done|done| |].
    { unfold newsz. pose proof (u64_range (brk h + n)). destruct (Z.geb_spec (u64 (brk h + n)) (brk h)); lia. }
    exists true, 0, s1, T1, fl1. eexists. rewrite (sbrk_shrink _ _ _ newsz) by done. split; [|auto]. rewrite <- E. unfold newsz. rewrite Hsz.
    destruct (Z.ltb_spec n 0) as [Hlt|Hge].
    + by rewrite uvmdealloc_min.
    + assert (n = 0) as -> by lia. rewrite Z.add_0_r, u64_small by lia. rewrite Z.geb_leb, Z.leb_refl.
      unfold uvmdealloc. by rewrite Z.geb_leb, Z.leb_refl.
Qed.

(** Growing without pages. *)
Lemma lazy_ok i p T fl h s n :
  proc_mem i T fl h s → procs s !! i = Some p → 0 ≤ n → brk h + n ≤ TRAPFRAME →
  ∃ s' h', updp i (λ p, p <| p_sz := u64 (p_sz p + n) |>) s = Ok tt s' ∧ @sbrk (λ _ _, true) n h = Ok (brk h) h' ∧ proc_mem i T fl h' s'.
Proof.
  intros [(p' & Hc & Hp & Hsz & Hw) Hb Hs] Hp' Hn Hfit. assert (p' = p) as -> by congruence.
  pose proof (se_brk _ _ _ Hs) as Hmax. assert (TRAPFRAME = 67108862 * 4096) as HT by done.
  destruct (PGROUNDUP_pages (brk h)) as (E1 & ? & _); [lia..|].
  destruct (PGROUNDUP_pages (brk h + n)) as (E2 & ? & _); [lia..|].
  assert (∃ h', @sbrk (λ _ _, true) n h = Ok (brk h) h' ∧ brk h' = brk h + n ∧ sees (ram s) T h') as (h' & Eh & Hbrk & Hsee).
  { destruct (decide (n = 0)) as [->|Hpos].
    - eexists. rewrite (sbrk_shrink _ _ _ (brk h)) by (try done; by rewrite Z.add_0_r, u64_small, Z.geb_leb, Z.leb_refl by lia).
      split; [done|]. split; [rsimpl; lia|]. eapply sees_shrink; [exact Hs|lia|done|done|done|apply Hw].
    - eexists. rewrite sbrk_grow by lia. split; [done|]. split; [by rsimpl|].
      by eapply sees_grow; [exact Hs|..]. }
  destruct (resize i p (λ p, p <| p_sz := u64 (p_sz p + n) |>) T fl h' s) as (s1 & E & Hpm1); rsimpl; [done|done| |done| |done|].
  - rewrite Hsz, u64_small by lia. done.
  - intros w Hw'. apply Hb in Hw'. rewrite Hbrk. lia.
  - by exists s1, h'.
Qed.

End Sbrk.

(** C28: The [sbrk] of the kernel is the [sbrk] the allocator is verified
    against: on the memory of the calling process [sys_sbrk] changes exactly
    what the heap's [sbrk] changes and returns the same, for growing eagerly or
    lazily, shrinking, and failing, where memory is granted if the kernel has
    it (always, when growing lazily); a failed call leaves memory as it was. *)
Theorem sys_sbrk_refines `{Layout, !LayoutOk, Wakeups, BlockDev, Uninit, DiskIntr} i p T fl h s :
  args_ok i p s → proc_mem i T fl h s →
  ∃ b r s' T' fl' h', sys_sbrk s = Ok r s' ∧ @sbrk (λ _ _, b) (s32 (arg p s 0)) h = Ok (u64 r) h' ∧
    proc_mem i T' fl' h' s' ∧ (s32 (arg p s 1) ≠ SBRK_EAGER → b = true).
Proof.
  intros Ha Hpm. pose proof Hpm as [(p' & Hc & Hp & Hsz & Hw) Hb Hs].
  assert (p' = p) as -> by (destruct Ha; congruence). pose proof (se_brk _ _ _ Hs) as Hmax. assert (TRAPFRAME = 67108862 * 4096) as HT by done.
  unfold sys_sbrk. do 2 (erewrite bind_ok by (eapply argint_ok; [exact Ha|lia])).
  erewrite bind_ok by (by apply curproc_ok). erewrite bind_ok by (by apply getp_ok). cbv zeta.
  pose proof (s32_range (arg p s 0)) as Hn. set (n := s32 (arg p s 0)) in *. set (t := s32 (arg p s 1)) in *.
  destruct (decide (t = SBRK_EAGER ∨ n < 0)) as [Hgrow|Hlazy].
  - replace ((t =? SBRK_EAGER) || (n <? 0)) with true by lia.
    destruct (growproc_ok i T fl h s n Hpm Hn) as (b & r & s' & T' & fl' & h' & E & Eh & Hpm' & Hr & Hbt).
    erewrite bind_ok by exact E. exists b. eexists _, s', T', fl', h'. split_and!; [reflexivity| |done|].
    + rewrite Eh. destruct Hr as [-> | ->]; [|done]. cbn [Z.ltb Z.compare]. by rewrite Hsz, u64_small by lia.
    + intros Ht. apply Hbt. lia.
  - replace ((t =? SBRK_EAGER) || (n <? 0)) with false by lia. rewrite Hsz, u64_small by lia.
    rewrite (proj2 (Z.ltb_ge _ _)), Z.gtb_ltb by lia. destruct (Z.ltb_spec TRAPFRAME (brk h + n)) as [Hbig|Hfit].
    { exists true, (-1), s, T, fl, h. rewrite sbrk_big by lia. split_and!; auto. }
    destruct (lazy_ok i p T fl h s n) as (s1 & h1 & E & Eh & Hpm1); [done..|lia|done|].
    exists true, (brk h), s1, T, fl, h1. rewrite Eh, u64_small by lia. by erewrite bind_ok by exact E.
Qed.

Section Witnesses.
#[local] Instance sbrk_wakeups : Wakeups := 0%nat.
#[local] Instance sbrk_disk : BlockDev := ram_disk.
#[local] Instance sbrk_uninit : Uninit := Build_Uninit [] [] [].
#[local] Instance sbrk_intr : DiskIntr := ret tt.
Local Existing Instance qemu_layout.
Local Existing Instance qemu_layout_ok.

(** A process of 5000 bytes, of which no page is there yet, calls [sbrk(5000)]. *)
Definition call_mem : memory := store64 (store64 ∅ (child_root + TF_A 0) 5000) (child_root + TF_A 1) SBRK_EAGER.
Definition call_proc : proc :=
  proc0 <| p_state := RUNNING |> <| p_pagetable := demo_root |> <| p_sz := 5000 |> <| p_trapframe := child_root |>.
Definition sbrk_demo : kst := (spare call_mem) <| procs := [call_proc] |> <| cur := Some 0%nat |>.
Definition heap_demo : heap := mkHeap ∅ 0 5000.

Lemma call_mem_zero : zero_page call_mem demo_root.
Proof. intros b Hb. unfold call_mem. unfold demo_root, PGSIZE in Hb. rewrite !ldb_stn_ne by (unfold child_root, TF_A; lia). done. Qed.

Lemma sbrk_demo_ok : proc_mem 0 (empty_as demo_root) fork_pages heap_demo sbrk_demo.
Proof.
  split; [|apply process_empty|].
  - exists call_proc. split; [reflexivity|]. split; [reflexivity|]. split; [reflexivity|].
    apply (uvm_wf_eq (spare call_mem)); [unfold sbrk_demo; by rsimpl..|].
    apply spare_vm; [by vm_compute|apply (bool_decide_unpack _); by vm_compute|apply call_mem_zero].
  - split; [by vm_compute| |done]. intros va b Hva. unfold uview. cbn [leaf empty_as]. rewrite lookup_empty.
    destruct (_ <? _); [|done]. by intros [= <-].
Qed.

Lemma sbrk_demo_args : args_ok 0 call_proc sbrk_demo ∧ arg call_proc sbrk_demo 0 = 5000.
Proof.
  split; [split; [reflexivity..|]|by vm_compute]. intros n Hn. unfold phys_ok, call_proc, TF_A. rsimpl.
  unfold child_root, KERNBASE, PHYSTOP, KERNBASE. apply andb_true_iff. split; apply Z.leb_le; lia.
Qed.

Lemma sys_sbrk_refines_witness :
  ∃ r s' T' fl' h' b, sys_sbrk sbrk_demo = Ok r s' ∧ @sbrk (λ _ _, b) 5000 heap_demo = Ok (u64 r) h' ∧ proc_mem 0 T' fl' h' s'.
Proof.
  destruct sbrk_demo_args as [Ha E0].
  destruct (sys_sbrk_refines 0 call_proc (empty_as demo_root) fork_pages heap_demo sbrk_demo Ha sbrk_demo_ok)
    as (b & r & s' & T' & fl' & h' & E & Eh & Hpm & _).
  rewrite E0 in Eh. exists r, s', T', fl', h', b. exact (conj E (conj Eh Hpm)).
Defined.

End Witnesses.
